(* ===== verification/_CoqProject ===== *)
-Q . S2P
Prelude.v
Sql.v
Schemas.v
EffectLedger.v
ObligationLedger.v
TimersValues.v
Snapshots.v
Compact.v
Connectors.v
Reactors.v
WellFormed.v
Samples.v
EffectFacts.v
EffectTheorems.v
ObligationTheorems.v
TimersTheorems.v
CompactTheorems.v
SnapshotTheorems.v
ReactorFacts.v
ReactorTheorems.v
Decorators.v
Plugin.v
PluginTheorems.v
Chaos.v
Main.v
System.v
ChaosTheorems.v
Scenarios.v
ScenarioTheorems.v
Lineage.v
Sampling.v
Contracts.v
Program.v
Client.v
SdkSamples.v
SdkOutbox.v
OutboxProtocol.v
SdkOutboxTheorems.v
Recover.v
RecoverTheorems.v
SdkReactors.v
SdkReactorTheorems.v
SdkLoops.v
SdkEntry.v
Identity.v
SdkPlugin.v
SdkPluginTheorems.v
Reactions.v
ReactionTheorems.v
ContractTheorems.v
Sinks.v
HttpConnector.v
SdkEdges.v
ConnectorTheorems.v
Sessions.v
Invariants.v
JournalSnapshots.v
ReplayTheorems.v
SdkChaos.v
Proxies.v
McpStdio.v
ExampleBank.v
DemoBank.v
DemoBankTheorems.v
Treasury.v
CliText.v
CliJournal.v
CliInspector.v
CliConfig.v
CliDoctor.v
CliInspectAdk.v
CliTriageTheorems.v
CliInspect.v
CliDeploy.v
CliManage.v
CliRelease.v
CliChaos.v
CliRun.v
CliDemo.v
CliStage.v
