(* ===== verification/Prelude.v ===== *)
(** * Tape: a verification development of the durable-agent substrate's Python code

    Tape makes the side effects of an agent durable: every tool call is journaled
    as an _effect_ before it runs, a compensation is an _obligation_ in a second
    ledger, and reactors drive both ledgers to completion after a crash.  This
    library models the Python implementation: the embedded tier over a database,
    the SDK of the tier with a server, the chaos harness, the command line and the
    examples' counterparties.

    ** The program's parts and the files that model them

    The embedded tier, [src/tape/sdk/python-adk/tape_adk/]:
    - [schemas.py], the tables: [Sql] (SELECT, INSERT, UPDATE and DELETE on a table as
      a list of rows) and [Schemas] (one record per table class, the primary keys,
      UNIQUE constraints and foreign keys an INSERT is checked against).  [Db.t] is
      the whole store: the ADK session rows, the five tables, the obligation sequence.
    - [service.py], [TapeSessionService], one definition per method: [EffectLedger]
      (begin, complete, claim, attempt, observe, the two queues), [ObligationLedger]
      (register, list, claim, attempt, resolve), [TimersValues] (timers, versioned
      values), [Snapshots] (snapshot, continue-as-new).
    - [compact.py]: [Compact].  [connectors.py]: [Connectors], a record of operations on
      an outside world [W] and the class [LawfulConnector] of what the protocol
      promises.  [reactors.py]: [Reactors], the dispatcher, the reconciler, the
      compensation drainer and the timer firer, each one tick over [Db.t * W].
      [__main__.py]: [Main], the guarded tick, the loop and the process.
    - [decorators.py]: [Decorators].  [plugin.py]: [Plugin], the callbacks ADK makes around
      a model turn and a tool call.  [chaos.py]: [Chaos].

    The SDK of the server tier, [src/tape/sdk/python/tape/], whose code is a sequence of
    calls ([Program], [Client]):
    - [client.py]: [Client], the messages, the calls and the client's methods, with the loop
      every process of the SDK is.
      [effect.py], [retry.py]: [Contracts].  [det.py]: [Sampling].
    - [reactors/outbox.py]: [SdkOutbox].  [_recover.py]: [Recover].  [reactors/__init__.py]:
      [SdkReactors], the reconciler, the timers, the relay and the supervisor's tick;
      [SdkLoops], every loop around them with its callbacks; [SdkEntry], the command
      lines of both processes, the launcher and the functions of the package.
    - [adk/identity.py], [tenancy.py], [gates.py], [budget.py]: [Identity].  [adk/plugin.py]:
      [SdkPlugin].  [adk/session.py], [adk/durable.py]: [Sessions].
    - [reactions.py]: [Reactions].  [sinks.py]: [Sinks].  [connectors/http.py] and
      [connectors/pubsub.py]: [HttpConnector], with how a connector is called
      ([connectors/base.py]).  [SdkEdges]: the client's channel, the subscriber's and the
      Pub/Sub bridge's processes, the sinks that write to a log or a topic.
    - [chaos/]: [Scenarios] (with [connectors/base.py]), [Lineage], [Invariants],
      [JournalSnapshots] (snapshots and replay), [SdkChaos] (faulty connectors, the
      reliability surface), [Proxies] (HTTP), [McpStdio] (JSON-RPC over pipes, with the
      child process, both pumps and the command).

    The examples and the command line:
    - [examples/non_idempotent_bank/]: [ExampleBank], the ledger file and its connector;
      its module [Aiplex] is [examples/standalone/aiplex-integration/run.py].
      [examples/treasury/]: [Treasury], the three counterparties.
      [cli/tape_cli/commands/demo.py]: [DemoBank], the file bank, the embedded demo and the
      project template's connector; [CliDemo], the demos against a server, and the screen;
      [CliStage], the scenarios as the screen tells them and the three commands whole.
    - [cli/tape_cli/]: [CliText] (console, calls, exit codes), [CliJournal] ([_journal.py],
      [_replay.py]), [CliInspector] ([_inspector_app.py]), [CliConfig] ([config.py]),
      [CliDoctor] ([doctor.py]), [CliInspectAdk] ([inspect_adk.py]), [CliInspect]
      ([inspect.py], [tail.py]), [CliDeploy] (what [iac.py], [deploy.py] and [dev.py]
      generate and choose), [CliRelease] ([provision.py], [deploy.py] and [dev.py] whole),
      [CliManage] (scaffolding, [logs.py], [destroy.py], [migrate.py], [status.py]),
      [CliChaos] ([chaos.py]), [CliRun] ([inspect.py], [tail.py], [doctor.py] and
      [inspect_adk.py] whole).

    The parts meet in the store.  The plugin calls [begin_effect] before a tool and
    [complete_effect] after it, an outbox tool leaves a PENDING row the dispatcher
    claims, an ambiguous dispatch leaves an UNKNOWN row the reconciler resolves, a
    duplicate leaves an obligation the drainer runs, and the compactor removes what
    nothing needs any more.  The server tier does the same over RPCs.  The command
    line reads the store or asks the server, and never acts on an effect.

    ** How the code is modelled

    - A method on the store is a computation [M S A]: it returns or raises, and
      leaves a store either way.  [txn] is [_write_lock] with
      [_rollback_on_exception_session]: the statements of a method commit together or
      not at all, and no other writer interleaves.  Statements outside one block are
      separate transactions, so the reactors are sequences of them; other processes'
      steps between them are covered by [System], whose traces order whole methods
      arbitrarily.
    - Code over a server or a console is a [prog], the calls left uninterpreted:
      [exec] relates it to every trace of calls and answers, so a theorem about
      [exec] holds of every server; [run] interprets it for the witnesses.  A process that
      may be killed is a prefix of a trace; [survives] proves what holds after each call
      of it, in a world that a [step] relation describes.
    - [_now_ms()] is an argument [clk] of a service method, a draw from the world in a
      reactor and a call in a [prog].  Python integers are [Z], a LIMIT is a [nat],
      floats are rationals where only their order matters and binary64 ([SpecFloat])
      where they are printed, a JSON value is [json], an exception is a constructor of
      [exn].
    - A table is the list of its rows in the order the store returns them; ties of
      an ORDER BY keep that order, as a stable sort does.
    - The session's [execute] raises [IntegrityError] exactly when a constraint is
      violated, foreign keys are enforced, and obligation sequence numbers grow.
    - A file that is read and written whole is an [option] of its contents; a widget is
      a class of the operations the app uses with their laws ([DataTable]).
    - What is not in these files is a parameter: a connector's behaviour, random
      draws, [str] and [repr] of foreign values and JSON parsing (the class [PyText]),
      the YAML reader, the template engine.
    - Loops over lists are structural.  Fuel bounds the retry loop ([Contracts.retry_from];
      [retry_ends]: as much fuel as attempts is enough), the wait for a token
      ([Reactions.acquire]; [acquire_ends]) and the events of a buffer
      ([Proxies.write_events]; its fuel is the buffer's length).  The loops that run
      until they are stopped take the list of the readings of their stop event, or the
      number of turns they have had.
    - A command that calls both a server and the console is a [prog] over both kinds of
      calls ([CliStage.demo_answer]), whose trace splits into the two.

    ** What the theorems show

    - The embedded store: [WellFormed] states the invariant [wf], [System.reachable_wf]
      proves it of every database any sequence of operations reaches and
      [System.reactor_process_safe] that the reactor process keeps it whatever the connectors do;
      [System.effect_evolution] is the effect state machine, [System.lease_exclusive]
      the mutual exclusion of dispatchers,
      [System.unknown_effect_not_redispatched] that an ambiguous effect leaves the outbox for
      as long as its row is kept.  [EffectFacts] and [ReactorFacts] give each
      method and loop body as an equation; [EffectTheorems], [ObligationTheorems],
      [TimersTheorems], [CompactTheorems], [SnapshotTheorems], [ReactorTheorems],
      [PluginTheorems] and [ChaosTheorems] derive replay, deduplication, queue order,
      reconciliation, bounded retries, exact pruning, snapshots and honest reports.
    - The server tier: [OutboxProtocol] is the automaton of a dispatcher and its safety on
      one server; [SdkOutboxTheorems] that the Python dispatcher refines it.
      [RecoverTheorems], [SdkReactorTheorems], [Identity],
      [SdkPluginTheorems], [ReactionTheorems], [ContractTheorems], [Sinks],
      [ConnectorTheorems], [Sessions] and [Sampling]: draining ends, the relay leaves no
      gap, no body runs without an intent, a claimed task is submitted or completed as the
      debouncer says, rates are bounded, messages are settled once, histories come back.
      [SdkLoops], [SdkEntry] and [SdkEdges]: over any restarts the relay loses only entries
      that appear after one with a greater number, no failure of a reactor ends their process, a subscriber outlives its stream, a bridge settles what it claims.
    - The chaos harness: [ScenarioTheorems], [Lineage], [Invariants],
      [ReplayTheorems], [SdkChaos], [Proxies], [McpStdio]: a session restores what it
      patched, derived scenarios are the cuts, a check decides what it claims, equal
      histories have equal snapshots, proxies without a rule are transparent while they run,
      however the lines interleave, and the main stops the server it started.
    - End to end: [ExampleBank], any interleaving of dispatchers lands one wire, and one more
      at most for each lease that runs out;
      [DemoBankTheorems], the journal agrees with the bank and the demo ends; [CliDemo],
      phases killed anywhere leave one wire and a journal that confirms nothing else;
      [CliStage], the command exits with 0 only then, its screen says so only then, and it
      stops what it started;
      [Treasury], repeated attempts perform once.
    - The command line: the inspector's table equals the filtered journal of
      a session that connected and whose entries can be read ([CliInspector]), stored entries decode ([CliJournal]), interpolation fills the
      placeholders ([CliConfig]), the triage's exit code is the worst session's
      ([CliTriageTheorems]), the tail and the summary show what the stream holds
      ([CliInspect]), generated infrastructure is closed and applied only on request
      ([CliDeploy]), a Cloud Run release writes its specs, [tape dev] stops what it started
      ([CliRelease]), scaffolds write their templates and nothing is destroyed without
      consent ([CliManage]), a chaos run whose body returns passes exactly when
      its invariants hold ([CliChaos]), a command closes the client it opened and its exit code is its
      verdict ([CliRun]).
    - Some theorems state where the code falls short of its own documentation, on
      concrete inputs.

    ** What is not modelled

    The Rust server (another language; the SDK's view of it is the answers of a trace), the
    generated stubs and the ADK framework (code that is only called); OpenTelemetry
    spans and exporters; what the operating system does for a socket, a pipe or a
    process beyond answering a call, and the scheduling of threads, of which a model has
    one interleaving at a time; user callables; column widths and indexes; the lines of a
    log and the delivery of signals; the drawing, focus and keyboard of the terminal
    screens, and how often a live display is refreshed; the parsing of arguments; the
    pauses of the demos, and the phases the embedded one shows.
    Non-ASCII text is bytes, except where the command line cuts or
    measures it ([CliText.py_len]). *)
From stdpp Require Export base decidable option numbers list strings pretty gmap sorting.
From Stdlib Require Export ZArith Lia.
From Stdlib Require Import Ascii.

Create HintDb tape.

(** ** Exceptions

    Every exception the modelled code raises itself, or lets through from the
    database driver.  The text of a [ValueError] is an f-string over the values
    the constructor carries. *)
Inductive message :=
  | MNonIdempotentInline
  | MOutboxNeedsConnector
  | MBusinessKeyExists (connector : option string)
  | MInvalidEffectStatus (status : string)
  | MUnknownResolution (resolution : string)
  | MInvalidObligationStatus (status : string)
  | MNoPriorRow (if_version : Z)
  | MStaleCas (if_version current : Z)
  | MMissingConnector
  | MMissingBusinessKey
  | MBothTargets (who : string)
  | MNoTarget (who : string)
  | MSessionNeedsStore
  | MSessionTwoStores
  | MSpecNoAttr (spec : string)
  | MSpecNotDict (spec type_name : string)
  | MNotServerFault
  | MConnectorNameRequired
  | MNoRedrivePath
  | MBadSemantics (semantics : string)
  | MBadDispatch (dispatch : string)
  | MNoRecoveryContract
  | MNoScope
  | MOutboxWithoutConnector
  | MBusinessKeyWithoutConnector
  | MCompensationStuck (run_id : string) (kinds : list string)
  | MMissingIdentity (fields : list string)
  | MBadTenancy (value : string)
  | MAgentAndPublish.

#[export] Instance message_eq_dec : EqDecision message.
Proof. solve_decision. Defined.

Inductive exn :=
  | ValueError (m : message)
  | TypeError
  | AttributeError
  | RuntimeError (m : message)
  | IntegrityError
  | MultipleResultsFound
  | Raised (type_name text : string).

#[export] Instance exn_eq_dec : EqDecision exn.
Proof. solve_decision. Defined.

(** ** Results and effects *)

Inductive result (A : Type) :=
  | Ok (a : A)
  | Err (e : exn).
Arguments Ok {A} _.
Arguments Err {A} _.

#[export] Instance result_bind : MBind result :=
  fun A B f r => match r with Ok a => f a | Err e => Err e end.
#[export] Instance result_ret : MRet result := fun A a => Ok a.

Definition is_ok {A} (r : result A) : bool :=
  match r with Ok _ => true | Err _ => false end.

(** A computation on a store of type [S]: it returns or raises, and leaves a
    store either way.  Awaiting a coroutine is [mbind]. *)
Definition M (S A : Type) : Type := S -> result A * S.

#[export] Instance M_ret S : MRet (M S) := fun A a s => (Ok a, s).
#[export] Instance M_bind S : MBind (M S) := fun A B f m s =>
  match m s with
  | (Ok a, s') => f a s'
  | (Err e, s') => (Err e, s')
  end.

Definition raise {S A} (e : exn) : M S A := fun s => (Err e, s).

(** [try: m except Exception as ex: h ex] *)
Definition try_except {S A} (m : M S A) (h : exn -> M S A) : M S A := fun s =>
  match m s with
  | (Ok a, s') => (Ok a, s')
  | (Err e, s') => h e s'
  end.

Definition run_result {S A} (m : M S A) (s : S) : result A := (m s).1.
Definition run_state {S A} (m : M S A) (s : S) : S := (m s).2.

(** [for x in xs: body], collecting what the body appends to the result list. *)
Fixpoint for_each {S A B} (xs : list A) (body : A -> M S B) : M S (list B) :=
  match xs with
  | [] => mret []
  | x :: xs' => y ← body x; ys ← for_each xs' body; mret (y :: ys)
  end.

(** Run a computation on the first component of a larger store. *)
Definition on_fst {S W A} (m : M S A) : M (S * W) A := fun sw =>
  let '(r, s') := m sw.1 in (r, (s', sw.2)).

(** ** A database transaction

    [_rollback_on_exception_session]: a block of statements whose effect is
    committed when the block returns and discarded when it raises. *)
Definition Tx (S A : Type) : Type := S -> result (A * S).

#[export] Instance Tx_ret S : MRet (Tx S) := fun A a s => Ok (a, s).
#[export] Instance Tx_bind S : MBind (Tx S) := fun A B f t s =>
  match t s with
  | Ok (a, s') => f a s'
  | Err e => Err e
  end.

Definition tx_raise {S A} (e : exn) : Tx S A := fun _ => Err e.
Definition tx_get {S} : Tx S S := fun s => Ok (s, s).
Definition tx_put {S} (s : S) : Tx S unit := fun _ => Ok (tt, s).
Definition tx_lift {S A} (r : result A) : Tx S A := fun s =>
  match r with Ok a => Ok (a, s) | Err e => Err e end.

Definition txn {S A} (t : Tx S A) : M S A := fun s =>
  match t s with
  | Ok (a, s') => (Ok a, s')
  | Err e => (Err e, s)
  end.

(** ** Python values *)

(** An opaque JSON value; [JNull] is Python's [None].  A float is kept as its
    source text. *)
Inductive json :=
  | JNull
  | JBool (b : bool)
  | JInt (z : Z)
  | JFloat (repr : string)
  | JStr (s : string)
  | JList (l : list json)
  | JObj (fields : list (string * json)).

(** [x is not None] *)
Definition json_is_none (j : json) : bool :=
  match j with JNull => true | _ => false end.

(** [x or y] where [x] is a JSON value: the falsy values are [None], [False],
    [0], [""], [[]] and [{}] (a float is falsy only when zero). *)
Definition json_truthy (j : json) : bool :=
  match j with
  | JNull => false
  | JBool b => b
  | JInt z => negb (z =? 0)%Z
  | JFloat r => negb (bool_decide (r = "0.0" \/ r = "-0.0"))
  | JStr s => negb (bool_decide (s = ""))
  | JList l => match l with [] => false | _ => true end
  | JObj l => match l with [] => false | _ => true end
  end.
Definition json_or (x y : json) : json := if json_truthy x then x else y.

(** [s or t] for a string that may be [None] *)
Definition str_or_none (s : option string) : option string :=
  match s with Some "" => None | _ => s end.
Definition opt_str_or (s t : option string) : option string :=
  match s with Some "" | None => t | Some _ => s end.
Definition str_or (s t : string) : string :=
  if bool_decide (s = "") then t else s.
(** [s or row.column]: the argument wins unless it is empty *)
Definition str_or_opt (s : string) (t : option string) : option string :=
  if bool_decide (s = "") then t else Some s.
(** [bool(s)] *)
Definition str_truthy (s : option string) : bool :=
  match s with None | Some "" => false | Some _ => true end.
(** [n or d] for integers *)
Definition int_or (n d : Z) : Z := if (n =? 0)%Z then d else n.

(** An optional string as the JSON value Python would store. *)
Definition json_of_opt_str (s : option string) : json :=
  match s with None => JNull | Some t => JStr t end.

(** [sep.join(xs)] *)
Fixpoint join (sep : string) (xs : list string) : string :=
  match xs with
  | [] => ""
  | [x] => x
  | x :: xs' => x +:+ sep +:+ join sep xs'
  end.

(** ** Unfolding the monads *)
Ltac monad_simpl :=
  unfold mbind, mret, result_bind, result_ret, M_bind, M_ret, Tx_bind, Tx_ret,
    txn, raise, on_fst, tx_get, tx_put, tx_lift, tx_raise, run_state, run_result in *;
  cbn beta iota zeta in *.

(** ** Appending strings *)
Lemma append_inj s t t' : s +:+ t = s +:+ t' -> t = t'.
Proof. induction s as [|c s IH]; simpl; [done|]. by intros [= ?%IH]. Qed.
Lemma append_assoc (s t u : string) : (s +:+ t) +:+ u = s +:+ t +:+ u.
Proof. induction s as [|c s IH]; [done|]. exact (f_equal (String c) IH). Qed.
Lemma length_append s t : String.length (s +:+ t) = (String.length s + String.length t)%nat.
Proof. induction s as [|c s IH]; [done|]. exact (f_equal S IH). Qed.

(** ** Strings without a slash *)
Fixpoint slash_free (s : string) : bool :=
  match s with
  | EmptyString => true
  | String c s' => negb (bool_decide (c = "/"%char)) && slash_free s'
  end.

Lemma slash_free_append s t : slash_free (s +:+ t) = slash_free s && slash_free t.
Proof. induction s as [|c s IH]; simpl; [done|]. by rewrite IH, andb_assoc. Qed.

(** Two strings that agree up to and past their first slash. *)
Lemma first_slash_inj a a' r r' :
  slash_free a = true -> slash_free a' = true ->
  a +:+ String "/" r = a' +:+ String "/" r' -> a = a' /\ r = r'.
Proof.
  revert a'. induction a as [|c a IH]; intros [|c' a'] Ha Ha'; simpl in *.
  - by intros [= ->].
  - intros [= <- _]. by rewrite bool_decide_true in Ha'.
  - intros [= -> _]. by rewrite bool_decide_true in Ha.
  - intros [= -> H]. apply andb_prop in Ha as [_ Ha]. apply andb_prop in Ha' as [_ Ha'].
    by destruct (IH a' Ha Ha' H) as [-> ->].
Qed.

Lemma pretty_N_go_slash_free x s :
  slash_free s = true -> slash_free (pretty_N_go x s) = true.
Proof.
  revert s. induction (N.lt_wf_0 x) as [x _ IH]; intros s Hs.
  destruct (decide (x = 0)%N) as [->|Hx]; [by rewrite pretty_N_go_0|].
  rewrite pretty_N_go_step by lia. apply IH; [apply N.div_lt; lia|].
  simpl. rewrite Hs, andb_true_r. unfold pretty_N_char. by repeat case_match.
Qed.

Lemma pretty_N_slash_free (x : N) : slash_free (pretty x) = true.
Proof. unfold pretty, pretty_N. case_decide; [done|]. by apply pretty_N_go_slash_free. Qed.

(** A decimal integer holds no slash. *)
Lemma pretty_Z_slash_free (z : Z) : slash_free (pretty z) = true.
Proof. destruct z; [done|apply pretty_N_slash_free|]. apply (pretty_N_slash_free (Npos p)). Qed.
