(* ===== verification/Sql.v ===== *)
(** * Sql: the relational statements of the source, on tables as lists

    The source talks to its tables with SELECT, INSERT, UPDATE .. WHERE and
    DELETE .. WHERE statements.  A table is a list of rows in the order the
    storage returns them, a WHERE clause a decidable predicate.  The theorems
    quantify over every table, hence over every order of its rows. *)
From S2P Require Import Prelude.

Section statements.
Context {R : Type}.
Implicit Types (t : list R) (r : R).

Definition select_where (P : R -> Prop) `{!∀ r, Decision (P r)} t : list R :=
  filter P t.

(** [.scalars().one_or_none()]: two rows or more raise. *)
Definition one_or_none (rows : list R) : result (option R) :=
  match rows with
  | [] => Ok None
  | [r] => Ok (Some r)
  | _ => Err MultipleResultsFound
  end.

Definition update_where (P : R -> Prop) `{!∀ r, Decision (P r)}
    (f : R -> R) t : list R :=
  (fun r => if decide (P r) then f r else r) <$> t.

Definition delete_where (P : R -> Prop) `{!∀ r, Decision (P r)} t : list R :=
  filter (fun r => ~ P r) t.

(** [result.rowcount]: the rows the WHERE clause matched. *)
Definition rowcount (P : R -> Prop) `{!∀ r, Decision (P r)} t : nat :=
  length (filter P t).

Definition insert_row r t : list R := t ++ [r].

(** ORDER BY, by an integer column. *)
Definition key_le (key : R -> Z) (x y : R) : Prop := (key x <= key y)%Z.
#[export] Instance key_le_dec key x y : Decision (key_le key x y) :=
  decide (key x <= key y)%Z.
Definition order_by (key : R -> Z) t : list R := merge_sort (key_le key) t.
Definition order_by_desc (key : R -> Z) t : list R :=
  merge_sort (flip (key_le key)) t.

Definition limit (n : nat) (rows : list R) : list R := take n rows.
End statements.

#[global] Arguments select_where : simpl never.
#[global] Arguments update_where : simpl never.
#[global] Arguments delete_where : simpl never.
#[global] Arguments rowcount : simpl never.
#[global] Arguments order_by : simpl never.
#[global] Arguments order_by_desc : simpl never.
#[global] Arguments limit : simpl never.

(** ** Tables with a key *)
Section keyed.
Context {R K : Type} `{EqDecision K} (key : R -> K).
Implicit Types (t : list R) (r : R) (k : K).

(** Primary key or unique constraint: no two rows with one key. *)
Definition keyed t : Prop := NoDup (key <$> t).

(** The row stored under a key. *)
Definition row_at k t : option R := head (filter (fun r => key r = k) t).

Lemma row_at_nil k : row_at k [] = None.
Proof. done. Qed.

Lemma row_at_cons k r t :
  row_at k (r :: t) = if decide (key r = k) then Some r else row_at k t.
Proof. unfold row_at. rewrite filter_cons. by case_decide. Qed.

Lemma row_at_Some_1 k t r : row_at k t = Some r -> r ∈ t /\ key r = k.
Proof.
  induction t as [|x t IH]; [done|]. rewrite row_at_cons.
  case_decide; intros H'; simplify_eq; [split; [left|]; done|].
  destruct (IH H'). split; [by right|done].
Qed.

Lemma row_at_None k t : row_at k t = None <-> Forall (fun r => key r <> k) t.
Proof.
  induction t as [|x t IH]; [split; [constructor|done]|].
  rewrite row_at_cons, Forall_cons.
  case_decide; [split; [done|intros [? _]; congruence]|]. rewrite IH. tauto.
Qed.

Lemma keyed_cons r t : keyed (r :: t) <-> row_at (key r) t = None /\ keyed t.
Proof.
  unfold keyed. rewrite fmap_cons, NoDup_cons, row_at_None, Forall_forall.
  rewrite list_elem_of_fmap.
  split; intros [Hn ?]; split; try done.
  - intros x Hx Hk. apply Hn. eauto.
  - intros (x & Hk & Hx). by apply (Hn x Hx).
Qed.

Lemma row_at_Some k t r : keyed t -> row_at k t = Some r <-> r ∈ t /\ key r = k.
Proof.
  intros Ht. split; [apply row_at_Some_1|]. intros [Hin Hk].
  induction t as [|x t IH]; [by apply elem_of_nil in Hin|].
  apply keyed_cons in Ht as [Hx Ht]. rewrite row_at_cons.
  apply elem_of_cons in Hin as [->|Hin]; [by rewrite decide_True|].
  case_decide as E; [|by apply IH].
  assert (row_at (key x) t = Some r) as Hr by (rewrite E; by apply IH). congruence.
Qed.

Lemma filter_key k t :
  keyed t -> filter (fun r => key r = k) t = option_list (row_at k t).
Proof.
  induction t as [|x t IH]; [done|]. rewrite keyed_cons, row_at_cons, filter_cons.
  intros [Hx Ht]. specialize (IH Ht). case_decide as E; [|done].
  rewrite IH. by rewrite <-E, Hx.
Qed.

Lemma select_key k t :
  keyed t -> one_or_none (select_where (fun r => key r = k) t) = Ok (row_at k t).
Proof.
  intros Ht. unfold select_where. rewrite filter_key by done. by destruct (row_at k t).
Qed.

Lemma row_at_insert k r t :
  row_at k (insert_row r t) =
    match row_at k t with
    | Some x => Some x
    | None => if decide (key r = k) then Some r else None
    end.
Proof.
  unfold insert_row. induction t as [|x t IH]; [apply row_at_cons|].
  rewrite <-app_comm_cons, !row_at_cons. by destruct (decide (key x = k)).
Qed.

Lemma keyed_insert r t : keyed t -> row_at (key r) t = None -> keyed (insert_row r t).
Proof.
  unfold keyed, insert_row. rewrite fmap_app, row_at_None, Forall_forall. intros Ht Hr.
  apply NoDup_app. split; [done|]. split; [|apply NoDup_singleton].
  intros k Hk Hk'. apply list_elem_of_singleton in Hk'. subst.
  apply list_elem_of_fmap in Hk as (y & Hy & Hin). by apply (Hr y).
Qed.

Section where_clause.
Context (P : R -> Prop) `{!∀ r, Decision (P r)}.

Lemma elem_of_update f t r :
  r ∈ update_where P f t <-> exists x, x ∈ t /\ r = if decide (P x) then f x else x.
Proof. unfold update_where. rewrite list_elem_of_fmap. split; intros (x & ? & ?); eauto. Qed.

Lemma elem_of_delete t r : r ∈ delete_where P t <-> ~ P r /\ r ∈ t.
Proof. unfold delete_where. by rewrite list_elem_of_filter. Qed.

Lemma fmap_key_update f t :
  (forall r, P r -> key (f r) = key r) -> key <$> update_where P f t = key <$> t.
Proof.
  intros Hf. unfold update_where. rewrite <-list_fmap_compose.
  apply list_fmap_ext. intros i r Hr. simpl. case_decide; eauto.
Qed.

Lemma keyed_update f t :
  (forall r, P r -> key (f r) = key r) -> keyed t -> keyed (update_where P f t).
Proof. intros Hf. unfold keyed. by rewrite fmap_key_update. Qed.

Lemma keyed_delete t : keyed t -> keyed (delete_where P t).
Proof.
  unfold keyed, delete_where. intros Ht.
  apply (sublist_NoDup _ (key <$> t)); [done|]. apply fmap_sublist, sublist_filter.
Qed.

Lemma row_at_update f k t :
  (forall r, P r -> key (f r) = key r) ->
  row_at k (update_where P f t) =
    (fun r => if decide (P r) then f r else r) <$> row_at k t.
Proof.
  intros Hf. induction t as [|x t IH]; [done|].
  change (update_where P f (x :: t))
    with ((if decide (P x) then f x else x) :: update_where P f t).
  rewrite !row_at_cons, IH.
  destruct (decide (P x)) as [HP|HP]; [rewrite Hf by done|]; case_decide; try done;
    simpl; by destruct (decide (P x)).
Qed.

Lemma row_at_delete k t :
  keyed t ->
  row_at k (delete_where P t) =
    (row_at k t ≫= fun r => if decide (P r) then None else Some r).
Proof.
  intros Ht. destruct (row_at k (delete_where P t)) as [r|] eqn:E.
  - apply row_at_Some in E as [Hin Hk]; [|by apply keyed_delete].
    apply elem_of_delete in Hin as [HP Hin].
    assert (row_at k t = Some r) as -> by by apply row_at_Some.
    simpl. by rewrite decide_False.
  - destruct (row_at k t) as [r|] eqn:E'; [|done]. simpl.
    case_decide as HP; [done|]. exfalso.
    apply row_at_Some in E' as [Hin Hk]; [|done].
    rewrite row_at_None, Forall_forall in E. apply (E r); [|done].
    by apply elem_of_delete.
Qed.
End where_clause.

Lemma update_where_ext (P Q : R -> Prop) `{!∀ r, Decision (P r)}
    `{!∀ r, Decision (Q r)} f g t :
  (forall r, r ∈ t -> (if decide (P r) then f r else r) = if decide (Q r) then g r else r) ->
  update_where P f t = update_where Q g t.
Proof.
  intros Heq. apply list_fmap_ext. intros i r Hr. apply Heq.
  by eapply list_elem_of_lookup_2.
Qed.

Lemma update_where_id (P : R -> Prop) `{!∀ r, Decision (P r)} f t :
  (forall r, r ∈ t -> ~ P r) -> update_where P f t = t.
Proof.
  intros Hno. rewrite <-(list_fmap_id t) at 2. apply list_fmap_ext.
  intros i r Hr. rewrite decide_False; [done|].
  apply Hno. by eapply list_elem_of_lookup_2.
Qed.

(** An UPDATE whose WHERE clause fixes the key touches one row at most. *)
Lemma update_where_key k t :
  keyed t ->
  forall (P : R -> Prop) `{!∀ r, Decision (P r)} f, (forall r, P r -> key r = k) ->
  update_where P f t =
    match row_at k t with
    | Some r => if decide (P r)
                then update_where (fun x => key x = k) (fun _ => f r) t else t
    | None => t
    end.
Proof.
  intros Ht P HP f HPk. destruct (row_at k t) as [r|] eqn:E.
  - assert (Hx : forall x, x ∈ t -> key x = k -> x = r).
    { intros x Hin Hk. assert (row_at k t = Some x) by by apply row_at_Some. congruence. }
    apply row_at_Some in E as [Hin Hk]; [|done]. case_decide as Hr.
    + apply update_where_ext. intros x Hxin.
      destruct (decide (key x = k)) as [Hxk|Hxk].
      * rewrite (Hx x) by done. by rewrite decide_True.
      * rewrite decide_False; auto.
    + apply update_where_id. intros x Hxin HPx. by rewrite (Hx x) in HPx by auto.
  - apply update_where_id. intros x Hxin HPx.
    rewrite row_at_None, Forall_forall in E. by apply (E x); auto.
Qed.

Lemma rowcount_key k t :
  keyed t ->
  forall (P : R -> Prop) `{!∀ r, Decision (P r)}, (forall r, P r -> key r = k) ->
  rowcount P t =
    match row_at k t with Some r => if decide (P r) then 1 else 0 | None => 0 end.
Proof.
  intros Ht P HP HPk. unfold rowcount.
  assert (filter P t = filter P (filter (fun r => key r = k) t)) as ->.
  { rewrite list_filter_filter. apply list_filter_iff. intros r. split; [auto|by intros [? _]]. }
  rewrite filter_key by done. destruct (row_at k t) as [r|]; [|done].
  simpl. rewrite filter_cons. by case_decide.
Qed.
End keyed.

(** A DELETE removes the rows it counts, and successive DELETEs combine. *)
Section deletes.
Context {R : Type}.
Implicit Types (t : list R).

Lemma rowcount_delete (P : R -> Prop) `{!∀ r, Decision (P r)} t :
  rowcount P t + length (delete_where P t) = length t.
Proof.
  unfold rowcount, delete_where. induction t as [|x t IH]; [done|].
  rewrite !filter_cons. simpl.
  destruct (decide (P x)); destruct (decide (~ P x)); simpl; lia || tauto.
Qed.

Lemma delete_where_ext (P Q : R -> Prop) `{!∀ r, Decision (P r)}
    `{!∀ r, Decision (Q r)} t :
  (forall r, P r <-> Q r) -> delete_where P t = delete_where Q t.
Proof. intros Hiff. apply list_filter_iff. intros r. by rewrite Hiff. Qed.

Lemma delete_where_id (P : R -> Prop) `{!∀ r, Decision (P r)} t :
  (forall r, r ∈ t -> ~ P r) -> delete_where P t = t.
Proof.
  intros Hno. unfold delete_where. induction t as [|x t IH]; [done|].
  rewrite filter_cons, decide_True, IH; [done| |].
  - intros r Hr. apply Hno. by right.
  - apply Hno. left.
Qed.

Lemma delete_where_twice (P Q : R -> Prop) `{!∀ r, Decision (P r)}
    `{!∀ r, Decision (Q r)} t :
  delete_where Q (delete_where P t) = delete_where (fun r => P r \/ Q r) t.
Proof.
  unfold delete_where. rewrite list_filter_filter. apply list_filter_iff.
  intros r. tauto.
Qed.

Lemma delete_sublist (P : R -> Prop) `{!∀ r, Decision (P r)} t :
  delete_where P t `sublist_of` t.
Proof. apply sublist_filter. Qed.
End deletes.

(** ** ORDER BY and LIMIT *)
Section ordering.
Context {R : Type}.
Implicit Types (t : list R).

Lemma elem_of_order_by key t (r : R) : r ∈ order_by key t <-> r ∈ t.
Proof. unfold order_by. by rewrite merge_sort_Permutation. Qed.
Lemma elem_of_order_by_desc key t (r : R) : r ∈ order_by_desc key t <-> r ∈ t.
Proof. unfold order_by_desc. by rewrite merge_sort_Permutation. Qed.

Lemma order_by_sorted key t :
  StronglySorted (key_le key) (order_by key t).
Proof.
  apply StronglySorted_merge_sort; unfold key_le.
  - intros x y z; lia.
  - intros x y; lia.
Qed.
Lemma order_by_desc_sorted key t :
  StronglySorted (flip (key_le key)) (order_by_desc key t).
Proof.
  apply StronglySorted_merge_sort; unfold flip, key_le.
  - intros x y z; lia.
  - intros x y; lia.
Qed.

Lemma elem_of_limit n t (r : R) : r ∈ limit n t -> r ∈ t.
Proof. unfold limit. intros H. by eapply elem_of_subseteq; [apply subseteq_take|]. Qed.

(** LIMIT after ORDER BY keeps the rows that come first in the order. *)
Lemma limit_order_by_first key n t (x y : R) :
  x ∈ order_by key t -> x ∉ limit n (order_by key t) ->
  y ∈ limit n (order_by key t) -> (key y <= key x)%Z.
Proof.
  intros Hx Hnx Hy. pose proof (order_by_sorted key t) as Hs.
  unfold limit in *. rewrite <-(take_drop n (order_by key t)) in Hs, Hx.
  apply elem_of_app in Hx as [?|Hx]; [done|].
  by eapply (StronglySorted_app_1_elem_of _ _ _ y x Hs).
Qed.

Lemma limit_all n t : length t <= n -> limit n t = t.
Proof. apply take_ge. Qed.

Lemma length_order_by key t : length (order_by key t) = length t.
Proof. unfold order_by. by rewrite merge_sort_Permutation. Qed.
Lemma length_order_by_desc key t : length (order_by_desc key t) = length t.
Proof. unfold order_by_desc. by rewrite merge_sort_Permutation. Qed.

Lemma length_select_where (P : R -> Prop) `{!∀ r, Decision (P r)} t :
  length (select_where P t) <= length t.
Proof. apply length_filter. Qed.

Lemma elem_of_select (P : R -> Prop) `{!∀ r, Decision (P r)} t r :
  r ∈ select_where P t <-> P r /\ r ∈ t.
Proof. apply list_elem_of_filter. Qed.

Lemma length_limit n t : length (limit n t) <= n.
Proof. unfold limit. rewrite length_take. lia. Qed.

Lemma limit_sorted (Q : R -> R -> Prop) n t :
  StronglySorted Q t -> StronglySorted Q (limit n t).
Proof.
  unfold limit. revert n. induction t as [|x t IH]; intros [|n] H; simpl;
    try constructor; inversion H; subst; [by apply IH|].
  by apply Forall_take.
Qed.
End ordering.

Lemma fmap_sorted {A B} (f : A -> B) (Q : A -> A -> Prop) (Q' : B -> B -> Prop) l :
  (forall x y, Q x y -> Q' (f x) (f y)) -> StronglySorted Q l ->
  StronglySorted Q' (f <$> l).
Proof.
  intros Hf Hs. induction Hs as [|x l Hs IH Hx]; [constructor|]. rewrite fmap_cons.
  constructor; [done|]. apply Forall_fmap. eapply Forall_impl; [done|]. simpl. auto.
Qed.

(** A query's rows keep the table's key. *)
Lemma keyed_query {R K} (key : R -> K) (ord : R -> Z) (P : R -> Prop)
    `{!∀ r, Decision (P r)} n t :
  keyed key t -> keyed key (limit n (order_by ord (select_where P t))).
Proof.
  intros Hk. unfold keyed, limit, order_by, select_where in *. eapply sublist_NoDup.
  2: { apply fmap_sublist, sublist_take. }
  rewrite merge_sort_Permutation.
  eapply sublist_NoDup; [apply Hk|]. apply fmap_sublist, sublist_filter.
Qed.

#[export] Hint Resolve keyed_update keyed_delete keyed_insert : tape.
