(* ===== verification/Schemas.v ===== *)
(** * Schemas: the tables of [tape_adk/schemas.py]

    One record per table class, one field per column (the three session columns
    are one [SKey]), the column setters an ORM attribute assignment performs,
    the database as a record of tables, and INSERT with the constraints the
    schema declares: primary keys, the two UNIQUE constraints and the foreign
    key into ADK's [sessions] table. *)
From S2P Require Import Prelude Sql.

(** The composite key [(app_name, user_id, session_id)] every table shares. *)
Record SKey := mkSKey { app_name : string; user_id : string; session_id : string }.

#[export] Instance SKey_eq_dec : EqDecision SKey.
Proof. solve_decision. Defined.

(** One row of [tape_effects]. *)
Module StorageEffect.
Record t := mk {
  session : SKey;
  idempotency_key : string;
  invocation_id : string;
  decision_index : Z;
  tool_name : string;
  call_index : Z;
  status : string;
  semantics : string;
  dispatch_mode : string;
  business_key : option string;
  connector : option string;
  external_ref : option string;
  dispatch_attempts : Z;
  next_dispatch_at_ms : Z;
  dispatch_claimed_by : option string;
  dispatch_claim_expires_at_ms : Z;
  last_dispatch_error : option string;
  request_json : json;
  response_json : json;
  error_json : json;
  ts_ms : Z
}.
Definition set_status (v : string) (r : t) : t :=
  mk r.(session) r.(idempotency_key) r.(invocation_id) r.(decision_index)
    r.(tool_name) r.(call_index) v r.(semantics) r.(dispatch_mode)
    r.(business_key) r.(connector) r.(external_ref) r.(dispatch_attempts)
    r.(next_dispatch_at_ms) r.(dispatch_claimed_by)
    r.(dispatch_claim_expires_at_ms) r.(last_dispatch_error)
    r.(request_json) r.(response_json) r.(error_json) r.(ts_ms).
Definition set_external_ref (v : option string) (r : t) : t :=
  mk r.(session) r.(idempotency_key) r.(invocation_id) r.(decision_index)
    r.(tool_name) r.(call_index) r.(status) r.(semantics) r.(dispatch_mode)
    r.(business_key) r.(connector) v r.(dispatch_attempts)
    r.(next_dispatch_at_ms) r.(dispatch_claimed_by)
    r.(dispatch_claim_expires_at_ms) r.(last_dispatch_error)
    r.(request_json) r.(response_json) r.(error_json) r.(ts_ms).
Definition set_dispatch_attempts (v : Z) (r : t) : t :=
  mk r.(session) r.(idempotency_key) r.(invocation_id) r.(decision_index)
    r.(tool_name) r.(call_index) r.(status) r.(semantics) r.(dispatch_mode)
    r.(business_key) r.(connector) r.(external_ref) v
    r.(next_dispatch_at_ms) r.(dispatch_claimed_by)
    r.(dispatch_claim_expires_at_ms) r.(last_dispatch_error)
    r.(request_json) r.(response_json) r.(error_json) r.(ts_ms).
Definition set_next_dispatch_at_ms (v : Z) (r : t) : t :=
  mk r.(session) r.(idempotency_key) r.(invocation_id) r.(decision_index)
    r.(tool_name) r.(call_index) r.(status) r.(semantics) r.(dispatch_mode)
    r.(business_key) r.(connector) r.(external_ref) r.(dispatch_attempts) v
    r.(dispatch_claimed_by) r.(dispatch_claim_expires_at_ms)
    r.(last_dispatch_error) r.(request_json) r.(response_json)
    r.(error_json) r.(ts_ms).
Definition set_dispatch_claimed_by (v : option string) (r : t) : t :=
  mk r.(session) r.(idempotency_key) r.(invocation_id) r.(decision_index)
    r.(tool_name) r.(call_index) r.(status) r.(semantics) r.(dispatch_mode)
    r.(business_key) r.(connector) r.(external_ref) r.(dispatch_attempts)
    r.(next_dispatch_at_ms) v r.(dispatch_claim_expires_at_ms)
    r.(last_dispatch_error) r.(request_json) r.(response_json)
    r.(error_json) r.(ts_ms).
Definition set_dispatch_claim_expires_at_ms (v : Z) (r : t) : t :=
  mk r.(session) r.(idempotency_key) r.(invocation_id) r.(decision_index)
    r.(tool_name) r.(call_index) r.(status) r.(semantics) r.(dispatch_mode)
    r.(business_key) r.(connector) r.(external_ref) r.(dispatch_attempts)
    r.(next_dispatch_at_ms) r.(dispatch_claimed_by) v
    r.(last_dispatch_error) r.(request_json) r.(response_json)
    r.(error_json) r.(ts_ms).
Definition set_last_dispatch_error (v : option string) (r : t) : t :=
  mk r.(session) r.(idempotency_key) r.(invocation_id) r.(decision_index)
    r.(tool_name) r.(call_index) r.(status) r.(semantics) r.(dispatch_mode)
    r.(business_key) r.(connector) r.(external_ref) r.(dispatch_attempts)
    r.(next_dispatch_at_ms) r.(dispatch_claimed_by)
    r.(dispatch_claim_expires_at_ms) v r.(request_json) r.(response_json)
    r.(error_json) r.(ts_ms).
Definition set_response_json (v : json) (r : t) : t :=
  mk r.(session) r.(idempotency_key) r.(invocation_id) r.(decision_index)
    r.(tool_name) r.(call_index) r.(status) r.(semantics) r.(dispatch_mode)
    r.(business_key) r.(connector) r.(external_ref) r.(dispatch_attempts)
    r.(next_dispatch_at_ms) r.(dispatch_claimed_by)
    r.(dispatch_claim_expires_at_ms) r.(last_dispatch_error)
    r.(request_json) v r.(error_json) r.(ts_ms).
Definition set_error_json (v : json) (r : t) : t :=
  mk r.(session) r.(idempotency_key) r.(invocation_id) r.(decision_index)
    r.(tool_name) r.(call_index) r.(status) r.(semantics) r.(dispatch_mode)
    r.(business_key) r.(connector) r.(external_ref) r.(dispatch_attempts)
    r.(next_dispatch_at_ms) r.(dispatch_claimed_by)
    r.(dispatch_claim_expires_at_ms) r.(last_dispatch_error)
    r.(request_json) r.(response_json) v r.(ts_ms).
Definition set_ts_ms (v : Z) (r : t) : t :=
  mk r.(session) r.(idempotency_key) r.(invocation_id) r.(decision_index)
    r.(tool_name) r.(call_index) r.(status) r.(semantics) r.(dispatch_mode)
    r.(business_key) r.(connector) r.(external_ref) r.(dispatch_attempts)
    r.(next_dispatch_at_ms) r.(dispatch_claimed_by)
    r.(dispatch_claim_expires_at_ms) r.(last_dispatch_error)
    r.(request_json) r.(response_json) r.(error_json) v.

(** The primary key. *)
Definition pk (r : t) : SKey * string := (r.(session), r.(idempotency_key)).
(** The columns of [uq_tape_effects_connector_business_key]; a NULL in either
    exempts the row, as NULLs are distinct. *)
Definition business (r : t) : option (string * string) :=
  match r.(connector), r.(business_key) with
  | Some c, Some b => Some (c, b)
  | _, _ => None
  end.
End StorageEffect.

(** One row of [tape_obligations]. *)
Module StorageObligation.
Record t := mk {
  seq : Z;
  session : SKey;
  invocation_id : string;
  effect_key : string;
  kind : string;
  payload_json : json;
  status : string;
  attempts : Z;
  max_attempts : Z;
  next_attempt_at_ms : Z;
  last_error : option string;
  claimed_by : option string;
  claim_expires_at_ms : Z;
  compensator_ref : option string;
  result_json : json;
  ts_ms : Z
}.
Definition set_status (v : string) (r : t) : t :=
  mk r.(seq) r.(session) r.(invocation_id) r.(effect_key) r.(kind)
    r.(payload_json) v r.(attempts) r.(max_attempts) r.(next_attempt_at_ms)
    r.(last_error) r.(claimed_by) r.(claim_expires_at_ms)
    r.(compensator_ref) r.(result_json) r.(ts_ms).
Definition set_attempts (v : Z) (r : t) : t :=
  mk r.(seq) r.(session) r.(invocation_id) r.(effect_key) r.(kind)
    r.(payload_json) r.(status) v r.(max_attempts) r.(next_attempt_at_ms)
    r.(last_error) r.(claimed_by) r.(claim_expires_at_ms)
    r.(compensator_ref) r.(result_json) r.(ts_ms).
Definition set_next_attempt_at_ms (v : Z) (r : t) : t :=
  mk r.(seq) r.(session) r.(invocation_id) r.(effect_key) r.(kind)
    r.(payload_json) r.(status) r.(attempts) r.(max_attempts) v
    r.(last_error) r.(claimed_by) r.(claim_expires_at_ms)
    r.(compensator_ref) r.(result_json) r.(ts_ms).
Definition set_last_error (v : option string) (r : t) : t :=
  mk r.(seq) r.(session) r.(invocation_id) r.(effect_key) r.(kind)
    r.(payload_json) r.(status) r.(attempts) r.(max_attempts)
    r.(next_attempt_at_ms) v r.(claimed_by) r.(claim_expires_at_ms)
    r.(compensator_ref) r.(result_json) r.(ts_ms).
Definition set_claimed_by (v : option string) (r : t) : t :=
  mk r.(seq) r.(session) r.(invocation_id) r.(effect_key) r.(kind)
    r.(payload_json) r.(status) r.(attempts) r.(max_attempts)
    r.(next_attempt_at_ms) r.(last_error) v r.(claim_expires_at_ms)
    r.(compensator_ref) r.(result_json) r.(ts_ms).
Definition set_claim_expires_at_ms (v : Z) (r : t) : t :=
  mk r.(seq) r.(session) r.(invocation_id) r.(effect_key) r.(kind)
    r.(payload_json) r.(status) r.(attempts) r.(max_attempts)
    r.(next_attempt_at_ms) r.(last_error) r.(claimed_by) v
    r.(compensator_ref) r.(result_json) r.(ts_ms).
Definition set_result_json (v : json) (r : t) : t :=
  mk r.(seq) r.(session) r.(invocation_id) r.(effect_key) r.(kind)
    r.(payload_json) r.(status) r.(attempts) r.(max_attempts)
    r.(next_attempt_at_ms) r.(last_error) r.(claimed_by)
    r.(claim_expires_at_ms) r.(compensator_ref) v r.(ts_ms).
Definition set_ts_ms (v : Z) (r : t) : t :=
  mk r.(seq) r.(session) r.(invocation_id) r.(effect_key) r.(kind)
    r.(payload_json) r.(status) r.(attempts) r.(max_attempts)
    r.(next_attempt_at_ms) r.(last_error) r.(claimed_by)
    r.(claim_expires_at_ms) r.(compensator_ref) r.(result_json) v.

(** The columns of [uq_tape_obligations_effect_kind_per_session]. *)
Definition uq (r : t) : SKey * string * string :=
  (r.(session), r.(effect_key), r.(kind)).
End StorageObligation.

(** One row of [tape_timers]. *)
Module StorageTimer.
Record t := mk {
  session : SKey;
  timer_id : string;
  fire_at_ms : Z;
  kind : string;
  payload_json : json;
  fired : bool;
  created_at_ms : Z
}.
Definition set_fired (v : bool) (r : t) : t :=
  mk r.(session) r.(timer_id) r.(fire_at_ms) r.(kind) r.(payload_json) v
    r.(created_at_ms).

Definition pk (r : t) : SKey * string := (r.(session), r.(timer_id)).
End StorageTimer.

(** One entry of a snapshot's JSON map: the captured columns of one effect.  A
    column absent from the entry and one holding [None] are both [None] here:
    the readers use [.get]. *)
Module Captured.
Record t := mk {
  status : option string;
  semantics : option string;
  dispatch_mode : option string;
  business_key : option string;
  connector : option string;
  external_ref : option string;
  request_json : json;
  response_json : json;
  error_json : json;
  invocation_id : option string;
  decision_index : option Z;
  tool_name : option string;
  call_index : option Z;
  ts_ms : option Z
}.
End Captured.

(** One row of [tape_effect_snapshots]: [effects_json] is NULL or a JSON object
    from idempotency keys to captured effects. *)
Module StorageEffectSnapshot.
Record t := mk {
  session : SKey;
  effects_json : option (gmap string Captured.t);
  up_to_ts_ms : Z;
  effects_count : Z;
  created_at_ms : Z;
  updated_at_ms : Z
}.
End StorageEffectSnapshot.

(** One row of [tape_values]. *)
Module StorageValue.
Record t := mk {
  namespace : string;
  key : string;
  value_json : json;
  version : Z;
  ts_ms : Z;
  writer : option string;
  deleted : bool
}.

Definition pk (r : t) : string * string := (r.(namespace), r.(key)).
End StorageValue.

(** ** The database *)
Module Db.
Record t := mk {
  (** ADK's own [sessions] table, which the foreign keys refer to *)
  sessions : list SKey;
  effects : list StorageEffect.t;
  obligations : list StorageObligation.t;
  timers : list StorageTimer.t;
  snapshots : list StorageEffectSnapshot.t;
  values : list StorageValue.t;
  (** the next value of the [tape_obligations.seq] autoincrement *)
  next_seq : Z
}.
Definition set_effects (v : list StorageEffect.t) (d : t) : t :=
  mk d.(sessions) v d.(obligations) d.(timers) d.(snapshots) d.(values) d.(next_seq).
Definition set_obligations (v : list StorageObligation.t) (d : t) : t :=
  mk d.(sessions) d.(effects) v d.(timers) d.(snapshots) d.(values) d.(next_seq).
Definition set_timers (v : list StorageTimer.t) (d : t) : t :=
  mk d.(sessions) d.(effects) d.(obligations) v d.(snapshots) d.(values) d.(next_seq).
Definition set_snapshots (v : list StorageEffectSnapshot.t) (d : t) : t :=
  mk d.(sessions) d.(effects) d.(obligations) d.(timers) v d.(values) d.(next_seq).
Definition set_values (v : list StorageValue.t) (d : t) : t :=
  mk d.(sessions) d.(effects) d.(obligations) d.(timers) d.(snapshots) v d.(next_seq).
Definition set_next_seq (v : Z) (d : t) : t :=
  mk d.(sessions) d.(effects) d.(obligations) d.(timers) d.(snapshots) d.(values) v.

(** What [create_all] leaves next to the given ADK sessions: empty tables. *)
Definition empty (ss : list SKey) : t := mk ss [] [] [] [] [] 1.
End Db.

(** ** INSERT under the declared constraints *)

Definition effect_insertable (d : Db.t) (r : StorageEffect.t) : Prop :=
  row_at StorageEffect.pk (StorageEffect.pk r) d.(Db.effects) = None /\
  (StorageEffect.business r = None \/
   Forall (fun x => StorageEffect.business x <> StorageEffect.business r)
     d.(Db.effects)) /\
  r.(StorageEffect.session) ∈ d.(Db.sessions).

#[export] Instance effect_insertable_dec d r : Decision (effect_insertable d r).
Proof. unfold effect_insertable. apply _. Defined.

Definition insert_effect (r : StorageEffect.t) : Tx Db.t unit := fun d =>
  if decide (effect_insertable d r)
  then Ok (tt, Db.set_effects (insert_row r d.(Db.effects)) d)
  else Err IntegrityError.

(** The new row's [seq] is the sequence's next value. *)
Definition obligation_insertable (d : Db.t) (r : StorageObligation.t) : Prop :=
  row_at StorageObligation.seq r.(StorageObligation.seq) d.(Db.obligations) = None /\
  row_at StorageObligation.uq (StorageObligation.uq r) d.(Db.obligations) = None /\
  r.(StorageObligation.session) ∈ d.(Db.sessions).

#[export] Instance obligation_insertable_dec d r : Decision (obligation_insertable d r).
Proof. unfold obligation_insertable. apply _. Defined.

Definition insert_obligation (mk_row : Z -> StorageObligation.t)
    : Tx Db.t StorageObligation.t := fun d =>
  let r := mk_row d.(Db.next_seq) in
  if decide (obligation_insertable d r)
  then Ok (r, Db.set_next_seq (d.(Db.next_seq) + 1)
                (Db.set_obligations (insert_row r d.(Db.obligations)) d))
  else Err IntegrityError.

Definition insert_timer (r : StorageTimer.t) : Tx Db.t unit := fun d =>
  if decide (row_at StorageTimer.pk (StorageTimer.pk r) d.(Db.timers) = None /\
             r.(StorageTimer.session) ∈ d.(Db.sessions))
  then Ok (tt, Db.set_timers (insert_row r d.(Db.timers)) d)
  else Err IntegrityError.

Definition insert_snapshot (r : StorageEffectSnapshot.t) : Tx Db.t unit := fun d =>
  if decide (row_at StorageEffectSnapshot.session r.(StorageEffectSnapshot.session)
               d.(Db.snapshots) = None /\
             r.(StorageEffectSnapshot.session) ∈ d.(Db.sessions))
  then Ok (tt, Db.set_snapshots (insert_row r d.(Db.snapshots)) d)
  else Err IntegrityError.

Definition insert_value (r : StorageValue.t) : Tx Db.t unit := fun d =>
  if decide (row_at StorageValue.pk (StorageValue.pk r) d.(Db.values) = None)
  then Ok (tt, Db.set_values (insert_row r d.(Db.values)) d)
  else Err IntegrityError.

(** ** Flushing a loaded row: UPDATE .. WHERE primary key *)
Definition save_effect (r : StorageEffect.t) : Tx Db.t unit := fun d =>
  Ok (tt, Db.set_effects
    (update_where (fun x => StorageEffect.pk x = StorageEffect.pk r) (fun _ => r)
       d.(Db.effects)) d).
Definition save_obligation (r : StorageObligation.t) : Tx Db.t unit := fun d =>
  Ok (tt, Db.set_obligations
    (update_where (fun x => x.(StorageObligation.seq) = r.(StorageObligation.seq))
       (fun _ => r) d.(Db.obligations)) d).
Definition save_timer (r : StorageTimer.t) : Tx Db.t unit := fun d =>
  Ok (tt, Db.set_timers
    (update_where (fun x => StorageTimer.pk x = StorageTimer.pk r) (fun _ => r)
       d.(Db.timers)) d).
Definition save_snapshot (r : StorageEffectSnapshot.t) : Tx Db.t unit := fun d =>
  Ok (tt, Db.set_snapshots
    (update_where (fun x => x.(StorageEffectSnapshot.session)
                            = r.(StorageEffectSnapshot.session))
       (fun _ => r) d.(Db.snapshots)) d).
Definition save_value (r : StorageValue.t) : Tx Db.t unit := fun d =>
  Ok (tt, Db.set_values
    (update_where (fun x => StorageValue.pk x = StorageValue.pk r) (fun _ => r)
       d.(Db.values)) d).
