(* ===== verification/EffectLedger.v ===== *)
(** * EffectLedger: the effect half of [TapeSessionService] ([tape_adk/service.py])

    The status constants, the [EffectRecord] dataclass and the effect methods:
    [begin_effect], [complete_effect], [get_effect], the outbox lease
    ([claim_effect_dispatch]), [record_dispatch_attempt],
    [record_external_observation] and the two queues.  [_now_ms()] is the
    argument [clk] of the methods that read the clock. *)
From S2P Require Import Prelude Sql Schemas.

Module EffectStatus.
Definition PENDING := "pending".
Definition CONFIRMED := "confirmed".
Definition FAILED := "failed".
Definition UNKNOWN := "unknown".
End EffectStatus.

Module EffectSemantics.
Definition IDEMPOTENT := "idempotent".
Definition NON_IDEMPOTENT := "non_idempotent".
Definition OBSERVE_ONLY := "observe_only".
End EffectSemantics.

Module EffectDispatchMode.
Definition INLINE := "inline".
Definition OUTBOX := "outbox".
End EffectDispatchMode.

Module EffectResolution.
Definition CONFIRMED := "confirmed".
Definition FAILED := "failed".
Definition ABSENT := "absent".
Definition DUPLICATE := "duplicate".
Definition STUCK := "stuck".
End EffectResolution.

Module ObligationStatus.
Definition PENDING := "pending".
Definition COMMITTED := "committed".
Definition COMPENSATED := "compensated".
Definition STUCK := "stuck".
End ObligationStatus.

(** What the effect methods return: a detached copy of a row. *)
Module EffectRecord.
Record t := mk {
  session : SKey;
  idempotency_key : string;
  invocation_id : string;
  decision_index : Z;
  tool_name : string;
  call_index : Z;
  status : string;
  semantics : string;
  dispatch_mode : string;
  business_key : option string;
  connector : option string;
  external_ref : option string;
  dispatch_attempts : Z;
  next_dispatch_at_ms : Z;
  dispatch_claimed_by : option string;
  dispatch_claim_expires_at_ms : Z;
  last_dispatch_error : option string;
  request_json : json;
  response_json : json;
  error_json : json;
  ts_ms : Z
}.
Definition from_row (r : StorageEffect.t) : t := {|
  session := r.(StorageEffect.session);
  idempotency_key := r.(StorageEffect.idempotency_key);
  invocation_id := r.(StorageEffect.invocation_id);
  decision_index := r.(StorageEffect.decision_index);
  tool_name := r.(StorageEffect.tool_name);
  call_index := r.(StorageEffect.call_index);
  status := r.(StorageEffect.status);
  semantics := r.(StorageEffect.semantics);
  dispatch_mode := r.(StorageEffect.dispatch_mode);
  business_key := r.(StorageEffect.business_key);
  connector := r.(StorageEffect.connector);
  external_ref := r.(StorageEffect.external_ref);
  dispatch_attempts := r.(StorageEffect.dispatch_attempts);
  next_dispatch_at_ms := r.(StorageEffect.next_dispatch_at_ms);
  dispatch_claimed_by := r.(StorageEffect.dispatch_claimed_by);
  dispatch_claim_expires_at_ms := r.(StorageEffect.dispatch_claim_expires_at_ms);
  last_dispatch_error := r.(StorageEffect.last_dispatch_error);
  request_json := r.(StorageEffect.request_json);
  response_json := r.(StorageEffect.response_json);
  error_json := r.(StorageEffect.error_json);
  ts_ms := r.(StorageEffect.ts_ms)
|}.
End EffectRecord.

(** ** Lookups *)

Definition select_effect (s : SKey) (key : string) : Tx Db.t (option StorageEffect.t) :=
  d ← tx_get;
  tx_lift (one_or_none
    (select_where (fun r => StorageEffect.pk r = (s, key)) d.(Db.effects))).

Definition select_snapshot (s : SKey) : Tx Db.t (option StorageEffectSnapshot.t) :=
  d ← tx_get;
  tx_lift (one_or_none
    (select_where (fun r => r.(StorageEffectSnapshot.session) = s) d.(Db.snapshots))).

(** ** begin_effect *)

(** The keyword arguments of [begin_effect]. *)
Module BeginArgs.
Record t := mk {
  session : SKey;
  invocation_id : string;
  decision_index : Z;
  tool_name : string;
  call_index : Z;
  request_json : json;
  custom_key : string;
  semantics : string;
  dispatch_mode : string;
  business_key : option string;
  connector : option string
}.
End BeginArgs.

(** The f-string [invocation_id/decision-i/tool_name/call_index]. *)
Definition derived_key (invocation_id : string) (decision_index : Z)
    (tool_name : string) (call_index : Z) : string :=
  invocation_id +:+ "/decision-" +:+ pretty decision_index +:+ "/" +:+
  tool_name +:+ "/" +:+ pretty call_index.

Definition effect_key (a : BeginArgs.t) : string :=
  str_or a.(BeginArgs.custom_key)
    (derived_key a.(BeginArgs.invocation_id) a.(BeginArgs.decision_index)
       a.(BeginArgs.tool_name) a.(BeginArgs.call_index)).

(** The two refusals at the head of [begin_effect]. *)
Definition begin_refusal (a : BeginArgs.t) : option message :=
  if decide (a.(BeginArgs.semantics) = EffectSemantics.NON_IDEMPOTENT /\
             a.(BeginArgs.dispatch_mode) = EffectDispatchMode.INLINE)
  then Some MNonIdempotentInline
  else if decide (a.(BeginArgs.dispatch_mode) = EffectDispatchMode.OUTBOX /\
                  str_truthy a.(BeginArgs.connector) = false)
  then Some MOutboxNeedsConnector
  else None.

(** The record synthesised from a snapshot entry. *)
Definition record_of_captured (a : BeginArgs.t) (c : Captured.t) : EffectRecord.t := {|
  EffectRecord.session := a.(BeginArgs.session);
  EffectRecord.idempotency_key := effect_key a;
  EffectRecord.invocation_id := default "" c.(Captured.invocation_id);
  EffectRecord.decision_index := default (-1)%Z c.(Captured.decision_index);
  EffectRecord.tool_name := default a.(BeginArgs.tool_name) c.(Captured.tool_name);
  EffectRecord.call_index := default a.(BeginArgs.call_index) c.(Captured.call_index);
  EffectRecord.status := default EffectStatus.CONFIRMED c.(Captured.status);
  EffectRecord.semantics := default a.(BeginArgs.semantics) c.(Captured.semantics);
  EffectRecord.dispatch_mode :=
    default a.(BeginArgs.dispatch_mode) c.(Captured.dispatch_mode);
  EffectRecord.business_key := c.(Captured.business_key);
  EffectRecord.connector := c.(Captured.connector);
  EffectRecord.external_ref := c.(Captured.external_ref);
  EffectRecord.dispatch_attempts := 0;
  EffectRecord.next_dispatch_at_ms := 0;
  EffectRecord.dispatch_claimed_by := None;
  EffectRecord.dispatch_claim_expires_at_ms := 0;
  EffectRecord.last_dispatch_error := None;
  EffectRecord.request_json := c.(Captured.request_json);
  EffectRecord.response_json := c.(Captured.response_json);
  EffectRecord.error_json := c.(Captured.error_json);
  EffectRecord.ts_ms := default 0%Z c.(Captured.ts_ms)
|}.

(** The snapshot fallback: [snap.effects_json.get(key)] when there is one. *)
Definition captured_at (snap : option StorageEffectSnapshot.t) (key : string)
    : option Captured.t :=
  sn ← snap; m ← sn.(StorageEffectSnapshot.effects_json); m !! key.

(** The fresh PENDING row. *)
Definition fresh_effect (clk : Z) (a : BeginArgs.t) : StorageEffect.t := {|
  StorageEffect.session := a.(BeginArgs.session);
  StorageEffect.idempotency_key := effect_key a;
  StorageEffect.invocation_id := a.(BeginArgs.invocation_id);
  StorageEffect.decision_index := a.(BeginArgs.decision_index);
  StorageEffect.tool_name := a.(BeginArgs.tool_name);
  StorageEffect.call_index := a.(BeginArgs.call_index);
  StorageEffect.status := EffectStatus.PENDING;
  StorageEffect.semantics := a.(BeginArgs.semantics);
  StorageEffect.dispatch_mode := a.(BeginArgs.dispatch_mode);
  StorageEffect.business_key := str_or_none a.(BeginArgs.business_key);
  StorageEffect.connector := str_or_none a.(BeginArgs.connector);
  StorageEffect.external_ref := None;
  StorageEffect.dispatch_attempts := 0;
  StorageEffect.next_dispatch_at_ms := 0;
  StorageEffect.dispatch_claimed_by := None;
  StorageEffect.dispatch_claim_expires_at_ms := 0;
  StorageEffect.last_dispatch_error := None;
  StorageEffect.request_json := a.(BeginArgs.request_json);
  StorageEffect.response_json := JNull;
  StorageEffect.error_json := JNull;
  StorageEffect.ts_ms := clk
|}.

(** [try: commit() except IntegrityError: rollback(); raise ValueError]. *)
Definition commit_fresh_effect (a : BeginArgs.t) (row : StorageEffect.t)
    : Tx Db.t unit := fun d =>
  match insert_effect row d with
  | Err IntegrityError => Err (ValueError (MBusinessKeyExists a.(BeginArgs.connector)))
  | r => r
  end.

Definition begin_effect (clk : Z) (a : BeginArgs.t) : M Db.t EffectRecord.t :=
  match begin_refusal a with
  | Some m => raise (ValueError m)
  | None =>
    txn (
      existing ← select_effect a.(BeginArgs.session) (effect_key a);
      match existing with
      | Some row => mret (EffectRecord.from_row row)
      | None =>
        snap ← select_snapshot a.(BeginArgs.session);
        match captured_at snap (effect_key a) with
        | Some captured => mret (record_of_captured a captured)
        | None =>
          let row := fresh_effect clk a in
          _ ← commit_fresh_effect a row;
          mret (EffectRecord.from_row row)
        end
      end)
  end.

(** ** complete_effect, get_effect *)

Definition completed (clk : Z) (status : string) (response error : json)
    (row : StorageEffect.t) : StorageEffect.t :=
  StorageEffect.set_dispatch_claim_expires_at_ms 0
    (StorageEffect.set_dispatch_claimed_by None
      (StorageEffect.set_ts_ms clk
        (StorageEffect.set_error_json error
          (StorageEffect.set_response_json response
            (StorageEffect.set_status status row))))).

Definition complete_effect (clk : Z) (s : SKey) (key : string) (status : string)
    (response error : json) : M Db.t (option EffectRecord.t) :=
  if decide (status ∈ [EffectStatus.CONFIRMED; EffectStatus.FAILED;
                       EffectStatus.UNKNOWN])
  then txn (
    existing ← select_effect s key;
    match existing with
    | None => mret None
    | Some row =>
      if decide (row.(StorageEffect.status) <> EffectStatus.PENDING)
      then mret (Some (EffectRecord.from_row row))
      else
        let row' := completed clk status response error row in
        _ ← save_effect row';
        mret (Some (EffectRecord.from_row row'))
    end)
  else raise (ValueError (MInvalidEffectStatus status)).

Definition get_effect (s : SKey) (key : string) : M Db.t (option EffectRecord.t) :=
  txn (row ← select_effect s key; mret (EffectRecord.from_row <$> row)).

(** ** The outbox lease *)

(** The WHERE clause shared by the claim's UPDATE and the dispatcher's SELECT:
    PENDING, OUTBOX, due, and no live lease. *)
Definition dispatchable (now : Z) (r : StorageEffect.t) : Prop :=
  r.(StorageEffect.status) = EffectStatus.PENDING /\
  r.(StorageEffect.dispatch_mode) = EffectDispatchMode.OUTBOX /\
  (r.(StorageEffect.next_dispatch_at_ms) <= now)%Z /\
  (r.(StorageEffect.dispatch_claimed_by) = None \/
   r.(StorageEffect.dispatch_claimed_by) = Some "" \/
   (r.(StorageEffect.dispatch_claim_expires_at_ms) <= now)%Z).

#[export] Instance dispatchable_dec now r : Decision (dispatchable now r).
Proof. unfold dispatchable. apply _. Defined.

Definition leased (claimer : string) (expires : Z) (r : StorageEffect.t)
    : StorageEffect.t :=
  StorageEffect.set_dispatch_claim_expires_at_ms expires
    (StorageEffect.set_dispatch_claimed_by (Some claimer) r).

(** The compare-and-swap: one UPDATE, [rowcount == 1] means the claim won. *)
Definition cas_effect_lease (s : SKey) (key claimer : string) (now expires : Z)
    : Tx Db.t bool := fun d =>
  let P r := StorageEffect.pk r = (s, key) /\ dispatchable now r in
  let n := rowcount P d.(Db.effects) in
  Ok (bool_decide (n = 1),
      Db.set_effects (update_where P (leased claimer expires) d.(Db.effects)) d).

Definition claim_effect_dispatch (clk : Z) (s : SKey) (key claimer : string)
    (lease_ttl_ms now_ms : Z) : M Db.t (bool * option EffectRecord.t) :=
  let now := int_or now_ms clk in
  let expires := (now + lease_ttl_ms)%Z in
  acquired ← txn (cas_effect_lease s key claimer now expires);
  row ← txn (select_effect s key);
  mret (acquired, EffectRecord.from_row <$> row).

Definition attempted (clk : Z) (error : string) (next_dispatch_at_ms : Z)
    (row : StorageEffect.t) : StorageEffect.t :=
  let row := StorageEffect.set_dispatch_attempts
    (int_or row.(StorageEffect.dispatch_attempts) 0 + 1) row in
  let row := StorageEffect.set_last_dispatch_error (Some error) row in
  let row := StorageEffect.set_dispatch_claimed_by None row in
  let row := StorageEffect.set_dispatch_claim_expires_at_ms 0 row in
  let row :=
    if decide (next_dispatch_at_ms <= 0)%Z
    then StorageEffect.set_next_dispatch_at_ms 0
           (StorageEffect.set_status EffectStatus.UNKNOWN row)
    else StorageEffect.set_next_dispatch_at_ms next_dispatch_at_ms row in
  StorageEffect.set_ts_ms clk row.

Definition record_dispatch_attempt (clk : Z) (s : SKey) (key : string)
    (error : string) (next_dispatch_at_ms : Z) : M Db.t (option EffectRecord.t) :=
  txn (
    existing ← select_effect s key;
    match existing with
    | None => mret None
    | Some row =>
      let row' := attempted clk error next_dispatch_at_ms row in
      _ ← save_effect row';
      mret (Some (EffectRecord.from_row row'))
    end).

(** ** record_external_observation *)

Definition stuck_error : json :=
  JObj [("resolution", JStr "stuck"); ("detail", JStr "reconciler couldn't resolve")].

(** The row after one resolution, before its time stamp; [None] is the
    [ValueError] branch. *)
Definition observed (resolution external_ref : string) (response error : json)
    (row : StorageEffect.t) : option StorageEffect.t :=
  let confirm row :=
    StorageEffect.set_response_json response
      (StorageEffect.set_external_ref
         (str_or_opt external_ref row.(StorageEffect.external_ref))
         (StorageEffect.set_status EffectStatus.CONFIRMED row)) in
  if decide (resolution = EffectResolution.CONFIRMED) then Some (confirm row)
  else if decide (resolution = EffectResolution.FAILED) then
    Some (StorageEffect.set_error_json error
            (StorageEffect.set_status EffectStatus.FAILED row))
  else if decide (resolution = EffectResolution.ABSENT) then
    let row :=
      if decide (row.(StorageEffect.semantics) = EffectSemantics.NON_IDEMPOTENT)
      then StorageEffect.set_status EffectStatus.UNKNOWN row else row in
    Some (if json_is_none error then row else StorageEffect.set_error_json error row)
  else if decide (resolution = EffectResolution.DUPLICATE) then Some (confirm row)
  else if decide (resolution = EffectResolution.STUCK) then
    Some (StorageEffect.set_error_json (json_or error stuck_error)
            (StorageEffect.set_status EffectStatus.FAILED row))
  else None.

(** The compensation registered with a DUPLICATE, in the same transaction;
    [row] is the effect with its new [external_ref]. *)
Definition duplicate_obligation (now : Z) (external_ref kind : string)
    (row : StorageEffect.t) (seq : Z) : StorageObligation.t := {|
  StorageObligation.seq := seq;
  StorageObligation.session := row.(StorageEffect.session);
  StorageObligation.invocation_id := row.(StorageEffect.invocation_id);
  StorageObligation.effect_key := row.(StorageEffect.idempotency_key);
  StorageObligation.kind := kind;
  StorageObligation.payload_json := JObj [
    ("external_ref",
       json_of_opt_str (str_or_opt external_ref row.(StorageEffect.external_ref)));
    ("reason", JStr "duplicate observed by reconciler")];
  StorageObligation.status := ObligationStatus.PENDING;
  StorageObligation.attempts := 0;
  StorageObligation.max_attempts := 5;
  StorageObligation.next_attempt_at_ms := now;
  StorageObligation.last_error := None;
  StorageObligation.claimed_by := None;
  StorageObligation.claim_expires_at_ms := 0;
  StorageObligation.compensator_ref := None;
  StorageObligation.result_json := JNull;
  StorageObligation.ts_ms := now
|}.

Definition record_external_observation (clk : Z) (s : SKey) (key : string)
    (resolution external_ref : string) (response error : json)
    (compensate_on_duplicate_kind : string) : M Db.t (option EffectRecord.t) :=
  txn (
    existing ← select_effect s key;
    match existing with
    | None => mret None
    | Some row =>
      match observed resolution external_ref response error row with
      | None => tx_raise (ValueError (MUnknownResolution resolution))
      | Some row1 =>
        let row' := StorageEffect.set_ts_ms clk row1 in
        _ ← save_effect row';
        _ ← (if decide (resolution = EffectResolution.DUPLICATE /\
                        compensate_on_duplicate_kind <> "")
             then _ ← insert_obligation
                        (duplicate_obligation clk external_ref
                           compensate_on_duplicate_kind row1);
                  mret tt
             else mret tt);
        mret (Some (EffectRecord.from_row row'))
      end
    end).

(** ** The reconciler's and the dispatcher's queues *)

(** Unknown effects, and pending ones older than the cutoff. *)
Definition pending_filter (older_than_ms : Z) (include_pending include_unknown : bool)
    (r : StorageEffect.t) : bool :=
  let st := r.(StorageEffect.status) in
  let statuses := (if include_pending then [EffectStatus.PENDING] else [])
                  ++ (if include_unknown then [EffectStatus.UNKNOWN] else []) in
  bool_decide (st ∈ statuses) &&
  (if bool_decide (0 < older_than_ms)%Z && include_pending && negb include_unknown
   then bool_decide (r.(StorageEffect.ts_ms) < older_than_ms)%Z
   else if bool_decide (0 < older_than_ms)%Z && include_pending
   then bool_decide (st = EffectStatus.UNKNOWN \/
          (st = EffectStatus.PENDING /\ r.(StorageEffect.ts_ms) < older_than_ms)%Z)
   else true).

Definition list_pending_effects (older_than_ms : Z)
    (include_pending include_unknown : bool) (lim : nat)
    : M Db.t (list EffectRecord.t) :=
  txn (d ← tx_get;
    if negb include_pending && negb include_unknown then mret [] else
    let rows := limit lim (order_by StorageEffect.ts_ms
      (select_where
         (fun r => pending_filter older_than_ms include_pending include_unknown r = true)
         d.(Db.effects))) in
    mret (EffectRecord.from_row <$> rows)).

Definition list_effects_to_dispatch (clk now_ms : Z) (connector : string) (lim : nat)
    : M Db.t (list EffectRecord.t) :=
  let now := int_or now_ms clk in
  txn (d ← tx_get;
    let rows := limit lim (order_by StorageEffect.ts_ms
      (select_where
         (fun r => dispatchable now r /\
            (connector = "" \/ r.(StorageEffect.connector) = Some connector))
         d.(Db.effects))) in
    mret (EffectRecord.from_row <$> rows)).
