(* ===== verification/ObligationLedger.v ===== *)
(** * ObligationLedger: the compensation half of [TapeSessionService]

    [register_compensation], the two listings, the drainer's lease
    ([claim_obligation]), [record_obligation_attempt] and
    [resolve_obligation], of [tape_adk/service.py]. *)
From S2P Require Import Prelude Sql Schemas EffectLedger.

(** What the obligation methods return. *)
Module ObligationRecord.
Record t := mk {
  seq : Z;
  session : SKey;
  invocation_id : string;
  effect_key : string;
  kind : string;
  payload_json : json;
  status : string;
  attempts : Z;
  max_attempts : Z;
  next_attempt_at_ms : Z;
  last_error : option string;
  claimed_by : option string;
  claim_expires_at_ms : Z;
  compensator_ref : option string;
  result_json : json;
  ts_ms : Z
}.
Definition from_row (r : StorageObligation.t) : t := {|
  seq := r.(StorageObligation.seq);
  session := r.(StorageObligation.session);
  invocation_id := r.(StorageObligation.invocation_id);
  effect_key := r.(StorageObligation.effect_key);
  kind := r.(StorageObligation.kind);
  payload_json := r.(StorageObligation.payload_json);
  status := r.(StorageObligation.status);
  attempts := r.(StorageObligation.attempts);
  max_attempts := r.(StorageObligation.max_attempts);
  next_attempt_at_ms := r.(StorageObligation.next_attempt_at_ms);
  last_error := r.(StorageObligation.last_error);
  claimed_by := r.(StorageObligation.claimed_by);
  claim_expires_at_ms := r.(StorageObligation.claim_expires_at_ms);
  compensator_ref := r.(StorageObligation.compensator_ref);
  result_json := r.(StorageObligation.result_json);
  ts_ms := r.(StorageObligation.ts_ms)
|}.
End ObligationRecord.

(** The keyword arguments of [register_compensation]. *)
Module RegisterArgs.
Record t := mk {
  session : SKey;
  invocation_id : string;
  effect_key : string;
  kind : string;
  payload_json : json;
  compensator_ref : option string;
  max_attempts : Z
}.
End RegisterArgs.

Definition select_obligation (seq : Z) : Tx Db.t (option StorageObligation.t) :=
  d ← tx_get;
  tx_lift (one_or_none
    (select_where (fun r => r.(StorageObligation.seq) = seq) d.(Db.obligations))).

Definition select_obligation_of (s : SKey) (effect_key kind : string)
    : Tx Db.t (option StorageObligation.t) :=
  d ← tx_get;
  tx_lift (one_or_none
    (select_where (fun r => StorageObligation.uq r = (s, effect_key, kind))
       d.(Db.obligations))).

Definition fresh_obligation (now : Z) (a : RegisterArgs.t) (seq : Z)
    : StorageObligation.t := {|
  StorageObligation.seq := seq;
  StorageObligation.session := a.(RegisterArgs.session);
  StorageObligation.invocation_id := a.(RegisterArgs.invocation_id);
  StorageObligation.effect_key := a.(RegisterArgs.effect_key);
  StorageObligation.kind := a.(RegisterArgs.kind);
  StorageObligation.payload_json := a.(RegisterArgs.payload_json);
  StorageObligation.status := ObligationStatus.PENDING;
  StorageObligation.attempts := 0;
  StorageObligation.max_attempts := int_or a.(RegisterArgs.max_attempts) 5;
  StorageObligation.next_attempt_at_ms := now;
  StorageObligation.last_error := None;
  StorageObligation.claimed_by := None;
  StorageObligation.claim_expires_at_ms := 0;
  StorageObligation.compensator_ref := a.(RegisterArgs.compensator_ref);
  StorageObligation.result_json := JNull;
  StorageObligation.ts_ms := now
|}.

Definition register_compensation (clk : Z) (a : RegisterArgs.t)
    : M Db.t ObligationRecord.t :=
  txn (
    existing ← select_obligation_of a.(RegisterArgs.session)
                 a.(RegisterArgs.effect_key) a.(RegisterArgs.kind);
    match existing with
    | Some row => mret (ObligationRecord.from_row row)
    | None =>
      row ← insert_obligation (fresh_obligation clk a);
      mret (ObligationRecord.from_row row)
    end).

(** Per session, newest first. *)
Definition obligation_filter (only_unresolved : bool) (status_filter : string)
    (r : StorageObligation.t) : bool :=
  if negb (bool_decide (status_filter = ""))
  then bool_decide (r.(StorageObligation.status) = status_filter)
  else if only_unresolved
  then bool_decide (r.(StorageObligation.status)
         ∈ [ObligationStatus.PENDING; ObligationStatus.COMMITTED])
  else true.

Definition list_obligations (s : SKey) (only_unresolved : bool)
    (status_filter : string) : M Db.t (list ObligationRecord.t) :=
  txn (d ← tx_get;
    let rows := order_by_desc StorageObligation.seq
      (select_where (fun r => r.(StorageObligation.session) = s /\
           obligation_filter only_unresolved status_filter r = true)
         d.(Db.obligations)) in
    mret (ObligationRecord.from_row <$> rows)).

(** PENDING and due, COMMITTED under an expired claim, and (for triage) STUCK:
    the disjunction [reduce(or_, conds)]. *)
Definition pending_ready (now : Z) (r : StorageObligation.t) : Prop :=
  r.(StorageObligation.status) = ObligationStatus.PENDING /\
  (r.(StorageObligation.next_attempt_at_ms) <= now)%Z.
Definition committed_expired (now : Z) (r : StorageObligation.t) : Prop :=
  r.(StorageObligation.status) = ObligationStatus.COMMITTED /\
  (r.(StorageObligation.claim_expires_at_ms) <= now)%Z.

#[export] Instance pending_ready_dec now r : Decision (pending_ready now r).
Proof. unfold pending_ready. apply _. Defined.
#[export] Instance committed_expired_dec now r : Decision (committed_expired now r).
Proof. unfold committed_expired. apply _. Defined.

Definition unresolved_filter (now : Z)
    (include_pending include_stuck include_committed_expired : bool)
    (r : StorageObligation.t) : bool :=
  (include_pending && bool_decide (pending_ready now r)) ||
  (include_committed_expired && bool_decide (committed_expired now r)) ||
  (include_stuck && bool_decide (r.(StorageObligation.status) = ObligationStatus.STUCK)).

Definition list_unresolved_obligations (clk now_ms : Z) (lim : nat)
    (include_pending include_stuck include_committed_expired : bool)
    : M Db.t (list ObligationRecord.t) :=
  let now := int_or now_ms clk in
  txn (d ← tx_get;
    if negb (include_pending || include_committed_expired || include_stuck)
    then mret [] else
    let rows := limit lim (order_by_desc StorageObligation.seq
      (select_where
         (fun r => unresolved_filter now include_pending include_stuck
                     include_committed_expired r = true)
         d.(Db.obligations))) in
    mret (ObligationRecord.from_row <$> rows)).

Definition committed_to (claimer : string) (expires : Z) (r : StorageObligation.t)
    : StorageObligation.t :=
  StorageObligation.set_claim_expires_at_ms expires
    (StorageObligation.set_claimed_by (Some claimer)
      (StorageObligation.set_status ObligationStatus.COMMITTED r)).

Definition cas_obligation_claim (seq : Z) (claimer : string) (now expires : Z)
    : Tx Db.t bool := fun d =>
  let P r := r.(StorageObligation.seq) = seq /\
             (pending_ready now r \/ committed_expired now r) in
  let n := rowcount P d.(Db.obligations) in
  Ok (bool_decide (n = 1),
      Db.set_obligations (update_where P (committed_to claimer expires)
                            d.(Db.obligations)) d).

Definition claim_obligation (clk : Z) (seq : Z) (claimer : string)
    (lease_ttl_ms now_ms : Z) : M Db.t (bool * option ObligationRecord.t) :=
  let now := int_or now_ms clk in
  let expires := (now + lease_ttl_ms)%Z in
  acquired ← txn (cas_obligation_claim seq claimer now expires);
  row ← txn (select_obligation seq);
  mret (acquired, ObligationRecord.from_row <$> row).

(** [attempts >= max_attempts], or a non-positive next attempt, is STUCK. *)
Definition obligation_attempted (clk : Z) (error : string) (next_attempt_at_ms : Z)
    (row : StorageObligation.t) : StorageObligation.t :=
  let row := StorageObligation.set_attempts
    (int_or row.(StorageObligation.attempts) 0 + 1) row in
  let row := StorageObligation.set_last_error (Some error) row in
  let row := StorageObligation.set_claimed_by None row in
  let row := StorageObligation.set_claim_expires_at_ms 0 row in
  let row := StorageObligation.set_ts_ms clk row in
  if decide (next_attempt_at_ms <= 0 \/
             row.(StorageObligation.max_attempts) <= row.(StorageObligation.attempts))%Z
  then StorageObligation.set_next_attempt_at_ms 0
         (StorageObligation.set_status ObligationStatus.STUCK row)
  else StorageObligation.set_next_attempt_at_ms next_attempt_at_ms
         (StorageObligation.set_status ObligationStatus.PENDING row).

Definition record_obligation_attempt (clk : Z) (seq : Z) (error : string)
    (next_attempt_at_ms : Z) : M Db.t (option ObligationRecord.t) :=
  txn (
    existing ← select_obligation seq;
    match existing with
    | None => mret None
    | Some row =>
      let row' := obligation_attempted clk error next_attempt_at_ms row in
      _ ← save_obligation row';
      mret (Some (ObligationRecord.from_row row'))
    end).

Definition resolved (clk : Z) (status : string) (result_json : json)
    (row : StorageObligation.t) : StorageObligation.t :=
  StorageObligation.set_ts_ms clk
    (StorageObligation.set_claim_expires_at_ms 0
      (StorageObligation.set_claimed_by None
        (StorageObligation.set_result_json result_json
          (StorageObligation.set_status status row)))).

Definition resolve_obligation (clk : Z) (seq : Z) (status : string)
    (result_json : json) : M Db.t (option ObligationRecord.t) :=
  if decide (status ∈ [ObligationStatus.COMPENSATED; ObligationStatus.STUCK])
  then txn (
    existing ← select_obligation seq;
    match existing with
    | None => mret None
    | Some row =>
      let row' := resolved clk status result_json row in
      _ ← save_obligation row';
      mret (Some (ObligationRecord.from_row row'))
    end)
  else raise (ValueError (MInvalidObligationStatus status)).
