(* ===== verification/TimersValues.v ===== *)
(** * TimersValues: the timer registry and the reactive key/value store

    [set_timer], [list_due_timers], [cancel_timer], [write_value] and
    [get_value] of [tape_adk/service.py]. *)
From S2P Require Import Prelude Sql Schemas.

(** What the timer methods return. *)
Module TimerRecord.
Record t := mk {
  session : SKey;
  timer_id : string;
  fire_at_ms : Z;
  kind : string;
  payload_json : json;
  fired : bool;
  created_at_ms : Z
}.
Definition from_row (r : StorageTimer.t) : t := {|
  session := r.(StorageTimer.session);
  timer_id := r.(StorageTimer.timer_id);
  fire_at_ms := r.(StorageTimer.fire_at_ms);
  kind := r.(StorageTimer.kind);
  payload_json := r.(StorageTimer.payload_json);
  fired := r.(StorageTimer.fired);
  created_at_ms := r.(StorageTimer.created_at_ms)
|}.
End TimerRecord.

Definition select_timer (s : SKey) (timer_id : string) : Tx Db.t (option StorageTimer.t) :=
  d ← tx_get;
  tx_lift (one_or_none
    (select_where (fun r => StorageTimer.pk r = (s, timer_id)) d.(Db.timers))).

Definition fresh_timer (now : Z) (s : SKey) (timer_id : string) (fire_at_ms : Z)
    (kind : string) (payload : json) : StorageTimer.t := {|
  StorageTimer.session := s;
  StorageTimer.timer_id := timer_id;
  StorageTimer.fire_at_ms := fire_at_ms;
  StorageTimer.kind := kind;
  StorageTimer.payload_json := payload;
  StorageTimer.fired := false;
  StorageTimer.created_at_ms := now
|}.

Definition set_timer (clk : Z) (s : SKey) (timer_id : string) (fire_at_ms : Z)
    (kind : string) (payload : json) : M Db.t TimerRecord.t :=
  txn (
    existing ← select_timer s timer_id;
    match existing with
    | Some row => mret (TimerRecord.from_row row)
    | None =>
      let row := fresh_timer clk s timer_id fire_at_ms kind payload in
      _ ← insert_timer row;
      mret (TimerRecord.from_row row)
    end).

Definition timer_due (now : Z) (r : StorageTimer.t) : Prop :=
  r.(StorageTimer.fired) = false /\ (r.(StorageTimer.fire_at_ms) <= now)%Z.

#[export] Instance timer_due_dec now r : Decision (timer_due now r).
Proof. unfold timer_due. apply _. Defined.

(** [for r in rows: r.fired = True], flushed row by row. *)
Fixpoint mark_fired (rows : list StorageTimer.t) : Tx Db.t unit :=
  match rows with
  | [] => mret tt
  | r :: rows' => _ ← save_timer (StorageTimer.set_fired true r); mark_fired rows'
  end.

(** The records are taken before the rows are marked. *)
Definition list_due_timers (clk now_ms : Z) (lim : nat) (claim : bool)
    : M Db.t (list TimerRecord.t) :=
  let now := int_or now_ms clk in
  txn (d ← tx_get;
    let rows := limit lim (order_by StorageTimer.fire_at_ms
                  (select_where (timer_due now) d.(Db.timers))) in
    let results := TimerRecord.from_row <$> rows in
    _ ← (if claim then mark_fired rows else mret tt);
    mret results).

Definition cancel_timer (s : SKey) (timer_id : string) : M Db.t bool :=
  txn (fun d =>
    let P r := StorageTimer.pk r = (s, timer_id) in
    let n := rowcount P d.(Db.timers) in
    Ok (bool_decide (0 < n), Db.set_timers (delete_where P d.(Db.timers)) d)).

(** ** Reactive KV *)

Definition select_value (namespace key : string) : Tx Db.t (option StorageValue.t) :=
  d ← tx_get;
  tx_lift (one_or_none
    (select_where (fun r => StorageValue.pk r = (namespace, key)) d.(Db.values))).

Definition first_value (now : Z) (namespace key : string) (value : json)
    (writer : option string) : StorageValue.t := {|
  StorageValue.namespace := namespace;
  StorageValue.key := key;
  StorageValue.value_json := value;
  StorageValue.version := 1;
  StorageValue.ts_ms := now;
  StorageValue.writer := writer;
  StorageValue.deleted := false
|}.

Definition next_value (now : Z) (value : json) (writer : option string)
    (row : StorageValue.t) : StorageValue.t := {|
  StorageValue.namespace := row.(StorageValue.namespace);
  StorageValue.key := row.(StorageValue.key);
  StorageValue.value_json := value;
  StorageValue.version := int_or row.(StorageValue.version) 0 + 1;
  StorageValue.ts_ms := now;
  StorageValue.writer := writer;
  StorageValue.deleted := false
|}.

Definition write_value (clk : Z) (namespace key : string) (value : json)
    (if_version : Z) (writer : string) : M Db.t StorageValue.t :=
  txn (
    existing ← select_value namespace key;
    match existing with
    | None =>
      if decide (0 <= if_version /\ if_version <> 0)%Z
      then tx_raise (ValueError (MNoPriorRow if_version))
      else
        let row := first_value clk namespace key value (str_or_opt writer None) in
        _ ← insert_value row; mret row
    | Some row =>
      if decide (0 <= if_version /\ if_version <> row.(StorageValue.version))%Z
      then tx_raise (ValueError (MStaleCas if_version row.(StorageValue.version)))
      else
        let row' := next_value clk value
                      (str_or_opt writer row.(StorageValue.writer)) row in
        _ ← save_value row'; mret row'
    end).

Definition get_value (namespace key : string) : M Db.t (option StorageValue.t) :=
  txn (select_value namespace key).
