(* ===== verification/Snapshots.v ===== *)
(** * Snapshots: [take_snapshot], [get_snapshot] and [continue_as_new]

    The compactable short-circuit of [tape_adk/service.py]: terminal effects
    are captured into one JSON map per session, which [begin_effect] reads when
    the live row is gone. *)
From S2P Require Import Prelude Sql Schemas EffectLedger ObligationLedger TimersValues.

(** The fourteen columns [take_snapshot] keeps of an effect. *)
Definition capture (r : StorageEffect.t) : Captured.t := {|
  Captured.status := Some r.(StorageEffect.status);
  Captured.semantics := Some r.(StorageEffect.semantics);
  Captured.dispatch_mode := Some r.(StorageEffect.dispatch_mode);
  Captured.business_key := r.(StorageEffect.business_key);
  Captured.connector := r.(StorageEffect.connector);
  Captured.external_ref := r.(StorageEffect.external_ref);
  Captured.request_json := r.(StorageEffect.request_json);
  Captured.response_json := r.(StorageEffect.response_json);
  Captured.error_json := r.(StorageEffect.error_json);
  Captured.invocation_id := Some r.(StorageEffect.invocation_id);
  Captured.decision_index := Some r.(StorageEffect.decision_index);
  Captured.tool_name := Some r.(StorageEffect.tool_name);
  Captured.call_index := Some r.(StorageEffect.call_index);
  Captured.ts_ms := Some r.(StorageEffect.ts_ms)
|}.

(** [CONFIRMED] or [FAILED]. *)
Definition terminal_effect (r : StorageEffect.t) : Prop :=
  r.(StorageEffect.status) ∈ [EffectStatus.CONFIRMED; EffectStatus.FAILED].
#[export] Instance terminal_effect_dec r : Decision (terminal_effect r).
Proof. unfold terminal_effect. apply _. Defined.

(** [for r in rows: captured[r.idempotency_key] = {..}] *)
Definition capture_rows (rows : list StorageEffect.t) : gmap string Captured.t :=
  foldl (fun m r => <[r.(StorageEffect.idempotency_key) := capture r]> m) ∅ rows.

(** The summary [take_snapshot] returns. *)
Record SnapshotSummary := mkSnapshotSummary {
  captured_count : Z;
  merged_total : Z;
  summary_up_to_ts_ms : Z
}.

(** The clock is read twice: [clk0] for the watermark, [clk] for the row. *)
Definition take_snapshot (clk0 clk : Z) (s : SKey) (up_to_ts_ms : Z)
    : M Db.t SnapshotSummary :=
  let watermark := int_or up_to_ts_ms clk0 in
  txn (d ← tx_get;
    let rows := select_where (fun r => r.(StorageEffect.session) = s /\
        terminal_effect r /\ (r.(StorageEffect.ts_ms) <= watermark)%Z)
      d.(Db.effects) in
    let captured := capture_rows rows in
    snap ← select_snapshot s;
    merged ← match snap with
      | None =>
        let merged := captured in
        _ ← insert_snapshot {|
          StorageEffectSnapshot.session := s;
          StorageEffectSnapshot.effects_json := Some merged;
          StorageEffectSnapshot.up_to_ts_ms := watermark;
          StorageEffectSnapshot.effects_count := Z.of_nat (size merged);
          StorageEffectSnapshot.created_at_ms := clk;
          StorageEffectSnapshot.updated_at_ms := clk |};
        mret merged
      | Some sn =>
        (* [merged = dict(snap.effects_json or {}); merged.update(captured)] *)
        let merged := captured ∪ default ∅ sn.(StorageEffectSnapshot.effects_json) in
        _ ← save_snapshot {|
          StorageEffectSnapshot.session := sn.(StorageEffectSnapshot.session);
          StorageEffectSnapshot.effects_json := Some merged;
          StorageEffectSnapshot.up_to_ts_ms :=
            Z.max (int_or sn.(StorageEffectSnapshot.up_to_ts_ms) 0) watermark;
          StorageEffectSnapshot.effects_count := Z.of_nat (size merged);
          StorageEffectSnapshot.created_at_ms := sn.(StorageEffectSnapshot.created_at_ms);
          StorageEffectSnapshot.updated_at_ms := clk |};
        mret merged
      end;
    mret {| captured_count := Z.of_nat (size captured);
            merged_total := Z.of_nat (size merged);
            summary_up_to_ts_ms := watermark |}).

Definition get_snapshot (s : SKey) : M Db.t (option StorageEffectSnapshot.t) :=
  txn (select_snapshot s).

(** ** Pinning *)

Definition active_obligation (o : StorageObligation.t) : Prop :=
  o.(StorageObligation.status)
    ∈ [ObligationStatus.PENDING; ObligationStatus.COMMITTED].
#[export] Instance active_obligation_dec o : Decision (active_obligation o).
Proof. unfold active_obligation. apply _. Defined.

(** The NOT EXISTS subquery.  It compares [session_id] alone, not the triple. *)
Definition pins (o : StorageObligation.t) (e : StorageEffect.t) : Prop :=
  o.(StorageObligation.session).(session_id) = e.(StorageEffect.session).(session_id) /\
  o.(StorageObligation.effect_key) = e.(StorageEffect.idempotency_key) /\
  active_obligation o.
#[export] Instance pins_dec o e : Decision (pins o e).
Proof. unfold pins. apply _. Defined.

Definition pinned (os : list StorageObligation.t) (e : StorageEffect.t) : Prop :=
  Exists (fun o => pins o e) os.
#[export] Instance pinned_dec os e : Decision (pinned os e).
Proof. unfold pinned. apply _. Defined.

(** ** continue_as_new *)

Record ContinueResult := mkContinueResult {
  effects_pruned : Z;
  state_written : bool;
  obligations_kept : Z
}.

Definition continue_namespace (s : SKey) : string :=
  "tape:continue-as-new:" +:+ s.(session_id).

(** Prune the old invocation's unpinned terminal effects, then count the active
    obligations that still name one of its effects. *)
Definition prune_invocation (s : SKey) (old_invocation_id : string)
    : Tx Db.t (Z * Z) := fun d =>
  let P e := e.(StorageEffect.session) = s /\
    e.(StorageEffect.invocation_id) = old_invocation_id /\
    terminal_effect e /\ ~ pinned d.(Db.obligations) e in
  let pruned := rowcount P d.(Db.effects) in
  let effects' := delete_where P d.(Db.effects) in
  let keys := StorageEffect.idempotency_key <$>
    select_where (fun e => e.(StorageEffect.session) = s /\
      e.(StorageEffect.invocation_id) = old_invocation_id) effects' in
  let kept := select_where (fun o => o.(StorageObligation.session) = s /\
    active_obligation o /\ o.(StorageObligation.effect_key) ∈ keys)
    d.(Db.obligations) in
  Ok ((Z.of_nat pruned, Z.of_nat (length kept)), Db.set_effects effects' d).

Definition carry_state (clk : Z) (s : SKey) (new_invocation_id : string)
    (carried_state : json) : Tx Db.t unit :=
  let ns := continue_namespace s in
  existing ← select_value ns new_invocation_id;
  match existing with
  | None => insert_value
      (first_value clk ns new_invocation_id carried_state (Some "continue_as_new"))
  | Some row => save_value
      (next_value clk carried_state (Some "continue_as_new") row)
  end.

Definition continue_as_new (clk : Z) (s : SKey)
    (old_invocation_id new_invocation_id : string) (carried_state : json)
    (prune_old : bool) : M Db.t ContinueResult :=
  txn (
    counts ← (if prune_old then prune_invocation s old_invocation_id
              else mret (0%Z, 0%Z));
    written ← (if json_is_none carried_state then mret false
               else _ ← carry_state clk s new_invocation_id carried_state; mret true);
    mret {| effects_pruned := counts.1; state_written := written;
            obligations_kept := counts.2 |}).
