(* ===== verification/Compact.v ===== *)
(** * Compact: the compaction reactor, [tape_adk/compact.py] *)
From S2P Require Import Prelude Sql Schemas EffectLedger ObligationLedger TimersValues.
From S2P Require Import Snapshots.

Record CompactionPolicy := mkPolicy {
  effect_ttl_ms : Z;
  session_ttl_ms : Z;
  archive_terminal_obligations : bool;
  archive_fired_timers : bool;
  max_per_tick : nat
}.

(** The dataclass defaults. *)
Definition default_policy : CompactionPolicy := {|
  effect_ttl_ms := 7 * 24 * 60 * 60 * 1000;
  session_ttl_ms := 30 * 24 * 60 * 60 * 1000;
  archive_terminal_obligations := true;
  archive_fired_timers := true;
  max_per_tick := Z.to_nat 1000
|}.

Record CompactionResult := mkCompaction {
  effects_pruned : Z;
  obligations_pruned : Z;
  timers_pruned : Z;
  sessions_archived : Z
}.

Definition total (r : CompactionResult) : Z :=
  r.(effects_pruned) + r.(obligations_pruned) + r.(timers_pruned) +
  r.(sessions_archived).

(** ** _find_archivable_sessions *)

(** GROUP BY session: the sessions of the effects table, each once. *)
Definition effect_sessions (es : list StorageEffect.t) : list SKey :=
  remove_dups (StorageEffect.session <$> es).

(** [max(ts_ms)] of a session's effects is below the cutoff: every one is. *)
Definition session_stale (cutoff : Z) (es : list StorageEffect.t) (s : SKey) : Prop :=
  Forall (fun e => e.(StorageEffect.session) = s ->
                   (e.(StorageEffect.ts_ms) < cutoff)%Z) es.
#[export] Instance session_stale_dec cutoff es s : Decision (session_stale cutoff es s).
Proof. unfold session_stale. apply _. Defined.

Definition session_blocked (d : Db.t) (s : SKey) : Prop :=
  0 < rowcount (fun o => o.(StorageObligation.session) = s /\ active_obligation o)
        d.(Db.obligations) \/
  0 < rowcount (fun o => o.(StorageObligation.session) = s /\
                         o.(StorageObligation.status) = ObligationStatus.STUCK)
        d.(Db.obligations) \/
  0 < rowcount (fun t => t.(StorageTimer.session) = s /\
                         t.(StorageTimer.fired) = false) d.(Db.timers).
#[export] Instance session_blocked_dec d s : Decision (session_blocked d s).
Proof. unfold session_blocked. apply _. Defined.

(** The LIMIT applies to the candidates, before the obligation and timer tests. *)
Definition find_archivable_sessions (session_cutoff : Z) (lim : nat) (d : Db.t)
    : list SKey :=
  let candidates := limit lim
    (filter (session_stale session_cutoff d.(Db.effects))
       (effect_sessions d.(Db.effects))) in
  filter (fun s => ~ session_blocked d s) candidates.

(** ** compact_once *)

(** The three DELETEs of one archived session, with their row counts. *)
Definition archive_session (s : SKey) (r : CompactionResult) (d : Db.t)
    : CompactionResult * Db.t :=
  let Pe e := e.(StorageEffect.session) = s in
  let Po o := o.(StorageObligation.session) = s in
  let Pt t := t.(StorageTimer.session) = s in
  ({| effects_pruned := effects_pruned r + Z.of_nat (rowcount Pe d.(Db.effects));
      obligations_pruned :=
        obligations_pruned r + Z.of_nat (rowcount Po d.(Db.obligations));
      timers_pruned := timers_pruned r + Z.of_nat (rowcount Pt d.(Db.timers));
      sessions_archived := sessions_archived r + 1 |},
   Db.set_timers (delete_where Pt d.(Db.timers))
     (Db.set_obligations (delete_where Po d.(Db.obligations))
       (Db.set_effects (delete_where Pe d.(Db.effects)) d))).

Definition archive_sessions (ss : list SKey) (r : CompactionResult) (d : Db.t)
    : CompactionResult * Db.t :=
  foldl (fun '(r, d) s => archive_session s r d) (r, d) ss.

(** Step 2: COMPENSATED obligations past the TTL; STUCK ones are kept. *)
Definition prunable_obligation (cutoff : Z) (o : StorageObligation.t) : Prop :=
  o.(StorageObligation.status) = ObligationStatus.COMPENSATED /\
  (o.(StorageObligation.ts_ms) < cutoff)%Z.
#[export] Instance prunable_obligation_dec c o : Decision (prunable_obligation c o).
Proof. unfold prunable_obligation. apply _. Defined.

Definition prune_obligations (cutoff : Z) (r : CompactionResult) (d : Db.t)
    : CompactionResult * Db.t :=
  ({| effects_pruned := effects_pruned r;
      obligations_pruned := obligations_pruned r +
        Z.of_nat (rowcount (prunable_obligation cutoff) d.(Db.obligations));
      timers_pruned := timers_pruned r;
      sessions_archived := sessions_archived r |},
   Db.set_obligations (delete_where (prunable_obligation cutoff) d.(Db.obligations)) d).

(** Step 3: fired timers past the TTL. *)
Definition prunable_timer (cutoff : Z) (t : StorageTimer.t) : Prop :=
  t.(StorageTimer.fired) = true /\ (t.(StorageTimer.created_at_ms) < cutoff)%Z.
#[export] Instance prunable_timer_dec c t : Decision (prunable_timer c t).
Proof. unfold prunable_timer. apply _. Defined.

Definition prune_timers (cutoff : Z) (r : CompactionResult) (d : Db.t)
    : CompactionResult * Db.t :=
  ({| effects_pruned := effects_pruned r;
      obligations_pruned := obligations_pruned r;
      timers_pruned := timers_pruned r +
        Z.of_nat (rowcount (prunable_timer cutoff) d.(Db.timers));
      sessions_archived := sessions_archived r |},
   Db.set_timers (delete_where (prunable_timer cutoff) d.(Db.timers)) d).

(** Step 4: terminal effects past the TTL that no active obligation pins. *)
Definition prunable_effect (cutoff : Z) (os : list StorageObligation.t)
    (e : StorageEffect.t) : Prop :=
  terminal_effect e /\ (e.(StorageEffect.ts_ms) < cutoff)%Z /\ ~ pinned os e.
#[export] Instance prunable_effect_dec c os e : Decision (prunable_effect c os e).
Proof. unfold prunable_effect. apply _. Defined.

Definition prune_effects (cutoff : Z) (r : CompactionResult) (d : Db.t)
    : CompactionResult * Db.t :=
  ({| effects_pruned := effects_pruned r +
        Z.of_nat (rowcount (prunable_effect cutoff d.(Db.obligations)) d.(Db.effects));
      obligations_pruned := obligations_pruned r;
      timers_pruned := timers_pruned r;
      sessions_archived := sessions_archived r |},
   Db.set_effects
     (delete_where (prunable_effect cutoff d.(Db.obligations)) d.(Db.effects)) d).

Definition compact_once (clk : Z) (policy : CompactionPolicy) (now_ms : Z)
    : M Db.t CompactionResult :=
  let now := int_or now_ms clk in
  let effect_cutoff := (now - policy.(effect_ttl_ms))%Z in
  let session_cutoff := (now - policy.(session_ttl_ms))%Z in
  txn (fun d =>
    let sessions := find_archivable_sessions session_cutoff
                      policy.(max_per_tick) d in
    let '(r, d) := archive_sessions sessions (mkCompaction 0 0 0 0) d in
    let '(r, d) := if policy.(archive_terminal_obligations)
                   then prune_obligations effect_cutoff r d else (r, d) in
    let '(r, d) := if policy.(archive_fired_timers)
                   then prune_timers effect_cutoff r d else (r, d) in
    let '(r, d) := prune_effects effect_cutoff r d in
    Ok (r, d)).
