(* ===== verification/Connectors.v ===== *)
(** * Connectors: the connector protocol, [tape_adk/connectors.py]

    A connector talks to a counterparty whose state is an abstract type [W];
    each of its three operations is a computation on [W] that may raise. *)
From S2P Require Import Prelude Sql Schemas EffectLedger ObligationLedger.

Module DispatchResult.
Record t := mk {
  status : string;
  external_ref : string;
  response : json;
  error : json;
  retry_after_ms : Z
}.
End DispatchResult.

Module ObservationResult.
Record t := mk {
  status : string;
  external_ref : string;
  response : json;
  error : json;
  compensate_kind : string
}.
End ObservationResult.

Module CompensationResult.
Record t := mk {
  status : string;
  response : json;
  error : json;
  retry_after_ms : Z
}.
End CompensationResult.

Module Connector.
Record t (W : Type) := mk {
  name : string;
  dispatch : EffectRecord.t -> M W DispatchResult.t;
  observe : EffectRecord.t -> M W ObservationResult.t;
  compensate : ObligationRecord.t -> M W CompensationResult.t
}.
Arguments name {W} _.
Arguments dispatch {W} _ _.
Arguments observe {W} _ _.
Arguments compensate {W} _ _.
End Connector.

(** What the protocol documents: the statuses each operation may return. *)
Definition dispatch_statuses : list string := ["confirmed"; "unknown"; "failed"].
Definition observation_statuses : list string :=
  ["confirmed"; "failed"; "absent"; "duplicate"].
Definition compensation_statuses : list string := ["compensated"; "failed"].

(** The interface the reactors rely on. *)
Class LawfulConnector {W} (c : Connector.t W) : Prop := {
  lawful_dispatch : forall e w r w',
    Connector.dispatch c e w = (Ok r, w') ->
    r.(DispatchResult.status) ∈ dispatch_statuses;
  lawful_observe : forall e w r w',
    Connector.observe c e w = (Ok r, w') ->
    r.(ObservationResult.status) ∈ observation_statuses;
  lawful_compensate : forall o w r w',
    Connector.compensate c o w = (Ok r, w') ->
    r.(CompensationResult.status) ∈ compensation_statuses
}.

(** ** LogConnector: records every call *)
Module Log.
Record t := mk {
  dispatches : list EffectRecord.t;
  observations : list EffectRecord.t;
  compensations : list ObligationRecord.t
}.
End Log.

Definition log_dispatch (e : EffectRecord.t) : M Log.t DispatchResult.t := fun w =>
  (Ok {| DispatchResult.status := "confirmed";
         DispatchResult.external_ref :=
           "log-" +:+ String.substring 0 8 e.(EffectRecord.idempotency_key);
         DispatchResult.response := JNull;
         DispatchResult.error := JNull;
         DispatchResult.retry_after_ms := 0 |},
   Log.mk (w.(Log.dispatches) ++ [e]) w.(Log.observations) w.(Log.compensations)).

Definition log_observe (e : EffectRecord.t) : M Log.t ObservationResult.t := fun w =>
  (Ok {| ObservationResult.status := "absent";
         ObservationResult.external_ref := "";
         ObservationResult.response := JNull;
         ObservationResult.error := JNull;
         ObservationResult.compensate_kind := "" |},
   Log.mk w.(Log.dispatches) (w.(Log.observations) ++ [e]) w.(Log.compensations)).

Definition log_compensate (o : ObligationRecord.t)
    : M Log.t CompensationResult.t := fun w =>
  (Ok {| CompensationResult.status := "compensated";
         CompensationResult.response := JNull;
         CompensationResult.error := JNull;
         CompensationResult.retry_after_ms := 0 |},
   Log.mk w.(Log.dispatches) w.(Log.observations) (w.(Log.compensations) ++ [o])).

Definition LogConnector : Connector.t Log.t := {|
  Connector.name := "log";
  Connector.dispatch := log_dispatch;
  Connector.observe := log_observe;
  Connector.compensate := log_compensate
|}.

#[export] Instance log_connector_lawful : LawfulConnector LogConnector.
Proof.
  split; intros ? w r w' [= <- <-]; simpl;
    unfold dispatch_statuses, observation_statuses, compensation_statuses;
    set_solver.
Qed.
