(* ===== verification/Reactors.v ===== *)
(** * Reactors: the four loops of [tape_adk/reactors.py]

    Each [*_once] is one tick over a store of the database and the outside
    world [W] (the counterparties and the clock). *)
From S2P Require Import Prelude Sql Schemas EffectLedger ObligationLedger TimersValues.
From S2P Require Import Connectors.

Section reactors.
Context {W : Type}.
(** [int(time.time() * 1000)]: a reading of the world's clock *)
Variable now_ms : W -> Z * W.
(** the text [type(ex).__name__ : ex] of an exception, and [str()] of a payload *)
Variable exn_text : exn -> string.
Variable py_str : json -> string.
(** the registry: [Mapping[str, Connector]] *)
Variable connectors : gmap string (Connector.t W).

Definition Reactor (A : Type) : Type := M (Db.t * W) A.

Definition read_clock : Reactor Z := fun '(d, w) =>
  let '(z, w') := now_ms w in (Ok z, (d, w')).

(** [await svc.op(..)]: the operation reads the clock once. *)
Definition svc {A} (op : Z -> M Db.t A) : Reactor A :=
  clk ← read_clock; on_fst (op clk).

(** A call of the outside world. *)
Definition ext {A} (m : M W A) : Reactor A := fun '(d, w) =>
  let '(r, w') := m w in (r, (d, w')).

(** [try: Ok(await m) except Exception as ex: Err(ex)] *)
Definition attempt {A} (m : Reactor A) : Reactor (result A) := fun s =>
  let '(r, s') := m s in (Ok r, s').

(** [min(default_backoff_ms * (2 ** max(0, attempts - 1)), max_backoff_ms)] *)
Definition backoff (default_backoff_ms max_backoff_ms attempts : Z) : Z :=
  Z.min (default_backoff_ms * 2 ^ Z.max 0 (attempts - 1)) max_backoff_ms.

(** ** The outbox dispatcher *)

Inductive DispatchAudit :=
  | DNoConnector (key : string) (connector : option string)
  | DLostClaim (key : string)
  | DNotPending (key : string)
  | DException (key : string) (backoff_ms : Z)
  | DConfirmed (key external_ref : string)
  | DUnknown (key : string)
  | DFailedTerminal (key : string)
  | DFailedRetry (key : string) (backoff_ms : Z)
  | DIgnored (key : string) (status : string).  (** logged, not appended *)

(** The direct UPDATE that attaches a connector's [external_ref]. *)
Definition attach_external_ref (s : SKey) (key ref : string) : M Db.t unit :=
  txn (fun d => Ok (tt, Db.set_effects
    (update_where (fun r => StorageEffect.pk r = (s, key))
       (StorageEffect.set_external_ref (Some ref)) d.(Db.effects)) d)).

(** What the loop does with one connector outcome. *)
Definition settle_dispatch (now default_backoff_ms max_backoff_ms : Z)
    (fresh : EffectRecord.t) (outcome : result DispatchResult.t)
    : Reactor DispatchAudit :=
  let s := fresh.(EffectRecord.session) in
  let key := fresh.(EffectRecord.idempotency_key) in
  let attempts := (fresh.(EffectRecord.dispatch_attempts) + 1)%Z in
  let delay := backoff default_backoff_ms max_backoff_ms attempts in
  match outcome with
  | Err ex =>
    _ ← svc (fun clk => record_dispatch_attempt clk s key (exn_text ex) (now + delay));
    mret (DException key delay)
  | Ok o =>
    if decide (o.(DispatchResult.status) = "confirmed") then
      _ ← svc (fun clk => complete_effect clk s key EffectStatus.CONFIRMED
                            o.(DispatchResult.response) JNull);
      _ ← (if decide (o.(DispatchResult.external_ref) = "") then mret tt
           else on_fst (attach_external_ref s key o.(DispatchResult.external_ref)));
      mret (DConfirmed key o.(DispatchResult.external_ref))
    else if decide (o.(DispatchResult.status) = "unknown") then
      _ ← svc (fun clk => record_dispatch_attempt clk s key
             (py_str (json_or o.(DispatchResult.error) (JStr "ack lost"))) 0);
      mret (DUnknown key)
    else if decide (o.(DispatchResult.status) = "failed") then
      if decide (o.(DispatchResult.retry_after_ms) < 0)%Z then
        _ ← svc (fun clk => complete_effect clk s key EffectStatus.FAILED
                              JNull o.(DispatchResult.error));
        mret (DFailedTerminal key)
      else
        let delay := int_or o.(DispatchResult.retry_after_ms) delay in
        _ ← svc (fun clk => record_dispatch_attempt clk s key
               (py_str (json_or o.(DispatchResult.error) (JStr "dispatch failed")))
               (now + delay));
        mret (DFailedRetry key delay)
    else mret (DIgnored key o.(DispatchResult.status))
  end.

(** The loop body for one listed effect. *)
Definition dispatch_effect (now : Z) (claimer : string)
    (lease_ttl_ms default_backoff_ms max_backoff_ms : Z) (eff : EffectRecord.t)
    : Reactor DispatchAudit :=
  let s := eff.(EffectRecord.session) in
  let key := eff.(EffectRecord.idempotency_key) in
  match eff.(EffectRecord.connector) ≫= fun n => connectors !! n with
  | None => mret (DNoConnector key eff.(EffectRecord.connector))
  | Some _ =>
    claim ← svc (fun clk => claim_effect_dispatch clk s key claimer lease_ttl_ms now);
    if negb claim.1 then mret (DLostClaim key)
    else
      fresh ← on_fst (get_effect s key);
      match fresh with
      | None => mret (DNotPending key)
      | Some fresh =>
        if decide (fresh.(EffectRecord.status) <> EffectStatus.PENDING)
        then mret (DNotPending key)
        else
          match fresh.(EffectRecord.connector) ≫= fun n => connectors !! n with
          | None => raise (Raised "KeyError" "")
          | Some connector =>
            outcome ← attempt (ext (Connector.dispatch connector fresh));
            settle_dispatch now default_backoff_ms max_backoff_ms fresh outcome
          end
      end
  end.

Definition dispatch_outbox_once (claimer : string) (lim : nat)
    (lease_ttl_ms default_backoff_ms max_backoff_ms : Z)
    : Reactor (list DispatchAudit) :=
  now ← read_clock;
  effects ← svc (fun clk => list_effects_to_dispatch clk now "" lim);
  for_each effects
    (dispatch_effect now claimer lease_ttl_ms default_backoff_ms max_backoff_ms).

(** ** The reconciler *)

Inductive ReconcileAudit :=
  | RNoConnector (key : string) (connector : option string)
  | RObserveRaised (key : string) (ex : exn)
  | ROutcome (key : string) (status external_ref : string).

Definition reconcile_effect (eff : EffectRecord.t) : Reactor ReconcileAudit :=
  let s := eff.(EffectRecord.session) in
  let key := eff.(EffectRecord.idempotency_key) in
  match connectors !! default "" (str_or_none eff.(EffectRecord.connector)) with
  | None => mret (RNoConnector key eff.(EffectRecord.connector))
  | Some connector =>
    obs ← attempt (ext (Connector.observe connector eff));
    match obs with
    | Err ex => mret (RObserveRaised key ex)
    | Ok obs =>
      _ ← svc (fun clk => record_external_observation clk s key
             obs.(ObservationResult.status) obs.(ObservationResult.external_ref)
             obs.(ObservationResult.response) obs.(ObservationResult.error)
             obs.(ObservationResult.compensate_kind));
      mret (ROutcome key obs.(ObservationResult.status)
              obs.(ObservationResult.external_ref))
    end
  end.

Definition reconcile_once (stale_pending_ms : Z) (lim : nat)
    : Reactor (list ReconcileAudit) :=
  cutoff ← (if decide (0 < stale_pending_ms)%Z
            then now ← read_clock; mret (now - stale_pending_ms)%Z
            else mret 0%Z);
  effects ← on_fst (list_pending_effects cutoff
              (bool_decide (0 < stale_pending_ms)%Z) true lim);
  for_each effects reconcile_effect.

(** ** The compensation drainer *)

Inductive DrainAudit :=
  | ONoConnector (seq : Z) (connector : string)
  | OLostClaim (seq : Z)
  | OException (seq : Z) (backoff_ms : Z)
  | OCompensated (seq : Z)
  | OFailedRetry (seq : Z) (backoff_ms : Z)
  | OIgnored (seq : Z) (status : string).  (** logged, not appended *)

Definition settle_compensation (now default_backoff_ms max_backoff_ms : Z)
    (ob : ObligationRecord.t) (outcome : result CompensationResult.t)
    : Reactor DrainAudit :=
  let seq := ob.(ObligationRecord.seq) in
  match outcome with
  | Err ex =>
    let attempts := (ob.(ObligationRecord.attempts) + 1)%Z in
    let delay := backoff default_backoff_ms max_backoff_ms attempts in
    _ ← svc (fun clk => record_obligation_attempt clk seq (exn_text ex) (now + delay));
    mret (OException seq delay)
  | Ok o =>
    if decide (o.(CompensationResult.status) = "compensated") then
      _ ← svc (fun clk => resolve_obligation clk seq ObligationStatus.COMPENSATED
                            o.(CompensationResult.response));
      mret (OCompensated seq)
    else if decide (o.(CompensationResult.status) = "failed") then
      let delay := int_or o.(CompensationResult.retry_after_ms)
        (Z.min (default_backoff_ms * 2 ^ Z.max 0 ob.(ObligationRecord.attempts))
           max_backoff_ms) in
      _ ← svc (fun clk => record_obligation_attempt clk seq
             (py_str (json_or o.(CompensationResult.error) (JStr "compensate failed")))
             (now + delay));
      mret (OFailedRetry seq delay)
    else mret (OIgnored seq o.(CompensationResult.status))
  end.

Definition drain_obligation (now : Z) (claimer : string)
    (lease_ttl_ms default_backoff_ms max_backoff_ms : Z) (ob : ObligationRecord.t)
    : Reactor DrainAudit :=
  let seq := ob.(ObligationRecord.seq) in
  eff ← (if decide (ob.(ObligationRecord.effect_key) = "") then mret None
         else on_fst (get_effect ob.(ObligationRecord.session)
                        ob.(ObligationRecord.effect_key)));
  let connector_name := default ob.(ObligationRecord.kind)
    (eff ≫= fun e => str_or_none e.(EffectRecord.connector)) in
  match connectors !! connector_name with
  | None => mret (ONoConnector seq connector_name)
  | Some connector =>
    claim ← svc (fun clk => claim_obligation clk seq claimer lease_ttl_ms now);
    if negb claim.1 then mret (OLostClaim seq)
    else
      outcome ← attempt (ext (Connector.compensate connector ob));
      settle_compensation now default_backoff_ms max_backoff_ms ob outcome
  end.

Definition drain_obligations_once (claimer : string) (lim : nat)
    (lease_ttl_ms default_backoff_ms max_backoff_ms : Z)
    : Reactor (list DrainAudit) :=
  now ← read_clock;
  obligations ← svc (fun clk =>
    list_unresolved_obligations clk now lim true false true);
  for_each obligations
    (drain_obligation now claimer lease_ttl_ms default_backoff_ms max_backoff_ms).

(** ** The timer firer *)

Inductive TimerAudit :=
  | TFired (timer_id : string)
  | TDispatcherRaised (timer_id : string) (ex : exn)
  | TMarkedFired (timer_id : string).

Definition fire_timer (dispatcher : option (TimerRecord.t -> M W unit))
    (t : TimerRecord.t) : Reactor TimerAudit :=
  match dispatcher with
  | None => mret (TMarkedFired t.(TimerRecord.timer_id))
  | Some f =>
    r ← attempt (ext (f t));
    mret (match r with
          | Ok _ => TFired t.(TimerRecord.timer_id)
          | Err ex => TDispatcherRaised t.(TimerRecord.timer_id) ex
          end)
  end.

Definition fire_due_timers_once (dispatcher : option (TimerRecord.t -> M W unit))
    (lim : nat) : Reactor (list TimerAudit) :=
  now ← read_clock;
  timers ← svc (fun clk => list_due_timers clk now lim true);
  for_each timers (fire_timer dispatcher).
End reactors.
