(* ===== verification/WellFormed.v ===== *)
(** * WellFormed: the database invariant, and how the writes keep it

    [wf] collects what the schema declares (primary keys, UNIQUE constraints,
    foreign keys) and what the service methods maintain on top (valid statuses,
    the non-idempotent contract, lease and retry bookkeeping).  One lemma per
    primitive write says when it keeps [wf]; the component files use these. *)
From S2P Require Import Prelude Sql Schemas EffectLedger ObligationLedger TimersValues.
From S2P Require Import Snapshots.

Definition effect_statuses : list string :=
  [EffectStatus.PENDING; EffectStatus.CONFIRMED; EffectStatus.FAILED;
   EffectStatus.UNKNOWN].
Definition obligation_statuses : list string :=
  [ObligationStatus.PENDING; ObligationStatus.COMMITTED;
   ObligationStatus.COMPENSATED; ObligationStatus.STUCK].

(** An effect row: a valid status; never non-idempotent and inline; an outbox
    row names its connector; no empty dedup keys; a count that only grew; and a
    free lease slot carries no expiry. *)
Record effect_ok (r : StorageEffect.t) : Prop := mk_effect_ok {
  eo_status : r.(StorageEffect.status) ∈ effect_statuses;
  eo_contract : ~ (r.(StorageEffect.semantics) = EffectSemantics.NON_IDEMPOTENT /\
                   r.(StorageEffect.dispatch_mode) = EffectDispatchMode.INLINE);
  eo_outbox : r.(StorageEffect.dispatch_mode) = EffectDispatchMode.OUTBOX ->
              is_Some r.(StorageEffect.connector);
  eo_connector : r.(StorageEffect.connector) <> Some "";
  eo_business_key : r.(StorageEffect.business_key) <> Some "";
  eo_attempts : (0 <= r.(StorageEffect.dispatch_attempts))%Z;
  eo_lease : r.(StorageEffect.dispatch_claimed_by) = None ->
             r.(StorageEffect.dispatch_claim_expires_at_ms) = 0%Z
}.

(** An obligation row: COMMITTED exactly while somebody holds the claim, and a
    row still being driven has retries left. *)
Record obligation_ok (o : StorageObligation.t) : Prop := mk_obligation_ok {
  oo_status : o.(StorageObligation.status) ∈ obligation_statuses;
  oo_attempts : (0 <= o.(StorageObligation.attempts))%Z;
  oo_claim : o.(StorageObligation.status) = ObligationStatus.COMMITTED <->
             is_Some o.(StorageObligation.claimed_by);
  oo_retries : active_obligation o ->
               o.(StorageObligation.attempts) = 0%Z \/
               (o.(StorageObligation.attempts) < o.(StorageObligation.max_attempts))%Z
}.

Definition captured_terminal (c : Captured.t) : Prop :=
  exists st, c.(Captured.status) = Some st /\
             st ∈ [EffectStatus.CONFIRMED; EffectStatus.FAILED].

Definition snapshot_ok (sn : StorageEffectSnapshot.t) : Prop :=
  exists m, sn.(StorageEffectSnapshot.effects_json) = Some m /\
    sn.(StorageEffectSnapshot.effects_count) = Z.of_nat (size m) /\
    map_Forall (fun _ => captured_terminal) m.

Definition value_ok (v : StorageValue.t) : Prop := (1 <= v.(StorageValue.version))%Z.

Record wf (d : Db.t) : Prop := mk_wf {
  wf_effect_pk : keyed StorageEffect.pk d.(Db.effects);
  wf_business : NoDup (omap StorageEffect.business d.(Db.effects));
  wf_effects : Forall effect_ok d.(Db.effects);
  wf_effect_fk : Forall (fun r => r.(StorageEffect.session) ∈ d.(Db.sessions))
                   d.(Db.effects);
  wf_obligation_pk : keyed StorageObligation.seq d.(Db.obligations);
  wf_obligation_uq : keyed StorageObligation.uq d.(Db.obligations);
  wf_obligations : Forall obligation_ok d.(Db.obligations);
  wf_obligation_fk : Forall (fun r => r.(StorageObligation.session) ∈ d.(Db.sessions))
                       d.(Db.obligations);
  wf_next_seq : Forall (fun r => (r.(StorageObligation.seq) < d.(Db.next_seq))%Z)
                  d.(Db.obligations);
  wf_timer_pk : keyed StorageTimer.pk d.(Db.timers);
  wf_timer_fk : Forall (fun r => r.(StorageTimer.session) ∈ d.(Db.sessions))
                  d.(Db.timers);
  wf_snapshot_pk : keyed StorageEffectSnapshot.session d.(Db.snapshots);
  wf_snapshots : Forall snapshot_ok d.(Db.snapshots);
  wf_snapshot_fk : Forall (fun r => r.(StorageEffectSnapshot.session) ∈ d.(Db.sessions))
                     d.(Db.snapshots);
  wf_value_pk : keyed StorageValue.pk d.(Db.values);
  wf_values : Forall value_ok d.(Db.values)
}.

Lemma wf_empty ss : wf (Db.empty ss).
Proof. split; simpl; try constructor. Qed.

(** ** Selections on a well-formed database *)
Section selections.
Context (d : Db.t) (Hwf : wf d).

Lemma select_effect_wf s key :
  select_effect s key d = Ok (row_at StorageEffect.pk (s, key) d.(Db.effects), d).
Proof.
  unfold select_effect. monad_simpl. rewrite (select_key StorageEffect.pk); [done|].
  apply Hwf.
Qed.
Lemma select_snapshot_wf s :
  select_snapshot s d
    = Ok (row_at StorageEffectSnapshot.session s d.(Db.snapshots), d).
Proof.
  unfold select_snapshot. monad_simpl.
  rewrite (select_key StorageEffectSnapshot.session); [done|]. apply Hwf.
Qed.
Lemma select_obligation_wf seq :
  select_obligation seq d
    = Ok (row_at StorageObligation.seq seq d.(Db.obligations), d).
Proof.
  unfold select_obligation. monad_simpl.
  rewrite (select_key StorageObligation.seq); [done|]. apply Hwf.
Qed.
Lemma select_obligation_of_wf s ek kind :
  select_obligation_of s ek kind d
    = Ok (row_at StorageObligation.uq (s, ek, kind) d.(Db.obligations), d).
Proof.
  unfold select_obligation_of. monad_simpl.
  rewrite (select_key StorageObligation.uq); [done|]. apply Hwf.
Qed.
Lemma select_timer_wf s tid :
  select_timer s tid d = Ok (row_at StorageTimer.pk (s, tid) d.(Db.timers), d).
Proof.
  unfold select_timer. monad_simpl. rewrite (select_key StorageTimer.pk); [done|].
  apply Hwf.
Qed.
Lemma select_value_wf ns k :
  select_value ns k d = Ok (row_at StorageValue.pk (ns, k) d.(Db.values), d).
Proof.
  unfold select_value. monad_simpl. rewrite (select_key StorageValue.pk); [done|].
  apply Hwf.
Qed.
End selections.

(** ** Writes *)

(** An UPDATE keeps a property of every row when it keeps it of the rows it
    changes. *)
Lemma Forall_update {R} (Q P : R -> Prop) `{!∀ r, Decision (P r)} f (t : list R) :
  Forall Q t -> (forall r, r ∈ t -> P r -> Q r -> Q (f r)) ->
  Forall Q (update_where P f t).
Proof.
  rewrite !Forall_forall. intros HQ Hf r.
  rewrite elem_of_update. intros (x & Hx & ->). case_decide; eauto.
Qed.
Lemma Forall_delete {R} (Q P : R -> Prop) `{!∀ r, Decision (P r)} (t : list R) :
  Forall Q t -> Forall Q (delete_where P t).
Proof.
  rewrite !Forall_forall. intros HQ r. rewrite elem_of_delete. intros [_ Hr]. eauto.
Qed.
Lemma Forall_insert_row {R} (Q : R -> Prop) r (t : list R) :
  Forall Q t -> Q r -> Forall Q (insert_row r t).
Proof. intros. apply Forall_app. split; [done|]. by constructor. Qed.

#[export] Hint Resolve Forall_update Forall_delete Forall_insert_row : tape.

Lemma omap_update {R B} (g : R -> option B) (P : R -> Prop)
    `{!∀ r, Decision (P r)} f (t : list R) :
  (forall r, r ∈ t -> P r -> g (f r) = g r) -> omap g (update_where P f t) = omap g t.
Proof.
  intros Hf. induction t as [|x t IH]; [done|].
  change (update_where P f (x :: t))
    with ((if decide (P x) then f x else x) :: update_where P f t).
  assert (Hx : g (if decide (P x) then f x else x) = g x).
  { case_decide; [|done]. apply Hf; [left|done]. }
  cbn [omap list_omap]. rewrite Hx, IH; [done|].
  intros r Hr. apply Hf. by right.
Qed.

Lemma omap_delete_sublist {R B} (g : R -> option B) (P : R -> Prop)
    `{!∀ r, Decision (P r)} (t : list R) :
  omap g (delete_where P t) `sublist_of` omap g t.
Proof.
  unfold delete_where. induction t as [|x t IH]; [done|].
  rewrite filter_cons. cbn [omap list_omap].
  case_decide; cbn [omap list_omap]; destruct (g x); by constructor || done.
Qed.

(** Replacing one table by one that keeps its part of the invariant. *)
Lemma wf_set_effects d es :
  wf d -> keyed StorageEffect.pk es -> NoDup (omap StorageEffect.business es) ->
  Forall effect_ok es ->
  Forall (fun r => r.(StorageEffect.session) ∈ d.(Db.sessions)) es ->
  wf (Db.set_effects es d).
Proof. intros [] ????. by split. Qed.

Lemma wf_set_obligations d os n :
  wf d -> keyed StorageObligation.seq os -> keyed StorageObligation.uq os ->
  Forall obligation_ok os ->
  Forall (fun r => r.(StorageObligation.session) ∈ d.(Db.sessions)) os ->
  Forall (fun r => (r.(StorageObligation.seq) < n)%Z) os ->
  wf (Db.set_next_seq n (Db.set_obligations os d)).
Proof. intros [] ?????. by split. Qed.

Lemma set_obligations_next_seq os d :
  Db.set_obligations os d = Db.set_next_seq d.(Db.next_seq) (Db.set_obligations os d).
Proof. done. Qed.

Lemma wf_set_timers d ts :
  wf d -> keyed StorageTimer.pk ts ->
  Forall (fun r => r.(StorageTimer.session) ∈ d.(Db.sessions)) ts ->
  wf (Db.set_timers ts d).
Proof. intros [] ??. by split. Qed.

Lemma wf_set_snapshots d ss :
  wf d -> keyed StorageEffectSnapshot.session ss -> Forall snapshot_ok ss ->
  Forall (fun r => r.(StorageEffectSnapshot.session) ∈ d.(Db.sessions)) ss ->
  wf (Db.set_snapshots ss d).
Proof. intros [] ???. by split. Qed.

Lemma wf_set_values d vs :
  wf d -> keyed StorageValue.pk vs -> Forall value_ok vs -> wf (Db.set_values vs d).
Proof. intros [] ??. by split. Qed.

(** UPDATE, DELETE and INSERT on the effects table. *)
Lemma wf_update_effects d (P : StorageEffect.t -> Prop) `{!∀ r, Decision (P r)} f :
  wf d ->
  (forall r, P r -> StorageEffect.pk (f r) = StorageEffect.pk r) ->
  (forall r, r ∈ d.(Db.effects) -> P r ->
     StorageEffect.business (f r) = StorageEffect.business r) ->
  (forall r, r ∈ d.(Db.effects) -> P r -> effect_ok r -> effect_ok (f r)) ->
  wf (Db.set_effects (update_where P f d.(Db.effects)) d).
Proof.
  intros Hwf Hpk Hb Hok. apply wf_set_effects; [done|..].
  - apply keyed_update; [done|]. apply Hwf.
  - rewrite omap_update by done. apply Hwf.
  - apply Forall_update; [apply Hwf|done].
  - apply Forall_update; [apply Hwf|]. intros r _ HP.
    specialize (Hpk r HP). injection Hpk as -> _. done.
Qed.

Lemma wf_delete_effects d (P : StorageEffect.t -> Prop) `{!∀ r, Decision (P r)} :
  wf d -> wf (Db.set_effects (delete_where P d.(Db.effects)) d).
Proof.
  intros Hwf. apply wf_set_effects; [done|..].
  - apply keyed_delete, Hwf.
  - eapply sublist_NoDup; [apply (wf_business _ Hwf)|]. apply omap_delete_sublist.
  - apply Forall_delete, Hwf.
  - apply Forall_delete, Hwf.
Qed.

Lemma wf_save_effect d r0 r u d' :
  wf d -> row_at StorageEffect.pk (StorageEffect.pk r) d.(Db.effects) = Some r0 ->
  StorageEffect.business r = StorageEffect.business r0 ->
  (effect_ok r0 -> effect_ok r) ->
  save_effect r d = Ok (u, d') -> wf d'.
Proof.
  intros Hwf Hr0 Hb Hok [= <- <-].
  assert (Hx : forall x, x ∈ d.(Db.effects) -> StorageEffect.pk x = StorageEffect.pk r ->
    x = r0).
  { intros x Hin Hk.
    assert (row_at StorageEffect.pk (StorageEffect.pk r) d.(Db.effects) = Some x)
      by (apply row_at_Some; [apply Hwf|done]). congruence. }
  apply wf_update_effects; [done|done| |].
  - intros x Hin Hk. by rewrite (Hx x Hin Hk).
  - intros x Hin Hk Hx'. rewrite (Hx x Hin Hk) in Hx'. auto.
Qed.

Lemma insert_effect_inv r d d' u :
  insert_effect r d = Ok (u, d') ->
  effect_insertable d r /\ d' = Db.set_effects (insert_row r d.(Db.effects)) d.
Proof. unfold insert_effect. case_decide; [|done]. by intros [= <- <-]. Qed.

Lemma wf_insert_effect r d d' u :
  wf d -> effect_ok r -> insert_effect r d = Ok (u, d') -> wf d'.
Proof.
  intros Hwf Hr [(Hk & Hb & Hs) ->]%insert_effect_inv.
  apply wf_set_effects; [done|..].
  - apply keyed_insert; [apply Hwf|done].
  - unfold insert_row. rewrite omap_app. apply NoDup_app.
    split; [apply Hwf|]. cbn. split.
    + intros b Hb1 Hb2. destruct (StorageEffect.business r) as [b'|] eqn:E;
        [|by apply elem_of_nil in Hb2].
      apply list_elem_of_singleton in Hb2 as ->. destruct Hb as [|Hb]; [done|].
      apply list_elem_of_omap in Hb1 as (x & Hx & Hxb).
      rewrite Forall_forall in Hb. by apply (Hb x Hx).
    + destruct (StorageEffect.business r); [apply NoDup_singleton|constructor].
  - apply Forall_insert_row; [apply Hwf|done].
  - apply Forall_insert_row; [apply Hwf|done].
Qed.

(** ... and on the obligations table. *)
Lemma wf_update_obligations d (P : StorageObligation.t -> Prop)
    `{!∀ r, Decision (P r)} f :
  wf d ->
  (forall r, P r -> StorageObligation.seq (f r) = StorageObligation.seq r) ->
  (forall r, r ∈ d.(Db.obligations) -> P r ->
     StorageObligation.uq (f r) = StorageObligation.uq r) ->
  (forall r, r ∈ d.(Db.obligations) -> P r -> obligation_ok r -> obligation_ok (f r)) ->
  wf (Db.set_obligations (update_where P f d.(Db.obligations)) d).
Proof.
  intros Hwf Hpk Hb Hok. rewrite set_obligations_next_seq.
  apply wf_set_obligations; [done|..].
  - apply keyed_update; [done|]. apply Hwf.
  - unfold keyed.
    assert (StorageObligation.uq <$> update_where P f (Db.obligations d)
            = StorageObligation.uq <$> Db.obligations d) as ->; [|apply Hwf].
    unfold update_where. rewrite <-list_fmap_compose. apply list_fmap_ext.
    intros i r Hr. simpl. case_decide; [|done].
    apply Hb; [|done]. by eapply list_elem_of_lookup_2.
  - apply Forall_update; [apply Hwf|done].
  - apply Forall_update; [apply Hwf|]. intros r Hin HP.
    specialize (Hb r Hin HP). injection Hb as -> _. done.
  - apply Forall_update; [apply Hwf|]. intros r _ HP ?. by rewrite Hpk.
Qed.

Lemma wf_delete_obligations d (P : StorageObligation.t -> Prop)
    `{!∀ r, Decision (P r)} :
  wf d -> wf (Db.set_obligations (delete_where P d.(Db.obligations)) d).
Proof.
  intros Hwf. rewrite set_obligations_next_seq.
  apply wf_set_obligations; try done; try apply keyed_delete; try apply Forall_delete;
    apply Hwf.
Qed.

Lemma wf_save_obligation d r0 r u d' :
  wf d ->
  row_at StorageObligation.seq r.(StorageObligation.seq) d.(Db.obligations) = Some r0 ->
  StorageObligation.uq r = StorageObligation.uq r0 ->
  (obligation_ok r0 -> obligation_ok r) ->
  save_obligation r d = Ok (u, d') -> wf d'.
Proof.
  intros Hwf Hr0 Hb Hok [= <- <-].
  assert (Hx : forall x, x ∈ d.(Db.obligations) ->
    StorageObligation.seq x = StorageObligation.seq r -> x = r0).
  { intros x Hin Hk.
    assert (row_at StorageObligation.seq (StorageObligation.seq r) d.(Db.obligations)
            = Some x) by (apply row_at_Some; [apply Hwf|done]). congruence. }
  apply wf_update_obligations; [done|done| |].
  - intros x Hin Hk. by rewrite (Hx x Hin Hk).
  - intros x Hin Hk Hx'. rewrite (Hx x Hin Hk) in Hx'. auto.
Qed.

Lemma insert_obligation_inv f d r d' :
  insert_obligation f d = Ok (r, d') ->
  r = f d.(Db.next_seq) /\ obligation_insertable d r /\
  d' = Db.set_next_seq (d.(Db.next_seq) + 1)
         (Db.set_obligations (insert_row r d.(Db.obligations)) d).
Proof. unfold insert_obligation. case_decide; [|done]. by intros [= <- <-]. Qed.

Lemma insert_obligation_ok f d :
  obligation_insertable d (f d.(Db.next_seq)) ->
  insert_obligation f d =
    Ok (f d.(Db.next_seq), Db.set_next_seq (d.(Db.next_seq) + 1)
          (Db.set_obligations (insert_row (f d.(Db.next_seq)) d.(Db.obligations)) d)).
Proof. intros. unfold insert_obligation. by rewrite decide_True. Qed.

Lemma insert_obligation_err f d :
  ~ obligation_insertable d (f d.(Db.next_seq)) ->
  insert_obligation f d = Err IntegrityError.
Proof. intros. unfold insert_obligation. by rewrite decide_False. Qed.

Lemma wf_next_seq_free d :
  wf d -> row_at StorageObligation.seq d.(Db.next_seq) d.(Db.obligations) = None.
Proof.
  intros Hwf. apply row_at_None. eapply Forall_impl; [apply (wf_next_seq _ Hwf)|].
  simpl. lia.
Qed.

(** On a well-formed database an obligation can be inserted when its session
    exists and no other one has its (session, effect, kind). *)
Lemma wf_obligation_insertable d o :
  wf d -> StorageObligation.seq o = d.(Db.next_seq) ->
  o.(StorageObligation.session) ∈ d.(Db.sessions) ->
  obligation_insertable d o <->
  row_at StorageObligation.uq (StorageObligation.uq o) d.(Db.obligations) = None.
Proof.
  intros Hwf Hseq Hs. unfold obligation_insertable. rewrite Hseq, wf_next_seq_free by done.
  naive_solver.
Qed.

Lemma wf_insert_obligation f d r d' :
  wf d -> (forall n, StorageObligation.seq (f n) = n /\ obligation_ok (f n)) ->
  insert_obligation f d = Ok (r, d') -> wf d'.
Proof.
  intros Hwf Hf (-> & (Hk & Hu & Hs) & ->)%insert_obligation_inv.
  destruct (Hf (Db.next_seq d)) as [Hseq Hok].
  apply wf_set_obligations; [done|..].
  - by apply keyed_insert; [apply Hwf|].
  - by apply keyed_insert; [apply Hwf|].
  - by apply Forall_insert_row; [apply Hwf|].
  - by apply Forall_insert_row; [apply Hwf|].
  - apply Forall_insert_row; [|rewrite Hseq; lia].
    eapply Forall_impl; [apply (wf_next_seq _ Hwf)|]. simpl. lia.
Qed.

(** Timers, snapshots and values. *)
Lemma wf_update_timers d (P : StorageTimer.t -> Prop) `{!∀ r, Decision (P r)} f :
  wf d -> (forall r, P r -> StorageTimer.pk (f r) = StorageTimer.pk r) ->
  wf (Db.set_timers (update_where P f d.(Db.timers)) d).
Proof.
  intros Hwf Hpk. apply wf_set_timers; [done|..].
  - apply keyed_update; [done|]. apply Hwf.
  - apply Forall_update; [apply Hwf|]. intros r _ HP.
    specialize (Hpk r HP). injection Hpk as -> _. done.
Qed.

Lemma wf_delete_timers d (P : StorageTimer.t -> Prop) `{!∀ r, Decision (P r)} :
  wf d -> wf (Db.set_timers (delete_where P d.(Db.timers)) d).
Proof.
  intros Hwf. apply wf_set_timers; [done|apply keyed_delete, Hwf|apply Forall_delete, Hwf].
Qed.

Lemma insert_timer_inv r d d' u :
  insert_timer r d = Ok (u, d') ->
  row_at StorageTimer.pk (StorageTimer.pk r) d.(Db.timers) = None /\
  r.(StorageTimer.session) ∈ d.(Db.sessions) /\
  d' = Db.set_timers (insert_row r d.(Db.timers)) d.
Proof. unfold insert_timer. case_decide as H; [|done]. destruct H. by intros [= <- <-]. Qed.

Lemma wf_insert_timer r d d' u : wf d -> insert_timer r d = Ok (u, d') -> wf d'.
Proof.
  intros Hwf (Hk & Hs & ->)%insert_timer_inv. apply wf_set_timers; [done|..].
  - by apply keyed_insert; [apply Hwf|].
  - by apply Forall_insert_row; [apply Hwf|].
Qed.

Lemma wf_insert_snapshot r d d' u :
  wf d -> snapshot_ok r -> insert_snapshot r d = Ok (u, d') -> wf d'.
Proof.
  intros Hwf Hr. unfold insert_snapshot. case_decide as H; [|done].
  destruct H as [Hk Hs]. intros [= <- <-]. apply wf_set_snapshots; [done|..].
  - by apply keyed_insert; [apply Hwf|].
  - by apply Forall_insert_row; [apply Hwf|].
  - by apply Forall_insert_row; [apply Hwf|].
Qed.

Lemma wf_save_snapshot d r0 r u d' :
  wf d ->
  row_at StorageEffectSnapshot.session r.(StorageEffectSnapshot.session)
    d.(Db.snapshots) = Some r0 ->
  snapshot_ok r -> save_snapshot r d = Ok (u, d') -> wf d'.
Proof.
  intros Hwf Hr0 Hr [= <- <-]. apply wf_set_snapshots; [done|..].
  - apply keyed_update; [done|]. apply Hwf.
  - apply Forall_update; [apply Hwf|done].
  - apply Forall_update; [apply Hwf|]. by intros x _ <-.
Qed.

Lemma wf_insert_value r d d' u :
  wf d -> value_ok r -> insert_value r d = Ok (u, d') -> wf d'.
Proof.
  intros Hwf Hr. unfold insert_value. case_decide as H; [|done].
  intros [= <- <-]. apply wf_set_values; [done|..].
  - by apply keyed_insert; [apply Hwf|].
  - by apply Forall_insert_row; [apply Hwf|].
Qed.

Lemma wf_save_value d r u d' :
  wf d -> value_ok r -> save_value r d = Ok (u, d') -> wf d'.
Proof.
  intros Hwf Hr [= <- <-]. apply wf_set_values; [done|..].
  - apply keyed_update; [done|]. apply Hwf.
  - apply Forall_update; [apply Hwf|done].
Qed.

(** The UNIQUE constraint: a (connector, business_key) pair names one row. *)
Lemma omap_NoDup_inj {R B} (g : R -> option B) (t : list R) x y b :
  NoDup (omap g t) -> x ∈ t -> y ∈ t -> g x = Some b -> g y = Some b -> x = y.
Proof.
  assert (Hin : forall t u, u ∈ t -> g u = Some b -> b ∈ omap g t)
    by (intros t' u ??; apply list_elem_of_omap; eauto).
  induction t as [|z t IH]; [by intros _ ?%elem_of_nil|].
  cbn [omap list_omap]. intros Hnd [->|Hx]%elem_of_cons [->|Hy]%elem_of_cons Hgx Hgy;
    [done|..].
  - rewrite Hgx in Hnd. apply NoDup_cons in Hnd as [[] _]. eauto.
  - rewrite Hgy in Hnd. apply NoDup_cons in Hnd as [[] _]. eauto.
  - apply IH; [|done..]. destruct (g z); [by apply NoDup_cons in Hnd as [_ ?]|done].
Qed.

Lemma wf_business_inj d x y b :
  wf d -> x ∈ d.(Db.effects) -> y ∈ d.(Db.effects) ->
  StorageEffect.business x = Some b -> StorageEffect.business y = Some b -> x = y.
Proof. intros Hwf. apply omap_NoDup_inj, Hwf. Qed.

(** A row of the table satisfies its row invariant. *)
Lemma wf_effect_at d k r :
  wf d -> row_at StorageEffect.pk k d.(Db.effects) = Some r ->
  effect_ok r /\ StorageEffect.pk r = k /\ r ∈ d.(Db.effects).
Proof.
  intros Hwf [Hin Hk]%row_at_Some_1. split; [|done].
  eapply Forall_forall; [apply (wf_effects _ Hwf)|done].
Qed.
Lemma wf_obligation_at d n r :
  wf d -> row_at StorageObligation.seq n d.(Db.obligations) = Some r ->
  obligation_ok r /\ StorageObligation.seq r = n /\ r ∈ d.(Db.obligations).
Proof.
  intros Hwf [Hin Hk]%row_at_Some_1. split; [|done].
  eapply Forall_forall; [apply (wf_obligations _ Hwf)|done].
Qed.

(** ** The invariant is decidable, so that it evaluates on concrete databases *)
Definition dec_iff {P Q : Prop} (H : P <-> Q) (dq : Decision Q) : Decision P :=
  match dq with
  | left q => left (proj2 H q)
  | right n => right (fun p => n (proj1 H p))
  end.

#[export] Instance effect_ok_dec r : Decision (effect_ok r).
Proof.
  apply (dec_iff (Q :=
    r.(StorageEffect.status) ∈ effect_statuses /\
    ~ (r.(StorageEffect.semantics) = EffectSemantics.NON_IDEMPOTENT /\
       r.(StorageEffect.dispatch_mode) = EffectDispatchMode.INLINE) /\
    (r.(StorageEffect.dispatch_mode) = EffectDispatchMode.OUTBOX ->
       is_Some r.(StorageEffect.connector)) /\
    r.(StorageEffect.connector) <> Some "" /\
    r.(StorageEffect.business_key) <> Some "" /\
    (0 <= r.(StorageEffect.dispatch_attempts))%Z /\
    (r.(StorageEffect.dispatch_claimed_by) = None ->
       r.(StorageEffect.dispatch_claim_expires_at_ms) = 0%Z))).
  - split; [by intros []|]. intros (?&?&?&?&?&?&?). by split.
  - apply _.
Defined.

#[export] Instance obligation_ok_dec o : Decision (obligation_ok o).
Proof.
  apply (dec_iff (Q :=
    o.(StorageObligation.status) ∈ obligation_statuses /\
    (0 <= o.(StorageObligation.attempts))%Z /\
    ((o.(StorageObligation.status) = ObligationStatus.COMMITTED ->
      is_Some o.(StorageObligation.claimed_by)) /\
     (is_Some o.(StorageObligation.claimed_by) ->
      o.(StorageObligation.status) = ObligationStatus.COMMITTED)) /\
    (active_obligation o ->
     o.(StorageObligation.attempts) = 0%Z \/
     (o.(StorageObligation.attempts) < o.(StorageObligation.max_attempts))%Z))).
  - split; [by intros [??[??]?]|]. intros (?&?&?&?). by split.
  - apply _.
Defined.

#[export] Instance captured_terminal_dec c : Decision (captured_terminal c).
Proof.
  apply (dec_iff (Q := match c.(Captured.status) with
    | Some st => st ∈ [EffectStatus.CONFIRMED; EffectStatus.FAILED]
    | None => False end)).
  - unfold captured_terminal. destruct (Captured.status c) as [st|].
    + split; [by intros (? & [= <-] & ?)|eauto].
    + split; [by intros (? & ? & ?)|done].
  - destruct (Captured.status c); apply _.
Defined.

#[export] Instance snapshot_ok_dec sn : Decision (snapshot_ok sn).
Proof.
  apply (dec_iff (Q := match sn.(StorageEffectSnapshot.effects_json) with
    | Some m => sn.(StorageEffectSnapshot.effects_count) = Z.of_nat (size m) /\
                map_Forall (fun _ => captured_terminal) m
    | None => False end)).
  - unfold snapshot_ok. destruct (StorageEffectSnapshot.effects_json sn) as [m|].
    + split; [by intros (? & [= <-] & ? & ?)|]. intros [??]; eauto.
    + split; [by intros (? & ? & ? & ?)|done].
  - destruct (StorageEffectSnapshot.effects_json sn); apply _.
Defined.

#[export] Instance value_ok_dec v : Decision (value_ok v).
Proof. unfold value_ok. apply _. Defined.

#[export] Instance keyed_dec {R K} `{EqDecision K} (key : R -> K) t :
  Decision (keyed key t).
Proof. unfold keyed. apply _. Defined.

#[export] Instance wf_dec d : Decision (wf d).
Proof.
  apply (dec_iff (Q :=
    (keyed StorageEffect.pk d.(Db.effects) /\
     NoDup (omap StorageEffect.business d.(Db.effects)) /\
     Forall effect_ok d.(Db.effects) /\
     Forall (fun r => r.(StorageEffect.session) ∈ d.(Db.sessions)) d.(Db.effects)) /\
    (keyed StorageObligation.seq d.(Db.obligations) /\
     keyed StorageObligation.uq d.(Db.obligations) /\
     Forall obligation_ok d.(Db.obligations) /\
     Forall (fun r => r.(StorageObligation.session) ∈ d.(Db.sessions))
       d.(Db.obligations) /\
     Forall (fun r => (r.(StorageObligation.seq) < d.(Db.next_seq))%Z)
       d.(Db.obligations)) /\
    (keyed StorageTimer.pk d.(Db.timers) /\
     Forall (fun r => r.(StorageTimer.session) ∈ d.(Db.sessions)) d.(Db.timers)) /\
    (keyed StorageEffectSnapshot.session d.(Db.snapshots) /\
     Forall snapshot_ok d.(Db.snapshots) /\
     Forall (fun r => r.(StorageEffectSnapshot.session) ∈ d.(Db.sessions))
       d.(Db.snapshots)) /\
    (keyed StorageValue.pk d.(Db.values) /\ Forall value_ok d.(Db.values)))).
  - split; [by intros []|].
    intros ((?&?&?&?)&(?&?&?&?&?)&(?&?)&(?&?&?)&(?&?)). by split.
  - apply _.
Defined.

(** Decides a closed decidable goal by evaluation. *)
Ltac eval_decide := apply (bool_decide_unpack _); vm_compute; exact I.
