(* ===== verification/Samples.v ===== *)
(** * Samples: concrete arguments and databases the witnesses evaluate *)
From S2P Require Import Prelude Sql Schemas EffectLedger ObligationLedger TimersValues.
From S2P Require Import Snapshots.

Definition sess : SKey := mkSKey "treasury" "u1" "s1".
Definition sess2 : SKey := mkSKey "treasury" "u1" "s2".
Definition other_app : SKey := mkSKey "payroll" "u9" "s1".

(** A non-idempotent wire through the outbox, in invocation [inv]. *)
Definition wire (inv : string) : BeginArgs.t :=
  BeginArgs.mk sess inv 0 "bank.wire" 0 JNull "" EffectSemantics.NON_IDEMPOTENT
    EffectDispatchMode.OUTBOX (Some "acct:2m:2026-05-18") (Some "bank").

(** An idempotent inline lookup. *)
Definition lookup_rate : BeginArgs.t :=
  BeginArgs.mk sess "inv-1" 0 "fx.rate" 0 JNull "" EffectSemantics.IDEMPOTENT
    EffectDispatchMode.INLINE None None.

Definition db0 : Db.t := Db.empty [sess; sess2; other_app].
Definition wire_key : string := effect_key (wire "inv-1").
Definition rate_key : string := effect_key lookup_rate.

(** The wire journaled at time 1000 and not yet dispatched. *)
Definition db_wire : Db.t := run_state (begin_effect 1000 (wire "inv-1")) db0.
(** ... then leased by [d1] at 2000 for a minute. *)
Definition db_leased : Db.t :=
  run_state (claim_effect_dispatch 2000 sess wire_key "d1" 60000 2000) db_wire.
(** ... and confirmed at 3000. *)
Definition db_confirmed : Db.t :=
  run_state (complete_effect 3000 sess wire_key EffectStatus.CONFIRMED
    (JObj [("wire_id", JStr "w-1")]) JNull) db_leased.
(** The ambiguous case: the acknowledgement was lost. *)
Definition db_unknown : Db.t :=
  run_state (record_dispatch_attempt 3000 sess wire_key "ack lost" 0) db_leased.

Definition reverse_wire : RegisterArgs.t :=
  RegisterArgs.mk sess "inv-1" wire_key "reverse_wire" JNull None 2.
(** The confirmed wire with its compensation registered. *)
Definition db_obliged : Db.t :=
  run_state (register_compensation 4000 reverse_wire) db_confirmed.

(** Two timers, one due. *)
Definition db_timers : Db.t :=
  run_state (_ ← set_timer 1000 sess "gate-1" 5000 "gate" JNull;
             set_timer 1000 sess "gate-2" 9000 "gate" JNull) db0.
Definition db_kv : Db.t :=
  run_state (write_value 1000 "ns" "k" (JInt 1) 0 "w1") db0.
