(* ===== verification/EffectFacts.v ===== *)
(** * EffectFacts: the effect ledger's behaviour

    For each effect method an equation that gives its result and its store on
    every branch, on a well-formed database; then the ledger's properties. *)
From S2P Require Import Prelude Sql Schemas EffectLedger ObligationLedger TimersValues.
From S2P Require Import Snapshots WellFormed.

(** The live row of an effect. *)
Definition live (d : Db.t) (s : SKey) (key : string) : option StorageEffect.t :=
  row_at StorageEffect.pk (s, key) d.(Db.effects).

Lemma live_pk d s key r : live d s key = Some r -> StorageEffect.pk r = (s, key).
Proof. by intros [_ ?]%row_at_Some_1. Qed.

(** What one operation leaves of the effects table when it flushes a row. *)
Definition with_effect (r : StorageEffect.t) (d : Db.t) : Db.t :=
  Db.set_effects (update_where (fun x => StorageEffect.pk x = StorageEffect.pk r)
                    (fun _ => r) d.(Db.effects)) d.

Lemma live_with_effect d r s key :
  live (with_effect r d) s key =
    if decide (StorageEffect.pk r = (s, key))
    then (fun _ => r) <$> live d s key else live d s key.
Proof.
  unfold live, with_effect. cbn.
  rewrite row_at_update by done.
  destruct (row_at _ (s, key) _) as [x|] eqn:E; simpl; [|by case_decide].
  apply row_at_Some_1 in E as [_ E]. rewrite E.
  destruct (decide (StorageEffect.pk r = (s, key))) as [->|Hne];
    [by rewrite decide_True|]. by rewrite decide_False by congruence.
Qed.

Lemma live_insert d r s key :
  live (Db.set_effects (insert_row r d.(Db.effects)) d) s key =
    match live d s key with
    | Some x => Some x
    | None => if decide (StorageEffect.pk r = (s, key)) then Some r else None
    end.
Proof. apply row_at_insert. Qed.

Lemma wf_with_effect d r r0 :
  wf d -> live d r.(StorageEffect.session) r.(StorageEffect.idempotency_key) = Some r0 ->
  StorageEffect.business r = StorageEffect.business r0 ->
  (effect_ok r0 -> effect_ok r) -> wf (with_effect r d).
Proof. intros. by eapply (wf_save_effect d r0 r tt). Qed.

(** Taking or extending the lease keeps the row's invariant. *)
Lemma leased_ok claimer expires r : effect_ok r -> effect_ok (leased claimer expires r).
Proof. intros []. by split. Qed.

Lemma set_effects_id d : Db.set_effects d.(Db.effects) d = d.
Proof. by destruct d. Qed.

Section equations.
Context (d : Db.t) (Hwf : wf d).

Lemma begin_effect_eval clk a :
  begin_effect clk a d =
    match begin_refusal a with
    | Some m => (Err (ValueError m), d)
    | None =>
      match live d a.(BeginArgs.session) (effect_key a) with
      | Some row => (Ok (EffectRecord.from_row row), d)
      | None =>
        match captured_at
                (row_at StorageEffectSnapshot.session a.(BeginArgs.session)
                   d.(Db.snapshots)) (effect_key a) with
        | Some c => (Ok (record_of_captured a c), d)
        | None =>
          let row := fresh_effect clk a in
          if decide (effect_insertable d row)
          then (Ok (EffectRecord.from_row row),
                Db.set_effects (insert_row row d.(Db.effects)) d)
          else (Err (ValueError (MBusinessKeyExists a.(BeginArgs.connector))), d)
        end
      end
    end.
Proof.
  unfold begin_effect. destruct (begin_refusal a); [done|].
  monad_simpl. rewrite select_effect_wf by done. fold (live d (BeginArgs.session a) (effect_key a)).
  destruct (live _ _ _); [done|].
  rewrite select_snapshot_wf by done. destruct (captured_at _ _); [done|].
  unfold commit_fresh_effect, insert_effect. by case_decide.
Qed.

Lemma complete_effect_eval clk s key status response error :
  complete_effect clk s key status response error d =
    if decide (status ∈ [EffectStatus.CONFIRMED; EffectStatus.FAILED;
                         EffectStatus.UNKNOWN])
    then match live d s key with
         | None => (Ok None, d)
         | Some row =>
           if decide (row.(StorageEffect.status) <> EffectStatus.PENDING)
           then (Ok (Some (EffectRecord.from_row row)), d)
           else let row' := completed clk status response error row in
                (Ok (Some (EffectRecord.from_row row')), with_effect row' d)
         end
    else (Err (ValueError (MInvalidEffectStatus status)), d).
Proof.
  unfold complete_effect. case_decide; [|done].
  monad_simpl. rewrite select_effect_wf by done. fold (live d s key).
  destruct (live d s key); [|done]. by case_decide.
Qed.

Lemma get_effect_eval s key :
  get_effect s key d = (Ok (EffectRecord.from_row <$> live d s key), d).
Proof. unfold get_effect. monad_simpl. by rewrite select_effect_wf. Qed.

Lemma record_dispatch_attempt_eval clk s key error next :
  record_dispatch_attempt clk s key error next d =
    match live d s key with
    | None => (Ok None, d)
    | Some row =>
      let row' := attempted clk error next row in
      (Ok (Some (EffectRecord.from_row row')), with_effect row' d)
    end.
Proof.
  unfold record_dispatch_attempt. monad_simpl. rewrite select_effect_wf by done.
  fold (live d s key). by destruct (live d s key).
Qed.

(** The claim: it wins exactly when the row is there and dispatchable, and then
    only takes the lease. *)
Lemma claim_effect_dispatch_eval clk s key claimer ttl now_ms :
  claim_effect_dispatch clk s key claimer ttl now_ms d =
    let now := int_or now_ms clk in
    match live d s key with
    | None => (Ok (false, None), d)
    | Some row =>
      if decide (dispatchable now row)
      then let row' := leased claimer (now + ttl) row in
           (Ok (true, Some (EffectRecord.from_row row')), with_effect row' d)
      else (Ok (false, Some (EffectRecord.from_row row)), d)
    end.
Proof.
  unfold claim_effect_dispatch, cas_effect_lease. monad_simpl.
  set (now := int_or now_ms clk). set (f := leased claimer (now + ttl)).
  set (P := fun r => StorageEffect.pk r = (s, key) /\ dispatchable now r).
  assert (HP : forall r, P r -> StorageEffect.pk r = (s, key)) by (by intros r [? _]).
  rewrite (rowcount_key StorageEffect.pk (s, key) _ (wf_effect_pk _ Hwf) P HP).
  rewrite (update_where_key StorageEffect.pk (s, key) _ (wf_effect_pk _ Hwf) P f HP).
  fold (live d s key). destruct (live d s key) as [row|] eqn:E.
  - assert (Hk : StorageEffect.pk row = (s, key)) by (by apply live_pk in E).
    destruct (decide (P row)) as [HPr|HPr].
    + destruct HPr as [_ HPr]. rewrite (decide_True _ _ HPr), <-Hk.
      change (Db.set_effects _ d) with (with_effect (f row) d).
      rewrite select_effect_wf.
      2: { apply (wf_with_effect _ _ row); [done| |done|by apply leased_ok].
           unfold f; cbn. by injection Hk as -> ->. }
      fold (live (with_effect (f row) d) s key). rewrite live_with_effect.
      by rewrite E, decide_True by done.
    + rewrite decide_False by (intros ?; apply HPr; by split).
      rewrite set_effects_id, select_effect_wf by done. fold (live d s key).
      by rewrite E.
  - rewrite set_effects_id, select_effect_wf by done. fold (live d s key).
    by rewrite E.
Qed.
End equations.

Section more_equations.
Context (d : Db.t) (Hwf : wf d).

Lemma record_external_observation_eval clk s key resolution ref response error kind :
  record_external_observation clk s key resolution ref response error kind d =
    match live d s key with
    | None => (Ok None, d)
    | Some row =>
      match observed resolution ref response error row with
      | None => (Err (ValueError (MUnknownResolution resolution)), d)
      | Some row1 =>
        let row' := StorageEffect.set_ts_ms clk row1 in
        let d1 := with_effect row' d in
        if decide (resolution = EffectResolution.DUPLICATE /\ kind <> "")
        then match insert_obligation (duplicate_obligation clk ref kind row1) d1 with
             | Ok (_, d2) => (Ok (Some (EffectRecord.from_row row')), d2)
             | Err e => (Err e, d)
             end
        else (Ok (Some (EffectRecord.from_row row')), d1)
      end
    end.
Proof.
  unfold record_external_observation. monad_simpl. rewrite select_effect_wf by done.
  fold (live d s key). destruct (live d s key) as [row|]; [|done].
  destruct (observed _ _ _ _ _) as [row1|]; [|done]. cbn -[duplicate_obligation].
  case_decide; [|done].
  change (Db.set_effects _ d) with (with_effect (StorageEffect.set_ts_ms clk row1) d).
  by destruct (insert_obligation _ _) as [[??]|].
Qed.

Lemma list_effects_to_dispatch_eval clk now connector lim :
  list_effects_to_dispatch clk now connector lim d =
    (Ok (EffectRecord.from_row <$> limit lim (order_by StorageEffect.ts_ms
       (select_where (fun r => dispatchable (int_or now clk) r /\
          (connector = "" \/ r.(StorageEffect.connector) = Some connector))
          d.(Db.effects)))), d).
Proof. done. Qed.
End more_equations.

(** A row that is not dispatchable is neither claimed nor listed. *)
Lemma undispatchable_not_claimed d s key clk now row :
  wf d -> live d s key = Some row -> ~ dispatchable (int_or now clk) row ->
  (forall claimer ttl, claim_effect_dispatch clk s key claimer ttl now d
    = (Ok (false, Some (EffectRecord.from_row row)), d)) /\
  (forall connector lim es e, run_result (list_effects_to_dispatch clk now connector lim) d = Ok es ->
    e ∈ es -> (e.(EffectRecord.session), e.(EffectRecord.idempotency_key)) <> (s, key)).
Proof.
  intros Hwf Hl Hd. split.
  - intros claimer ttl. rewrite claim_effect_dispatch_eval, Hl by done. cbn zeta. by rewrite decide_False.
  - unfold run_result. intros connector lim es e. rewrite list_effects_to_dispatch_eval.
    intros [= <-] (row' & -> & Hin)%list_elem_of_fmap. cbn. intros [= <- <-].
    unfold limit in Hin. apply elem_of_take in Hin as (n & Hin & _). apply list_elem_of_lookup_2 in Hin.
    rewrite elem_of_order_by, elem_of_select in Hin. destruct Hin as [[Hd' _] Hin].
    apply Hd. enough (row' = row) as -> by done.
    enough (Some row' = Some row) by congruence. rewrite <- Hl. symmetry. by apply row_at_Some; [apply Hwf|].
Qed.

(** What an observation does to a row, resolution by resolution. *)
Definition resolved_status (resolution : string) (row : StorageEffect.t) : option string :=
  if decide (resolution = EffectResolution.CONFIRMED \/
             resolution = EffectResolution.DUPLICATE) then Some EffectStatus.CONFIRMED
  else if decide (resolution = EffectResolution.FAILED \/
                  resolution = EffectResolution.STUCK) then Some EffectStatus.FAILED
  else if decide (resolution = EffectResolution.ABSENT) then
    Some (if decide (row.(StorageEffect.semantics) = EffectSemantics.NON_IDEMPOTENT)
          then EffectStatus.UNKNOWN else row.(StorageEffect.status))
  else None.

(** The columns an observation never touches: identity, contract and lease. *)
Definition same_identity (r r' : StorageEffect.t) : Prop :=
  StorageEffect.pk r' = StorageEffect.pk r /\
  StorageEffect.business r' = StorageEffect.business r /\
  r'.(StorageEffect.invocation_id) = r.(StorageEffect.invocation_id) /\
  r'.(StorageEffect.semantics) = r.(StorageEffect.semantics) /\
  r'.(StorageEffect.dispatch_mode) = r.(StorageEffect.dispatch_mode) /\
  r'.(StorageEffect.connector) = r.(StorageEffect.connector) /\
  r'.(StorageEffect.business_key) = r.(StorageEffect.business_key) /\
  r'.(StorageEffect.dispatch_attempts) = r.(StorageEffect.dispatch_attempts) /\
  r'.(StorageEffect.dispatch_claimed_by) = r.(StorageEffect.dispatch_claimed_by) /\
  r'.(StorageEffect.dispatch_claim_expires_at_ms)
    = r.(StorageEffect.dispatch_claim_expires_at_ms).

Lemma observed_spec resolution ref response error row row1 :
  observed resolution ref response error row = Some row1 ->
  same_identity row row1 /\
  Some row1.(StorageEffect.status) = resolved_status resolution row.
Proof.
  unfold observed, resolved_status. intros Hobs.
  repeat case_decide; simplify_eq; destruct (json_is_none error); simplify_eq;
    (split; [by repeat split|]); first [done|naive_solver].
Qed.

(** The columns an observation writes, resolution by resolution *)
Lemma observed_columns resolution ref response error row row1 :
  let confirms := resolution = EffectResolution.CONFIRMED \/ resolution = EffectResolution.DUPLICATE in
  observed resolution ref response error row = Some row1 ->
  row1.(StorageEffect.response_json) =
    (if decide confirms then response else row.(StorageEffect.response_json)) /\
  row1.(StorageEffect.external_ref) =
    (if decide (confirms /\ ref <> "") then Some ref else row.(StorageEffect.external_ref)) /\
  row1.(StorageEffect.error_json) =
    (if decide confirms then row.(StorageEffect.error_json)
     else if decide (resolution = EffectResolution.FAILED) then error
     else if decide (resolution = EffectResolution.STUCK) then
       (if json_truthy error then error else JObj [("resolution", JStr "stuck"); ("detail", JStr "reconciler couldn't resolve")])
     else if json_is_none error then row.(StorageEffect.error_json) else error) /\
  row1.(StorageEffect.tool_name) = row.(StorageEffect.tool_name) /\
  row1.(StorageEffect.request_json) = row.(StorageEffect.request_json) /\
  row1.(StorageEffect.next_dispatch_at_ms) = row.(StorageEffect.next_dispatch_at_ms) /\
  row1.(StorageEffect.last_dispatch_error) = row.(StorageEffect.last_dispatch_error).
Proof.
  cbn zeta. intros Hobs. destruct (decide (resolution = EffectResolution.CONFIRMED \/
    resolution = EffectResolution.DUPLICATE)) as [Hc|Hn].
  - assert (Some row1 = observed EffectResolution.CONFIRMED ref response error row) as [= ->]
      by (by destruct Hc as [-> | ->]).
    split_and!; try done. cbn. unfold str_or_opt. case_bool_decide; [rewrite decide_False|rewrite decide_True]; tauto.
  - rewrite (decide_False (P := _ /\ _)) by tauto. unfold observed in Hobs.
    rewrite decide_False in Hobs by tauto.
    destruct (decide (resolution = EffectResolution.FAILED)) as [->|Hf]; [by injection Hobs as <-|].
    destruct (decide (resolution = EffectResolution.ABSENT)) as [->|Ha].
    + injection Hobs as <-. by case_decide; destruct (json_is_none error).
    + rewrite decide_False in Hobs by tauto.
      destruct (decide (resolution = EffectResolution.STUCK)) as [->|]; [by injection Hobs as <-|done].
Qed.

Lemma observed_None resolution ref response error row :
  observed resolution ref response error row = None <->
  resolved_status resolution row = None.
Proof.
  unfold observed, resolved_status. repeat case_decide; naive_solver.
Qed.

Lemma resolved_status_valid resolution row st :
  effect_ok row -> resolved_status resolution row = Some st -> st ∈ effect_statuses.
Proof.
  intros [Hst _ _ _ _ _ _]. unfold resolved_status, effect_statuses in *.
  repeat case_decide; intros [= <-]; set_solver.
Qed.

(** ** The row invariant is kept *)

Lemma fresh_effect_ok clk a : begin_refusal a = None -> effect_ok (fresh_effect clk a).
Proof.
  unfold begin_refusal. case_decide as H1; [done|]. case_decide as H2; [done|]. intros _.
  assert (Hne : forall o, str_or_none o <> Some "").
  { intros [[|??]|]; by cbn. }
  split; cbn; try done; try apply Hne.
  - unfold effect_statuses. set_solver.
  - intros Hm. destruct (str_truthy (BeginArgs.connector a)) eqn:E; [|tauto].
    destruct (BeginArgs.connector a) as [[|??]|]; [done|by eexists|done].
Qed.

Lemma completed_ok clk st response error r :
  st ∈ effect_statuses -> effect_ok r -> effect_ok (completed clk st response error r).
Proof. intros ? []. by split. Qed.

Lemma attempted_ok clk error next r :
  effect_ok r -> effect_ok (attempted clk error next r).
Proof.
  intros []. unfold attempted, int_or. case_decide; split; cbn; try done;
    try (destruct (_ =? _)%Z; lia).
  unfold effect_statuses. set_solver.
Qed.

Lemma observed_ok resolution ref response error clk r r1 :
  observed resolution ref response error r = Some r1 ->
  effect_ok r -> effect_ok (StorageEffect.set_ts_ms clk r1).
Proof.
  intros [Hid Hst]%observed_spec Hok.
  assert (Hv : StorageEffect.status r1 ∈ effect_statuses)
    by (by eapply resolved_status_valid).
  destruct Hid as (_ & _ & _ & Hs & Hm & Hc & Hb & Ha & Hcl & Hex).
  destruct Hok. by split; cbn; rewrite ?Hs, ?Hm, ?Hc, ?Hb, ?Ha, ?Hcl, ?Hex.
Qed.

(** ** Each method keeps the invariant *)
Section preservation.
Context (d : Db.t) (Hwf : wf d).

Lemma begin_effect_wf clk a : wf (run_state (begin_effect clk a) d).
Proof.
  unfold run_state. rewrite begin_effect_eval by done.
  destruct (begin_refusal a) eqn:Hr; [done|].
  destruct (live _ _ _); [done|]. destruct (captured_at _ _); [done|].
  cbn zeta. case_decide as Hins; [|done]. cbn.
  eapply wf_insert_effect; [done|by apply (fresh_effect_ok clk)|].
  unfold insert_effect. by rewrite decide_True.
Qed.

(** A flushed row that keeps its identity and its row invariant. *)
Lemma wf_flush s key r r' :
  live d s key = Some r -> StorageEffect.pk r' = StorageEffect.pk r ->
  StorageEffect.business r' = StorageEffect.business r ->
  (effect_ok r -> effect_ok r') -> wf (with_effect r' d).
Proof.
  intros Hl Hk. pose proof (live_pk _ _ _ _ Hl) as Hk'. rewrite Hk' in Hk.
  injection Hk as Hs Hkey.
  apply wf_with_effect; [done|]. by rewrite Hs, Hkey.
Qed.

Lemma complete_effect_wf clk s key st response error :
  wf (run_state (complete_effect clk s key st response error) d).
Proof.
  unfold run_state. rewrite complete_effect_eval by done.
  case_decide as Hst; [|done]. destruct (live d s key) as [row|] eqn:E; [|done].
  case_decide; [done|]. cbn. eapply wf_flush; [done..|].
  apply completed_ok. unfold effect_statuses. set_solver.
Qed.

Lemma claim_effect_dispatch_wf clk s key claimer ttl now :
  wf (run_state (claim_effect_dispatch clk s key claimer ttl now) d).
Proof.
  unfold run_state. rewrite claim_effect_dispatch_eval by done. cbn zeta.
  destruct (live d s key) as [row|] eqn:E; [|done].
  case_decide; [|done]. cbn. eapply wf_flush; [done..|]. apply leased_ok.
Qed.

Lemma attempted_identity clk error next row :
  StorageEffect.pk (attempted clk error next row) = StorageEffect.pk row /\
  StorageEffect.business (attempted clk error next row) = StorageEffect.business row.
Proof. unfold attempted. by case_decide. Qed.

Lemma record_dispatch_attempt_wf clk s key error next :
  wf (run_state (record_dispatch_attempt clk s key error next) d).
Proof.
  unfold run_state. rewrite record_dispatch_attempt_eval by done.
  destruct (live d s key) as [row|] eqn:E; [|done]. cbn.
  destruct (attempted_identity clk error next row) as [Hk Hb].
  eapply wf_flush; [done..|]. apply attempted_ok.
Qed.

Lemma duplicate_obligation_ok clk ref kind row n :
  StorageObligation.seq (duplicate_obligation clk ref kind row n) = n /\
  obligation_ok (duplicate_obligation clk ref kind row n).
Proof.
  split; [done|]. split; cbn; [unfold obligation_statuses; set_solver|lia| |by left].
  split; [done|by intros []].
Qed.

Lemma record_external_observation_wf clk s key resolution ref response error kind :
  wf (run_state (record_external_observation clk s key resolution ref response
                   error kind) d).
Proof.
  unfold run_state. rewrite record_external_observation_eval by done.
  destruct (live d s key) as [row|] eqn:E; [|done].
  destruct (observed _ _ _ _ _) as [row1|] eqn:Ho; [|done]. cbn zeta.
  assert (wf (with_effect (StorageEffect.set_ts_ms clk row1) d)).
  { destruct (observed_spec _ _ _ _ _ _ Ho) as [(Hk & Hb & _) _].
    eapply wf_flush; [done..|]. by eapply observed_ok. }
  case_decide; [|done]. destruct (insert_obligation _ _) as [[o d2]|] eqn:Hi; [|done].
  eapply wf_insert_obligation; [done| |done]. intros n. apply duplicate_obligation_ok.
Qed.

Lemma attach_identity s key ref :
  wf (Db.set_effects (update_where (fun r => StorageEffect.pk r = (s, key))
        (StorageEffect.set_external_ref ref) d.(Db.effects)) d).
Proof. apply wf_update_effects; try done. intros r _ _ []. by split. Qed.
End preservation.

#[export] Hint Resolve begin_effect_wf complete_effect_wf claim_effect_dispatch_wf
  record_dispatch_attempt_wf record_external_observation_wf : tape.
