(* ===== verification/EffectTheorems.v ===== *)
(** * EffectTheorems: what the effect ledger guarantees

    Replay, cross-run deduplication, the outbox lease and queue, completion,
    dispatch attempts and reconciliation. *)
From S2P Require Import Prelude Sql Schemas EffectLedger ObligationLedger TimersValues.
From S2P Require Import Snapshots WellFormed Samples EffectFacts.

(** ** Replay *)

(** C8: Replaying [begin_effect] with the arguments of a call that returned gives
    the same record and writes nothing, whatever the clock says: the
    short-circuit on the idempotency key. *)
Theorem begin_effect_replay clk clk' a d r d' :
  wf d -> begin_effect clk a d = (Ok r, d') -> begin_effect clk' a d' = (Ok r, d').
Proof.
  intros Hwf Hb. assert (Hwf' : wf d').
  { pose proof (begin_effect_wf d Hwf clk a) as H. unfold run_state in H. by rewrite Hb in H. }
  rewrite begin_effect_eval in Hb by done. rewrite begin_effect_eval by done.
  destruct (begin_refusal a); [done|].
  destruct (live d _ _) as [row|] eqn:El; [by simplify_eq; rewrite El|].
  destruct (captured_at _ _) as [c|] eqn:Ec; [by simplify_eq; rewrite El, Ec|].
  cbn zeta in Hb. case_decide; simplify_eq.
  rewrite live_insert, El. by rewrite decide_True.
Qed.

Lemma begin_effect_replay_witness :
  begin_effect 9000 (wire "inv-1") db_wire
    = (Ok (EffectRecord.from_row (fresh_effect 1000 (wire "inv-1"))), db_wire).
Proof.
  apply (begin_effect_replay 1000 9000 (wire "inv-1") db0); [eval_decide|vm_compute; reflexivity].
Defined.

(** C9: For a new idempotency key the row is created exactly when the session
    exists and no live row holds the same (connector, business key) pair;
    otherwise the call raises and the store is untouched. *)
Theorem begin_effect_business_key clk a d :
  wf d -> begin_refusal a = None ->
  live d a.(BeginArgs.session) (effect_key a) = None ->
  captured_at (row_at StorageEffectSnapshot.session a.(BeginArgs.session)
                 d.(Db.snapshots)) (effect_key a) = None ->
  let row := fresh_effect clk a in
  let free := a.(BeginArgs.session) ∈ d.(Db.sessions) /\
    forall x cb, x ∈ d.(Db.effects) -> StorageEffect.business row = Some cb ->
                 StorageEffect.business x <> Some cb in
  (free -> begin_effect clk a d
     = (Ok (EffectRecord.from_row row),
        Db.set_effects (d.(Db.effects) ++ [row]) d)) /\
  (~ free -> begin_effect clk a d
     = (Err (ValueError (MBusinessKeyExists a.(BeginArgs.connector))), d)).
Proof.
  intros Hwf Hr Hl Hc row free. rewrite begin_effect_eval by done. rewrite Hr, Hl, Hc.
  assert (Hfree : effect_insertable d row <-> free).
  { unfold effect_insertable, free.
    change (row_at StorageEffect.pk (StorageEffect.pk row) (Db.effects d))
      with (live d (BeginArgs.session a) (effect_key a)). rewrite Hl.
    split.
    - intros (_ & Hb & Hs). split; [done|]. intros x cb Hx Hcb.
      destruct Hb as [Hb|Hb]; [congruence|]. rewrite Forall_forall in Hb.
      rewrite <-Hcb. by apply Hb.
    - intros [Hs Hb]. split; [done|]. split; [|done].
      destruct (StorageEffect.business row) as [cb|] eqn:E; [right|by left].
      apply Forall_forall. intros x Hx. by apply Hb. }
  cbn zeta. fold row. split; intros Hf.
  - by rewrite decide_True by by apply Hfree.
  - by rewrite decide_False by by rewrite Hfree.
Qed.

(** A second run of the same wire, under another invocation, is refused. *)
Lemma begin_effect_business_key_witness :
  begin_effect 5000 (wire "inv-2") db_confirmed
    = (Err (ValueError (MBusinessKeyExists (Some "bank"))), db_confirmed).
Proof.
  refine (proj2 (begin_effect_business_key 5000 (wire "inv-2") db_confirmed _ _ _ _) _);
    [eval_decide|vm_compute; reflexivity..|].
  intros [_ Hfree].
  apply (Hfree (completed 3000 EffectStatus.CONFIRMED (JObj [("wire_id", JStr "w-1")])
                  JNull (leased "d1" 62000 (fresh_effect 1000 (wire "inv-1"))))
           ("bank", "acct:2m:2026-05-18")); [|reflexivity|reflexivity].
  vm_compute. left.
Defined.

(** Distinct calls of one session get distinct derived keys: the key
    determines the invocation, the decision, the tool and the call index, as
    long as the invocation id and the tool name hold no slash. *)
Theorem derived_key_injective inv inv' dec dec' tool tool' call call' :
  slash_free inv = true -> slash_free inv' = true ->
  slash_free tool = true -> slash_free tool' = true ->
  derived_key inv dec tool call = derived_key inv' dec' tool' call' ->
  inv = inv' /\ dec = dec' /\ tool = tool' /\ call = call'.
Proof.
  unfold derived_key. intros Hi Hi' Ht Ht' Heq.
  apply first_slash_inj in Heq as [-> Heq]; [|done..].
  assert (Hd : forall z, slash_free ("decision-" +:+ pretty (z : Z)) = true).
  { intros z. rewrite slash_free_append. by rewrite pretty_Z_slash_free. }
  apply (first_slash_inj ("decision-" +:+ pretty dec) ("decision-" +:+ pretty dec')
           (tool +:+ "/" +:+ pretty call) (tool' +:+ "/" +:+ pretty call')) in Heq
    as [Hdec Heq]; [|done..].
  apply first_slash_inj in Heq as [-> Heq]; [|done..].
  split; [done|]. split; [|split; [done|by apply (inj pretty)]].
  apply (inj pretty). by injection Hdec.
Qed.

Lemma derived_key_injective_witness :
  "inv-1" = "inv-1" /\ 0%Z = 0%Z /\ "bank.wire" = "bank.wire" /\ 3%Z = 3%Z.
Proof.
  apply (derived_key_injective "inv-1" "inv-1" 0 0 "bank.wire" "bank.wire" 3 3);
    reflexivity.
Defined.

(** ** The outbox *)

(** The dispatcher's queue and its claim agree.  With a limit that does not
    cut, an effect is listed exactly when claiming it at that instant wins. *)
Theorem dispatch_queue_claimable d clk clk' now s key claimer ttl lim :
  wf d -> now <> 0%Z -> length d.(Db.effects) <= lim ->
  (exists es e, run_result (list_effects_to_dispatch clk now "" lim) d = Ok es /\
     e ∈ es /\ e.(EffectRecord.session) = s /\
     e.(EffectRecord.idempotency_key) = key) <->
  (exists e, run_result (claim_effect_dispatch clk' s key claimer ttl now) d
     = Ok (true, e)).
Proof.
  intros Hwf Hnow Hlim. unfold run_result.
  rewrite claim_effect_dispatch_eval by done. rewrite list_effects_to_dispatch_eval.
  assert (Hn : forall c, int_or now c = now).
  { intros c. unfold int_or. by destruct (Z.eqb_spec now 0). }
  rewrite !Hn. cbn zeta. rewrite limit_all.
  2: { rewrite length_order_by. etrans; [apply length_select_where|done]. }
  split.
  - intros (es & e & [= <-] & He & <- & <-).
    apply list_elem_of_fmap in He as (row & -> & Hrow). cbn [EffectRecord.session
      EffectRecord.idempotency_key EffectRecord.from_row].
    rewrite elem_of_order_by, elem_of_select in Hrow. destruct Hrow as [[Hd _] Hin].
    assert (live d (StorageEffect.session row) (StorageEffect.idempotency_key row)
            = Some row) as ->.
    { apply row_at_Some; [apply Hwf|done]. }
    rewrite decide_True by done. cbn. eauto.
  - intros [e He]. destruct (live d s key) as [row|] eqn:El; [|done].
    case_decide as Hd; [|done]. eexists _, (EffectRecord.from_row row).
    split; [done|]. pose proof (live_pk _ _ _ _ El) as Hk. injection Hk as Hs Hkey.
    split; [|done]. apply list_elem_of_fmap. exists row. split; [done|].
    rewrite elem_of_order_by, elem_of_select. apply row_at_Some_1 in El as [Hin _]. auto.
Qed.

Lemma dispatch_queue_claimable_witness :
  exists e, run_result (claim_effect_dispatch 0 sess wire_key "d2" 60000 1500) db_wire
    = Ok (true, e).
Proof.
  apply (dispatch_queue_claimable db_wire 0 0 1500 sess wire_key "d2" 60000 10).
  - eval_decide.
  - done.
  - vm_compute. lia.
  - eexists _, (EffectRecord.from_row (fresh_effect 1000 (wire "inv-1"))).
    split; [vm_compute; reflexivity|]. split; [vm_compute; left|done].
Defined.

(** The queue is bounded, oldest first, and fair: it never lists an effect
    while skipping an older dispatchable one. *)
Theorem dispatch_queue_oldest_first d clk now lim es :
  run_result (list_effects_to_dispatch clk now "" lim) d = Ok es ->
  length es <= lim /\
  StronglySorted (fun x y => x.(EffectRecord.ts_ms) <= y.(EffectRecord.ts_ms))%Z es /\
  (forall row e, row ∈ d.(Db.effects) -> dispatchable (int_or now clk) row ->
     EffectRecord.from_row row ∉ es -> e ∈ es ->
     (e.(EffectRecord.ts_ms) <= row.(StorageEffect.ts_ms))%Z).
Proof.
  unfold run_result. rewrite list_effects_to_dispatch_eval. intros [= <-].
  set (q := order_by _ _). split; [rewrite length_fmap; apply length_limit|]. split.
  - eapply fmap_sorted; [|apply limit_sorted, (order_by_sorted StorageEffect.ts_ms)].
    auto.
  - intros row e Hin Hd Hno (x & -> & Hx)%list_elem_of_fmap.
    change (StorageEffect.ts_ms x <= StorageEffect.ts_ms row)%Z.
    eapply limit_order_by_first; [| |exact Hx].
    + apply elem_of_order_by, elem_of_select. auto.
    + intros H. by apply Hno, list_elem_of_fmap_2.
Qed.

Lemma dispatch_queue_oldest_first_witness :
  length [EffectRecord.from_row (fresh_effect 1000 (wire "inv-1"))] <= 5.
Proof.
  apply (dispatch_queue_oldest_first db_wire 0 1500 5). vm_compute. reflexivity.
Defined.

(** A dispatch attempt that asks for a retry is counted, drops the lease, and until that
    time no claim of the effect wins and no queue lists it. *)
Theorem retried_effect_waits d clk s key error next row d' :
  wf d -> live d s key = Some row -> (0 < next)%Z ->
  run_state (record_dispatch_attempt clk s key error next) d = d' ->
  exists row', live d' s key = Some row' /\
    row'.(StorageEffect.dispatch_attempts) = (row.(StorageEffect.dispatch_attempts) + 1)%Z /\
    row'.(StorageEffect.dispatch_claimed_by) = None /\
    row'.(StorageEffect.status) = row.(StorageEffect.status) /\
    forall clk' now, (int_or now clk' < next)%Z ->
      (forall claimer ttl, claim_effect_dispatch clk' s key claimer ttl now d'
        = (Ok (false, Some (EffectRecord.from_row row')), d')) /\
      (forall connector lim es e,
        run_result (list_effects_to_dispatch clk' now connector lim) d' = Ok es -> e ∈ es ->
        (e.(EffectRecord.session), e.(EffectRecord.idempotency_key)) <> (s, key)).
Proof.
  intros Hwf Hl Hnext <-. pose proof (record_dispatch_attempt_wf d Hwf clk s key error next) as Hwf'.
  unfold run_state in *. rewrite record_dispatch_attempt_eval, Hl in * by done.
  cbn [fst snd] in *. cbn zeta in *. set (row' := attempted clk error next row) in *.
  assert (Hl' : live (with_effect row' d) s key = Some row').
  { rewrite live_with_effect, Hl. unfold row'.
    destruct (attempted_identity clk error next row) as [-> _].
    rewrite (live_pk _ _ _ _ Hl). by rewrite decide_True. }
  exists row'. split; [done|]. unfold row', attempted in *. rewrite decide_False in * by lia.
  split; [unfold int_or; cbn; by destruct (Z.eqb_spec (StorageEffect.dispatch_attempts row) 0) as [->|]|].
  do 2 (split; [done|]). intros clk' now Hnow.
  eapply (undispatchable_not_claimed _ s key); [done..|].
  intros (_ & _ & Hdue & _). cbn in Hdue. lia.
Qed.

Lemma retried_effect_waits_witness :
  exists row', live (run_state (record_dispatch_attempt 3000 sess wire_key "refused" 9000) db_leased)
    sess wire_key = Some row' /\ row'.(StorageEffect.status) = EffectStatus.PENDING.
Proof.
  destruct (retried_effect_waits db_leased 3000 sess wire_key "refused" 9000
    (leased "d1" 62000 (fresh_effect 1000 (wire "inv-1"))) _ ltac:(eval_decide)
    ltac:(vm_compute; reflexivity) ltac:(lia) eq_refl)
    as (row' & Hl & _ & _ & Hst & _). exists row'. split; [exact Hl|]. by rewrite Hst.
Defined.

(** The first completion wins.  Completing a PENDING effect records the
    status, the response and the error and drops the lease; every later
    completion returns that record and changes nothing. *)
Theorem first_completion_wins d clk clk' s key st st' resp resp' err err' row :
  wf d -> live d s key = Some row -> row.(StorageEffect.status) = EffectStatus.PENDING ->
  st ∈ [EffectStatus.CONFIRMED; EffectStatus.FAILED; EffectStatus.UNKNOWN] ->
  st' ∈ [EffectStatus.CONFIRMED; EffectStatus.FAILED; EffectStatus.UNKNOWN] ->
  let '(r, d1) := complete_effect clk s key st resp err d in
  exists row1, live d1 s key = Some row1 /\ r = Ok (Some (EffectRecord.from_row row1)) /\
    row1.(StorageEffect.status) = st /\ row1.(StorageEffect.response_json) = resp /\
    row1.(StorageEffect.error_json) = err /\
    row1.(StorageEffect.dispatch_claimed_by) = None /\
    complete_effect clk' s key st' resp' err' d1 = (r, d1).
Proof.
  intros Hwf Hl Hp Hst Hst'.
  pose proof (complete_effect_wf d Hwf clk s key st resp err) as Hwf'.
  unfold run_state in Hwf'. rewrite complete_effect_eval in * by done.
  rewrite decide_True, Hl in * by done. rewrite decide_False in * by auto. cbn zeta in *.
  set (row1 := completed clk st resp err row) in *.
  assert (Hl1 : live (with_effect row1 d) s key = Some row1).
  { rewrite live_with_effect, Hl. change (StorageEffect.pk row1) with (StorageEffect.pk row).
    rewrite (live_pk _ _ _ _ Hl). by rewrite decide_True. }
  exists row1. do 6 (split; [done|]). rewrite complete_effect_eval by done.
  rewrite decide_True, Hl1 by done. rewrite decide_True; [done|].
  change (st <> EffectStatus.PENDING). intros ->.
  repeat (apply elem_of_cons in Hst as [Hst|Hst]; [done|]). by apply elem_of_nil in Hst.
Qed.

Lemma first_completion_wins_witness :
  complete_effect 9000 sess wire_key EffectStatus.FAILED JNull (JStr "late") db_confirmed
    = (fst (complete_effect 3000 sess wire_key EffectStatus.CONFIRMED
              (JObj [("wire_id", JStr "w-1")]) JNull db_leased), db_confirmed).
Proof.
  destruct (first_completion_wins db_leased 3000 9000 sess wire_key
    EffectStatus.CONFIRMED EffectStatus.FAILED (JObj [("wire_id", JStr "w-1")]) JNull
    JNull (JStr "late") (leased "d1" 62000 (fresh_effect 1000 (wire "inv-1"))))
    as (row1 & _ & _ & _ & _ & _ & _ & H);
    [eval_decide|vm_compute; reflexivity|reflexivity|eval_decide|eval_decide|].
  exact H.
Defined.

(** ** Reconciliation *)

(** C25: The reconciler's write path.  An observation of a known resolution moves the
    status as the table [resolved_status] says and writes, of the other columns, only: the
    response and the reference it came with, for CONFIRMED and DUPLICATE, an empty reference
    keeping the old one; the error, for FAILED, for STUCK (with a default when there is
    none) and for ABSENT when there is one; and the timestamp.  Identity, contract, lease,
    attempts and next dispatch stay.  An unknown resolution raises; either way no other
    effect changes.  (A DUPLICATE with a compensation kind is the subject of its own
    theorem.) *)
Theorem observation_resolves d clk s key resolution ref response error row :
  wf d -> live d s key = Some row ->
  let '(r, d') :=
    record_external_observation clk s key resolution ref response error "" d in
  let confirms := resolution = EffectResolution.CONFIRMED \/ resolution = EffectResolution.DUPLICATE in
  match resolved_status resolution row with
  | None => r = Err (ValueError (MUnknownResolution resolution)) /\ d' = d
  | Some st => exists row', r = Ok (Some (EffectRecord.from_row row')) /\
      live d' s key = Some row' /\ row'.(StorageEffect.status) = st /\
      row'.(StorageEffect.response_json) =
        (if decide confirms then response else row.(StorageEffect.response_json)) /\
      row'.(StorageEffect.external_ref) =
        (if decide (confirms /\ ref <> "") then Some ref else row.(StorageEffect.external_ref)) /\
      row'.(StorageEffect.error_json) =
        (if decide confirms then row.(StorageEffect.error_json)
         else if decide (resolution = EffectResolution.FAILED) then error
         else if decide (resolution = EffectResolution.STUCK) then
           (if json_truthy error then error else JObj [("resolution", JStr "stuck"); ("detail", JStr "reconciler couldn't resolve")])
         else if json_is_none error then row.(StorageEffect.error_json) else error) /\
      row'.(StorageEffect.ts_ms) = clk /\ same_identity row row' /\
      row'.(StorageEffect.tool_name) = row.(StorageEffect.tool_name) /\
      row'.(StorageEffect.request_json) = row.(StorageEffect.request_json) /\
      row'.(StorageEffect.next_dispatch_at_ms) = row.(StorageEffect.next_dispatch_at_ms) /\
      row'.(StorageEffect.last_dispatch_error) = row.(StorageEffect.last_dispatch_error) /\
      d'.(Db.obligations) = d.(Db.obligations) /\
      forall s' key', (s', key') <> (s, key) -> live d' s' key' = live d s' key'
  end.
Proof.
  intros Hwf Hl. rewrite record_external_observation_eval, Hl by done.
  destruct (observed resolution ref response error row) as [row1|] eqn:Ho.
  - pose proof (observed_columns _ _ _ _ _ _ Ho) as (Hresp & Href & Herr & Hrest).
    apply observed_spec in Ho as [Hid Hst]. rewrite <-Hst.
    cbn zeta. rewrite decide_False by tauto.
    pose proof Hid as (Hk & _).
    eexists (StorageEffect.set_ts_ms clk row1). split; [done|].
    rewrite (live_pk _ _ _ _ Hl) in Hk. split.
    { rewrite live_with_effect, Hl. by rewrite decide_True. }
    do 6 (split; [done|]). destruct Hrest as (? & ? & ? & ?). do 5 (split; [done|]). intros s' key' Hne.
    rewrite live_with_effect, decide_False; [done|].
    change (StorageEffect.pk row1 <> (s', key')). by rewrite Hk.
  - assert (Hn := proj1 (observed_None _ ref response error row) Ho). by rewrite Hn.
Qed.

Lemma observation_resolves_witness :
  exists row', live (run_state (record_external_observation 8000 sess wire_key
      EffectResolution.ABSENT "" JNull JNull "") db_unknown) sess wire_key = Some row' /\
    row'.(StorageEffect.status) = EffectStatus.UNKNOWN.
Proof.
  pose proof (observation_resolves db_unknown 8000 sess wire_key EffectResolution.ABSENT
    "" JNull JNull
    (attempted 3000 "ack lost" 0 (leased "d1" 62000 (fresh_effect 1000 (wire "inv-1"))))
    ltac:(eval_decide) ltac:(vm_compute; reflexivity)) as H.
  unfold run_state. destruct (record_external_observation _ _ _ _ _ _ _ _ db_unknown)
    as [r d']. destruct H as (row' & _ & Hl & Hst & _). exists row'. exact (conj Hl Hst).
Defined.

(** A DUPLICATE observation confirms the effect and registers its compensation
    in one transaction: when no obligation of that kind exists for the effect,
    both writes land; when one already exists the UNIQUE constraint raises
    [IntegrityError] and neither does. *)
Theorem duplicate_registers_atomically d clk s key ref response error kind row :
  wf d -> live d s key = Some row -> kind <> "" ->
  let '(r, d') := record_external_observation clk s key EffectResolution.DUPLICATE
                    ref response error kind d in
  match row_at StorageObligation.uq (s, key, kind) d.(Db.obligations) with
  | Some _ => r = Err IntegrityError /\ d' = d
  | None => exists row' o, live d' s key = Some row' /\
      row'.(StorageEffect.status) = EffectStatus.CONFIRMED /\
      row'.(StorageEffect.response_json) = response /\
      d'.(Db.obligations) = d.(Db.obligations) ++ [o] /\
      StorageObligation.uq o = (s, key, kind) /\
      o.(StorageObligation.status) = ObligationStatus.PENDING /\
      o.(StorageObligation.next_attempt_at_ms) = clk
  end.
Proof.
  intros Hwf Hl Hkind.
  pose proof (record_external_observation_wf d Hwf clk s key EffectResolution.CONFIRMED
                ref response error "") as Hwf1. unfold run_state in Hwf1.
  rewrite record_external_observation_eval, Hl in * by done.
  set (row1 := StorageEffect.set_response_json response
    (StorageEffect.set_external_ref (str_or_opt ref row.(StorageEffect.external_ref))
      (StorageEffect.set_status EffectStatus.CONFIRMED row))).
  change (observed EffectResolution.DUPLICATE ref response error row) with (Some row1).
  change (observed EffectResolution.CONFIRMED ref response error row) with (Some row1)
    in Hwf1.
  cbn iota zeta in *. rewrite decide_False in Hwf1 by tauto. cbn [snd] in Hwf1.
  rewrite decide_True by done. set (row' := StorageEffect.set_ts_ms clk row1) in *.
  pose proof (live_pk _ _ _ _ Hl) as Hk. injection Hk as Hs Hkey.
  set (o := duplicate_obligation clk ref kind row1 (Db.next_seq d)).
  assert (Hu : StorageObligation.uq o = (s, key, kind)).
  { unfold o, row1, StorageObligation.uq; cbn. by rewrite Hs, Hkey. }
  assert (Hins : obligation_insertable (with_effect row' d) o
                 <-> row_at StorageObligation.uq (s, key, kind) d.(Db.obligations) = None).
  { rewrite wf_obligation_insertable, Hu; [done..|].
    change (StorageEffect.session row ∈ Db.sessions d).
    apply row_at_Some_1 in Hl as [Hin _]. pose proof (wf_effect_fk _ Hwf) as Hfk.
    rewrite Forall_forall in Hfk. by apply Hfk. }
  destruct (row_at _ (s, key, kind) _) eqn:E.
  - rewrite insert_obligation_err; [done|]. intros H.
    change (obligation_insertable (with_effect row' d) o) in H. by apply Hins in H.
  - rewrite insert_obligation_ok by exact (proj2 Hins eq_refl).
    exists row', o. split; [|by do 5 (split; [done|])].
    change (live (with_effect row' d) s key = Some row').
    rewrite live_with_effect, Hl, decide_True; [done|].
    change (StorageEffect.pk row = (s, key)). by eapply live_pk.
Qed.

Lemma duplicate_registers_atomically_witness :
  exists row', live (run_state (record_external_observation 8000 sess wire_key
      EffectResolution.DUPLICATE "w-9" JNull JNull "reverse_wire") db_unknown) sess wire_key
      = Some row' /\ row'.(StorageEffect.status) = EffectStatus.CONFIRMED.
Proof.
  pose proof (duplicate_registers_atomically db_unknown 8000 sess wire_key "w-9" JNull
    JNull "reverse_wire"
    (attempted 3000 "ack lost" 0 (leased "d1" 62000 (fresh_effect 1000 (wire "inv-1"))))
    ltac:(eval_decide) ltac:(vm_compute; reflexivity) ltac:(done)) as H.
  unfold run_state. destruct (record_external_observation _ _ _ _ _ _ _ _ db_unknown)
    as [r d'].
  change (row_at StorageObligation.uq (sess, wire_key, "reverse_wire")
            (Db.obligations db_unknown)) with (@None StorageObligation.t) in H.
  destruct H as (row' & o & Hl & Hst & _).
  exists row'. exact (conj Hl Hst).
Defined.

(** The status machine is not enforced on the failure path.  A dispatcher
    whose lease ran out can report its failed attempt after another dispatcher
    confirmed the effect, and the confirmed effect becomes UNKNOWN again, whatever
    its status was, its confirmed response still in place. *)
Theorem stale_attempt_reopens_effect d clk s key error row :
  wf d -> live d s key = Some row -> row.(StorageEffect.status) = EffectStatus.CONFIRMED ->
  exists row', live (run_state (record_dispatch_attempt clk s key error 0) d) s key
      = Some row' /\
    row'.(StorageEffect.status) = EffectStatus.UNKNOWN /\
    row'.(StorageEffect.response_json) = row.(StorageEffect.response_json).
Proof.
  intros Hwf Hl Hst. unfold run_state. rewrite record_dispatch_attempt_eval, Hl by done.
  cbn zeta. cbn [snd]. exists (attempted clk error 0 row). split; [|done].
  rewrite live_with_effect, Hl. destruct (attempted_identity clk error 0 row) as [-> _].
  rewrite (live_pk _ _ _ _ Hl). by rewrite decide_True.
Qed.

Lemma stale_attempt_reopens_effect_witness :
  exists row', live (run_state (record_dispatch_attempt 70000 sess wire_key "timeout" 0)
      db_confirmed) sess wire_key = Some row' /\
    row'.(StorageEffect.status) = EffectStatus.UNKNOWN.
Proof.
  destruct (stale_attempt_reopens_effect db_confirmed 70000 sess wire_key "timeout"
    (completed 3000 EffectStatus.CONFIRMED (JObj [("wire_id", JStr "w-1")]) JNull
       (leased "d1" 62000 (fresh_effect 1000 (wire "inv-1")))))
    as (row' & Hl & Hst & _); [eval_decide|vm_compute; reflexivity|reflexivity|].
  exists row'. exact (conj Hl Hst).
Defined.
