(* ===== verification/ObligationTheorems.v ===== *)
(** * ObligationTheorems: the compensation ledger

    Equations for its methods on a well-formed database, preservation of the
    invariant, and the ledger's properties: idempotent registration, the
    drainer's queue and claim, and retries that end. *)
From S2P Require Import Prelude Sql Schemas EffectLedger ObligationLedger TimersValues.
From S2P Require Import Snapshots WellFormed Samples EffectFacts.

(** The obligation row of a sequence number. *)
Definition obligation (d : Db.t) (n : Z) : option StorageObligation.t :=
  row_at StorageObligation.seq n d.(Db.obligations).

Definition with_obligation (r : StorageObligation.t) (d : Db.t) : Db.t :=
  Db.set_obligations
    (update_where (fun x => x.(StorageObligation.seq) = r.(StorageObligation.seq))
       (fun _ => r) d.(Db.obligations)) d.

Lemma obligation_seq d n r : obligation d n = Some r -> StorageObligation.seq r = n.
Proof. by intros [_ ?]%row_at_Some_1. Qed.

Lemma obligation_with d r n :
  obligation (with_obligation r d) n =
    if decide (StorageObligation.seq r = n)
    then (fun _ => r) <$> obligation d n else obligation d n.
Proof.
  unfold obligation, with_obligation. cbn. rewrite row_at_update by done.
  destruct (row_at _ n _) as [x|] eqn:E; simpl; [|by case_decide].
  apply row_at_Some_1 in E as [_ E]. rewrite E.
  destruct (decide (StorageObligation.seq r = n)) as [->|Hne];
    [by rewrite decide_True|]. by rewrite decide_False by congruence.
Qed.

Lemma wf_with_obligation d n r0 r :
  wf d -> obligation d n = Some r0 -> StorageObligation.seq r = StorageObligation.seq r0 ->
  StorageObligation.uq r = StorageObligation.uq r0 ->
  (obligation_ok r0 -> obligation_ok r) -> wf (with_obligation r d).
Proof.
  intros Hwf Hr0 Hseq Hu Hok. eapply (wf_save_obligation d r0 r tt); [done| |done..].
  rewrite Hseq, (obligation_seq _ _ _ Hr0). done.
Qed.

Lemma set_obligations_id d : Db.set_obligations d.(Db.obligations) d = d.
Proof. by destruct d. Qed.

(** What the drainer can claim now. *)
Definition claimable (now : Z) (o : StorageObligation.t) : Prop :=
  pending_ready now o \/ committed_expired now o.
#[export] Instance claimable_dec now o : Decision (claimable now o).
Proof. unfold claimable. apply _. Defined.

Lemma committed_to_ok claimer expires r :
  active_obligation r -> obligation_ok r -> obligation_ok (committed_to claimer expires r).
Proof.
  intros Ha []. split; cbn; [unfold obligation_statuses; set_solver|done| |].
  - split; [by eexists|done].
  - intros _. by apply oo_retries.
Qed.

Lemma claimable_active now o : claimable now o -> active_obligation o.
Proof. unfold claimable, active_obligation. intros [[-> _]|[-> _]]; set_solver. Qed.

Section equations.
Context (d : Db.t) (Hwf : wf d).

Lemma register_compensation_eval clk a :
  register_compensation clk a d =
    match row_at StorageObligation.uq (a.(RegisterArgs.session),
            a.(RegisterArgs.effect_key), a.(RegisterArgs.kind)) d.(Db.obligations) with
    | Some row => (Ok (ObligationRecord.from_row row), d)
    | None =>
      let row := fresh_obligation clk a d.(Db.next_seq) in
      if decide (a.(RegisterArgs.session) ∈ d.(Db.sessions))
      then (Ok (ObligationRecord.from_row row),
            Db.set_next_seq (d.(Db.next_seq) + 1)
              (Db.set_obligations (insert_row row d.(Db.obligations)) d))
      else (Err IntegrityError, d)
    end.
Proof.
  unfold register_compensation. monad_simpl. rewrite select_obligation_of_wf by done.
  destruct (row_at _ _ _) eqn:E; [done|]. cbn zeta.
  assert (Hins : a.(RegisterArgs.session) ∈ d.(Db.sessions) ->
    obligation_insertable d (fresh_obligation clk a (Db.next_seq d))).
  { intros Hs. by apply wf_obligation_insertable. }
  case_decide as Hs.
  - by rewrite insert_obligation_ok by auto.
  - rewrite insert_obligation_err; [done|]. by intros (_ & _ & ?).
Qed.

Lemma claim_obligation_eval clk n claimer ttl now_ms :
  claim_obligation clk n claimer ttl now_ms d =
    let now := int_or now_ms clk in
    match obligation d n with
    | None => (Ok (false, None), d)
    | Some row =>
      if decide (claimable now row)
      then let row' := committed_to claimer (now + ttl) row in
           (Ok (true, Some (ObligationRecord.from_row row')), with_obligation row' d)
      else (Ok (false, Some (ObligationRecord.from_row row)), d)
    end.
Proof.
  unfold claim_obligation, cas_obligation_claim. monad_simpl.
  set (now := int_or now_ms clk). set (f := committed_to claimer (now + ttl)).
  set (P := fun r => StorageObligation.seq r = n /\
                     (pending_ready now r \/ committed_expired now r)).
  assert (HP : forall r, P r -> StorageObligation.seq r = n) by (by intros r [? _]).
  rewrite (rowcount_key StorageObligation.seq n _ (wf_obligation_pk _ Hwf) P HP).
  rewrite (update_where_key StorageObligation.seq n _ (wf_obligation_pk _ Hwf) P f HP).
  fold (obligation d n). destruct (obligation d n) as [row|] eqn:E.
  - pose proof (obligation_seq _ _ _ E) as Hn.
    destruct (decide (P row)) as [HPr|HPr].
    + destruct HPr as [_ HPr]. change (claimable now row) in HPr.
      rewrite (decide_True _ _ HPr), <-Hn.
      change (Db.set_obligations _ d) with (with_obligation (f row) d).
      rewrite select_obligation_wf.
      2: { eapply wf_with_obligation; [done..|]. apply committed_to_ok.
           by eapply claimable_active. }
      fold (obligation (with_obligation (f row) d) (StorageObligation.seq row)).
      rewrite obligation_with, Hn, E. by rewrite decide_True by done.
    + rewrite decide_False by (intros ?; apply HPr; by split).
      rewrite set_obligations_id, select_obligation_wf by done.
      fold (obligation d n). by rewrite E.
  - rewrite set_obligations_id, select_obligation_wf by done.
    fold (obligation d n). by rewrite E.
Qed.

Lemma record_obligation_attempt_eval clk n error next :
  record_obligation_attempt clk n error next d =
    match obligation d n with
    | None => (Ok None, d)
    | Some row =>
      let row' := obligation_attempted clk error next row in
      (Ok (Some (ObligationRecord.from_row row')), with_obligation row' d)
    end.
Proof.
  unfold record_obligation_attempt. monad_simpl. rewrite select_obligation_wf by done.
  fold (obligation d n). by destruct (obligation d n).
Qed.

Lemma resolve_obligation_eval clk n status result :
  resolve_obligation clk n status result d =
    if decide (status ∈ [ObligationStatus.COMPENSATED; ObligationStatus.STUCK])
    then match obligation d n with
         | None => (Ok None, d)
         | Some row =>
           let row' := resolved clk status result row in
           (Ok (Some (ObligationRecord.from_row row')), with_obligation row' d)
         end
    else (Err (ValueError (MInvalidObligationStatus status)), d).
Proof.
  unfold resolve_obligation. case_decide; [|done].
  monad_simpl. rewrite select_obligation_wf by done.
  fold (obligation d n). by destruct (obligation d n).
Qed.
End equations.

Lemma fresh_obligation_ok clk a n : obligation_ok (fresh_obligation clk a n).
Proof.
  split; cbn; [unfold obligation_statuses; set_solver|lia| |by left].
  split; [done|by intros []].
Qed.

Lemma obligation_attempted_identity clk error next row :
  StorageObligation.seq (obligation_attempted clk error next row)
    = StorageObligation.seq row /\
  StorageObligation.uq (obligation_attempted clk error next row)
    = StorageObligation.uq row.
Proof. unfold obligation_attempted. by case_decide. Qed.

Lemma obligation_attempted_ok clk error next row :
  obligation_ok row -> obligation_ok (obligation_attempted clk error next row).
Proof.
  intros []. unfold obligation_attempted, int_or.
  set (n := if (_ =? 0)%Z then 0%Z else _).
  assert (n = StorageObligation.attempts row) as ->
    by (unfold n; destruct (Z.eqb_spec (StorageObligation.attempts row) 0); lia).
  case_decide as H; (split; cbn in *;
    [unfold obligation_statuses; set_solver|lia|split; [done|by intros []]|]).
  - unfold active_obligation. cbn. set_solver.
  - intros _. right. lia.
Qed.

Lemma resolved_ok clk status result row :
  status ∈ [ObligationStatus.COMPENSATED; ObligationStatus.STUCK] ->
  obligation_ok row -> obligation_ok (resolved clk status result row).
Proof.
  intros Hst []. assert (Hnot : ~ status ∈ [ObligationStatus.PENDING;
    ObligationStatus.COMMITTED]).
  { revert status Hst. apply Forall_forall. eval_decide. }
  split; cbn; [unfold obligation_statuses; set_solver|done| |].
  - split; [|by intros []]. intros ->. exfalso. apply Hnot. set_solver.
  - intros H. by apply Hnot in H.
Qed.

(** ** Each method keeps the invariant *)
Section preservation.
Context (d : Db.t) (Hwf : wf d).

Lemma register_compensation_wf clk a : wf (run_state (register_compensation clk a) d).
Proof.
  unfold run_state. rewrite register_compensation_eval by done.
  destruct (row_at _ _ _) eqn:E; [done|]. cbn zeta. case_decide as Hs; [|done].
  eapply (wf_insert_obligation (fresh_obligation clk a)); [done|..].
  - intros n. split; [done|]. apply fresh_obligation_ok.
  - apply insert_obligation_ok. by apply wf_obligation_insertable.
Qed.

Lemma claim_obligation_wf clk n claimer ttl now :
  wf (run_state (claim_obligation clk n claimer ttl now) d).
Proof.
  unfold run_state. rewrite claim_obligation_eval by done. cbn zeta.
  destruct (obligation d n) eqn:E; [|done]. case_decide as Hc; [|done].
  eapply wf_with_obligation; [done..|]. apply committed_to_ok.
  by eapply claimable_active.
Qed.

Lemma record_obligation_attempt_wf clk n error next :
  wf (run_state (record_obligation_attempt clk n error next) d).
Proof.
  unfold run_state. rewrite record_obligation_attempt_eval by done.
  destruct (obligation d n) as [row|] eqn:E; [|done].
  destruct (obligation_attempted_identity clk error next row) as [Hs Hu].
  eapply wf_with_obligation; [done..|]. apply obligation_attempted_ok.
Qed.

Lemma resolve_obligation_wf clk n status result :
  wf (run_state (resolve_obligation clk n status result) d).
Proof.
  unfold run_state. rewrite resolve_obligation_eval by done.
  case_decide; [|done]. destruct (obligation d n) as [row|] eqn:E; [|done].
  eapply wf_with_obligation; [done..|]. by apply resolved_ok.
Qed.
End preservation.

#[export] Hint Resolve register_compensation_wf claim_obligation_wf
  record_obligation_attempt_wf resolve_obligation_wf : tape.

(** ** Properties *)

(** Registration is idempotent on (session, effect, kind).  A call that
    returns leaves exactly one obligation for the triple; a second call, with
    whatever payload, invocation, compensator or retry budget, returns the same
    record and writes nothing. *)
Theorem register_compensation_idempotent d clk clk' a a' r d' :
  wf d -> register_compensation clk a d = (Ok r, d') ->
  (a'.(RegisterArgs.session), a'.(RegisterArgs.effect_key), a'.(RegisterArgs.kind))
    = (a.(RegisterArgs.session), a.(RegisterArgs.effect_key), a.(RegisterArgs.kind)) ->
  register_compensation clk' a' d' = (Ok r, d') /\
  length (filter (fun o => StorageObligation.uq o = (a.(RegisterArgs.session),
            a.(RegisterArgs.effect_key), a.(RegisterArgs.kind)))
            d'.(Db.obligations)) = 1.
Proof.
  intros Hwf Hreg Ha. assert (Hwf' : wf d').
  { pose proof (register_compensation_wf d Hwf clk a) as H. unfold run_state in H.
    by rewrite Hreg in H. }
  set (k := (_, _, RegisterArgs.kind a)) in *.
  assert (Hrow : exists o, row_at StorageObligation.uq k d'.(Db.obligations) = Some o /\
                           r = ObligationRecord.from_row o).
  { clear Ha a'. rewrite register_compensation_eval in Hreg by done. fold k in Hreg.
    destruct (row_at StorageObligation.uq k (Db.obligations d)) as [o|] eqn:E.
    - injection Hreg as <- <-. eauto.
    - cbn zeta in Hreg. case_decide; [|done]. injection Hreg as <- <-. eexists. split; [|done].
      change (row_at StorageObligation.uq k
                (insert_row (fresh_obligation clk a (Db.next_seq d)) (Db.obligations d))
              = Some (fresh_obligation clk a (Db.next_seq d))).
      rewrite row_at_insert, E. by rewrite decide_True. }
  destruct Hrow as (o & Ho & ->). split.
  - rewrite register_compensation_eval by done. rewrite Ha. by rewrite Ho.
  - rewrite filter_key by apply Hwf'. by rewrite Ho.
Qed.

Lemma register_compensation_idempotent_witness :
  run_result (register_compensation 9000
    (RegisterArgs.mk sess "inv-7" wire_key "reverse_wire" (JStr "again") None 9)) db_obliged
  = run_result (register_compensation 4000 reverse_wire) db_confirmed.
Proof.
  pose proof (register_compensation_idempotent db_confirmed 4000 9000 reverse_wire
    (RegisterArgs.mk sess "inv-7" wire_key "reverse_wire" (JStr "again") None 9)
    _ db_obliged ltac:(eval_decide) ltac:(vm_compute; reflexivity) eq_refl) as [H _].
  unfold run_result. rewrite H. vm_compute. reflexivity.
Defined.

(** The drainer's feed is newest first and lists exactly what it can claim:
    an obligation is in the (uncut) feed when and only when claiming it at that
    instant wins. *)
Theorem drain_feed_lifo_claimable d clk clk' now lim claimer ttl :
  wf d -> now <> 0%Z -> length d.(Db.obligations) <= lim ->
  exists os, run_result (list_unresolved_obligations clk now lim true false true) d = Ok os /\
    StronglySorted (fun x y => y.(ObligationRecord.seq) <= x.(ObligationRecord.seq))%Z os /\
    forall n, n ∈ (ObligationRecord.seq <$> os) <->
      exists o, run_result (claim_obligation clk' n claimer ttl now) d = Ok (true, o).
Proof.
  intros Hwf Hnow Hlim. eexists. split; [done|]. cbn [negb orb].
  assert (Hn : forall c, int_or now c = now).
  { intros c. unfold int_or. by destruct (Z.eqb_spec now 0). }
  rewrite !Hn. rewrite limit_all.
  2: { rewrite length_order_by_desc. etrans; [apply length_select_where|done]. }
  split.
  - eapply fmap_sorted; [|apply (order_by_desc_sorted StorageObligation.seq)]. auto.
  - intros n. unfold run_result. rewrite claim_obligation_eval, Hn by done. cbn zeta.
    assert (Hf : forall o, unresolved_filter now true false true o = true
                           <-> claimable now o).
    { intros o. unfold unresolved_filter, claimable. rewrite !andb_true_l, orb_false_r.
      by rewrite orb_true_iff, !bool_decide_eq_true. }
    rewrite <-list_fmap_compose, list_elem_of_fmap. split.
    + intros (o & -> & Ho). rewrite elem_of_order_by_desc, elem_of_select, Hf in Ho.
      destruct Ho as [Hc Hin]. cbn.
      assert (obligation d (StorageObligation.seq o) = Some o) as ->
        by (apply row_at_Some; [apply Hwf|done]).
      rewrite decide_True by done. cbn. eauto.
    + intros [r Hr]. destruct (obligation d n) as [o|] eqn:E; [|done].
      case_decide; [|done]. exists o. split; [by apply obligation_seq in E|].
      rewrite elem_of_order_by_desc, elem_of_select, Hf.
      by apply row_at_Some_1 in E as [? _].
Qed.

Lemma drain_feed_lifo_claimable_witness :
  exists o, run_result (claim_obligation 0 1 "drainer" 60000 5000) db_obliged = Ok (true, o).
Proof.
  destruct (drain_feed_lifo_claimable db_obliged 0 0 5000 10 "drainer" 60000)
    as (os & Hos & _ & H); [eval_decide|done|vm_compute; lia|].
  apply H. vm_compute in Hos. injection Hos as <-. vm_compute. left.
Defined.

(** Reporting [n] failed attempts in a row, each asking for the retry time
    [next]. *)
Fixpoint fail_attempts (clk : Z) (seq : Z) (error : string) (next : Z) (n : nat)
    (d : Db.t) : Db.t :=
  match n with
  | O => d
  | S n' => fail_attempts clk seq error next n'
              (run_state (record_obligation_attempt clk seq error next) d)
  end.

Lemma fail_attempts_row clk m error next n d row :
  wf d -> obligation d m = Some row -> (0 < next)%Z ->
  (row.(StorageObligation.attempts) + Z.of_nat n
     < row.(StorageObligation.max_attempts))%Z ->
  exists row', wf (fail_attempts clk m error next n d) /\
    obligation (fail_attempts clk m error next n d) m = Some row' /\
    (row'.(StorageObligation.attempts)
       = row.(StorageObligation.attempts) + Z.of_nat n)%Z /\
    row'.(StorageObligation.max_attempts) = row.(StorageObligation.max_attempts) /\
    (0 < n -> row'.(StorageObligation.status) = ObligationStatus.PENDING /\
              row'.(StorageObligation.next_attempt_at_ms) = next).
Proof.
  revert d row. induction n as [|n IH]; intros d row Hwf Hr Hnext Hmax; simpl.
  - exists row. do 2 (split; [done|]). split; [lia|]. split; [done|lia].
  - pose proof (record_obligation_attempt_wf d Hwf clk m error next) as Hwf'.
    unfold run_state in *. rewrite record_obligation_attempt_eval, Hr in * by done.
    cbn [fst snd] in *. cbn zeta in *.
    set (row1 := obligation_attempted clk error next row) in *.
    assert (Hatt : StorageObligation.attempts row1
                   = (StorageObligation.attempts row + 1)%Z /\
                   StorageObligation.max_attempts row1
                   = StorageObligation.max_attempts row /\
                   StorageObligation.status row1 = ObligationStatus.PENDING /\
                   StorageObligation.next_attempt_at_ms row1 = next).
    { assert (Hi : int_or (StorageObligation.attempts row) 0
                   = StorageObligation.attempts row).
      { unfold int_or. by destruct (Z.eqb_spec (StorageObligation.attempts row) 0). }
      unfold row1, obligation_attempted. rewrite Hi. cbn.
      rewrite decide_False by lia. done. }
    destruct Hatt as (Ha & Hm & Hst & Hnx).
    assert (Hr1 : obligation (with_obligation row1 d) m = Some row1).
    { rewrite obligation_with, Hr. unfold row1.
      destruct (obligation_attempted_identity clk error next row) as [-> _].
      rewrite (obligation_seq _ _ _ Hr). by rewrite decide_True. }
    destruct (IH _ _ Hwf' Hr1 Hnext) as (row' & ? & ? & Ha' & Hm' & Hp); [lia|].
    exists row'. do 2 (split; [done|]). split; [lia|]. split; [congruence|]. intros _.
    destruct n; [|apply Hp; lia]. simpl in *. split; congruence.
Qed.

(** C38: Compensation retries end.  A claimed or fresh obligation whose handler
    keeps failing stays PENDING, rescheduled, for [max_attempts - 1] reports
    and is STUCK, claimable by nobody at any time, with the last one, however
    often a retry is asked for. *)
Theorem obligation_retries_end d clk m error next row n :
  wf d -> obligation d m = Some row -> (0 < next)%Z ->
  row.(StorageObligation.attempts) = 0%Z ->
  row.(StorageObligation.max_attempts) = Z.of_nat (S n) ->
  (0 < n -> exists row', obligation (fail_attempts clk m error next n d) m = Some row' /\
     row'.(StorageObligation.status) = ObligationStatus.PENDING /\
     row'.(StorageObligation.next_attempt_at_ms) = next) /\
  exists row', obligation (run_state (record_obligation_attempt clk m error next)
        (fail_attempts clk m error next n d)) m = Some row' /\
    row'.(StorageObligation.status) = ObligationStatus.STUCK /\
    row'.(StorageObligation.attempts) = Z.of_nat (S n) /\
    forall now, ~ claimable now row'.
Proof.
  intros Hwf Hr Hnext Ha Hm.
  destruct (fail_attempts_row clk m error next n d row) as (r1 & Hwf1 & Hr1 & Ha1 & Hm1 & Hp);
    [done..|lia|]. split.
  - intros Hn. exists r1. split; [done|]. by apply Hp.
  - unfold run_state. rewrite record_obligation_attempt_eval, Hr1 by done.
    cbn zeta. cbn [snd]. exists (obligation_attempted clk error next r1). split.
    { rewrite obligation_with, Hr1.
      destruct (obligation_attempted_identity clk error next r1) as [-> _].
      rewrite (obligation_seq _ _ _ Hr1). by rewrite decide_True. }
    assert (Hi : int_or (StorageObligation.attempts r1) 0
                 = StorageObligation.attempts r1).
    { unfold int_or. by destruct (Z.eqb_spec (StorageObligation.attempts r1) 0). }
    unfold obligation_attempted. rewrite Hi. cbn. rewrite decide_True by lia.
    split; [done|]. split; [cbn; lia|]. intros now [[[=] _]|[[=] _]].
Qed.

Lemma obligation_retries_end_witness :
  exists row', obligation (run_state (record_obligation_attempt 6000 1 "down" 9000)
      (fail_attempts 6000 1 "down" 9000 1 db_obliged)) 1 = Some row' /\
    row'.(StorageObligation.status) = ObligationStatus.STUCK.
Proof.
  destruct (obligation_retries_end db_obliged 6000 1 "down" 9000
    (fresh_obligation 4000 reverse_wire 1) 1) as [_ (row' & Hr & Hst & _)];
    [eval_decide|vm_compute; reflexivity|lia|reflexivity|reflexivity|].
  exists row'. exact (conj Hr Hst).
Defined.
