(* ===== verification/TimersTheorems.v ===== *)
(** * TimersTheorems: the timer registry and the key/value store

    Equations on a well-formed database, preservation of the invariant; a timer
    is handed out once; compare-and-swap writes. *)
From S2P Require Import Prelude Sql Schemas EffectLedger ObligationLedger TimersValues.
From S2P Require Import Snapshots WellFormed Samples.

Definition timer (d : Db.t) (s : SKey) (tid : string) : option StorageTimer.t :=
  row_at StorageTimer.pk (s, tid) d.(Db.timers).
Definition value (d : Db.t) (ns k : string) : option StorageValue.t :=
  row_at StorageValue.pk (ns, k) d.(Db.values).

Lemma timer_pk d s tid r : timer d s tid = Some r -> StorageTimer.pk r = (s, tid).
Proof. by intros [_ ?]%row_at_Some_1. Qed.

(** Marking rows of the table one by one is one UPDATE over their keys. *)
Lemma mark_fired_eval rows d :
  keyed StorageTimer.pk d.(Db.timers) -> (forall r, r ∈ rows -> r ∈ d.(Db.timers)) ->
  NoDup (StorageTimer.pk <$> rows) ->
  mark_fired rows d = Ok (tt, Db.set_timers
    (update_where (fun x => StorageTimer.pk x ∈ StorageTimer.pk <$> rows)
       (StorageTimer.set_fired true) d.(Db.timers)) d).
Proof.
  revert d. induction rows as [|r rows IH]; intros d Hk Hin Hnd.
  - simpl. rewrite update_where_id; [by destruct d|]. intros r _ []%elem_of_nil.
  - rewrite fmap_cons, NoDup_cons in Hnd. destruct Hnd as [Hr Hnd].
    cbn [mark_fired]. unfold save_timer. monad_simpl. rewrite IH.
    + cbn. do 2 f_equal. unfold Db.set_timers at 1 3. cbn. f_equal.
      unfold update_where. rewrite <-list_fmap_compose. apply list_fmap_ext.
      intros i x Hx. assert (x ∈ Db.timers d) by (by eapply list_elem_of_lookup_2).
      cbn. change (StorageTimer.pk (StorageTimer.set_fired true r))
        with (StorageTimer.pk r).
      destruct (decide (StorageTimer.pk x = StorageTimer.pk r)) as [E|E].
      * assert (x = r) as ->.
        { assert (row_at StorageTimer.pk (StorageTimer.pk r) d.(Db.timers) = Some x)
            by (apply row_at_Some; done).
          assert (row_at StorageTimer.pk (StorageTimer.pk r) d.(Db.timers) = Some r)
            by (apply row_at_Some; [done|]; split; [apply Hin; left|done]). congruence. }
        rewrite decide_False by done. rewrite decide_True; [done|]. left.
      * assert (Hiff : StorageTimer.pk x ∈ StorageTimer.pk <$> rows <->
          StorageTimer.pk x ∈ StorageTimer.pk r :: (StorageTimer.pk <$> rows))
          by (rewrite elem_of_cons; tauto).
        by rewrite (decide_ext _ _ _ _ Hiff).
    + by apply keyed_update.
    + intros x Hx. cbn. apply elem_of_update. exists x.
      split; [apply Hin; by right|]. rewrite decide_False; [done|].
      change (StorageTimer.pk (StorageTimer.set_fired true r)) with (StorageTimer.pk r).
      intros E. apply Hr. rewrite <-E. by apply list_elem_of_fmap_2.
    + done.
Qed.

(** The rows a call of [list_due_timers] takes. *)
Definition due_rows (now : Z) (lim : nat) (d : Db.t) : list StorageTimer.t :=
  limit lim (order_by StorageTimer.fire_at_ms
    (select_where (timer_due now) d.(Db.timers))).

Lemma due_rows_elem now lim d r :
  r ∈ due_rows now lim d -> timer_due now r /\ r ∈ d.(Db.timers).
Proof.
  intros H%elem_of_limit. by rewrite elem_of_order_by, elem_of_select in H.
Qed.

Lemma due_rows_NoDup now lim d :
  keyed StorageTimer.pk d.(Db.timers) -> NoDup (StorageTimer.pk <$> due_rows now lim d).
Proof. apply keyed_query. Qed.

Section equations.
Context (d : Db.t) (Hwf : wf d).

Lemma set_timer_eval clk s tid fire kind payload :
  set_timer clk s tid fire kind payload d =
    match timer d s tid with
    | Some row => (Ok (TimerRecord.from_row row), d)
    | None =>
      let row := fresh_timer clk s tid fire kind payload in
      if decide (s ∈ d.(Db.sessions))
      then (Ok (TimerRecord.from_row row),
            Db.set_timers (insert_row row d.(Db.timers)) d)
      else (Err IntegrityError, d)
    end.
Proof.
  unfold set_timer. monad_simpl. rewrite select_timer_wf by done. fold (timer d s tid).
  destruct (timer d s tid) eqn:E; [done|]. unfold insert_timer.
  change (row_at StorageTimer.pk (StorageTimer.pk (fresh_timer clk s tid fire kind payload))
            (Db.timers d)) with (timer d s tid). rewrite E.
  cbn zeta. destruct (decide (s ∈ Db.sessions d)).
  - by rewrite decide_True.
  - rewrite decide_False; [done|]. by intros [_ ?].
Qed.

Lemma list_due_timers_eval clk now_ms lim claim :
  list_due_timers clk now_ms lim claim d =
    let rows := due_rows (int_or now_ms clk) lim d in
    (Ok (TimerRecord.from_row <$> rows),
     if claim then Db.set_timers
       (update_where (fun x => StorageTimer.pk x ∈ StorageTimer.pk <$> rows)
          (StorageTimer.set_fired true) d.(Db.timers)) d
     else d).
Proof.
  unfold list_due_timers. monad_simpl. fold (due_rows (int_or now_ms clk) lim d).
  destruct claim; [|done].
  rewrite mark_fired_eval; [done|apply Hwf| |].
  - by intros r [_ ?]%due_rows_elem.
  - apply due_rows_NoDup, Hwf.
Qed.

Lemma write_value_eval clk ns k v if_version writer :
  write_value clk ns k v if_version writer d =
    match value d ns k with
    | None =>
      if decide (0 <= if_version /\ if_version <> 0)%Z
      then (Err (ValueError (MNoPriorRow if_version)), d)
      else let row := first_value clk ns k v (str_or_opt writer None) in
           (Ok row, Db.set_values (insert_row row d.(Db.values)) d)
    | Some row =>
      if decide (0 <= if_version /\ if_version <> row.(StorageValue.version))%Z
      then (Err (ValueError (MStaleCas if_version row.(StorageValue.version))), d)
      else let row' := next_value clk v (str_or_opt writer row.(StorageValue.writer)) row in
           (Ok row', Db.set_values
              (update_where (fun x => StorageValue.pk x = StorageValue.pk row')
                 (fun _ => row') d.(Db.values)) d)
    end.
Proof.
  unfold write_value. monad_simpl. rewrite select_value_wf by done. fold (value d ns k).
  destruct (value d ns k) eqn:E; case_decide; try done.
  unfold insert_value.
  change (row_at StorageValue.pk (StorageValue.pk (first_value clk ns k v
    (str_or_opt writer None))) (Db.values d)) with (value d ns k).
  rewrite E. by rewrite decide_True.
Qed.

Lemma get_value_eval ns k : get_value ns k d = (Ok (value d ns k), d).
Proof. unfold get_value. monad_simpl. by rewrite select_value_wf. Qed.

Lemma set_timer_wf clk s tid fire kind payload :
  wf (run_state (set_timer clk s tid fire kind payload) d).
Proof.
  unfold run_state. rewrite set_timer_eval. destruct (timer d s tid) eqn:E; [done|].
  cbn zeta. case_decide; [|done]. eapply (wf_insert_timer _ _ _ tt); [done|].
  unfold insert_timer. rewrite decide_True; [done|]. by split.
Qed.

Lemma list_due_timers_wf clk now lim claim :
  wf (run_state (list_due_timers clk now lim claim) d).
Proof.
  unfold run_state. rewrite list_due_timers_eval. cbn. destruct claim; [|done].
  by apply wf_update_timers.
Qed.

Lemma cancel_timer_wf s tid : wf (run_state (cancel_timer s tid) d).
Proof. unfold cancel_timer, run_state. monad_simpl. by apply wf_delete_timers. Qed.

Lemma write_value_wf clk ns k v if_version writer :
  wf (run_state (write_value clk ns k v if_version writer) d).
Proof.
  unfold run_state. rewrite write_value_eval.
  destruct (value d ns k) as [row|] eqn:E; case_decide; try done; cbn zeta.
  - eapply (wf_save_value d _ tt); [done| |done].
    apply row_at_Some_1 in E as [Hin _]. pose proof (wf_values _ Hwf) as Hv.
    rewrite Forall_forall in Hv. specialize (Hv row Hin). unfold value_ok in *.
    change (1 <= int_or (StorageValue.version row) 0 + 1)%Z.
    unfold int_or. destruct (Z.eqb_spec (StorageValue.version row) 0); lia.
  - eapply (wf_insert_value (first_value clk ns k v (str_or_opt writer None)) d _ tt);
      [done|unfold value_ok; cbn; lia|].
    unfold insert_value. rewrite decide_True; [done|]. exact E.
Qed.
End equations.

#[export] Hint Resolve set_timer_wf list_due_timers_wf cancel_timer_wf write_value_wf : tape.

(** ** Properties *)

(** A due timer is handed out at most once.  A claiming call returns only due,
    unfired timers, soonest first and no more than its limit; after it no later
    call, at any time, with any limit, claiming or not, returns one of them. *)
Theorem due_timers_claimed_once d clk now lim ts d' :
  wf d -> list_due_timers clk now lim true d = (Ok ts, d') ->
  length ts <= lim /\
  StronglySorted (fun x y => x.(TimerRecord.fire_at_ms) <= y.(TimerRecord.fire_at_ms))%Z ts /\
  (forall t, t ∈ ts -> t.(TimerRecord.fired) = false /\
                       (t.(TimerRecord.fire_at_ms) <= int_or now clk)%Z) /\
  forall clk' now' lim' claim' ts' t t',
    run_result (list_due_timers clk' now' lim' claim') d' = Ok ts' ->
    t ∈ ts -> t' ∈ ts' ->
    (t.(TimerRecord.session), t.(TimerRecord.timer_id))
      <> (t'.(TimerRecord.session), t'.(TimerRecord.timer_id)).
Proof.
  intros Hwf Hl. assert (Hwf' : wf d').
  { pose proof (list_due_timers_wf d Hwf clk now lim true) as H. unfold run_state in H.
    by rewrite Hl in H. }
  rewrite list_due_timers_eval in Hl by done. cbn zeta in Hl. injection Hl as <- <-.
  set (rows := due_rows (int_or now clk) lim d) in *.
  split; [rewrite length_fmap; apply length_limit|]. split; [|split].
  - eapply fmap_sorted; [|apply limit_sorted, (order_by_sorted StorageTimer.fire_at_ms)].
    auto.
  - intros t (r & -> & [[Hf Hd] _]%due_rows_elem)%list_elem_of_fmap. exact (conj Hf Hd).
  - intros clk' now' lim' claim' ts' t t'. unfold run_result.
    rewrite list_due_timers_eval by done. intros [= <-] Ht Ht' Heq.
    apply list_elem_of_fmap in Ht as (r & -> & Hr).
    apply list_elem_of_fmap in Ht' as (r' & -> & Hr').
    apply due_rows_elem in Hr' as [[Hf _] Hin]. cbn in Hin.
    apply elem_of_update in Hin as (x & Hx & ->).
    case_decide as Hd; [by cbn in Hf|].
    apply Hd. apply list_elem_of_fmap. exists r. split; [|done]. by symmetry.
Qed.

Lemma due_timers_claimed_once_witness :
  run_result (list_due_timers 0 6000 10 true) db_timers
    = Ok [TimerRecord.from_row (fresh_timer 1000 sess "gate-1" 5000 "gate" JNull)] /\
  length [TimerRecord.from_row (fresh_timer 1000 sess "gate-1" 5000 "gate" JNull)] <= 10.
Proof.
  split; [vm_compute; reflexivity|].
  apply (due_timers_claimed_once db_timers 0 6000 10 _
           (run_state (list_due_timers 0 6000 10 true) db_timers)); [eval_decide|].
  vm_compute. reflexivity.
Defined.

(** Timers are registered once and cancelled for good.  Setting a timer that
    exists returns the registered one unchanged, whatever the new arguments; a
    cancelled timer is gone, the report says whether it was there, and setting it
    again registers it afresh. *)
Theorem timer_set_cancel d clk clk' s tid fire fire' kind kind' payload payload' :
  wf d -> s ∈ d.(Db.sessions) ->
  let '(r, d1) := set_timer clk s tid fire kind payload d in
  set_timer clk' s tid fire' kind' payload' d1 = (r, d1) /\
  (exists row, r = Ok (TimerRecord.from_row row) /\ timer d1 s tid = Some row) /\
  let '(c, d2) := cancel_timer s tid d1 in
  c = Ok true /\ timer d2 s tid = None /\ run_result (cancel_timer s tid) d2 = Ok false /\
  run_result (set_timer clk' s tid fire' kind' payload') d2
    = Ok (TimerRecord.from_row (fresh_timer clk' s tid fire' kind' payload')).
Proof.
  intros Hwf Hs. pose proof (set_timer_wf d Hwf clk s tid fire kind payload) as Hwf1.
  assert (H1 : exists row, set_timer clk s tid fire kind payload d
      = (Ok (TimerRecord.from_row row), run_state (set_timer clk s tid fire kind payload) d)
    /\ timer (run_state (set_timer clk s tid fire kind payload) d) s tid = Some row
    /\ s ∈ Db.sessions (run_state (set_timer clk s tid fire kind payload) d)).
  { unfold run_state. rewrite set_timer_eval by done.
    destruct (timer d s tid) as [row|] eqn:E; [by exists row|].
    rewrite decide_True by done. eexists. split; [done|]. split; [|done].
    unfold timer in *. cbn. rewrite row_at_insert, E. by rewrite decide_True. }
  destruct H1 as (row & -> & Hrow & Hs1).
  set (d1 := run_state _ d) in *. split.
  { rewrite set_timer_eval by done. by rewrite Hrow. }
  split; [by exists row|].
  pose proof (cancel_timer_wf d1 Hwf1 s tid) as Hwf2.
  assert (Hc : cancel_timer s tid d1
    = (Ok true, run_state (cancel_timer s tid) d1)).
  { unfold cancel_timer, run_state. monad_simpl.
    rewrite (rowcount_key StorageTimer.pk (s, tid)); [|apply Hwf1|done].
    fold (timer d1 s tid). rewrite Hrow. by rewrite decide_True by by eapply timer_pk. }
  rewrite Hc. set (d2 := run_state (cancel_timer s tid) d1) in *.
  assert (Hnone : timer d2 s tid = None).
  { unfold timer, d2, run_state, cancel_timer. monad_simpl. cbn.
    rewrite row_at_delete by apply Hwf1. fold (timer d1 s tid). rewrite Hrow. cbn.
    by rewrite decide_True by by eapply timer_pk. }
  split; [done|]. split; [done|]. split.
  - unfold cancel_timer, run_result. monad_simpl.
    rewrite (rowcount_key StorageTimer.pk (s, tid)); [|apply Hwf2|done].
    fold (timer d2 s tid). by rewrite Hnone.
  - unfold run_result. rewrite set_timer_eval by done. rewrite Hnone.
    by rewrite decide_True.
Qed.

Lemma timer_set_cancel_witness :
  run_result (cancel_timer sess "gate-1") db_timers = Ok true.
Proof.
  pose proof (timer_set_cancel db_timers 0 0 sess "gate-1" 1 2 "a" "b" JNull JNull
    ltac:(eval_decide) ltac:(eval_decide)) as H.
  change (set_timer 0 sess "gate-1" 1 "a" JNull db_timers)
    with (Ok (TimerRecord.from_row (fresh_timer 1000 sess "gate-1" 5000 "gate" JNull)),
          db_timers) in H.
  destruct H as (_ & _ & H). unfold run_result.
  destruct (cancel_timer sess "gate-1" db_timers) as [c d2]. exact (proj1 H).
Defined.

(** The version a compare-and-swap compares with; an absent key is at 0. *)
Definition current_version (d : Db.t) (ns k : string) : Z :=
  match value d ns k with Some row => row.(StorageValue.version) | None => 0 end.

Lemma write_value_spec d clk ns k v if_version writer :
  wf d ->
  let '(r, d') := write_value clk ns k v if_version writer d in
  if decide (if_version < 0 \/ if_version = current_version d ns k)%Z
  then exists row, r = Ok row /\ run_result (get_value ns k) d' = Ok (Some row) /\
       row.(StorageValue.value_json) = v /\ row.(StorageValue.deleted) = false /\
       row.(StorageValue.version) = (current_version d ns k + 1)%Z /\
       forall ns' k', (ns', k') <> (ns, k) -> value d' ns' k' = value d ns' k'
  else (exists m, r = Err (ValueError m)) /\ d' = d.
Proof.
  intros Hwf. pose proof (write_value_wf d Hwf clk ns k v if_version writer) as Hwf'.
  unfold run_state in Hwf'. rewrite write_value_eval in * by done. unfold current_version.
  destruct (value d ns k) as [row|] eqn:E.
  - destruct (decide (0 <= if_version /\ if_version <> StorageValue.version row)%Z).
    { rewrite decide_False by lia. split; [eauto|done]. }
    rewrite decide_True by lia. cbn zeta in *. cbn [snd] in Hwf'.
    set (row' := next_value clk v _ row) in *.
    assert (Hpk : StorageValue.pk row' = (ns, k)) by (by apply row_at_Some_1 in E as [_ ?]).
    assert (Hv : forall ns' k', value (Db.set_values (update_where
        (fun x => StorageValue.pk x = StorageValue.pk row') (fun _ => row')
        d.(Db.values)) d) ns' k'
      = if decide ((ns', k') = (ns, k)) then Some row' else value d ns' k').
    { intros ns' k'. unfold value. cbn. rewrite row_at_update by done.
      case_decide as Hd.
      - injection Hd as -> ->. fold (value d ns k). rewrite E. cbn.
        rewrite decide_True; [done|]. rewrite Hpk. by apply row_at_Some_1 in E as [_ ?].
      - destruct (row_at _ (ns', k') _) as [x|] eqn:Ex; [|done]. cbn.
        apply row_at_Some_1 in Ex as [_ Ex]. rewrite decide_False by congruence. done. }
    exists row'. split; [done|]. unfold run_result. rewrite get_value_eval by done.
    rewrite Hv, decide_True by done. do 3 (split; [done|]). split.
    { change (int_or (StorageValue.version row) 0 + 1 = StorageValue.version row + 1)%Z.
      unfold int_or. by destruct (Z.eqb_spec (StorageValue.version row) 0) as [->|]. }
    intros ns' k' Hne. rewrite Hv. by rewrite decide_False.
  - destruct (decide (0 <= if_version /\ if_version <> 0)%Z).
    { rewrite decide_False by lia. split; [eauto|done]. }
    rewrite decide_True by lia. cbn zeta in *. cbn [snd] in Hwf'. eexists. split; [done|].
    unfold run_result. rewrite get_value_eval by done. unfold value in *. cbn.
    rewrite row_at_insert, E, decide_True by done. do 4 (split; [done|]).
    intros ns' k' Hne. rewrite row_at_insert, decide_False by (intros [= <- <-]; by apply Hne).
    by destruct (row_at StorageValue.pk (ns', k') (Db.values d)).
Qed.

(** Versioned writes.  A write with [if_version] succeeds exactly when the
    check is off (negative) or matches the current version (0 for an absent
    key); then the key holds the value one version up, live.  A refused write
    raises and changes nothing; no other key is ever touched. *)
Theorem write_value_cas d clk ns k v if_version writer :
  wf d ->
  let '(r, d') := write_value clk ns k v if_version writer d in
  if decide (if_version < 0 \/ if_version = current_version d ns k)%Z
  then exists row, r = Ok row /\ run_result (get_value ns k) d' = Ok (Some row) /\
       row.(StorageValue.value_json) = v /\ row.(StorageValue.deleted) = false /\
       row.(StorageValue.version) = (current_version d ns k + 1)%Z /\
       forall ns' k', (ns', k') <> (ns, k) -> value d' ns' k' = value d ns' k'
  else (exists m, r = Err (ValueError m)) /\ d' = d.
Proof. apply write_value_spec. Qed.

Lemma write_value_cas_witness :
  exists row, run_result (write_value 2000 "ns" "k" (JInt 2) 1 "w2") db_kv = Ok row /\
    row.(StorageValue.version) = 2%Z.
Proof.
  pose proof (write_value_cas db_kv 2000 "ns" "k" (JInt 2) 1 "w2" ltac:(eval_decide)) as H.
  unfold run_result. destruct (write_value 2000 "ns" "k" (JInt 2) 1 "w2" db_kv) as [r d'].
  rewrite decide_True in H by (right; vm_compute; reflexivity).
  destruct H as (row & Hr & _ & _ & _ & Hv & _). exists row. split; [exact Hr|].
  rewrite Hv. vm_compute. reflexivity.
Defined.
