(* ===== verification/CompactTheorems.v ===== *)
(** * CompactTheorems: what one compaction tick removes

    The tick's exact effect on the three tables it touches, its accounting, the
    pinning guarantee, and three facts about session archival and the cap. *)
From S2P Require Import Prelude Sql Schemas EffectLedger ObligationLedger TimersValues.
From S2P Require Import Snapshots Compact WellFormed Samples EffectFacts.

(** ** The archived sessions go as one *)
Definition without_sessions (ss : list SKey) (d : Db.t) : Db.t :=
  Db.set_timers (delete_where (fun t => t.(StorageTimer.session) ∈ ss) d.(Db.timers))
    (Db.set_obligations
      (delete_where (fun o => o.(StorageObligation.session) ∈ ss) d.(Db.obligations))
      (Db.set_effects
        (delete_where (fun e => e.(StorageEffect.session) ∈ ss) d.(Db.effects)) d)).

Lemma delete_sessions_cons {R} (f : R -> SKey) s ss (t : list R) :
  delete_where (fun r => f r ∈ ss) (delete_where (fun r => f r = s) t)
    = delete_where (fun r => f r ∈ s :: ss) t.
Proof.
  rewrite delete_where_twice. apply delete_where_ext. intros r.
  by rewrite elem_of_cons.
Qed.

Lemma archive_sessions_state ss r d :
  (archive_sessions ss r d).2 = without_sessions ss d.
Proof.
  revert r d. induction ss as [|s ss IH]; intros r d.
  - unfold without_sessions. rewrite !delete_where_id by (by intros ? ? ?%elem_of_nil).
    by destruct d.
  - cbn [archive_sessions foldl] in *. unfold archive_sessions in IH.
    unfold archive_session at 2. cbn zeta. rewrite IH.
    unfold without_sessions.
    rewrite <-(delete_sessions_cons StorageEffect.session),
      <-(delete_sessions_cons StorageObligation.session),
      <-(delete_sessions_cons StorageTimer.session). done.
Qed.

(** Row counts: every archived row is counted once. *)
Definition accounts (r : CompactionResult) (d d' : Db.t) : Prop :=
  (effects_pruned r = Z.of_nat (length d.(Db.effects)) - Z.of_nat (length d'.(Db.effects)))%Z /\
  (obligations_pruned r
    = Z.of_nat (length d.(Db.obligations)) - Z.of_nat (length d'.(Db.obligations)))%Z /\
  (timers_pruned r = Z.of_nat (length d.(Db.timers)) - Z.of_nat (length d'.(Db.timers)))%Z.

Lemma archive_session_accounts s r d0 d :
  accounts r d0 d ->
  accounts (archive_session s r d).1 d0 (archive_session s r d).2.
Proof.
  unfold accounts, archive_session. cbn. intros (He & Ho & Ht).
  pose proof (rowcount_delete (fun e => StorageEffect.session e = s) d.(Db.effects)).
  pose proof (rowcount_delete (fun o => StorageObligation.session o = s) d.(Db.obligations)).
  pose proof (rowcount_delete (fun t => StorageTimer.session t = s) d.(Db.timers)).
  repeat split; lia.
Qed.

Lemma archive_sessions_accounts ss r d0 d :
  accounts r d0 d ->
  accounts (archive_sessions ss r d).1 d0 (archive_sessions ss r d).2 /\
  (sessions_archived (archive_sessions ss r d).1
    = sessions_archived r + Z.of_nat (length ss))%Z.
Proof.
  revert r d. induction ss as [|s ss IH]; intros r d H; [by split; [|cbn; lia]|].
  pose proof (archive_session_accounts s r d0 d H) as H1.
  cbn [archive_sessions foldl]. destruct (archive_session s r d) as [r1 d1] eqn:E.
  destruct (IH r1 d1 H1) as [H2 H3]. split; [done|].
  unfold archive_sessions in H3. rewrite H3.
  assert (sessions_archived r1 = sessions_archived r + 1)%Z by (by injection E as <- <-).
  cbn [length]. lia.
Qed.

(** ** The whole tick *)
Section tick.
Context (clk : Z) (policy : CompactionPolicy) (now_ms : Z) (d : Db.t).

Definition effect_cutoff : Z := (int_or now_ms clk - policy.(effect_ttl_ms))%Z.
Definition session_cutoff : Z := (int_or now_ms clk - policy.(session_ttl_ms))%Z.
Definition archived : list SKey :=
  find_archivable_sessions session_cutoff policy.(max_per_tick) d.

(** Active obligations survive archival and the obligation prune, so pinning
    can be read off the database before the tick. *)
Lemma archived_not_active s o :
  s ∈ archived -> o ∈ d.(Db.obligations) -> o.(StorageObligation.session) = s ->
  ~ active_obligation o.
Proof.
  unfold archived, find_archivable_sessions. rewrite list_elem_of_filter.
  intros [Hb _] Ho Hs Ha. apply Hb. left. unfold rowcount.
  assert (o ∈ filter (fun o => StorageObligation.session o = s /\ active_obligation o)
                d.(Db.obligations)) as H by by apply list_elem_of_filter.
  destruct (filter _ _); [by apply elem_of_nil in H|simpl; lia].
Qed.

Definition kept_obligations : list StorageObligation.t :=
  delete_where (fun o => o.(StorageObligation.session) ∈ archived \/
    (policy.(archive_terminal_obligations) = true /\
     prunable_obligation effect_cutoff o)) d.(Db.obligations).

Lemma pinned_kept e : pinned kept_obligations e <-> pinned d.(Db.obligations) e.
Proof.
  unfold pinned. rewrite !Exists_exists. unfold kept_obligations. split.
  - intros (o & Ho & Hp). apply elem_of_delete in Ho as [_ Ho]. eauto.
  - intros (o & Ho & Hp). exists o. split; [|done]. apply elem_of_delete.
    split; [|done]. intros [Hs|[_ [Hc _]]].
    + by apply (archived_not_active _ o Hs Ho eq_refl), Hp.
    + destruct Hp as (_ & _ & Ha). unfold active_obligation in Ha. rewrite Hc in Ha.
      by apply (bool_decide_unpack _) in Ha || (revert Ha; eval_decide).
Qed.

(** The state after the tick, as three DELETEs on the state before it. *)
Definition compacted : Db.t :=
  Db.set_effects
    (delete_where (fun e => e.(StorageEffect.session) ∈ archived \/
       prunable_effect effect_cutoff d.(Db.obligations) e) d.(Db.effects))
    (Db.set_obligations kept_obligations
      (Db.set_timers
        (delete_where (fun t => t.(StorageTimer.session) ∈ archived \/
           (policy.(archive_fired_timers) = true /\ prunable_timer effect_cutoff t))
           d.(Db.timers)) d)).

Lemma delete_if {R} (b : bool) (P Q : R -> Prop) `{!∀ r, Decision (P r)}
    `{!∀ r, Decision (Q r)} (t : list R) :
  (if b then delete_where Q (delete_where P t) else delete_where P t)
    = delete_where (fun r => P r \/ (b = true /\ Q r)) t.
Proof.
  destruct b; [rewrite delete_where_twice|]; apply delete_where_ext; intros r; naive_solver.
Qed.

Lemma compact_once_state : run_state (compact_once clk policy now_ms) d = compacted.
Proof.
  unfold run_state, compact_once, txn. cbn zeta.
  fold effect_cutoff session_cutoff. fold archived.
  pose proof (archive_sessions_state archived (mkCompaction 0 0 0 0) d) as Hs.
  destruct (archive_sessions archived _ d) as [r1 d1]. cbn [snd] in Hs. subst d1.
  unfold compacted, kept_obligations. rewrite <-!delete_if.
  assert (Hpin : forall e, prunable_effect effect_cutoff kept_obligations e
            <-> prunable_effect effect_cutoff d.(Db.obligations) e)
    by (intros e; unfold prunable_effect; by rewrite pinned_kept).
  unfold kept_obligations in Hpin. rewrite <-delete_if in Hpin.
  destruct (archive_terminal_obligations policy), (archive_fired_timers policy);
    cbn; unfold Db.set_effects; cbn; f_equal;
    rewrite delete_where_twice; apply delete_where_ext; intros e;
    by rewrite <-Hpin.
Qed.
End tick.

Lemma prune_obligations_accounts c r d0 d :
  accounts r d0 d -> accounts (prune_obligations c r d).1 d0 (prune_obligations c r d).2.
Proof.
  unfold accounts, prune_obligations. cbn. intros (He & Ho & Ht).
  pose proof (rowcount_delete (prunable_obligation c) d.(Db.obligations)).
  repeat split; lia.
Qed.
Lemma prune_timers_accounts c r d0 d :
  accounts r d0 d -> accounts (prune_timers c r d).1 d0 (prune_timers c r d).2.
Proof.
  unfold accounts, prune_timers. cbn. intros (He & Ho & Ht).
  pose proof (rowcount_delete (prunable_timer c) d.(Db.timers)). repeat split; lia.
Qed.
Lemma prune_effects_accounts c r d0 d :
  accounts r d0 d -> accounts (prune_effects c r d).1 d0 (prune_effects c r d).2.
Proof.
  unfold accounts, prune_effects. cbn. intros (He & Ho & Ht).
  pose proof (rowcount_delete (prunable_effect c d.(Db.obligations)) d.(Db.effects)).
  repeat split; lia.
Qed.

Lemma compact_once_accounts clk policy now d :
  let '(r, d') := compact_once clk policy now d in
  exists c, r = Ok c /\ accounts c d d' /\
    (sessions_archived c = Z.of_nat (length (archived clk policy now d)))%Z /\
    length (archived clk policy now d) <= policy.(max_per_tick).
Proof.
  unfold compact_once, txn. fold (effect_cutoff clk policy now)
    (session_cutoff clk policy now). cbn zeta. fold (archived clk policy now d).
  assert (H0 : accounts (mkCompaction 0 0 0 0) d d) by (repeat split; cbn; lia).
  destruct (archive_sessions_accounts (archived clk policy now d) _ d d H0) as [H1 Hn].
  destruct (archive_sessions _ _ d) as [r1 d1]. cbn [fst snd] in H1, Hn.
  assert (Hlim : length (archived clk policy now d) <= policy.(max_per_tick)).
  { unfold archived, find_archivable_sessions.
    etrans; [apply length_filter|apply length_limit]. }
  pose proof (prune_obligations_accounts (effect_cutoff clk policy now) r1 d d1 H1) as H2.
  set (p2 := if archive_terminal_obligations policy then _ else (r1, d1)).
  assert (Hp2 : accounts p2.1 d p2.2 /\ sessions_archived p2.1 = sessions_archived r1)
    by (subst p2; by destruct archive_terminal_obligations).
  destruct p2 as [r2 d2], Hp2 as [Hp2 Hn2]. cbn [fst snd] in Hp2, Hn2.
  pose proof (prune_timers_accounts (effect_cutoff clk policy now) r2 d d2 Hp2) as H3.
  set (p3 := if archive_fired_timers policy then _ else (r2, d2)).
  assert (Hp3 : accounts p3.1 d p3.2 /\ sessions_archived p3.1 = sessions_archived r2)
    by (subst p3; by destruct archive_fired_timers).
  destruct p3 as [r3 d3], Hp3 as [Hp3 Hn3]. cbn [fst snd] in Hp3, Hn3.
  pose proof (prune_effects_accounts (effect_cutoff clk policy now) r3 d d3 Hp3) as H4.
  unfold prune_effects in *. cbn [fst snd] in H4. eexists. split; [done|].
  split; [done|]. split; [|done]. cbn. cbn in Hn. lia.
Qed.

Lemma compacted_wf clk policy now d : wf d -> wf (compacted clk policy now d).
Proof.
  intros Hwf. unfold compacted, kept_obligations.
  apply (wf_delete_effects (Db.set_obligations _ (Db.set_timers _ d))).
  apply (wf_delete_obligations (Db.set_timers _ d)).
  by apply wf_delete_timers.
Qed.

Lemma compact_once_wf clk policy now d :
  wf d -> wf (run_state (compact_once clk policy now) d).
Proof. intros. rewrite compact_once_state. by apply compacted_wf. Qed.

#[export] Hint Resolve compact_once_wf : tape.

(** Compaction never touches snapshots, values or sessions, and can only remove
    an effect row. *)
Lemma compacted_live clk policy now d s key :
  wf d ->
  live (compacted clk policy now d) s key = live d s key \/
  live (compacted clk policy now d) s key = None.
Proof.
  intros Hwf. unfold live. cbn. rewrite row_at_delete by apply Hwf.
  destruct (row_at _ _ _); [|by right]. cbn. case_decide; [by right|by left].
Qed.

(** ** Properties *)

(** One tick removes exactly what it documents.  An effect survives unless its
    session is archived or it is terminal, past the TTL and unpinned; an
    obligation unless its session is archived or it is COMPENSATED and past the
    TTL; a timer unless its session is archived or it fired before the TTL;
    snapshots, values and ADK's sessions stay. *)
Theorem compact_removes_exactly clk policy now d :
  let d' := run_state (compact_once clk policy now) d in
  let arch := archived clk policy now d in
  let cutoff := effect_cutoff clk policy now in
  (forall e, (e ∈ d'.(Db.effects)) <-> e ∈ d.(Db.effects) /\
     (e.(StorageEffect.session) ∉ arch) /\
     ~ (terminal_effect e /\ (e.(StorageEffect.ts_ms) < cutoff)%Z /\
        ~ pinned d.(Db.obligations) e)) /\
  (forall o, (o ∈ d'.(Db.obligations)) <-> o ∈ d.(Db.obligations) /\
     (o.(StorageObligation.session) ∉ arch) /\
     ~ (policy.(archive_terminal_obligations) = true /\
        o.(StorageObligation.status) = ObligationStatus.COMPENSATED /\
        (o.(StorageObligation.ts_ms) < cutoff)%Z)) /\
  (forall t, (t ∈ d'.(Db.timers)) <-> t ∈ d.(Db.timers) /\
     (t.(StorageTimer.session) ∉ arch) /\
     ~ (policy.(archive_fired_timers) = true /\ t.(StorageTimer.fired) = true /\
        (t.(StorageTimer.created_at_ms) < cutoff)%Z)) /\
  d'.(Db.snapshots) = d.(Db.snapshots) /\ d'.(Db.values) = d.(Db.values) /\
  d'.(Db.sessions) = d.(Db.sessions).
Proof.
  rewrite compact_once_state. cbn zeta. split; [|split; [|split; [|done]]].
  - intros e. cbn. rewrite elem_of_delete. unfold prunable_effect. tauto.
  - intros o. cbn. unfold kept_obligations. rewrite elem_of_delete.
    unfold prunable_obligation. tauto.
  - intros t. cbn. rewrite elem_of_delete. unfold prunable_timer. tauto.
Qed.

(** The compensable-window guarantee.  An effect that an active obligation of
    its own session names survives every tick, whatever the policy and the
    clock, and so does the obligation. *)
Theorem pinned_effect_survives clk policy now d o e :
  o ∈ d.(Db.obligations) -> e ∈ d.(Db.effects) -> active_obligation o ->
  o.(StorageObligation.session) = e.(StorageEffect.session) ->
  o.(StorageObligation.effect_key) = e.(StorageEffect.idempotency_key) ->
  e ∈ (run_state (compact_once clk policy now) d).(Db.effects) /\
  o ∈ (run_state (compact_once clk policy now) d).(Db.obligations).
Proof.
  intros Ho He Ha Hs Hk. rewrite compact_once_state.
  assert (Harch : o.(StorageObligation.session) ∉ archived clk policy now d).
  { intros H. by apply (archived_not_active clk policy now d _ o H Ho eq_refl). }
  assert (Hpin : pinned d.(Db.obligations) e).
  { apply Exists_exists. exists o. split; [done|]. split; [by rewrite Hs|by split]. }
  split; cbn.
  - apply elem_of_delete. split; [|done]. rewrite <-Hs. unfold prunable_effect. tauto.
  - apply elem_of_delete. split; [|done]. intros [H|[_ [Hc _]]]; [done|].
    revert Ha. unfold active_obligation. rewrite Hc. eval_decide.
Qed.

Lemma pinned_effect_survives_witness :
  exists e, e ∈ (run_state (compact_once 0 (mkPolicy 0 0 true true 10) 99999999)
                   db_obliged).(Db.effects).
Proof.
  eexists. apply (pinned_effect_survives 0 (mkPolicy 0 0 true true 10) 99999999 db_obliged
    (fresh_obligation 4000 reverse_wire 1)
    (completed 3000 EffectStatus.CONFIRMED (JObj [("wire_id", JStr "w-1")]) JNull
       (leased "d1" 62000 (fresh_effect 1000 (wire "inv-1"))))).
  - vm_compute. left.
  - vm_compute. left.
  - eval_decide.
  - reflexivity.
  - reflexivity.
Defined.

(** The tick's report adds up: each counter is the number of rows its table
    lost, archived ones included, and [sessions_archived] the number of sessions
    archived, at most [max_per_tick]. *)
Theorem compact_accounts clk policy now d :
  let '(r, d') := compact_once clk policy now d in
  exists c, r = Ok c /\ accounts c d d' /\
    (sessions_archived c = Z.of_nat (length (archived clk policy now d)))%Z /\
    length (archived clk policy now d) <= policy.(max_per_tick).
Proof. apply compact_once_accounts. Qed.

(** *** The cap *)

(** [n] confirmed effects of one session, all older than the cutoff [c]. *)
Definition old_effect (s : SKey) (c : Z) (i : nat) : StorageEffect.t :=
  StorageEffect.mk s (pretty i) "inv" 0 "tool" 0 EffectStatus.CONFIRMED
    EffectSemantics.IDEMPOTENT EffectDispatchMode.INLINE None None None 0 0 None 0 None
    JNull JNull JNull (c - 1).
Definition db_old (s : SKey) (c : Z) (n : nat) : Db.t :=
  Db.set_effects (old_effect s c <$> seq 0 n) (Db.empty [s]).

Lemma db_old_wf s c n : wf (db_old s c n).
Proof.
  apply wf_set_effects; [apply wf_empty|..]; cbn.
  - unfold keyed. rewrite <-list_fmap_compose. apply NoDup_fmap_2_strong; [|apply NoDup_seq].
    intros i j _ _ [= H]. by apply (inj pretty).
  - assert (omap StorageEffect.business (old_effect s c <$> seq 0 n) = []) as ->; [|constructor].
    induction (seq 0 n); [done|]. by cbn.
  - apply Forall_fmap, Forall_true. intros i. split; cbn; try done.
    + unfold effect_statuses. set_solver.
    + by intros [? _].
  - apply Forall_fmap, Forall_true. intros i. cbn. set_solver.
Qed.

(** The per-tick cap bounds no deletion.  [CompactionPolicy] documents
    [max_per_tick] as a cap on the rows touched per call; for every policy,
    however small its cap, and every [n] there is a well-formed database on which
    one tick deletes [n] effects. *)
Theorem compact_cap_bounds_nothing clk policy now n :
  exists d r, wf d /\ run_result (compact_once clk policy now) d = Ok r /\
    effects_pruned r = Z.of_nat n.
Proof.
  set (c := effect_cutoff clk policy now). set (d := db_old (mkSKey "a" "u" "s") c n).
  exists d. pose proof (compact_once_accounts clk policy now d) as H.
  pose proof (compact_once_state clk policy now d) as Hst. unfold run_state in Hst.
  unfold run_result. destruct (compact_once _ _ _ d) as [r d']. cbn [snd] in Hst. subst d'.
  destruct H as (k & -> & (He & _) & _).
  exists k. split; [apply db_old_wf|]. split; [done|]. rewrite He.
  assert (Db.effects (compacted clk policy now d) = []) as ->.
  { apply elem_of_nil_inv. intros x [Hx (i & -> & _)%list_elem_of_fmap]%elem_of_delete.
    apply Hx. right. fold c. split; [|split]; [|cbn; lia|by intros H%Exists_nil].
    unfold terminal_effect. cbn. set_solver. }
  cbn. rewrite length_fmap, length_seq. lia.
Qed.

(** Archiving a session discards its unresolved effects.  An UNKNOWN effect
    whose session is archived is deleted like the terminal ones, so the agent's
    replay of the same call journals it as PENDING again, for the dispatcher to
    issue once more. *)
Theorem archival_forgets_unknown clk clk' policy now d a e :
  wf d -> live d a.(BeginArgs.session) (effect_key a) = Some e ->
  e.(StorageEffect.status) = EffectStatus.UNKNOWN ->
  StorageEffect.business e = StorageEffect.business (fresh_effect clk' a) ->
  a.(BeginArgs.session) ∈ archived clk policy now d ->
  captured_at (row_at StorageEffectSnapshot.session a.(BeginArgs.session)
                 d.(Db.snapshots)) (effect_key a) = None ->
  begin_refusal a = None ->
  run_result (begin_effect clk' a) (run_state (compact_once clk policy now) d)
    = Ok (EffectRecord.from_row (fresh_effect clk' a)).
Proof.
  intros Hwf Hl _ Hb Harch Hsnap Hr. rewrite compact_once_state.
  pose proof (live_pk _ _ _ _ Hl) as Hpk. injection Hpk as Hs Hk.
  assert (Hin : e ∈ d.(Db.effects)) by (by apply row_at_Some_1 in Hl as [? _]).
  assert (Hgone : live (compacted clk policy now d) a.(BeginArgs.session) (effect_key a) = None).
  { unfold live in *. cbn. rewrite row_at_delete by apply Hwf. rewrite Hl. cbn.
    rewrite decide_True; [done|]. left. by rewrite Hs. }
  unfold run_result. rewrite begin_effect_eval by by apply compacted_wf.
  rewrite Hr, Hgone. change (Db.snapshots (compacted _ _ _ _)) with (Db.snapshots d).
  rewrite Hsnap. cbn zeta. rewrite decide_True; [done|].
  split; [exact Hgone|]. split.
  - rewrite <-Hb. destruct (StorageEffect.business e) as [b|] eqn:Eb; [right|by left].
    apply Forall_forall. intros x Hx Hxb. apply elem_of_delete in Hx as [Hx Hxin].
    apply Hx. left. by rewrite (wf_business_inj d x e b), Hs.
  - cbn. rewrite <-Hs. pose proof (wf_effect_fk _ Hwf) as Hfk.
    rewrite Forall_forall in Hfk. by apply Hfk.
Qed.

Lemma archival_forgets_unknown_witness :
  run_result (begin_effect 9000000000 (wire "inv-1"))
    (run_state (compact_once 0 default_policy 9000000000) db_unknown)
    = Ok (EffectRecord.from_row (fresh_effect 9000000000 (wire "inv-1"))).
Proof.
  apply (archival_forgets_unknown 0 9000000000 default_policy 9000000000 db_unknown
    (wire "inv-1")
    (attempted 3000 "ack lost" 0 (leased "d1" 62000 (fresh_effect 1000 (wire "inv-1"))))).
  - eval_decide.
  - vm_compute. reflexivity.
  - reflexivity.
  - reflexivity.
  - eval_decide.
  - reflexivity.
  - reflexivity.
Defined.
