(* ===== verification/SnapshotTheorems.v ===== *)
(** * SnapshotTheorems: snapshots and continue-as-new

    What a snapshot holds after [take_snapshot]; that it keeps [begin_effect]'s
    short-circuit alive across compaction; what [continue_as_new] deletes, keeps
    and carries; and what the snapshot does not keep: the cross-run dedup. *)
From S2P Require Import Prelude Sql Schemas EffectLedger ObligationLedger TimersValues.
From S2P Require Import Snapshots Compact WellFormed Samples EffectFacts TimersTheorems.
From S2P Require Import CompactTheorems.

(** ** The captured map *)

Lemma capture_rows_snoc rows r :
  capture_rows (rows ++ [r])
    = <[r.(StorageEffect.idempotency_key) := capture r]> (capture_rows rows).
Proof. unfold capture_rows. by rewrite foldl_app. Qed.

Lemma capture_rows_lookup_None rows k :
  Forall (fun r => r.(StorageEffect.idempotency_key) <> k) rows ->
  capture_rows rows !! k = None.
Proof.
  induction rows as [|r rows IH] using rev_ind; [done|].
  rewrite Forall_app, Forall_singleton. intros [H1 H2].
  rewrite capture_rows_snoc, lookup_insert_ne by done. auto.
Qed.

(** Keys repeat in no session, so the map holds each row under its key. *)
Lemma capture_rows_lookup rows r :
  keyed StorageEffect.idempotency_key rows -> r ∈ rows ->
  capture_rows rows !! r.(StorageEffect.idempotency_key) = Some (capture r).
Proof.
  unfold keyed. induction rows as [|x rows IH] using rev_ind; [by intros _ ?%elem_of_nil|].
  rewrite fmap_app, capture_rows_snoc. cbn. intros Hnd [Hr|Hr]%elem_of_app.
  - apply NoDup_app in Hnd as (Hnd & Hx & _). rewrite lookup_insert_ne; [auto|].
    intros Heq. apply (Hx (StorageEffect.idempotency_key r)).
    + by apply list_elem_of_fmap_2.
    + rewrite <-Heq. by left.
  - apply list_elem_of_singleton in Hr as ->. by rewrite lookup_insert_eq.
Qed.

Lemma capture_terminal r : terminal_effect r -> captured_terminal (capture r).
Proof. intros H. by exists r.(StorageEffect.status). Qed.

Lemma capture_rows_terminal rows :
  Forall terminal_effect rows -> map_Forall (fun _ => captured_terminal) (capture_rows rows).
Proof.
  induction rows as [|r rows IH] using rev_ind; [intros _; apply map_Forall_empty|].
  rewrite Forall_app, Forall_singleton. intros [H1 H2].
  rewrite capture_rows_snoc. apply map_Forall_insert_2; [by apply capture_terminal|auto].
Qed.

(** ** take_snapshot *)
Section take_snapshot.
Context (d : Db.t) (Hwf : wf d) (s : SKey).

(** The rows one call captures. *)
Definition snapshot_rows (watermark : Z) : list StorageEffect.t :=
  select_where (fun r => r.(StorageEffect.session) = s /\
    terminal_effect r /\ (r.(StorageEffect.ts_ms) <= watermark)%Z) d.(Db.effects).

Lemma snapshot_rows_keyed w : keyed StorageEffect.idempotency_key (snapshot_rows w).
Proof.
  unfold keyed, snapshot_rows, select_where.
  pose proof (wf_effect_pk _ Hwf) as Hk. unfold keyed in Hk.
  induction d.(Db.effects) as [|r t IH]; [constructor|].
  rewrite filter_cons. cbn in Hk. apply NoDup_cons in Hk as [Hr Hk].
  case_decide as Hd; [|auto]. cbn. apply NoDup_cons. split; [|auto].
  intros (x & Hx & [(Hs & _) Hin]%list_elem_of_filter)%list_elem_of_fmap.
  apply Hr. apply list_elem_of_fmap. exists x. split; [|done].
  unfold StorageEffect.pk. destruct Hd as [-> _]. by rewrite Hs, Hx.
Qed.

(** A key's captured value is its live row's, when that is terminal and old
    enough. *)
Definition capturable (w : Z) (key : string) : option StorageEffect.t :=
  match live d s key with
  | Some r => if decide (terminal_effect r /\ (r.(StorageEffect.ts_ms) <= w)%Z)
              then Some r else None
  | None => None
  end.

Lemma captured_lookup w key :
  capture_rows (snapshot_rows w) !! key = capture <$> capturable w key.
Proof.
  unfold capturable, live. destruct (row_at _ _ _) as [r|] eqn:E.
  - pose proof (row_at_Some_1 _ _ _ _ E) as [Hin [= Hs Hk]].
    case_decide as Hc; cbn.
    + rewrite <-Hk. apply capture_rows_lookup; [apply snapshot_rows_keyed|].
      by apply elem_of_select.
    + apply capture_rows_lookup_None, Forall_forall.
      intros x [(Hxs & Hxt) Hxin]%elem_of_select Hxk. apply Hc.
      assert (x = r) as ->; [|done].
      assert (row_at StorageEffect.pk (s, key) d.(Db.effects) = Some x); [|congruence].
      apply row_at_Some; [apply Hwf|]. split; [done|]. unfold StorageEffect.pk. by rewrite Hxs, Hxk.
  - apply capture_rows_lookup_None, Forall_forall.
    intros x [(Hxs & _) Hxin]%elem_of_select Hxk.
    apply row_at_None in E. rewrite Forall_forall in E. apply (E x Hxin).
    unfold StorageEffect.pk. by rewrite Hxs, Hxk.
Qed.

Definition snapshot_of (d : Db.t) : option StorageEffectSnapshot.t :=
  row_at StorageEffectSnapshot.session s d.(Db.snapshots).

(** The row [take_snapshot] leaves. *)
Definition new_snapshot (w clk : Z) : StorageEffectSnapshot.t :=
  let captured := capture_rows (snapshot_rows w) in
  match snapshot_of d with
  | None => {|
      StorageEffectSnapshot.session := s;
      StorageEffectSnapshot.effects_json := Some captured;
      StorageEffectSnapshot.up_to_ts_ms := w;
      StorageEffectSnapshot.effects_count := Z.of_nat (size captured);
      StorageEffectSnapshot.created_at_ms := clk;
      StorageEffectSnapshot.updated_at_ms := clk |}
  | Some sn =>
    let merged := captured ∪ default ∅ sn.(StorageEffectSnapshot.effects_json) in {|
      StorageEffectSnapshot.session := sn.(StorageEffectSnapshot.session);
      StorageEffectSnapshot.effects_json := Some merged;
      StorageEffectSnapshot.up_to_ts_ms :=
        Z.max (int_or sn.(StorageEffectSnapshot.up_to_ts_ms) 0) w;
      StorageEffectSnapshot.effects_count := Z.of_nat (size merged);
      StorageEffectSnapshot.created_at_ms := sn.(StorageEffectSnapshot.created_at_ms);
      StorageEffectSnapshot.updated_at_ms := clk |}
  end.

Definition snapshots_after (w clk : Z) : list StorageEffectSnapshot.t :=
  match snapshot_of d with
  | None => insert_row (new_snapshot w clk) d.(Db.snapshots)
  | Some _ => update_where (fun x => x.(StorageEffectSnapshot.session) = s)
                (fun _ => new_snapshot w clk) d.(Db.snapshots)
  end.

Lemma new_snapshot_session w clk :
  StorageEffectSnapshot.session (new_snapshot w clk) = s.
Proof.
  unfold new_snapshot, snapshot_of. destruct (row_at _ _ _) as [sn|] eqn:E; [|done].
  by apply row_at_Some_1 in E as [_ ?].
Qed.

Lemma take_snapshot_eval clk0 clk up_to :
  s ∈ d.(Db.sessions) ->
  let w := int_or up_to clk0 in
  let n := new_snapshot w clk in
  take_snapshot clk0 clk s up_to d =
    (Ok {| captured_count := Z.of_nat (size (capture_rows (snapshot_rows w)));
           merged_total := n.(StorageEffectSnapshot.effects_count);
           summary_up_to_ts_ms := w |},
     Db.set_snapshots (snapshots_after w clk) d).
Proof.
  intros Hs w n. unfold take_snapshot. fold w. monad_simpl.
  fold (snapshot_rows w). rewrite select_snapshot_wf by done.
  pose proof (new_snapshot_session w clk) as Hns. fold n in Hns.
  unfold snapshots_after. fold n. unfold n, new_snapshot in *. unfold snapshot_of in *.
  destruct (row_at _ _ _) as [sn|] eqn:E.
  - cbn -[save_snapshot capture_rows]. unfold save_snapshot. cbn -[capture_rows].
    cbn in Hns. by rewrite Hns.
  - cbn -[insert_snapshot capture_rows]. unfold insert_snapshot. cbn -[capture_rows].
    by rewrite decide_True by done.
Qed.

Lemma snapshot_of_after w clk :
  snapshot_of (Db.set_snapshots (snapshots_after w clk) d) = Some (new_snapshot w clk).
Proof.
  pose proof (new_snapshot_session w clk) as Hns.
  unfold snapshots_after, snapshot_of in *. cbn.
  destruct (row_at _ s d.(Db.snapshots)) as [sn|] eqn:E.
  - rewrite row_at_update by (by intros; rewrite Hns). rewrite E. cbn.
    apply row_at_Some_1 in E as [_ E]. by rewrite decide_True.
  - rewrite row_at_insert, E. by rewrite decide_True.
Qed.

Lemma new_snapshot_ok w clk : snapshot_ok (new_snapshot w clk).
Proof.
  assert (Ht : map_Forall (fun _ => captured_terminal) (capture_rows (snapshot_rows w))).
  { apply capture_rows_terminal, Forall_forall. by intros x [(_ & ? & _) _]%elem_of_select. }
  unfold new_snapshot. destruct (snapshot_of d) as [sn|] eqn:E; [|by eexists].
  eexists. split; [done|]. split; [done|]. apply map_Forall_union_2; [done|].
  apply row_at_Some_1 in E as [Hin _].
  pose proof (wf_snapshots _ Hwf) as H. rewrite Forall_forall in H.
  destruct (H sn Hin) as (m & -> & _ & Hm). done.
Qed.

Lemma take_snapshot_wf clk0 clk up_to : wf (run_state (take_snapshot clk0 clk s up_to) d).
Proof.
  destruct (decide (s ∈ d.(Db.sessions))) as [Hs|Hs].
  - unfold run_state. rewrite take_snapshot_eval by done. cbn [snd].
    set (w := int_or up_to clk0).
    pose proof (new_snapshot_session w clk) as Hns.
    assert (Hfk : Forall (fun r => r.(StorageEffectSnapshot.session) ∈ d.(Db.sessions))
                    d.(Db.snapshots)) by apply Hwf.
    unfold snapshots_after. destruct (snapshot_of d) as [sn|] eqn:E;
      apply wf_set_snapshots; try done.
    + apply keyed_update; [by intros ? ->|apply Hwf].
    + apply Forall_update; [apply Hwf|]. intros. apply new_snapshot_ok.
    + apply Forall_update; [done|]. intros. by rewrite Hns.
    + apply keyed_insert; [apply Hwf|]. by rewrite Hns.
    + apply Forall_insert_row; [apply Hwf|apply new_snapshot_ok].
    + apply Forall_insert_row; [done|]. by rewrite Hns.
  - (* the foreign key refuses a first snapshot of a missing session *)
    assert (Hno : row_at StorageEffectSnapshot.session s d.(Db.snapshots) = None).
    { apply row_at_None, Forall_forall. intros x Hx <-. apply Hs.
      pose proof (wf_snapshot_fk _ Hwf) as Hfk. rewrite Forall_forall in Hfk. auto. }
    unfold take_snapshot. monad_simpl. rewrite select_snapshot_wf by done. rewrite Hno.
    cbn -[insert_snapshot]. unfold insert_snapshot. cbn. by rewrite decide_False by tauto.
Qed.
End take_snapshot.

#[export] Hint Resolve take_snapshot_wf : tape.

(** A captured row answers the short-circuit with its recorded outcome. *)
Definition same_outcome (r : StorageEffect.t) (e : EffectRecord.t) : Prop :=
  e.(EffectRecord.status) = r.(StorageEffect.status) /\
  e.(EffectRecord.response_json) = r.(StorageEffect.response_json) /\
  e.(EffectRecord.error_json) = r.(StorageEffect.error_json) /\
  e.(EffectRecord.external_ref) = r.(StorageEffect.external_ref) /\
  e.(EffectRecord.ts_ms) = r.(StorageEffect.ts_ms).

Lemma record_of_capture a r : same_outcome r (record_of_captured a (capture r)).
Proof. by repeat split. Qed.
Lemma record_of_row r : same_outcome r (EffectRecord.from_row r).
Proof. by repeat split. Qed.

(** The new snapshot, key by key. *)
Lemma new_snapshot_lookup d s w clk key :
  wf d ->
  captured_at (Some (new_snapshot d s w clk)) key =
    match capturable d s w key with
    | Some r => Some (capture r)
    | None => captured_at (snapshot_of s d) key
    end.
Proof.
  intros Hwf. unfold captured_at, new_snapshot.
  pose proof (captured_lookup d Hwf s w key) as Hc.
  destruct (snapshot_of s d) as [sn|] eqn:E; cbn.
  - destruct (capturable d s w key); cbn in Hc.
    + by erewrite lookup_union_Some_l.
    + rewrite lookup_union_r by done.
      by destruct (StorageEffectSnapshot.effects_json sn).
  - rewrite Hc. by destruct (capturable d s w key).
Qed.

(** ** Properties of snapshots *)

(** A snapshot of an existing session merges, key by key: a key whose live
    row is terminal and not newer than the watermark gets that row's outcome,
    every other key keeps its earlier entry; the watermark never goes back, and
    no other session's snapshot and no other table changes. *)
Theorem take_snapshot_merges d clk0 clk s up_to :
  wf d -> s ∈ d.(Db.sessions) ->
  let w := int_or up_to clk0 in
  let d' := run_state (take_snapshot clk0 clk s up_to) d in
  is_ok (run_result (take_snapshot clk0 clk s up_to) d) = true /\
  (exists sn, snapshot_of s d' = Some sn /\
     (w <= sn.(StorageEffectSnapshot.up_to_ts_ms))%Z /\
     (forall old, snapshot_of s d = Some old ->
        (old.(StorageEffectSnapshot.up_to_ts_ms) <= sn.(StorageEffectSnapshot.up_to_ts_ms))%Z) /\
     forall key, captured_at (Some sn) key =
       match live d s key with
       | Some r => if decide (terminal_effect r /\ (r.(StorageEffect.ts_ms) <= w)%Z)
                   then Some (capture r) else captured_at (snapshot_of s d) key
       | None => captured_at (snapshot_of s d) key
       end) /\
  (forall s', s' <> s -> snapshot_of s' d' = snapshot_of s' d) /\
  d' = Db.set_snapshots d'.(Db.snapshots) d.
Proof.
  intros Hwf Hs w d'. unfold d', run_state, run_result.
  rewrite take_snapshot_eval by done. fold w. cbn [fst snd].
  split; [done|]. split; [|split; [|done]].
  - exists (new_snapshot d s w clk). split; [by apply snapshot_of_after|].
    split; [|split].
    + unfold new_snapshot. destruct (snapshot_of s d); cbn; lia.
    + intros old Hold. unfold new_snapshot. rewrite Hold. cbn. unfold int_or.
      destruct (Z.eqb_spec (StorageEffectSnapshot.up_to_ts_ms old) 0); lia.
    + intros key. rewrite new_snapshot_lookup by done. unfold capturable.
      destruct (live d s key); [|done]. by case_decide.
  - intros s' Hne. unfold snapshot_of. cbn. unfold snapshots_after.
    pose proof (new_snapshot_session d s w clk) as Hns.
    destruct (snapshot_of s d).
    + rewrite row_at_update by (by intros; rewrite Hns).
      destruct (row_at _ s' _) eqn:E; [|done]. cbn. apply row_at_Some_1 in E as [_ E].
      by rewrite decide_False by congruence.
    + rewrite row_at_insert. destruct (row_at _ s' _); [done|].
      by rewrite decide_False by congruence.
Qed.

Lemma take_snapshot_merges_witness :
  is_ok (run_result (take_snapshot 5000 5000 sess 0) db_confirmed) = true.
Proof. apply (take_snapshot_merges db_confirmed 5000 5000 sess 0); eval_decide. Defined.

(** The double-spend guard.  Once a terminal effect is in a snapshot, then
    whatever compaction tick follows, with any policy and at any time, replaying
    the call returns its recorded outcome and writes nothing. *)
Theorem snapshot_survives_compaction d clk0 clk1 clk2 clk3 policy now s up_to a row :
  wf d -> s ∈ d.(Db.sessions) -> a.(BeginArgs.session) = s ->
  begin_refusal a = None ->
  live d s (effect_key a) = Some row -> terminal_effect row ->
  (row.(StorageEffect.ts_ms) <= int_or up_to clk0)%Z ->
  let d1 := run_state (take_snapshot clk0 clk1 s up_to) d in
  let d2 := run_state (compact_once clk2 policy now) d1 in
  exists r, begin_effect clk3 a d2 = (Ok r, d2) /\ same_outcome row r.
Proof.
  intros Hwf Hs <- Hr Hl Ht Hw d1 d2.
  assert (Hwf1 : wf d1) by by apply take_snapshot_wf.
  assert (Hl1 : live d1 a.(BeginArgs.session) (effect_key a) = Some row).
  { unfold d1, run_state. by rewrite take_snapshot_eval. }
  assert (Hs1 : captured_at (snapshot_of a.(BeginArgs.session) d1) (effect_key a)
                = Some (capture row)).
  { unfold d1, run_state. rewrite take_snapshot_eval by done. cbn [snd].
    rewrite snapshot_of_after, new_snapshot_lookup by done. unfold capturable.
    by rewrite Hl, decide_True. }
  unfold d2. rewrite compact_once_state.
  rewrite begin_effect_eval by by apply compacted_wf. rewrite Hr.
  change (Db.snapshots (compacted _ _ _ d1)) with (Db.snapshots d1).
  unfold snapshot_of in Hs1.
  destruct (compacted_live clk2 policy now d1 a.(BeginArgs.session) (effect_key a) Hwf1)
    as [->| ->].
  - rewrite Hl1. eexists. split; [done|]. apply record_of_row.
  - rewrite Hs1. eexists. split; [done|]. apply record_of_capture.
Qed.

Lemma snapshot_survives_compaction_witness :
  let d1 := run_state (take_snapshot 5000 5000 sess 0) db_confirmed in
  let d2 := run_state (compact_once 0 (mkPolicy 0 0 true true 10) 99999999) d1 in
  exists r, begin_effect 900 (wire "inv-1") d2 = (Ok r, d2) /\
    same_outcome (completed 3000 EffectStatus.CONFIRMED
       (JObj [("wire_id", JStr "w-1")]) JNull
       (leased "d1" 62000 (fresh_effect 1000 (wire "inv-1")))) r.
Proof.
  refine (snapshot_survives_compaction db_confirmed 5000 5000 0 900
    (mkPolicy 0 0 true true 10) 99999999 sess 0 (wire "inv-1") _ _ _ eq_refl eq_refl _ _ _).
  - eval_decide.
  - eval_decide.
  - vm_compute. reflexivity.
  - eval_decide.
  - vm_compute. discriminate.
Defined.

(** The cross-run dedup does not survive pruning, snapshot or not.  Two wires
    of different invocations with the same connector and business key: the second
    is refused while the first one's row lives, and accepted as PENDING once a
    tick has pruned the row the snapshot captured. *)
Theorem business_key_forgotten_after_prune :
  let d1 := run_state (take_snapshot 5000 5000 sess 0) db_confirmed in
  let d2 := run_state (compact_once 0 (mkPolicy 0 999999999 true true 10) 99999999) d1 in
  run_result (begin_effect 6000 (wire "inv-2")) d1
    = Err (ValueError (MBusinessKeyExists (Some "bank"))) /\
  run_result (begin_effect 6000 (wire "inv-2")) d2
    = Ok (EffectRecord.from_row (fresh_effect 6000 (wire "inv-2"))) /\
  wf d2.
Proof.
  split; [vm_compute; reflexivity|]. split; [vm_compute; reflexivity|].
  apply compact_once_wf, take_snapshot_wf. eval_decide.
Qed.

(** ** continue_as_new *)
Section continue_as_new.
Context (d : Db.t) (Hwf : wf d) (clk : Z) (s : SKey) (old_inv new_inv : string)
  (carried : json) (prune_old : bool).

(** An effect the call prunes. *)
Definition retired (e : StorageEffect.t) : Prop :=
  e.(StorageEffect.session) = s /\ e.(StorageEffect.invocation_id) = old_inv /\
  terminal_effect e /\ ~ pinned d.(Db.obligations) e.
#[export] Instance retired_dec e : Decision (retired e).
Proof. unfold retired. apply _. Defined.

Definition pruned_db : Db.t :=
  if prune_old then Db.set_effects (delete_where retired d.(Db.effects)) d else d.

Lemma pruned_db_wf : wf pruned_db.
Proof. unfold pruned_db. destruct prune_old; [by apply wf_delete_effects|done]. Qed.

(** Carrying state is an unconditional [write_value]. *)
Lemma carry_state_write d1 :
  wf d1 ->
  carry_state clk s new_inv carried d1
    = Ok (tt, run_state (write_value clk (continue_namespace s) new_inv carried (-1)
                           "continue_as_new") d1).
Proof.
  intros Hwf1. unfold run_state. rewrite write_value_eval by done.
  unfold carry_state. monad_simpl. rewrite select_value_wf by done.
  fold (value d1 (continue_namespace s) new_inv).
  destruct (value d1 _ _) as [row|] eqn:E; [done|].
  unfold insert_value. by rewrite decide_True.
Qed.

Definition continued_db : Db.t :=
  if json_is_none carried then pruned_db
  else run_state (write_value clk (continue_namespace s) new_inv carried (-1)
                    "continue_as_new") pruned_db.

(** The obligations that keep a row of the old invocation. *)
Definition keepers : list StorageObligation.t :=
  select_where (fun o => o.(StorageObligation.session) = s /\ active_obligation o /\
    o.(StorageObligation.effect_key) ∈ StorageEffect.idempotency_key <$>
      select_where (fun e => e.(StorageEffect.session) = s /\
        e.(StorageEffect.invocation_id) = old_inv) pruned_db.(Db.effects))
    d.(Db.obligations).

Lemma continue_as_new_eval :
  continue_as_new clk s old_inv new_inv carried prune_old d =
    (Ok {| Snapshots.effects_pruned := if prune_old then Z.of_nat (rowcount retired d.(Db.effects))
                             else 0;
           state_written := negb (json_is_none carried);
           obligations_kept := if prune_old then Z.of_nat (length keepers) else 0 |},
     continued_db).
Proof.
  unfold continue_as_new. monad_simpl.
  set (p := (if prune_old then prune_invocation s old_inv else fun s0 => Ok (0%Z, 0%Z, s0)) d).
  assert (Hp : p = Ok ((if prune_old then Z.of_nat (rowcount retired d.(Db.effects)) else 0%Z,
                        if prune_old then Z.of_nat (length keepers) else 0%Z), pruned_db)).
  { unfold p, keepers, pruned_db. by destruct prune_old. }
  rewrite Hp. unfold continued_db. destruct (json_is_none carried); [done|].
  cbv iota beta. rewrite carry_state_write by apply pruned_db_wf. done.
Qed.

Lemma continue_as_new_wf :
  wf (run_state (continue_as_new clk s old_inv new_inv carried prune_old) d).
Proof.
  unfold run_state. rewrite continue_as_new_eval. cbn [snd]. unfold continued_db.
  destruct (json_is_none carried); [apply pruned_db_wf|].
  apply write_value_wf, pruned_db_wf.
Qed.

Lemma write_value_tables d1 ns k v ifv w :
  wf d1 ->
  let d' := run_state (write_value clk ns k v ifv w) d1 in
  d' = Db.set_values d'.(Db.values) d1.
Proof.
  intros Hwf1. unfold run_state. rewrite write_value_eval by done.
  destruct (value d1 ns k); case_decide; by destruct d1.
Qed.
End continue_as_new.

#[export] Hint Resolve continue_as_new_wf : tape.

(** Continue-as-new always returns, and does exactly this.  It deletes the old
    invocation's terminal, unpinned effects of that session (none when
    [prune_old] is off) and counts them; every PENDING or UNKNOWN effect, every
    pinned one, every obligation, timer and snapshot stays; the carried state is
    the live value of the new invocation's key, one version up, and is written
    exactly when it is not [None]. *)
Theorem continue_as_new_exact d clk s old_inv new_inv carried prune_old :
  wf d ->
  let '(r, d') := continue_as_new clk s old_inv new_inv carried prune_old d in
  let ns := continue_namespace s in
  exists c, r = Ok c /\
    (forall e, (e ∈ d'.(Db.effects)) <-> e ∈ d.(Db.effects) /\
       ~ (prune_old = true /\ retired d s old_inv e)) /\
    (Snapshots.effects_pruned c = Z.of_nat (length d.(Db.effects)) - Z.of_nat (length d'.(Db.effects)))%Z /\
    d'.(Db.obligations) = d.(Db.obligations) /\ d'.(Db.timers) = d.(Db.timers) /\
    d'.(Db.snapshots) = d.(Db.snapshots) /\
    state_written c = negb (json_is_none carried) /\
    if json_is_none carried then d'.(Db.values) = d.(Db.values)
    else exists row, run_result (get_value ns new_inv) d' = Ok (Some row) /\
           row.(StorageValue.value_json) = carried /\
           row.(StorageValue.version) = (current_version d ns new_inv + 1)%Z.
Proof.
  intros Hwf. rewrite continue_as_new_eval by done. cbn zeta.
  eexists. split; [done|]. cbn [Snapshots.effects_pruned state_written].
  set (d1 := pruned_db d s old_inv prune_old).
  assert (Hwf1 : wf d1) by by apply pruned_db_wf.
  assert (He : Db.effects (continued_db d clk s old_inv new_inv carried prune_old)
               = d1.(Db.effects) /\
               Db.obligations (continued_db d clk s old_inv new_inv carried prune_old)
               = d1.(Db.obligations) /\
               Db.timers (continued_db d clk s old_inv new_inv carried prune_old)
               = d1.(Db.timers) /\
               Db.snapshots (continued_db d clk s old_inv new_inv carried prune_old)
               = d1.(Db.snapshots)).
  { unfold continued_db. destruct (json_is_none carried); [done|]. fold d1.
    by rewrite (write_value_tables clk d1) by done. }
  destruct He as (-> & -> & -> & ->).
  split; [|split; [|split; [|split; [|split; [|split; [done|]]]]]];
    try (unfold d1, pruned_db; by destruct prune_old).
  - intros e. unfold d1, pruned_db. destruct prune_old; cbn; [rewrite elem_of_delete|];
      naive_solver.
  - unfold d1, pruned_db. destruct prune_old; cbn [Snapshots.effects_pruned]; [|lia].
    change (Db.effects (Db.set_effects ?es _)) with es.
    pose proof (rowcount_delete (retired d s old_inv) d.(Db.effects)). lia.
  - unfold continued_db. destruct (json_is_none carried).
    { unfold pruned_db. by destruct prune_old. }
    fold d1. pose proof (write_value_spec d1 clk (continue_namespace s) new_inv carried (-1)
                           "continue_as_new" Hwf1) as Hw.
    unfold run_state. destruct (write_value _ _ _ _ _ _ d1) as [r d2].
    rewrite decide_True in Hw by lia. destruct Hw as (row & _ & Hg & Hv & _ & Hn & _).
    exists row. split; [done|]. split; [done|]. rewrite Hn. f_equal.
    unfold current_version, value, d1, pruned_db. by destruct prune_old.
Qed.

Lemma continue_as_new_exact_witness :
  exists row, run_result (get_value "tape:continue-as-new:s1" "inv-2")
    (run_state (continue_as_new 7000 sess "inv-1" "inv-2" (JInt 5) true) db_obliged)
    = Ok (Some row) /\ row.(StorageValue.value_json) = JInt 5.
Proof.
  pose proof (continue_as_new_exact db_obliged 7000 sess "inv-1" "inv-2" (JInt 5) true
    ltac:(eval_decide)) as H.
  unfold run_state. destruct (continue_as_new _ _ _ _ _ _ _) as [r d'].
  destruct H as (c & _ & _ & _ & _ & _ & _ & _ & row & Hg & Hv & _).
  exists row. exact (conj Hg Hv).
Defined.
