(* ===== verification/ReactorFacts.v ===== *)
(** * ReactorFacts: one turn of each reactor loop, as an equation

    For one listed effect, obligation or timer: the outcome of the loop body and
    the store it leaves, as a function of what the connector did. *)
From S2P Require Import Prelude Sql Schemas EffectLedger ObligationLedger TimersValues.
From S2P Require Import Connectors Reactors WellFormed EffectFacts ObligationTheorems.

Lemma with_effect_twice r r' d :
  StorageEffect.pk r' = StorageEffect.pk r ->
  with_effect r' (with_effect r d) = with_effect r' d.
Proof.
  intros Hk. unfold with_effect. unfold Db.set_effects. cbn. f_equal.
  unfold update_where. rewrite <-list_fmap_compose. apply list_fmap_ext.
  intros _ x _. cbn. rewrite Hk.
  destruct (decide (StorageEffect.pk x = StorageEffect.pk r)) as [H|H]; cbn.
  - rewrite !decide_True; done.
  - rewrite !decide_False; done.
Qed.

Lemma set_external_ref_ok v r : effect_ok r -> effect_ok (StorageEffect.set_external_ref v r).
Proof. intros []. by split. Qed.
Lemma set_external_ref_pk v r :
  StorageEffect.pk (StorageEffect.set_external_ref v r) = StorageEffect.pk r.
Proof. done. Qed.
Lemma completed_pk clk st r e row : StorageEffect.pk (completed clk st r e row) = StorageEffect.pk row.
Proof. done. Qed.
Lemma completed_business clk st r e row :
  StorageEffect.business (completed clk st r e row) = StorageEffect.business row.
Proof. done. Qed.

Section effects.
Context {W : Type} (now_ms : W -> Z * W) (exn_text : exn -> string)
  (py_str : json -> string) (connectors : gmap string (Connector.t W)).

(** The dispatcher's delay before the next attempt of a row. *)
Definition next_delay (default_backoff max_backoff : Z) (r : StorageEffect.t) : Z :=
  backoff default_backoff max_backoff (r.(StorageEffect.dispatch_attempts) + 1).

(** The row after one connector outcome, settled at [clk]. *)
Definition settled (clk now default_backoff max_backoff : Z)
    (outcome : result DispatchResult.t) (row : StorageEffect.t) : StorageEffect.t :=
  let delay := next_delay default_backoff max_backoff row in
  match outcome with
  | Err ex => attempted clk (exn_text ex) (now + delay) row
  | Ok o =>
    if decide (o.(DispatchResult.status) = "confirmed") then
      let row := completed clk EffectStatus.CONFIRMED o.(DispatchResult.response) JNull row in
      if decide (o.(DispatchResult.external_ref) = "") then row
      else StorageEffect.set_external_ref (Some o.(DispatchResult.external_ref)) row
    else if decide (o.(DispatchResult.status) = "unknown") then
      attempted clk (py_str (json_or o.(DispatchResult.error) (JStr "ack lost"))) 0 row
    else if decide (o.(DispatchResult.status) = "failed") then
      if decide (o.(DispatchResult.retry_after_ms) < 0)%Z
      then completed clk EffectStatus.FAILED JNull o.(DispatchResult.error) row
      else attempted clk (py_str (json_or o.(DispatchResult.error) (JStr "dispatch failed")))
             (now + int_or o.(DispatchResult.retry_after_ms) delay) row
    else row
  end.

Lemma settled_pk clk now db mb o row :
  StorageEffect.pk (settled clk now db mb o row) = StorageEffect.pk row.
Proof.
  unfold settled, attempted. destruct o as [o|e]; repeat case_decide; done.
Qed.
Lemma settled_business clk now db mb o row :
  StorageEffect.business (settled clk now db mb o row) = StorageEffect.business row.
Proof.
  unfold settled, attempted. destruct o as [o|e]; repeat case_decide; done.
Qed.
Lemma settled_ok clk now db mb o row :
  effect_ok row -> effect_ok (settled clk now db mb o row).
Proof.
  intros Hok. unfold settled. destruct o as [o|e]; repeat case_decide;
    try apply attempted_ok; try done.
  - apply completed_ok; [|done]. unfold effect_statuses. set_solver.
  - apply set_external_ref_ok, completed_ok; [|done]. unfold effect_statuses. set_solver.
  - apply completed_ok; [|done]. unfold effect_statuses. set_solver.
Qed.

(** A status the loop knows; the others are only logged. *)
Definition known_outcome (outcome : result DispatchResult.t) : Prop :=
  match outcome with
  | Err _ => True
  | Ok o => o.(DispatchResult.status) ∈ dispatch_statuses
  end.

Lemma attach_external_ref_with d s key ref row :
  wf d -> live d s key = Some row ->
  attach_external_ref s key ref d
    = (Ok tt, with_effect (StorageEffect.set_external_ref (Some ref) row) d).
Proof.
  intros Hwf Hl. unfold attach_external_ref, txn, with_effect. f_equal. unfold Db.set_effects.
  f_equal. pose proof (live_pk _ _ _ _ Hl) as Hk.
  change (StorageEffect.pk (StorageEffect.set_external_ref (Some ref) row))
    with (StorageEffect.pk row). rewrite Hk.
  unfold update_where. apply list_fmap_ext. intros i x Hx.
  case_decide as E; [|done].
  assert (row_at StorageEffect.pk (s, key) d.(Db.effects) = Some x).
  { apply row_at_Some; [apply Hwf|]. split; [|done]. by eapply list_elem_of_lookup_2. }
  unfold live in Hl. congruence.
Qed.

(** What the loop reports of an outcome. *)
Definition settle_audit (now db mb : Z) (row : StorageEffect.t) (outcome : result DispatchResult.t)
    : DispatchAudit :=
  let key := row.(StorageEffect.idempotency_key) in
  let delay := next_delay db mb row in
  match outcome with
  | Err _ => DException key delay
  | Ok o =>
    if decide (o.(DispatchResult.status) = "confirmed") then
      DConfirmed key o.(DispatchResult.external_ref)
    else if decide (o.(DispatchResult.status) = "unknown") then DUnknown key
    else if decide (o.(DispatchResult.retry_after_ms) < 0)%Z then DFailedTerminal key
    else DFailedRetry key (int_or o.(DispatchResult.retry_after_ms) delay)
  end.

Lemma settle_dispatch_exact d w now db mb row outcome :
  wf d -> row.(StorageEffect.status) = EffectStatus.PENDING ->
  live d row.(StorageEffect.session) row.(StorageEffect.idempotency_key) = Some row ->
  known_outcome outcome ->
  settle_dispatch now_ms exn_text py_str now db mb (EffectRecord.from_row row) outcome (d, w)
    = (Ok (settle_audit now db mb row outcome),
       (with_effect (settled (now_ms w).1 now db mb outcome row) d, (now_ms w).2)).
Proof.
  intros Hwf Hst Hl Hknown. unfold settle_dispatch, svc, read_clock, on_fst.
  unfold mbind, M_bind. cbn [EffectRecord.from_row EffectRecord.session
    EffectRecord.idempotency_key EffectRecord.dispatch_attempts fst snd].
  destruct (now_ms w) as [clk w'] eqn:Ew. unfold settled, settle_audit, next_delay.
  assert (Hatt : forall e n, record_dispatch_attempt clk row.(StorageEffect.session)
      row.(StorageEffect.idempotency_key) e n d
    = (Ok (Some (EffectRecord.from_row (attempted clk e n row))),
       with_effect (attempted clk e n row) d)).
  { intros. rewrite record_dispatch_attempt_eval by done. by rewrite Hl. }
  assert (Hcomp : forall st r e, st ∈ [EffectStatus.CONFIRMED; EffectStatus.FAILED; EffectStatus.UNKNOWN] ->
    complete_effect clk row.(StorageEffect.session) row.(StorageEffect.idempotency_key) st r e d
    = (Ok (Some (EffectRecord.from_row (completed clk st r e row))),
       with_effect (completed clk st r e row) d)).
  { intros st r e Hin. rewrite complete_effect_eval by done. rewrite decide_True by done.
    rewrite Hl. by rewrite decide_False by (intros H; by apply H). }
  destruct outcome as [o|ex]; cbn [fst snd].
  2: { rewrite Ew. cbn. rewrite Hatt. done. }
  case_decide as H1; [|case_decide as H2; [|case_decide as H3; [case_decide|]]]; cbn [fst snd].
  - rewrite Ew. cbn [fst snd]. rewrite Hcomp by eval_decide. cbn [fst snd].
    case_decide; cbn [fst snd]; [done|]. 
    set (row' := completed clk _ _ _ row).
    assert (Hwf' : wf (with_effect row' d)).
    { apply (wf_with_effect _ _ row); [done..|]. apply completed_ok.
      unfold effect_statuses. set_solver. }
    rewrite (attach_external_ref_with _ _ _ _ row' Hwf').
    + rewrite with_effect_twice by apply set_external_ref_pk. done.
    + rewrite live_with_effect, Hl. unfold row'. by rewrite completed_pk, decide_True.
  - rewrite Ew. cbn [fst snd]. rewrite Hatt. done.
  - rewrite Ew. cbn [fst snd]. rewrite Hcomp by eval_decide. done.
  - rewrite Ew. cbn [fst snd]. rewrite Hatt. done.
  - exfalso. cbn in Hknown. unfold dispatch_statuses in Hknown. set_solver.
Qed.

Lemma settle_dispatch_eval d w now db mb row outcome :
  wf d -> row.(StorageEffect.status) = EffectStatus.PENDING ->
  live d row.(StorageEffect.session) row.(StorageEffect.idempotency_key) = Some row ->
  known_outcome outcome ->
  exists audit,
    settle_dispatch now_ms exn_text py_str now db mb (EffectRecord.from_row row) outcome (d, w)
      = (Ok audit, (with_effect (settled (now_ms w).1 now db mb outcome row) d, (now_ms w).2)).
Proof. intros. eexists. by apply settle_dispatch_exact. Qed.

Lemma leased_live clk claimer ttl row d s key :
  live d s key = Some row ->
  live (with_effect (leased claimer (clk + ttl) row) d) s key
    = Some (leased claimer (clk + ttl) row).
Proof.
  intros Hl. rewrite live_with_effect, Hl. rewrite decide_True; [done|].
  exact (live_pk _ _ _ _ Hl).
Qed.

(** The loop body for a listed effect whose row is still as listed: the claim is
    won, the connector is called once with the leased record, and the row is
    settled.  [clk1] and [w1] are the claim's clock reading. *)
Lemma dispatch_effect_exact d w now claimer ttl db mb row cname c clk1 w1 outcome w2 :
  wf d -> live d row.(StorageEffect.session) row.(StorageEffect.idempotency_key) = Some row ->
  row.(StorageEffect.connector) = Some cname -> connectors !! cname = Some c ->
  now_ms w = (clk1, w1) -> dispatchable (int_or now clk1) row ->
  let row1 := leased claimer (int_or now clk1 + ttl) row in
  Connector.dispatch c (EffectRecord.from_row row1) w1 = (outcome, w2) ->
  known_outcome outcome ->
  dispatch_effect now_ms exn_text py_str connectors now claimer ttl db mb
      (EffectRecord.from_row row) (d, w)
    = (Ok (settle_audit now db mb row1 outcome), (with_effect (settled (now_ms w2).1 now db mb outcome row1) d,
                  (now_ms w2).2)).
Proof.
  intros Hwf Hl Hc Hcs Hw1 Hd row1 Hcall Hknown.
  pose proof (leased_live (int_or now clk1) claimer ttl row d _ _ Hl) as Hl1. fold row1 in Hl1.
  assert (Hwf1 : wf (with_effect row1 d)).
  { apply (wf_with_effect _ _ row); [done|exact Hl|done|apply leased_ok]. }
  assert (Hst : row1.(StorageEffect.status) = EffectStatus.PENDING) by apply Hd.
  pose proof (settle_dispatch_exact (with_effect row1 d) w2 now db mb row1 outcome Hwf1 Hst Hl1
              Hknown) as Ha. unfold dispatch_effect.
  cbn [EffectRecord.from_row EffectRecord.session EffectRecord.idempotency_key
       EffectRecord.connector].
  rewrite Hc. cbn [mbind option_bind]. rewrite Hcs.
  unfold svc, read_clock, on_fst. unfold mbind, M_bind. rewrite Hw1.
  cbn [fst snd]. rewrite claim_effect_dispatch_eval by done. cbn zeta.
  rewrite Hl, decide_True by done. fold row1. cbn [fst snd negb].
  rewrite get_effect_eval by done. rewrite Hl1. cbn [fst snd fmap option_fmap option_map].
  rewrite decide_False by (intros H; by apply H).
  cbn [EffectRecord.from_row EffectRecord.connector].
  change (StorageEffect.connector row1) with (StorageEffect.connector row). rewrite Hc.
  cbn [option_bind]. rewrite Hcs. unfold attempt, ext.
  rewrite Hcall. cbn [fst snd]. rewrite Ha.
  by rewrite with_effect_twice by apply settled_pk.
Qed.

Lemma dispatch_effect_eval d w now claimer ttl db mb row cname c clk1 w1 outcome w2 :
  wf d -> live d row.(StorageEffect.session) row.(StorageEffect.idempotency_key) = Some row ->
  row.(StorageEffect.connector) = Some cname -> connectors !! cname = Some c ->
  now_ms w = (clk1, w1) -> dispatchable (int_or now clk1) row ->
  let row1 := leased claimer (int_or now clk1 + ttl) row in
  Connector.dispatch c (EffectRecord.from_row row1) w1 = (outcome, w2) ->
  known_outcome outcome ->
  exists audit,
    dispatch_effect now_ms exn_text py_str connectors now claimer ttl db mb
      (EffectRecord.from_row row) (d, w)
    = (Ok audit, (with_effect (settled (now_ms w2).1 now db mb outcome row1) d,
                  (now_ms w2).2)).
Proof. intros. eexists. by eapply dispatch_effect_exact. Qed.

Lemma dispatch_settled_wf d row1 row clk now db mb outcome claimer expires :
  wf d -> live d row.(StorageEffect.session) row.(StorageEffect.idempotency_key) = Some row ->
  row1 = leased claimer expires row ->
  wf (with_effect (settled clk now db mb outcome row1) d).
Proof.
  intros Hwf Hl ->. pose proof (settled_pk clk now db mb outcome (leased claimer expires row)) as Hpk.
  change (StorageEffect.pk (leased claimer expires row)) with (StorageEffect.pk row) in Hpk.
  injection Hpk as Hs Hk.
  apply (wf_with_effect _ _ row); [done|by rewrite Hs, Hk|by rewrite settled_business|].
  intros Hok. by apply settled_ok, leased_ok.
Qed.
End effects.

(** ** The drainer's turn *)
Section obligations.
Context {W : Type} (now_ms : W -> Z * W) (exn_text : exn -> string)
  (py_str : json -> string) (connectors : gmap string (Connector.t W)).

(** The connector a compensation goes through: the effect's, or the kind. *)
Definition compensator (d : Db.t) (o : StorageObligation.t) : string :=
  let eff := if decide (o.(StorageObligation.effect_key) = "") then None
             else live d o.(StorageObligation.session) o.(StorageObligation.effect_key) in
  default o.(StorageObligation.kind)
    (eff ≫= fun e => str_or_none e.(StorageEffect.connector)).

(** The row after the connector's answer, settled at [clk]. *)
Definition drained (clk now default_backoff max_backoff : Z) (attempts : Z)
    (outcome : result CompensationResult.t) (row : StorageObligation.t)
    : StorageObligation.t :=
  match outcome with
  | Err ex => obligation_attempted clk (exn_text ex)
                (now + backoff default_backoff max_backoff (attempts + 1)) row
  | Ok o =>
    if decide (o.(CompensationResult.status) = "compensated")
    then resolved clk ObligationStatus.COMPENSATED o.(CompensationResult.response) row
    else if decide (o.(CompensationResult.status) = "failed")
    then obligation_attempted clk
           (py_str (json_or o.(CompensationResult.error) (JStr "compensate failed")))
           (now + int_or o.(CompensationResult.retry_after_ms)
                    (Z.min (default_backoff * 2 ^ Z.max 0 attempts) max_backoff)) row
    else row
  end.

Lemma with_obligation_twice r r' d :
  StorageObligation.seq r' = StorageObligation.seq r ->
  with_obligation r' (with_obligation r d) = with_obligation r' d.
Proof.
  intros Hk. unfold with_obligation, Db.set_obligations. cbn. f_equal.
  unfold update_where. rewrite <-list_fmap_compose. apply list_fmap_ext.
  intros _ x _. cbn. rewrite Hk.
  destruct (decide (StorageObligation.seq x = StorageObligation.seq r)) as [H|H]; cbn.
  - rewrite !decide_True; done.
  - rewrite !decide_False; done.
Qed.

Lemma drained_seq clk now db mb n o row :
  StorageObligation.seq (drained clk now db mb n o row) = StorageObligation.seq row.
Proof.
  unfold drained, obligation_attempted. destruct o as [o|e]; repeat case_decide; done.
Qed.

Definition known_compensation (outcome : result CompensationResult.t) : Prop :=
  match outcome with
  | Err _ => True
  | Ok o => o.(CompensationResult.status) ∈ compensation_statuses
  end.

Lemma settle_compensation_eval d w now db mb ob row outcome :
  wf d -> obligation d ob.(ObligationRecord.seq) = Some row -> known_compensation outcome ->
  exists audit,
    settle_compensation now_ms exn_text py_str now db mb ob outcome (d, w)
    = (Ok audit, (with_obligation
         (drained (now_ms w).1 now db mb ob.(ObligationRecord.attempts) outcome row) d,
        (now_ms w).2)).
Proof.
  intros Hwf Hl Hknown. unfold settle_compensation, svc, read_clock, on_fst.
  unfold mbind, M_bind. destruct (now_ms w) as [clk w'] eqn:Ew. cbn [fst snd].
  unfold drained.
  assert (Hatt : forall e n, record_obligation_attempt clk ob.(ObligationRecord.seq) e n d
    = (Ok (Some (ObligationRecord.from_row (obligation_attempted clk e n row))),
       with_obligation (obligation_attempted clk e n row) d)).
  { intros. rewrite record_obligation_attempt_eval by done. by rewrite Hl. }
  destruct outcome as [o|ex].
  2: { cbn [fst snd]. rewrite Ew. cbn [fst snd]. rewrite Hatt. by eexists. }
  case_decide as H1; [|case_decide as H2]; cbn [fst snd].
  - rewrite Ew. cbn [fst snd]. rewrite resolve_obligation_eval by done.
    rewrite decide_True by eval_decide. rewrite Hl. by eexists.
  - rewrite Ew. cbn [fst snd]. rewrite Hatt. by eexists.
  - exfalso. cbn in Hknown. unfold compensation_statuses in Hknown. set_solver.
Qed.

Lemma drain_obligation_eval d w now claimer ttl db mb row c clk1 w1 outcome w2 :
  wf d -> obligation d row.(StorageObligation.seq) = Some row ->
  connectors !! compensator d row = Some c ->
  now_ms w = (clk1, w1) -> claimable (int_or now clk1) row ->
  Connector.compensate c (ObligationRecord.from_row row) w1 = (outcome, w2) ->
  known_compensation outcome ->
  let row1 := committed_to claimer (int_or now clk1 + ttl) row in
  exists audit,
    drain_obligation now_ms exn_text py_str connectors now claimer ttl db mb
      (ObligationRecord.from_row row) (d, w)
    = (Ok audit, (with_obligation (drained (now_ms w2).1 now db mb
                    row.(StorageObligation.attempts) outcome row1) d, (now_ms w2).2)).
Proof.
  intros Hwf Hl Hc Hw1 Hcl Hcall Hknown row1.
  assert (Hseq : StorageObligation.seq row1 = StorageObligation.seq row) by done.
  assert (Hwf1 : wf (with_obligation row1 d)).
  { eapply (wf_with_obligation d _ row); [done|exact Hl|done|done|].
    apply committed_to_ok. by eapply claimable_active. }
  assert (Hl1 : obligation (with_obligation row1 d) row.(StorageObligation.seq) = Some row1).
  { rewrite obligation_with, Hl. by rewrite decide_True. }
  destruct (settle_compensation_eval (with_obligation row1 d) w2 now db mb
    (ObligationRecord.from_row row) row1 outcome Hwf1 Hl1 Hknown) as (audit & Ha).
  exists audit. unfold drain_obligation.
  cbn [ObligationRecord.from_row ObligationRecord.session ObligationRecord.effect_key
       ObligationRecord.kind ObligationRecord.seq].
  unfold mbind, M_bind.
  set (look := if decide (StorageObligation.effect_key row = "") then _ else _).
  assert (Hlook : look (d, w) = (Ok (if decide (StorageObligation.effect_key row = "") then None
             else EffectRecord.from_row <$> live d row.(StorageObligation.session)
                    row.(StorageObligation.effect_key)), (d, w))).
  { unfold look. case_decide; [done|]. unfold on_fst. cbn [fst snd].
    by rewrite get_effect_eval. }
  rewrite Hlook. clear Hlook look.
  assert (default (StorageObligation.kind row)
    (option_bind _ _ (fun e : EffectRecord.t => str_or_none (EffectRecord.connector e))
       (if decide (StorageObligation.effect_key row = "") then None
        else EffectRecord.from_row <$> live d (StorageObligation.session row)
               (StorageObligation.effect_key row))) = compensator d row) as ->.
  { unfold compensator. case_decide; [done|]. by destruct (live _ _ _). }
  rewrite Hc. unfold svc, read_clock, on_fst. unfold mbind, M_bind. rewrite Hw1.
  cbn [fst snd]. rewrite claim_obligation_eval by done. cbn zeta.
  rewrite Hl, decide_True by done. fold row1. cbn [fst snd negb].
  unfold attempt, ext. rewrite Hcall. cbn [fst snd]. rewrite Ha.
  rewrite with_obligation_twice by apply drained_seq. done.
Qed.
End obligations.
