(* ===== verification/ReactorTheorems.v ===== *)
(** * ReactorTheorems: what a tick of each reactor does

    The dispatcher's outcome table, a whole tick against [LogConnector], the
    backoff, the compensation drainer's table, timers, and three places where a
    tick does less, or more, than it says. *)
From S2P Require Import Prelude Sql Schemas EffectLedger ObligationLedger TimersValues.
From S2P Require Import Connectors Reactors WellFormed Samples EffectFacts ObligationTheorems.
From S2P Require Import TimersTheorems ReactorFacts.

(** ** The dispatcher *)

(** An answer that schedules no further dispatch *)
Definition settles (outcome : result DispatchResult.t) : Prop :=
  match outcome with
  | Ok o => o.(DispatchResult.status) = "confirmed" \/ o.(DispatchResult.status) = "unknown" \/
            (o.(DispatchResult.retry_after_ms) < 0)%Z
  | Err _ => False
  end.

(** C17: The dispatcher's outcome table.  For a listed effect that is still dispatchable and
    whose connector is registered and lawful, one turn of the loop calls the connector
    exactly once, with the record it has leased, and writes that row only, every column of
    it: the lease released, the timestamp, and, when confirmed, CONFIRMED with the response
    and the reference (an empty one keeps the old); when the acknowledgement was lost,
    UNKNOWN, one attempt up, with the error's text and no next dispatch; when the connector
    gave up, FAILED with the error; and otherwise PENDING, one attempt up, with the error's
    text and due again after the connector's delay or the backoff.  A non-idempotent effect
    is covered when the answer schedules no further dispatch. *)
Theorem dispatch_outcomes {W} (now_ms : W -> Z * W) exn_text py_str connectors
    d w now claimer ttl db mb row cname c `{!LawfulConnector c} clk1 w1 outcome w2 :
  wf d -> live d row.(StorageEffect.session) row.(StorageEffect.idempotency_key) = Some row ->
  row.(StorageEffect.connector) = Some cname -> connectors !! cname = Some c ->
  now_ms w = (clk1, w1) -> dispatchable (int_or now clk1) row ->
  let row1 := leased claimer (int_or now clk1 + ttl) row in
  Connector.dispatch c (EffectRecord.from_row row1) w1 = (outcome, w2) ->
  (row.(StorageEffect.semantics) = EffectSemantics.NON_IDEMPOTENT -> settles outcome) ->
  (0 < now)%Z -> (0 < db)%Z -> (0 < mb)%Z ->
  exists audit row',
    dispatch_effect now_ms exn_text py_str connectors now claimer ttl db mb
      (EffectRecord.from_row row) (d, w) = (Ok audit, (with_effect row' d, (now_ms w2).2)) /\
    let becomes status external_ref attempts next error response_json error_json :=
      row' = StorageEffect.mk row.(StorageEffect.session) row.(StorageEffect.idempotency_key)
        row.(StorageEffect.invocation_id) row.(StorageEffect.decision_index) row.(StorageEffect.tool_name)
        row.(StorageEffect.call_index) status row.(StorageEffect.semantics) row.(StorageEffect.dispatch_mode)
        row.(StorageEffect.business_key) row.(StorageEffect.connector) external_ref attempts next None 0
        error row.(StorageEffect.request_json) response_json error_json (now_ms w2).1 in
    let attempts := (row.(StorageEffect.dispatch_attempts) + 1)%Z in
    let retry text delay :=
      becomes EffectStatus.PENDING row.(StorageEffect.external_ref) attempts (now + delay)%Z (Some text)
        row.(StorageEffect.response_json) row.(StorageEffect.error_json) in
    let wait := Z.min (db * 2 ^ Z.max 0 (attempts - 1)) mb in
    match outcome with
    | Err ex => retry (exn_text ex) wait
    | Ok o =>
      let error default := py_str (json_or o.(DispatchResult.error) (JStr default)) in
      if decide (o.(DispatchResult.status) = "confirmed") then
        becomes EffectStatus.CONFIRMED
          (if decide (o.(DispatchResult.external_ref) = "") then row.(StorageEffect.external_ref)
           else Some o.(DispatchResult.external_ref))
          row.(StorageEffect.dispatch_attempts) row.(StorageEffect.next_dispatch_at_ms)
          row.(StorageEffect.last_dispatch_error) o.(DispatchResult.response) JNull
      else if decide (o.(DispatchResult.status) = "unknown") then
        becomes EffectStatus.UNKNOWN row.(StorageEffect.external_ref) attempts 0%Z (Some (error "ack lost"))
          row.(StorageEffect.response_json) row.(StorageEffect.error_json)
      else if decide (o.(DispatchResult.retry_after_ms) < 0)%Z then
        becomes EffectStatus.FAILED row.(StorageEffect.external_ref)
          row.(StorageEffect.dispatch_attempts) row.(StorageEffect.next_dispatch_at_ms)
          row.(StorageEffect.last_dispatch_error) JNull o.(DispatchResult.error)
      else retry (error "dispatch failed") (int_or o.(DispatchResult.retry_after_ms) wait)
    end.
Proof.
  intros Hwf Hl Hc Hcs Hw1 Hd row1 Hcall _ Hnow Hdb Hmb.
  assert (Hknown : known_outcome outcome).
  { destruct outcome as [o|]; [|done]. by eapply (lawful_dispatch (c := c)). }
  destruct (dispatch_effect_eval now_ms exn_text py_str connectors d w now claimer ttl db mb
    row cname c clk1 w1 outcome w2 Hwf Hl Hc Hcs Hw1 Hd Hcall Hknown) as (audit & Ha).
  fold row1 in Ha.
  assert (Hdelay : (0 < next_delay db mb row)%Z).
  { unfold next_delay, backoff. apply Z.min_glb_lt; [|done].
    apply Z.mul_pos_pos; [done|]. apply Z.pow_pos_nonneg; lia. }
  assert (Hp : row.(StorageEffect.status) = EffectStatus.PENDING) by apply Hd.
  assert (Hn : forall n, int_or n 0 = n) by (intros n; unfold int_or; destruct (Z.eqb_spec n 0); lia).
  exists audit, (settled exn_text py_str (now_ms w2).1 now db mb outcome row1).
  split; [done|]. cbn zeta.
  assert (Hdel : forall x, (0 <= x)%Z -> (0 < int_or x (next_delay db mb row))%Z)
    by (intros x Hx; unfold int_or; destruct (Z.eqb_spec x 0); lia).
  unfold settled. cbn zeta.
  change (next_delay db mb row1) with (next_delay db mb row).
  change (Z.min (db * _) mb) with (next_delay db mb row). rewrite <- Hp.
  destruct outcome as [o|ex].
  - cbn in Hknown. unfold attempted. repeat case_decide; try done;
      rewrite ?Hn; try done; try (exfalso; unfold dispatch_statuses in Hknown; set_solver).
    all: exfalso; specialize (Hdel (DispatchResult.retry_after_ms o)); lia.
  - unfold attempted. rewrite decide_False by lia. cbn. by rewrite Hn.
Qed.

(** A clock that stands still during a tick. *)
Definition frozen {W} (t : Z) : W -> Z * W := fun w => (t, w).
Definition no_exn_text : exn -> string := fun _ => "boom".
Definition no_py_str : json -> string := fun _ => "".
Definition log_registry : gmap string (Connector.t Log.t) := {[ "bank" := LogConnector ]}.
Definition log0 : Log.t := Log.mk [] [] [].
Definition wire_row : StorageEffect.t := fresh_effect 1000 (wire "inv-1").

Lemma dispatch_outcomes_witness :
  exists audit row',
    dispatch_effect (frozen 2000) no_exn_text no_py_str log_registry 2000 "d1" 60000 5000
      300000 (EffectRecord.from_row wire_row) (db_wire, log0)
    = (Ok audit, (with_effect row' db_wire,
         Log.mk [EffectRecord.from_row (leased "d1" 62000 wire_row)] [] [])) /\
    row'.(StorageEffect.status) = EffectStatus.CONFIRMED.
Proof.
  destruct (dispatch_outcomes (frozen 2000) no_exn_text no_py_str log_registry db_wire log0
    2000 "d1" 60000 5000 300000 wire_row "bank" LogConnector 2000 log0
    (Ok {| DispatchResult.status := "confirmed"; DispatchResult.external_ref := "log-inv-1/de";
           DispatchResult.response := JNull; DispatchResult.error := JNull;
           DispatchResult.retry_after_ms := 0 |})
    (Log.mk [EffectRecord.from_row (leased "d1" 62000 wire_row)] [] []))
    as (audit & row' & H & Hst).
  - eval_decide.
  - vm_compute. reflexivity.
  - reflexivity.
  - reflexivity.
  - reflexivity.
  - eval_decide.
  - reflexivity.
  - intros _. by left.
  - lia.
  - lia.
  - lia.
  - exists audit, row'. split; [exact H|]. cbn in Hst. by rewrite Hst.
Defined.

(** ** A whole tick *)

(** Dispatching a list of dispatchable rows through [LogConnector]. *)
Lemma log_dispatch_rows t claimer ttl db mb rows d w :
  (0 < t)%Z -> wf d -> keyed StorageEffect.pk rows ->
  Forall (fun r => live d r.(StorageEffect.session) r.(StorageEffect.idempotency_key) = Some r /\
                   dispatchable t r /\ r.(StorageEffect.connector) = Some "bank") rows ->
  exists audits d' w',
    for_each (EffectRecord.from_row <$> rows)
      (dispatch_effect (frozen t) no_exn_text no_py_str log_registry t claimer ttl db mb) (d, w)
    = (Ok audits, (d', w')) /\ wf d' /\
    w'.(Log.dispatches) = w.(Log.dispatches)
       ++ ((fun r => EffectRecord.from_row (leased claimer (t + ttl) r)) <$> rows) /\
    forall s key, live d' s key =
      match live d s key with
      | Some r => Some (if decide (StorageEffect.pk r ∈ StorageEffect.pk <$> rows)
          then StorageEffect.set_external_ref
                 (Some ("log-" +:+ String.substring 0 8 key))
                 (completed t EffectStatus.CONFIRMED JNull JNull (leased claimer (t + ttl) r))
          else r)
      | None => None
      end.
Proof.
  intros Ht. revert d w. induction rows as [|r rows IH]; intros d w Hwf Hk Hrows.
  { exists [], d, w. split; [done|]. split; [done|]. split; [by rewrite app_nil_r|].
    intros s key. destruct (live d s key) as [x|]; [|done].
    by rewrite decide_False by (intros H; by apply elem_of_nil in H). }
  apply Forall_cons in Hrows as [(Hl & Hd & Hc) Hrows].
  apply keyed_cons in Hk as [Hnew Hk].
  assert (Ht' : int_or t t = t) by (unfold int_or; destruct (Z.eqb_spec t 0); lia).
  set (row1 := leased claimer (t + ttl) r).
  set (outcome := Ok {| DispatchResult.status := "confirmed";
         DispatchResult.external_ref :=
           "log-" +:+ String.substring 0 8 r.(StorageEffect.idempotency_key);
         DispatchResult.response := JNull; DispatchResult.error := JNull;
         DispatchResult.retry_after_ms := 0 |}).
  set (w1 := Log.mk (w.(Log.dispatches) ++ [EffectRecord.from_row row1])
               w.(Log.observations) w.(Log.compensations)).
  destruct (dispatch_effect_eval (frozen t) no_exn_text no_py_str log_registry d w t claimer
    ttl db mb r "bank" LogConnector t w outcome w1 Hwf Hl Hc eq_refl eq_refl)
    as (audit & Ha).
  { by rewrite Ht'. }
  { unfold outcome, w1, row1. by rewrite Ht'. }
  { unfold known_outcome, outcome, dispatch_statuses. cbn. set_solver. }
  rewrite Ht' in Ha. fold row1 in Ha. cbn [frozen fst snd] in Ha.
  set (row' := settled no_exn_text no_py_str t t db mb outcome row1) in *.
  set (d1 := with_effect row' d) in *.
  assert (Hwf1 : wf d1) by (by eapply dispatch_settled_wf).
  assert (Hrow' : row' = StorageEffect.set_external_ref
    (Some ("log-" +:+ String.substring 0 8 r.(StorageEffect.idempotency_key)))
    (completed t EffectStatus.CONFIRMED JNull JNull row1)).
  { unfold row', settled, outcome. cbn [DispatchResult.status DispatchResult.external_ref
      DispatchResult.response]. rewrite decide_True by done. by rewrite decide_False. }
  assert (Hpk' : StorageEffect.pk row' = StorageEffect.pk r) by (unfold row'; by rewrite settled_pk).
  assert (Hlive1 : forall s key, live d1 s key =
    if decide (StorageEffect.pk r = (s, key)) then Some row' else live d s key).
  { intros s key. unfold d1. rewrite live_with_effect, Hpk'. case_decide as E; [|done].
    injection E as <- <-. by rewrite Hl. }
  destruct (IH d1 w1 Hwf1 Hk) as (audits & d' & w' & Hrun & Hwf' & Hw' & Hlive').
  { apply row_at_None in Hnew.
    eapply Forall_impl; [apply Forall_and; split; [exact Hrows|exact Hnew]|].
    intros x [(Hlx & ?) Hne]. split; [|done]. rewrite Hlive1.
    rewrite decide_False; [done|]. intros Heq. by apply Hne. }
  exists (audit :: audits), d', w'. split; [|split; [done|split]].
  - cbn [fmap list_fmap for_each]. unfold mbind, M_bind. rewrite Ha. cbn [fst snd].
    rewrite Hrun. done.
  - rewrite Hw'. cbn. by rewrite <-app_assoc.
  - intros s key. rewrite Hlive', Hlive1. case_decide as E.
    + injection E as <- <-. rewrite Hl. f_equal.
      rewrite decide_False, decide_True; [by rewrite Hrow'|by left|].
      rewrite Hpk'. intros (x & Hx & Hin)%list_elem_of_fmap.
      apply row_at_None in Hnew. rewrite Forall_forall in Hnew. by apply (Hnew x Hin).
    + destruct (live d s key) as [x|] eqn:Ex; [|done]. f_equal. apply decide_ext.
      cbn. rewrite elem_of_cons. apply live_pk in Ex. rewrite Ex. naive_solver.
Qed.

(** The queue of one tick. *)
Definition outbox_rows (now : Z) (lim : nat) (d : Db.t) : list StorageEffect.t :=
  limit lim (order_by StorageEffect.ts_ms
    (select_where (fun r => dispatchable now r /\
       ("" = "" \/ r.(StorageEffect.connector) = Some "")) d.(Db.effects))).

Lemma outbox_rows_live now lim d r :
  wf d -> r ∈ outbox_rows now lim d ->
  live d r.(StorageEffect.session) r.(StorageEffect.idempotency_key) = Some r /\
  dispatchable now r.
Proof.
  intros Hwf [[Hd _] Hin]%elem_of_limit%elem_of_order_by%elem_of_select. split; [|done].
  apply row_at_Some; [apply Hwf|done].
Qed.

(** C40: A tick drains the outbox, each effect once.  Against [LogConnector] and a
    clock that stands still during the tick, one tick of [dispatch_outbox_once]
    calls the connector for exactly the listed effects, in the queue's order and
    once each; afterwards each of them is CONFIRMED with its external reference,
    every other row is as it was, and none of them is listed again. *)
Theorem log_tick_drains_outbox t lim claimer ttl db mb d w :
  (0 < t)%Z -> wf d ->
  Forall (fun r => r.(StorageEffect.connector) = Some "bank") (outbox_rows t lim d) ->
  exists audits d' w',
    dispatch_outbox_once (frozen t) no_exn_text no_py_str log_registry claimer lim ttl db mb
      (d, w) = (Ok audits, (d', w')) /\ wf d' /\
    EffectRecord.idempotency_key <$> w'.(Log.dispatches)
      = (EffectRecord.idempotency_key <$> w.(Log.dispatches))
        ++ (StorageEffect.idempotency_key <$> outbox_rows t lim d) /\
    (forall r, r ∈ outbox_rows t lim d ->
       exists r', live d' r.(StorageEffect.session) r.(StorageEffect.idempotency_key) = Some r' /\
         r'.(StorageEffect.status) = EffectStatus.CONFIRMED /\
         (forall now, ~ dispatchable now r')) /\
    (forall s key, ((s, key) ∉ StorageEffect.pk <$> outbox_rows t lim d) ->
       live d' s key = live d s key).
Proof.
  intros Ht Hwf Hc.
  destruct (log_dispatch_rows t claimer ttl db mb (outbox_rows t lim d) d w Ht Hwf)
    as (audits & d' & w' & Hrun & Hwf' & Hw & Hlive).
  { apply keyed_query, Hwf. }
  { apply Forall_forall. intros r Hr. rewrite Forall_forall in Hc.
    destruct (outbox_rows_live t lim d r Hwf Hr). auto. }
  exists audits, d', w'. split; [|split; [done|split; [|split]]].
  - unfold dispatch_outbox_once, svc, read_clock, on_fst. unfold mbind, M_bind.
    cbv beta iota zeta delta [frozen fst snd]. rewrite list_effects_to_dispatch_eval.
    assert (int_or t t = t) as -> by (unfold int_or; by destruct (t =? 0)%Z).
    exact Hrun.
  - rewrite Hw, fmap_app. f_equal. by rewrite <-list_fmap_compose.
  - intros r Hr. destruct (outbox_rows_live t lim d r Hwf Hr) as [Hl _].
    rewrite Hlive, Hl. eexists. split; [done|].
    rewrite decide_True by (by apply list_elem_of_fmap_2).
    split; [done|]. by intros now (H & _).
  - intros s key Hni. rewrite Hlive. destruct (live d s key) as [x|] eqn:E; [|done].
    apply live_pk in E. rewrite decide_False; [done|]. by rewrite E.
Qed.

Lemma log_tick_drains_outbox_witness :
  exists audits d' w',
    dispatch_outbox_once (frozen 2000) no_exn_text no_py_str log_registry "d1" 50 60000 5000
      300000 (db_wire, log0) = (Ok audits, (d', w')) /\
    EffectRecord.idempotency_key <$> w'.(Log.dispatches) = [wire_key].
Proof.
  destruct (log_tick_drains_outbox 2000 50 "d1" 60000 5000 300000 db_wire log0)
    as (audits & d' & w' & H & _ & Hw & _).
  - lia.
  - eval_decide.
  - eval_decide.
  - exists audits, d', w'. exact (conj H Hw).
Defined.

(** ** Backoff *)

Lemma backoff_le db mb a a' :
  (0 < db)%Z -> (a <= a')%Z -> (backoff db mb a <= backoff db mb a')%Z.
Proof.
  intros Hdb Ha. unfold backoff. apply Z.min_le_compat_r.
  apply Z.mul_le_mono_nonneg_l; [lia|]. apply Z.pow_le_mono_r; lia.
Qed.

(** The exponential backoff is bounded and monotone, and doubles until it is
    capped: with positive parameters it is positive, at most the maximum, at
    least the default once the default is no larger than the maximum, never
    smaller for a later attempt, and the retry it schedules is in the future. *)
Theorem backoff_bounds db mb attempts attempts' now :
  (0 < db <= mb)%Z -> (1 <= attempts <= attempts')%Z ->
  (db <= backoff db mb attempts <= mb)%Z /\
  (backoff db mb attempts <= backoff db mb attempts')%Z /\
  backoff db mb (attempts + 1) = Z.min (2 * backoff db mb attempts) mb /\
  (now < now + backoff db mb attempts)%Z.
Proof.
  intros Hdb Ha.
  assert (H1 : (db <= backoff db mb attempts)%Z).
  { etrans; [|apply (backoff_le db mb 1 attempts); lia]. unfold backoff.
    change (2 ^ Z.max 0 (1 - 1))%Z with 1%Z. lia. }
  split; [split; [done|apply Z.le_min_r]|]. split; [apply backoff_le; lia|].
  split; [|lia]. unfold backoff.
  replace (Z.max 0 (attempts + 1 - 1)) with (Z.succ (Z.max 0 (attempts - 1))) by lia.
  rewrite Z.pow_succ_r by lia. lia.
Qed.

Lemma backoff_bounds_witness :
  backoff 5000 300000 4 = 40000%Z /\ (5000 <= backoff 5000 300000 4 <= 300000)%Z.
Proof.
  split; [reflexivity|]. apply (backoff_bounds 5000 300000 4 9 0); lia.
Defined.

(** ** The drainer *)

(** The drainer's outcome table.  For a listed obligation that is still
    claimable and whose connector (the effect's, else the one named by its kind)
    is registered and lawful, one turn claims it, calls [compensate] once with
    the listed record and leaves it unclaimed and: COMPENSATED with the response,
    or else one attempt up and PENDING until the backoff is over, or STUCK once
    its attempts are used up.  No other row changes. *)
Theorem drain_outcomes {W} (now_ms : W -> Z * W) exn_text py_str connectors
    d w now claimer ttl db mb row c `{!LawfulConnector c} clk1 w1 outcome w2 :
  wf d -> obligation d row.(StorageObligation.seq) = Some row ->
  connectors !! compensator d row = Some c ->
  now_ms w = (clk1, w1) -> claimable (int_or now clk1) row ->
  Connector.compensate c (ObligationRecord.from_row row) w1 = (outcome, w2) ->
  (0 < now)%Z -> (0 < db)%Z -> (0 < mb)%Z ->
  match outcome with
  | Ok o => (0 <= o.(CompensationResult.retry_after_ms))%Z | Err _ => True end ->
  exists audit row',
    drain_obligation now_ms exn_text py_str connectors now claimer ttl db mb
      (ObligationRecord.from_row row) (d, w)
    = (Ok audit, (with_obligation row' d, (now_ms w2).2)) /\
    StorageObligation.seq row' = StorageObligation.seq row /\
    row'.(StorageObligation.claimed_by) = None /\
    let failed :=
      row'.(StorageObligation.attempts) = (row.(StorageObligation.attempts) + 1)%Z /\
      if decide (row.(StorageObligation.max_attempts)
                 <= row.(StorageObligation.attempts) + 1)%Z
      then row'.(StorageObligation.status) = ObligationStatus.STUCK
      else row'.(StorageObligation.status) = ObligationStatus.PENDING /\
           (now < row'.(StorageObligation.next_attempt_at_ms))%Z in
    match outcome with
    | Err _ => failed
    | Ok o =>
      if decide (o.(CompensationResult.status) = "compensated") then
        row'.(StorageObligation.status) = ObligationStatus.COMPENSATED /\
        row'.(StorageObligation.result_json) = o.(CompensationResult.response)
      else failed
    end.
Proof.
  intros Hwf Hl Hc Hw1 Hcl Hcall Hnow Hdb Hmb Hretry.
  assert (Hknown : known_compensation outcome).
  { destruct outcome as [o|]; [|done]. by eapply (lawful_compensate (c := c)). }
  destruct (drain_obligation_eval now_ms exn_text py_str connectors d w now claimer ttl db mb
    row c clk1 w1 outcome w2 Hwf Hl Hc Hw1 Hcl Hcall Hknown) as (audit & Ha).
  set (row1 := committed_to claimer (int_or now clk1 + ttl) row) in Ha.
  exists audit, (drained exn_text py_str (now_ms w2).1 now db mb
                   row.(StorageObligation.attempts) outcome row1).
  split; [done|]. split; [by rewrite drained_seq|].
  assert (Hn : int_or row.(StorageObligation.attempts) 0 = row.(StorageObligation.attempts))
    by (unfold int_or; destruct (Z.eqb_spec row.(StorageObligation.attempts) 0); lia).
  assert (Hpow : forall k, (0 < Z.min (db * 2 ^ Z.max 0 k) mb)%Z).
  { intros k. apply Z.min_glb_lt; [|done]. apply Z.mul_pos_pos; [done|].
    apply Z.pow_pos_nonneg; lia. }
  assert (Hfail : forall e delay, (0 < delay)%Z ->
    let r := obligation_attempted (now_ms w2).1 e (now + delay) row1 in
    r.(StorageObligation.claimed_by) = None /\
    r.(StorageObligation.attempts) = (row.(StorageObligation.attempts) + 1)%Z /\
    if decide (row.(StorageObligation.max_attempts)
               <= row.(StorageObligation.attempts) + 1)%Z
    then r.(StorageObligation.status) = ObligationStatus.STUCK
    else r.(StorageObligation.status) = ObligationStatus.PENDING /\
         (now < r.(StorageObligation.next_attempt_at_ms))%Z).
  { intros e delay Hdelay. unfold obligation_attempted.
    change (StorageObligation.attempts row1) with (StorageObligation.attempts row).
    rewrite Hn. cbn -[Z.add].
    destruct (decide (StorageObligation.max_attempts row
                      <= StorageObligation.attempts row + 1)%Z).
    - rewrite decide_True by lia. done.
    - rewrite decide_False by lia. cbn -[Z.add]. split; [done|].
      split; [done|]. split; [done|lia]. }
  destruct outcome as [o|ex]; cbn [drained].
  - cbn in Hknown, Hretry. unfold compensation_statuses in Hknown.
    destruct (decide (CompensationResult.status o = "compensated")); [done|].
    rewrite decide_True by set_solver. apply Hfail. unfold int_or.
    destruct (Z.eqb_spec (CompensationResult.retry_after_ms o) 0); [apply Hpow|lia].
  - apply Hfail. unfold backoff. apply Hpow.
Qed.

Definition reverse_row : StorageObligation.t := fresh_obligation 4000 reverse_wire 1.

Lemma drain_outcomes_witness :
  exists audit row',
    drain_obligation (frozen 9000) no_exn_text no_py_str log_registry 9000 "r1" 60000 5000
      300000 (ObligationRecord.from_row reverse_row) (db_obliged, log0)
    = (Ok audit, (with_obligation row' db_obliged,
         Log.mk [] [] [ObligationRecord.from_row reverse_row])) /\
    row'.(StorageObligation.status) = ObligationStatus.COMPENSATED.
Proof.
  destruct (drain_outcomes (frozen 9000) no_exn_text no_py_str log_registry db_obliged log0
    9000 "r1" 60000 5000 300000 reverse_row LogConnector 9000 log0
    (Ok {| CompensationResult.status := "compensated"; CompensationResult.response := JNull;
           CompensationResult.error := JNull; CompensationResult.retry_after_ms := 0 |})
    (Log.mk [] [] [ObligationRecord.from_row reverse_row]))
    as (audit & row' & H & _ & _ & Hst).
  - eval_decide.
  - vm_compute. reflexivity.
  - vm_compute. reflexivity.
  - reflexivity.
  - eval_decide.
  - reflexivity.
  - lia.
  - lia.
  - lia.
  - reflexivity || (cbn; lia).
  - exists audit, row'. exact (conj H (proj1 Hst)).
Defined.

(** ** Where a tick falls short *)

(** A duplicate whose compensation is already registered blocks the
    reconciler.  When the oldest listed effect is observed as a DUPLICATE and an
    obligation of the reported kind exists for it, the tick raises
    [IntegrityError]: the database is left as it was, so every later tick meets
    the same effect first, and no effect behind it is observed. *)
Theorem reconcile_poisoned {W} (now_ms : W -> Z * W) connectors d w lim row rest cname c
    obs w1 o :
  wf d ->
  list_pending_effects 0 false true lim d
    = (Ok (EffectRecord.from_row row :: rest), d) ->
  live d row.(StorageEffect.session) row.(StorageEffect.idempotency_key) = Some row ->
  row.(StorageEffect.connector) = Some cname -> connectors !! cname = Some c ->
  Connector.observe c (EffectRecord.from_row row) w = (Ok obs, w1) ->
  obs.(ObservationResult.status) = EffectResolution.DUPLICATE ->
  obs.(ObservationResult.compensate_kind) <> "" ->
  row_at StorageObligation.uq
    (row.(StorageEffect.session), row.(StorageEffect.idempotency_key),
     obs.(ObservationResult.compensate_kind)) d.(Db.obligations) = Some o ->
  reconcile_once now_ms connectors 0 lim (d, w)
    = (Err IntegrityError, (d, (now_ms w1).2)).
Proof.
  intros Hwf Hq Hl Hc Hcs Hobs Hdup Hkind Ho.
  unfold reconcile_once. rewrite decide_False by lia. rewrite bool_decide_false by lia.
  unfold on_fst. unfold mbind, M_bind, mret, M_ret. cbn [fst snd]. rewrite Hq.
  cbn [fst snd for_each]. unfold reconcile_effect.
  cbn [EffectRecord.from_row EffectRecord.session EffectRecord.idempotency_key
       EffectRecord.connector].
  assert (Hne : str_or_none (StorageEffect.connector row) = Some cname).
  { destruct (wf_effect_at _ _ _ Hwf Hl) as ([_ _ _ Hn _ _ _] & _). rewrite Hc in *.
    by destruct cname. }
  rewrite Hne. cbn [default from_option]. unfold id. rewrite Hcs.
  unfold mbind, M_bind, attempt, ext. rewrite Hobs. cbn [fst snd].
  unfold svc, read_clock, on_fst. unfold mbind, M_bind.
  destruct (now_ms w1) as [clk w2]. cbn [fst snd].
  rewrite record_external_observation_eval by done. rewrite Hl, Hdup.
  change (observed EffectResolution.DUPLICATE (ObservationResult.external_ref obs)
    (ObservationResult.response obs) (ObservationResult.error obs) row)
    with (Some (StorageEffect.set_response_json (ObservationResult.response obs)
      (StorageEffect.set_external_ref
        (str_or_opt (ObservationResult.external_ref obs) row.(StorageEffect.external_ref))
        (StorageEffect.set_status EffectStatus.CONFIRMED row)))).
  cbv iota zeta. rewrite decide_True by done.
  rewrite insert_obligation_err; [done|]. intros (_ & Huq & _). unfold with_effect in Huq.
  change (row_at StorageObligation.uq
    (row.(StorageEffect.session), row.(StorageEffect.idempotency_key),
     obs.(ObservationResult.compensate_kind)) d.(Db.obligations) = None) in Huq.
  congruence.
Qed.

(** A counterparty that reports every effect as a duplicate. *)
Definition dup_obs : ObservationResult.t := {|
  ObservationResult.status := "duplicate"; ObservationResult.external_ref := "w-9";
  ObservationResult.response := JNull; ObservationResult.error := JNull;
  ObservationResult.compensate_kind := "reverse_wire" |}.
Definition DupConnector : Connector.t Log.t := {|
  Connector.name := "dup";
  Connector.dispatch := log_dispatch;
  Connector.observe := fun e w => (Ok dup_obs,
    Log.mk w.(Log.dispatches) (w.(Log.observations) ++ [e]) w.(Log.compensations));
  Connector.compensate := log_compensate
|}.
Definition db_poisoned : Db.t :=
  run_state (register_compensation 4000 reverse_wire) db_unknown.
Definition unknown_row : StorageEffect.t :=
  attempted 3000 "ack lost" 0 (leased "d1" 62000 (fresh_effect 1000 (wire "inv-1"))).

Lemma reconcile_poisoned_witness :
  reconcile_once (frozen 9000) {[ "bank" := DupConnector ]} 0 50 (db_poisoned, log0)
    = (Err IntegrityError,
       (db_poisoned, Log.mk [] [EffectRecord.from_row unknown_row] [])).
Proof.
  apply (reconcile_poisoned (frozen 9000) {[ "bank" := DupConnector ]} db_poisoned log0 50
    unknown_row [] "bank" DupConnector dup_obs
    (Log.mk [] [EffectRecord.from_row unknown_row] []) reverse_row).
  - eval_decide.
  - vm_compute. reflexivity.
  - vm_compute. reflexivity.
  - reflexivity.
  - reflexivity.
  - reflexivity.
  - reflexivity.
  - discriminate.
  - vm_compute. reflexivity.
Defined.

Lemma fire_one {W} (f : TimerRecord.t -> M W unit) t (d : Db.t) (w : W) :
  exists audit, fire_timer (Some f) t (d, w) = (Ok audit, (d, (f t w).2)).
Proof.
  unfold fire_timer, attempt, ext. unfold mbind, M_bind. destruct (f t w). by eexists.
Qed.

Lemma fire_all {W} (f : TimerRecord.t -> M W unit) ts (d : Db.t) (w : W) :
  exists audits w', for_each ts (fire_timer (Some f)) (d, w) = (Ok audits, (d, w')) /\
    length audits = length ts.
Proof.
  revert w. induction ts as [|t ts IH]; intros w; [by exists [], w|].
  cbn [for_each]. unfold mbind, M_bind. destruct (fire_one f t d w) as [a ->].
  destruct (IH (f t w).2) as (audits & w' & -> & Hlen).
  eexists _, w'. split; [done|]. cbn. by rewrite Hlen.
Qed.

(** A timer fires at most once, even when its handler fails.  Whatever the
    handler does, raising included, a tick returns, hands it exactly the due
    timers of the tick, and marks each of them fired: no later query lists one of
    them again, so a timer whose handler raised is lost. *)
Theorem timers_fire_at_most_once {W} (now_ms : W -> Z * W) f lim d w now w0 clk w1 :
  wf d -> now_ms w = (now, w0) -> now_ms w0 = (clk, w1) ->
  exists audits d' w',
    fire_due_timers_once now_ms (Some f) lim (d, w) = (Ok audits, (d', w')) /\ wf d' /\
    length audits = length (due_rows (int_or now clk) lim d) /\
    forall r now' lim', r ∈ due_rows (int_or now clk) lim d ->
      StorageTimer.pk r ∉ StorageTimer.pk <$> due_rows now' lim' d'.
Proof.
  intros Hwf Hw Hw0.
  pose proof (list_due_timers_wf d Hwf clk now lim true) as Hwf'. unfold run_state in Hwf'.
  pose proof (list_due_timers_eval d Hwf clk now lim true) as Hl. cbn zeta in Hl.
  set (rows := due_rows (int_or now clk) lim d) in *.
  set (d1 := Db.set_timers _ d) in Hl. rewrite Hl in Hwf'. cbn [snd] in Hwf'.
  destruct (fire_all f (TimerRecord.from_row <$> rows) d1 w1) as (audits & w' & Hrun & Hlen).
  exists audits, d1, w'. split; [|split; [done|split; [by rewrite Hlen, length_fmap|]]].
  - unfold fire_due_timers_once, svc, read_clock, on_fst. unfold mbind, M_bind.
    rewrite Hw. cbn [fst snd]. rewrite Hw0. cbn [fst snd]. by rewrite Hl.
  - intros r now' lim' Hr (x & Hx & [[Hf _] Hin]%due_rows_elem)%list_elem_of_fmap.
    unfold d1 in Hin. cbn in Hin. apply elem_of_update in Hin as (y & Hy & Hxy).
    destruct (decide (StorageTimer.pk y ∈ StorageTimer.pk <$> rows)) as [Hin'|Hni].
    + by rewrite Hxy in Hf.
    + subst x. apply Hni. rewrite <-Hx. by apply list_elem_of_fmap_2.
Qed.

Definition raising_handler : TimerRecord.t -> M Log.t unit :=
  fun _ => raise (Raised "RuntimeError" "boom").

Lemma timers_fire_at_most_once_witness :
  exists audits d' w',
    fire_due_timers_once (frozen 6000) (Some raising_handler) 100 (db_timers, log0)
      = (Ok audits, (d', w')) /\ length audits = 1.
Proof.
  destruct (timers_fire_at_most_once (frozen 6000) raising_handler 100 db_timers log0 6000
    log0 6000 log0) as (audits & d' & w' & H & _ & Hlen & _).
  - eval_decide.
  - reflexivity.
  - reflexivity.
  - exists audits, d', w'. exact (conj H Hlen).
Defined.

(** A crash between the call and its record repeats a non-idempotent call.  A
    dispatcher claims the wire, its connector call lands, and the process dies
    before [complete_effect]; the row is still PENDING, so once the lease is over
    another dispatcher's tick sends the same wire again. *)
Theorem crash_repeats_non_idempotent_call :
  let crashed : M (Db.t * Log.t) unit :=
    _ ← on_fst (claim_effect_dispatch 2000 sess wire_key "d1" 60000 2000);
    fresh ← on_fst (get_effect sess wire_key);
    _ ← ext (log_dispatch (default (EffectRecord.from_row wire_row) fresh));
    mret tt in
  let tick (t : Z) := dispatch_outbox_once (frozen t) no_exn_text no_py_str log_registry "d2" 50
                  60000 5000 300000 in
  let w_at (t : Z) := (run_state (tick t) (run_state crashed (db_wire, log0))).2 in
  wire_row.(StorageEffect.semantics) = EffectSemantics.NON_IDEMPOTENT /\
  EffectRecord.idempotency_key <$> (w_at 61999%Z).(Log.dispatches) = [wire_key] /\
  EffectRecord.idempotency_key <$> (w_at 62000%Z).(Log.dispatches) = [wire_key; wire_key].
Proof. vm_compute. repeat split. Qed.
