(* ===== verification/Decorators.v ===== *)
(** * Decorators: tool metadata, [tape_adk/decorators.py]

    [@effect] and [@outbox_tool] stamp metadata on a function; [meta_of] reads it
    back off the function or off the tool object that wraps it. *)
From S2P Require Import Prelude Schemas EffectLedger.

(** The keyword arguments of a tool call, in the order ADK gave them. *)
Definition ToolArgs : Type := list (string * json).

(** A user's [Callable[..., str]]: its outcome when called with keywords and when
    called with positional arguments. *)
Record KeyFn := mkKeyFn {
  call_kwargs : ToolArgs -> result string;
  call_args : list json -> result string
}.

(** [_EffectMeta] *)
Record EffectMeta := mkMeta {
  semantics : string;
  dispatch_mode : string;
  business_key_fn : option KeyFn;
  business_key_static : option string;
  connector : option string;
  compensate : option string;
  custom_key_fn : option KeyFn
}.

Definition resolve_business_key (m : EffectMeta) (args : ToolArgs)
    : result (option string) :=
  match m.(business_key_static) with
  | Some s => mret (Some s)
  | None =>
    match m.(business_key_fn) with
    | Some f =>
      match call_kwargs f args with
      | Err TypeError => k ← call_args f args.*2; mret (Some k)
      | Err e => Err e
      | Ok k => mret (Some k)
      end
    | None => mret None
    end
  end.

(** A Python function, as far as the decorators see it: the stamped attribute. *)
Record PyFunction := mkFunction { tape_effect_meta : option EffectMeta }.

(** What [meta_of] is given: an object that may carry the attribute itself and may
    carry the wrapped function on [.func]. *)
Record ToolObject := mkTool {
  tool_name : string;
  direct : option EffectMeta;
  func : option PyFunction
}.

Definition meta_of (t : ToolObject) : option EffectMeta :=
  match t.(direct) with
  | Some m => Some m
  | None => f ← t.(func); f.(tape_effect_meta)
  end.

(** ADK's [FunctionTool(func)]. *)
Definition function_tool (name : string) (f : PyFunction) : ToolObject :=
  {| tool_name := name; direct := None; func := Some f |}.

(** [@effect] *)
Definition effect_meta (custom_key : option KeyFn) : EffectMeta := {|
  semantics := EffectSemantics.IDEMPOTENT;
  dispatch_mode := EffectDispatchMode.INLINE;
  business_key_fn := None;
  business_key_static := None;
  connector := None;
  compensate := None;
  custom_key_fn := custom_key
|}.
Definition effect (custom_key : option KeyFn) (f : PyFunction) : PyFunction :=
  {| tape_effect_meta := Some (effect_meta custom_key) |}.

(** The [business_key] argument: a string or a callable. *)
Inductive BusinessKey :=
  | BKStatic (s : string)
  | BKFn (f : KeyFn).

Definition outbox_meta (business_key : BusinessKey) (conn : string)
    (comp : option string) (custom_key : option KeyFn) : EffectMeta := {|
  semantics := EffectSemantics.NON_IDEMPOTENT;
  dispatch_mode := EffectDispatchMode.OUTBOX;
  business_key_fn := match business_key with BKFn f => Some f | BKStatic _ => None end;
  business_key_static := match business_key with BKStatic s => Some s | BKFn _ => None end;
  connector := Some conn;
  compensate := comp;
  custom_key_fn := custom_key
|}.

(** [@outbox_tool]: the decoration-time refusals, then the decorator. *)
Definition outbox_tool (business_key : option BusinessKey) (conn : string)
    (comp : option string) (custom_key : option KeyFn)
    : result (PyFunction -> PyFunction) :=
  if decide (conn = "") then Err (ValueError MMissingConnector)
  else match business_key with
  | None => Err (ValueError MMissingBusinessKey)
  | Some bk =>
    Ok (fun f => {| tape_effect_meta := Some (outbox_meta bk conn comp custom_key) |})
  end.
