(* ===== verification/Plugin.v ===== *)
(** * Plugin: the ADK callbacks, [tape_adk/plugin.py]

    [NonIdempotentSafetyPlugin]: the per-invocation counters, and one definition
    per callback over a store that holds the database, the counters and the
    tool context's state dict. *)
From S2P Require Import Prelude Sql Schemas EffectLedger ObligationLedger Decorators.

(** The plugin's three dicts, next to the database and [tool_context.state] (the
    session state ADK hands every callback of a turn). *)
Module PluginStore.
Record t := mk {
  db : Db.t;
  dnext : gmap string Z;
  dlast : gmap string Z;
  tcount : gmap (string * Z * string) Z;
  state : gmap string json
}.
Definition set_db (v : Db.t) (p : t) : t :=
  mk v p.(dnext) p.(dlast) p.(tcount) p.(state).
Definition set_tcount (v : gmap (string * Z * string) Z) (p : t) : t :=
  mk p.(db) p.(dnext) p.(dlast) v p.(state).
Definition set_state (v : gmap string json) (p : t) : t :=
  mk p.(db) p.(dnext) p.(dlast) p.(tcount) v.
(** [__init__] *)
Definition init (d : Db.t) : t := mk d ∅ ∅ ∅ ∅.
End PluginStore.

Definition P (A : Type) : Type := M PluginStore.t A.

Definition on_db {A} (m : M Db.t A) : P A := fun p =>
  let '(r, d) := m p.(PluginStore.db) in (r, PluginStore.set_db d p).

(** An event of the ADK session: its invocation, and whether it holds function
    calls. *)
Record Event := mkEvent { ev_invocation_id : string; ev_has_function_calls : bool }.

Record InvocationContext := mkInvocation {
  invocation_id : string;
  session_key : SKey;
  events : list Event
}.

(** ** Lifecycle *)

Definition prior_decisions (ictx : InvocationContext) : Z :=
  if decide (Exists (fun ev => ev.(ev_invocation_id) = ictx.(invocation_id) /\
                               ev.(ev_has_function_calls) = true) ictx.(events))
  then 1 else 0.

Definition before_run_callback (ictx : InvocationContext) : P unit := fun p =>
  let inv := ictx.(invocation_id) in
  let prior := prior_decisions ictx in
  (Ok tt, PluginStore.mk p.(PluginStore.db)
            (<[inv := prior]> p.(PluginStore.dnext))
            (<[inv := Z.max (prior - 1) (-1)]> p.(PluginStore.dlast))
            p.(PluginStore.tcount) p.(PluginStore.state)).

Definition after_run_callback (ictx : InvocationContext) : P unit := fun p =>
  let inv := ictx.(invocation_id) in
  (Ok tt, PluginStore.mk p.(PluginStore.db)
            (delete inv p.(PluginStore.dnext))
            (delete inv p.(PluginStore.dlast))
            (filter (fun kv => kv.1.1.1 <> inv) p.(PluginStore.tcount))
            p.(PluginStore.state)).

(** A model response with function calls is one decision. *)
Definition after_model_callback (inv : string) (has_calls : bool) : P unit := fun p =>
  if has_calls then
    let idx := default 0%Z (p.(PluginStore.dnext) !! inv) in
    (Ok tt, PluginStore.mk p.(PluginStore.db)
              (<[inv := (idx + 1)%Z]> p.(PluginStore.dnext))
              (<[inv := idx]> p.(PluginStore.dlast))
              p.(PluginStore.tcount) p.(PluginStore.state))
  else (Ok tt, p).

(** ** Tools *)

Definition effect_key_slot (tool : string) (call_index : Z) : string :=
  "temp:tape_effect_key:" +:+ tool +:+ ":" +:+ pretty call_index.
Definition call_index_slot (tool : string) : string := "temp:tape_call_index:" +:+ tool.

(** The next (decision, call) index of a tool of the current invocation. *)
Definition next_call (inv tool : string) : P (Z * Z) := fun p =>
  let decision_idx := default 0%Z (p.(PluginStore.dlast) !! inv) in
  let call_index := default 0%Z
    (p.(PluginStore.tcount) !! (inv, decision_idx, tool)) in
  (Ok (decision_idx, call_index),
   PluginStore.set_tcount
     (<[(inv, decision_idx, tool) := (call_index + 1)%Z]> p.(PluginStore.tcount)) p).

(** [tool_context.state[slot] = v] *)
Definition stash (slot : string) (v : json) : P unit := fun p =>
  (Ok tt, PluginStore.set_state (<[slot := v]> p.(PluginStore.state)) p).

Definition lift_result {A} (r : result A) : P A := fun p => (r, p).

(** [bool(meta.business_key_fn or meta.business_key_static)] *)
Definition has_business_key (m : EffectMeta) : bool :=
  match m.(business_key_fn) with
  | Some _ => true
  | None => str_truthy m.(business_key_static)
  end.

(** The arguments of the [begin_effect] call. *)
Definition begin_args (m : EffectMeta) (ictx : InvocationContext) (tool : string)
    (decision_idx call_index : Z) (args : ToolArgs) (business_key : option string)
    : BeginArgs.t := {|
  BeginArgs.session := ictx.(session_key);
  BeginArgs.invocation_id := ictx.(invocation_id);
  BeginArgs.decision_index := decision_idx;
  BeginArgs.tool_name := tool;
  BeginArgs.call_index := call_index;
  BeginArgs.request_json := JObj args;
  BeginArgs.custom_key := "";
  BeginArgs.semantics := m.(semantics);
  BeginArgs.dispatch_mode := m.(dispatch_mode);
  BeginArgs.business_key := business_key;
  BeginArgs.connector := m.(connector)
|}.

(** The answer for a journaled effect: [None] lets ADK run the tool's body. *)
Definition tool_answer (eff : EffectRecord.t) (business_key : option string)
    : option json :=
  let st := eff.(EffectRecord.status) in
  if decide (st = EffectStatus.CONFIRMED) then
    Some (match eff.(EffectRecord.response_json) with
          | JObj fields => JObj fields
          | response => JObj [("tape_replay", response)]
          end)
  else if decide (st = EffectStatus.FAILED) then
    Some (JObj [("status", JStr "failed"); ("error", eff.(EffectRecord.error_json));
                ("tape_replay", JBool true)])
  else if decide (st = EffectStatus.UNKNOWN) then
    Some (JObj [("status", JStr "unknown"); ("tape_replay", JBool true);
                ("idempotency_key", JStr eff.(EffectRecord.idempotency_key))])
  else if decide (eff.(EffectRecord.dispatch_mode) = EffectDispatchMode.OUTBOX) then
    Some (JObj [("status", JStr "pending");
                ("idempotency_key", JStr eff.(EffectRecord.idempotency_key));
                ("business_key", json_of_opt_str business_key);
                ("note", JStr ("the outbox dispatcher will execute this call; the " +:+
                  "result will land via a separate function_response event"))])
  else None.

(** [try: begin_effect(..) except ValueError as ex]; any other exception escapes. *)
Definition begin_or_refuse (clk : Z) (a : BeginArgs.t)
    : P (EffectRecord.t + message) := fun p =>
  match on_db (begin_effect clk a) p with
  | (Ok e, p') => (Ok (inl e), p')
  | (Err (ValueError m), p') => (Ok (inr m), p')
  | (Err e, p') => (Err e, p')
  end.

Section callbacks.
(** [str(ex)] of a [ValueError] *)
Variable str_message : message -> string.

Definition refused_answer (m : message) : json :=
  JObj [("status", JStr "failed");
        ("error", JStr ("tape refused effect: " +:+ str_message m))].

Definition before_tool_callback (clk : Z) (tool : ToolObject) (args : ToolArgs)
    (ictx : InvocationContext) : P (option json) :=
  match meta_of tool with
  | None => mret None
  | Some m =>
    let inv := ictx.(invocation_id) in
    let name := tool.(tool_name) in
    idx ← next_call inv name;
    business_key ← (if has_business_key m
                    then lift_result (resolve_business_key m args) else mret None);
    begun ← begin_or_refuse clk
              (begin_args m ictx name idx.1 idx.2 args business_key);
    match begun with
    | inr msg => mret (Some (refused_answer msg))
    | inl eff =>
      _ ← stash (effect_key_slot name idx.2) (JStr eff.(EffectRecord.idempotency_key));
      _ ← stash (call_index_slot name) (JInt idx.2);
      mret (tool_answer eff business_key)
    end
  end.
End callbacks.

(** The key stashed for the tool's most recent call: [None] when either slot is
    missing. *)
Definition stashed_key (tool : string) : P (option string) := fun p =>
  (Ok (match p.(PluginStore.state) !! call_index_slot tool with
       | Some (JInt call_index) =>
         match p.(PluginStore.state) !! effect_key_slot tool call_index with
         | Some (JStr key) => Some key
         | _ => None
         end
       | _ => None
       end), p).

(** Both clocks a successful completion reads. *)
Definition after_tool_callback (clk0 clk : Z) (tool : ToolObject) (args : ToolArgs)
    (ictx : InvocationContext) (res : json) : P (option json) :=
  match meta_of tool with
  | None => mret None
  | Some m =>
    if decide (m.(dispatch_mode) = EffectDispatchMode.OUTBOX) then mret None
    else
      key ← stashed_key tool.(tool_name);
      match key with
      | None => mret None
      | Some key =>
        _ ← on_db (complete_effect clk0 ictx.(session_key) key
                     EffectStatus.CONFIRMED res JNull);
        _ ← (if str_truthy m.(compensate)
             then _ ← on_db (register_compensation clk
                    (RegisterArgs.mk ictx.(session_key) ictx.(invocation_id) key
                       (default "" m.(compensate))
                       (JObj [("args", JObj args); ("result", res)]) None 5));
                  mret tt
             else mret tt);
        mret None
      end
  end.

(** The exception a tool body raised. *)
Inductive ToolError :=
  | AckLost (text : string)
  | OtherError (type_name text : string).

Definition error_status (e : ToolError) : string :=
  match e with AckLost _ => EffectStatus.UNKNOWN | OtherError _ _ => EffectStatus.FAILED end.
Definition error_payload (e : ToolError) : json :=
  match e with
  | AckLost t => JObj [("type", JStr "AckLost"); ("message", JStr t)]
  | OtherError n t => JObj [("type", JStr n); ("message", JStr t)]
  end.

Definition on_tool_error_callback (clk : Z) (tool : ToolObject)
    (ictx : InvocationContext) (error : ToolError) : P (option json) :=
  match meta_of tool with
  | None => mret None
  | Some m =>
    if decide (m.(dispatch_mode) = EffectDispatchMode.OUTBOX) then mret None
    else
      key ← stashed_key tool.(tool_name);
      match key with
      | None => mret None
      | Some key =>
        _ ← on_db (complete_effect clk ictx.(session_key) key
                     (error_status error) JNull (error_payload error));
        mret None
      end
  end.
