(* ===== verification/PluginTheorems.v ===== *)
(** * PluginTheorems: what the ADK callbacks guarantee

    What the decorators accept, that an outbox tool's body never runs, the replay
    short-circuit, how an inline call is recorded, the freshness of the keys of
    one run; and two places where the stashed keys go wrong. *)
From S2P Require Import Prelude Sql Schemas EffectLedger ObligationLedger TimersValues.
From S2P Require Import Snapshots Decorators Plugin WellFormed Samples EffectFacts.

(** ** Evaluating the callbacks *)

Lemma begin_or_refuse_eval clk a p :
  wf p.(PluginStore.db) ->
  begin_or_refuse clk a p =
    match begin_effect clk a p.(PluginStore.db) with
    | (Ok e, d) => (Ok (inl e), PluginStore.set_db d p)
    | (Err (ValueError m), d) => (Ok (inr m), PluginStore.set_db d p)
    | (Err e, d) => (Err e, PluginStore.set_db d p)
    end.
Proof. intros _. unfold begin_or_refuse, on_db. by destruct (begin_effect _ _ _) as [[?|[]] ?]. Qed.

(** On a well-formed database [begin_effect] raises nothing but [ValueError]. *)
Lemma begin_effect_raises clk a d e d' :
  wf d -> begin_effect clk a d = (Err e, d') -> exists m, e = ValueError m.
Proof.
  intros Hwf. rewrite begin_effect_eval by done. destruct (begin_refusal a); [intros [= <- _]; eauto|].
  destruct (live _ _ _); [done|]. destruct (captured_at _ _); [done|].
  cbn zeta. case_decide; [done|]. intros [= <- _]. eauto.
Qed.

(** The indices the next call of a tool gets. *)
Definition decision_of (p : PluginStore.t) (inv : string) : Z :=
  default 0%Z (p.(PluginStore.dlast) !! inv).
Definition call_of (p : PluginStore.t) (inv tool : string) : Z :=
  default 0%Z (p.(PluginStore.tcount) !! (inv, decision_of p inv, tool)).

Section before_tool.
Context (str_message : message -> string) (clk : Z) (tool : ToolObject)
  (m : EffectMeta) (Hm : meta_of tool = Some m) (args : ToolArgs)
  (ictx : InvocationContext) (p : PluginStore.t) (Hwf : wf p.(PluginStore.db)).

(** The [begin_effect] arguments of this call under a given business key. *)
Definition call_args_of (bk : option string) : BeginArgs.t :=
  let inv := ictx.(invocation_id) in
  begin_args m ictx tool.(tool_name) (decision_of p inv)
    (call_of p inv tool.(tool_name)) args bk.

Definition call_key (bk : option string) : string := effect_key (call_args_of bk).

Definition key_of_call : result (option string) :=
  if has_business_key m then resolve_business_key m args else mret None.

(** The store after an accepted call. *)
Definition stashed_store (d : Db.t) (key : string) : PluginStore.t :=
  let inv := ictx.(invocation_id) in
  let name := tool.(tool_name) in
  PluginStore.mk d p.(PluginStore.dnext) p.(PluginStore.dlast)
    (<[(inv, decision_of p inv, name) := (call_of p inv name + 1)%Z]> p.(PluginStore.tcount))
    (<[call_index_slot name := JInt (call_of p inv name)]>
      (<[effect_key_slot name (call_of p inv name) := JStr key]> p.(PluginStore.state))).

(** The store after a refused one: only the counter moved. *)
Definition counted_store (d : Db.t) : PluginStore.t :=
  let inv := ictx.(invocation_id) in
  let name := tool.(tool_name) in
  PluginStore.mk d p.(PluginStore.dnext) p.(PluginStore.dlast)
    (<[(inv, decision_of p inv, name) := (call_of p inv name + 1)%Z]> p.(PluginStore.tcount))
    p.(PluginStore.state).

Lemma before_tool_eval :
  before_tool_callback str_message clk tool args ictx p =
    match key_of_call with
    | Err e => (Err e, counted_store p.(PluginStore.db))
    | Ok bk =>
      match begin_effect clk (call_args_of bk) p.(PluginStore.db) with
      | (Ok eff, d) => (Ok (tool_answer eff bk),
                        stashed_store d eff.(EffectRecord.idempotency_key))
      | (Err (ValueError msg), d) =>
        (Ok (Some (refused_answer str_message msg)), counted_store d)
      | (Err e, d) => (Err e, counted_store d)
      end
    end.
Proof.
  unfold before_tool_callback. rewrite Hm. unfold key_of_call.
  unfold mbind, M_bind, next_call. cbn -[begin_or_refuse].
  fold (decision_of p (invocation_id ictx)).
  fold (call_of p (invocation_id ictx) (tool_name tool)).
  unfold lift_result.
  assert (forall (r : result (option string)) (k : option string -> P (option json)) q,
    (let (r0, s') := (if has_business_key m then (fun p => (r, p)) else mret None) q in
     match r0 with Ok a => k a s' | Err e => (Err e, s') end)
    = match (if has_business_key m then r else mret None) with
      | Ok a => k a q | Err e => (Err e, q) end) as ->
    by (intros; by destruct (has_business_key m)).
  destruct (if has_business_key m then _ else _) as [bk|e]; [|done].
  rewrite begin_or_refuse_eval by done. cbn -[begin_effect].
  fold (call_args_of bk).
  by destruct (begin_effect _ _ _) as [[?|[]] ?].
Qed.
End before_tool.

Lemma tool_answer_settled eff bk :
  eff.(EffectRecord.status) ∈ effect_statuses ->
  eff.(EffectRecord.status) <> EffectStatus.PENDING \/
  eff.(EffectRecord.dispatch_mode) = EffectDispatchMode.OUTBOX ->
  tool_answer eff bk <> None.
Proof.
  unfold tool_answer, effect_statuses. intros Hst Hor. repeat case_decide; try done.
  exfalso. destruct Hor as [Hor|Hor]; [|done].
  repeat (apply elem_of_cons in Hst as [Hst|Hst]; [done|]). by apply elem_of_nil in Hst.
Qed.

(** What [begin_effect] can return: the live row, the snapshot's entry, or the
    fresh row. *)
Lemma begin_effect_returns clk a d eff d' :
  wf d -> begin_effect clk a d = (Ok eff, d') ->
  (exists row, live d a.(BeginArgs.session) (effect_key a) = Some row /\
     eff = EffectRecord.from_row row /\ d' = d) \/
  (exists c, live d a.(BeginArgs.session) (effect_key a) = None /\
     captured_terminal c /\ eff = record_of_captured a c /\ d' = d) \/
  (live d a.(BeginArgs.session) (effect_key a) = None /\
   eff = EffectRecord.from_row (fresh_effect clk a) /\
   d' = Db.set_effects (insert_row (fresh_effect clk a) d.(Db.effects)) d).
Proof.
  intros Hwf. rewrite begin_effect_eval by done. destruct (begin_refusal a); [done|].
  destruct (live _ _ _) as [row|] eqn:El; [intros [= <- <-]; left; eauto|].
  destruct (captured_at _ _) as [c|] eqn:Ec.
  - intros [= <- <-]. right; left. exists c. split; [done|]. split; [|done].
    unfold captured_at in Ec.
    destruct (row_at _ _ d.(Db.snapshots)) as [sn|] eqn:Es; [|done]. cbn in Ec.
    apply row_at_Some_1 in Es as [Hin _]. pose proof (wf_snapshots _ Hwf) as Hs.
    rewrite Forall_forall in Hs. destruct (Hs sn Hin) as (mp & Hmp & _ & Ht).
    rewrite Hmp in Ec. cbn in Ec. by apply (Ht (effect_key a) c).
  - cbn zeta. case_decide; [|done]. intros [= <- <-]. right; right. done.
Qed.

Lemma live_status d s k row :
  wf d -> live d s k = Some row -> row.(StorageEffect.status) ∈ effect_statuses.
Proof. intros Hwf Hl. by destruct (wf_effect_at _ _ _ Hwf Hl) as [[] _]. Qed.

Lemma captured_status a c :
  captured_terminal c ->
  (record_of_captured a c).(EffectRecord.status) ∈ effect_statuses /\
  (record_of_captured a c).(EffectRecord.status) <> EffectStatus.PENDING.
Proof.
  intros (st & Hst & Hin). unfold record_of_captured. cbn. rewrite Hst. cbn.
  unfold effect_statuses. split; [set_solver|]. intros ->.
  by repeat (apply elem_of_cons in Hin as [Hin|Hin]; [done|]); apply elem_of_nil in Hin.
Qed.

(** ** Properties *)

(** The decorators' contract.  [@outbox_tool] refuses an empty connector or a
    missing business key and nothing else; whatever it accepts, and every
    [@effect], is read back by [meta_of] through ADK's wrapper, and no call of
    such a tool is refused by [begin_effect]'s construction checks. *)
Theorem decorated_tools_accepted bk conn comp ck name f :
  match outbox_tool bk conn comp ck with
  | Err e => (conn = "" /\ e = ValueError MMissingConnector) \/
             (conn <> "" /\ bk = None /\ e = ValueError MMissingBusinessKey)
  | Ok wrap =>
    exists m, meta_of (function_tool name (wrap f)) = Some m /\
      m.(semantics) = EffectSemantics.NON_IDEMPOTENT /\
      m.(dispatch_mode) = EffectDispatchMode.OUTBOX /\
      forall ictx dec call args b,
        begin_refusal (begin_args m ictx name dec call args b) = None
  end /\
  exists m, meta_of (function_tool name (effect ck f)) = Some m /\
    m.(dispatch_mode) = EffectDispatchMode.INLINE /\
    forall ictx dec call args b,
      begin_refusal (begin_args m ictx name dec call args b) = None.
Proof.
  split; [|by eexists]. unfold outbox_tool. case_decide as Hc; [by left|].
  destruct bk as [bk|]; [|by right]. eexists. split; [done|].
  do 2 (split; [done|]). intros. unfold begin_refusal. cbn.
  destruct conn as [|c conn]; [done|]. by repeat case_decide; naive_solver.
Qed.

(** An outbox tool's body never runs inline.  For a tool whose metadata says
    OUTBOX the before-tool callback always answers in the body's place (or
    raises): with the recorded outcome, the pending sentinel or a refusal, unless
    the ledger already holds the call's key as a PENDING effect that is not
    OUTBOX. *)
Theorem outbox_never_inline str_message clk tool m args ictx p :
  wf p.(PluginStore.db) -> meta_of tool = Some m ->
  m.(dispatch_mode) = EffectDispatchMode.OUTBOX ->
  (forall bk row, live p.(PluginStore.db) ictx.(session_key)
                    (call_key tool m args ictx p bk) = Some row ->
     row.(StorageEffect.status) = EffectStatus.PENDING ->
     row.(StorageEffect.dispatch_mode) = EffectDispatchMode.OUTBOX) ->
  run_result (before_tool_callback str_message clk tool args ictx) p <> Ok None.
Proof.
  intros Hwf Hm Hmode Hlive. unfold run_result.
  rewrite (before_tool_eval _ _ _ m) by done.
  destruct (key_of_call _ _) as [bk|e]; [|done].
  destruct (begin_effect _ _ _) as [[eff|e] d'] eqn:E; cbn [fst];
    [|by destruct e].
  cbn. intros [= Hnone]. revert Hnone.
  destruct (begin_effect_returns _ _ _ _ _ Hwf E)
    as [(row & Hl & -> & _)|[(c & _ & Hc & -> & _)|(_ & -> & _)]].
  - apply tool_answer_settled; [exact (live_status _ _ _ _ Hwf Hl)|]. cbn.
    destruct (decide (row.(StorageEffect.status) = EffectStatus.PENDING)); [right|by left].
    by apply (Hlive bk row Hl).
  - destruct (captured_status (call_args_of tool m args ictx p bk) c Hc).
    apply tool_answer_settled; [done|by left].
  - apply tool_answer_settled; [|by right]. unfold effect_statuses. cbn. set_solver.
Qed.

(** A wire tool and its invocation. *)
Definition wire_fn : KeyFn :=
  mkKeyFn (fun args => match args with (_, JStr a) :: _ => Ok a | _ => Err TypeError end)
          (fun args => match args with JStr a :: _ => Ok a | _ => Err TypeError end).
Definition wire_tool : ToolObject :=
  function_tool "bank.wire"
    (mkFunction (Some (outbox_meta (BKFn wire_fn) "bank" (Some "reverse_wire") None))).
Definition rate_tool : ToolObject :=
  function_tool "fx.rate" (effect None (mkFunction None)).
Definition inv1 : InvocationContext := mkInvocation "inv-1" sess [].
Definition no_text : message -> string := fun _ => "".

Lemma outbox_never_inline_witness :
  run_result (before_tool_callback no_text 1000 wire_tool [("acct", JStr "a-1")] inv1)
    (PluginStore.init db0) <> Ok None.
Proof.
  apply (outbox_never_inline no_text 1000 wire_tool
    (outbox_meta (BKFn wire_fn) "bank" (Some "reverse_wire") None)).
  - eval_decide.
  - reflexivity.
  - reflexivity.
  - intros bk row. vm_compute. discriminate.
Defined.

(** Replay never re-runs a settled call.  When the ledger holds the call's key
    as CONFIRMED, FAILED or UNKNOWN, the callback answers in the body's place and
    leaves the database as it was; a CONFIRMED one with the recorded response. *)
Theorem settled_call_replayed str_message clk tool m args ictx p bk row :
  wf p.(PluginStore.db) -> meta_of tool = Some m ->
  key_of_call m args = Ok bk ->
  begin_refusal (call_args_of tool m args ictx p bk) = None ->
  live p.(PluginStore.db) ictx.(session_key) (call_key tool m args ictx p bk) = Some row ->
  row.(StorageEffect.status) <> EffectStatus.PENDING ->
  exists answer,
    run_result (before_tool_callback str_message clk tool args ictx) p = Ok (Some answer) /\
    PluginStore.db (run_state (before_tool_callback str_message clk tool args ictx) p)
      = p.(PluginStore.db) /\
    (row.(StorageEffect.status) = EffectStatus.CONFIRMED ->
     answer = match row.(StorageEffect.response_json) with
              | JObj fields => JObj fields
              | response => JObj [("tape_replay", response)]
              end).
Proof.
  intros Hwf Hm Hk Hr Hl Hst. unfold run_result, run_state.
  rewrite (before_tool_eval _ _ _ m) by done. rewrite Hk.
  rewrite begin_effect_eval by done. rewrite Hr.
  change (BeginArgs.session _) with (session_key ictx). unfold call_key in Hl. rewrite Hl.
  cbn [fst snd PluginStore.db stashed_store].
  destruct (tool_answer (EffectRecord.from_row row) bk) as [ans|] eqn:E.
  - exists ans. do 2 (split; [done|]). intros Hc. unfold tool_answer in E. cbn in E.
    rewrite decide_True in E by done. by injection E as <-.
  - exfalso. eapply (tool_answer_settled (EffectRecord.from_row row)); [|by left|exact E].
    exact (live_status _ _ _ _ Hwf Hl).
Qed.

Definition db_rate_done : Db.t :=
  run_state (_ ← begin_effect 1000 (begin_args (effect_meta None) inv1 "fx.rate" 0 0 [] None);
             complete_effect 2000 sess rate_key EffectStatus.CONFIRMED (JInt 7) JNull) db0.

Lemma settled_call_replayed_witness :
  exists answer,
    run_result (before_tool_callback no_text 5000 rate_tool [] inv1)
      (PluginStore.init db_rate_done) = Ok (Some answer) /\
    answer = JObj [("tape_replay", JInt 7)].
Proof.
  destruct (settled_call_replayed no_text 5000 rate_tool (effect_meta None) [] inv1
    (PluginStore.init db_rate_done) None
    (completed 2000 EffectStatus.CONFIRMED (JInt 7) JNull
       (fresh_effect 1000 (begin_args (effect_meta None) inv1 "fx.rate" 0 0 [] None))))
    as (answer & Hans & _ & Hresp).
  - eval_decide.
  - reflexivity.
  - reflexivity.
  - reflexivity.
  - vm_compute. reflexivity.
  - vm_compute. discriminate.
  - exists answer. exact (conj Hans (Hresp eq_refl)).
Defined.

(** ** An inline call, from its intent to its result *)

Lemma slots_differ tool tool' i : call_index_slot tool <> effect_key_slot tool' i.
Proof. unfold call_index_slot, effect_key_slot. cbn. discriminate. Qed.

Lemma stashed_key_stashed tool ictx p d key :
  stashed_key tool.(tool_name) (stashed_store tool ictx p d key)
    = (Ok (Some key), stashed_store tool ictx p d key).
Proof.
  unfold stashed_key, stashed_store. cbn [PluginStore.state].
  rewrite lookup_insert_eq. rewrite lookup_insert_ne by apply slots_differ.
  by rewrite lookup_insert_eq.
Qed.

Lemma stashed_key_pure tool p : exists o, stashed_key tool p = (Ok o, p).
Proof. by eexists. Qed.

(** A before-tool answer of [None] leaves a PENDING row under the stashed key. *)
Lemma before_tool_none str_message clk tool m args ictx p p1 :
  wf p.(PluginStore.db) -> meta_of tool = Some m ->
  before_tool_callback str_message clk tool args ictx p = (Ok None, p1) ->
  exists bk d row, key_of_call m args = Ok bk /\ wf d /\
    p1 = stashed_store tool ictx p d (call_key tool m args ictx p bk) /\
    live d ictx.(session_key) (call_key tool m args ictx p bk) = Some row /\
    row.(StorageEffect.status) = EffectStatus.PENDING.
Proof.
  intros Hwf Hm. rewrite (before_tool_eval _ _ _ m) by done.
  destruct (key_of_call _ _) as [bk|e]; [|done].
  pose proof (begin_effect_wf _ Hwf clk (call_args_of tool m args ictx p bk)) as Hwf'.
  unfold run_state in Hwf'.
  destruct (begin_effect _ _ _) as [[eff|e] d'] eqn:E; [|by destruct e].
  cbn [snd] in Hwf'. intros [= Ha <-]. exists bk, d'.
  assert (Hp : eff.(EffectRecord.status) ∈ effect_statuses ->
               eff.(EffectRecord.status) = EffectStatus.PENDING).
  { intros Hst. destruct (decide (EffectRecord.status eff = EffectStatus.PENDING)); [done|].
    exfalso. by eapply (tool_answer_settled eff bk Hst); [left|]. }
  destruct (begin_effect_returns _ _ _ _ _ Hwf E)
    as [(row & Hl & -> & ->)|[(c & _ & Hc & -> & _)|(Hl & -> & ->)]].
  - exists row. split; [done|]. split; [done|].
    pose proof (live_pk _ _ _ _ Hl) as [= _ Hk]. cbn [EffectRecord.from_row
      EffectRecord.idempotency_key]. rewrite Hk.
    split; [done|]. split; [done|]. apply Hp. exact (live_status _ _ _ _ Hwf Hl).
  - destruct (captured_status (call_args_of tool m args ictx p bk) c Hc) as [H1 H2].
    by destruct H2; apply Hp.
  - exists (fresh_effect clk (call_args_of tool m args ictx p bk)).
    do 3 (split; [done|]). split; [|done]. rewrite live_insert. unfold call_key.
    change (session_key ictx)
      with (BeginArgs.session (call_args_of tool m args ictx p bk)).
    by rewrite Hl, decide_True.
Qed.

(** An inline call ends recorded.  If the callback let the body of a tool
    without a compensation run, then what follows settles exactly that call's
    effect: the body's result makes it CONFIRMED with that response, an exception
    makes it FAILED, and a lost acknowledgement UNKNOWN, with the exception as the
    error; and the next replay is answered without the body. *)
Theorem inline_call_recorded str_message clk clk' tool m args ictx p p1 res err :
  wf p.(PluginStore.db) -> meta_of tool = Some m ->
  m.(dispatch_mode) <> EffectDispatchMode.OUTBOX -> str_truthy m.(compensate) = false ->
  before_tool_callback str_message clk tool args ictx p = (Ok None, p1) ->
  exists bk row, key_of_call m args = Ok bk /\
    let s := ictx.(session_key) in
    let key := call_key tool m args ictx p bk in
    let ok := after_tool_callback clk' clk' tool args ictx res p1 in
    let failed := on_tool_error_callback clk' tool ictx err p1 in
    ok.1 = Ok None /\ failed.1 = Ok None /\
    live ok.2.(PluginStore.db) s key
      = Some (completed clk' EffectStatus.CONFIRMED res JNull row) /\
    live failed.2.(PluginStore.db) s key
      = Some (completed clk' (error_status err) JNull (error_payload err) row) /\
    (error_status err = EffectStatus.UNKNOWN <-> exists t, err = AckLost t).
Proof.
  intros Hwf Hm Hmode Hcomp Hb.
  destruct (before_tool_none _ _ _ _ _ _ _ _ Hwf Hm Hb)
    as (bk & d & row & Hk & Hwfd & -> & Hl & Hst).
  exists bk, row. split; [done|]. cbn zeta.
  set (key := call_key tool m args ictx p bk) in *.
  assert (Hc : forall st r e, st ∈ [EffectStatus.CONFIRMED; EffectStatus.FAILED; EffectStatus.UNKNOWN] ->
    complete_effect clk' (session_key ictx) key st r e d
      = (Ok (Some (EffectRecord.from_row (completed clk' st r e row))),
         with_effect (completed clk' st r e row) d)).
  { intros st r e Hin. rewrite complete_effect_eval by done. rewrite decide_True by done.
    rewrite Hl. by rewrite decide_False by (intros H; by apply H). }
  assert (Hlive : forall st r e, live (with_effect (completed clk' st r e row) d)
     (session_key ictx) key = Some (completed clk' st r e row)).
  { intros st r e. rewrite live_with_effect, Hl.
    rewrite decide_True; [done|]. exact (live_pk _ _ _ _ Hl). }
  unfold after_tool_callback, on_tool_error_callback. rewrite Hm, !decide_False by done.
  unfold mbind, M_bind. rewrite !stashed_key_stashed. unfold on_db. cbn [PluginStore.db stashed_store].
  rewrite !Hc by (destruct err; eval_decide). rewrite Hcomp. cbn [fst snd PluginStore.db PluginStore.set_db mret M_ret].
  repeat split; try apply Hlive.
  - destruct err; [eauto|done].
  - by intros [t ->].
Qed.

Lemma inline_call_recorded_witness :
  exists p1 bk row,
    before_tool_callback no_text 1000 rate_tool [] inv1 (PluginStore.init db0) = (Ok None, p1) /\
    live (run_state (after_tool_callback 2000 2000 rate_tool [] inv1 (JInt 7)) p1).(PluginStore.db)
      sess (call_key rate_tool (effect_meta None) [] inv1 (PluginStore.init db0) bk)
      = Some (completed 2000 EffectStatus.CONFIRMED (JInt 7) JNull row).
Proof.
  destruct (inline_call_recorded no_text 1000 2000 rate_tool (effect_meta None) [] inv1
    (PluginStore.init db0)
    (run_state (before_tool_callback no_text 1000 rate_tool [] inv1) (PluginStore.init db0))
    (JInt 7) (AckLost "")) as (bk & row & _ & _ & _ & Hl & _).
  - eval_decide.
  - reflexivity.
  - vm_compute. discriminate.
  - reflexivity.
  - vm_compute. reflexivity.
  - eexists _, bk, row. refine (conj _ Hl). vm_compute. reflexivity.
Defined.

(** Overlapping calls of one tool are misattributed.  Two calls of the same
    inline tool in one decision (ADK runs the function calls of a response
    concurrently): both intents are journaled, then both results arrive.  The
    stash slot [temp:tape_call_index:TOOL] only keeps the second call's index, so
    the first call's result is recorded on the second call's effect, the second
    result is dropped, and the first call's effect stays PENDING. *)
Theorem overlapping_calls_misattributed :
  let call args := before_tool_callback no_text 1000 rate_tool args inv1 in
  let p0 := run_state (before_run_callback inv1) (PluginStore.init db0) in
  let p := run_state (_ ← after_model_callback "inv-1" true;
                      _ ← call [("ccy", JStr "EUR")];
                      _ ← call [("ccy", JStr "GBP")];
                      _ ← after_tool_callback 2000 2000 rate_tool [("ccy", JStr "EUR")]
                            inv1 (JObj [("rate", JStr "EUR rate")]);
                      after_tool_callback 3000 3000 rate_tool [("ccy", JStr "GBP")]
                            inv1 (JObj [("rate", JStr "GBP rate")])) p0 in
  (fun e => (e.(StorageEffect.request_json), e.(StorageEffect.status),
             e.(StorageEffect.response_json))) <$> p.(PluginStore.db).(Db.effects)
  = [(JObj [("ccy", JStr "EUR")], EffectStatus.PENDING, JNull);
     (JObj [("ccy", JStr "GBP")], EffectStatus.CONFIRMED,
      JObj [("rate", JStr "EUR rate")])].
Proof. vm_compute. reflexivity. Qed.

(** A resumed run re-uses decision indices.  [before_run_callback] is meant to
    count the decisions already in the session's events but counts at most one:
    an invocation that made two decisions and is resumed makes its third one under
    the second one's index, and the new wire is answered with the earlier wire's
    sentinel; it is never journaled. *)
Theorem resumed_run_reuses_decisions :
  let wire amount := before_tool_callback no_text 1000 wire_tool
                       [("acct", JStr amount)] inv1 in
  let decide_and_wire amount :=
    _ ← after_model_callback "inv-1" true; wire amount in
  let p := run_state (_ ← before_run_callback inv1;
                      _ ← decide_and_wire "a-1"; decide_and_wire "a-2")
             (PluginStore.init db0) in
  let resumed := mkInvocation "inv-1" sess [mkEvent "inv-1" true; mkEvent "inv-1" true] in
  let p' := run_state (_ ← after_run_callback inv1; before_run_callback resumed) p in
  let '(answer, p'') := decide_and_wire "a-3" p' in
  (exists fields, answer = Ok (Some (JObj (("status", JStr "pending") ::
     ("idempotency_key", JStr "inv-1/decision-1/bank.wire/0") :: fields)))) /\
  StorageEffect.business_key <$> p''.(PluginStore.db).(Db.effects)
    = [Some "a-1"; Some "a-2"].
Proof. vm_compute. split; [by eexists|reflexivity]. Qed.

Lemma complete_effect_obligations clk s key st r e d :
  wf d -> (run_state (complete_effect clk s key st r e) d).(Db.obligations)
          = d.(Db.obligations).
Proof.
  intros Hwf. unfold run_state. rewrite complete_effect_eval by done.
  case_decide; [|done]. destruct (live _ _ _); [|done]. by case_decide.
Qed.

(** The declared compensation is never registered.  The after-tool callback
    registers [meta.compensate] for a completed call, but [@effect] has no way to
    declare one and the callback leaves at once for an [@outbox_tool]: for every
    decorated tool and any arguments it leaves the obligations as they were. *)
Theorem compensate_never_registered clk0 clk tool name f ck bk conn comp wrap args ictx res p :
  wf p.(PluginStore.db) ->
  tool = function_tool name (effect ck f) \/
  (outbox_tool bk conn comp ck = Ok wrap /\
   tool = function_tool name (wrap f)) ->
  let p' := run_state (after_tool_callback clk0 clk tool args ictx res) p in
  p'.(PluginStore.db).(Db.obligations) = p.(PluginStore.db).(Db.obligations).
Proof.
  intros Hwf Htool. cbn zeta. unfold run_state, after_tool_callback.
  destruct Htool as [->|[Hw ->]]; cbn [meta_of function_tool direct func].
  - cbn -[stashed_key complete_effect]. unfold mbind, M_bind.
    rewrite decide_False by done.
    destruct (stashed_key_pure name p) as [[key|] ->]; [|done].
    unfold on_db.
    pose proof (complete_effect_obligations clk0 (session_key ictx) key
                  EffectStatus.CONFIRMED res JNull _ Hwf) as Ho. unfold run_state in Ho.
    destruct (complete_effect _ _ _ _ _ _ _) as [[x|e] d]; exact Ho.
  - unfold outbox_tool in Hw. case_decide; [done|]. destruct bk; [|done].
    injection Hw as <-. by cbn.
Qed.

Lemma compensate_never_registered_witness :
  (run_state (after_tool_callback 0 0 wire_tool [] inv1 JNull)
     (PluginStore.init db_obliged)).(PluginStore.db).(Db.obligations)
  = db_obliged.(Db.obligations).
Proof.
  apply (compensate_never_registered 0 0 wire_tool "bank.wire" (mkFunction None) None
    (Some (BKFn wire_fn)) "bank" (Some "reverse_wire")
    (fun f => {| tape_effect_meta := Some (outbox_meta (BKFn wire_fn) "bank"
                   (Some "reverse_wire") None) |}) [] inv1 JNull (PluginStore.init db_obliged)).
  - eval_decide.
  - right. split; reflexivity.
Defined.

(** ** The keys of one run *)

(** The callbacks of one invocation that move its counters. *)
Inductive RunStep :=
  | Model (has_calls : bool)
  | Call (tool : string).

(** The (decision, tool, call) index triples the steps hand out, in order. *)
Fixpoint run_indices (inv : string) (steps : list RunStep) (p : PluginStore.t)
    : list (Z * string * Z) :=
  match steps with
  | [] => []
  | Model c :: rest => run_indices inv rest (run_state (after_model_callback inv c) p)
  | Call t :: rest =>
    match next_call inv t p with
    | (Ok (dec, call), p') => (dec, t, call) :: run_indices inv rest p'
    | (Err _, _) => []
    end
  end.

(** Everything handed out so far is below the counters. *)
Definition used (p : PluginStore.t) (inv : string) (x : Z * string * Z) : Prop :=
  let '(dec, t, call) := x in
  (dec < default 0 (p.(PluginStore.dnext) !! inv) \/ dec = decision_of p inv)%Z /\
  (call < default 0 (p.(PluginStore.tcount) !! (inv, dec, t)))%Z.

(** The counters of a run in progress: the current decision is older than the
    next, or the run is before its first. *)
Definition run_ready (p : PluginStore.t) (inv : string) : Prop :=
  (decision_of p inv < default 0 (p.(PluginStore.dnext) !! inv))%Z.

Lemma run_indices_fresh inv steps p :
  run_ready p inv ->
  NoDup (run_indices inv steps p) /\
  (forall x, used p inv x -> x ∉ run_indices inv steps p).
Proof.
  revert p. induction steps as [|[c|t] steps IH]; intros p Hr.
  - split; [constructor|intros x _ H; by apply elem_of_nil in H].
  - cbn [run_indices]. destruct c; [|by apply IH]. unfold run_state, after_model_callback.
    cbn [snd]. set (p' := PluginStore.mk _ _ _ _ _).
    assert (Hr' : run_ready p' inv).
    { unfold run_ready, decision_of, p'. cbn. rewrite !lookup_insert_eq. cbn. lia. }
    destruct (IH p' Hr') as [H1 H2]. split; [done|].
    intros [[dec t] call] [Hd Hc]. apply H2. unfold used, decision_of, p'. cbn.
    rewrite !lookup_insert_eq. cbn. split; [|done]. left.
    destruct Hd as [Hd|Hd]; [lia|]. unfold run_ready in Hr. lia.
  - cbn [run_indices next_call]. set (p' := PluginStore.set_tcount _ p).
    set (dec := default 0%Z (PluginStore.dlast p !! inv)).
    set (call := default 0%Z (PluginStore.tcount p !! (inv, dec, t))).
    destruct (IH p' Hr) as [H1 H2].
    assert (Hcount : forall dec' t', default 0%Z (PluginStore.tcount p' !! (inv, dec', t'))
        = if decide ((dec', t') = (dec, t)) then (call + 1)%Z
          else default 0%Z (PluginStore.tcount p !! (inv, dec', t'))).
    { intros dec' t'. unfold p'. cbn. case_decide as E.
      - injection E as -> ->. by rewrite lookup_insert_eq.
      - rewrite lookup_insert_ne; [done|]. intros [= <- <-]. by apply E. }
    split.
    + constructor; [|done]. apply H2. split; [by right|]. rewrite Hcount, decide_True by done.
      lia.
    + intros [[dec' t'] call'] [Hd Hc]. rewrite not_elem_of_cons. split.
      * intros [= -> -> ->]. fold call in Hc. lia.
      * apply H2. split; [exact Hd|]. rewrite Hcount. case_decide as E; [|done].
        injection E as -> ->. fold call in Hc. lia.
Qed.

(** Within one run no two calls share an idempotency key.  From the start of
    an invocation, however its model responses and tool calls interleave, two
    calls get the same derived key only if they are the same call, provided
    neither tool name holds a slash. *)
Theorem run_keys_distinct ictx p steps i j dec t call dec' t' call' :
  let inv := ictx.(invocation_id) in
  let calls := run_indices inv steps (run_state (before_run_callback ictx) p) in
  calls !! i = Some (dec, t, call) -> calls !! j = Some (dec', t', call') ->
  slash_free t = true -> slash_free t' = true ->
  derived_key inv dec t call = derived_key inv dec' t' call' -> i = j.
Proof.
  cbn zeta. intros Hi Hj Ht Ht' Hk.
  assert (Hr : run_ready (run_state (before_run_callback ictx) p) (invocation_id ictx)).
  { unfold run_ready, decision_of, run_state, before_run_callback. cbn.
    rewrite !lookup_insert_eq. cbn. unfold prior_decisions. case_decide; lia. }
  destruct (run_indices_fresh (invocation_id ictx) steps _ Hr) as [Hnd _].
  assert ((dec, t, call) = (dec', t', call')) as E.
  { unfold derived_key in Hk.
    apply (inj (String.append (invocation_id ictx))) in Hk.
    apply (inj (String.append "/decision-")) in Hk.
    destruct (first_slash_inj _ _ _ _ (pretty_Z_slash_free dec) (pretty_Z_slash_free dec') Hk)
      as [Hd Hk2].
    destruct (first_slash_inj _ _ _ _ Ht Ht' Hk2) as [-> Hc].
    apply (inj pretty) in Hd as ->. by apply (inj pretty) in Hc as ->. }
  rewrite <-E in Hj. by eapply NoDup_lookup.
Qed.

Lemma run_keys_distinct_witness :
  let calls := run_indices "inv-1" [Model true; Call "fx.rate"; Model true; Call "fx.rate"]
    (run_state (before_run_callback inv1) (PluginStore.init db0)) in
  calls !! 1 = Some (1%Z, "fx.rate", 0%Z) /\ 1 = 1.
Proof.
  split; [reflexivity|].
  apply (run_keys_distinct inv1 (PluginStore.init db0)
    [Model true; Call "fx.rate"; Model true; Call "fx.rate"] 1 1 1 "fx.rate" 0 1 "fx.rate" 0);
    reflexivity.
Defined.
