(* ===== verification/Chaos.v ===== *)
(** * Chaos: fault injection, [tape_adk/chaos.py]

    Faults and their constructors, the [ChaosConnector] wrapper, the invariants
    read off the tables, and the session that wraps, runs and reports. *)
From Stdlib Require Import QArith.
From S2P Require Import Prelude Sql Schemas EffectLedger ObligationLedger Connectors Reactors.
#[local] Open Scope Z_scope.
#[local] Open Scope nat_scope.

Definition LAYER_CONNECTOR : string := "connector".

(** [probability] and [jitter] are floats, which are rationals. *)
Record Fault := mkFault {
  layer : string;
  target : string;
  tool : string;
  action : string;
  probability : Q;
  ms : Z;
  jitter : Q
}.

(** The shared guard of the constructors that take a connector or a tool. *)
Definition one_target (who conn tool : string) : result unit :=
  if decide (conn <> "" /\ tool <> "") then Err (ValueError (MBothTargets who))
  else if decide (conn = "" /\ tool = "") then Err (ValueError (MNoTarget who))
  else Ok tt.

Definition lose_ack (conn tool : string) (p : Q) : result Fault :=
  _ ← one_target "lose_ack" conn tool;
  mret (mkFault LAYER_CONNECTOR conn tool "lose_ack" p 0 0%Q).
Definition duplicate (conn tool : string) (p : Q) : result Fault :=
  _ ← one_target "duplicate" conn tool;
  mret (mkFault LAYER_CONNECTOR conn tool "duplicate" p 0 0%Q).
Definition delay_connector (conn : string) (ms : Z) (jitter : Q) : Fault :=
  mkFault LAYER_CONNECTOR conn "" "delay" 1%Q ms jitter.

(** ** ChaosConnector *)
Section wrapper.
Context {W : Type}.
(** The scenario's [random.Random], kept in the world: [random()] in [0, 1) and
    [uniform(a, b)]; and [asyncio.sleep] for so many milliseconds times a factor. *)
Variable random : W -> Q * W.
Variable uniform : Q -> Q -> W -> Q * W.
Variable sleep : Z -> Q -> W -> W.

(** The first fault of that kind that applies and is drawn. *)
Fixpoint matching (kind : string) (effect : EffectRecord.t) (faults : list Fault)
    : M W (option Fault) :=
  match faults with
  | [] => mret None
  | f :: rest =>
    if decide (f.(action) <> kind) then matching kind effect rest
    else if decide (f.(tool) <> "" /\ effect.(EffectRecord.tool_name) <> f.(tool))
    then matching kind effect rest
    else if Qle_bool 1 f.(probability) then mret (Some f)
    else fun w =>
      let '(r, w') := random w in
      if Qle_bool f.(probability) r then matching kind effect rest w'
      else (Ok (Some f), w')
  end.

Definition lost_ack_error : json :=
  JObj [("reason", JStr "tape_adk.chaos: simulated lost ack")].

(** [1.0 + rng.uniform(-jitter, jitter)] when there is jitter *)
Definition jitter_factor (f : Fault) : M W Q := fun w =>
  if Qle_bool f.(jitter) 0 then (Ok 1%Q, w)
  else let '(u, w') := uniform (- f.(jitter))%Q f.(jitter) w in (Ok (1 + u)%Q, w').

Definition sleep_ms (ms : Z) (factor : Q) : M W unit := fun w => (Ok tt, sleep ms factor w).

(** The delay before the inner call. *)
Definition chaos_delay (effect : EffectRecord.t) (faults : list Fault) : M W unit :=
  d ← matching "delay" effect faults;
  match d with
  | Some d =>
    if decide (0 < d.(ms))%Z
    then factor ← jitter_factor d; sleep_ms d.(ms) factor
    else mret tt
  | None => mret tt
  end.

Definition chaos_dispatch (inner : Connector.t W) (faults : list Fault)
    (effect : EffectRecord.t) : M W DispatchResult.t :=
  _ ← chaos_delay effect faults;
  r ← Connector.dispatch inner effect;
  if decide (r.(DispatchResult.status) = "confirmed") then
    lost ← matching "lose_ack" effect faults;
    mret (match lost with
          | Some _ => {| DispatchResult.status := "unknown";
                         DispatchResult.external_ref := r.(DispatchResult.external_ref);
                         DispatchResult.response := r.(DispatchResult.response);
                         DispatchResult.error := lost_ack_error;
                         DispatchResult.retry_after_ms := 0 |}
          | None => r
          end)
  else mret r.

Definition chaos_observe (inner : Connector.t W) (faults : list Fault)
    (effect : EffectRecord.t) : M W ObservationResult.t :=
  r ← Connector.observe inner effect;
  if decide (r.(ObservationResult.status) = "confirmed") then
    dup ← matching "duplicate" effect faults;
    mret (match dup with
          | Some _ => {| ObservationResult.status := "duplicate";
                         ObservationResult.external_ref := r.(ObservationResult.external_ref);
                         ObservationResult.response := r.(ObservationResult.response);
                         ObservationResult.error := JNull;
                         ObservationResult.compensate_kind :=
                           r.(ObservationResult.compensate_kind) |}
          | None => r
          end)
  else mret r.

Definition ChaosConnector (inner : Connector.t W) (faults : list Fault) : Connector.t W := {|
  Connector.name := Connector.name inner;
  Connector.dispatch := chaos_dispatch inner faults;
  Connector.observe := chaos_observe inner faults;
  Connector.compensate := Connector.compensate inner
|}.
End wrapper.

(** ** Invariants *)

Record InvariantResult := mkInvariantResult {
  inv_name : string;
  passed : bool;
  detail : string
}.

(** [check] may raise; it only reads the tables. *)
Record Invariant := mkInvariant {
  invariant_name : string;
  check : Db.t -> result InvariantResult
}.

Definition len_text {A} (rows : list A) : string := pretty (length rows).

Definition no_stuck_obligations : Invariant := {|
  invariant_name := "no_stuck_obligations";
  check d :=
    let rows := select_where (fun o => o.(StorageObligation.status) = ObligationStatus.STUCK)
                  d.(Db.obligations) in
    Ok (match rows with
        | [] => mkInvariantResult "no_stuck_obligations" true "0 stuck"
        | _ => mkInvariantResult "no_stuck_obligations" false
                 (len_text rows +:+ " stuck: " +:+
                  join ", " ((fun o => "seq=" +:+ pretty o.(StorageObligation.seq) +:+
                                       " kind=" +:+ o.(StorageObligation.kind)) <$> take 5 rows))
        end)
|}.

Definition blind_retry (e : StorageEffect.t) : Prop :=
  e.(StorageEffect.semantics) = EffectSemantics.NON_IDEMPOTENT /\
  e.(StorageEffect.status) = EffectStatus.PENDING /\
  (1 < e.(StorageEffect.dispatch_attempts))%Z.
#[export] Instance blind_retry_dec e : Decision (blind_retry e).
Proof. unfold blind_retry. apply _. Defined.

Definition no_blind_non_idempotent_retry : Invariant := {|
  invariant_name := "no_blind_non_idempotent_retry";
  check d :=
    let rows := select_where blind_retry d.(Db.effects) in
    Ok (match rows with
        | [] => mkInvariantResult "no_blind_non_idempotent_retry" true "0 violators"
        | _ => mkInvariantResult "no_blind_non_idempotent_retry" false
                 (len_text rows +:+ " NON_IDEMPOTENT effects retried while PENDING")
        end)
|}.

Section exactly_one.
(** [repr()] of a string *)
Variable py_repr : string -> string.

Definition exactly_one_name (conn tool : string) : string :=
  "exactly_one" +:+
  (if decide (conn <> "") then "(connector=" +:+ py_repr conn +:+ ")"
   else if decide (tool <> "") then "(tool=" +:+ py_repr tool +:+ ")" else "").

Definition confirmed_match (conn tool : string) (e : StorageEffect.t) : Prop :=
  e.(StorageEffect.status) = EffectStatus.CONFIRMED /\
  (conn = "" \/ e.(StorageEffect.connector) = Some conn) /\
  (tool = "" \/ e.(StorageEffect.tool_name) = tool).
#[export] Instance confirmed_match_dec conn tool e : Decision (confirmed_match conn tool e).
Proof. unfold confirmed_match. apply _. Defined.

Definition ExactlyOne (conn tool : string) : Invariant := {|
  invariant_name := exactly_one_name conn tool;
  check d :=
    let n := length (select_where (confirmed_match conn tool) d.(Db.effects)) in
    Ok (if decide (n = 1)
        then mkInvariantResult (exactly_one_name conn tool) true "1 confirmed"
        else mkInvariantResult (exactly_one_name conn tool) false
               (pretty n +:+ " confirmed (expected 1)"))
|}.

Definition exactly_one (conn tool : string) : result Invariant :=
  _ ← one_target "exactly_one" conn tool; mret (ExactlyOne conn tool).
End exactly_one.

(** ** Scenario and session *)

Record Scenario := mkScenario {
  scenario_name : string;
  faults : list Fault;
  invariants : list Invariant;
  seed : Z;
  strict_faults : bool
}.

Record ChaosReport := mkReport {
  report_name : string;
  report_seed : Z;
  report_passed : bool;
  invariant_results : list InvariantResult;
  notes : list string
}.

Definition empty_report (scen : Scenario) : ChaosReport :=
  mkReport scen.(scenario_name) scen.(seed) true [] [].

(** [_skip] *)
Definition skip (scen : Scenario) (message : string) (r : ChaosReport) : ChaosReport :=
  let r := mkReport r.(report_name) r.(report_seed) r.(report_passed)
             r.(invariant_results) (r.(notes) ++ [message]) in
  if scen.(strict_faults)
  then mkReport r.(report_name) r.(report_seed) false
         (r.(invariant_results) ++ [mkInvariantResult "strict_faults" false message])
         r.(notes)
  else r.

(** [by_connector.setdefault(target, []).append(f)] on an insertion-ordered dict *)
Fixpoint add_fault (t : string) (f : Fault) (by_connector : list (string * list Fault))
    : list (string * list Fault) :=
  match by_connector with
  | [] => [(t, [f])]
  | (t', fs) :: rest =>
    if decide (t' = t) then (t', fs ++ [f]) :: rest else (t', fs) :: add_fault t f rest
  end.

Section session.
Context {W : Type}.
Variable random : W -> Q * W.
Variable uniform : Q -> Q -> W -> Q * W.
Variable sleep : Z -> Q -> W -> W.
(** [repr()] of a string, [str(ex)] with its type name *)
Variable py_repr : string -> string.
Variable exn_text : exn -> string.

Definition unsupported_layer (f : Fault) : string :=
  "fault layer " +:+ py_repr f.(layer) +:+ " not supported in embedded tier " +:+
  "(server failpoints require the gRPC tier)".
Definition no_target_text : string :=
  "connector fault skipped: neither target nor tool set".
Definition missing_connector (name : string) : string :=
  "connector fault for " +:+ py_repr name +:+ " skipped: " +:+
  "connector not in `connectors` dict".
Definition no_connectors_text : string :=
  "tool-scoped fault(s) skipped: empty `connectors` dict".

(** The first loop of [session]: sort the faults by where they attach. *)
Fixpoint sort_faults (scen : Scenario) (fs : list Fault)
    (by_connector : list (string * list Fault)) (tool_scoped : list Fault)
    (r : ChaosReport) : list (string * list Fault) * list Fault * ChaosReport :=
  match fs with
  | [] => (by_connector, tool_scoped, r)
  | f :: rest =>
    if decide (f.(layer) <> LAYER_CONNECTOR)
    then sort_faults scen rest by_connector tool_scoped (skip scen (unsupported_layer f) r)
    else if decide (f.(target) <> "")
    then sort_faults scen rest (add_fault f.(target) f by_connector) tool_scoped r
    else if decide (f.(tool) <> "")
    then sort_faults scen rest by_connector (tool_scoped ++ [f]) r
    else sort_faults scen rest by_connector tool_scoped (skip scen no_target_text r)
  end.

(** The second loop: wrap each targeted connector. *)
Fixpoint wrap_targets (scen : Scenario) (connectors : gmap string (Connector.t W))
    (tool_scoped : list Fault) (by_connector : list (string * list Fault))
    (wrapped : gmap string (Connector.t W)) (r : ChaosReport)
    : gmap string (Connector.t W) * ChaosReport :=
  match by_connector with
  | [] => (wrapped, r)
  | (name, fs) :: rest =>
    match connectors !! name with
    | None => wrap_targets scen connectors tool_scoped rest wrapped
                (skip scen (missing_connector name) r)
    | Some c => wrap_targets scen connectors tool_scoped rest
        (<[name := ChaosConnector random uniform sleep c (fs ++ tool_scoped)]> wrapped) r
    end
  end.

(** Steps 1 and 2 of [session]: the wrapped registry and the report shell. *)
Definition open_session (scen : Scenario) (connectors : gmap string (Connector.t W))
    : gmap string (Connector.t W) * ChaosReport :=
  let '(by_connector, tool_scoped, r) :=
    sort_faults scen scen.(faults) [] [] (empty_report scen) in
  let '(wrapped, r) :=
    wrap_targets scen connectors tool_scoped by_connector connectors r in
  match tool_scoped with
  | [] => (wrapped, r)
  | _ =>
    let r := if decide (connectors = ∅) then skip scen no_connectors_text r else r in
    (map_imap (fun name c =>
       Some (if decide (name ∈ by_connector.*1) then c
             else match connectors !! name with
                  | Some inner => ChaosConnector random uniform sleep inner tool_scoped
                  | None => c
                  end)) wrapped, r)
  end.

(** [await inv.check(svc)], an exception counting as a failure *)
Definition check_invariant (d : Db.t) (inv : Invariant) : InvariantResult :=
  match check inv d with
  | Ok ir => ir
  | Err ex => mkInvariantResult (invariant_name inv) false ("raised " +:+ exn_text ex)
  end.

(** Step 4: run the invariants, finalize the report. *)
Definition close_session (d : Db.t) (scen : Scenario) (r : ChaosReport) : ChaosReport :=
  foldl (fun r inv =>
    let ir := check_invariant d inv in
    mkReport r.(report_name) r.(report_seed)
      (if ir.(passed) then r.(report_passed) else false)
      (r.(invariant_results) ++ [ir]) r.(notes)) r scen.(invariants).

(** [run]: the body over the wrapped registry; the report is built whether or not
    the body raises.  Exactly one of [svc=] and [db_url=] is given. *)
Definition run (scen : Scenario)
    (body : gmap string (Connector.t W) -> M (Db.t * W) unit)
    (connectors : gmap string (Connector.t W)) (has_svc has_db_url : bool)
    : M (Db.t * W) ChaosReport :=
  let '(wrapped, report) := open_session scen connectors in
  if negb has_svc && negb has_db_url then raise (ValueError MSessionNeedsStore)
  else if has_svc && has_db_url then raise (ValueError MSessionTwoStores)
  else fun s =>
    let '(r, s') := body wrapped s in
    let report := close_session s'.1 scen report in
    (match r with Ok _ => Ok report | Err e => Err e end, s').
End session.
