(* ===== verification/Main.v ===== *)
(** * Main: the reactor loop, [tape_adk/__main__.py]

    Loading the connector registry, one guarded pass over the enabled reactors,
    and the loop that repeats it until it is stopped. *)
From Stdlib Require Import Ascii.
From S2P Require Import Prelude Sql Schemas EffectLedger ObligationLedger TimersValues.
From S2P Require Import Snapshots Compact Connectors Reactors.

(** [spec.partition(":")]: before and after the first colon. *)
Fixpoint partition_colon (s : string) : string * string :=
  match s with
  | EmptyString => ("", "")
  | String c s' =>
    if decide (c = ":"%char) then ("", s')
    else let '(a, b) := partition_colon s' in (String c a, b)
  end.

(** The parsed command line, with its defaults. *)
Module Args.
Record t := mk {
  db_url : string; connectors : list string; claimer : string; tick_ms : Z; once : bool;
  no_outbox : bool; no_reconcile : bool; no_drain : bool; no_timers : bool; compact : bool;
  compact_effect_ttl_ms : Z; compact_session_ttl_ms : Z; compact_max_per_tick : nat;
  log_level : string
}.
End Args.
Definition default_args (env_db_url : option string) : Args.t :=
  Args.mk (default "sqlite+aiosqlite:///./tape.db" env_db_url) [] "" 1000 false false false false false false
    (7 * 24 * 60 * 60 * 1000) (30 * 24 * 60 * 60 * 1000) 1000 "INFO".

Section loop.
Context {W : Type}.

(** What a [--connectors] spec resolves to. *)
Inductive PyThing :=
  | TDict (m : gmap string (Connector.t W))
  | TCallable (call : result PyThing)
  | TOther (type_name : string).

(** [importlib.import_module] and [getattr] *)
Variable import_attr : string -> string -> result PyThing.
Variable now_ms : W -> Z * W.
Variable exn_text : exn -> string.
Variable py_str : json -> string.

Definition as_mapping (spec : string) (t : PyThing)
    : result (gmap string (Connector.t W)) :=
  match t with
  | TDict m => Ok m
  | TCallable _ => Err (ValueError (MSpecNotDict spec "function"))
  | TOther n => Err (ValueError (MSpecNotDict spec n))
  end.

(** [if callable(thing): thing = thing()] *)
Definition call_once (t : PyThing) : result PyThing :=
  match t with TCallable r => r | _ => Ok t end.

(** A later spec's keys overwrite an earlier's. *)
Fixpoint load_from (specs : list string) (out : gmap string (Connector.t W))
    : result (gmap string (Connector.t W)) :=
  match specs with
  | [] => Ok out
  | spec :: rest =>
    let '(mod_path, attr) := partition_colon spec in
    if decide (attr = "") then Err (ValueError (MSpecNoAttr spec))
    else
      thing ← import_attr mod_path attr;
      thing ← call_once thing;
      m ← as_mapping spec thing;
      load_from rest (m ∪ out)
  end.
Definition load_connectors (specs : list string) := load_from specs ∅.

(** [try: await m except Exception: log.exception(..)] *)
Definition guarded {A} (m : Reactor (W := W) A) : Reactor (W := W) unit := fun s =>
  (Ok tt, (m s).2).

(** The flags of [_tick]. *)
Record Enabled := mkEnabled {
  enable_outbox : bool;
  enable_reconcile : bool;
  enable_drain : bool;
  enable_timers : bool;
  enable_compact : bool
}.

(** One pass, with the reactors' default limits, leases and backoffs. *)
Definition tick (connectors : gmap string (Connector.t W)) (claimer : string)
    (en : Enabled) (policy : CompactionPolicy) : Reactor (W := W) unit :=
  let step (b : bool) {A} (m : Reactor (W := W) A) := if b then guarded m else mret tt in
  _ ← step en.(enable_outbox)
        (dispatch_outbox_once now_ms exn_text py_str connectors claimer 50
           60000 5000 300000);
  _ ← step en.(enable_reconcile) (reconcile_once now_ms connectors 0 50);
  _ ← step en.(enable_drain)
        (drain_obligations_once now_ms exn_text py_str connectors claimer 50
           60000 5000 300000);
  _ ← step en.(enable_timers) (fire_due_timers_once now_ms None 100);
  step en.(enable_compact) (svc now_ms (fun clk => compact_once clk policy 0)).

(** The policy [_run] builds from the command line. *)
Definition run_policy (effect_ttl session_ttl : Z) (cap : nat) : CompactionPolicy :=
  mkPolicy effect_ttl session_ttl true true cap.

(** [while not stop_event.is_set()]: [stops] are the readings of the stop event at
    the loop's head; the loop ends at the first that is set, after one pass with
    [--once], or with the readings. *)
Fixpoint run_loop (connectors : gmap string (Connector.t W)) (claimer : string)
    (en : Enabled) (policy : CompactionPolicy) (once : bool) (stops : list bool)
    : Reactor (W := W) unit :=
  match stops with
  | [] | true :: _ => mret tt
  | false :: rest =>
    _ ← tick connectors claimer en policy;
    if once then mret tt else run_loop connectors claimer en policy once rest
  end.

Definition enabled_of (a : Args.t) : Enabled :=
  mkEnabled (negb a.(Args.no_outbox)) (negb a.(Args.no_reconcile)) (negb a.(Args.no_drain))
    (negb a.(Args.no_timers)) a.(Args.compact).
(** [max(args.tick_ms / 1000.0, 0.05)], in milliseconds: how long the loop waits for the
    stop event between two ticks. *)
Definition tick_wait_ms (a : Args.t) : Z := Z.max a.(Args.tick_ms) 50.

(** [_run]: [level] is what the name of the log level resolves to; a signal sets the stop
    event, which is read at the head of the loop. *)
Definition run_main (level : string -> result unit) (hostname : string) (pid : Z) (a : Args.t)
    (stops : list bool) : Reactor (W := W) Z := fun s =>
  match (_ ← level a.(Args.log_level); load_connectors a.(Args.connectors)) with
  | Err ex => (Err ex, s)
  | Ok connectors =>
    let claimer := str_or a.(Args.claimer) (hostname +:+ "-" +:+ pretty pid) in
    let policy := run_policy a.(Args.compact_effect_ttl_ms) a.(Args.compact_session_ttl_ms) a.(Args.compact_max_per_tick) in
    match run_loop connectors claimer (enabled_of a) policy a.(Args.once) stops s with
    | (Ok _, s') => (Ok 0%Z, s')
    | (Err ex, s') => (Err ex, s')
    end
  end.
End loop.
