(* ===== verification/System.v ===== *)
(** * System: every operation together

    The writes any process can issue, as one step function; the states they
    reach; that the database invariant holds in all of them, also when the
    reactors run against arbitrary connectors; and the lease, and an effect of unknown
    outcome, over a trace. *)
From S2P Require Import Prelude Sql Schemas EffectLedger ObligationLedger TimersValues.
From S2P Require Import Snapshots Compact Connectors Reactors Main WellFormed Samples.
From S2P Require Import EffectFacts ObligationTheorems TimersTheorems CompactTheorems.
From S2P Require Import SnapshotTheorems ReactorFacts.

(** ** The session rows the foreign keys refer to *)

(** ADK's [create_session] and [delete_session], as far as the tape tables see
    them: a row of [sessions], and [ON DELETE CASCADE]. *)
Definition create_session (s : SKey) (d : Db.t) : Db.t :=
  Db.mk (s :: d.(Db.sessions)) d.(Db.effects) d.(Db.obligations) d.(Db.timers)
    d.(Db.snapshots) d.(Db.values) d.(Db.next_seq).

Definition delete_session (s : SKey) (d : Db.t) : Db.t :=
  Db.mk (filter (fun x => x <> s) d.(Db.sessions))
    (delete_where (fun r => r.(StorageEffect.session) = s) d.(Db.effects))
    (delete_where (fun r => r.(StorageObligation.session) = s) d.(Db.obligations))
    (delete_where (fun r => r.(StorageTimer.session) = s) d.(Db.timers))
    (delete_where (fun r => r.(StorageEffectSnapshot.session) = s) d.(Db.snapshots))
    d.(Db.values) d.(Db.next_seq).

(** ** Operations *)

Inductive Op :=
  | BeginEffect (clk : Z) (a : BeginArgs.t)
  | CompleteEffect (clk : Z) (s : SKey) (key status : string) (response error : json)
  | ClaimEffect (clk : Z) (s : SKey) (key claimer : string) (ttl now : Z)
  | AttemptEffect (clk : Z) (s : SKey) (key error : string) (next : Z)
  | ObserveEffect (clk : Z) (s : SKey) (key resolution ref : string)
      (response error : json) (kind : string)
  | AttachRef (s : SKey) (key ref : string)
  | RegisterCompensation (clk : Z) (a : RegisterArgs.t)
  | ClaimObligation (clk n : Z) (claimer : string) (ttl now : Z)
  | AttemptObligation (clk n : Z) (error : string) (next : Z)
  | ResolveObligation (clk n : Z) (status : string) (result : json)
  | SetTimer (clk : Z) (s : SKey) (tid : string) (fire : Z) (kind : string) (payload : json)
  | ListDueTimers (clk now : Z) (lim : nat) (claim : bool)
  | CancelTimer (s : SKey) (tid : string)
  | WriteValue (clk : Z) (ns k : string) (v : json) (if_version : Z) (writer : string)
  | TakeSnapshot (clk0 clk : Z) (s : SKey) (up_to : Z)
  | ContinueAsNew (clk : Z) (s : SKey) (old_inv new_inv : string) (carried : json)
      (prune_old : bool)
  | Compact (clk : Z) (policy : CompactionPolicy) (now : Z)
  | CreateSession (s : SKey)
  | DeleteSession (s : SKey).

(** The store one operation leaves, whether it returns or raises. *)
Definition step (op : Op) (d : Db.t) : Db.t :=
  match op with
  | BeginEffect clk a => run_state (begin_effect clk a) d
  | CompleteEffect clk s key st r e => run_state (complete_effect clk s key st r e) d
  | ClaimEffect clk s key c ttl now =>
    run_state (claim_effect_dispatch clk s key c ttl now) d
  | AttemptEffect clk s key e next => run_state (record_dispatch_attempt clk s key e next) d
  | ObserveEffect clk s key res ref r e kind =>
    run_state (record_external_observation clk s key res ref r e kind) d
  | AttachRef s key ref => run_state (attach_external_ref s key ref) d
  | RegisterCompensation clk a => run_state (register_compensation clk a) d
  | ClaimObligation clk n c ttl now => run_state (claim_obligation clk n c ttl now) d
  | AttemptObligation clk n e next => run_state (record_obligation_attempt clk n e next) d
  | ResolveObligation clk n st r => run_state (resolve_obligation clk n st r) d
  | SetTimer clk s tid fire kind p => run_state (set_timer clk s tid fire kind p) d
  | ListDueTimers clk now lim claim => run_state (list_due_timers clk now lim claim) d
  | CancelTimer s tid => run_state (cancel_timer s tid) d
  | WriteValue clk ns k v ifv w => run_state (write_value clk ns k v ifv w) d
  | TakeSnapshot clk0 clk s up => run_state (take_snapshot clk0 clk s up) d
  | ContinueAsNew clk s o n c p => run_state (continue_as_new clk s o n c p) d
  | Compact clk policy now => run_state (compact_once clk policy now) d
  | CreateSession s => create_session s d
  | DeleteSession s => delete_session s d
  end.

Definition steps (ops : list Op) (d : Db.t) : Db.t := foldl (fun d op => step op d) d ops.

(** The databases any sequence of operations reaches from empty tape tables. *)
Inductive reachable : Db.t -> Prop :=
  | reach_empty ss : reachable (Db.empty ss)
  | reach_step op d : reachable d -> reachable (step op d).

(** ** The invariant is inductive *)

Lemma Forall_sessions {R} (f : R -> SKey) (ss ss' : list SKey) (t : list R) :
  (forall s, s ∈ ss -> s ∈ ss') ->
  Forall (fun r => f r ∈ ss) t -> Forall (fun r => f r ∈ ss') t.
Proof. intros H Ht. eapply Forall_impl; [exact Ht|]. auto. Qed.

Lemma create_session_wf s d : wf d -> wf (create_session s d).
Proof.
  intros []. assert (forall x, x ∈ d.(Db.sessions) -> x ∈ s :: d.(Db.sessions)) by (by right).
  split; cbn; try done; by eapply Forall_sessions.
Qed.

Lemma Forall_cascade {R} (f : R -> SKey) (ss : list SKey) s (t : list R) :
  Forall (fun r => f r ∈ ss) t ->
  Forall (fun r => f r ∈ filter (fun x => x <> s) ss) (delete_where (fun r => f r = s) t).
Proof.
  rewrite !Forall_forall. intros H r [Hs Hr]%elem_of_delete.
  apply list_elem_of_filter. auto.
Qed.

Lemma delete_session_wf s d : wf d -> wf (delete_session s d).
Proof.
  intros Hwf. pose proof (wf_delete_effects d (fun r => r.(StorageEffect.session) = s) Hwf)
    as [].
  destruct Hwf. split; cbn in *; try done; try (by apply Forall_cascade);
    try (by apply keyed_delete); by apply Forall_delete.
Qed.

Lemma attach_external_ref_wf s key ref d :
  wf d -> wf (run_state (attach_external_ref s key ref) d).
Proof. intros. by apply attach_identity. Qed.

#[export] Hint Resolve create_session_wf delete_session_wf attach_external_ref_wf
  register_compensation_wf claim_obligation_wf record_obligation_attempt_wf
  resolve_obligation_wf : tape.

Lemma step_wf op d : wf d -> wf (step op d).
Proof. intros Hwf. destruct op; cbn [step]; auto with tape. Qed.

Lemma steps_wf ops d : wf d -> wf (steps ops d).
Proof. revert d. induction ops as [|op ops IH]; intros d Hwf; [done|]. apply IH, step_wf, Hwf. Qed.

(** ** The reactors keep it too *)
Section reactors_keep.
Context {W : Type}.

(** A computation over the database and the world keeps the invariant. *)
Definition keeps {A} (m : Reactor (W := W) A) : Prop :=
  forall d w, wf d -> wf (m (d, w)).2.1.

Lemma keeps_ret {A} (a : A) : keeps (mret a).
Proof. by intros d w. Qed.
Lemma keeps_raise {A} e : keeps (raise (A := A) e).
Proof. by intros d w. Qed.
Lemma keeps_bind {A B} (m : Reactor A) (f : A -> Reactor B) :
  keeps m -> (forall a, keeps (f a)) -> keeps (m ≫= f).
Proof.
  intros Hm Hf d w Hwf. unfold mbind, M_bind. specialize (Hm d w Hwf).
  destruct (m (d, w)) as [[a|e] [d' w']]; [by apply Hf|done].
Qed.
Lemma keeps_ext {A} (m : M W A) : keeps (ext m).
Proof. intros d w Hwf. unfold ext. by destruct (m w). Qed.
Lemma keeps_attempt {A} (m : Reactor A) : keeps m -> keeps (attempt m).
Proof. intros Hm d w Hwf. unfold attempt. specialize (Hm d w Hwf). by destruct (m (d, w)). Qed.
Lemma keeps_on_fst {A} (m : M Db.t A) :
  (forall d, wf d -> wf (run_state m d)) -> keeps (on_fst m).
Proof.
  intros Hm d w Hwf. unfold on_fst. cbn. specialize (Hm d Hwf). unfold run_state in Hm.
  by destruct (m d).
Qed.
Lemma keeps_read_clock now_ms : keeps (read_clock now_ms).
Proof. intros d w Hwf. unfold read_clock. by destruct (now_ms w). Qed.
Lemma keeps_svc {A} now_ms (op : Z -> M Db.t A) :
  (forall clk d, wf d -> wf (run_state (op clk) d)) -> keeps (svc now_ms op).
Proof.
  intros Hop. unfold svc. apply keeps_bind; [apply keeps_read_clock|].
  intros clk. apply keeps_on_fst. auto.
Qed.
Lemma keeps_for_each {A B} (xs : list A) (body : A -> Reactor B) :
  (forall x, keeps (body x)) -> keeps (for_each xs body).
Proof.
  intros Hb. induction xs as [|x xs IH]; [apply keeps_ret|].
  cbn [for_each]. apply keeps_bind; [done|]. intros y. apply keeps_bind; [done|].
  intros ys. apply keeps_ret.
Qed.
Lemma keeps_guarded {A} (m : Reactor A) : keeps m -> keeps (guarded m).
Proof. intros Hm d w Hwf. by apply Hm. Qed.
End reactors_keep.

(** The queries write nothing. *)
Lemma query_wf {A} (m : M Db.t A) d : run_state m d = d -> wf d -> wf (run_state m d).
Proof. by intros ->. Qed.

Lemma get_effect_state s key d : wf d -> wf (run_state (get_effect s key) d).
Proof. intros Hwf. unfold run_state. by rewrite get_effect_eval. Qed.
Lemma list_pending_state older ip iu lim d :
  wf d -> wf (run_state (list_pending_effects older ip iu lim) d).
Proof.
  unfold run_state, list_pending_effects. monad_simpl. by destruct (negb ip && negb iu).
Qed.
Lemma list_unresolved_state clk now lim ip st ce d :
  wf d -> wf (run_state (list_unresolved_obligations clk now lim ip st ce) d).
Proof.
  unfold run_state, list_unresolved_obligations. monad_simpl.
  by destruct (negb _).
Qed.
Lemma list_dispatch_state clk now conn lim d :
  wf d -> wf (run_state (list_effects_to_dispatch clk now conn lim) d).
Proof. done. Qed.

#[export] Hint Resolve get_effect_state list_pending_state list_unresolved_state
  list_dispatch_state keeps_ret keeps_raise keeps_ext keeps_read_clock : tape.
#[export] Hint Resolve keeps_attempt keeps_on_fst keeps_svc keeps_for_each keeps_guarded
  : tape.

(** One step of the structure: a bind, a case, or a leaf from the hint database. *)
Ltac keeps_tac :=
  repeat first
    [ progress intros
    | solve [auto with tape]
    | apply keeps_bind
    | case_decide
    | case_match ].

Section tick_keeps.
Context {W : Type} (now_ms : W -> Z * W) (exn_text : exn -> string)
  (py_str : json -> string) (connectors : gmap string (Connector.t W)).

Lemma settle_dispatch_keeps now db mb fresh outcome :
  keeps (settle_dispatch now_ms exn_text py_str now db mb fresh outcome).
Proof. unfold settle_dispatch. keeps_tac. Qed.

Lemma dispatch_outbox_once_keeps claimer lim ttl db mb :
  keeps (dispatch_outbox_once now_ms exn_text py_str connectors claimer lim ttl db mb).
Proof.
  unfold dispatch_outbox_once. keeps_tac. apply keeps_for_each. intros eff.
  unfold dispatch_effect. keeps_tac. apply settle_dispatch_keeps.
Qed.

Lemma reconcile_once_keeps stale lim : keeps (reconcile_once now_ms connectors stale lim).
Proof.
  unfold reconcile_once. keeps_tac. apply keeps_for_each. intros eff.
  unfold reconcile_effect. keeps_tac.
Qed.

Lemma drain_obligations_once_keeps claimer lim ttl db mb :
  keeps (drain_obligations_once now_ms exn_text py_str connectors claimer lim ttl db mb).
Proof.
  unfold drain_obligations_once. keeps_tac. apply keeps_for_each. intros ob.
  unfold drain_obligation. keeps_tac. unfold settle_compensation. keeps_tac.
Qed.

Lemma fire_due_timers_once_keeps dispatcher lim :
  keeps (fire_due_timers_once now_ms dispatcher lim).
Proof.
  unfold fire_due_timers_once. keeps_tac. apply keeps_for_each. intros t.
  unfold fire_timer. keeps_tac.
Qed.

Lemma tick_keeps claimer en policy :
  keeps (tick now_ms exn_text py_str connectors claimer en policy).
Proof.
  pose proof dispatch_outbox_once_keeps. pose proof reconcile_once_keeps.
  pose proof drain_obligations_once_keeps. pose proof fire_due_timers_once_keeps.
  unfold tick. keeps_tac.
Qed.

Lemma tick_returns claimer en policy s :
  (tick now_ms exn_text py_str connectors claimer en policy s).1 = Ok tt.
Proof. unfold tick, mbind, M_bind. destruct en as [[] [] [] [] []]; done. Qed.
End tick_keeps.

(** ** What one operation can do to an effect row *)

Definition effect_change (op : Op) (k : SKey * string) (r r' : StorageEffect.t) : Prop :=
  match op with
  | CompleteEffect clk s key st resp err =>
    r' = r \/ ((s, key) = k /\ r.(StorageEffect.status) = EffectStatus.PENDING /\
               st ∈ [EffectStatus.CONFIRMED; EffectStatus.FAILED; EffectStatus.UNKNOWN] /\
               r' = completed clk st resp err r)
  | ClaimEffect clk s key c ttl now =>
    r' = r \/ ((s, key) = k /\ dispatchable (int_or now clk) r /\
               r' = leased c (int_or now clk + ttl) r)
  | AttemptEffect clk s key e next =>
    r' = r \/ ((s, key) = k /\ r' = attempted clk e next r)
  | ObserveEffect clk s key res ref resp err kind =>
    r' = r \/ ((s, key) = k /\ exists r1, observed res ref resp err r = Some r1 /\
               r' = StorageEffect.set_ts_ms clk r1)
  | AttachRef s key ref =>
    r' = r \/ ((s, key) = k /\ r' = StorageEffect.set_external_ref (Some ref) r)
  | _ => r' = r
  end.

Lemma leased_pk c expires r :
  StorageEffect.pk (leased c expires r) = StorageEffect.pk r.
Proof. done. Qed.

(** A flushed row is read back; the others are as before. *)
Lemma live_flush d s0 key0 s key r0 r1 r r' :
  live d s0 key0 = Some r0 -> StorageEffect.pk r1 = StorageEffect.pk r0 ->
  live d s key = Some r -> live (with_effect r1 d) s key = Some r' ->
  r' = r \/ ((s0, key0) = (s, key) /\ r0 = r /\ r' = r1).
Proof.
  intros H0 Hk Hr. rewrite live_with_effect, Hr, Hk, (live_pk _ _ _ _ H0).
  case_decide as E; [|intros [= ->]; by left].
  intros [= <-]. right. injection E as -> ->. split; [done|]. split; [congruence|done].
Qed.

Lemma live_delete d (P : StorageEffect.t -> Prop) `{!∀ r, Decision (P r)} s key r r' :
  wf d -> live d s key = Some r ->
  live (Db.set_effects (delete_where P d.(Db.effects)) d) s key = Some r' -> r' = r.
Proof.
  intros Hwf Hr. unfold live in *. cbn. rewrite row_at_delete by apply Hwf. rewrite Hr. cbn.
  case_decide; [done|]. by intros [= ->].
Qed.

Lemma live_ext d d' s key :
  d'.(Db.effects) = d.(Db.effects) -> live d' s key = live d s key.
Proof. unfold live. by intros ->. Qed.

(** Which operations leave the effects table alone. *)
Lemma step_effects_same op d :
  wf d ->
  match op with
  | RegisterCompensation _ _ | ClaimObligation _ _ _ _ _ | AttemptObligation _ _ _ _
  | ResolveObligation _ _ _ _ | SetTimer _ _ _ _ _ _ | ListDueTimers _ _ _ _
  | CancelTimer _ _ | WriteValue _ _ _ _ _ _ | TakeSnapshot _ _ _ _ | CreateSession _ =>
    (step op d).(Db.effects) = d.(Db.effects)
  | _ => True
  end.
Proof.
  intros Hwf. destruct op; try done; cbn [step]; unfold run_state.
  - rewrite register_compensation_eval by done. by repeat case_match.
  - rewrite claim_obligation_eval by done. cbn zeta. by repeat case_match.
  - rewrite record_obligation_attempt_eval by done. by case_match.
  - rewrite resolve_obligation_eval by done. case_decide; [|done]. by case_match.
  - rewrite set_timer_eval by done. case_match; [done|]. cbn zeta. by case_decide.
  - rewrite list_due_timers_eval by done. cbn. by destruct claim.
  - rewrite write_value_eval by done. by repeat case_match.
  - destruct (decide (s ∈ d.(Db.sessions))).
    + by rewrite take_snapshot_eval.
    + unfold take_snapshot. monad_simpl. rewrite select_snapshot_wf by done.
      destruct (row_at _ _ _); [by unfold save_snapshot|]. unfold insert_snapshot.
      cbn. by case_decide.
Qed.

Lemma step_effect op d s key r r' :
  wf d -> live d s key = Some r -> live (step op d) s key = Some r' ->
  effect_change op (s, key) r r'.
Proof.
  intros Hwf Hr Hr'. pose proof (step_effects_same op d Hwf) as Hsame.
  destruct op as [clk a|clk s0 k0 st resp err|clk s0 k0 c ttl now|clk s0 k0 e next
    |clk s0 k0 res ref resp err kind|s0 k0 ref| | | | | | | | | |clk s0 o n c p|clk policy now| |s0];
    cbn [effect_change]; try (rewrite (live_ext _ _ _ _ Hsame), Hr in Hr'; by injection Hr').
  all: cbn [step] in Hr'; unfold run_state in Hr'.
  - rewrite begin_effect_eval in Hr' by done.
    destruct (begin_refusal a); [cbn in Hr'; congruence|].
    destruct (live d (BeginArgs.session a) _); [cbn in Hr'; congruence|].
    destruct (captured_at _ _); [cbn in Hr'; congruence|]. cbn zeta in Hr'.
    case_decide; [|cbn in Hr'; congruence]. cbn [snd] in Hr'. rewrite live_insert, Hr in Hr'.
    congruence.
  - rewrite complete_effect_eval in Hr' by done. case_decide as Hst; [|cbn in Hr'; left; congruence].
    destruct (live d s0 k0) as [r0|] eqn:E; [|cbn in Hr'; left; congruence].
    case_decide as Hp; [cbn in Hr'; left; congruence|]. cbn [snd] in Hr'.
    destruct (live_flush _ _ _ _ _ _ _ _ _ E (completed_pk _ _ _ _ _) Hr Hr')
      as [->|(Hk & -> & ->)]; [by left|by right].
  - rewrite claim_effect_dispatch_eval in Hr' by done. cbn zeta in Hr'.
    destruct (live d s0 k0) as [r0|] eqn:E; [|cbn in Hr'; left; congruence].
    case_decide as Hp; [|cbn in Hr'; left; congruence]. cbn [snd] in Hr'.
    destruct (live_flush _ _ _ _ _ _ _ _ _ E (leased_pk _ _ _) Hr Hr') as [->|(Hk & -> & ->)];
      [by left|by right].
  - rewrite record_dispatch_attempt_eval in Hr' by done.
    destruct (live d s0 k0) as [r0|] eqn:E; [|cbn in Hr'; left; congruence].
    cbn [snd] in Hr'. destruct (attempted_identity clk e next r0) as [Hpk _].
    destruct (live_flush _ _ _ _ _ _ _ _ _ E Hpk Hr Hr') as [->|(Hk & -> & ->)];
      [by left|by right].
  - rewrite record_external_observation_eval in Hr' by done.
    destruct (live d s0 k0) as [r0|] eqn:E; [|cbn in Hr'; left; congruence].
    destruct (observed _ _ _ _ r0) as [r1|] eqn:Eo; [|cbn in Hr'; left; congruence].
    cbn zeta in Hr'.
    destruct (observed_spec _ _ _ _ _ _ Eo) as [(Hpk & _) _].
    assert (Hf : live (with_effect (StorageEffect.set_ts_ms clk r1) d) s key = Some r' \/
                 live d s key = Some r').
    { case_decide; [|by left]. destruct (insert_obligation _ _) as [[o d2]|] eqn:Ei;
        cbn [snd] in Hr'; [|by right]. left.
      apply insert_obligation_inv in Ei as (_ & _ & ->). exact Hr'. }
    destruct Hf as [Hf|Hf]; [|left; congruence].
    assert (Hpk' : StorageEffect.pk (StorageEffect.set_ts_ms clk r1) = StorageEffect.pk r0)
      by exact Hpk.
    destruct (live_flush _ _ _ _ _ _ _ _ _ E Hpk' Hr Hf) as [->|(Hk & -> & ->)];
      [by left|right; eauto].
  - destruct (live d s0 k0) as [r0|] eqn:E.
    + rewrite (attach_external_ref_with _ _ _ _ r0 Hwf E) in Hr'. cbn [snd] in Hr'.
      destruct (live_flush _ _ _ _ _ _ _ _ _ E (set_external_ref_pk _ _) Hr Hr')
        as [->|(Hk & -> & ->)]; [by left|by right].
    + left. unfold attach_external_ref, txn in Hr'. cbn [snd] in Hr'. unfold live in *.
      cbn in Hr'. rewrite row_at_update, Hr in Hr' by done. cbn in Hr'.
      rewrite decide_False in Hr'; [congruence|]. intros Hk.
      pose proof (row_at_Some_1 _ _ _ _ Hr) as [_ Hk']. rewrite Hk' in Hk.
      injection Hk as -> ->. congruence.
  - rewrite continue_as_new_eval in Hr' by done. cbn [snd] in Hr'.
    assert (Hp : live (pruned_db d s0 o p) s key = Some r').
    { revert Hr'. unfold continued_db. destruct (json_is_none c); [done|].
      rewrite (write_value_tables clk) by by apply pruned_db_wf. done. }
    unfold pruned_db in Hp. destruct p; [by eapply live_delete|congruence].
  - fold (run_state (compact_once clk policy now) d) in Hr'.
    rewrite compact_once_state in Hr'.
    destruct (compacted_live clk policy now d s key Hwf) as [E|E]; congruence.
  - eapply (live_delete d (fun r => r.(StorageEffect.session) = s0)); done.
Qed.

(** An unresolved row disappears only with its session. *)
Lemma with_effect_some d r1 s key :
  is_Some (live d s key) -> is_Some (live (with_effect r1 d) s key).
Proof.
  intros [r Hr]. rewrite live_with_effect, Hr. case_decide; by eexists.
Qed.

Lemma step_keeps_row op d s key r :
  wf d -> live d s key = Some r -> ~ terminal_effect r ->
  match op with Compact _ _ _ => False | DeleteSession s0 => s0 <> s | _ => True end ->
  is_Some (live (step op d) s key).
Proof.
  intros Hwf Hr Hnt Hop. pose proof (step_effects_same op d Hwf) as Hsame.
  assert (Hs : is_Some (live d s key)) by by eexists.
  destruct op as [clk a|clk s0 k0 st resp err|clk s0 k0 c ttl now|clk s0 k0 e next
    |clk s0 k0 res ref resp err kind|s0 k0 ref| | | | | | | | | |clk s0 o n c p|clk policy now| |s0];
    try (by rewrite (live_ext _ _ _ _ Hsame)); try done.
  all: cbn [step]; unfold run_state.
  - rewrite begin_effect_eval by done. destruct (begin_refusal a); [done|].
    destruct (live d (BeginArgs.session a) _); [done|]. destruct (captured_at _ _); [done|].
    cbn zeta. case_decide; [|done]. cbn [snd]. by rewrite live_insert, Hr.
  - rewrite complete_effect_eval by done. repeat case_match; try done.
    by apply with_effect_some.
  - rewrite claim_effect_dispatch_eval by done. cbn zeta. repeat case_match; try done.
    by apply with_effect_some.
  - rewrite record_dispatch_attempt_eval by done. repeat case_match; try done.
    by apply with_effect_some.
  - rewrite record_external_observation_eval by done. cbn zeta.
    destruct (live d s0 k0) as [r0|]; [|done].
    destruct (observed _ _ _ _ r0) as [r1|]; [|done].
    case_decide; [|by apply with_effect_some].
    destruct (insert_obligation _ _) as [[o d2]|] eqn:Ei; [|done].
    apply insert_obligation_inv in Ei as (_ & _ & ->).
    exact (with_effect_some d _ s key Hs).
  - destruct (live d s0 k0) as [r0|] eqn:E.
    + rewrite (attach_external_ref_with _ _ _ _ r0 Hwf E). by apply with_effect_some.
    + unfold attach_external_ref, txn. cbn [snd]. unfold live in *. cbn.
      rewrite row_at_update, Hr by done. by eexists.
  - rewrite continue_as_new_eval by done. cbn [snd].
    assert (Hp : live (pruned_db d s0 o p) s key = Some r).
    { unfold pruned_db. destruct p; [|done]. unfold live in *. cbn.
      rewrite row_at_delete, Hr by apply Hwf. cbn. rewrite decide_False; [done|].
      intros (_ & _ & Ht & _). by apply Hnt. }
    unfold continued_db. destruct (json_is_none c); [by rewrite Hp|].
    rewrite (write_value_tables clk) by by apply pruned_db_wf.
    by eexists.
  - unfold live in *. cbn. rewrite row_at_delete, Hr by apply Hwf. cbn.
    rewrite decide_False; [by eexists|].
    apply row_at_Some_1 in Hr as [_ Hk]. injection Hk as -> _. congruence.
Qed.

(** ** Properties *)

(** C1: The database invariant.  Every database that any sequence of the
    service's operations reaches from empty tables, whatever their arguments,
    their order and their errors, and with sessions created and deleted under it,
    is well formed: primary keys and the (connector, business key) pair are
    unique, foreign keys hold, statuses are valid, no effect is non-idempotent and
    inline, an outbox effect names its connector, an obligation is claimed exactly
    while COMMITTED, snapshots hold only terminal outcomes. *)
Theorem reachable_wf d : reachable d -> wf d.
Proof. induction 1; [apply wf_empty|by apply step_wf]. Qed.

Lemma reachable_wf_witness : wf db_wire.
Proof.
  apply (reachable_wf db_wire).
  apply (reach_step (BeginEffect 1000 (wire "inv-1")) db0). apply reach_empty.
Defined.

(** The loop always returns and never breaks the ledger. *)
Lemma reactor_loop_safe {W} (now_ms : W -> Z * W) exn_text py_str connectors claimer en
    policy once stops d w :
  wf d ->
  let '(r, (d', w')) :=
    run_loop now_ms exn_text py_str connectors claimer en policy once stops (d, w) in
  r = Ok tt /\ wf d'.
Proof.
  revert d w. induction stops as [|[] stops IH]; intros d w Hwf; [done..|].
  cbn [run_loop]. unfold mbind, M_bind.
  pose proof (tick_keeps now_ms exn_text py_str connectors claimer en policy d w Hwf) as Hk.
  pose proof (tick_returns now_ms exn_text py_str connectors claimer en policy (d, w)) as Hr.
  destruct (tick _ _ _ _ _ _ _ (d, w)) as [r [d1 w1]]. cbn in Hr, Hk. subst r.
  destruct once; [done|]. by apply IH.
Qed.

(** C19: The reactor process never breaks the ledger and ends with 0.  With any command
    line, any connectors (raising ones and unlawful ones included), any clock and any
    readings of the stop event, every pass of the enabled reactors leaves a well formed
    database well formed and no exception escapes; a log level or a connector spec that
    does not resolve ends the process before it touches the store. *)
Theorem reactor_process_safe {W} import_attr (now_ms : W -> Z * W) exn_text py_str level hostname pid a stops d w :
  wf d ->
  let '(r, (d', w')) := run_main import_attr now_ms exn_text py_str level hostname pid a stops (d, w) in
  wf d' /\
  match level a.(Args.log_level), load_connectors import_attr a.(Args.connectors) with
  | Ok _, Ok _ => r = Ok 0%Z
  | Err ex, _ | Ok _, Err ex => r = Err ex /\ d' = d /\ w' = w
  end.
Proof.
  intros Hwf. unfold run_main, mbind, result_bind.
  destruct (level _) as [[]|ex]; [|done]. destruct (load_connectors _ _) as [connectors|ex]; [|done].
  pose proof (reactor_loop_safe now_ms exn_text py_str connectors (str_or a.(Args.claimer) (hostname +:+ "-" +:+ pretty pid))
    (enabled_of a) (run_policy a.(Args.compact_effect_ttl_ms) a.(Args.compact_session_ttl_ms) a.(Args.compact_max_per_tick))
    a.(Args.once) stops d w Hwf) as Hl.
  destruct (run_loop _ _ _ _ _ _ _ _ _ (d, w)) as [r [d' w']]. by destruct Hl as [-> ?].
Qed.

Lemma reactor_process_safe_witness :
  let '(r, (d', _)) := run_main (fun _ _ => Ok (TDict ∅)) (fun w : unit => (5000%Z, w)) (fun _ => "") (fun _ => "")
    (fun _ => Ok tt) "host" 7 (default_args None) [false; false; true] (db_obliged, tt) in
  wf d' /\ r = Ok 0%Z.
Proof.
  apply (reactor_process_safe (fun _ _ => Ok (TDict ∅)) (fun w : unit => (5000%Z, w)) (fun _ => "") (fun _ => "")
    (fun _ => Ok tt) "host" 7 (default_args None) [false; false; true] db_obliged tt). eval_decide.
Defined.

(** The columns that say which call an effect is. *)
Definition same_call (r r' : StorageEffect.t) : Prop :=
  StorageEffect.pk r' = StorageEffect.pk r /\
  r'.(StorageEffect.invocation_id) = r.(StorageEffect.invocation_id) /\
  r'.(StorageEffect.decision_index) = r.(StorageEffect.decision_index) /\
  r'.(StorageEffect.tool_name) = r.(StorageEffect.tool_name) /\
  r'.(StorageEffect.call_index) = r.(StorageEffect.call_index) /\
  r'.(StorageEffect.semantics) = r.(StorageEffect.semantics) /\
  r'.(StorageEffect.dispatch_mode) = r.(StorageEffect.dispatch_mode) /\
  r'.(StorageEffect.business_key) = r.(StorageEffect.business_key) /\
  r'.(StorageEffect.connector) = r.(StorageEffect.connector) /\
  r'.(StorageEffect.request_json) = r.(StorageEffect.request_json).

Lemma observed_same_call res ref resp err r r1 :
  observed res ref resp err r = Some r1 -> same_call r r1.
Proof.
  unfold observed. intros Hobs. repeat case_decide; simplify_eq;
    destruct (json_is_none err); simplify_eq; by repeat split.
Qed.

(** C10: The effect state machine.  While an effect's row lives, no operation
    changes which call it is (its key, invocation, tool, contract, business key,
    connector and request), and its status only moves as follows: PENDING to the
    status a completion gives it; to UNKNOWN by a failed dispatch that asks for no
    retry; or as a counterparty's observation says. *)
Theorem effect_evolution op d s key r r' :
  wf d -> live d s key = Some r -> live (step op d) s key = Some r' ->
  same_call r r' /\
  (r'.(StorageEffect.status) = r.(StorageEffect.status) \/
   (exists clk st resp err, op = CompleteEffect clk s key st resp err /\
      r.(StorageEffect.status) = EffectStatus.PENDING /\
      r'.(StorageEffect.status) = st) \/
   (exists clk e next, op = AttemptEffect clk s key e next /\ (next <= 0)%Z /\
      r'.(StorageEffect.status) = EffectStatus.UNKNOWN) \/
   (exists clk res ref resp err kind, op = ObserveEffect clk s key res ref resp err kind /\
      Some r'.(StorageEffect.status) = resolved_status res r)).
Proof.
  intros Hwf Hr Hr'. pose proof (step_effect op d s key r r' Hwf Hr Hr') as Hc.
  assert (Hrefl : same_call r r) by (by repeat split).
  destruct op; cbn [effect_change] in Hc; try (subst r'; split; [done|by left]).
  - destruct Hc as [->|([= -> ->] & Hp & _ & ->)]; [split; [done|by left]|].
    split; [by repeat split|]. right; left. eauto 10.
  - destruct Hc as [->|([= -> ->] & _ & ->)]; [split; [done|by left]|].
    split; [by repeat split|by left].
  - destruct Hc as [->|([= -> ->] & ->)]; [split; [done|by left]|].
    unfold attempted. case_decide; (split; [by repeat split|]); [|by left].
    right; right; left. eauto 10.
  - destruct Hc as [->|([= -> ->] & r1 & Ho & ->)]; [split; [done|by left]|].
    split; [exact (observed_same_call _ _ _ _ _ _ Ho)|]. right; right; right.
    destruct (observed_spec _ _ _ _ _ _ Ho) as [_ Hst]. eauto 10.
  - destruct Hc as [->|([= -> ->] & ->)]; [split; [done|by left]|].
    split; [by repeat split|by left].
Qed.

Lemma effect_evolution_witness :
  exists r', live (step (ClaimEffect 2000 sess wire_key "d1" 60000 2000) db_wire) sess wire_key
    = Some r' /\ same_call (fresh_effect 1000 (wire "inv-1")) r'.
Proof.
  eexists. split; [vm_compute; reflexivity|].
  refine (proj1 (effect_evolution (ClaimEffect 2000 sess wire_key "d1" 60000 2000) db_wire sess
    wire_key (fresh_effect 1000 (wire "inv-1")) _ _ _ _)).
  - eval_decide.
  - vm_compute. reflexivity.
  - vm_compute. reflexivity.
Defined.

(** An effect that is not PENDING stays so while its row lives. *)
Lemma step_not_pending op d s key r r' :
  wf d -> live d s key = Some r -> r.(StorageEffect.status) <> EffectStatus.PENDING ->
  live (step op d) s key = Some r' -> r'.(StorageEffect.status) <> EffectStatus.PENDING.
Proof.
  intros Hwf Hr Hst Hr'. pose proof (step_effect op d s key r r' Hwf Hr Hr') as Hc.
  destruct op; cbn [effect_change] in Hc; try (by subst r').
  - destruct Hc as [->|(_ & Hp & _)]; done.
  - destruct Hc as [->|(_ & _ & ->)]; done.
  - destruct Hc as [->|(_ & ->)]; [done|]. unfold attempted. by case_decide.
  - destruct Hc as [->|(_ & r1 & Ho & ->)]; [done|]. apply observed_spec in Ho as [_ Hst1].
    cbn. intros Hp. rewrite Hp in Hst1. revert Hst1. unfold resolved_status.
    repeat case_decide; congruence || done.
  - destruct Hc as [->|(_ & ->)]; done.
Qed.

(** The row is there now and after each of the operations. *)
Definition stays (ops : list Op) (d : Db.t) (s : SKey) (key : string) : Prop :=
  forall ops1 ops2, ops = ops1 ++ ops2 -> is_Some (live (steps ops1 d) s key).

Lemma steps_not_pending ops d s key r :
  wf d -> live d s key = Some r -> r.(StorageEffect.status) <> EffectStatus.PENDING ->
  stays ops d s key ->
  exists r', live (steps ops d) s key = Some r' /\ r'.(StorageEffect.status) <> EffectStatus.PENDING.
Proof.
  revert d r. induction ops as [|op ops IH]; intros d r Hwf Hr Hst Hstay; [by exists r|].
  destruct (Hstay [op] ops eq_refl) as [r1 Hr1]. cbn in Hr1.
  apply (IH _ r1); [by apply step_wf|done|by eapply step_not_pending|].
  intros ops1 ops2 ->. by apply (Hstay (op :: ops1) ops2).
Qed.

(** C14: A dispatch attempt that asks for no retry ([next_dispatch_at_ms <= 0]) hands the
    effect to the reconciler: it is UNKNOWN, its attempt counted and its lease dropped; and
    whatever operations follow, for as long as its row is in the ledger, neither archived
    nor deleted with its session, the effect is never PENDING again, no claim of it wins at
    any time, and no dispatch queue lists it. *)
Theorem unknown_effect_not_redispatched d clk s key error next row ops :
  wf d -> live d s key = Some row -> (next <= 0)%Z ->
  let d1 := run_state (record_dispatch_attempt clk s key error next) d in
  let d2 := steps ops d1 in
  stays ops d1 s key ->
  (exists row1, live d1 s key = Some row1 /\ row1.(StorageEffect.status) = EffectStatus.UNKNOWN /\
    row1.(StorageEffect.dispatch_attempts) = (row.(StorageEffect.dispatch_attempts) + 1)%Z /\
    row1.(StorageEffect.dispatch_claimed_by) = None) /\
  exists row2, live d2 s key = Some row2 /\ row2.(StorageEffect.status) <> EffectStatus.PENDING /\
    forall clk' now,
      (forall claimer ttl, claim_effect_dispatch clk' s key claimer ttl now d2
        = (Ok (false, Some (EffectRecord.from_row row2)), d2)) /\
      (forall connector lim es e,
        run_result (list_effects_to_dispatch clk' now connector lim) d2 = Ok es -> e ∈ es ->
        (e.(EffectRecord.session), e.(EffectRecord.idempotency_key)) <> (s, key)).
Proof.
  intros Hwf Hl Hnext d1 d2 Hstay.
  pose proof (record_dispatch_attempt_wf d Hwf clk s key error next) as Hwf1.
  assert (Hl1 : live d1 s key = Some (attempted clk error next row)).
  { unfold d1, run_state. rewrite record_dispatch_attempt_eval, Hl by done. cbn zeta. cbn [snd].
    rewrite live_with_effect, Hl. destruct (attempted_identity clk error next row) as [-> _].
    rewrite (live_pk _ _ _ _ Hl). by rewrite decide_True. }
  assert (Hst : (attempted clk error next row).(StorageEffect.status) = EffectStatus.UNKNOWN)
    by (unfold attempted; by rewrite decide_True).
  split.
  { eexists. split; [exact Hl1|]. split; [done|]. unfold attempted, int_or. rewrite decide_True by done.
    split; [|done]. cbn. by destruct (Z.eqb_spec (StorageEffect.dispatch_attempts row) 0) as [->|]. }
  destruct (steps_not_pending ops d1 s key _ Hwf1 Hl1) as (row2 & Hl2 & Hp); [by rewrite Hst|done|].
  exists row2. split; [done|]. split; [done|]. intros clk' now.
  apply undispatchable_not_claimed; [by apply steps_wf|done|]. by intros (Hp' & _).
Qed.

(** The reconciler asks and finds nothing, a completion comes too late. *)
Lemma unknown_effect_not_redispatched_witness :
  exists row2, live (steps [ObserveEffect 4000 sess wire_key EffectResolution.ABSENT "" JNull JNull "";
      CompleteEffect 5000 sess wire_key EffectStatus.CONFIRMED JNull JNull] db_unknown) sess wire_key = Some row2 /\
    row2.(StorageEffect.status) <> EffectStatus.PENDING.
Proof.
  destruct (unknown_effect_not_redispatched db_leased 3000 sess wire_key "ack lost" 0
    (leased "d1" 62000 (fresh_effect 1000 (wire "inv-1")))
    [ObserveEffect 4000 sess wire_key EffectResolution.ABSENT "" JNull JNull "";
     CompleteEffect 5000 sess wire_key EffectStatus.CONFIRMED JNull JNull])
    as (_ & row2 & Hl & Hst & _); [eval_decide|vm_compute; reflexivity|lia| |by exists row2].
  intros [|? [|? [|? ops1]]] ops2 E; simplify_list_eq; vm_compute; by eexists.
Defined.

(** Operations that do not end a lease on [k] before [expires]. *)
Definition quiet (k : SKey * string) (expires : Z) (op : Op) : Prop :=
  match op with
  | CompleteEffect _ s key _ _ _ | AttemptEffect _ s key _ _
  | ObserveEffect _ s key _ _ _ _ _ => (s, key) <> k
  | ClaimEffect clk s key _ _ now => (s, key) = k -> (int_or now clk < expires)%Z
  | Compact _ _ _ => False
  | DeleteSession s => s <> k.1
  | _ => True
  end.

Definition held (claimer : string) (expires : Z) (r : StorageEffect.t) : Prop :=
  r.(StorageEffect.status) = EffectStatus.PENDING /\
  r.(StorageEffect.dispatch_claimed_by) = Some claimer /\
  r.(StorageEffect.dispatch_claim_expires_at_ms) = expires.

Lemma held_not_dispatchable claimer expires now r :
  claimer <> "" -> held claimer expires r -> (now < expires)%Z -> ~ dispatchable now r.
Proof.
  intros Hne (_ & Hc & He) Hlt (_ & _ & _ & H). rewrite Hc, He in H.
  destruct H as [H|[H|H]]; [done|by injection H|lia].
Qed.

Lemma quiet_step_held op d s key claimer expires r :
  wf d -> claimer <> "" -> quiet (s, key) expires op ->
  live d s key = Some r -> held claimer expires r ->
  exists r', live (step op d) s key = Some r' /\ held claimer expires r'.
Proof.
  intros Hwf Hne Hq Hr Hh.
  destruct (step_keeps_row op d s key r Hwf Hr) as [r' Hr'].
  { unfold terminal_effect. destruct Hh as (-> & _). set_solver. }
  { by destruct op. }
  exists r'. split; [done|].
  pose proof (step_effect op d s key r r' Hwf Hr Hr') as Hc.
  destruct op; cbn [effect_change quiet] in Hc, Hq; try (by subst r').
  - destruct Hc as [->|(Hk & _)]; done.
  - destruct Hc as [->|(Hk & Hd & ->)]; [done|]. exfalso.
    by apply (held_not_dispatchable claimer expires (int_or now clk) r Hne Hh (Hq Hk)).
  - destruct Hc as [->|(Hk & _)]; done.
  - destruct Hc as [->|(Hk & _)]; done.
  - destruct Hc as [->|(_ & ->)]; done.
Qed.

(** C12: A lease is exclusive until it expires.  After a successful claim, whatever
    any process does short of settling that effect, compacting or deleting its
    session, the effect stays PENDING and leased to its claimer, and every claim
    made before the expiry, by anyone, is refused. *)
Theorem lease_exclusive d clk s key claimer ttl now rec d1 ops :
  wf d -> claimer <> "" ->
  claim_effect_dispatch clk s key claimer ttl now d = (Ok (true, rec), d1) ->
  let expires := (int_or now clk + ttl)%Z in
  Forall (quiet (s, key) expires) ops ->
  (exists r, live (steps ops d1) s key = Some r /\ held claimer expires r) /\
  forall clk' c ttl' now', (int_or now' clk' < expires)%Z ->
    exists rec', claim_effect_dispatch clk' s key c ttl' now' (steps ops d1)
      = (Ok (false, rec'), steps ops d1).
Proof.
  intros Hwf Hne Hcl expires Hq.
  pose proof (claim_effect_dispatch_wf d Hwf clk s key claimer ttl now) as Hwf1.
  unfold run_state in Hwf1. rewrite Hcl in Hwf1. cbn [snd] in Hwf1.
  assert (Hh : exists r, live d1 s key = Some r /\ held claimer expires r).
  { rewrite claim_effect_dispatch_eval in Hcl by done. cbn zeta in Hcl.
    destruct (live d s key) as [r0|] eqn:E; [|done]. case_decide as Hd; [|done].
    injection Hcl as _ <-. eexists. split; [by apply leased_live|].
    destruct Hd as (Hp & _). by repeat split. }
  assert (Hend : exists r, live (steps ops d1) s key = Some r /\ held claimer expires r).
  { clear Hcl. revert d1 Hwf1 Hh. induction Hq as [|op ops Hop Hq IH];
      intros d1 Hwf1 (r & Hr & Hh); [by exists r|].
    cbn [steps foldl]. apply IH; [by apply step_wf|].
    by apply (quiet_step_held op d1 s key claimer expires r). }
  split; [done|]. intros clk' c ttl' now' Hlt. destruct Hend as (r & Hr & Hheld).
  rewrite claim_effect_dispatch_eval by by apply steps_wf. cbn zeta. rewrite Hr.
  rewrite decide_False; [by eexists|]. by eapply held_not_dispatchable.
Qed.

Lemma lease_exclusive_witness :
  exists rec', claim_effect_dispatch 50000 sess wire_key "d2" 60000 50000
    (steps [ClaimEffect 3000 sess wire_key "d2" 60000 3000;
            RegisterCompensation 4000 reverse_wire] db_leased)
  = (Ok (false, rec'), steps [ClaimEffect 3000 sess wire_key "d2" 60000 3000;
            RegisterCompensation 4000 reverse_wire] db_leased).
Proof.
  refine (proj2 (lease_exclusive db_wire 2000 sess wire_key "d1" 60000 2000
    (Some (EffectRecord.from_row (leased "d1" 62000 (fresh_effect 1000 (wire "inv-1")))))
    db_leased [ClaimEffect 3000 sess wire_key "d2" 60000 3000;
            RegisterCompensation 4000 reverse_wire] _ _ _ _) 50000%Z "d2" 60000%Z 50000%Z _).
  - eval_decide.
  - discriminate.
  - vm_compute. reflexivity.
  - constructor; [intros _; vm_compute; reflexivity|]. constructor; [exact I|]. constructor.
  - vm_compute. reflexivity.
Defined.
