(* ===== verification/ChaosTheorems.v ===== *)
(** * ChaosTheorems: the fault-injection harness is honest

    The wrapper only does what its faults say; a report passes exactly when every
    declared fault was attached and every invariant holds; the invariants decide
    what they claim; and one of them is broken by the dispatcher itself. *)
From Stdlib Require Import QArith.
From S2P Require Import Prelude Sql Schemas EffectLedger ObligationLedger TimersValues.
From S2P Require Import Connectors Reactors Chaos WellFormed Samples EffectFacts.
From S2P Require Import ObligationTheorems ReactorFacts ReactorTheorems.
#[local] Open Scope nat_scope.

(** ** The wrapper *)
Section wrapper.
Context {W : Type} (random : W -> Q * W) (uniform : Q -> Q -> W -> Q * W)
  (sleep : Z -> Q -> W -> W) (inner : Connector.t W).

Lemma matching_returns kind effect fs w :
  exists o w', matching random kind effect fs w = (Ok o, w') /\
    forall f, o = Some f -> f ∈ fs /\ f.(action) = kind /\
      (f.(tool) = "" \/ effect.(EffectRecord.tool_name) = f.(tool)).
Proof.
  revert w. induction fs as [|f fs IH]; intros w; [by exists None, w|].
  assert (Hrest : forall w, exists o w', matching random kind effect fs w = (Ok o, w') /\
    forall f', o = Some f' -> f' ∈ f :: fs /\ f'.(action) = kind /\
      (f'.(tool) = "" \/ effect.(EffectRecord.tool_name) = f'.(tool))).
  { intros w0. destruct (IH w0) as (o & w' & -> & Ho). exists o, w'. split; [done|].
    intros f' Hf'. destruct (Ho f' Hf') as (? & ? & ?). split; [by right|done]. }
  cbn [matching]. case_decide as Ha; [apply Hrest|]. case_decide as Ht; [apply Hrest|].
  assert (Hf : f ∈ f :: fs /\ f.(action) = kind /\
    (f.(tool) = "" \/ effect.(EffectRecord.tool_name) = f.(tool))).
  { split; [by left|]. split; [done|].
    destruct (decide (f.(tool) = "")); [by left|right].
    apply dec_stable. intros H. by apply Ht. }
  destruct (Qle_bool 1 _); [eexists _, _; split; [done|by intros f' [= <-]]|].
  destruct (random w) as [r w']. destruct (Qle_bool _ r); [apply Hrest|].
  eexists _, _; split; [done|by intros f' [= <-]].
Qed.

Lemma chaos_delay_returns effect fs w :
  exists w', chaos_delay random uniform sleep effect fs w = (Ok tt, w').
Proof.
  unfold chaos_delay. unfold mbind, M_bind.
  destruct (matching_returns "delay" effect fs w) as ([d|] & w' & -> & _); [|by eexists].
  case_decide; [|by eexists]. unfold jitter_factor, sleep_ms.
  destruct (Qle_bool _ _); [by eexists|]. destruct (uniform _ _ _). by eexists.
Qed.

(** An unfaulted wrapper is its inner connector. *)
Lemma chaos_no_faults e w :
  Connector.dispatch (ChaosConnector random uniform sleep inner []) e w
    = Connector.dispatch inner e w /\
  Connector.observe (ChaosConnector random uniform sleep inner []) e w
    = Connector.observe inner e w.
Proof.
  cbn. unfold chaos_dispatch, chaos_observe, chaos_delay, mbind, M_bind. cbn.
  split; [destruct (Connector.dispatch inner e w) as [[r|] w'];
         [destruct (decide (DispatchResult.status r = "confirmed"))|]
         |destruct (Connector.observe inner e w) as [[r|] w'];
         [destruct (decide (ObservationResult.status r = "confirmed"))|]]; done.
Qed.
End wrapper.

(** The chaos wrapper calls through exactly once and distorts only what its
    faults say.  A wrapped dispatch is one inner call, after the delay: it raises
    when the inner call raises, and its outcome is the inner one, unless that was
    confirmed and a matching [lose_ack] fault hides it as unknown, with the same
    reference and response; likewise an observation, from confirmed to duplicate;
    compensation is untouched, and with no faults so is everything. *)
Theorem chaos_wrapper_faithful {W} (random : W -> Q * W) uniform sleep
    (inner : Connector.t W) fs e o w :
  let c := ChaosConnector random uniform sleep inner fs in
  (exists w1, match Connector.dispatch inner e w1 with
   | (Err ex, w2) => Connector.dispatch c e w = (Err ex, w2)
   | (Ok r, w2) => exists r' w3, Connector.dispatch c e w = (Ok r', w3) /\
       (r' = r \/ (r.(DispatchResult.status) = "confirmed" /\
                   r'.(DispatchResult.status) = "unknown" /\
                   r'.(DispatchResult.external_ref) = r.(DispatchResult.external_ref) /\
                   r'.(DispatchResult.response) = r.(DispatchResult.response) /\
                   Exists (fun f => f.(action) = "lose_ack" /\
                     (f.(tool) = "" \/ e.(EffectRecord.tool_name) = f.(tool))) fs))
   end) /\
  match Connector.observe inner e w with
  | (Err ex, w2) => Connector.observe c e w = (Err ex, w2)
  | (Ok r, w2) => exists r' w3, Connector.observe c e w = (Ok r', w3) /\
      (r' = r \/ (r.(ObservationResult.status) = "confirmed" /\
                  r'.(ObservationResult.status) = "duplicate" /\
                  Exists (fun f => f.(action) = "duplicate" /\
                    (f.(tool) = "" \/ e.(EffectRecord.tool_name) = f.(tool))) fs))
  end /\
  Connector.compensate c o w = Connector.compensate inner o w /\
  (fs = [] -> Connector.dispatch c e w = Connector.dispatch inner e w).
Proof.
  cbn zeta. split; [|split; [|split; [done|]]].
  3: { intros ->. apply chaos_no_faults. }
  - destruct (chaos_delay_returns random uniform sleep e fs w) as [w1 Hd]. exists w1.
    cbn [ChaosConnector Connector.dispatch]. unfold chaos_dispatch.
    unfold mbind, M_bind. rewrite Hd.
    destruct (Connector.dispatch inner e w1) as [[r|ex] w2]; [|done].
    case_decide as Hc; [|eauto].
    destruct (matching_returns random "lose_ack" e fs w2) as ([f|] & w3 & -> & Hf); [|eauto].
    destruct (Hf f eq_refl) as (Hin & Hk). eexists _, w3. split; [done|]. right.
    do 4 (split; [done|]). apply Exists_exists. eauto.
  - cbn [ChaosConnector Connector.observe]. unfold chaos_observe. unfold mbind, M_bind.
    destruct (Connector.observe inner e w) as [[r|ex] w2]; [|done].
    case_decide as Hc; [|eauto].
    destruct (matching_returns random "duplicate" e fs w2) as ([f|] & w3 & -> & Hf); [|eauto].
    destruct (Hf f eq_refl) as (Hin & Hk). eexists _, w3. split; [done|]. right.
    do 2 (split; [done|]). apply Exists_exists. eauto.
Qed.

(** So a wrapped lawful connector is lawful, and the reactors' theorems apply. *)
#[export] Instance chaos_connector_lawful {W} (random : W -> Q * W) uniform sleep
    (inner : Connector.t W) fs `{!LawfulConnector inner} :
  LawfulConnector (ChaosConnector random uniform sleep inner fs).
Proof.
  split.
  - intros e w r w'. cbn [ChaosConnector Connector.dispatch]. unfold chaos_dispatch.
    unfold mbind, M_bind. destruct (chaos_delay_returns random uniform sleep e fs w) as [w1 ->].
    destruct (Connector.dispatch inner e w1) as [[r0|] w2] eqn:E; [|done].
    pose proof (lawful_dispatch _ _ _ _ E) as Hl. case_decide; [|by intros [= <- _]].
    destruct (matching_returns random "lose_ack" e fs w2) as ([f|] & w3 & -> & _);
      intros [= <- _]; [|done]. cbn. unfold dispatch_statuses. set_solver.
  - intros e w r w'. cbn [ChaosConnector Connector.observe]. unfold chaos_observe.
    unfold mbind, M_bind.
    destruct (Connector.observe inner e w) as [[r0|] w2] eqn:E; [|done].
    pose proof (lawful_observe _ _ _ _ E) as Hl. case_decide; [|by intros [= <- _]].
    destruct (matching_returns random "duplicate" e fs w2) as ([f|] & w3 & -> & _);
      intros [= <- _]; [|done]. cbn. unfold observation_statuses. set_solver.
  - intros o w r w'. exact (lawful_compensate (c := inner) o w r w').
Qed.

(** ** The session's report *)
Section report.
Context {W : Type} (random : W -> Q * W) (uniform : Q -> Q -> W -> Q * W)
  (sleep : Z -> Q -> W -> W) (py_repr : string -> string) (exn_text : exn -> string)
  (scen : Scenario) (connectors : gmap string (Connector.t W)).

(** A fault the session can attach: a connector-layer fault that targets a
    registered connector or, without a target, a tool of some connector. *)
Definition attachable (f : Fault) : Prop :=
  f.(layer) = LAYER_CONNECTOR /\
  ((f.(target) <> "" /\ is_Some (connectors !! f.(target))) \/
   (f.(target) = "" /\ f.(tool) <> "" /\ connectors <> ∅)).

(** The report fails exactly when something was skipped under strict faults. *)
Definition honest (r : ChaosReport) : Prop :=
  r.(report_passed) = true <-> (scen.(strict_faults) = true -> r.(notes) = []).

Lemma honest_empty : honest (empty_report scen).
Proof. by split. Qed.

Lemma skip_honest m r : honest r -> honest (skip scen m r).
Proof.
  unfold honest, skip. destruct (strict_faults scen); cbn; intros H.
  - split; [done|]. intros Hn. specialize (Hn eq_refl). by destruct (notes r).
  - rewrite H. split; by intros.
Qed.
Lemma skip_notes m r : notes (skip scen m r) <> [].
Proof. unfold skip. destruct (strict_faults scen); cbn; by destruct (notes r). Qed.

(** What the first loop needs of a fault. *)
Definition sortable (f : Fault) : Prop :=
  f.(layer) = LAYER_CONNECTOR /\ (f.(target) <> "" \/ f.(tool) <> "").

Lemma add_fault_keys t f bc x :
  x ∈ (add_fault t f bc).*1 <-> x = t \/ x ∈ bc.*1.
Proof.
  induction bc as [|[t' fs] bc IH]; cbn; [by rewrite elem_of_cons|].
  case_decide as E; cbn; rewrite !elem_of_cons; [subst; naive_solver|].
  rewrite IH. naive_solver.
Qed.

Lemma sort_faults_spec fs bc ts r :
  honest r ->
  let '(bc', ts', r') := sort_faults py_repr scen fs bc ts r in
  honest r' /\ (r'.(notes) = [] <-> r.(notes) = [] /\ Forall sortable fs) /\
  (forall x, x ∈ bc'.*1 <-> x ∈ bc.*1 \/
     Exists (fun f => f.(layer) = LAYER_CONNECTOR /\ f.(target) <> "" /\ f.(target) = x) fs) /\
  (ts' <> [] <-> ts <> [] \/ Exists (fun f => f.(layer) = LAYER_CONNECTOR /\
                     f.(target) = "" /\ f.(tool) <> "") fs).
Proof.
  revert bc ts r. induction fs as [|f fs IH]; intros bc ts r Hr; cbn [sort_faults].
  { split; [done|]. split; [|split].
    - split; [by split; [|constructor]|by intros [? _]].
    - intros x. rewrite Exists_nil. tauto.
    - rewrite Exists_nil. tauto. }
  repeat case_decide.
  - specialize (IH bc ts _ (skip_honest (unsupported_layer py_repr f) r Hr)).
    destruct (sort_faults _ _ _ _ _ _) as [[bc' ts'] r'].
    destruct IH as (Hh & Hn & Hk & Ht). split; [done|]. split; [|split].
    + rewrite Hn, Forall_cons. pose proof (skip_notes (unsupported_layer py_repr f) r).
      unfold sortable at 2. tauto.
    + intros x. rewrite Hk, Exists_cons. tauto.
    + rewrite Ht, Exists_cons. tauto.
  - specialize (IH (add_fault f.(target) f bc) ts r Hr).
    destruct (sort_faults _ _ _ _ _ _) as [[bc' ts'] r'].
    destruct IH as (Hh & Hn & Hk & Ht). split; [done|]. split; [|split].
    + rewrite Hn, Forall_cons. unfold sortable at 2. tauto.
    + intros x. rewrite Hk, Exists_cons, add_fault_keys. naive_solver.
    + rewrite Ht, Exists_cons. tauto.
  - specialize (IH bc (ts ++ [f]) r Hr).
    destruct (sort_faults _ _ _ _ _ _) as [[bc' ts'] r'].
    destruct IH as (Hh & Hn & Hk & Ht). split; [done|]. split; [|split].
    + rewrite Hn, Forall_cons. unfold sortable at 2. tauto.
    + intros x. rewrite Hk, Exists_cons. tauto.
    + rewrite Ht, Exists_cons.
      assert (ts ++ [f] <> []) by (by destruct ts). tauto.
  - specialize (IH bc ts _ (skip_honest no_target_text r Hr)).
    destruct (sort_faults _ _ _ _ _ _) as [[bc' ts'] r'].
    destruct IH as (Hh & Hn & Hk & Ht). split; [done|]. split; [|split].
    + rewrite Hn, Forall_cons. pose proof (skip_notes no_target_text r).
      unfold sortable at 2. tauto.
    + intros x. rewrite Hk, Exists_cons. tauto.
    + rewrite Ht, Exists_cons. tauto.
Qed.

Lemma wrap_targets_spec ts bc wrapped r :
  honest r ->
  let r' := (wrap_targets random uniform sleep py_repr scen connectors ts bc wrapped r).2 in
  honest r' /\
  (r'.(notes) = [] <-> r.(notes) = [] /\ forall x, x ∈ bc.*1 -> is_Some (connectors !! x)).
Proof.
  revert wrapped r. induction bc as [|[n fs] bc IH]; intros wrapped r Hr; cbn.
  { split; [done|]. split; [|tauto]. intros ?. split; [done|]. by intros x ?%elem_of_nil. }
  destruct (connectors !! n) as [c|] eqn:E.
  - destruct (IH (<[n := ChaosConnector random uniform sleep c (fs ++ ts)]> wrapped) r Hr)
      as [Hh Hn]. split; [done|]. rewrite Hn. apply and_iff_compat_l. split.
    + intros H x [->|Hx]%elem_of_cons; [by rewrite E|auto].
    + intros H x Hx. apply H. by right.
  - destruct (IH wrapped _ (skip_honest (missing_connector py_repr n) r Hr)) as [Hh Hn].
    split; [done|]. rewrite Hn. pose proof (skip_notes (missing_connector py_repr n) r).
    split; [tauto|]. intros [_ H0]. destruct (H0 n) as [x Hx]; [by left|congruence].
Qed.

Lemma open_session_spec :
  let r := (open_session random uniform sleep py_repr scen connectors).2 in
  honest r /\ (r.(notes) = [] <-> Forall attachable scen.(faults)).
Proof.
  cbn zeta. unfold open_session.
  pose proof (sort_faults_spec scen.(faults) [] [] _ honest_empty) as Hs.
  destruct (sort_faults _ _ _ _ _ _) as [[bc ts] r]. destruct Hs as (Hh & Hn & Hk & Ht).
  pose proof (wrap_targets_spec ts bc connectors r Hh) as Hw. cbn zeta in Hw.
  destruct (wrap_targets _ _ _ _ _ _ _ _ _ _) as [wrapped r1]. cbn [snd] in Hw.
  destruct Hw as [Hh1 Hn1].
  assert (Hall : Forall attachable scen.(faults) <->
    Forall sortable scen.(faults) /\ (forall x, x ∈ bc.*1 -> is_Some (connectors !! x)) /\
    (ts <> [] -> connectors <> ∅)).
  { rewrite Ht, !Forall_forall. setoid_rewrite Hk. rewrite !Exists_exists.
    setoid_rewrite Exists_exists. unfold attachable, sortable. split.
    - intros H. split; [|split].
      + intros f Hf. destruct (H f Hf) as (? & [(? & _)|(_ & ? & _)]); auto.
      + intros x [?%elem_of_nil|(f & Hf & Hl & Htg & <-)]; [done|].
        destruct (H f Hf) as (_ & [(_ & ?)|(? & _)]); done.
      + intros [?|(f & Hf & Hl & Htg & Htl)]; [done|].
        destruct (H f Hf) as (_ & [(? & _)|(_ & _ & ?)]); done.
    - intros (H1 & H2 & H3) f Hf. destruct (H1 f Hf) as (Hl & Hor). split; [done|].
      destruct (decide (f.(target) = "")) as [E|E].
      + right. destruct Hor as [?|?]; [done|]. split; [done|]. split; [done|].
        apply H3. right. eauto.
      + left. split; [done|]. apply H2. right. eauto. }
  assert (Hb : r1.(notes) = [] <-> Forall sortable scen.(faults) /\
                 forall x, x ∈ bc.*1 -> is_Some (connectors !! x)).
  { rewrite Hn1, Hn. cbn. tauto. }
  destruct ts as [|t ts]; cbn [snd].
  - split; [done|]. rewrite Hb, Hall. naive_solver.
  - case_decide as Hc.
    + split; [by apply skip_honest|]. rewrite Hall. pose proof (skip_notes no_connectors_text r1).
      split; [done|]. intros (_ & _ & H0). by destruct H0.
    + split; [done|]. rewrite Hb, Hall. naive_solver.
Qed.

Lemma close_session_spec d r :
  (close_session exn_text d scen r).(report_passed) = true <->
  r.(report_passed) = true /\
  Forall (fun inv => (check_invariant exn_text d inv).(passed) = true) scen.(invariants).
Proof.
  unfold close_session. revert r. induction scen.(invariants) as [|inv invs IH]; intros r; cbn.
  - rewrite Forall_nil. tauto.
  - rewrite IH, Forall_cons. cbn. destruct (passed (check_invariant exn_text d inv)); naive_solver.
Qed.
End report.

(** A chaos report passes exactly when it should.  With one store given and a
    body that returns, the report passes if and only if every invariant holds of
    the database the body left and, under [strict_faults], every declared fault
    could be attached; a fault that could not is never passed over in silence. *)
Theorem chaos_report_honest {W} (random : W -> Q * W) uniform sleep py_repr exn_text scen body
    (connectors : gmap string (Connector.t W)) d w report d' w' :
  run random uniform sleep py_repr exn_text scen body connectors true false (d, w)
    = (Ok report, (d', w')) ->
  report.(report_passed) = true <->
  (scen.(strict_faults) = true -> Forall (attachable connectors) scen.(faults)) /\
  Forall (fun inv => exists ir, check inv d' = Ok ir /\ ir.(passed) = true) scen.(invariants).
Proof.
  unfold run. pose proof (open_session_spec random uniform sleep py_repr scen connectors) as Ho.
  cbn zeta in Ho. destruct (open_session _ _ _ _ _ _) as [wrapped r0]. cbn [snd] in Ho.
  destruct Ho as [Hh Hn]. cbn [negb andb].
  destruct (body wrapped (d, w)) as [[[]|e] [d1 w1]]; [|done]. intros [= <- <- <-].
  cbn [fst]. rewrite close_session_spec. unfold honest in Hh. rewrite Hh, Hn.
  apply and_iff_compat_l. apply Forall_iff. intros inv. unfold check_invariant.
  destruct (check inv d1) as [ir|e]; cbn; naive_solver.
Qed.

(** A scenario whose fault names a connector that is not registered. *)
Definition typo_scenario : Scenario :=
  mkScenario "lost-ack" [mkFault LAYER_CONNECTOR "bnak" "" "lose_ack" 1%Q 0%Z 0%Q]
    [no_stuck_obligations] 0%Z true.
Definition no_random : Log.t -> Q * Log.t := fun w => (0%Q, w).
Definition no_uniform : Q -> Q -> Log.t -> Q * Log.t := fun _ _ w => (0%Q, w).
Definition no_sleep : Z -> Q -> Log.t -> Log.t := fun _ _ w => w.
Definition no_repr : string -> string := fun s => s.
Definition idle_body (_ : gmap string (Connector.t Log.t)) : M (Db.t * Log.t) unit := mret tt.

Lemma chaos_report_honest_witness :
  exists report,
    run no_random no_uniform no_sleep no_repr no_exn_text typo_scenario idle_body log_registry
      true false (db0, log0) = (Ok report, (db0, log0)) /\
    report.(report_passed) <> true.
Proof.
  eexists. split; [vm_compute; reflexivity|]. intros H.
  apply (chaos_report_honest no_random no_uniform no_sleep no_repr no_exn_text typo_scenario
    idle_body log_registry db0 log0 _ db0 log0 eq_refl) in H as [Ha _].
  specialize (Ha eq_refl). apply Forall_cons in Ha as [[_ [[_ [c Hc]]|[Ht _]]] _];
    [vm_compute in Hc; discriminate Hc|discriminate Ht].
Defined.

(** ** The invariants *)

Lemma select_nil {R} (P : R -> Prop) `{!∀ r, Decision (P r)} (t : list R) :
  select_where P t = [] <-> Forall (fun r => ~ P r) t.
Proof.
  rewrite Forall_forall. split.
  - intros Hnil r Hr HP. assert (r ∈ select_where P t) as Hin by by apply elem_of_select.
    rewrite Hnil in Hin. by apply elem_of_nil in Hin.
  - intros Hall. apply elem_of_nil_inv. intros r [HP Hr]%elem_of_select. by apply (Hall r).
Qed.

Lemma fresh_constructor_case who conn tool :
  one_target who conn tool = Ok tt <-> (conn = "" <-> tool <> "").
Proof.
  unfold one_target. destruct (decide (conn = "")), (decide (tool = "")); repeat case_decide;
    (split; [intros Heq; try discriminate Heq|intros Hiff; try reflexivity; exfalso]); tauto.
Qed.

(** Each invariant decides what it names, and never raises: no obligation is
    STUCK; no non-idempotent effect is PENDING after two attempts; exactly one
    CONFIRMED effect matches the connector or the tool, one of which must be
    given and not both. *)
Theorem invariants_decide py_repr d :
  (exists ir, check no_stuck_obligations d = Ok ir /\
     (ir.(passed) = true <->
      Forall (fun o => o.(StorageObligation.status) <> ObligationStatus.STUCK)
        d.(Db.obligations))) /\
  (exists ir, check no_blind_non_idempotent_retry d = Ok ir /\
     (ir.(passed) = true <-> Forall (fun e => ~ blind_retry e) d.(Db.effects))) /\
  forall conn tool,
    match exactly_one py_repr conn tool with
    | Err _ => (conn = "" <-> tool = "")
    | Ok inv => (conn = "" <-> tool <> "") /\
        exists ir, check inv d = Ok ir /\
          (ir.(passed) = true <->
           length (filter (fun e => e.(StorageEffect.status) = EffectStatus.CONFIRMED /\
             (conn = "" \/ e.(StorageEffect.connector) = Some conn) /\
             (tool = "" \/ e.(StorageEffect.tool_name) = tool)) d.(Db.effects)) = 1)
    end.
Proof.
  split; [|split].
  - eexists. split; [done|].
    rewrite <-(select_nil (fun o => o.(StorageObligation.status) = ObligationStatus.STUCK)).
    by destruct (select_where _ _).
  - eexists. split; [done|]. rewrite <-(select_nil blind_retry).
    by destruct (select_where _ _).
  - intros conn tool. unfold exactly_one.
    pose proof (fresh_constructor_case "exactly_one" conn tool) as Hc.
    unfold one_target in *.
    destruct (decide (conn <> "" /\ tool <> "")); cbn; [tauto|].
    destruct (decide (conn = "" /\ tool = "")); cbn; [tauto|].
    split; [by apply Hc|]. eexists. split; [done|].
    change (select_where (confirmed_match conn tool) d.(Db.effects))
      with (filter (confirmed_match conn tool) d.(Db.effects)).
    unfold confirmed_match. by case_decide.
Qed.

(** ** The dispatcher breaks one of them *)

(** A connector whose call raises, as a timeout does after the bytes left. *)
Definition RaisingConnector : Connector.t Log.t := {|
  Connector.name := "raising";
  Connector.dispatch := fun e w => (Err (Raised "TimeoutError" "timed out"),
    Log.mk (w.(Log.dispatches) ++ [e]) w.(Log.observations) w.(Log.compensations));
  Connector.observe := log_observe;
  Connector.compensate := log_compensate
|}.

(** The outbox blindly retries non-idempotent effects.  The package's own
    invariant says that a NON_IDEMPOTENT effect never has a second attempt while
    PENDING; a connector that raises (which need not mean the call did not land)
    is called again after the backoff, and two ticks break the invariant. *)
Theorem raising_connector_blindly_retried :
  let registry : gmap string (Connector.t Log.t) := {[ "bank" := RaisingConnector ]} in
  let tick (t : Z) := dispatch_outbox_once (frozen t) no_exn_text no_py_str registry "d1" 50
                        60000 5000 300000 in
  let '(d, w) := run_state (_ ← tick 2000%Z; tick 7000%Z) (db_wire, log0) in
  EffectRecord.idempotency_key <$> w.(Log.dispatches) = [wire_key; wire_key] /\
  check no_blind_non_idempotent_retry d
    = Ok (mkInvariantResult "no_blind_non_idempotent_retry" false
            "1 NON_IDEMPOTENT effects retried while PENDING").
Proof. vm_compute. split; reflexivity. Qed.
