(* ===== verification/Scenarios.v ===== *)
(** * Scenarios: faults as data, and the session that applies them

    [tape/chaos/scenarios.py] with the connector registry of
    [tape/connectors/base.py]: fault constructors, the rendering of server faults
    to the failpoint string, and the session that wraps registered connectors on
    entry, restores them on exit and checks the invariants. *)
From Stdlib Require Import QArith.
From S2P Require Import Prelude.
#[local] Open Scope Z_scope.
#[local] Open Scope nat_scope.

(** ** Insertion-ordered dicts *)
Section dict.
Context {K V : Type} `{!EqDecision K}.

Fixpoint dict_get (k : K) (d : list (K * V)) : option V :=
  match d with
  | [] => None
  | (k', v) :: d' => if decide (k' = k) then Some v else dict_get k d'
  end.

(** [d[k] = v]: in place when present, at the end otherwise *)
Fixpoint dict_set (k : K) (v : V) (d : list (K * V)) : list (K * V) :=
  match d with
  | [] => [(k, v)]
  | (k', v') :: d' => if decide (k' = k) then (k, v) :: d' else (k', v') :: dict_set k v d'
  end.
End dict.

(** ** Faults *)

Definition LAYER_SERVER : string := "server".
Definition LAYER_CONNECTOR : string := "connector".

(** [extra_msg] is the [_action_msg] that [_with] stashes on the object. *)
Module SFault.
Record t := mk {
  layer : string;
  target : string;
  action : string;
  probability : Q;
  after_n : Z;
  ms : Z;
  jitter : Q;
  tool : string;
  when : string;
  extra_msg : option string
}.
End SFault.

Definition crash (failpoint : string) (probability : Q) (after_n : Z) (when : string)
    : SFault.t :=
  SFault.mk LAYER_SERVER failpoint "panic" probability after_n 0 0 "" when None.

Definition delay (failpoint : string) (ms : Z) (probability jitter : Q) (when : string)
    : SFault.t :=
  SFault.mk LAYER_SERVER failpoint "sleep" probability 0 ms jitter "" when None.

(** [_fault_with]: the copy it makes does not carry [tool]. *)
Definition fault_with (f : SFault.t) (action_msg : string) : SFault.t :=
  SFault.mk f.(SFault.layer) f.(SFault.target) f.(SFault.action) f.(SFault.probability)
    f.(SFault.after_n) f.(SFault.ms) f.(SFault.jitter) "" f.(SFault.when)
    (Some action_msg).

Definition error (failpoint msg : string) (probability : Q) (when : string) : SFault.t :=
  fault_with (SFault.mk LAYER_SERVER failpoint "return" probability 0 0 0 "" when None) msg.

Definition one_selector (who connector tool : string) : result unit :=
  if decide (connector <> "" /\ tool <> "") then Err (ValueError (MBothTargets who))
  else if decide (connector = "" /\ tool = "") then Err (ValueError (MNoTarget who))
  else Ok tt.

Definition lose_ack (connector tool : string) (probability : Q) : result SFault.t :=
  _ ← one_selector "lose_ack" connector tool;
  mret (SFault.mk LAYER_CONNECTOR connector "lose_ack" probability 0 0 0 tool "" None).
Definition duplicate (connector tool : string) (probability : Q) : result SFault.t :=
  _ ← one_selector "duplicate" connector tool;
  mret (SFault.mk LAYER_CONNECTOR connector "duplicate" probability 0 0 0 tool "" None).
Definition delay_connector (connector : string) (ms : Z) (jitter : Q) : SFault.t :=
  SFault.mk LAYER_CONNECTOR connector "delay" 1 0 ms jitter "" "" None.

(** ** The failpoint string *)

Section render.
(** [f"{p:g}"] for a float *)
Variable fmt_g : Q -> string.

Definition rendered_action (f : SFault.t) : string :=
  let msg := default "chaos" f.(SFault.extra_msg) in
  if decide (f.(SFault.action) = "sleep") then "sleep(" +:+ pretty f.(SFault.ms) +:+ ")"
  else if decide (f.(SFault.action) = "return") then "return(" +:+ msg +:+ ")"
  else if decide (f.(SFault.action) = "print") then "print(" +:+ msg +:+ ")"
  else f.(SFault.action).

(** [_to_fail_spec] *)
Definition to_fail_spec (f : SFault.t) : result string :=
  if decide (f.(SFault.layer) <> LAYER_SERVER) then Err (ValueError MNotServerFault)
  else
    let action := rendered_action f in
    let p := f.(SFault.probability) in
    let skip := if decide (0 < f.(SFault.after_n))%Z
                then [pretty f.(SFault.after_n) +:+ "*off"] else [] in
    let fire := if negb (Qle_bool p 0) && negb (Qle_bool 1 p)
                then fmt_g p +:+ "*" +:+ action else action in
    Ok (f.(SFault.target) +:+ "=" +:+ join "->" (skip ++ [fire])).

Fixpoint map_result {A B} (f : A -> result B) (xs : list A) : result (list B) :=
  match xs with
  | [] => mret []
  | x :: xs' => y ← f x; ys ← map_result f xs'; mret (y :: ys)
  end.

Definition failpoints_env (faults : list SFault.t) : result string :=
  specs ← map_result to_fail_spec
            (filter (fun f => f.(SFault.layer) = LAYER_SERVER) faults);
  mret (join ";" specs).
End render.

(** ** The connector registry *)

(** A registered connector: a real one, or the [ChaosConnector] around another. *)
Inductive SConn (C : Type) :=
  | Real (c : C)
  | ChaosConnector (inner : SConn C) (faults : list SFault.t).
Arguments Real {C} _.
Arguments ChaosConnector {C} _ _.

Section registry.
Context {C : Type}.
(** the [name] attribute of a real connector *)
Variable own_name : C -> string.

(** [ChaosConnector.name] *)
Fixpoint conn_name (c : SConn C) : string :=
  match c with
  | Real c => own_name c
  | ChaosConnector inner _ => conn_name inner
  end.

Definition Registry : Type := list (string * SConn C).

(** [register(connector, name=name)] *)
Definition register (connector : SConn C) (name : string) : M Registry unit := fun reg =>
  let n := str_or name (conn_name connector) in
  if decide (n = "") then (Err (ValueError MConnectorNameRequired), reg)
  else (Ok tt, dict_set n connector reg).
End registry.
Arguments Registry : clear implicits.

(** ** Scenario and report *)

Module SInvariantResult.
Record t := mk { name : string; passed : bool; detail : string }.
End SInvariantResult.

(** [check(client=, run_id=)] reads the journal [J] the client sees, or raises. *)
Module SInvariant.
Record t (J : Type) := mk { name : string; check : J -> result SInvariantResult.t }.
Arguments mk {J} _ _.
Arguments name {J} _.
Arguments check {J} _ _.
End SInvariant.

Module Scenario.
Record t (J : Type) := mk {
  name : string;
  faults : list SFault.t;
  invariants : list (SInvariant.t J);
  seed : Z;
  strict_faults : bool
}.
Arguments mk {J} _ _ _ _ _.
Arguments name {J} _.
Arguments faults {J} _.
Arguments invariants {J} _.
Arguments seed {J} _.
Arguments strict_faults {J} _.
End Scenario.

(** [scenario]: the defaults are no seed and strict faults. *)
Definition scenario {J} (name : string) (faults : list SFault.t)
    (invariants : list (SInvariant.t J)) : Scenario.t J :=
  Scenario.mk name faults invariants 0 true.

Module Report.
Record t := mk {
  scenario_name : string;
  seed : Z;
  failpoints_spec : string;
  passed : bool;
  invariant_results : list SInvariantResult.t;
  notes : list string
}.
End Report.

Definition fail_with (r : Report.t) (results : list SInvariantResult.t)
    (notes : list string) : Report.t :=
  Report.mk r.(Report.scenario_name) r.(Report.seed) r.(Report.failpoints_spec) false
    (r.(Report.invariant_results) ++ results) (r.(Report.notes) ++ notes).
Definition pass_with (r : Report.t) (results : list SInvariantResult.t)
    (notes : list string) : Report.t :=
  Report.mk r.(Report.scenario_name) r.(Report.seed) r.(Report.failpoints_spec)
    r.(Report.passed) (r.(Report.invariant_results) ++ results) (r.(Report.notes) ++ notes).

(** ** The session *)

(** [unpatches] holds the originals its restore closures register again. *)
Module Session.
Record t (C : Type) := mk {
  registry : Registry C;
  report : Report.t;
  unpatches : list (SConn C)
}.
Arguments mk {C} _ _ _.
Arguments registry {C} _.
Arguments report {C} _.
Arguments unpatches {C} _.
End Session.

(** [by_connector.setdefault(f.target, []).append(f)] *)
Definition group_fault (f : SFault.t) (by_connector : list (string * list SFault.t)) :=
  dict_set f.(SFault.target)
    (default [] (dict_get f.(SFault.target) by_connector) ++ [f]) by_connector.

Section session.
Context {C J : Type}.
Variable own_name : C -> string.
Variable fmt_g : Q -> string.
(** [repr()] of a string; [type(ex).__name__] with [str(ex)] *)
Variable py_repr : string -> string.
Variable exn_text : exn -> string.
Variable scen : Scenario.t J.

Definition skip_fault (message : string) : M (Session.t C) unit := fun s =>
  let r := s.(Session.report) in
  let r' := if scen.(Scenario.strict_faults)
    then fail_with r [SInvariantResult.mk "strict_faults" false message] [message]
    else pass_with r [] [message] in
  (Ok tt, Session.mk s.(Session.registry) r' s.(Session.unpatches)).

(** [_wrap_connector]: the wrapper is registered under its own name *)
Definition wrap_connector (real : SConn C) (faults : list SFault.t)
    : M (Session.t C) unit := fun s =>
  match register own_name (ChaosConnector real faults) "" s.(Session.registry) with
  | (Ok _, reg) =>
    (Ok tt, Session.mk reg s.(Session.report) (s.(Session.unpatches) ++ [real]))
  | (Err e, reg) => (Err e, Session.mk reg s.(Session.report) s.(Session.unpatches))
  end.

Definition neither_text : string := "connector fault skipped: neither target nor tool set".
Definition unregistered_text (name : string) : string :=
  "connector fault for " +:+ py_repr name +:+ " skipped: connector not registered".
Definition none_registered_text : string :=
  "tool-scoped fault(s) skipped: no connectors registered".

(** Sort the connector faults by where they attach. *)
Fixpoint sort_faults (fs : list SFault.t) (by_connector : list (string * list SFault.t))
    (tool_scoped : list SFault.t)
    : M (Session.t C) (list (string * list SFault.t) * list SFault.t) :=
  match fs with
  | [] => mret (by_connector, tool_scoped)
  | f :: fs' =>
    if decide (f.(SFault.layer) <> LAYER_CONNECTOR) then sort_faults fs' by_connector tool_scoped
    else if decide (f.(SFault.target) <> "")
    then sort_faults fs' (group_fault f by_connector) tool_scoped
    else if decide (f.(SFault.tool) <> "")
    then sort_faults fs' by_connector (tool_scoped ++ [f])
    else _ ← skip_fault neither_text; sort_faults fs' by_connector tool_scoped
  end.

(** Wrap each targeted connector that is registered. *)
Definition wrap_target (tool_scoped : list SFault.t) (nf : string * list SFault.t)
    : M (Session.t C) unit := fun s =>
  match dict_get nf.1 s.(Session.registry) with
  | None => skip_fault (unregistered_text nf.1) s
  | Some real => wrap_connector real (nf.2 ++ tool_scoped) s
  end.

(** Fan the tool-scoped faults out to a connector not targeted by name. *)
Definition wrap_untargeted (already : list string) (tool_scoped : list SFault.t)
    (nc : string * SConn C) : M (Session.t C) unit :=
  if decide (nc.1 ∈ already) then mret tt else wrap_connector nc.2 tool_scoped.

Definition apply_connector_faults : M (Session.t C) unit :=
  sorted ← sort_faults scen.(Scenario.faults) [] [];
  let '(by_connector, tool_scoped) := sorted in
  _ ← for_each by_connector (wrap_target tool_scoped);
  match tool_scoped with
  | [] => mret tt
  | _ => fun s =>
    let registered := s.(Session.registry) in
    (_ ← (match registered with [] => skip_fault none_registered_text | _ => mret tt end);
     _ ← for_each registered (wrap_untargeted (by_connector.*1) tool_scoped);
     mret tt) s
  end.

(** Each restore closure, its exception swallowed. *)
Definition restore (real : SConn C) (reg : Registry C) : Registry C :=
  (register own_name real "" reg).2.

Definition check_one (j : J) (inv : SInvariant.t J) : SInvariantResult.t :=
  match SInvariant.check inv j with
  | Ok r => r
  | Err ex => SInvariantResult.mk (SInvariant.name inv) false
                ("check raised: " +:+ exn_text ex)
  end.

Definition check_invariants (j : J) (r : Report.t) : Report.t :=
  foldl (fun r inv =>
    let result := check_one j inv in
    if result.(SInvariantResult.passed) then pass_with r [result] []
    else fail_with r [result] []) r scen.(Scenario.invariants).

Definition session_exit (body_result : result unit) (j : J) (s : Session.t C)
    : Session.t C :=
  let reg := foldl (fun reg real => restore real reg) s.(Session.registry)
               (reverse s.(Session.unpatches)) in
  let r := match body_result with
    | Ok _ => s.(Session.report)
    | Err ex => fail_with s.(Session.report) [] ["body raised: " +:+ exn_text ex]
    end in
  Session.mk reg (check_invariants j r) s.(Session.unpatches).

(** [Session.__init__] *)
Definition open_report : result Report.t :=
  spec ← failpoints_env fmt_g scen.(Scenario.faults);
  mret (Report.mk scen.(Scenario.name) scen.(Scenario.seed) spec true [] []).

(** [run_scenario]: the body sees the wrapped registry and acts on the journal.
    An exception of the body is raised again after the exit; one raised on entry
    leaves without an exit. *)
Definition run_scenario (body : Registry C -> M J unit)
    : M (Registry C * J) Report.t := fun '(reg, j) =>
  match open_report with
  | Err e => (Err e, (reg, j))
  | Ok report =>
    match apply_connector_faults (Session.mk reg report []) with
    | (Err e, s) => (Err e, (s.(Session.registry), j))
    | (Ok _, s) =>
      let '(r, j') := body s.(Session.registry) j in
      let s' := session_exit r j' s in
      (match r with Ok _ => Ok s'.(Session.report) | Err e => Err e end,
       (s'.(Session.registry), j'))
    end
  end.
End session.
