(* ===== verification/ScenarioTheorems.v ===== *)
(** * ScenarioTheorems: what a chaos session applies and restores

    A session leaves the connector registry as it found it; a strict scenario that
    passes had every declared connector fault attached; and two ways in which the
    surface does not do what it says. *)
From Stdlib Require Import QArith.
From S2P Require Import Prelude Scenarios.
#[local] Open Scope nat_scope.

(** ** Dicts *)
Section dict_facts.
Context {K V : Type} `{!EqDecision K}.
Implicit Types (k : K) (v : V) (d : list (K * V)).

Lemma dict_get_set_eq k v d : dict_get k (dict_set k v d) = Some v.
Proof.
  induction d as [|[k' v'] d IH]; simpl; [by rewrite decide_True|].
  case_decide; simpl; [by rewrite decide_True|]. by rewrite decide_False.
Qed.
Lemma dict_get_set_ne k k' v d : k <> k' -> dict_get k (dict_set k' v d) = dict_get k d.
Proof.
  intros Hne. induction d as [|[k2 v2] d IH]; simpl; [by rewrite decide_False by done|].
  case_decide as E; simpl; [subst; by rewrite !decide_False by done|]. by rewrite IH.
Qed.
Lemma dict_get_keys k v d : dict_get k d = Some v -> k ∈ d.*1.
Proof.
  induction d as [|[k' v'] d IH]; simpl; [done|]. case_decide; [subst; by left|right; auto].
Qed.
Lemma dict_get_elem k v d : dict_get k d = Some v -> (k, v) ∈ d.
Proof.
  induction d as [|[k' v'] d IH]; simpl; [done|].
  case_decide; [intros [= ->]; subst; by left|right; auto].
Qed.
Lemma dict_elem_get k v d : NoDup d.*1 -> (k, v) ∈ d -> dict_get k d = Some v.
Proof.
  induction d as [|[k' v'] d IH]; simpl; [by intros _ ?%elem_of_nil|].
  intros [Hn Hd]%NoDup_cons [[= -> ->]|Hin]%elem_of_cons; [by rewrite decide_True|].
  rewrite decide_False; [auto|]. intros ->. apply Hn. by apply (list_elem_of_fmap_2 fst) in Hin.
Qed.
Lemma dict_set_keys k v v' d : dict_get k d = Some v' -> (dict_set k v d).*1 = d.*1.
Proof.
  induction d as [|[k2 v2] d IH]; simpl; [done|].
  case_decide; simpl; [by subst|]. intros Hg. f_equal. by apply IH.
Qed.
Lemma dict_set_NoDup k v d : NoDup d.*1 -> NoDup (dict_set k v d).*1.
Proof.
  induction d as [|[k2 v2] d IH]; simpl; [intros _; apply NoDup_singleton|].
  intros [Hn Hd]%NoDup_cons. case_decide as E; simpl; [subst; by constructor|].
  assert (Hsub' : forall x, x ∈ (dict_set k v d).*1 -> x = k \/ x ∈ d.*1).
  { clear -E. induction d as [|[k3 v3] d IH]; simpl; [set_solver|].
    case_decide; simpl; set_solver. }
  constructor; [|by apply IH].
  intros [->|]%Hsub'; done.
Qed.
(** Writing a key and writing it back. *)
Lemma dict_set_undo k v v' d :
  dict_get k d = Some v -> dict_set k v (dict_set k v' d) = d.
Proof.
  induction d as [|[k2 v2] d IH]; simpl; [done|].
  case_decide as E; simpl; [intros [= ->]; subst; by rewrite decide_True|].
  intros Hg. rewrite decide_False by done. by rewrite IH.
Qed.
End dict_facts.

(** ** One session over a well-named registry *)

(** Every connector is registered once, under its own name. *)
Definition well_named {C} (own_name : C -> string) (reg : Registry C) : Prop :=
  NoDup reg.*1 /\ Forall (fun nc => conn_name own_name nc.2 = nc.1 /\ nc.1 <> "") reg.

Section session.
Context {C J : Type} (own_name : C -> string) (py_repr : string -> string)
  (exn_text : exn -> string) (scen : Scenario.t J) (reg : Registry C)
  (Hreg : well_named own_name reg).
Implicit Types (s : Session.t C).

(** Unwinding the patches gives back [reg]. *)
Definition undoes s : Prop :=
  foldl (fun reg real => restore own_name real reg) s.(Session.registry)
    (reverse s.(Session.unpatches)) = reg /\
  s.(Session.registry).*1 = reg.*1.

Definition untouched (n : string) s : Prop :=
  dict_get n s.(Session.registry) = dict_get n reg.

Definition passing s : bool := s.(Session.report).(Report.passed).

Lemma reg_named n c : dict_get n reg = Some c -> conn_name own_name c = n /\ n <> "".
Proof.
  intros Hg%dict_get_elem. destruct Hreg as [_ HF]. rewrite Forall_forall in HF.
  by apply (HF (n, c)).
Qed.

Lemma register_named n c (r : Registry C) :
  conn_name own_name c = n -> n <> "" ->
  register own_name c "" r = (Ok tt, dict_set n c r).
Proof.
  intros Hn Hne. unfold register, str_or. rewrite bool_decide_true by done.
  rewrite Hn. by rewrite decide_False.
Qed.

Lemma wrap_connector_step n c fs s :
  dict_get n reg = Some c -> untouched n s -> undoes s ->
  exists s', wrap_connector own_name c fs s = (Ok tt, s') /\ undoes s' /\
    s'.(Session.registry) = dict_set n (ChaosConnector c fs) s.(Session.registry) /\
    s'.(Session.report) = s.(Session.report).
Proof.
  intros Hc Hu [Hundo Hkeys]. destruct (reg_named n c Hc) as [Hn Hne].
  unfold wrap_connector. rewrite (register_named n) by done.
  eexists. split; [done|]. split; [|done].
  split; cbn [Session.registry Session.unpatches].
  - rewrite reverse_app. cbn [foldl reverse rev_append app]. unfold restore at 2.
    rewrite (register_named n) by done. cbn [snd].
    rewrite dict_set_undo; [done|]. by rewrite Hu.
  - rewrite <- Hkeys. eapply dict_set_keys. by rewrite Hu.
Qed.

Lemma skip_fault_step m s :
  exists s', skip_fault scen m s = (Ok tt, s') /\
    s'.(Session.registry) = s.(Session.registry) /\
    s'.(Session.unpatches) = s.(Session.unpatches) /\
    (scen.(Scenario.strict_faults) = true -> passing s' = false) /\
    (passing s' = true -> passing s = true).
Proof.
  unfold skip_fault. eexists. split; [done|]. cbn. do 2 (split; [done|]).
  destruct (Scenario.strict_faults scen); cbn; [|done]. done.
Qed.

(** Sorting moves no connector; it groups every targeted fault under its target,
    collects the tool-scoped ones, and skips the rest. *)
Lemma sort_faults_run fs bc ts s :
  NoDup bc.*1 ->
  exists bc' ts' s', sort_faults scen fs bc ts s = (Ok (bc', ts'), s') /\
    s'.(Session.registry) = s.(Session.registry) /\
    s'.(Session.unpatches) = s.(Session.unpatches) /\
    (passing s' = true -> passing s = true) /\ NoDup bc'.*1 /\
    (forall n l f, dict_get n bc = Some l -> f ∈ l ->
       exists l', dict_get n bc' = Some l' /\ f ∈ l') /\
    (forall f, f ∈ ts -> f ∈ ts') /\
    (scen.(Scenario.strict_faults) = true -> passing s' = true ->
     forall f, f ∈ fs -> f.(SFault.layer) = LAYER_CONNECTOR ->
       (f.(SFault.target) <> "" -> exists l, dict_get f.(SFault.target) bc' = Some l /\ f ∈ l) /\
       (f.(SFault.target) = "" -> f.(SFault.tool) <> "" /\ f ∈ ts')).
Proof.
  revert bc ts s. induction fs as [|f fs IH]; intros bc ts s Hnd.
  { exists bc, ts, s. split; [done|]. do 3 (split; [done|]). split; [done|].
    split; [eauto|]. split; [done|]. by intros _ _ f ?%elem_of_nil. }
  cbn [sort_faults]. case_decide as Hl; [|case_decide as Ht; [|case_decide as Htl]].
  - destruct (IH bc ts s Hnd) as (bc' & ts' & s' & Hr & H1 & H2 & H3 & H4 & H5 & H6 & H7).
    exists bc', ts', s'. repeat split; try done; try (by eapply H5);
      intros; eapply H7; eauto; by destruct (elem_of_cons fs f0 f) as [[->|] _].
  - destruct (IH (group_fault f bc) ts s) as
      (bc' & ts' & s' & Hr & H1 & H2 & H3 & H4 & H5 & H6 & H7); [by apply dict_set_NoDup|].
    assert (Hkeep : forall n l g, dict_get n bc = Some l -> g ∈ l ->
      exists l', dict_get n bc' = Some l' /\ g ∈ l').
    { intros n l g Hg Hin. destruct (decide (n = f.(SFault.target))) as [->|Hne].
      - eapply H5; [apply dict_get_set_eq|]. rewrite Hg. set_solver.
      - eapply H5; [|done]. unfold group_fault. by rewrite dict_get_set_ne. }
    exists bc', ts', s'. do 5 (split; [done|]). split; [done|]. split; [done|].
    intros Hs Hok g [->|Hg]%elem_of_cons Hlg; [|by eapply H7]. split; [|done].
    intros _. eapply H5; [apply dict_get_set_eq|]. set_solver.
  - destruct (IH bc (ts ++ [f]) s Hnd) as
      (bc' & ts' & s' & Hr & H1 & H2 & H3 & H4 & H5 & H6 & H7).
    exists bc', ts', s'. do 5 (split; [done|]). split; [done|].
    split; [intros g Hg; apply H6; set_solver|].
    intros Hs Hok g [->|Hg]%elem_of_cons Hlg; [|by eapply H7]. split; [done|].
    intros _. split; [done|]. apply H6. set_solver.
  - destruct (skip_fault_step neither_text s) as (s1 & Hs1 & Hr1 & Hp1 & Hst & Hm).
    destruct (IH bc ts s1 Hnd) as (bc' & ts' & s' & Hr & H1 & H2 & H3 & H4 & H5 & H6 & H7).
    exists bc', ts', s'. unfold mbind, M_bind. rewrite Hs1, Hr.
    rewrite H1, H2. split; [done|]. do 2 (split; [done|]). split; [auto|].
    do 3 (split; [done|]). intros Hs Hok. specialize (H3 Hok). by rewrite (Hst Hs) in H3.
Qed.

(** The targets in [bc], each still as registered: every one is wrapped with its
    faults and the tool-scoped ones, or skipped. *)
Lemma wrap_targets_run ts bc s :
  NoDup bc.*1 -> undoes s -> (forall n, n ∈ bc.*1 -> untouched n s) ->
  exists l s', for_each bc (wrap_target own_name py_repr scen ts) s = (Ok l, s') /\
    undoes s' /\ (forall n, n ∉ bc.*1 ->
      dict_get n s'.(Session.registry) = dict_get n s.(Session.registry)) /\
    (passing s' = true -> passing s = true) /\
    (scen.(Scenario.strict_faults) = true -> passing s' = true ->
     forall n fs, (n, fs) ∈ bc -> exists c, dict_get n reg = Some c /\
       dict_get n s'.(Session.registry) = Some (ChaosConnector c (fs ++ ts))).
Proof.
  revert s. induction bc as [|[n fs] bc IH]; intros s Hnd Hundo Hun.
  { exists [], s. do 4 (split; [done|]). by intros _ _ n fs ?%elem_of_nil. }
  apply NoDup_cons in Hnd as [Hn Hnd]. cbn in Hn, Hun.
  assert (Hnun : untouched n s) by (apply Hun; by left).
  cbn [for_each]. unfold mbind, M_bind at 1, wrap_target at 1. cbn [fst snd].
  rewrite Hnun. destruct (dict_get n reg) as [c|] eqn:Hc.
  - destruct (wrap_connector_step n c (fs ++ ts) s Hc Hnun Hundo)
      as (s1 & -> & Hu1 & Hr1 & Hp1).
    assert (Hoth : forall m, m <> n ->
      dict_get m s1.(Session.registry) = dict_get m s.(Session.registry)).
    { intros m Hm. rewrite Hr1. by rewrite dict_get_set_ne. }
    destruct (IH s1 Hnd Hu1) as (l & s' & Hl & Hu' & Hun' & Hok & Hall).
    { intros m Hm. unfold untouched. rewrite Hoth by by intros ->. apply Hun. by right. }
    unfold M_bind. rewrite Hl. eexists _, s'. split; [done|]. split; [done|].
    split. { intros m [Hm1 Hm2]%not_elem_of_cons. rewrite Hun' by done. auto. }
    unfold passing in *. rewrite Hp1 in Hok. split; [done|].
    intros Hs Hp m gs [[= -> ->]|Hin]%elem_of_cons; [|by apply Hall].
    exists c. split; [done|]. rewrite Hun' by done. rewrite Hr1. apply dict_get_set_eq.
  - destruct (skip_fault_step (unregistered_text py_repr n) s)
      as (s1 & -> & Hr1 & Hp1 & Hst & Hm).
    destruct (IH s1 Hnd) as (l & s' & Hl & Hu' & Hun' & Hok & Hall).
    { unfold undoes. by rewrite Hr1, Hp1. }
    { intros m Hm'. unfold untouched. rewrite Hr1. apply Hun. by right. }
    unfold M_bind. rewrite Hl. eexists _, s'. split; [done|]. split; [done|].
    split. { intros m [Hm1 Hm2]%not_elem_of_cons. rewrite Hun' by done. by rewrite Hr1. }
    split; [auto|]. intros Hs Hp. by rewrite (Hst Hs) in Hok; specialize (Hok Hp).
Qed.

(** The fan-out over registered connectors not targeted by name. *)
Lemma wrap_untargeted_run already ts ncs s :
  NoDup ncs.*1 -> undoes s ->
  (forall n c, (n, c) ∈ ncs -> n ∉ already -> dict_get n reg = Some c /\ untouched n s) ->
  exists l s', for_each ncs (wrap_untargeted own_name already ts) s = (Ok l, s') /\
    undoes s' /\ s'.(Session.report) = s.(Session.report) /\
    (forall n, n ∉ ncs.*1 \/ n ∈ already ->
      dict_get n s'.(Session.registry) = dict_get n s.(Session.registry)) /\
    (forall n c, (n, c) ∈ ncs -> n ∉ already ->
      dict_get n s'.(Session.registry) = Some (ChaosConnector c ts)).
Proof.
  revert s. induction ncs as [|[n c] ncs IH]; intros s Hnd Hundo Hun.
  { exists [], s. do 4 (split; [done|]). by intros n c ?%elem_of_nil. }
  apply NoDup_cons in Hnd as [Hn Hnd]. cbn in Hn.
  cbn [for_each]. unfold mbind, M_bind at 1, wrap_untargeted at 1. cbn [fst snd].
  case_decide as Ha.
  - unfold mret, M_ret. destruct (IH s Hnd Hundo) as (l & s' & Hl & Hu' & Hrep & Hsame & Hall).
    { intros m d Hm. apply Hun. by right. }
    unfold M_bind. rewrite Hl. eexists _, s'. split; [done|]. split; [done|]. split; [done|].
    split; [intros m [[_ ?]%not_elem_of_cons|?]; auto|].
    intros m d [[= -> ->]|Hin]%elem_of_cons Hm; [done|by apply Hall].
  - destruct (Hun n c) as [Hc Hnun]; [by left|done|].
    destruct (wrap_connector_step n c ts s Hc Hnun Hundo) as (s1 & -> & Hu1 & Hr1 & Hp1).
    assert (Hoth : forall m, m <> n ->
      dict_get m s1.(Session.registry) = dict_get m s.(Session.registry)).
    { intros m Hm. rewrite Hr1. by rewrite dict_get_set_ne. }
    destruct (IH s1 Hnd Hu1) as (l & s' & Hl & Hu' & Hrep & Hsame & Hall).
    { intros m d Hin Hm. destruct (Hun m d) as [Hd Hu]; [by right|done|]. split; [done|].
      unfold untouched. rewrite Hoth; [exact Hu|]. intros ->.
      by apply Hn, (list_elem_of_fmap_2 fst _ _ Hin). }
    unfold M_bind. rewrite Hl. eexists _, s'. split; [done|]. split; [done|].
    split; [by rewrite Hrep|].
    split.
    { intros m Hm. rewrite Hsame; [|destruct Hm as [[_ ?]%not_elem_of_cons|?]; auto].
      apply Hoth. intros ->. destruct Hm as [[? _]%not_elem_of_cons|?]; done. }
    intros m d [[= -> ->]|Hin]%elem_of_cons Hm; [|by apply Hall].
    rewrite Hsame by by left. rewrite Hr1. apply dict_get_set_eq.
Qed.

(** What a fault that is attached looks like in the wrapped registry. *)
Definition attached (wrapped : Registry C) (f : SFault.t) : Prop :=
  if decide (f.(SFault.target) = "")
  then reg <> [] /\ f.(SFault.tool) <> "" /\
       forall n c, dict_get n reg = Some c -> exists fs,
         dict_get n wrapped = Some (ChaosConnector c fs) /\ f ∈ fs
  else exists c fs, dict_get f.(SFault.target) reg = Some c /\
         dict_get f.(SFault.target) wrapped = Some (ChaosConnector c fs) /\ f ∈ fs.

Lemma apply_run report :
  exists s, apply_connector_faults own_name py_repr scen (Session.mk reg report []) = (Ok tt, s) /\
    undoes s /\
    (scen.(Scenario.strict_faults) = true -> passing s = true ->
     forall f, f ∈ scen.(Scenario.faults) -> f.(SFault.layer) = LAYER_CONNECTOR ->
       attached s.(Session.registry) f).
Proof.
  pose proof Hreg as [Hnd _].
  destruct (sort_faults_run (Scenario.faults scen) [] [] (Session.mk reg report [])
    ltac:(constructor)) as (bc & ts & s1 & Hsort & Hr1 & Hp1 & _ & Hbc & _ & _ & Hall1).
  cbn [Session.registry Session.unpatches] in Hr1, Hp1.
  destruct (wrap_targets_run ts bc s1 Hbc) as (l2 & s2 & Hw & Hu2 & Hsame2 & Hok2 & Hall2).
  { unfold undoes. by rewrite Hr1, Hp1. }
  { intros n _. unfold untouched. by rewrite Hr1. }
  unfold apply_connector_faults, mbind, M_bind. rewrite Hsort, Hw.
  destruct ts as [|t0 ts0] eqn:Hts; [|rewrite <- Hts in *; clear Hts].
  - exists s2. split; [done|]. split; [done|]. intros Hs Hp f Hf Hlay.
    destruct (Hall1 Hs (Hok2 Hp) f Hf Hlay) as [Ht Hto]. unfold attached. case_decide as Htg.
    { destruct (Hto Htg) as [_ ?%elem_of_nil]. done. }
    destruct (Ht Htg) as (fs & Hg & Hin). apply dict_get_elem in Hg.
    destruct (Hall2 Hs Hp _ _ Hg) as (c & Hc & Hw2). exists c, (fs ++ []). set_solver.
  - set (m := match Session.registry s2 with [] => _ | _ => _ end).
    assert (Hm : exists s3, m s2 = (Ok tt, s3) /\ undoes s3 /\
      s3.(Session.registry) = s2.(Session.registry) /\ (passing s3 = true -> passing s2 = true) /\
      (scen.(Scenario.strict_faults) = true -> passing s3 = true -> reg <> [])).
    { subst m. destruct (Session.registry s2) as [|nc ncs] eqn:E.
      - destruct (skip_fault_step none_registered_text s2) as (s3 & Hs3 & Hr3 & Hp3 & Hst & Hm).
        exists s3. unfold undoes in *. rewrite Hr3, Hp3, E. rewrite E in Hu2.
        split; [done|]. do 2 (split; [done|]). split; [done|].
        intros Hs. by rewrite (Hst Hs).
      - exists s2. do 4 (split; [done|]). intros _ _ Hnil. destruct Hu2 as [_ Hk].
        by rewrite E, Hnil in Hk. }
    destruct Hm as (s3 & -> & Hu3 & Hr3 & Hok3 & Hne).
    assert (Hkeys : NoDup (Session.registry s2).*1) by (destruct Hu2 as [_ ->]; done).
    destruct (wrap_untargeted_run bc.*1 ts (Session.registry s2) s3 Hkeys Hu3)
      as (l4 & s4 & Hl4 & Hu4 & Hrep4 & Hsame4 & Hall4).
    { intros n c Hin Hn. apply dict_elem_get in Hin; [|done].
      unfold untouched. rewrite Hr3, <- Hin, Hsame2 by done. by rewrite Hr1. }
    rewrite Hl4. exists s4. split; [done|]. split; [done|]. intros Hs Hp.
    unfold passing in Hp. rewrite Hrep4 in Hp. intros f Hf Hlay.
    destruct (Hall1 Hs (Hok2 (Hok3 Hp)) f Hf Hlay) as [Ht Hto].
    unfold attached. case_decide as Htg.
    + destruct (Hto Htg) as [Htool Hin]. split; [by apply Hne|]. split; [done|].
      intros n c Hc. destruct (decide (n ∈ bc.*1)) as [Hn|Hn].
      * apply list_elem_of_fmap in Hn as ([n' fs] & -> & Hn). cbn [fst] in *.
        destruct (Hall2 Hs (Hok3 Hp) _ _ Hn) as (c' & Hc' & Hw2).
        assert (c' = c) as -> by congruence. exists (fs ++ ts).
        rewrite Hsame4, Hr3 by (right; by apply (list_elem_of_fmap_2 fst) in Hn). set_solver.
      * exists ts. split; [|done]. apply Hall4; [|done]. apply dict_get_elem.
        rewrite Hsame2 by done. by rewrite Hr1.
    + destruct (Ht Htg) as (fs & Hg & Hin). pose proof (dict_get_keys _ _ _ Hg) as Hk.
      apply dict_get_elem in Hg.
      destruct (Hall2 Hs (Hok3 Hp) _ _ Hg) as (c & Hc & Hw2). exists c, (fs ++ ts).
      rewrite Hsame4, Hr3 by by right. set_solver.
Qed.

Lemma check_invariants_honest j r :
  (check_invariants exn_text scen j r).(Report.passed) = true <->
  r.(Report.passed) = true /\
  Forall (fun inv => (check_one exn_text j inv).(SInvariantResult.passed) = true)
    scen.(Scenario.invariants).
Proof.
  unfold check_invariants. generalize (Scenario.invariants scen) as invs. intros invs.
  revert r. induction invs as [|inv invs IH]; intros r; cbn [foldl].
  { split; [by split|by intros []]. }
  rewrite IH, Forall_cons.
  destruct (SInvariantResult.passed (check_one exn_text j inv)); cbn; intuition done.
Qed.
End session.

Lemma map_result_ok {A B} (f : A -> result B) xs :
  Forall (fun x => is_ok (f x) = true) xs -> exists ys, map_result f xs = Ok ys.
Proof.
  induction 1 as [|x xs Hx _ [ys IH]]; [by exists []|].
  cbn. destruct (f x); [|done]. cbn. rewrite IH. by eexists.
Qed.

(** Rendering the failpoints of a scenario never fails. *)
Lemma failpoints_env_ok fmt_g faults : exists spec, failpoints_env fmt_g faults = Ok spec.
Proof.
  unfold failpoints_env. destruct (map_result_ok (to_fail_spec fmt_g)
    (filter (fun f => f.(SFault.layer) = LAYER_SERVER) faults)) as [ys ->]; [|by eexists].
  apply Forall_forall. intros f [Hf _]%list_elem_of_filter. unfold to_fail_spec.
  by rewrite decide_False by (intros H; by apply H).
Qed.

(** A chaos session restores what it patched and does not pass by accident.
    Over connectors registered under their own names, running a scenario leaves
    the registry exactly as it found it, whether or not the body raises; and when
    a strict scenario's report passes, the body ran over a registry in which every
    declared connector fault was attached to its connector (a tool-scoped one to
    every connector) and every invariant passed on the journal the body left. *)
Theorem session_restores_and_applies {C J} (own_name : C -> string) fmt_g py_repr exn_text
    (scen : Scenario.t J) body reg j :
  well_named own_name reg ->
  exists wrapped r j', body wrapped j = (r, j') /\
    (run_scenario own_name fmt_g py_repr exn_text scen body (reg, j)).2 = (reg, j') /\
    match (run_scenario own_name fmt_g py_repr exn_text scen body (reg, j)).1 with
    | Err e => r = Err e
    | Ok report => r = Ok tt /\
      (scen.(Scenario.strict_faults) = true -> report.(Report.passed) = true ->
       (forall f, f ∈ scen.(Scenario.faults) -> f.(SFault.layer) = LAYER_CONNECTOR ->
          attached reg wrapped f) /\
       forall inv, inv ∈ scen.(Scenario.invariants) ->
         exists res, SInvariant.check inv j' = Ok res /\ res.(SInvariantResult.passed) = true)
    end.
Proof.
  intros Hreg. unfold run_scenario, open_report.
  destruct (failpoints_env_ok fmt_g (Scenario.faults scen)) as [spec ->].
  cbn [mbind result_bind mret result_ret].
  destruct (apply_run own_name py_repr scen reg Hreg
    (Report.mk (Scenario.name scen) (Scenario.seed scen) spec true [] []))
    as (s & -> & [Hundo _] & Happ).
  destruct (body (Session.registry s) j) as [r j'] eqn:Hb.
  exists (Session.registry s), r, j'. split; [done|]. unfold session_exit. cbn [snd fst].
  rewrite Hundo. split; [done|]. destruct r as [[]|e]; [|done]. split; [done|].
  intros Hs Hp. apply check_invariants_honest in Hp as [Hp Hinv]. split; [by apply Happ|].
  intros inv Hin. rewrite Forall_forall in Hinv. specialize (Hinv inv Hin). cbn beta in Hinv.
  unfold check_one in Hinv. destruct (SInvariant.check inv j'); [eauto|done].
Qed.

(** Two connectors named by themselves; a lost ack on one, a duplicate by tool. *)
Definition two_connectors : Registry string := [("bank", Real "bank"); ("fx", Real "fx")].
Definition chaos_day : Scenario.t nat :=
  scenario "chaos day"
    [SFault.mk LAYER_CONNECTOR "bank" "lose_ack" (3#10) 0 0 0 "" "" None;
     SFault.mk LAYER_CONNECTOR "" "duplicate" (1#20) 0 0 0 "wire" "" None;
     crash "tape::begin_effect::post_db" 1 1 ""]
    [SInvariant.mk "three" (fun j => Ok (SInvariantResult.mk "three" (Nat.eqb j 3) ""))].
Definition drive_three : Registry string -> M nat unit := fun _ _ => (Ok tt, 3).

Lemma session_restores_and_applies_witness :
  exists wrapped r j', drive_three wrapped 0 = (r, j') /\
    (run_scenario (fun c => c) (fun _ => "0.5") (fun s => s) (fun _ => "") chaos_day
       drive_three (two_connectors, 0)).2 = (two_connectors, j').
Proof.
  destruct (session_restores_and_applies (fun c => c) (fun _ => "0.5") (fun s => s)
    (fun _ => "") chaos_day drive_three two_connectors 0) as
    (wrapped & r & j' & H1 & H2 & _).
  - split; [by apply (bool_decide_unpack _); vm_compute|].
    by repeat constructor.
  - exists wrapped, r, j'. exact (conj H1 H2).
Defined.

Lemma Qle_bool_lt p q : (p < q)%Q -> Qle_bool q p = false.
Proof. intros H. apply not_true_is_false. rewrite Qle_bool_iff. by apply Qlt_not_le. Qed.

(** The failpoint string a fault renders to.  A server fault with probability
    strictly between 0 and 1 carries it as a prefix; any other probability renders
    as the unconditional action, so a fault declared with probability 0 always
    fires; and connector faults never reach the string. *)
Theorem failpoint_probability fmt_g fp p n when faults :
  to_fail_spec fmt_g (crash fp p n when) =
    Ok (fp +:+ "=" +:+ join "->" ((if decide (0 < n)%Z then [pretty n +:+ "*off"] else []) ++
      [if Qlt_le_dec 0 p then if Qlt_le_dec p 1 then fmt_g p +:+ "*panic" else "panic"
       else "panic"])) /\
  to_fail_spec fmt_g (crash fp 0 n when) = to_fail_spec fmt_g (crash fp 1 n when) /\
  failpoints_env fmt_g (filter (fun f => f.(SFault.layer) = LAYER_SERVER) faults)
    = failpoints_env fmt_g faults.
Proof.
  unfold to_fail_spec. rewrite decide_False by (intros H; by apply H).
  split; [|split; [done|]].
  - cbn [crash SFault.probability SFault.after_n SFault.target]. do 5 f_equal.
    destruct (Qlt_le_dec 0 p) as [H0|H0].
    + rewrite (Qle_bool_lt _ _ H0). destruct (Qlt_le_dec p 1) as [H1|H1].
      * by rewrite (Qle_bool_lt _ _ H1).
      * by rewrite (proj2 (Qle_bool_iff 1 p) H1).
    + by rewrite (proj2 (Qle_bool_iff p 0) H0).
  - unfold failpoints_env. by rewrite list_filter_filter_l by done.
Qed.

(** A connector registered under another name escapes its faults.  When
    [register(connector, name=...)] chose the key, the session re-registers the
    wrapper under the connector's own name: the declared fault is never attached,
    the strict scenario passes nevertheless, and the registry keeps a stray
    entry. *)
Theorem override_named_connector_unfaulted :
  exists reg wrapped report reg',
    register (fun c : string => c) (Real "bank") "wires" [] = (Ok tt, reg) /\
    run_scenario (J := Registry string) (fun c => c) (fun _ => "") (fun s => s) (fun _ => "")
      (scenario "s" [SFault.mk LAYER_CONNECTOR "wires" "lose_ack" 1 0 0 0 "" "" None] [])
      (fun seen _ => (Ok tt, seen)) (reg, [])
    = (Ok report, (reg', wrapped)) /\
    report.(Report.passed) = true /\ report.(Report.notes) = [] /\
    dict_get "wires" wrapped = Some (Real "bank") /\
    reg' <> reg.
Proof.
  do 4 eexists. split; [vm_compute; reflexivity|]. split; [vm_compute; reflexivity|].
  repeat split. discriminate.
Qed.
