(* ===== verification/Lineage.v ===== *)
(** * Lineage: deriving faults from one successful run

    [tape/chaos/lineage.py]: the lineage graph of a run's journal, its cuts, the
    scenario each cut becomes, and the loop that runs them.

    Then the theorems: the graph, the cuts and the scenarios they become. *)
From Stdlib Require Import Ascii QArith.
From S2P Require Import Prelude Scenarios.
#[local] Open Scope Z_scope.
#[local] Open Scope nat_scope.

(** ** Journal entries *)

(** One entry of [subscribe_run], and whether the deadline has passed when the loop
    has handled it. *)
Module Entry.
Record t := mk { seq : Z; kind : string; payload_json : string; late : bool }.
End Entry.

(** What the iterator yields, and how it ends: exhausted, or raising. *)
Record Stream := mkStream { entries : list Entry.t; ending : option exn }.

Module LineageNode.
Record t := mk {
  seq : Z;
  kind : string;
  payload : json;
  parent_seq : Z;
  breaking_failpoint : string
}.
End LineageNode.

Record LineageGraph := mkGraph { run_id : string; nodes : list LineageNode.t }.

(** ** Python on payload values *)

(** [payload.get(field)] on a parsed payload: only a dict has it. *)
Fixpoint field_of (field : string) (l : list (string * json)) : json :=
  match l with
  | [] => JNull
  | (k, v) :: l' => if decide (k = field) then v else field_of field l'
  end.
Definition get (payload : json) (field : string) : result json :=
  match payload with JObj l => Ok (field_of field l) | _ => Err AttributeError end.

(** [str.lower] on ASCII text *)
Definition lower_char (c : ascii) : ascii :=
  let n := nat_of_ascii c in
  if decide (65 <= n /\ n <= 90) then ascii_of_nat (n + 32) else c.
Fixpoint lower (s : string) : string :=
  match s with EmptyString => "" | String c s' => String (lower_char c) (lower s') end.

(** [(payload.get("status") or "").lower()] *)
Definition status_lower (payload : json) : result string :=
  v ← get payload "status";
  match json_or v (JStr "") with JStr s => Ok (lower s) | _ => Err AttributeError end.

Definition begin_run_fp : string := "tape::begin_run::post_db".
Definition end_run_fp : string := "tape::end_run::post_db".
Definition record_decision_fp : string := "tape::record_decision::post_db".
Definition begin_effect_fp : string := "tape::begin_effect::post_db".
Definition complete_effect_fp : string := "tape::complete_effect::post_db".
Definition reconcile_effect_fp : string := "tape::reconcile_effect::post_db".
Definition resolve_obligation_fp : string := "tape::resolve_obligation::post_db".
Definition register_compensation_fp : string := "tape::register_compensation::post_db".
Definition send_signal_fp : string := "tape::send_signal::post_db".
Definition await_signal_fp : string := "tape::await_signal::post_db".
Definition delete_value_fp : string := "tape::delete_value::post_db".
Definition write_value_fp : string := "tape::write_value::post_db".

(** ** Building the graph *)

(** The loop's dictionaries: decision index to seq, idempotency key to seq, and
    gate name to seq. *)
Record Seen := mkSeen {
  decision_seqs : gmap Z Z;
  effect_seqs : gmap string Z;
  gate_seqs : gmap string Z
}.
Definition nothing_seen : Seen := mkSeen ∅ ∅ ∅.

(** [d.setdefault(k, v)] *)
Definition set_default (k : string) (v : Z) (m : gmap string Z) : gmap string Z :=
  match m !! k with Some _ => m | None => <[k := v]> m end.

Section from_run.
(** [json.loads]; [int()] of a string or a float; [str()] of a value that is not a
    string *)
Variable json_loads : string -> result json.
Variable int_of : json -> result Z.
Variable py_str : json -> string.

(** [json.loads(entry.payload_json or "{}")], the raw text on failure *)
Definition parse_payload (e : Entry.t) : json :=
  match json_loads (str_or e.(Entry.payload_json) "{}") with
  | Ok payload => payload
  | Err _ => JObj [("_raw", JStr e.(Entry.payload_json))]
  end.

(** [int(payload.get("decision_index", -1) or -1)] *)
Definition decision_index (payload : json) : result Z :=
  v ← get payload "decision_index";
  match json_or v (JInt (-1)) with
  | JInt z => Ok z
  | JBool b => Ok (if b then 1 else 0)%Z
  | JList _ | JObj _ | JNull => Err TypeError
  | v => int_of v
  end.

(** [str(payload.get(field) or "")] *)
Definition text_field (payload : json) (field : string) : result string :=
  v ← get payload field;
  match json_or v (JStr "") with JStr s => Ok s | v => Ok (py_str v) end.

Definition run_entry (payload : json) : result string :=
  status ← get payload "status";
  mret (match status with
        | JStr s => if decide (s = "running") then begin_run_fp else end_run_fp
        | _ => end_run_fp
        end).

Definition decision_entry (seq : Z) (payload : json) (seen : Seen)
    : result (Seen * Z * string) :=
  idx ← decision_index payload;
  let seqs := <[idx := seq]> seen.(decision_seqs) in
  mret (mkSeen seqs seen.(effect_seqs) seen.(gate_seqs),
        default 0%Z (seqs !! (idx - 1)%Z), record_decision_fp).

Definition effect_entry (seq : Z) (payload : json) (seen : Seen)
    : result (Seen * Z * string) :=
  status ← status_lower payload;
  idx ← decision_index payload;
  let parent := default 0%Z (seen.(decision_seqs) !! idx) in
  key ← text_field payload "idempotency_key";
  mret (
    if decide (key = "") then (seen, parent, "")
    else if decide (status = "pending") then
      (mkSeen seen.(decision_seqs) (set_default key seq seen.(effect_seqs)) seen.(gate_seqs),
       parent, begin_effect_fp)
    else if decide (status = "confirmed") then (seen, parent, complete_effect_fp)
    else if decide (status ∈ ["failed"; "unknown"; "reconciled"])
    then (seen, parent, reconcile_effect_fp)
    else (seen, parent, begin_effect_fp)).

Definition obligation_entry (payload : json) (seen : Seen) : result (Z * string) :=
  key ← text_field payload "effect_key";
  status ← status_lower payload;
  mret (default 0%Z (seen.(effect_seqs) !! key),
        if decide (status ∈ ["compensated"; "stuck"]) then resolve_obligation_fp
        else register_compensation_fp).

Definition gate_entry (seq : Z) (payload : json) (seen : Seen) : result (Seen * string) :=
  gate ← text_field payload "gate";
  status ← status_lower payload;
  let gates := if decide (gate = "") then seen.(gate_seqs)
               else set_default gate seq seen.(gate_seqs) in
  mret (mkSeen seen.(decision_seqs) seen.(effect_seqs) gates,
        if decide (status ∈ ["delivered"; "resolved"]) then send_signal_fp
        else await_signal_fp).

Definition value_entry (payload : json) : result string :=
  deleted ← get payload "deleted";
  mret (if json_truthy deleted then delete_value_fp else write_value_fp).

(** The [if]/[elif] ladder over the entry's kind. *)
Definition classify (e : Entry.t) (payload : json) (seen : Seen)
    : result (Seen * Z * string) :=
  if decide (e.(Entry.kind) = "run") then
    bp ← run_entry payload; mret (seen, 0%Z, bp)
  else if decide (e.(Entry.kind) = "decision") then
    decision_entry e.(Entry.seq) payload seen
  else if decide (e.(Entry.kind) = "effect") then
    effect_entry e.(Entry.seq) payload seen
  else if decide (e.(Entry.kind) = "obligation") then
    po ← obligation_entry payload seen; mret (seen, po.1, po.2)
  else if decide (e.(Entry.kind) = "gate") then
    sg ← gate_entry e.(Entry.seq) payload seen; mret (sg.1, 0%Z, sg.2)
  else if decide (e.(Entry.kind) = "value") then
    bp ← value_entry payload; mret (seen, 0%Z, bp)
  else mret (seen, 0%Z, "").

Definition terminal_statuses : list string := ["terminal"; "failed"; "cancelled"; "stuck"].

(** [entry.kind == "run" and status in terminal_statuses] *)
Definition ends_run (e : Entry.t) (payload : json) : result bool :=
  if decide (e.(Entry.kind) = "run") then
    status ← status_lower payload; mret (bool_decide (status ∈ terminal_statuses))
  else mret false.

Fixpoint walk (seen : Seen) (es : list Entry.t) (ending : option exn)
    : result (list LineageNode.t) :=
  match es with
  | [] => match ending with Some e => Err e | None => mret [] end
  | e :: es' =>
    let payload := parse_payload e in
    c ← classify e payload seen;
    let '(seen', parent, bp) := c in
    let node := LineageNode.mk e.(Entry.seq) e.(Entry.kind) payload parent bp in
    fin ← ends_run e payload;
    if (fin : bool) then mret [node]
    else if e.(Entry.late) then mret [node]
    else ns ← walk seen' es' ending; mret (node :: ns)
  end.

Definition from_run (run_id : string) (s : Stream) : result LineageGraph :=
  ns ← walk nothing_seen s.(entries) s.(ending); mret (mkGraph run_id ns).
End from_run.

(** ** Queries *)

Definition of_kind (kind : string) (g : LineageGraph) : list LineageNode.t :=
  filter (fun n => n.(LineageNode.kind) = kind) g.(nodes).

Definition edges (g : LineageGraph) : list (Z * Z) :=
  (fun n => (n.(LineageNode.parent_seq), n.(LineageNode.seq))) <$>
    filter (fun n => 0 < n.(LineageNode.parent_seq))%Z g.(nodes).

Definition cut_candidates (g : LineageGraph) : list LineageNode.t :=
  filter (fun n => n.(LineageNode.breaking_failpoint) <> "") g.(nodes).

(** The nested loops over [candidates[i + 1:]]. *)
Fixpoint pair_cuts (candidates : list LineageNode.t) : list (list LineageNode.t) :=
  match candidates with
  | [] => []
  | a :: rest =>
    ((fun b => [a; b]) <$> filter (fun b =>
       a.(LineageNode.breaking_failpoint) <> b.(LineageNode.breaking_failpoint)) rest) ++
    pair_cuts rest
  end.

Definition minimal_cuts (g : LineageGraph) (max_size : Z) : list (list LineageNode.t) :=
  let candidates := cut_candidates g in
  ((fun n => [n]) <$> candidates) ++
  (if decide (2 <= max_size)%Z then pair_cuts candidates else []).

(** ** Deriving scenarios *)

Definition node_fault (n : LineageNode.t) : SFault.t :=
  crash n.(LineageNode.breaking_failpoint) 1%Q 1%Z "".
Definition node_label (n : LineageNode.t) : string :=
  n.(LineageNode.kind) +:+ "@" +:+ pretty n.(LineageNode.seq).

Definition derive_scenarios {J} (g : LineageGraph) (invariants : list (SInvariant.t J))
    (max_cut_size : Z) (base_name : string) : list (Scenario.t J) :=
  (fun cut => scenario (base_name +:+ "::cut::" +:+ join "+" (node_label <$> cut))
                (node_fault <$> cut) invariants) <$> minimal_cuts g max_cut_size.

(** ** The loop over derived scenarios *)

Module LDFIReport.
Record t := mk {
  baseline_run_id : string;
  derived_count : nat;
  survived_count : nat;
  broken_scenarios : list (string * list SInvariantResult.t)
}.
End LDFIReport.

Definition survival_rate (r : LDFIReport.t) : nat * nat :=
  if decide (r.(LDFIReport.derived_count) = 0) then (1, 1)
  else (r.(LDFIReport.survived_count), r.(LDFIReport.derived_count)).

Section run_all.
Context {J W : Type}.
(** [runner(scen)]: the invariant results of the report it returns *)
Variable runner : Scenario.t J -> M W (list SInvariantResult.t).

Definition account (name : string) (irs : list SInvariantResult.t) (r : LDFIReport.t)
    : LDFIReport.t :=
  if decide (Forall (fun ir => ir.(SInvariantResult.passed) = true) irs)
  then LDFIReport.mk r.(LDFIReport.baseline_run_id) r.(LDFIReport.derived_count)
         (S r.(LDFIReport.survived_count)) r.(LDFIReport.broken_scenarios)
  else LDFIReport.mk r.(LDFIReport.baseline_run_id) r.(LDFIReport.derived_count)
         r.(LDFIReport.survived_count)
         (r.(LDFIReport.broken_scenarios) ++
          [(name, filter (fun ir => ir.(SInvariantResult.passed) = false) irs)]).

Fixpoint run_from (derived : list (Scenario.t J)) (r : LDFIReport.t) : M W LDFIReport.t :=
  match derived with
  | [] => mret r
  | scen :: rest =>
    irs ← runner scen; run_from rest (account scen.(Scenario.name) irs r)
  end.

Definition run_all (derived : list (Scenario.t J)) (baseline_run_id : string)
    : M W LDFIReport.t :=
  run_from derived (LDFIReport.mk baseline_run_id (length derived) 0 []).
End run_all.

(** ** The walk *)

(** What kind of node another depends on. *)
Definition depends_on (child parent : string) : Prop :=
  (child ∈ ["decision"; "effect"] /\ parent = "decision") \/
  (child = "obligation" /\ parent = "effect").

Section walk.
Context (json_loads : string -> result json) (int_of : json -> result Z)
  (py_str : json -> string).
Implicit Types (pre ns : list LineageNode.t) (e : Entry.t) (seen : Seen).

Definition recorded (kind : string) (s : Z) pre : Prop :=
  exists m, m ∈ pre /\ m.(LineageNode.seq) = s /\ m.(LineageNode.kind) = kind.

(** The dictionaries only hold seqs of nodes already built. *)
Definition seen_ok pre seen : Prop :=
  (forall i s, seen.(decision_seqs) !! i = Some s -> recorded "decision" s pre) /\
  (forall k s, seen.(effect_seqs) !! k = Some s -> recorded "effect" s pre).

Lemma recorded_app kind s pre ns : recorded kind s pre -> recorded kind s (pre ++ ns).
Proof. intros (m & ? & ?). exists m. set_solver. Qed.

Lemma seen_ok_app pre ns seen : seen_ok pre seen -> seen_ok (pre ++ ns) seen.
Proof. intros [Hd He]. split; intros; apply recorded_app; eauto. Qed.

Lemma get_ok_bind {B} payload f (k : json -> result B) b :
  get payload f ≫= k = Ok b -> exists v, k v = Ok b.
Proof. unfold get, mbind, result_bind. destruct payload; naive_solver. Qed.

Lemma result_bind_ok {A B} (r : result A) (k : A -> result B) b :
  r ≫= k = Ok b -> exists a, r = Ok a /\ k a = Ok b.
Proof. destruct r; [by exists a|done]. Qed.

Lemma set_default_lookup k v k' s (m : gmap string Z) :
  set_default k v m !! k' = Some s -> s = v \/ m !! k' = Some s.
Proof.
  unfold set_default. destruct (m !! k); [by right|].
  destruct (decide (k' = k)) as [->|].
  - rewrite lookup_insert_eq. intros [= ->]. by left.
  - rewrite lookup_insert_ne by done. by right.
Qed.

Lemma default_pos {K} (o : option Z) (P : Prop) (x : K) :
  default 0%Z o <> 0%Z -> (forall s, o = Some s -> s = default 0%Z o -> P) -> P.
Proof. destruct o; naive_solver. Qed.

(** One entry: its parent is a node already built, of the kind it depends on, and
    the dictionaries stay accurate. *)
Lemma classify_spec pre e payload seen seen' parent bp :
  seen_ok pre seen ->
  classify int_of py_str e payload seen = Ok (seen', parent, bp) ->
  (parent <> 0%Z -> exists kind, recorded kind parent pre /\ depends_on e.(Entry.kind) kind) /\
  forall n, n.(LineageNode.seq) = e.(Entry.seq) -> n.(LineageNode.kind) = e.(Entry.kind) ->
    seen_ok (pre ++ [n]) seen'.
Proof.
  intros Hok Hc. unfold classify in Hc.
  assert (Hsame : forall n, seen_ok (pre ++ [n]) seen) by (intros; by apply seen_ok_app).
  destruct (decide (Entry.kind e = "run")) as [->|_].
  { apply result_bind_ok in Hc as (? & _ & [= <- <- <-]). done. }
  destruct (decide (Entry.kind e = "decision")) as [->|_].
  { apply result_bind_ok in Hc as (idx & _ & [= <- <- <-]). split.
    - destruct (_ !! (idx - 1)%Z) as [s|] eqn:E; [|done]. intros _.
      rewrite lookup_insert_ne in E by lia. exists "decision".
      split; [by eapply Hok|left; set_solver].
    - intros n Hs Hk. split; cbn; [|by apply Hsame]. intros i s.
      destruct (decide (i = idx)) as [->|].
      + rewrite lookup_insert_eq. intros [= <-]. exists n. set_solver.
      + rewrite lookup_insert_ne by done. by apply Hsame. }
  destruct (decide (Entry.kind e = "effect")) as [Hke|_].
  { apply result_bind_ok in Hc as (st & _ & Hc). apply result_bind_ok in Hc as (idx & _ & Hc).
    apply result_bind_ok in Hc as (key & _ & Hc).
    assert (Hpar : parent = default 0%Z (decision_seqs seen !! idx)).
    { unfold mret, result_ret in Hc. repeat case_decide; congruence. }
    split.
    - rewrite Hke, Hpar. destruct (decision_seqs seen !! idx) as [s|] eqn:E; [|done]. intros _.
      exists "decision". split; [by eapply Hok|left; set_solver].
    - assert (Hseen : seen' = seen \/ seen' = mkSeen (decision_seqs seen)
        (set_default key (Entry.seq e) (effect_seqs seen)) (gate_seqs seen)).
      { unfold mret, result_ret in Hc. repeat case_decide; naive_solver. }
      intros n Hs Hk. destruct Hseen as [->| ->]; [done|].
      split; cbn; [by apply Hsame|]. intros k s [->|Hl]%set_default_lookup.
      + exists n. rewrite Hk. set_solver.
      + by eapply (Hsame n). }
  destruct (decide (Entry.kind e = "obligation")) as [->|_].
  { apply result_bind_ok in Hc as (po & Hpo & [= <- <- <-]). split; [|done].
    apply result_bind_ok in Hpo as (key & _ & Hpo). apply result_bind_ok in Hpo as (st & _ & Hpo).
    injection Hpo as <-. cbn [fst].
    destruct (effect_seqs seen !! key) as [s|] eqn:E; [|done]. intros _.
    exists "effect". split; [by eapply Hok|by right]. }
  destruct (decide (Entry.kind e = "gate")) as [->|_].
  { apply result_bind_ok in Hc as (sg & Hsg & [= <- <- <-]). split; [done|].
    apply result_bind_ok in Hsg as (gate & _ & Hsg). apply result_bind_ok in Hsg as (st & _ & Hsg).
    injection Hsg as <-. intros n _ _. by split; apply (Hsame n). }
  destruct (decide (Entry.kind e = "value")) as [->|_].
  { apply result_bind_ok in Hc as (? & _ & [= <- <- <-]). done. }
  injection Hc as <- <- <-. done.
Qed.

(** Where the walk stops: at a terminal run entry, or once the deadline has passed. *)
Definition stops e : Prop :=
  e.(Entry.late) = true \/
  ends_run e (parse_payload json_loads e) = Ok true.

Definition node_of e (n : LineageNode.t) : Prop :=
  n.(LineageNode.seq) = e.(Entry.seq) /\ n.(LineageNode.kind) = e.(Entry.kind) /\
  n.(LineageNode.payload) = parse_payload json_loads e.

Lemma singleton_split {A} (x y : A) a b : [x] = a ++ y :: b -> a = [] /\ y = x /\ b = [].
Proof. destruct a as [|? [|? a]]; naive_solver. Qed.

Lemma cons_split {A} (x y : A) l a b :
  x :: l = a ++ y :: b -> (a = [] /\ y = x /\ b = l) \/
  exists a', a = x :: a' /\ l = a' ++ y :: b.
Proof. destruct a; naive_solver. Qed.

Lemma walk_spec pre seen es fin ns :
  seen_ok pre seen -> walk json_loads int_of py_str seen es fin = Ok ns ->
  (exists taken rest, es = taken ++ rest /\ Forall2 node_of taken ns /\
     (forall a e b, taken = a ++ e :: b -> b <> [] -> ~ stops e) /\
     ((rest = [] /\ fin = None) \/ exists a e, taken = a ++ [e] /\ stops e)) /\
  forall a n b, ns = a ++ n :: b -> n.(LineageNode.parent_seq) <> 0%Z ->
    exists kind, recorded kind n.(LineageNode.parent_seq) (pre ++ a) /\
      depends_on n.(LineageNode.kind) kind.
Proof.
  revert pre seen ns. induction es as [|e es IH]; intros pre seen ns Hok Hw.
  { cbn in Hw. destruct fin; [done|]. injection Hw as <-. split.
    - exists [], []. split; [done|]. split; [constructor|].
      split; [by intros [|? ?] ? ? ?|by left].
    - by intros [|? ?] n b Hnil. }
  cbn [walk] in Hw. apply result_bind_ok in Hw as ([[seen' parent] bp] & Hc & Hw).
  apply result_bind_ok in Hw as (stop & Hstop & Hw). cbn zeta in Hw.
  set (node := LineageNode.mk _ _ _ _ _) in Hw.
  destruct (classify_spec pre e _ seen seen' parent bp Hok Hc) as [Hpar Hseen].
  assert (Hnode : node_of e node) by done.
  assert (Hhalt : ns = [node] -> stops e ->
    (exists taken rest, e :: es = taken ++ rest /\ Forall2 node_of taken ns /\
       (forall a e b, taken = a ++ e :: b -> b <> [] -> ~ stops e) /\
       ((rest = [] /\ fin = None) \/ exists a e, taken = a ++ [e] /\ stops e)) /\
    forall a n b, ns = a ++ n :: b -> n.(LineageNode.parent_seq) <> 0%Z ->
      exists kind, recorded kind n.(LineageNode.parent_seq) (pre ++ a) /\
        depends_on n.(LineageNode.kind) kind).
  { intros -> Hs. split.
    - exists [e], es. split; [done|]. split; [by repeat constructor|].
      split; [by intros a e0 b (_ & _ & ->)%singleton_split|]. right. by exists [], e.
    - intros a n b (-> & -> & _)%singleton_split. rewrite app_nil_r. exact Hpar. }
  destruct stop; [injection Hw as <-; apply Hhalt; [done|by right]|].
  destruct (Entry.late e) eqn:Hlate; [injection Hw as <-; apply Hhalt; [done|by left]|].
  clear Hhalt. apply result_bind_ok in Hw as (ns' & Hw & [= <-]).
  destruct (IH _ seen' ns' (Hseen node eq_refl eq_refl) Hw)
    as ((taken & rest & -> & Hall & Hno & Hend) & Hparents). split.
  - exists (e :: taken), rest. split; [done|]. split; [by constructor|]. split.
    + intros a e0 b [(-> & -> & ->)|(a' & -> & Ht)]%cons_split Hb; [|by eapply Hno].
      unfold stops. rewrite Hlate, Hstop. by intros [?|?].
    + destruct Hend as [?|(a & e0 & -> & ?)]; [by left|right]. by exists (e :: a), e0.
  - intros a n b [(-> & -> & ->)|(a' & -> & Ht)]%cons_split.
    + rewrite app_nil_r. exact Hpar.
    + intros Hp. destruct (Hparents a' n b Ht Hp) as (kind & Hrec & Hd).
      exists kind. split; [|done]. by rewrite <- app_assoc in Hrec.
Qed.
End walk.

(** The lineage graph of a run.  Its nodes are the journal entries up to and
    including the first terminal run entry (or the first one past the deadline),
    in order; and over a journal with increasing sequence numbers every edge points
    from a node to an earlier node of the graph it depends on, a decision or an
    effect on a decision, an obligation on an effect: the graph is acyclic. *)
Theorem lineage_graph_sound json_loads int_of py_str run_id s g :
  from_run json_loads int_of py_str run_id s = Ok g ->
  StronglySorted Z.lt (Entry.seq <$> s.(entries)) ->
  (exists taken rest, s.(entries) = taken ++ rest /\
     Forall2 (node_of json_loads) taken g.(nodes) /\
     (forall a e b, taken = a ++ e :: b -> b <> [] -> ~ stops json_loads e) /\
     ((rest = [] /\ s.(ending) = None) \/
      exists a e, taken = a ++ [e] /\ stops json_loads e)) /\
  (forall p c, (p, c) ∈ edges g -> (0 < p < c)%Z) /\
  (forall a n b, g.(nodes) = a ++ n :: b -> n.(LineageNode.parent_seq) <> 0%Z ->
     exists m, m ∈ a /\ m.(LineageNode.seq) = n.(LineageNode.parent_seq) /\
       depends_on n.(LineageNode.kind) m.(LineageNode.kind)).
Proof.
  intros Hg Hsorted. unfold from_run in Hg. apply result_bind_ok in Hg as (ns & Hw & [= <-]).
  destruct (walk_spec json_loads int_of py_str [] nothing_seen _ _ _ ltac:(split; intros ? ? [=]) Hw)
    as (Htaken & Hparents). cbn [nodes] in *.
  assert (Hpar : forall a n b, ns = a ++ n :: b -> n.(LineageNode.parent_seq) <> 0%Z ->
     exists m, m ∈ a /\ m.(LineageNode.seq) = n.(LineageNode.parent_seq) /\
       depends_on n.(LineageNode.kind) m.(LineageNode.kind)).
  { intros a n b Hns Hp. destruct (Hparents a n b Hns Hp) as (kind & (m & Hin & Hs & <-) & Hd).
    by exists m. }
  split; [done|]. split; [|done]. intros p c.
  unfold edges. cbn [nodes].
  intros (n & [= -> ->] & [Hpos Hin]%list_elem_of_filter)%list_elem_of_fmap.
  split; [done|]. apply list_elem_of_split in Hin as (a & b & Hns).
  destruct (Hpar a n b Hns ltac:(lia)) as (m & Hm & <- & _).
  destruct Htaken as (taken & rest & Hes & Hall & _).
  assert (Hseqs : LineageNode.seq <$> ns = Entry.seq <$> taken).
  { clear -Hall. induction Hall as [|e n es ns (Hs & _) _ IH]; [done|]. cbn. by rewrite Hs, IH. }
  rewrite Hes, fmap_app in Hsorted. apply StronglySorted_app_1_l in Hsorted.
  rewrite <- Hseqs, Hns, fmap_app in Hsorted. cbn in Hsorted.
  eapply StronglySorted_app_1_elem_of; [exact Hsorted|by apply list_elem_of_fmap_2|by left].
Qed.

(** A small journal and a parser for its payloads. *)
Definition status_payload (st : string) : json := JObj [("status", JStr st)].
Definition decision_payload (i : Z) : json := JObj [("decision_index", JInt i)].
Definition effect_payload (i : Z) (st : string) : json :=
  JObj [("decision_index", JInt i); ("status", JStr st); ("idempotency_key", JStr "k")].
Definition sample_loads (text : string) : result json :=
  match text with
  | "running" => Ok (status_payload "running")
  | "terminal" => Ok (status_payload "TERMINAL")
  | "d0" => Ok (decision_payload 0)
  | "d1" => Ok (decision_payload 1)
  | "e1" => Ok (effect_payload 1 "PENDING")
  | "no decision" => Ok (effect_payload (-1) "PENDING")
  | "ob" => Ok (JObj [("effect_key", JStr "k"); ("status", JStr "pending")])
  | _ => Err (ValueError MNotServerFault)
  end.
Definition sample_int (j : json) : result Z := Err (ValueError MNotServerFault).
Definition sample_str (j : json) : string := "".
Definition sample_entries : list Entry.t :=
  [Entry.mk 1 "run" "running" false; Entry.mk 2 "decision" "d1" false;
   Entry.mk 3 "effect" "e1" false; Entry.mk 4 "obligation" "ob" false;
   Entry.mk 5 "run" "terminal" false; Entry.mk 6 "gate" "?" false].
Definition sample_graph : result LineageGraph :=
  from_run sample_loads sample_int sample_str "r1" (mkStream sample_entries None).

Lemma lineage_graph_sound_witness :
  exists g, sample_graph = Ok g /\ edges g = [(2, 3); (3, 4)]%Z /\
    forall p c, (p, c) ∈ edges g -> (0 < p < c)%Z.
Proof.
  eexists. split; [vm_compute; reflexivity|]. split; [vm_compute; reflexivity|].
  refine (proj1 (proj2 (lineage_graph_sound sample_loads sample_int sample_str "r1"
    (mkStream sample_entries None) _ _ _))).
  - vm_compute. reflexivity.
  - by repeat constructor.
Defined.

(** ** Cuts and scenarios *)

Lemma elem_of_pair_cuts cands cut :
  cut ∈ pair_cuts cands <->
  exists i j a b, i < j /\ cands !! i = Some a /\ cands !! j = Some b /\
    a.(LineageNode.breaking_failpoint) <> b.(LineageNode.breaking_failpoint) /\ cut = [a; b].
Proof.
  induction cands as [|x cands IH]; cbn [pair_cuts].
  { split; [by intros ?%elem_of_nil|]. by intros (? & ? & ? & ? & _ & ? & _). }
  rewrite elem_of_app, IH, list_elem_of_fmap. setoid_rewrite list_elem_of_filter. split.
  - intros [(b & -> & Hne & Hin)|(i & j & a & b & Hij & Ha & Hb & Hne & ->)].
    + apply list_elem_of_lookup in Hin as [j Hj]. exists 0, (S j), x, b.
      split; [lia|]. by repeat split.
    + exists (S i), (S j), a, b. split; [lia|]. by repeat split.
  - intros ([|i] & [|j] & a & b & Hij & Ha & Hb & Hne & ->); try lia.
    + injection Ha as <-. left. exists b. cbn in Hb. eauto using list_elem_of_lookup_2.
    + right. exists i, j, a, b. split; [lia|]. by repeat split.
Qed.

(** The fault of a node skips the first hit, then panics every time. *)
Lemma node_fault_spec fmt_g n :
  to_fail_spec fmt_g (node_fault n) =
    Ok (n.(LineageNode.breaking_failpoint) +:+ "=1*off->panic").
Proof. reflexivity. Qed.

Lemma cut_failpoints fmt_g cut :
  failpoints_env fmt_g (node_fault <$> cut) =
    Ok (join ";" ((fun n => n.(LineageNode.breaking_failpoint) +:+ "=1*off->panic") <$> cut)).
Proof.
  unfold failpoints_env.
  assert (Hf : filter (fun f => f.(SFault.layer) = LAYER_SERVER) (node_fault <$> cut)
    = node_fault <$> cut).
  { induction cut as [|n cut IH]; [done|]. rewrite fmap_cons, filter_cons_True by done. by rewrite IH. }
  rewrite Hf. clear Hf.
  assert (Hm : map_result (to_fail_spec fmt_g) (node_fault <$> cut) =
    Ok ((fun n => n.(LineageNode.breaking_failpoint) +:+ "=1*off->panic") <$> cut)).
  { induction cut as [|n cut IH]; [done|]. cbn [fmap list_fmap map_result].
    rewrite node_fault_spec. cbn [mbind result_bind]. cbn [fmap list_fmap] in IH.
    by rewrite IH. }
  by rewrite Hm.
Qed.

(** The derived scenarios are exactly the cuts.  A cut of size one is a node
    with a failpoint, one of size two (only asked for with [max_size >= 2]) a pair
    of nodes, in journal order, with different failpoints; there is one strict
    scenario per cut, whose failpoint string makes each of its nodes' failpoints
    panic after the first hit and nothing else. *)
Theorem derived_scenarios_are_cuts {J} (g : LineageGraph) (invs : list (SInvariant.t J))
    max_size base fmt_g :
  (forall cut, cut ∈ minimal_cuts g max_size <->
     (exists n, n ∈ cut_candidates g /\ cut = [n]) \/
     ((2 <= max_size)%Z /\ exists i j a b, i < j /\ cut_candidates g !! i = Some a /\
        cut_candidates g !! j = Some b /\
        a.(LineageNode.breaking_failpoint) <> b.(LineageNode.breaking_failpoint) /\
        cut = [a; b])) /\
  Forall2 (fun cut scen =>
    scen.(Scenario.invariants) = invs /\ scen.(Scenario.strict_faults) = true /\
    failpoints_env fmt_g scen.(Scenario.faults) = Ok (join ";"
      ((fun n => n.(LineageNode.breaking_failpoint) +:+ "=1*off->panic") <$> cut)))
    (minimal_cuts g max_size) (derive_scenarios g invs max_size base).
Proof.
  split.
  - intros cut. unfold minimal_cuts. rewrite elem_of_app, list_elem_of_fmap.
    case_decide; [rewrite elem_of_pair_cuts|rewrite elem_of_nil]; naive_solver.
  - unfold derive_scenarios. apply Forall2_fmap_r, Forall_Forall2_diag, Forall_forall.
    intros cut _. split; [done|]. split; [done|]. apply cut_failpoints.
Qed.

(** ** The loop *)

(** What the report should say, given what each scenario's run returned. *)
Definition broke (irs : list SInvariantResult.t) : Prop :=
  Exists (fun ir => ir.(SInvariantResult.passed) = false) irs.
#[export] Instance broke_dec irs : Decision (broke irs).
Proof. unfold broke. apply _. Defined.

Definition verdicts {J} (derived : list (Scenario.t J))
    (outcomes : list (list SInvariantResult.t)) : list (string * list SInvariantResult.t) :=
  (fun so => (so.1.(Scenario.name),
              filter (fun ir => ir.(SInvariantResult.passed) = false) so.2)) <$>
    filter (fun so => broke so.2) (zip derived outcomes).

Lemma account_spec name irs r :
  account name irs r =
    if decide (broke irs)
    then LDFIReport.mk r.(LDFIReport.baseline_run_id) r.(LDFIReport.derived_count)
           r.(LDFIReport.survived_count) (r.(LDFIReport.broken_scenarios) ++
             [(name, filter (fun ir => ir.(SInvariantResult.passed) = false) irs)])
    else LDFIReport.mk r.(LDFIReport.baseline_run_id) r.(LDFIReport.derived_count)
           (S r.(LDFIReport.survived_count)) r.(LDFIReport.broken_scenarios).
Proof.
  unfold account. assert (Hnot : broke irs <->
    ~ Forall (fun ir => ir.(SInvariantResult.passed) = true) irs).
  { unfold broke. split.
    - intros (ir & Hin & Hir)%Exists_exists HF. rewrite Forall_forall in HF.
      by rewrite HF in Hir.
    - intros Hn%not_Forall_Exists; [|apply _]. eapply Exists_impl; [exact Hn|].
      intros ir Hir. by apply not_true_is_false. }
  destruct (decide (broke irs)) as [Hb|Hb].
  - by rewrite decide_False by by apply Hnot.
  - rewrite decide_True; [done|]. apply dec_stable. by rewrite <- Hnot.
Qed.

Lemma run_from_spec {J W} (runner : Scenario.t J -> M W (list SInvariantResult.t)) derived r w :
  run_from runner derived r w =
  match for_each derived runner w with
  | (Ok outs, w') => (Ok (LDFIReport.mk r.(LDFIReport.baseline_run_id)
      r.(LDFIReport.derived_count)
      (r.(LDFIReport.survived_count) + (length derived - length (verdicts derived outs)))
      (r.(LDFIReport.broken_scenarios) ++ verdicts derived outs)), w')
  | (Err e, w') => (Err e, w')
  end /\
  (forall outs w', for_each derived runner w = (Ok outs, w') ->
     length outs = length derived /\ length (verdicts derived outs) <= length derived).
Proof.
  revert r w. induction derived as [|scen derived IH]; intros r w.
  { cbn. split; [|intros ? ? [= <- <-]; done]. destruct r. cbn. by rewrite Nat.add_0_r, app_nil_r. }
  cbn [run_from for_each]. unfold mbind, M_bind.
  destruct (runner scen w) as [[irs|e] w1]; [|split; [done|by intros ? ? [=]]].
  destruct (IH (account scen.(Scenario.name) irs r) w1) as [-> Hlen]. unfold M_bind.
  destruct (for_each derived runner w1) as [[outs|e] w2] eqn:E; [|split; [done|by intros ? ? [=]]].
  destruct (Hlen outs w2 eq_refl) as [Hl Hv].
  assert (Hverd : verdicts (scen :: derived) (irs :: outs) =
    (if decide (broke irs) then [(Scenario.name scen,
       filter (fun ir => ir.(SInvariantResult.passed) = false) irs)] else []) ++
    verdicts derived outs).
  { unfold verdicts. cbn [zip zip_with filter list_filter snd]. by case_decide. }
  unfold mret, M_ret. split.
  - rewrite Hverd, account_spec. case_decide; cbn [length app LDFIReport.baseline_run_id
      LDFIReport.derived_count LDFIReport.survived_count LDFIReport.broken_scenarios].
    + rewrite <- app_assoc. do 3 f_equal.
    + do 3 f_equal. lia.
  - intros ? ? [= <- <-]. cbn [length]. rewrite Hverd. split; [lia|].
    case_decide; cbn [length app]; lia.
Qed.

(** The report of a campaign accounts for every scenario.  [run_all] runs every
    derived scenario once, in order; what raises ends it; otherwise each scenario
    either survived or is listed as broken with exactly its failing invariants, of
    which there is at least one, and the two add up. *)
Theorem run_all_accounts {J W} (runner : Scenario.t J -> M W (list SInvariantResult.t))
    derived baseline w :
  match run_all runner derived baseline w with
  | (Err e, w') => for_each derived runner w = (Err e, w')
  | (Ok r, w') => exists outs, for_each derived runner w = (Ok outs, w') /\
      length outs = length derived /\
      r.(LDFIReport.baseline_run_id) = baseline /\
      r.(LDFIReport.derived_count) = length derived /\
      r.(LDFIReport.broken_scenarios) = verdicts derived outs /\
      r.(LDFIReport.survived_count) + length r.(LDFIReport.broken_scenarios)
        = length derived /\
      Forall (fun b => b.2 <> []) r.(LDFIReport.broken_scenarios)
  end.
Proof.
  unfold run_all.
  destruct (run_from_spec runner derived (LDFIReport.mk baseline (length derived) 0 []) w)
    as [-> Hlen].
  destruct (for_each derived runner w) as [[outs|e] w'] eqn:E; [|done].
  destruct (Hlen outs w' eq_refl) as [Hl Hv]. exists outs.
  cbn [LDFIReport.baseline_run_id LDFIReport.derived_count LDFIReport.survived_count
    LDFIReport.broken_scenarios app plus].
  do 5 (split; [done|]). split; [lia|].
  apply Forall_forall. intros b ([scen irs] & -> & [Hb _]%list_elem_of_filter)%list_elem_of_fmap.
  cbn in *. apply Exists_exists in Hb as (ir & Hin & Hir). intros Hnil.
  assert (Hmem : ir ∈ filter (fun ir => ir.(SInvariantResult.passed) = false) irs)
    by by apply list_elem_of_filter.
  rewrite Hnil in Hmem. by apply elem_of_nil in Hmem.
Qed.

(** Decision 0 is missing from the lineage.  Its index is falsy and reads as -1:
    decision 1 has no parent, and an effect that no decision authorised hangs from
    decision 0. *)
Theorem decision_zero_unlinked :
  exists g, from_run sample_loads sample_int sample_str "r1" (mkStream
    [Entry.mk 1 "run" "running" false; Entry.mk 2 "decision" "d0" false;
     Entry.mk 3 "decision" "d1" false; Entry.mk 4 "effect" "no decision" false] None) = Ok g /\
  edges g = [(2, 4)%Z].
Proof. eexists. split; vm_compute; reflexivity. Qed.
