(* ===== verification/Sampling.v ===== *)
(** * Sampling: journaled non-determinism, [tape/det.py]

    [sample] calls a function once per run and replays its recorded result: the
    per-process call counters, the key, and the two effect RPCs it makes, which are
    an interface ([EffectJournal]) with the behaviour the code relies on
    ([LawfulJournal]).

    A re-driven run samples the same values. *)
From Stdlib Require Import Ascii.
From S2P Require Import Prelude.
#[local] Open Scope Z_scope.
#[local] Open Scope nat_scope.

(** What [begin_effect] returns, as far as [sample] reads it. *)
Record Begun := mkBegun { be_confirmed : bool; be_response_json : string }.

(** [begin_effect(run_id, tool_name, call_index, custom_key)] and
    [complete_effect(run_id, idempotency_key, CONFIRMED, response_json)]. *)
Class EffectJournal (J : Type) := {
  begin_rpc : string -> string -> nat -> string -> M J Begun;
  complete_rpc : string -> string -> string -> M J unit
}.

(** The journal keeps, per run and key, the response of the first completion:
    [begin] reports it and changes no record; [complete] writes it once and touches
    no other key, whether or not the caller sees it succeed. *)
Class LawfulJournal (J : Type) `{EffectJournal J} := {
  recorded : J -> string -> string -> option string;
  begin_reads run tool n key j be j' :
    begin_rpc run tool n key j = (Ok be, j') ->
    match recorded j run key with
    | Some r => be = mkBegun true r
    | None => be.(be_confirmed) = false
    end;
  begin_keeps run tool n key j r k :
    recorded (begin_rpc run tool n key j).2 r k = recorded j r k;
  complete_writes run key text j j' :
    complete_rpc run key text j = (Ok tt, j') ->
    recorded j' run key = Some (default text (recorded j run key));
  complete_others run key text j r k :
    (r, k) <> (run, key) ->
    recorded (complete_rpc run key text j).2 r k = recorded j r k;
  complete_keeps run key text j r :
    recorded j run key = Some r ->
    recorded (complete_rpc run key text j).2 run key = Some r
}.

(** A journal whose RPCs do not fail. *)
Class ReliableJournal (J : Type) `{EffectJournal J} := {
  begin_succeeds run tool n key j : is_ok (begin_rpc run tool n key j).1 = true;
  complete_succeeds run key text j : is_ok (complete_rpc run key text j).1 = true
}.

(** [f"{run_id}/sample-{name}-{n}"] *)
Definition sample_key (run_id name : string) (n : nat) : string :=
  run_id +:+ "/sample-" +:+ name +:+ "-" +:+ pretty n.

(** One process: the module's [_counters], the server's journal, and the world the
    sampled functions act on. *)
Record Process (J W : Type) := mkProcess {
  counters : gmap (string * string) nat;
  journal : J;
  world : W
}.
Arguments mkProcess {J W} _ _ _.
Arguments counters {J W} _.
Arguments journal {J W} _.
Arguments world {J W} _.

Section sample.
Context {J W V : Type} `{EffectJournal J}.
(** [json.dumps({"v": v}, default=str)] and [json.loads(text)["v"]] *)
Variable dumps : V -> result string.
Variable loads : string -> result V.

Definition on_journal {A} (m : M J A) : M (Process J W) A := fun s =>
  let '(r, j) := m s.(journal) in (r, mkProcess s.(counters) j s.(world)).
Definition on_world {A} (m : M W A) : M (Process J W) A := fun s =>
  let '(r, w) := m s.(world) in (r, mkProcess s.(counters) s.(journal) w).

(** [_next] *)
Definition next (run_id name : string) : M (Process J W) nat := fun s =>
  let n := default 0 (s.(counters) !! (run_id, name)) in
  (Ok n, mkProcess (<[(run_id, name) := S n]> s.(counters)) s.(journal) s.(world)).

(** The recorded value, when there is one and it can be read back. *)
Definition replayed (be : Begun) : option V :=
  if be.(be_confirmed) && negb (bool_decide (be.(be_response_json) = "")) then
    match loads be.(be_response_json) with Ok v => Some v | Err _ => None end
  else None.

(** [try: complete_effect(.., json.dumps(..)) except Exception: pass] *)
Definition record_sample (run_id key : string) (v : V) : M (Process J W) unit :=
  match dumps v with
  | Err _ => mret tt
  | Ok text => try_except (on_journal (complete_rpc run_id key text)) (fun _ => mret tt)
  end.

(** [try: be = begin_effect(..)]: [None] is the except branch. *)
Definition begin_sample (run_id name : string) (n : nat)
    : M (Process J W) (option Begun) :=
  try_except
    (be ← on_journal (begin_rpc run_id ("tape:sample:" +:+ name) n
                        (sample_key run_id name n));
     mret (Some be))
    (fun _ => mret None).

Definition sample (run_id name : string) (fn : M W V) : M (Process J W) V :=
  if decide (run_id = "") then on_world fn
  else
    n ← next run_id name;
    be ← begin_sample run_id name n;
    match be with
    | None => on_world fn
    | Some be =>
      match replayed be with
      | Some v => mret v
      | None =>
        v ← on_world fn;
        _ ← record_sample run_id (sample_key run_id name n) v;
        mret v
      end
    end.

(** [now], [uuid] and [random] are [sample] under their own names. *)
Definition now (run_id : string) (time : M W V) := sample run_id "now" time.
Definition uuid (run_id : string) (uuid4 : M W V) := sample run_id "uuid" uuid4.
Definition random (run_id : string) (rand : M W V) := sample run_id "random" rand.

(** The samples one execution of an agent takes, in order. *)
Definition sample_all (run_id : string) (calls : list (string * M W V))
    : M (Process J W) (list V) :=
  for_each calls (fun c => sample run_id c.1 c.2).
End sample.

(** A process that starts: no counters. *)
Definition fresh_process {J W} (j : J) (w : W) : Process J W := mkProcess ∅ j w.

(** ** Distinct samples have distinct keys *)

Fixpoint dash_free (s : string) : bool :=
  match s with
  | EmptyString => true
  | String c s' => negb (bool_decide (c = "-"%char)) && dash_free s'
  end.

(** Two strings that agree up to their last dash. *)
Lemma dash_after_free a r d : d = a +:+ String "-" r -> dash_free d = false.
Proof.
  intros ->. induction a as [|c a IH]; [done|]. simpl. rewrite IH. by rewrite andb_false_r.
Qed.

Lemma last_dash_inj a a' r r' :
  dash_free r = true -> dash_free r' = true ->
  a +:+ String "-" r = a' +:+ String "-" r' -> a = a' /\ r = r'.
Proof.
  intros Hr Hr'. revert a'. induction a as [|c a IH]; intros [|c' a'] Heq; simpl in Heq.
  - by injection Heq.
  - injection Heq as <- Heq. by rewrite (dash_after_free a' r' r Heq) in Hr.
  - injection Heq as -> Heq. by rewrite (dash_after_free a r r' (eq_sym Heq)) in Hr'.
  - injection Heq as -> Heq. by destruct (IH a' Heq) as [-> ->].
Qed.

Lemma pretty_N_go_dash_free x s : dash_free s = true -> dash_free (pretty_N_go x s) = true.
Proof.
  revert s. induction (N.lt_wf_0 x) as [x _ IH]; intros s Hs.
  destruct (decide (x = 0)%N) as [->|Hx]; [by rewrite pretty_N_go_0|].
  rewrite pretty_N_go_step by lia. apply IH; [apply N.div_lt; lia|].
  simpl. rewrite Hs, andb_true_r. unfold pretty_N_char. by repeat case_match.
Qed.

Lemma pretty_nat_dash_free (n : nat) : dash_free (pretty n) = true.
Proof.
  change (pretty n) with (pretty (N.of_nat n)). unfold pretty, pretty_N.
  case_decide; [done|]. by apply pretty_N_go_dash_free.
Qed.

Lemma sample_key_inj run name name' n n' :
  sample_key run name n = sample_key run name' n' -> name = name' /\ n = n'.
Proof.
  unfold sample_key. intros H%append_inj. apply append_inj in H.
  apply last_dash_inj in H as [-> H]; [|apply pretty_nat_dash_free..].
  by apply (inj pretty) in H as ->.
Qed.

(** ** One sample *)
Section sampling.
Context {J W V : Type} `{LawfulJournal J} `{!ReliableJournal J}
  (dumps : V -> result string) (loads : string -> result V)
  (Hround : forall v, exists text, dumps v = Ok text /\ text <> "" /\ loads text = Ok v)
  (run_id : string) (Hrun : run_id <> "").
Implicit Types (s : Process J W) (name : string) (n : nat).

Definition count s name : nat := default 0 (s.(counters) !! (run_id, name)).
Definition bump s name : gmap (string * string) nat :=
  <[(run_id, name) := S (count s name)]> s.(counters).
Definition record_at (j : J) name n : option string :=
  recorded j run_id (sample_key run_id name n).

Lemma begin_reliable tool n key j :
  exists be j', begin_rpc run_id tool n key j = (Ok be, j') /\
    (forall r k, recorded j' r k = recorded j r k) /\
    match recorded j run_id key with
    | Some r => be = mkBegun true r
    | None => be.(be_confirmed) = false
    end.
Proof.
  pose proof (begin_succeeds run_id tool n key j) as Hok.
  pose proof (begin_keeps run_id tool n key j) as Hk.
  destruct (begin_rpc run_id tool n key j) as [[be|e] j'] eqn:E; [|done].
  exists be, j'. split; [done|]. split; [exact Hk|]. by apply begin_reads in E.
Qed.

(** Nothing recorded: the function runs, and its value is recorded. *)
Lemma sample_first name fn s :
  record_at s.(journal) name (count s name) = None ->
  match fn s.(world) with
  | (Err e, w) => exists s', sample dumps loads run_id name fn s = (Err e, s')
  | (Ok v, w) => exists j' text, sample dumps loads run_id name fn s =
        (Ok v, mkProcess (bump s name) j' w) /\
      record_at j' name (count s name) = Some text /\ text <> "" /\ loads text = Ok v /\
      forall name' n', (name', n') <> (name, count s name) ->
        record_at j' name' n' = record_at s.(journal) name' n'
  end.
Proof.
  intros Hnone. unfold sample. rewrite decide_False by done.
  unfold begin_sample, on_journal, try_except. unfold mbind, M_bind, next. cbn [journal].
  destruct (begin_reliable ("tape:sample:" +:+ name) (count s name)
    (sample_key run_id name (count s name)) s.(journal)) as (be & j1 & Hb & Hk & Hr).
  unfold count in *. rewrite Hb. unfold record_at in Hnone. rewrite Hnone in Hr.
  cbn [mret M_ret counters journal world].
  unfold replayed. rewrite Hr. cbn [andb]. unfold on_world. cbn [world counters journal].
  destruct (fn (world s)) as [[v|e] w]; [|by eexists].
  destruct (Hround v) as (text & Hd & Hne & Hl).
  unfold record_sample. rewrite Hd. unfold try_except, on_journal. cbn [journal counters world].
  set (key := sample_key _ _ _) in *.
  pose proof (complete_succeeds run_id key text j1) as Hok.
  pose proof (complete_others run_id key text j1) as Ho.
  destruct (complete_rpc run_id key text j1) as [[[]|e] j2] eqn:Hc; [|done].
  exists j2, text. split; [done|]. apply complete_writes in Hc.
  rewrite Hk, Hnone in Hc. split; [exact Hc|]. split; [done|]. split; [done|].
  intros name' n' Hdiff. unfold record_at. cbn in Ho. rewrite Ho; [apply Hk|].
  intros [= Heq]. apply Hdiff. by apply sample_key_inj in Heq as [-> ->].
Qed.

(** A recorded value: it is returned and nothing runs. *)
Lemma sample_again name fn s text v :
  record_at s.(journal) name (count s name) = Some text -> text <> "" ->
  loads text = Ok v ->
  exists j', sample dumps loads run_id name fn s =
      (Ok v, mkProcess (bump s name) j' s.(world)) /\
    forall name' n', record_at j' name' n' = record_at s.(journal) name' n'.
Proof.
  intros Hrec Hne Hl. unfold sample. rewrite decide_False by done.
  unfold begin_sample, on_journal, try_except. unfold mbind, M_bind, next. cbn [journal].
  destruct (begin_reliable ("tape:sample:" +:+ name) (count s name)
    (sample_key run_id name (count s name)) s.(journal)) as (be & j1 & Hb & Hk & Hr).
  unfold count in *. rewrite Hb. unfold record_at in Hrec. rewrite Hrec in Hr. subst be.
  cbn [mret M_ret counters journal world].
  unfold replayed. cbn [be_confirmed be_response_json andb].
  rewrite bool_decide_false by done. cbn [negb]. rewrite Hl.
  exists j1. split; [done|]. intros. apply Hk.
Qed.

(** ** Two executions in lock-step *)
Lemma redrive calls calls' s1 vs s1' :
  Forall2 (fun c c' : string * M W V => c.1 = c'.1) calls calls' ->
  (forall name n, count s1 name <= n -> record_at s1.(journal) name n = None) ->
  sample_all dumps loads run_id calls s1 = (Ok vs, s1') ->
  (forall name n, n < count s1 name ->
     record_at s1'.(journal) name n = record_at s1.(journal) name n) /\
  forall s2, s2.(counters) = s1.(counters) ->
    (forall name n, record_at s2.(journal) name n = record_at s1'.(journal) name n) ->
    exists s2', sample_all dumps loads run_id calls' s2 = (Ok vs, s2') /\
      s2'.(world) = s2.(world).
Proof.
  intros Hcalls. revert s1 vs. induction Hcalls as [|[name fn] [name' fn'] calls calls' Hn _ IH];
    intros s1 vs Hfresh Hall.
  { cbn in Hall. injection Hall as <- <-. split; [done|]. intros s2 _ _. by exists s2. }
  cbn in Hn. subst name'. unfold sample_all in Hall. cbn [for_each fst snd] in Hall.
  unfold mbind, M_bind at 1 in Hall.
  pose proof (sample_first name fn s1 (Hfresh name (count s1 name) ltac:(lia))) as Hfirst.
  destruct (fn (world s1)) as [[v|e] w];
    [|by destruct Hfirst as [s' Hs']; rewrite Hs' in Hall].
  destruct Hfirst as (j1 & text & Hs & Hrec & Hne & Hload & Hoth). rewrite Hs in Hall.
  set (sm := mkProcess (bump s1 name) j1 w) in Hall.
  assert (Hcm : count sm name = S (count s1 name)).
  { unfold count, sm, bump. cbn. by rewrite lookup_insert_eq. }
  assert (Hco : forall name', name' <> name -> count sm name' = count s1 name').
  { intros name' Hne'. unfold count, sm, bump. cbn. rewrite lookup_insert_ne; [done|].
    by intros [=]. }
  unfold M_bind in Hall.
  destruct (for_each calls _ sm) as [[vs'|e] s1''] eqn:Hrest; [|done]. injection Hall as <- <-.
  destruct (IH sm vs') as [Hframe Hsecond].
  { intros name' n Hge. cbn [journal sm]. destruct (decide (name' = name)) as [->|Hd].
    - rewrite Hoth; [apply Hfresh; lia|]. intros [= ->]. lia.
    - rewrite Hoth by by intros [=]. apply Hfresh. by rewrite Hco in Hge. }
  { exact Hrest. }
  assert (Hkept : record_at s1''.(journal) name (count s1 name) = Some text).
  { rewrite Hframe by lia. exact Hrec. }
  split.
  - intros name' n Hlt. rewrite Hframe.
    + cbn [journal sm]. apply Hoth. intros [= -> ->]. lia.
    + destruct (decide (name' = name)) as [->|Hd]; [lia|by rewrite Hco].
  - intros s2 Hc2 Hr2. unfold sample_all. cbn [for_each fst snd]. unfold mbind, M_bind at 1.
    assert (Hcount2 : forall name', count s2 name' = count s1 name').
    { intros. unfold count. by rewrite Hc2. }
    destruct (sample_again name fn' s2 text v) as (j2 & Hs2 & Hk2); [|done..|].
    { by rewrite Hcount2, Hr2. }
    rewrite Hs2.
    destruct (Hsecond (mkProcess (bump s2 name) j2 s2.(world))) as (s2' & Hall2 & Hw2).
    { cbn. unfold bump, sm. cbn. by rewrite Hcount2, Hc2. }
    { intros. cbn [journal]. by rewrite Hk2, Hr2. }
    unfold sample_all in Hall2. unfold M_bind. rewrite Hall2. by exists s2'.
Qed.
End sampling.

(** A re-driven run samples the same values.  Over a journal with the promised
    behaviour whose calls succeed, and for values that survive the JSON round trip:
    when a process has executed a sequence of samples in a run not sampled before,
    any new process that takes samples of the same names in the same order, over
    the journal the first one left, gets the same values whatever functions it
    passes, and calls none of them. *)
Theorem sample_replays {J W V} `{LawfulJournal J} `{!ReliableJournal J}
    (dumps : V -> result string) loads run_id (calls calls' : list (string * M W V))
    (j : J) (w w2 : W) vs s :
  (forall v, exists text, dumps v = Ok text /\ text <> "" /\ loads text = Ok v) ->
  run_id <> "" ->
  Forall2 (fun c c' => c.1 = c'.1) calls calls' ->
  (forall name n, recorded j run_id (sample_key run_id name n) = None) ->
  sample_all dumps loads run_id calls (fresh_process j w) = (Ok vs, s) ->
  exists s2, sample_all dumps loads run_id calls' (fresh_process s.(journal) w2) = (Ok vs, s2) /\
    s2.(world) = w2.
Proof.
  intros Hround Hrun Hcalls Hfresh Hall.
  destruct (redrive dumps loads Hround run_id Hrun calls calls' (fresh_process j w) vs s
    Hcalls) as [_ Hsecond]; [by intros; apply Hfresh|done|].
  by apply Hsecond.
Qed.

(** ** An in-memory journal *)

Definition MemJournal : Type := gmap (string * string) string.

#[export] Instance mem_journal : EffectJournal MemJournal := {
  begin_rpc run tool n key j :=
    (Ok (match j !! (run, key) with Some r => mkBegun true r | None => mkBegun false "" end), j);
  complete_rpc run key text j :=
    (Ok tt, match j !! (run, key) with Some _ => j | None => <[(run, key) := text]> j end)
}.

#[export, refine] Instance mem_journal_lawful : LawfulJournal MemJournal := {
  recorded j run key := j !! (run, key)
}.
Proof.
  - intros run tool n key j be j' [= <- <-]. by destruct (j !! (run, key)).
  - done.
  - intros run key text j j' [= <-]. destruct (j !! (run, key)) as [r|] eqn:E; [done|].
    apply lookup_insert_eq.
  - intros run key text j r k Hne. cbn. destruct (j !! (run, key)); [done|].
    apply lookup_insert_ne. congruence.
  - intros run key text j r Hr. cbn. by rewrite Hr.
Defined.

#[export] Instance mem_journal_reliable : ReliableJournal MemJournal.
Proof. done. Qed.

Definition text_dumps (v : string) : result string := Ok (String "=" v).
Definition text_loads (text : string) : result string :=
  match text with String _ v => Ok v | "" => Err TypeError end.

(** A clock that moves on at every reading. *)
Definition tick_tock : M nat string := fun w => (Ok (pretty w), S w).
Definition readings : list (string * M nat string) :=
  [("now", tick_tock); ("uuid", tick_tock); ("now", tick_tock)].
Definition first_drive : result (list string) * Process MemJournal nat :=
  sample_all text_dumps text_loads "r1" readings (fresh_process ∅ 7).

Lemma first_drive_values : first_drive.1 = Ok ["7"; "8"; "9"].
Proof. vm_compute. reflexivity. Qed.

Lemma sample_replays_witness :
  exists s2, sample_all text_dumps text_loads "r1" readings
    (fresh_process (journal first_drive.2) 100) = (Ok ["7"; "8"; "9"], s2) /\ world s2 = 100.
Proof.
  refine (sample_replays text_dumps text_loads "r1" readings readings ∅ 7 100
    ["7"; "8"; "9"] first_drive.2 _ _ _ _ _).
  - intros v. by exists (String "=" v).
  - discriminate.
  - by repeat constructor.
  - intros. apply lookup_empty.
  - rewrite <- first_drive_values. apply (surjective_pairing first_drive).
Defined.

(** Within one process the counters survive the run: re-driving it there, as the
    recovery loop and a resumed gate do, starts at the next index and samples anew
    over the very same journal. *)
Theorem same_process_redrive_samples_anew :
  first_drive.1 = Ok ["7"; "8"; "9"] /\
  (sample_all text_dumps text_loads "r1" readings first_drive.2).1 = Ok ["10"; "11"; "12"].
Proof. split; vm_compute; reflexivity. Qed.
