(* ===== verification/Contracts.v ===== *)
(** * Contracts: the SDK's effect declarations, [tape/effect.py] and [tape/retry.py]

    What [@tape.effect] and [@tape.outbox_tool] accept and register at decoration
    time, how a business key is resolved at call time, and the retry loop around a
    tool body. *)
From Stdlib Require Import Ascii QArith Qminmax.
From S2P Require Import Prelude.
#[local] Open Scope Z_scope.
#[local] Open Scope nat_scope.

(** ** Callables and declarations *)

(** What the code reads off a function object; an absent attribute is empty. *)
Record Callable := mkCallable {
  fn_name : string;
  fn_module : string;
  fn_qualname : string
}.

(** [business_key=]: a string, a callable, or absent. *)
Inductive BusinessKey :=
  | NoKey
  | StaticKey (key : string)
  | KeyOf (fn : Callable).

Record RetryPolicy := mkRetryPolicy {
  max_attempts : Z;
  initial_interval_s : Q;
  backoff_coefficient : Q;
  max_interval_s : Q;
  jitter : Q;
  retry_on : list string;
  non_retryable : list string
}.
Definition default_retry : RetryPolicy :=
  mkRetryPolicy 3 1 2 60 (1#10) ["Exception"] [].

(** The keyword arguments of [effect]. *)
Record Declaration := mkDeclaration {
  compensate : option Callable;
  status_check : option Callable;
  key_from : option Callable;
  compensation_payload : option Callable;
  retry : option RetryPolicy;
  drain_attempts : Z;
  semantics : string;
  dispatch : string;
  connector : string;
  business_key : BusinessKey;
  scope : string;
  allow_unsafe : bool
}.

(** The metadata stamped on the function; it keeps the declaration and adds the
    address of the compensator. *)
Record Meta := mkMeta { declared : Declaration; compensator_ref : string }.

(** ** Decoration-time checks *)

Definition SEMANTICS : list string := ["idempotent"; "non_idempotent"; "observe_only"].
Definition DISPATCH : list string := ["inline"; "outbox"].

(** [not s.strip()] *)
Fixpoint blank (s : string) : bool :=
  match s with
  | EmptyString => true
  | String c s' => bool_decide (nat_of_ascii c ∈ [9; 10; 11; 12; 13; 28; 29; 30; 31; 32]) && blank s'
  end.

Definition has_key (k : BusinessKey) : bool := match k with NoKey => false | _ => true end.

(** [_validate_semantics]; its warning is not an error. *)
Definition validate_semantics (d : Declaration) : result unit :=
  if decide (d.(semantics) ∉ SEMANTICS) then Err (ValueError (MBadSemantics d.(semantics)))
  else if decide (d.(dispatch) ∉ DISPATCH) then Err (ValueError (MBadDispatch d.(dispatch)))
  else if decide (d.(semantics) = "non_idempotent") then
    if negb d.(allow_unsafe) && negb (bool_decide (is_Some d.(status_check)))
       && negb (bool_decide (is_Some d.(compensate))) && negb (has_key d.(business_key))
    then Err (ValueError MNoRecoveryContract)
    else if negb d.(allow_unsafe) && blank d.(scope) then Err (ValueError MNoScope)
    else Ok tt
  else Ok tt.

(** The checks of [effect] before it returns its decorator. *)
Definition check_declaration (d : Declaration) : result unit :=
  _ ← validate_semantics d;
  if decide (d.(dispatch) = "outbox" /\ d.(connector) = "")
  then Err (ValueError MOutboxWithoutConnector)
  else match d.(business_key) with
       | StaticKey k => if decide (k <> "" /\ d.(connector) = "")
                        then Err (ValueError MBusinessKeyWithoutConnector) else Ok tt
       | _ => Ok tt
       end.

(** ** The registries *)

Record ToolCompensator := mkToolCompensator {
  tc_kind : string;
  tc_fn : Callable;
  tc_ref : string;
  tc_max_attempts : Z;
  tc_payload : option Callable
}.

(** [_COMPENSATORS], [_STATUS_CHECKS] and [_TOOL_COMPENSATORS] *)
Record Registries := mkRegistries {
  compensators : gmap string Callable;
  status_checks : gmap string Callable;
  tool_compensators : gmap string ToolCompensator
}.
Definition no_registrations : Registries := mkRegistries ∅ ∅ ∅.

(** [getattr(fn, "__name__", default)] *)
Definition name_or (fn : Callable) (d : string) : string := str_or fn.(fn_name) d.

Fixpoint has_angle (s : string) : bool :=
  match s with
  | EmptyString => false
  | String c s' => bool_decide (c = "<"%char) || has_angle s'
  end.

(** [compensator_ref_of] *)
Definition compensator_ref_of (fn : Callable) : string :=
  let name := str_or fn.(fn_qualname) fn.(fn_name) in
  if bool_decide (fn.(fn_module) = "") || bool_decide (name = "") || has_angle name then ""
  else fn.(fn_module) +:+ ":" +:+ name.

Definition register_compensator (name : string) (fn : Callable) (r : Registries) : Registries :=
  mkRegistries (<[name := fn]> r.(compensators)) r.(status_checks) r.(tool_compensators).
Definition register_status_check (tool : string) (fn : Callable) (r : Registries) : Registries :=
  mkRegistries r.(compensators) (<[tool := fn]> r.(status_checks)) r.(tool_compensators).
Definition register_tool_compensator (tool : string) (fn : Callable) (ref : string)
    (attempts : Z) (payload : option Callable) (r : Registries) : Registries :=
  if decide (tool = "") then r
  else mkRegistries r.(compensators) r.(status_checks)
         (<[tool := mkToolCompensator (name_or fn "compensate") fn ref attempts payload]>
            r.(tool_compensators)).

(** The decorator [effect(...)] returns, applied to a tool function. *)
Definition decorate (d : Declaration) (fn : Callable) (r : Registries) : Meta * Registries :=
  let ref := match d.(compensate) with Some c => compensator_ref_of c | None => "" end in
  let r := match d.(compensate) with
    | Some c => register_tool_compensator fn.(fn_name) c ref d.(drain_attempts)
                  d.(compensation_payload) (register_compensator (name_or c "compensate") c r)
    | None => r
    end in
  let r := match d.(status_check) with
    | Some c => register_status_check fn.(fn_name) c r
    | None => r
    end in
  (mkMeta d ref, r).

(** [@effect(...)] on a function. *)
Definition effect (d : Declaration) (fn : Callable) : M Registries Meta := fun r =>
  match check_declaration d with
  | Err e => (Err e, r)
  | Ok _ => let '(m, r') := decorate d fn r in (Ok m, r')
  end.

(** [outbox_tool]: the same, dispatched through the outbox and without a retry. *)
Definition outbox_tool (d : Declaration) (fn : Callable) : M Registries Meta :=
  effect (mkDeclaration d.(compensate) d.(status_check) None None None
            d.(drain_attempts) d.(semantics) "outbox" d.(connector) d.(business_key) d.(scope) d.(allow_unsafe)) fn.

(** ** Resolving a business key at call time *)

(** What the four call shapes of the ladder return or raise. *)
Record Shapes := mkShapes {
  kwargs_and_context : result json;
  kwargs_only : result json;
  dict_and_context : result json;
  dict_only : result json
}.

Inductive KeySource :=
  | KNone
  | KText (s : string)
  | KNotCallable
  | KCall (shapes : Shapes).

Section resolve.
(** [str()] of a value that is not a string *)
Variable py_str : json -> string.

Definition key_text (v : json) : string :=
  match json_or v (JStr "") with JStr s => s | v => py_str v end.

Fixpoint first_shape (attempts : list (result json)) : string :=
  match attempts with
  | [] => ""
  | Ok v :: _ => key_text v
  | Err TypeError :: rest => first_shape rest
  | Err _ :: _ => ""
  end.

(** [_resolve_business_key] *)
Definition resolve_business_key (value : KeySource) : string :=
  match value with
  | KNone | KNotCallable => ""
  | KText s => s
  | KCall sh => first_shape [sh.(kwargs_and_context); sh.(kwargs_only);
                             sh.(dict_and_context); sh.(dict_only)]
  end.
End resolve.

(** ** Retrying a tool body *)
Section retry.
Context {W A : Type}.
(** [isinstance(ex, types)] for one named type; [random.uniform] on the world; and
    [time.sleep] *)
Variable is_instance : exn -> string -> bool.
Variable uniform : Q -> Q -> W -> Q * W.
Variable sleep : Q -> W -> W.
Variable policy : RetryPolicy.

Definition instance_of (ex : exn) (types : list string) : bool :=
  existsb (is_instance ex) types.

Definition should_retry (ex : exn) (attempt : Z) : bool :=
  if decide (policy.(max_attempts) <= attempt)%Z then false
  else if negb (bool_decide (policy.(non_retryable) = [])) &&
          instance_of ex policy.(non_retryable) then false
  else instance_of ex policy.(retry_on).

(** [initial_interval_s * backoff_coefficient ** max(0, attempt - 1)], capped *)
Definition base_delay (attempt : Z) : Q :=
  Qmin
    (policy.(initial_interval_s) * Qpower policy.(backoff_coefficient) (Z.max 0 (attempt - 1)))%Q
    policy.(max_interval_s).

Definition retry_delay (attempt : Z) : M W Q := fun w =>
  let d := base_delay attempt in
  if Qle_bool policy.(jitter) 0 then (Ok (Qmax d 0), w)
  else let '(u, w') := uniform (- policy.(jitter))%Q policy.(jitter) w in
       (Ok (Qmax (d * (1 + u))%Q 0), w').

(** The [while True] loop from its [attempt]-th turn; [fuel] bounds the turns and
    [None] means it ran out. *)
Fixpoint retry_from (fuel : nat) (attempt : Z) (body : M W A) : W -> option (result A * W) :=
  match fuel with
  | O => fun _ => None
  | S fuel => fun w =>
    match body w with
    | (Ok a, w') => Some (Ok a, w')
    | (Err ex, w') =>
      if should_retry ex attempt then
        match retry_delay attempt w' with
        | (Ok d, w'') => retry_from fuel (attempt + 1) body (sleep d w'')
        | (Err e, w'') => Some (Err e, w'')
        end
      else Some (Err ex, w')
    end
  end.

(** [wrapper]: enough turns for every policy. *)
Definition with_retry (body : M W A) (w : W) : option (result A * W) :=
  retry_from (S (Z.to_nat policy.(max_attempts))) 1 body w.
End retry.
