(* ===== verification/Program.v ===== *)
(** * Program: code that calls out, and the traces it can have

    The gRPC tier's Python code is a sequence of calls to things it does not
    control: RPCs, connectors, user functions, the clock.  A [prog] is such code, the
    calls left uninterpreted; [exec] relates it to every trace of calls and answers it
    can have, [run] interprets it in a world, and [wp] proves what holds of all traces. *)
From S2P Require Import Prelude.
#[local] Open Scope nat_scope.

(** ** Programs over a signature of calls *)
Section program.
Context {C : Type} {R : C -> Type}.

(** A call may raise, so a continuation receives a [result]. *)
Inductive prog (A : Type) :=
  | Ret (a : A)
  | Throw (e : exn)
  | Call (c : C) (k : result (R c) -> prog A).
Arguments Ret {A} _.
Arguments Throw {A} _.
Arguments Call {A} _ _.

#[export] Instance prog_ret : MRet prog := fun A a => Ret a.
#[export] Instance prog_bind : MBind prog := fun A B f =>
  fix bind p := match p with
    | Ret a => f a
    | Throw e => Throw e
    | Call c k => Call c (fun r => bind (k r))
    end.

(** [try: p except Exception as ex: h(ex)] *)
Fixpoint try_ {A} (p : prog A) (h : exn -> prog A) : prog A :=
  match p with
  | Ret a => Ret a
  | Throw e => h e
  | Call c k => Call c (fun r => try_ (k r) h)
  end.

(** [try: p finally: f]; [f] does not raise. *)
Definition finally_ {A} (p : prog A) (f : prog unit) : prog A :=
  r ← try_ (a ← p; mret (Ok a)) (fun e => mret (Err e));
  _ ← f;
  match r with Ok a => Ret a | Err e => Throw e end.

(** [try: p except Exception as ex: ..] with both outcomes as a value. *)
Definition caught {A} (p : prog A) : prog (result A) :=
  try_ (a ← p; mret (Ok a)) (fun e => mret (Err e)).

Definition lift {A} (r : result A) : prog A :=
  match r with Ok a => Ret a | Err e => Throw e end.

Definition invoke (c : C) : prog (R c) := Call c lift.

(** [for x in xs: out.append(body(x))] *)
Fixpoint each {A B} (xs : list A) (body : A -> prog B) : prog (list B) :=
  match xs with
  | [] => mret []
  | x :: xs' => y ← body x; ys ← each xs' body; mret (y :: ys)
  end.

(** [for x in xs: s = body(x, s)] *)
Fixpoint fold_each {A S} (xs : list A) (body : A -> S -> prog S) (s : S) : prog S :=
  match xs with
  | [] => mret s
  | x :: xs' => s' ← body x s; fold_each xs' body s'
  end.

(** ** Traces *)
Record event := Ev { ev_call : C; ev_answer : result (R ev_call) }.

Inductive exec {A} : prog A -> list event -> result A -> Prop :=
  | exec_ret a : exec (Ret a) [] (Ok a)
  | exec_throw e : exec (Throw e) [] (Err e)
  | exec_call c k r t o : exec (k r) t o -> exec (Call c k) (Ev c r :: t) o.

(** Interpretation in a world, with the trace it leaves. *)
Section run.
Context {W : Type}.
Variable handle : forall c, M W (R c).

Fixpoint run {A} (p : prog A) : M W A := fun w =>
  match p with
  | Ret a => (Ok a, w)
  | Throw e => (Err e, w)
  | Call c k => let '(r, w') := handle c w in run (k r) w'
  end.

Fixpoint trace {A} (p : prog A) (w : W) : list event :=
  match p with
  | Ret _ | Throw _ => []
  | Call c k => let '(r, w') := handle c w in Ev c r :: trace (k r) w'
  end.

Lemma run_exec {A} (p : prog A) w : exec p (trace p w) (run p w).1.
Proof.
  revert w. induction p as [a|e|c k IH]; intros w; simpl; [constructor..|].
  destruct (handle c w) as [r w']. constructor. apply IH.
Qed.
End run.

(** ** Weakest preconditions over traces *)

Fixpoint wp {A} (p : prog A) (Q : list event -> result A -> Prop) : Prop :=
  match p with
  | Ret a => Q [] (Ok a)
  | Throw e => Q [] (Err e)
  | Call c k => forall r, wp (k r) (fun t => Q (Ev c r :: t))
  end.

Lemma wp_exec {A} (p : prog A) Q t o : wp p Q -> exec p t o -> Q t o.
Proof. intros Hw He. revert Q Hw. induction He as [| |c k r t o _ IH]; intros Q Hw; simpl in *; [done..|].
  by apply (IH (fun t => Q (Ev c r :: t))). Qed.

Lemma exec_wp {A} (p : prog A) Q : (forall t o, exec p t o -> Q t o) -> wp p Q.
Proof.
  revert Q. induction p as [a|e|c k IH]; intros Q HQ; simpl.
  - apply HQ. constructor.
  - apply HQ. constructor.
  - intros r. apply IH. intros t o He. apply HQ. by constructor.
Qed.

Lemma forall_exec {A} (p : prog A) Q : wp p Q -> forall t o, exec p t o -> Q t o.
Proof. intros Hw t o. by apply wp_exec. Qed.

Lemma wp_mono {A} (p : prog A) (P Q : list event -> result A -> Prop) :
  (forall t o, P t o -> Q t o) -> wp p P -> wp p Q.
Proof.
  revert P Q. induction p as [a|e|c k IH]; intros P Q HPQ; simpl; auto.
  intros Hw r. apply (IH r (fun t => P (Ev c r :: t))); auto.
Qed.

Lemma wp_and {A} (p : prog A) (P Q : list event -> result A -> Prop) :
  wp p P -> wp p Q -> wp p (fun t o => P t o /\ Q t o).
Proof. intros HP HQ. apply exec_wp. intros t o He. split; by eapply wp_exec. Qed.

Lemma wp_any {A} (p : prog A) (Q : list event -> result A -> Prop) :
  (forall t o, Q t o) -> wp p Q.
Proof. intros HQ. apply exec_wp. auto. Qed.

Lemma wp_bind {A B} (p : prog A) (f : A -> prog B) Q :
  wp p (fun t o => match o with
    | Ok a => wp (f a) (fun t' => Q (t ++ t'))
    | Err e => Q t (Err e)
    end) -> wp (p ≫= f) Q.
Proof.
  revert Q. induction p as [a|e|c k IH]; intros Q Hw; [exact Hw|exact Hw|].
  intros r. apply IH, Hw.
Qed.

Lemma wp_try {A} (p : prog A) h Q :
  wp p (fun t o => match o with
    | Ok a => Q t (Ok a)
    | Err e => wp (h e) (fun t' => Q (t ++ t'))
    end) -> wp (try_ p h) Q.
Proof.
  revert Q. induction p as [a|e|c k IH]; intros Q Hw; [exact Hw|exact Hw|].
  intros r. apply IH, Hw.
Qed.

Lemma wp_caught {A} (p : prog A) (Q : list event -> result (result A) -> Prop) :
  wp p (fun t o => Q t (Ok o)) -> wp (caught p) Q.
Proof.
  intros Hp. apply wp_try, wp_bind. eapply wp_mono, Hp.
  intros t [a|e] HQ; cbn; by rewrite ?app_nil_r.
Qed.

Lemma wp_ret {A} (a : A) (Q : list event -> result A -> Prop) : Q [] (Ok a) -> wp (mret a) Q.
Proof. auto. Qed.

Lemma wp_invoke (c : C) (Q : list event -> result (R c) -> Prop) :
  (forall r, Q [Ev c r] r) -> wp (invoke c) Q.
Proof. intros HQ r. specialize (HQ r). by destruct r. Qed.

(** A loop whose turns do not raise returns one answer per turn. *)
Lemma wp_each_total {A B} (xs : list A) (body : A -> prog B) (P : A -> B -> Prop) :
  (forall x, x ∈ xs -> wp (body x) (fun _ o => exists y, o = Ok y /\ P x y)) ->
  wp (each xs body) (fun _ o => exists ys, o = Ok ys /\ Forall2 P xs ys).
Proof.
  induction xs as [|x xs IH]; intros HP; [by exists []|].
  cbn [each]. apply wp_bind. eapply wp_mono, HP; [|left].
  intros t ? (y & -> & Hy). apply wp_bind.
  eapply wp_mono; [|apply IH; intros x' Hx'; apply HP; by right].
  intros t2 ? (ys & -> & Hf). apply wp_ret. eauto.
Qed.

(** A property of traces that holds of the empty one and of concatenations holds of a
    program when it holds of its parts. *)
Class Closed (K : list event -> Prop) := {
  closed_nil : K [];
  closed_app t t' : K t -> K t' -> K (t ++ t')
}.

Section closed.
Context (K : list event -> Prop) `{!Closed K}.
#[local] Abbreviation always p := (wp p (fun t _ => K t)).

Lemma wp_shift {A} (p : prog A) t : K t -> always p -> wp p (fun t' _ => K (t ++ t')).
Proof. intros Ht. apply wp_mono. intros t' _ Ht'. by apply closed_app. Qed.
Lemma wp_ret_closed {A} (a : A) : always (mret a).
Proof. apply closed_nil. Qed.
Lemma wp_bind_closed {A B} (p : prog A) (f : A -> prog B) :
  always p -> (forall a, always (f a)) -> always (p ≫= f).
Proof.
  intros Hp Hf. apply wp_bind. eapply wp_mono, Hp. intros t [a|e] Ht; [|done].
  by apply wp_shift.
Qed.
Lemma wp_try_closed {A} (p : prog A) h :
  always p -> (forall e, always (h e)) -> always (try_ p h).
Proof.
  intros Hp Hh. apply wp_try. eapply wp_mono, Hp. intros t [a|e] Ht; [done|].
  by apply wp_shift.
Qed.
Lemma wp_fold_each_closed {A S} (xs : list A) (body : A -> S -> prog S) s :
  (forall x s, always (body x s)) -> always (fold_each xs body s).
Proof.
  intros Hb. revert s. induction xs as [|x xs IH]; intros s; simpl; [apply closed_nil|].
  by apply wp_bind_closed.
Qed.
Lemma wp_call_closed {A} c (k : result (R c) -> prog A) :
  (forall r, K [Ev c r]) -> (forall r, always (k r)) -> always (Call c k).
Proof. intros Hc Hk r. by apply (wp_shift _ [Ev c r]). Qed.
Lemma wp_lift_closed {A} (r : result A) : always (lift r).
Proof. destruct r; apply closed_nil. Qed.
Lemma wp_throw_closed {A} e : always (Throw (A:=A) e).
Proof. apply closed_nil. Qed.
Lemma wp_each_closed {A B} (xs : list A) (body : A -> prog B) :
  (forall x, x ∈ xs -> always (body x)) -> always (each xs body).
Proof.
  induction xs as [|x xs IH]; intros Hb; simpl; [apply closed_nil|].
  apply wp_bind_closed; [apply Hb; left|]. intros y.
  apply wp_bind_closed; [apply IH; intros x' Hx'; apply Hb; by right|].
  intros ys. apply closed_nil.
Qed.
End closed.

End program.
Arguments prog {C} R A.
Arguments Ret {C R A} _.
Arguments Throw {C R A} _.
Arguments Call {C R A} _ _.
Arguments event {C} R.
Arguments Ev {C R} _ _.

(** ** Crash invariants

    A world the calls of several programs act on: [step] relates it before and after a
    call that was answered so.  [survives] is a precondition for a program that may be
    killed between any two calls: the invariant holds after each of them. *)
Section survives.
Context {C : Type} {R : C -> Type} {S : Type}.
Variable step : S -> event R -> S -> Prop.

Inductive world_steps : S -> list (event R) -> S -> Prop :=
  | world_steps_nil s : world_steps s [] s
  | world_steps_cons s ev s1 t s2 : step s ev s1 -> world_steps s1 t s2 -> world_steps s (ev :: t) s2.

Fixpoint survives {A} (p : prog R A) (I : S -> Prop) (Q : result A -> S -> Prop) (s : S) : Prop :=
  match p with
  | Ret a => Q (Ok a) s
  | Throw e => Q (Err e) s
  | Call c k => forall r s', step s (Ev c r) s' -> I s' /\ survives (k r) I Q s'
  end.

Lemma survives_mono {A} (p : prog R A) I (Q Q' : result A -> S -> Prop) s :
  (forall o s', Q o s' -> Q' o s') -> survives p I Q s -> survives p I Q' s.
Proof.
  intros HQ. revert s. induction p as [a|e|c k IH]; intros s; cbn; [apply HQ..|].
  intros Hp r s' Hs. destruct (Hp r s' Hs). auto.
Qed.
Lemma survives_bind {A B} (p : prog R A) (f : A -> prog R B) I Q s :
  survives p I (fun o s' => match o with Ok a => survives (f a) I Q s' | Err e => Q (Err e) s' end) s ->
  survives (p ≫= f) I Q s.
Proof.
  revert s. induction p as [a|e|c k IH]; intros s Hp; [exact Hp..|].
  intros r s' Hs. destruct (Hp r s' Hs) as [HI Hk]. split; [done|]. by apply IH.
Qed.
Lemma survives_try {A} (p : prog R A) h I Q s :
  survives p I (fun o s' => match o with Ok a => Q (Ok a) s' | Err e => survives (h e) I Q s' end) s ->
  survives (try_ p h) I Q s.
Proof.
  revert s. induction p as [a|e|c k IH]; intros s Hp; [exact Hp..|].
  intros r s' Hs. destruct (Hp r s' Hs) as [HI Hk]. split; [done|]. by apply IH.
Qed.
Lemma survives_caught {A} (p : prog R A) I (Q : result (result A) -> S -> Prop) s :
  survives p I (fun o => Q (Ok o)) s -> survives (caught p) I Q s.
Proof.
  intros Hp. apply survives_try, survives_bind. eapply survives_mono, Hp. intros [a|e] s' HQ; exact HQ.
Qed.
Lemma survives_invoke c I (Q : result (R c) -> S -> Prop) s :
  (forall r s', step s (Ev c r) s' -> I s' /\ Q r s') -> survives (invoke c) I Q s.
Proof. intros HQ r s' Hs. destruct (HQ r s' Hs). split; [done|]. by destruct r. Qed.
Lemma survives_lift {A} (r : result A) I Q s : Q r s -> survives (lift r) I Q s.
Proof. by destruct r. Qed.

(** Killed after [t], the program leaves the invariant; its outcome, when [t] is all. *)
Lemma survives_prefix {A} (p : prog R A) I Q s t tail o s' :
  survives p I Q s -> I s -> exec p (t ++ tail) o -> world_steps s t s' ->
  I s' /\ (tail = [] -> Q o s').
Proof.
  intros Hp HI He Ht. revert p Hp HI He. induction Ht as [s|s ev s1 t s2 Hs Ht IH]; intros p Hp HI He.
  - split; [done|]. intros ->. cbn in He. by inversion He; subst.
  - cbn in He. inversion He as [| |c k r t' o' He']; subst. destruct (Hp _ _ Hs) as [HI1 Hp1].
    by eapply IH.
Qed.

Lemma world_steps_app s t s1 t' s' : world_steps s t s1 -> world_steps s1 t' s' -> world_steps s (t ++ t') s'.
Proof. induction 1 as [s|s ev s2 t s3 Hs _ IH]; intros Ht; [done|]. cbn. econstructor; [exact Hs|by apply IH]. Qed.
Lemma world_steps_app_inv s t t' s' : world_steps s (t ++ t') s' -> exists s1, world_steps s t s1 /\ world_steps s1 t' s'.
Proof.
  revert s. induction t as [|ev t IH]; intros s Hs; [eexists; split; [constructor|exact Hs]|].
  inversion Hs as [|? ? s1 ? ? Hs1 Hs2]; subst. apply IH in Hs2 as (s2 & Ht & Ht').
  exists s2. split; [|done]. by econstructor.
Qed.

(** A handler that answers as the world allows *)
Lemma handled_steps (handle : forall c, M S (R c)) {A} (p : prog R A) w :
  (forall c w, step w (Ev c (handle c w).1) (handle c w).2) ->
  world_steps w (trace handle p w) (run handle p w).2.
Proof.
  intros Hh. revert w. induction p as [a|e|c k IH]; intros w; cbn; [constructor..|].
  specialize (Hh c w). destruct (handle c w) as [r w1]. econstructor; [exact Hh|apply IH].
Qed.
End survives.

(** What holds of every single event of a program holds of its traces. *)
#[export] Instance forall_closed {C} {R : C -> Type} (E : event R -> Prop) : Closed (Forall E).
Proof. split; [constructor|]. intros t t'. by apply Forall_app_2. Qed.

(** Walk through a program for a closed property; the calls are left as goals. *)
Ltac closed_step :=
  match goal with
  | |- wp (mbind _ _) _ => apply wp_bind_closed; [apply _| |intros ?]
  | |- wp (try_ _ _) _ => apply wp_try_closed; [apply _| |intros ?]
  | |- wp (each _ _) _ => apply wp_each_closed; [apply _|intros ? _]
  | |- wp (fold_each _ _ _) _ => apply wp_fold_each_closed; [apply _|intros ? ?]
  | |- wp (mret _) _ => apply wp_ret_closed; apply _
  | |- wp (lift _) _ => apply wp_lift_closed; apply _
  | |- wp (Throw _) _ => apply wp_throw_closed; apply _
  | |- wp (invoke _) _ => apply wp_call_closed; [apply _|intros ?|intros ?; apply wp_lift_closed; apply _]
  | |- wp (match ?x with _ => _ end) _ => destruct x
  end.

(** Compute a weakest precondition: one goal per branch, answers introduced. *)
Ltac wp_step :=
  match goal with
  | |- wp (mbind _ _) _ => apply wp_bind
  | |- wp (try_ _ _) _ => apply wp_try
  | |- wp (invoke _) _ => apply wp_invoke; let r := fresh "ans" in intros r; cbn beta
  | |- wp (mret _) _ => apply wp_ret; cbn beta
  | |- wp (lift ?r) _ => destruct r; cbn [lift wp]
  | |- wp (Throw _) _ => cbn [wp]
  | |- wp (Ret _) _ => cbn [wp]
  end.
