(* ===== verification/Client.v ===== *)
(** * Client: the gRPC client, [tape/client.py], and what the SDK loops call

    The messages of [tape.v1] as far as the SDK reads them, the signature of the calls
    its loops make (RPCs, connectors, user functions, clock), the client methods
    over that signature, the functions that turn a Tape URL into a channel, and what the
    processes of the SDK share: the loop, the client closed at its end, the callback and the
    pause. *)
From Stdlib Require Import Ascii QArith.
From S2P Require Export Program.
From S2P Require Import Prelude Scenarios Contracts.
#[local] Open Scope Z_scope.
#[local] Open Scope nat_scope.

(** ** The protocol's enums, as the integers on the wire *)
Definition RUN_STATUS_RUNNABLE : Z := 1.
Definition RUN_STATUS_RUNNING : Z := 2.
Definition RUN_STATUS_WAITING : Z := 3.
Definition RUN_STATUS_TERMINAL : Z := 4.
Definition RUN_STATUS_FAILED : Z := 5.
Definition RUN_STATUS_COMPENSATING : Z := 6.
Definition RUN_STATUS_STUCK : Z := 7.
Definition RUN_STATUS_CANCELLED : Z := 8.

Definition EFFECT_STATUS_PENDING : Z := 1.
Definition EFFECT_STATUS_CONFIRMED : Z := 2.
Definition EFFECT_STATUS_FAILED : Z := 3.
Definition EFFECT_STATUS_UNKNOWN : Z := 4.

Definition EFFECT_SEMANTICS_UNSPECIFIED : Z := 0.
Definition EFFECT_SEMANTICS_IDEMPOTENT : Z := 1.
Definition EFFECT_SEMANTICS_NON_IDEMPOTENT : Z := 2.
Definition EFFECT_SEMANTICS_OBSERVE_ONLY : Z := 3.

Definition EFFECT_DISPATCH_MODE_UNSPECIFIED : Z := 0.
Definition EFFECT_DISPATCH_MODE_INLINE : Z := 1.
Definition EFFECT_DISPATCH_MODE_OUTBOX : Z := 2.

Definition EFFECT_RESOLUTION_CONFIRMED : Z := 1.
Definition EFFECT_RESOLUTION_FAILED : Z := 2.
Definition EFFECT_RESOLUTION_ABSENT : Z := 3.
Definition EFFECT_RESOLUTION_DUPLICATE : Z := 4.
Definition EFFECT_RESOLUTION_STUCK : Z := 5.

Definition OBLIGATION_STATUS_PENDING : Z := 1.
Definition OBLIGATION_STATUS_COMMITTED : Z := 2.
Definition OBLIGATION_STATUS_COMPENSATED : Z := 3.
Definition OBLIGATION_STATUS_STUCK : Z := 4.

Definition HANDLER_KIND_AGENT : Z := 1.
Definition HANDLER_KIND_TASK : Z := 2.
Definition HANDLER_KIND_PUBLISH : Z := 3.

(** ** Messages *)
Module PbEffect.
Record t := mk {
  run_id : string;
  idempotency_key : string;
  tool_name : string;
  status : Z;
  semantics : Z;
  connector : string;
  request_json : string;
  external_ref : string;
  dispatch_attempts : Z;
  response_json : string;
  error_json : string;
  dispatch_mode : Z;
  business_key : string;
  decision_index : Z
}.
End PbEffect.

Module PbObligation.
Record t := mk {
  run_id : string;
  seq : Z;
  kind : string;
  payload_json : string;
  status : Z;
  attempts : Z;
  max_attempts : Z;
  next_attempt_at_ms : Z;
  compensator_ref : string;
  effect_key : string;
  last_error : string;
  result_json : string
}.
End PbObligation.

Module PbRun.
Record t := mk {
  run_id : string;
  user_id : string;
  session_id : string;
  invocation_id : string;
  status : Z;
  scopes : list string
}.
End PbRun.

Module PbDecision.
Record t := mk {
  decision_index : Z; model : string; request_json : string; response_json : string;
  rationale : string; policy_version : string
}.
End PbDecision.

(** A session, and one of its events. *)
Module PbEventRecord.
Record t := mk {
  id : string; invocation_id : string; author : string; branch : string;
  content_json : string; actions_json : string; timestamp_ms : Z
}.
End PbEventRecord.
Module PbSession.
Record t := mk {
  session_id : string; user_id : string; state_json : string; last_update_time_ms : Z;
  events : list PbEventRecord.t
}.
End PbSession.

(** A reactive value. *)
Module PbValue.
Record t := mk { value_json : string; version : Z; deleted : bool }.
End PbValue.

Module PbTimer.
Record t := mk { run_id : string; timer_id : string; kind : string; payload_json : string }.
End PbTimer.

Module PbEvent.
Record t := mk {
  run_id : string; seq : Z; kind : string; payload_json : string; ts_ms : Z;
  global_seq : Z; subject : string
}.
End PbEvent.

Module PbTask.
Record t := mk {
  task_id : string; reaction_id : string; subject : string; source_run_id : string;
  source_global_seq : Z; payload_json : string; attempts : Z; trace_id : string;
  parent_span_id : string
}.
End PbTask.

Module PbReaction.
Record t := mk {
  reaction_id : string; name : string; subject_pattern : string; predicate_cel : string;
  handler_kind : Z; agent_app : string; publish_target : string; max_concurrency : Z;
  rate_limit_per_s : Z; debounce_ms : Z; retry_max : Z; retry_backoff_ms : Z;
  dlq_after_n : Z; num_shards : Z
}.
End PbReaction.

Module CompactReport.
Record t := mk {
  decisions_zeroed : Z; effects_zeroed : Z; bytes_saved : Z; already_compacted : bool
}.
End CompactReport.

(** The request of [begin_effect] and what its response carries. *)
Module BeginEffectRequest.
Record t := mk {
  run_id : string; decision_index : Z; tool_name : string; call_index : Z;
  request_json : string; custom_key : string; semantics : Z; dispatch_mode : Z;
  business_key : string; connector : string; scope : string
}.
End BeginEffectRequest.
Record BeginEffectResponse := mkBeginEffectResponse {
  br_idempotency_key : string; br_status : Z; br_response_json : string
}.

(** ** Values and results of user code *)

(** A Python value a user function returns: JSON, or an object [json.dumps] rejects,
    with its [str()]. *)
Inductive pyval :=
  | VNone
  | VBool (b : bool)
  | VInt (z : Z)
  | VFloat (repr : string)
  | VStr (s : string)
  | VList (l : list pyval)
  | VDict (fields : list (string * pyval))
  | VObject (text : string).

(** [json.dumps(v, default=str)] as a JSON value; without [default] a foreign object
    raises [TypeError]. *)
Fixpoint to_json (v : pyval) : json :=
  match v with
  | VNone => JNull | VBool b => JBool b | VInt z => JInt z | VFloat r => JFloat r
  | VStr s => JStr s
  | VList l => JList (map to_json l)
  | VDict d => JObj (map (fun kv => (kv.1, to_json kv.2)) d)
  | VObject s => JStr s
  end.
Fixpoint serialisable (v : pyval) : bool :=
  match v with
  | VList l => forallb serialisable l
  | VDict d => forallb (fun kv => serialisable kv.2) d
  | VObject _ => false
  | _ => true
  end.
Definition to_json_strict (v : pyval) : result json :=
  if serialisable v then Ok (to_json v) else Err TypeError.

(** [bool(v)]; a foreign object is true. *)
Definition py_truthy (v : pyval) : bool :=
  match v with VObject _ => true | _ => json_truthy (to_json v) end.

(** A dict, and [{**a, **b}] *)
Definition pydict := list (string * json).
Definition merge (a b : pydict) : pydict := foldl (fun d kv => dict_set kv.1 kv.2 d) a b.

(** [tape.connectors.base]: what a connector's dispatch and observe return. *)
Module SDispatch.
Record t := mk {
  status : string; external_ref : string; response : pydict; error : pydict; retry_at_ms : Z
}.
End SDispatch.
Module SObservation.
Record t := mk { status : string; external_ref : string; response : pydict }.
End SObservation.

(** A connector object, known by a label, and a module attribute that may be walked. *)
Definition Conn : Type := SConn string.
Inductive pyobj := PyObj (fn : option Callable) (attrs : list (string * pyobj)).

(** Who re-invokes a run: a local runner, or a function of the caller. *)
Inductive Driver := Runner | RedriveFn.

(** A server stream: the entries the iterator yields, and what it raises at the end, if
    it does not just end. *)
Definition stream : Type := list PbEvent.t * option exn.

(** What an HTTP request comes back with: a response, an error status, or a failure of
    the transport. *)
Inductive http_failure := Timeout | UrlError | OtherOSError.
Inductive http_reply :=
  | HttpOk (code : Z) (body : string)
  | HttpErr (code : Z) (body : option string) (ex : exn)   (* [None]: unreadable *)
  | HttpFailed (kind : http_failure) (ex : exn).

(** A message a Pub/Sub subscription delivers. *)
Module PsMessage.
Record t := mk { delivery : Z; data : string; attributes : list (string * string) }.
End PsMessage.

(** ** The calls *)
Inductive call :=
  (* RPCs *)
  | BeginRun (app_name user_id session_id invocation_id lease_owner : string) (lease_ttl_ms : Z)
      (tenant_id actor subject agent_id aiplex_instance_id gateway_route : string)
      (scopes : list string) (labels : list (string * string))
  | EndRun (run_id : string) (status : Z) (detail_json : string)
  | GetRun (run_id : string)
  | ListRunsToRecover (limit now_ms : Z)
  | ListCompactableRuns (before_ms limit : Z)
  | CompactRun (run_id : string)
  | RecordDecision (run_id : string) (decision_index : Z)
      (model request_json response_json rationale policy_version : string)
  | GetDecision (run_id : string) (decision_index : Z)
  | BeginEffect (req : BeginEffectRequest.t)
  | CompleteEffect (run_id key : string) (status : Z) (response_json error_json : string)
  | GetEffect (run_id key : string)
  | ReconcileEffect (run_id key : string) (resolved_status : Z) (response_json error_json : string)
  | ListEffectsToDispatch (now_ms : Z) (connector : string) (limit : Z)
  | ClaimEffectDispatch (run_id key claimer : string) (lease_ttl_ms : Z)
  | RecordDispatchAttempt (run_id key error : string) (next_dispatch_at_ms : Z)
  | RecordExternalObservation (run_id key : string) (resolution : Z)
      (external_ref response_json error_json compensate_on_duplicate_kind : string)
  | RegisterCompensation (run_id effect_key kind payload_json compensator_ref : string)
      (max_attempts : Z)
  | ListObligations (run_id : string) (only_unresolved : bool) (status_filter : Z)
  | ListUnresolvedObligations (limit now_ms : Z)
      (include_pending include_stuck include_committed_expired : bool)
  | ClaimObligation (run_id : string) (seq : Z) (claimer : string) (lease_ttl_ms : Z)
  | RecordObligationAttempt (run_id : string) (seq : Z) (error : string) (next_attempt_at_ms : Z)
  | ResolveObligation (run_id : string) (seq status : Z) (result_json : string)
  | ListPendingEffects (older_than_ms : Z) (include_pending include_unknown : bool) (limit : Z)
  | SetBudget (run_id : string) (usd_cap : Q) (token_cap : Z)
  | AdmitBudget (run_id : string)
  | ChargeBudget (run_id : string) (tokens : Z)
  | AwaitSignal (run_id gate_name payload_json : string)
  | SendSignal (run_id gate_name resolution_json : string)
  | SendSignalTo (run_id app_name user_id session_id gate_name resolution_json : string)
  | ResumeRun (run_id lease_owner : string) (lease_ttl_ms : Z)
  | SetTimer (run_id timer_id : string) (fire_at_ms : Z) (kind payload_json : string)
  | CancelTimer (run_id timer_id : string)
  | WriteValue (namespace key value_json : string) (if_version : Z) (writer : string)
  | GetValue (namespace key : string)
  | WatchValue (namespace key : string) (from_version : Z)
  | DeleteValue (namespace key : string)
  | ListDueTimers (now_ms limit : Z) (claim : bool)
  | SubscribeBySubject (subject_pattern predicate_cel : string) (from_global_seq : Z)
  | SubscribeEvents (from_ts_ms : Z) (run_id kind : string) (from_global_seq : Z) (subject_pattern : string)
  | SubscribeRun (run_id : string) (from_seq : Z)
  | RegisterReaction (r : PbReaction.t)
  | ClaimTasks (reaction_id : string) (shard : Z) (owner : string) (lease_ms max : Z)
  | CompleteTask (task_id owner : string)
  | NackTask (task_id owner error : string) (permanent : bool)
  | CreateSession (app_name user_id session_id state_json : string)
  | GetSession (app_name user_id session_id : string) (max_events : Z)
  | ListSessions (app_name user_id : string)
  | DeleteSession (app_name user_id session_id : string)
  | AppendEvent (app_name user_id session_id : string) (event : PbEventRecord.t)
      (state_delta_json : string)
  (* connectors and user code *)
  | ConnDispatch (c : Conn) (eff : PbEffect.t)
  | ConnObserve (c : Conn) (eff : PbEffect.t)
  | StatusCheck (fn : Callable) (key : string)
  | PayloadOf (fn : Callable) (tool_args payload : json)
  | KeyFrom (fn : Callable) (tool_args : json)
  | KeyShape (fn : Callable) (shape : nat) (tool_args : json)
  | Inverse (fn : Callable) (payload : json)
  | Redrive (by_ : Driver) (run : PbRun.t)
  | OnTimer (t : PbTimer.t)
  | Handler (fn : Callable) (env : pydict)
  | Publish (e : PbEvent.t)
  | PublishTask (payload : string) (ordering_key : string) (attrs : list (string * string))
  | ImportModule (name : string)
  | HttpSend (method url : string) (headers : list (string * string)) (body : string)
  | PublishMessage (topic data ordering_key : string) (attrs : list (string * string))
  | HandleMessage (payload : json) (attrs : list (string * string))
  | Ack (m : PsMessage.t)
  | Nack (m : PsMessage.t)
  | OnTick (tick : json)
  | OnEvent (event : json)
  | Factory (fn : Callable)
  | StateGet (key : string)
  (* a child process and its pipes *)
  | Spawn (argv : list string)
  | ProcPoll
  | ProcTerminate
  | ProcWait (timeout : option Q)
  | ProcKill
  | WriteUpstream (line : string)
  | WriteAgent (line : string)
  | CloseStdin
  | SelectRead (timeout : Q)
  | ReadRaw
  (* streaming pulls, publishers and files *)
  | Subscribe (path : string)
  | PullResult (timeout : Q)
  | CancelPull
  | StopRequested
  | PublisherStop
  | AppendLine (path line : string)
  (* the process's surroundings *)
  | OpenClient (url : string)
  | CloseClient
  | CloseSink
  | PrintOut (text : string)
  | PrintErr (text : string)
  | Time
  | Monotonic
  | Sleep (seconds : Q)
  | ReadFile (path : string)
  | WriteFile (path : string) (contents : json).

(** What each call answers; it may raise instead. *)
Definition answer (c : call) : Type :=
  match c with
  | BeginRun _ _ _ _ _ _ _ _ _ _ _ _ _ _ => string * bool            (* run_id, resumed *)
  | GetRun _ => PbRun.t
  | ListRunsToRecover _ _ | ListCompactableRuns _ _ => list PbRun.t
  | CompactRun _ => CompactReport.t
  | GetDecision _ _ => option PbDecision.t
  | BeginEffect _ => BeginEffectResponse
  | GetEffect _ _ => option PbEffect.t
  | ListEffectsToDispatch _ _ _ | ListPendingEffects _ _ _ _ => list PbEffect.t
  | ClaimEffectDispatch _ _ _ _ => bool * PbEffect.t       (* acquired, effect *)
  | ListObligations _ _ _ | ListUnresolvedObligations _ _ _ _ _ => list PbObligation.t
  | ClaimObligation _ _ _ _ => bool * PbObligation.t       (* acquired, obligation *)
  | RecordObligationAttempt _ _ _ _ => PbObligation.t
  | AdmitBudget _ => bool * string                 (* admitted, reason *)
  | AwaitSignal _ _ _ => option string             (* delivered: the resolution_json *)
  | ListDueTimers _ _ _ => list PbTimer.t
  | SubscribeBySubject _ _ _ | SubscribeEvents _ _ _ _ _ | SubscribeRun _ _ => stream
  | CreateSession _ _ _ _ => PbSession.t
  | GetSession _ _ _ _ => option PbSession.t
  | ListSessions _ _ => list PbSession.t
  | WriteValue _ _ _ _ _ => PbValue.t
  | GetValue _ _ => option PbValue.t                (* [None]: not found *)
  | RegisterReaction _ => PbReaction.t
  | ClaimTasks _ _ _ _ _ => list PbTask.t
  | ConnDispatch _ _ => SDispatch.t
  | ConnObserve _ _ => SObservation.t
  | StatusCheck _ _ | PayloadOf _ _ _ | KeyFrom _ _ | KeyShape _ _ _ | Inverse _ _ => pyval
  | ImportModule _ => pyobj
  | Factory _ => bool                              (* returned something, not [None] *)
  | StateGet _ => json
  | HttpSend _ _ _ _ => http_reply
  | PublishMessage _ _ _ _ => string               (* the message id *)
  | HandleMessage _ _ => SDispatch.t
  | ProcPoll => option Z                           (* [None]: still running *)
  | ProcWait _ => Z
  | SelectRead _ | StopRequested => bool
  | ReadRaw => string                              (* [""]: end of file *)
  | Time | Monotonic => Q
  | ReadFile _ => option json                      (* [None]: no such file *)
  | _ => unit
  end.

Abbreviation P := (prog answer).

(** [int(time.time() * 1000)] *)
Definition py_int (q : Q) : Z := Z.quot (Qnum q) (Zpos (Qden q)).
Definition time_time : P Q := invoke Time.
Definition now_ms : P Z := t ← time_time; mret (py_int (t * 1000)).

(** An RPC failure with its status code. *)
Definition RpcError (code : string) : exn := Raised "RpcError" code.

(** ** Client methods, with the defaults their callers leave *)
Definition end_run run_id status detail : P unit := invoke (EndRun run_id status detail).
Definition get_run run_id : P PbRun.t := invoke (GetRun run_id).
Definition list_runs_to_recover limit : P (list PbRun.t) := invoke (ListRunsToRecover limit 0).
Definition list_compactable_runs before_ms limit : P (list PbRun.t) :=
  invoke (ListCompactableRuns before_ms limit).
Definition compact_run run_id : P CompactReport.t := invoke (CompactRun run_id).
Definition record_decision run_id ix model request response rationale policy : P unit :=
  invoke (RecordDecision run_id ix model request response rationale policy).
Definition set_budget run_id usd_cap token_cap : P unit := invoke (SetBudget run_id usd_cap token_cap).
Definition admit_budget run_id : P (bool * string) := invoke (AdmitBudget run_id).
Definition charge_budget run_id tokens : P unit := invoke (ChargeBudget run_id tokens).
Definition get_decision run_id ix : P (option PbDecision.t) := invoke (GetDecision run_id ix).
Definition rpc_begin_effect req : P BeginEffectResponse := invoke (BeginEffect req).
Definition rpc_complete_effect run_id key status response error : P unit :=
  invoke (CompleteEffect run_id key status response error).
Definition rpc_get_effect run_id key : P (option PbEffect.t) := invoke (GetEffect run_id key).
Definition reconcile_effect run_id key resolved response error : P unit :=
  invoke (ReconcileEffect run_id key resolved response error).
Definition rpc_list_effects_to_dispatch connector limit : P (list PbEffect.t) :=
  invoke (ListEffectsToDispatch 0 connector limit).
Definition rpc_claim_effect_dispatch run_id key claimer : P (bool * PbEffect.t) :=
  invoke (ClaimEffectDispatch run_id key claimer 60000).
Definition rpc_record_dispatch_attempt run_id key error next_at : P unit :=
  invoke (RecordDispatchAttempt run_id key error next_at).
Definition rpc_record_external_observation run_id key resolution ref response error kind : P unit :=
  invoke (RecordExternalObservation run_id key resolution ref response error kind).
Definition rpc_register_compensation run_id effect_key kind payload ref attempts : P unit :=
  invoke (RegisterCompensation run_id effect_key kind payload ref attempts).
Definition rpc_list_obligations run_id : P (list PbObligation.t) :=
  invoke (ListObligations run_id true 0).
Definition rpc_list_unresolved_obligations limit include_ce : P (list PbObligation.t) :=
  invoke (ListUnresolvedObligations limit 0 true false include_ce).
Definition rpc_claim_obligation run_id seq claimer ttl : P (bool * PbObligation.t) :=
  invoke (ClaimObligation run_id seq claimer ttl).
Definition rpc_record_obligation_attempt run_id seq error next_at : P PbObligation.t :=
  invoke (RecordObligationAttempt run_id seq error next_at).
Definition rpc_resolve_obligation run_id seq status result : P unit :=
  invoke (ResolveObligation run_id seq status result).
Definition rpc_list_pending_effects older include_pending limit : P (list PbEffect.t) :=
  invoke (ListPendingEffects older include_pending true limit).
Definition send_signal run_id gate resolution : P unit := invoke (SendSignal run_id gate resolution).
Definition await_signal run_id gate payload : P (option string) :=
  invoke (AwaitSignal run_id gate payload).
Definition rpc_list_due_timers limit : P (list PbTimer.t) := invoke (ListDueTimers 0 limit true).
Definition register_reaction r : P PbReaction.t := invoke (RegisterReaction r).
Definition claim_tasks reaction_id owner lease_ms max : P (list PbTask.t) :=
  invoke (ClaimTasks reaction_id (-1) owner lease_ms max).
Definition complete_task task_id owner : P unit := invoke (CompleteTask task_id owner).
Definition nack_task task_id owner error permanent : P unit :=
  invoke (NackTask task_id owner error permanent).

Definition rpc_create_session app_name user_id session_id state_json : P PbSession.t :=
  invoke (CreateSession app_name user_id session_id state_json).
Definition rpc_get_session app_name user_id session_id max_events : P (option PbSession.t) :=
  invoke (GetSession app_name user_id session_id max_events).
Definition rpc_list_sessions app_name user_id : P (list PbSession.t) :=
  invoke (ListSessions app_name user_id).
Definition rpc_delete_session app_name user_id session_id : P unit :=
  invoke (DeleteSession app_name user_id session_id).
Definition rpc_append_event app_name user_id session_id event state_delta_json : P unit :=
  invoke (AppendEvent app_name user_id session_id event state_delta_json).

Create HintDb rpc.
#[export] Hint Unfold rpc_create_session rpc_get_session rpc_list_sessions rpc_delete_session
  rpc_append_event : rpc.
#[export] Hint Unfold time_time now_ms set_budget admit_budget charge_budget
  end_run get_run list_runs_to_recover list_compactable_runs
  compact_run record_decision get_decision rpc_begin_effect
  rpc_complete_effect rpc_get_effect reconcile_effect rpc_list_effects_to_dispatch
  rpc_claim_effect_dispatch rpc_record_dispatch_attempt rpc_record_external_observation rpc_register_compensation
  rpc_list_obligations rpc_list_unresolved_obligations rpc_claim_obligation rpc_record_obligation_attempt
  rpc_resolve_obligation rpc_list_pending_effects send_signal await_signal
  rpc_list_due_timers register_reaction claim_tasks complete_task
  nack_task : rpc.

(** ** Text: [str], [json], and rich's markup *)
Class PyText := {
  dumps : json -> string;               (* json.dumps of a JSON value *)
  loads : string -> result json;        (* json.loads *)
  str_exn : exn -> string;              (* str(ex) *)
  exn_details : exn -> string;          (* ex.details() of an RPC error *)
  exn_name : exn -> string;             (* type(ex).__name__ *)
  str_json : json -> string;            (* str(v) *)
  int_text : json -> result Z;          (* int(v) of a float or a string *)
  float_text : json -> result Q;        (* float(v) of a float or a string *)
  repr_str : string -> string;          (* repr(s) *)
  from_markup : string -> result string (* Text.from_markup(s), or its MarkupError; styles aside *)
}.

(** [int(v)] *)
Definition int_json `{PyText} (v : json) : result Z :=
  match v with
  | JInt z => Ok z
  | JBool b => Ok (if b then 1 else 0)%Z
  | JFloat _ | JStr _ => int_text v
  | JNull | JList _ | JObj _ => Err TypeError
  end.

(** [float(v)] *)
Definition float_json `{PyText} (v : json) : result Q :=
  match v with
  | JInt z => Ok (inject_Z z)
  | JBool b => Ok (if b then 1 else 0)%Q
  | JFloat _ | JStr _ => float_text v
  | JNull | JList _ | JObj _ => Err TypeError
  end.

(** [str(v)] *)
Definition py_str `{PyText} (v : pyval) : string :=
  match v with VStr s | VObject s => s | _ => str_json (to_json v) end.

(** [json.loads(s) if s else {}], and [{}] when it cannot be read *)
Definition loads_or_empty `{PyText} (s : string) : json :=
  if decide (s = "") then JObj [] else match loads s with Ok v => v | Err _ => JObj [] end.

(** ** URLs *)

(** [s.startswith(p)], and [s[len(p):]] *)
Definition starts_with (p s : string) : bool := String.prefix p s.
Definition drop_prefix (p s : string) : string :=
  String.substring (String.length p) (String.length s - String.length p) s.
Fixpoint has_char (c : Ascii.ascii) (s : string) : bool :=
  match s with
  | EmptyString => false
  | String c' s' => bool_decide (c' = c) || has_char c s'
  end.
(** [s.split(c)[0]] *)
Fixpoint before_char (c : Ascii.ascii) (s : string) : string :=
  match s with
  | EmptyString => EmptyString
  | String c' s' => if decide (c' = c) then EmptyString else String c' (before_char c s')
  end.
(** [s.partition(c)[2]] *)
Fixpoint after_char (c : Ascii.ascii) (s : string) : string :=
  match s with
  | EmptyString => EmptyString
  | String c' s' => if decide (c' = c) then s' else after_char c s'
  end.

Definition url_target (url : string) : string :=
  if starts_with "tapes://" url then
    let h := drop_prefix "tapes://" url in
    if has_char ":"%char h then h else h +:+ ":443"
  else if starts_with "tape://" url then drop_prefix "tape://" url
  else if starts_with "grpc://" url then drop_prefix "grpc://" url
  else url.

Definition is_tls (url : string) : bool :=
  starts_with "tapes://" url || starts_with "grpcs://" url.

Definition audience_for (url : string) : string :=
  "https://" +:+ before_char ":"%char (url_target url).

(** ** The identity token of a call *)

(** [_GoogleIdTokenPlugin]: the cached token, its expiry ([None] is infinity), and
    whether it has warned. *)
Record TokenCache := mkTokenCache { token : string; expires : option Q; warned : bool }.
Definition empty_cache : TokenCache := mkTokenCache "" (Some 0%Q) false.

Definition fresh_token (c : TokenCache) (now : Q) : bool :=
  negb (bool_decide (c.(token) = "")) &&
  match c.(expires) with None => true | Some e => negb (Qle_bool (e - 60) now) end.

(** [_fetch]: [mint] is [fetch_id_token] with the decoded [exp] claim, when the payload
    has one.  Answers the token, the cache after, and whether it asked for a token. *)
Definition fetch_token (mint : result (string * option Q)) (now : Q) (c : TokenCache)
    : string * TokenCache * bool :=
  if fresh_token c now then (c.(token), c, false)
  else match mint with
    | Ok (tok, e) => (tok, mkTokenCache tok (Some (default (now + 1800)%Q e)) c.(warned), true)
    | Err _ => ("", mkTokenCache "" None true, true)
    end.

(** ** The loops of the SDK's processes *)

(** [while True]: a pass goes on with [inl] or returns with [inr]; [None] is a loop still
    running after [turns] passes. *)
Fixpoint forever {S A} (turns : nat) (body : S -> P (S + A)) (s : S) : P (option A) :=
  match turns with
  | O => mret None
  | S turns =>
    r ← body s;
    match r with inl s' => forever turns body s' | inr a => mret (Some a) end
  end.

(** [c = TapeClient(url)], then [try: body finally: c.close()] *)
Definition with_client {A} (url : string) (body : P A) : P A :=
  _ ← (invoke (OpenClient url) : P unit);
  finally_ body (invoke CloseClient : P unit).

(** [if callback is not None: callback(v)] *)
Definition call_back (callback : option (json -> P unit)) (v : json) : P unit :=
  match callback with Some f => f v | None => mret tt end.

(** The end of a pass: [if once: return], else [time.sleep(interval_s)]. *)
Definition sleep_or_return {S} (once : bool) (interval_s : Q) (s : S) : P (S + unit) :=
  if once then mret (inr tt)
  else _ ← (invoke (Sleep interval_s) : P unit); mret (inl s).

(** [on_tick] as the user's function. *)
Definition user_tick : option (json -> P unit) := Some (fun v => invoke (OnTick v) : P unit).
