(* ===== verification/SdkSamples.v ===== *)
(** * SdkSamples: a concrete surrounding for the SDK's loops

    Python text, one effect and one server with a connector, in which the theorems about
    the SDK loops are instantiated. *)
From Stdlib Require Import QArith.
From S2P Require Import Prelude Scenarios Contracts Client.
#[local] Open Scope Z_scope.
#[local] Open Scope nat_scope.

(** JSON text is not looked at: every document reads as an empty object. *)
Definition sample_text : PyText := {|
  dumps := fun _ => "{}"; loads := fun _ => Ok (JObj []); str_exn := fun _ => "boom";
  exn_name := fun _ => "Exception"; exn_details := fun _ => ""; str_json := fun _ => ""; int_text := fun _ => Ok 0%Z; float_text := fun _ => Ok 0%Q; repr_str := fun s => s; from_markup := fun s => Ok s |}.

Definition wire_fn : Callable := mkCallable "wire" "treasury" "wire".
Definition reverse_fn : Callable := mkCallable "reverse_wire" "treasury" "reverse_wire".

(** A pending, non-idempotent wire. *)
Definition sample_effect : PbEffect.t :=
  PbEffect.mk "run-1" "run-1/fc-1" "wire" EFFECT_STATUS_PENDING EFFECT_SEMANTICS_NON_IDEMPOTENT
    "bank" "" "" 0 "" "" EFFECT_DISPATCH_MODE_OUTBOX "" 0.
Definition sample_connectors : list (string * Conn) := [("bank", Real "bank")].
Definition sample_registries : Registries :=
  mkRegistries {["reverse_wire" := reverse_fn]} ∅
    {["wire" := mkToolCompensator "reverse_wire" reverse_fn "treasury:reverse_wire" 5 None]}.

(** A server that grants every claim and a connector that answers [res]. *)
Definition sample_world (res : SDispatch.t) (c : call) : M unit (answer c) := fun w =>
  (match c return result (answer c) with
   | ListEffectsToDispatch _ _ _ => Ok [sample_effect]
   | ClaimEffectDispatch _ _ _ _ => Ok (true, sample_effect)
   | ConnDispatch _ _ => Ok res
   | RecordDispatchAttempt _ _ _ _ | CompleteEffect _ _ _ _ _ | RegisterCompensation _ _ _ _ _ _
   | RecordExternalObservation _ _ _ _ _ _ _ | Sleep _ | OpenClient _ | CloseClient | OnTick _ => Ok tt
   | Time => Ok 1000%Q
   | _ => Err TypeError
   end, w).

Definition refused : SDispatch.t := SDispatch.mk "failed" "" [] [] 0.
Definition landed : SDispatch.t := SDispatch.mk "confirmed" "W-1" [] [] 0.
