(* ===== verification/SdkOutbox.v ===== *)
(** * SdkOutbox: the outbox dispatcher of the gRPC tier, [tape/reactors/outbox.py]

    One effect through its connector, one pass over the queue, and the loop, as
    programs over the calls of [Client]. *)
From Stdlib Require Import QArith.
From S2P Require Import Prelude Scenarios Contracts Client.
#[local] Open Scope Z_scope.
#[local] Open Scope nat_scope.

Definition OverflowError : exn := Raised "OverflowError" "int too large to convert to float".

(** [_backoff_ms(attempt)] with its defaults: [1.0 * 2 ** n] is a float, exact up to
    [n = 1023] and an error from there. *)
Definition outbox_backoff_ms (attempt : Z) : result Z :=
  let n := Z.max (attempt - 1) 0 in
  if decide (1024 <= n)%Z then Err OverflowError
  else Ok (Z.min (2 ^ n) 60 * 1000)%Z.

Section outbox.
Context `{PyText}.
(** the process's connector registry, and the registries [@tape.effect] filled *)
Variable connectors : list (string * Conn).
Variable registries : Registries.

Definition get_tool_compensator (tool : string) : option ToolCompensator :=
  registries.(tool_compensators) !! tool.

(** [f"{type(ex).__name__}: {ex}"] after a prefix *)
Definition raised_text (prefix : string) (ex : exn) : string :=
  prefix +:+ exn_name ex +:+ ": " +:+ str_exn ex.

(** The [except] branch around [call_dispatch]. *)
Definition dispatch_raised (cur : PbEffect.t) (out : pydict) (ex : exn) : P pydict :=
  let error := raised_text "connector raised: " ex in
  if decide (cur.(PbEffect.semantics) = EFFECT_SEMANTICS_NON_IDEMPOTENT) then
    _ ← rpc_record_dispatch_attempt cur.(PbEffect.run_id) cur.(PbEffect.idempotency_key) error 0;
    mret (dict_set "error" (JStr (str_exn ex)) (dict_set "status" (JStr "unknown") out))
  else
    now ← now_ms;
    backoff ← lift (outbox_backoff_ms (cur.(PbEffect.dispatch_attempts) + 1));
    _ ← rpc_record_dispatch_attempt cur.(PbEffect.run_id) cur.(PbEffect.idempotency_key) error
          (now + backoff)%Z;
    mret (dict_set "error" (JStr (str_exn ex)) (dict_set "status" (JStr "retry-scheduled") out)).

(** [{"external_ref": result.external_ref, **(result.response or {})}] *)
Definition confirmed_payload (res : SDispatch.t) : pydict :=
  merge [("external_ref", JStr res.(SDispatch.external_ref))] res.(SDispatch.response).

(** The payload of the compensation: the declared callable's, when it yields one. *)
Definition compensation_body (spec : ToolCompensator) (cur : PbEffect.t) (res : SDispatch.t)
    : P json :=
  let payload := JObj (confirmed_payload res) in
  match spec.(tc_payload) with
  | None => mret payload
  | Some fn =>
    let tool_args := loads_or_empty cur.(PbEffect.request_json) in
    try_ (custom ← (invoke (PayloadOf fn tool_args payload) : P pyval);
          mret (if py_truthy custom then to_json custom else payload))
         (fun _ => mret payload)
  end.

(** [if spec is not None: try: .. register_compensation .. except: pass] *)
Definition register_inverse (cur : PbEffect.t) (res : SDispatch.t) : P unit :=
  match get_tool_compensator cur.(PbEffect.tool_name) with
  | None => mret tt
  | Some spec =>
    try_ (payload ← compensation_body spec cur res;
          rpc_register_compensation cur.(PbEffect.run_id) cur.(PbEffect.idempotency_key)
            spec.(tc_kind) (dumps payload) spec.(tc_ref) spec.(tc_max_attempts))
         (fun _ => mret tt)
  end.

Definition settle_confirmed (cur : PbEffect.t) (res : SDispatch.t) (out : pydict) : P pydict :=
  _ ← rpc_complete_effect cur.(PbEffect.run_id) cur.(PbEffect.idempotency_key)
        EFFECT_STATUS_CONFIRMED (dumps (JObj (confirmed_payload res))) "";
  _ ← register_inverse cur res;
  mret (dict_set "external_ref" (JStr res.(SDispatch.external_ref))
          (dict_set "status" (JStr "confirmed") out)).

Definition settle_unknown (cur : PbEffect.t) (res : SDispatch.t) (out : pydict) : P pydict :=
  let error := json_or (JObj res.(SDispatch.error)) (JObj [("reason", JStr "ack lost")]) in
  _ ← rpc_record_dispatch_attempt cur.(PbEffect.run_id) cur.(PbEffect.idempotency_key)
        (dumps error) 0;
  mret (dict_set "status" (JStr "unknown") out).

(** The tail of [dispatch_one]: any status other than confirmed and unknown. *)
Definition settle_failed (max_attempts : Z) (cur : PbEffect.t) (res : SDispatch.t) (out : pydict)
    : P pydict :=
  let attempts := (cur.(PbEffect.dispatch_attempts) + 1)%Z in
  if decide (max_attempts <= attempts)%Z then
    _ ← rpc_record_external_observation cur.(PbEffect.run_id) cur.(PbEffect.idempotency_key)
          EFFECT_RESOLUTION_FAILED "" ""
          (dumps (JObj [("final", JBool true); ("attempts", JInt attempts);
                        ("last", JObj res.(SDispatch.error))])) "";
    mret (dict_set "attempts" (JInt attempts) (dict_set "status" (JStr "failed") out))
  else
    next_at ← (if decide (res.(SDispatch.retry_at_ms) = 0%Z) then
                 now ← now_ms;
                 backoff ← lift (outbox_backoff_ms attempts);
                 mret (now + backoff)%Z
               else mret res.(SDispatch.retry_at_ms));
    _ ← rpc_record_dispatch_attempt cur.(PbEffect.run_id) cur.(PbEffect.idempotency_key)
          (dumps (JObj res.(SDispatch.error))) next_at;
    mret (dict_set "attempts" (JInt attempts) (dict_set "next_at_ms" (JInt next_at)
           (dict_set "status" (JStr "retry-scheduled") out))).

(** After the claim: the connector is called, and its outcome recorded. *)
Definition settle_attempt (max_attempts : Z) (cur : PbEffect.t) (out : pydict)
    (r : result SDispatch.t) : P pydict :=
  match r with
  | Err ex => dispatch_raised cur out ex
  | Ok res =>
    if decide (res.(SDispatch.status) = "confirmed") then settle_confirmed cur res out
    else if decide (res.(SDispatch.status) = "unknown") then settle_unknown cur res out
    else settle_failed max_attempts cur res out
  end.

Definition effect_summary (eff : PbEffect.t) : pydict :=
  [("run_id", JStr eff.(PbEffect.run_id));
   ("idempotency_key", JStr eff.(PbEffect.idempotency_key));
   ("connector", JStr eff.(PbEffect.connector));
   ("tool", JStr eff.(PbEffect.tool_name));
   ("semantics", JInt eff.(PbEffect.semantics))].

Definition skipped (reason : string) (out : pydict) : pydict :=
  dict_set "reason" (JStr reason) (dict_set "status" (JStr "skipped") out).

Definition dispatch_one (claimer : string) (max_attempts : Z) (eff : PbEffect.t) : P pydict :=
  let out := effect_summary eff in
  match dict_get eff.(PbEffect.connector) connectors with
  | None => mret (skipped ("no connector registered: " +:+ repr_str eff.(PbEffect.connector)) out)
  | Some connector =>
    claim ← rpc_claim_effect_dispatch eff.(PbEffect.run_id) eff.(PbEffect.idempotency_key) claimer;
    if negb claim.1 then mret (skipped "lease contended" out)
    else if decide (claim.2.(PbEffect.status) <> EFFECT_STATUS_PENDING) then
      mret (skipped ("unexpected status after claim: " +:+ pretty claim.2.(PbEffect.status)) out)
    else
      r ← try_ (res ← (invoke (ConnDispatch connector claim.2) : P SDispatch.t); mret (Ok res))
               (fun ex => mret (Err ex));
      settle_attempt max_attempts claim.2 out r
  end.

(** [outbox_dispatch_once] on a client of the caller's. *)
Definition outbox_dispatch_once (connector : string) (limit : Z) (claimer : string)
    (max_attempts : Z) : P (list pydict) :=
  effects ← rpc_list_effects_to_dispatch connector limit;
  each effects (fun e =>
    try_ (dispatch_one claimer max_attempts e)
      (fun ex => mret [("run_id", JStr e.(PbEffect.run_id));
                       ("idempotency_key", JStr e.(PbEffect.idempotency_key));
                       ("status", JStr "error"); ("error", JStr (str_exn ex))])).

(** [_claimer_id()] of the process *)
Variable claimer_id : string.

(** One turn of the loop; a pass that raises is printed and reported empty. *)
Definition outbox_pass (connector claimer : string) (max_attempts : Z) (interval_s : Q) (once : bool)
    (on_tick : option (json -> P unit)) (_ : unit) : P (unit + unit) :=
  results ← try_ (outbox_dispatch_once connector 200 (str_or claimer claimer_id) max_attempts)
    (fun ex => _ ← (invoke (PrintErr ("[tape outbox] tick error: " +:+ str_exn ex)) : P unit); mret []);
  _ ← call_back on_tick (JList (map JObj results));
  sleep_or_return once interval_s tt.

(** [run_outbox_dispatcher]; [None] is a process still running after [turns] passes. *)
Definition run_outbox_dispatcher (turns : nat) (url connector claimer : string) (max_attempts : Z)
    (interval_s : Q) (once : bool) (on_tick : option (json -> P unit)) : P (option unit) :=
  with_client url (forever turns (outbox_pass connector claimer max_attempts interval_s once on_tick) tt).
End outbox.
