(* ===== verification/OutboxProtocol.v ===== *)
(** * OutboxProtocol: the outbox protocol as a state machine, and its safety

    What one dispatcher may do between claiming an effect and recording its outcome,
    as a deterministic automaton over calls and answers; what the server grants and
    closes for one effect, also when a lease runs out; and the theorem about any number of
    dispatchers interleaved on one server: a call that did not definitely fail is paid for
    by a lease, and a further call needs a lease granted over one that ran out.
    [SdkOutboxTheorems] shows the Python dispatcher refines the automaton. *)
From stdpp Require Import fin_sets gmap.
From S2P Require Import Prelude Client.
#[local] Open Scope Z_scope.
#[local] Open Scope nat_scope.

#[export] Instance pb_effect_eq_dec : EqDecision PbEffect.t.
Proof. solve_decision. Defined.

(** ** One dispatcher *)

(** What the answer of a connector means for the effect. *)
Inductive verdict := Landed | Ambiguous | GaveUp | Retry.
#[export] Instance verdict_eq_dec : EqDecision verdict.
Proof. solve_decision. Defined.

Definition verdict_of (max_attempts : Z) (cur : PbEffect.t) (r : result SDispatch.t) : verdict :=
  match r with
  | Err _ => if decide (cur.(PbEffect.semantics) = EFFECT_SEMANTICS_NON_IDEMPOTENT)
             then Ambiguous else Retry
  | Ok res =>
    if decide (res.(SDispatch.status) = "confirmed") then Landed
    else if decide (res.(SDispatch.status) = "unknown") then Ambiguous
    else if decide (max_attempts <= cur.(PbEffect.dispatch_attempts) + 1)%Z then GaveUp
    else Retry
  end.

Inductive phase :=
  | Idle
  | Held (cur : PbEffect.t)
  | Called (cur : PbEffect.t) (r : result SDispatch.t)
  | Confirmed (cur : PbEffect.t).

(** The row a call names is [cur]. *)
Definition names (cur : PbEffect.t) (run key : string) : bool :=
  bool_decide (run = cur.(PbEffect.run_id) /\ key = cur.(PbEffect.idempotency_key)).
Definition guard_ {A} (b : bool) (a : A) : option A := if b then Some a else None.

(** The effect can be claimed, is under a lease, or is no longer PENDING. *)
Inductive slot := Free | Leased | Settled.
#[export] Instance slot_eq_dec : EqDecision slot.
Proof. solve_decision. Defined.

Section protocol.
Variable max_attempts : Z.

(** A dispatcher that holds nothing: it lists, sleeps, claims, and does what concerns its
    process only. *)
Definition idle_step (ev : event answer) : option phase :=
  let 'Ev c r := ev in
  match c return result (answer c) -> option phase with
  | ListEffectsToDispatch _ _ _ | Sleep _ | OpenClient _ | CloseClient | OnTick _
  | PrintErr _ | PrintOut _ => fun _ => Some Idle
  | ClaimEffectDispatch run key _ _ => fun r =>
    match r with
    | Ok (true, cur) => Some (if decide (cur.(PbEffect.status) = EFFECT_STATUS_PENDING)
                              then Held cur else Idle)
    | _ => Some Idle
    end
  | _ => fun _ => None
  end r.

Definition held_step (cur : PbEffect.t) (ev : event answer) : option phase :=
  let 'Ev c r := ev in
  match c return result (answer c) -> option phase with
  | ConnDispatch _ cur' => fun r => guard_ (bool_decide (cur' = cur)) (Called cur r)
  | _ => fun _ => None
  end r.

(** The one record the verdict allows; a retry may also be abandoned. *)
Definition called_step (cur : PbEffect.t) (r0 : result SDispatch.t) (ev : event answer)
    : option phase :=
  let 'Ev c r := ev in
  match verdict_of max_attempts cur r0, c with
  | Landed, CompleteEffect run key status _ _ =>
    guard_ (names cur run key && bool_decide (status = EFFECT_STATUS_CONFIRMED))
      (if is_ok r then Confirmed cur else Idle)
  | Ambiguous, RecordDispatchAttempt run key _ next_at =>
    guard_ (names cur run key && bool_decide (next_at = 0%Z)) Idle
  | GaveUp, RecordExternalObservation run key resolution _ _ _ _ =>
    guard_ (names cur run key && bool_decide (resolution = EFFECT_RESOLUTION_FAILED)) Idle
  | Retry, Time => Some (Called cur r0)
  | Retry, RecordDispatchAttempt run key _ _ => guard_ (names cur run key) Idle
  | Retry, _ => idle_step ev
  | _, _ => None
  end.

Definition confirmed_step (cur : PbEffect.t) (ev : event answer) : option phase :=
  let 'Ev c r := ev in
  match c with
  | PayloadOf _ _ _ => Some (Confirmed cur)
  | RegisterCompensation run key _ _ _ _ => guard_ (names cur run key) Idle
  | _ => idle_step ev
  end.

Definition step (ph : phase) (ev : event answer) : option phase :=
  match ph with
  | Idle => idle_step ev
  | Held cur => held_step cur ev
  | Called cur r => called_step cur r ev
  | Confirmed cur => confirmed_step cur ev
  end.

Fixpoint steps (ph : phase) (t : list (event answer)) : option phase :=
  match t with
  | [] => Some ph
  | ev :: t => ph' ← step ph ev; steps ph' t
  end.

Lemma steps_app ph t t' : steps ph (t ++ t') = (ph' ← steps ph t; steps ph' t').
Proof.
  revert ph. induction t as [|ev t IH]; intros ph; simpl; [done|].
  unfold mbind, option_bind in *. destruct (step ph ev); [apply IH|done].
Qed.

(** A phase the dispatcher may leave without a further record. *)
Definition at_rest (ph : phase) : Prop :=
  match ph with
  | Idle | Confirmed _ => True
  | Held _ => False
  | Called cur r => verdict_of max_attempts cur r = Retry
  end.

(** What an idle dispatcher may do next, one at rest may too. *)
Lemma idle_step_at_rest ph ev ph' : at_rest ph -> idle_step ev = Some ph' -> step ph ev = Some ph'.
Proof.
  destruct ev as [c r], ph as [|cur|cur r0|cur]; simpl; [done|done| |].
  - intros -> Hi. destruct c; simpl in *; try done.
  - intros _ Hi. destruct c; simpl in *; try done.
Qed.

(** ** The server, for one effect *)
Variables id_run id_key : string.

Definition mine (cur : PbEffect.t) : bool := names cur id_run id_key.


(** The effect a call claims or settles, and the row a granted claim answers. *)
Definition target (c : call) : option (string * string) :=
  match c with
  | ClaimEffectDispatch run key _ _ | RecordDispatchAttempt run key _ _
  | CompleteEffect run key _ _ _ | RecordExternalObservation run key _ _ _ _ _ =>
    Some (run, key)
  | _ => None
  end.
Definition granted_as_asked (c : call) : result (answer c) -> Prop :=
  match c return result (answer c) -> Prop with
  | ClaimEffectDispatch run key _ _ => fun r =>
    match r with Ok (true, cur) => names cur run key = true | _ => True end
  | _ => fun _ => True
  end.

(** What the answered call does to the slot, and how many leases were granted over one
    that ran out.  A lease that is granted is for the row asked for, PENDING, and either
    unleased or leased until a time that has passed; an attempt with a next dispatch time
    frees the row, whatever it was, one without closes it, as do a completion and an
    observation; a call that raised may have taken effect or not, and a row that is gone
    stays gone. *)
Definition serve (s : slot) (ev : event answer) (n : nat) (s' : slot) : Prop :=
  let 'Ev c r := ev in
  if decide (target c = Some (id_run, id_key)) then
    match c return result (answer c) -> Prop with
    | ClaimEffectDispatch _ _ _ _ => fun r =>
      match r with
      | Ok (true, cur) => s <> Settled /\ n = match s with Leased => 1 | _ => 0 end /\ s' = Leased /\
                          mine cur = true /\ cur.(PbEffect.status) = EFFECT_STATUS_PENDING
      | Ok (false, _) => n = 0 /\ s' = s
      | Err _ => n = 0 /\ (s' = s \/ s <> Settled /\ s' = Leased)
      end
    | RecordDispatchAttempt _ _ _ next_at => fun r =>
      n = 0 /\ (s' = (if decide (0 < next_at)%Z then Free else Settled) \/
                (is_ok r = false \/ s = Settled) /\ s' = s)
    | _ => fun r => n = 0 /\ (s' = Settled \/ is_ok r = false /\ s' = s)
    end r
  else granted_as_asked c r /\ n = 0 /\ s' = s.

(** A trace as the server serves it; the number counts the leases granted over one that
    ran out. *)
Inductive serves : slot -> list (event answer) -> nat -> slot -> Prop :=
  | serves_nil s : serves s [] 0 s
  | serves_snoc s t n s' ev k s'' :
      serves s t n s' -> serve s' ev k s'' -> serves s (t ++ [ev]) (n + k) s''.

Lemma serves_cons s ev k s' t n s'' : serve s ev k s' -> serves s' t n s'' -> serves s (ev :: t) (k + n) s''.
Proof.
  intros Hs Ht. induction Ht as [s'|s' t n s1 ev' k' s2 Ht IH Hs'].
  - rewrite Nat.add_0_r. apply (serves_snoc s [] 0 s); [constructor|done].
  - rewrite app_comm_cons, Nat.add_assoc. econstructor; [by apply IH|done].
Qed.

(** ** Dispatchers interleaved

    A global trace labels every event with the process it belongs to.  [granted p]
    is what one process did. *)
Definition local (p : nat) (G : list (nat * event answer)) : list (event answer) :=
  (filter (fun x => x.1 = p) G).*2.

(** The connector calls made for the effect, with their answers, in order. *)
Definition call_of (ev : event answer) : list (PbEffect.t * result SDispatch.t) :=
  let 'Ev c r := ev in
  match c return result (answer c) -> list (PbEffect.t * result SDispatch.t) with
  | ConnDispatch _ cur => fun r => if mine cur then [(cur, r)] else []
  | _ => fun _ => []
  end r.
Definition calls (G : list (nat * event answer)) : list (PbEffect.t * result SDispatch.t) :=
  G ≫= (fun x => call_of x.2).

(** Processes, one more and one fewer. *)
Lemma size_without (p : nat) (H : gset nat) : p ∈ H -> size (H ∖ {[p]}) + 1 = size H.
Proof.
  intros Hp. pose proof (size_union (C:=gset nat) {[p]} (H ∖ {[p]}) ltac:(set_solver)) as E.
  rewrite (size_singleton (C:=gset nat)) in E. rewrite (union_difference_L {[p]} H) at 2 by set_solver. lia.
Qed.
Lemma size_with (p : nat) (H : gset nat) : size ({[p]} ∪ H) <= 1 + size H.
Proof.
  pose proof (size_union_alt (C:=gset nat) {[p]} H) as E. rewrite (size_singleton (C:=gset nat)) in E.
  pose proof (subseteq_size (C:=gset nat) (H ∖ {[p]}) H ltac:(set_solver)). lia.
Qed.

(** A process that holds the effect: claimed, or called and not yet recorded. *)
Definition active (ph : phase) : bool :=
  match ph with Held cur | Called cur _ => mine cur | _ => false end.

(** A call that definitely failed, with attempts left. *)
Definition definite (x : PbEffect.t * result SDispatch.t) : Prop :=
  verdict_of max_attempts x.1 x.2 = Retry.
#[export] Instance definite_dec x : Decision (definite x).
Proof. unfold definite. apply _. Defined.
(** The calls that did not. *)
Definition unsettled (xs : list (PbEffect.t * result SDispatch.t)) : nat :=
  length (filter (fun x => ~ definite x) xs).

(** A process that may still make a call, or allow another. *)
Definition owes (ph : phase) : bool :=
  match ph with
  | Held cur => mine cur
  | Called cur r => mine cur && bool_decide (definite (cur, r))
  | _ => false
  end.
Lemma owes_active ph : owes ph = true -> active ph = true.
Proof. destruct ph; cbn; try done. by intros [? _]%andb_prop. Qed.

(** The row's only permission to be claimed afresh. *)
Definition free (s : slot) : nat := match s with Free => 1 | _ => 0 end.

(** The invariant of the interleaving: the processes that owe a call, the calls that did
    not definitely fail and the free row are at most one more than the leases that ran
    out; and every call was made after at most as many such calls as leases ran out. *)
Record accounted (G : list (nat * event answer)) (n : nat) (s : slot) (ph : nat -> phase) : Prop := {
  acc_owing : exists H : gset nat, (forall p, owes (ph p) = true -> p ∈ H) /\
    size H + unsettled (calls G) + free s <= S n;
  acc_before xs y ys : calls G = xs ++ y :: ys -> unsettled xs <= n
}.

(** What one event of a dispatcher can be. *)
Inductive event_kind (ph : phase) (ph' : phase) : event answer -> Prop :=
  | kind_call conn cur r :
      ph = Held cur -> ph' = Called cur r -> event_kind ph ph' (Ev (ConnDispatch conn cur) r)
  | kind_claim run key claimer ttl cur :
      ph' = Held cur ->
      event_kind ph ph' (Ev (ClaimEffectDispatch run key claimer ttl) (Ok (true, cur)))
  | kind_record cur r0 c r run key :
      ph = Called cur r0 -> active ph' = false -> target c = Some (run, key) ->
      names cur run key = true ->
      (forall run key claimer ttl, c <> ClaimEffectDispatch run key claimer ttl) ->
      (forall error next_at, c = RecordDispatchAttempt run key error next_at ->
         (0 < next_at)%Z -> definite (cur, r0)) ->
      event_kind ph ph' (Ev c r)
  | kind_other c r :
      ph' = ph \/ active ph' = false ->
      (target c = None \/ exists run key claimer ttl, c = ClaimEffectDispatch run key claimer ttl) ->
      call_of (Ev c r) = [] -> event_kind ph ph' (Ev c r).

Lemma idle_step_kind ph ev ph' :
  idle_step ev = Some ph' -> event_kind ph ph' ev.
Proof.
  destruct ev as [c r]; destruct c; simpl; try discriminate;
    try solve [intros [= <-]; apply kind_other; auto].
  assert (Hoth : forall x, Some Idle = Some x -> event_kind ph x
      (Ev (ClaimEffectDispatch run_id key claimer lease_ttl_ms) r)).
  { intros x [= <-]. apply kind_other; eauto 10. }
  destruct r as [[[|] cur]|e]; [|apply Hoth..].
  case_decide; [intros [= <-]; by econstructor|apply Hoth].
Qed.

Lemma guard_some {A} b (a a' : A) : guard_ b a = Some a' -> b = true /\ a = a'.
Proof. destruct b; [intros [= ->]; done|discriminate]. Qed.

Lemma step_kind ph ev ph' : step ph ev = Some ph' -> event_kind ph ph' ev.
Proof.
  destruct ph as [|cur|cur r0|cur]; simpl; [apply idle_step_kind| | |].
  - destruct ev as [c r]; destruct c; simpl; try discriminate.
    intros [Hc <-]%guard_some. apply bool_decide_eq_true in Hc as <-. by econstructor.
  - destruct ev as [c r]. unfold called_step.
    destruct (verdict_of max_attempts cur r0) eqn:Hv; destruct c; try discriminate;
      try apply idle_step_kind;
      try (intros [[Hn H2]%andb_prop <-]%guard_some || intros [Hn <-]%guard_some);
      try (apply (kind_record _ _ cur r0 _ _ run_id key);
           first [done|by destruct r|intros ? ? [= <- <-] Hpos;
             first [exact Hv|apply bool_decide_eq_true in H2; lia]]).
    intros [= <-]. apply kind_other; auto.
  - destruct ev as [c r]; destruct c; unfold confirmed_step; try apply idle_step_kind.
    + intros [Hn <-]%guard_some. apply kind_other; auto.
    + intros [= <-]. apply kind_other; auto.
Qed.

(** One interleaved step keeps the invariant. *)
Lemma calls_snoc G p ev : calls (G ++ [(p, ev)]) = calls G ++ call_of ev.
Proof. unfold calls. rewrite bind_app. simpl. by rewrite app_nil_r. Qed.

Lemma names_mine cur run key :
  names cur run key = true -> mine cur = bool_decide ((run, key) = (id_run, id_key)).
Proof.
  unfold mine, names. rewrite bool_decide_eq_true. intros [-> ->].
  apply bool_decide_ext. split; [intros [-> ->]; done|intros [= -> ->]; done].
Qed.

Lemma serve_elsewhere s c r k s' :
  target c <> Some (id_run, id_key) -> serve s (Ev c r) k s' -> granted_as_asked c r /\ k = 0 /\ s' = s.
Proof. intros Ht. unfold serve. by rewrite decide_False. Qed.

(** A record of the effect itself frees the slot only when it schedules a dispatch. *)
Lemma serve_record s c r k s' run key :
  serve s (Ev c r) k s' -> target c = Some (run, key) ->
  (forall run key claimer ttl, c <> ClaimEffectDispatch run key claimer ttl) ->
  k = 0 /\ (s' = s \/ s' = Settled \/
    exists error next_at, c = RecordDispatchAttempt run key error next_at /\ (0 < next_at)%Z).
Proof.
  intros Hs Ht Hc. unfold serve in Hs. case_decide as Hid; [|by destruct Hs as (_ & -> & ->); auto].
  destruct c; try discriminate; simplify_eq/=; try (destruct Hs as [-> [->|[_ ->]]]; auto).
  - by destruct (Hc id_run id_key claimer lease_ttl_ms).
  - case_decide; eauto 10.
Qed.

(** What an event changes: the phase of the process it is of. *)
Section accounted_step.
Context (G : list (nat * event answer)) (n : nat) (s : slot) (ph ph' : nat -> phase) (p : nat).
Hypothesis HA : accounted G n s ph.
Hypothesis Hq : forall q, q <> p -> ph' q = ph q.

(** The processes that owe, when this one does or does not after the event. *)
Lemma owing_kept (H : gset nat) :
  (forall q, owes (ph q) = true -> q ∈ H) -> (owes (ph' p) = true -> p ∈ H) ->
  forall q, owes (ph' q) = true -> q ∈ H.
Proof. intros Hin Hp q Ho. destruct (decide (q = p)) as [->|Hne]; [auto|]. apply Hin. by rewrite <- (Hq _ Hne). Qed.
Lemma owing_dropped (H : gset nat) :
  (forall q, owes (ph q) = true -> q ∈ H) -> owes (ph' p) = false ->
  forall q, owes (ph' q) = true -> q ∈ H ∖ {[p]}.
Proof.
  intros Hin Hp q Ho. destruct (decide (q = p)) as [->|Hne]; [congruence|].
  apply elem_of_difference. split; [|set_solver]. apply Hin. by rewrite <- (Hq _ Hne).
Qed.

(** An event that calls no connector for the effect. *)
Lemma accounted_quiet ev k s' :
  call_of ev = [] ->
  (forall H : gset nat, (forall q, owes (ph q) = true -> q ∈ H) ->
     exists H' : gset nat, (forall q, owes (ph' q) = true -> q ∈ H') /\ size H' + free s' <= size H + free s + k) ->
  accounted (G ++ [(p, ev)]) (n + k) s' ph'.
Proof.
  intros Hc Hh. assert (Hcalls : calls (G ++ [(p, ev)]) = calls G) by (rewrite calls_snoc, Hc; apply app_nil_r).
  destruct HA as [(H & Hin & Hle) Hb]. split; rewrite Hcalls.
  - destruct (Hh H Hin) as (H' & Hin' & Hle'). exists H'. split; [done|lia].
  - intros xs y ys Hx. specialize (Hb xs y ys Hx). lia.
Qed.
Lemma accounted_rest ev s' :
  call_of ev = [] -> (owes (ph' p) = true -> owes (ph p) = true) -> free s' <= free s ->
  forall k, accounted (G ++ [(p, ev)]) (n + k) s' ph'.
Proof.
  intros Hc Hp Hf k. apply accounted_quiet; [done|]. intros H Hin. exists H. split; [|lia].
  apply owing_kept; auto.
Qed.

Lemma accounted_called conn cur r k s' :
  ph p = Held cur -> ph' p = Called cur r -> serve s (Ev (ConnDispatch conn cur) r) k s' ->
  accounted (G ++ [(p, Ev (ConnDispatch conn cur) r)]) (n + k) s' ph'.
Proof.
  intros Hp Hp' Hs. apply serve_elsewhere in Hs as (_ & -> & ->); [|done]. destruct (mine cur) eqn:Hm.
  2:{ apply accounted_rest; [simpl; by rewrite Hm| |lia]. rewrite Hp'. cbn. by rewrite Hm. }
  assert (Hcalls : calls (G ++ [(p, Ev (ConnDispatch conn cur) r)]) = calls G ++ [(cur, r)])
    by (rewrite calls_snoc; simpl; by rewrite Hm).
  destruct HA as [(H & Hin & Hle) Hb]. rewrite Nat.add_0_r.
  assert (Hip : p ∈ H) by (apply Hin; by rewrite Hp).
  pose proof (size_without p H Hip) as Hsz.
  assert (Hadd : unsettled (calls G ++ [(cur, r)]) = unsettled (calls G) + (if decide (definite (cur, r)) then 0 else 1)).
  { unfold unsettled. rewrite filter_app, length_app. f_equal. rewrite filter_cons. 
    repeat case_decide; naive_solver. }
  split; rewrite Hcalls.
  - rewrite Hadd. destruct (decide (definite (cur, r))) as [Hd|Hd].
    + exists H. split; [by apply owing_kept|lia].
    + exists (H ∖ {[p]}). split; [|lia]. apply owing_dropped; [done|]. rewrite Hp'. cbn.
      by rewrite bool_decide_false, andb_false_r.
  - intros xs y ys Hx. destruct ys as [|z ys _] using rev_ind.
    + apply app_inj_tail in Hx as [<- _]. lia.
    + rewrite app_comm_cons, app_assoc in Hx. apply app_inj_tail in Hx as [Hx _]. by eapply Hb.
Qed.

Lemma accounted_claimed run key claimer ttl cur k s' :
  let ev := Ev (R:=answer) (ClaimEffectDispatch run key claimer ttl) (Ok (true, cur)) in
  ph' p = Held cur -> serve s ev k s' -> accounted (G ++ [(p, ev)]) (n + k) s' ph'.
Proof.
  intros ev Hp' Hs. destruct (decide ((run, key) = (id_run, id_key))) as [[= -> ->]|Hne].
  - unfold serve, ev in Hs. rewrite decide_True in Hs by done. destruct Hs as (Es & -> & -> & _).
    apply accounted_quiet; [done|]. intros H Hin. exists ({[p]} ∪ H). split.
    + apply owing_kept; [|set_solver]. intros q Ho. apply Hin in Ho. set_solver.
    + pose proof (size_with p H).
      destruct s; cbn; lia || done.
  - apply serve_elsewhere in Hs as (Hg & -> & ->); [|simpl; congruence].
    assert (Hm : mine cur = false).
    { simpl in Hg. rewrite (names_mine _ _ _ Hg). by apply bool_decide_eq_false. }
    apply accounted_rest; [done| |lia]. rewrite Hp'. cbn. by rewrite Hm.
Qed.

Lemma accounted_recorded cur r0 c r run key k s' :
  ph p = Called cur r0 -> active (ph' p) = false -> target c = Some (run, key) -> names cur run key = true ->
  (forall run key claimer ttl, c <> ClaimEffectDispatch run key claimer ttl) ->
  (forall error next_at, c = RecordDispatchAttempt run key error next_at -> (0 < next_at)%Z -> definite (cur, r0)) ->
  serve s (Ev c r) k s' -> accounted (G ++ [(p, Ev c r)]) (n + k) s' ph'.
Proof.
  intros Hp Hp' Ht Hn Hcl Hdef Hs. assert (Hcall : call_of (Ev c r) = []) by (by destruct c).
  assert (Ho : owes (ph' p) = false).
  { destruct (owes (ph' p)) eqn:Ho; [|done]. apply owes_active in Ho. congruence. }
  assert (Hno : owes (ph' p) = true -> owes (ph p) = true) by congruence.
  destruct (mine cur) eqn:Hm.
  - destruct (serve_record _ _ _ _ _ _ _ Hs Ht Hcl) as (-> & [->|[->|(err & nxt & -> & Hpos)]]);
      [by apply accounted_rest|apply accounted_rest; [done..|cbn; lia]|].
    assert (Hd := Hdef _ _ eq_refl Hpos). apply accounted_quiet; [done|]. intros H Hin.
    assert (Hip : p ∈ H) by (apply Hin; rewrite Hp; cbn; by rewrite Hm, bool_decide_true).
    exists (H ∖ {[p]}). split; [by apply owing_dropped|].
    pose proof (size_without p H Hip).
    destruct s'; cbn; lia.
  - assert (Hne : (run, key) <> (id_run, id_key)).
    { intros Heq. rewrite (names_mine _ _ _ Hn), bool_decide_true in Hm by done. done. }
    apply serve_elsewhere in Hs as (_ & -> & ->); [|congruence]. by apply accounted_rest.
Qed.

Lemma accounted_other c r k s' :
  ph' p = ph p \/ active (ph' p) = false ->
  target c = None \/ (exists run key claimer ttl, c = ClaimEffectDispatch run key claimer ttl) ->
  call_of (Ev c r) = [] -> serve s (Ev c r) k s' -> accounted (G ++ [(p, Ev c r)]) (n + k) s' ph'.
Proof.
  intros Hp Ht Hc Hs. apply accounted_rest; [done| |].
  - intros Ho. destruct Hp as [Hp|Hp]; [by rewrite <- Hp|]. apply owes_active in Ho. congruence.
  - destruct Ht as [Ht|(run & key & cl & ttl & ->)].
    + apply serve_elsewhere in Hs as (_ & _ & ->); [done|congruence].
    + unfold serve in Hs. case_decide; [|by destruct Hs as (_ & _ & ->)].
      destruct r as [[[|] cur]|]; [destruct Hs as (_ & _ & -> & _)|destruct Hs as (_ & ->)|
        destruct Hs as (_ & [->|(_ & ->)])]; cbn; lia.
Qed.
End accounted_step.

Lemma accounted_step G n s ph p ev ph' k s' :
  accounted G n s ph -> step (ph p) ev = Some (ph' p) -> (forall q, q <> p -> ph' q = ph q) ->
  serve s ev k s' -> accounted (G ++ [(p, ev)]) (n + k) s' ph'.
Proof.
  intros HA Hst Hq Hs. apply step_kind in Hst.
  destruct Hst as [conn cur r Hp Hp'|run key claimer ttl cur Hp'|cur r0 c r run key Hp Hp' Ht Hn Hcl Hdef
                  |c r Hp Ht Hc].
  - by eapply accounted_called.
  - by eapply accounted_claimed.
  - by eapply accounted_recorded.
  - by eapply accounted_other.
Qed.

Lemma local_snoc p G q ev :
  local p (G ++ [(q, ev)]) = local p G ++ (if decide (q = p) then [ev] else []).
Proof.
  unfold local. rewrite filter_app, fmap_app. f_equal.
  destruct (decide (q = p)); [rewrite filter_cons_True by done|rewrite filter_cons_False by done];
    done.
Qed.

Lemma serves_snoc_inv s t ev n s' :
  serves s (t ++ [ev]) n s' -> exists s0 m k, n = m + k /\ serves s t m s0 /\ serve s0 ev k s'.
Proof.
  inversion 1 as [s0 Hs Ht|s0 t0 n0 s1 ev0 k s2 H1 H2 Hs Ht]; [by destruct t|].
  apply app_inj_tail in Ht as [-> ->]. eauto 10.
Qed.

(** Processes that follow the protocol keep the invariant, however they interleave. *)
Lemma interleaving_accounted G n s :
  serves Free G.*2 n s -> (forall p, is_Some (steps Idle (local p G))) ->
  accounted G n s (fun p => default Idle (steps Idle (local p G))).
Proof.
  revert n s. induction G as [|[p ev] G IH] using rev_ind; intros n s Hs Hp.
  - inversion Hs as [s0|s0 t m s1 ev k s2 H1 H2 Heq Ht]; [|by destruct t].
    split; [exists ∅; split; [done|rewrite size_empty; cbn; lia]|]. intros xs y ys Hx. by destruct xs.
  - rewrite fmap_app in Hs. apply serves_snoc_inv in Hs as (s0 & m & k & -> & Hs0 & Hs).
    assert (Hbefore : forall q, is_Some (steps Idle (local q G))).
    { intros q. specialize (Hp q). rewrite local_snoc, steps_app in Hp.
      destruct (steps Idle (local q G)); [done|by destruct Hp]. }
    apply (accounted_step G m s0 (fun q => default Idle (steps Idle (local q G)))); [by apply IH| | |done].
    + specialize (Hp p). specialize (Hbefore p). revert Hp. rewrite local_snoc, decide_True, steps_app by done.
      destruct (steps Idle (local p G)) as [ph|]; [|by destruct Hbefore]. simpl.
      unfold mbind, option_bind. destruct (step ph ev); [done|by intros []].
    + intros q Hq. by rewrite local_snoc, decide_False, app_nil_r.
Qed.

(** Before every call of the connector for the effect, as many calls did not definitely
    fail as leases ran out, at most. *)
Lemma interleaving_calls G n s xs y ys :
  serves Free G.*2 n s -> (forall p, is_Some (steps Idle (local p G))) ->
  calls G = xs ++ y :: ys -> unsettled xs <= n.
Proof. intros Hs Hp. apply (acc_before _ _ _ _ (interleaving_accounted G n s Hs Hp)). Qed.
End protocol.
