(* ===== verification/SdkOutboxTheorems.v ===== *)
(** * SdkOutboxTheorems: the gRPC tier's outbox dispatcher

    The dispatcher process refines the protocol of [OutboxProtocol]; from that, in any
    interleaving of dispatchers, stopped anywhere, a non-idempotent connector is called
    again after a call that may have landed only over a lease that ran out.  What one
    attempt records for each answer, and that a pass reports every effect. *)
From Stdlib Require Import QArith.
From S2P Require Import Prelude Scenarios ScenarioTheorems Contracts Client SdkOutbox OutboxProtocol SdkSamples.
#[local] Open Scope Z_scope.
#[local] Open Scope nat_scope.
#[local] Arguments wp : simpl never.

Section refinement.
Context `{PyText}.
Variable connectors : list (string * Conn).
Variable registries : Registries.
Variable max_attempts : Z.
#[local] Abbreviation step := (step max_attempts).
#[local] Abbreviation steps := (steps max_attempts).
#[local] Abbreviation at_rest := (at_rest max_attempts).

(** From a phase, a program follows the protocol to a phase it may be left in. *)
Definition follows (ph : phase) (t : list (event answer)) : Prop :=
  exists ph', steps ph t = Some ph' /\ at_rest ph'.
Definition from_rest (t : list (event answer)) : Prop := forall ph, at_rest ph -> follows ph t.

#[local] Instance from_rest_closed : Closed from_rest.
Proof.
  split; [intros ph Hph; by exists ph|].
  intros t t' Ht Ht' ph Hph. destruct (Ht _ Hph) as (ph1 & H1 & Hr).
  destruct (Ht' _ Hr) as (ph2 & H2 & Hr2). exists ph2. rewrite steps_app, H1. by split.
Qed.

Lemma follows_cons ph ev ph' t : step ph ev = Some ph' -> follows ph' t -> follows ph (ev :: t).
Proof. intros Hs (ph2 & H2 & Hr). exists ph2. simpl. by rewrite Hs. Qed.
Lemma follows_nil ph : at_rest ph -> follows ph [].
Proof. intros Hr. by exists ph. Qed.

Lemma names_refl cur : names cur cur.(PbEffect.run_id) cur.(PbEffect.idempotency_key) = true.
Proof. by apply bool_decide_eq_true. Qed.

(** A call the protocol allows, then the rest of the program. *)
Lemma wp_follows {A} ph c (k : result (answer c) -> P A) :
  (forall r, exists ph', step ph (Ev c r) = Some ph' /\ wp (k r) (fun t _ => follows ph' t)) ->
  wp (Call c k) (fun t _ => follows ph t).
Proof.
  intros Hk r. destruct (Hk r) as (ph' & Hs & Hw). eapply wp_mono, Hw.
  intros t o Ht. by apply (follows_cons _ _ _ _ Hs Ht).
Qed.

Ltac follow Hv :=
  apply wp_follows; intros [?|?]; eexists;
  (split; [unfold OutboxProtocol.step, called_step, confirmed_step, guard_; rewrite ?Hv, ?names_refl; reflexivity|]); simpl.

Lemma register_inverse_follows cur res :
  wp (register_inverse registries cur res) (fun t _ => follows (Confirmed cur) t).
Proof.
  unfold register_inverse. destruct (get_tool_compensator _ _) as [spec|]; [|by apply follows_nil].
  unfold compensation_body. destruct (tc_payload spec) as [fn|]; simpl.
  - follow I; follow I; by apply follows_nil.
  - follow I; by apply follows_nil.
Qed.

Lemma settle_attempt_follows cur out r :
  wp (settle_attempt registries max_attempts cur out r) (fun t _ => follows (Called cur r) t).
Proof.
  destruct (verdict_of max_attempts cur r) eqn:Hv;
    pose proof Hv as Hd; unfold verdict_of in Hd; unfold settle_attempt;
    destruct r as [res|ex]; repeat case_decide; try discriminate.
  - unfold settle_confirmed. simpl. follow Hv; [|by apply follows_nil].
    apply wp_bind. eapply wp_mono, register_inverse_follows. intros t [?|?] Ht; [|done].
    apply wp_ret. by rewrite app_nil_r.
  - unfold settle_unknown. simpl. follow Hv; by apply follows_nil.
  - unfold dispatch_raised. rewrite decide_True by done. simpl. follow Hv; by apply follows_nil.
  - unfold settle_failed. rewrite decide_True by done. simpl. follow Hv; by apply follows_nil.
  - unfold settle_failed. rewrite decide_False by done. case_decide; simpl.
    + follow Hv; [|by apply follows_nil].
      destruct (outbox_backoff_ms _); simpl; [follow Hv|]; by apply follows_nil.
    + follow Hv; by apply follows_nil.
  - unfold dispatch_raised. rewrite decide_False by done. simpl. follow Hv; [|by apply follows_nil].
    destruct (outbox_backoff_ms _); simpl; [follow Hv|]; by apply follows_nil.
Qed.

Lemma dispatch_one_follows claimer eff :
  wp (dispatch_one connectors registries claimer max_attempts eff) (fun t _ => from_rest t).
Proof.
  assert (Hrest : forall ph, at_rest ph -> wp (dispatch_one connectors registries claimer max_attempts eff)
                                  (fun t _ => follows ph t)).
  { intros ph Hph. unfold dispatch_one. destruct (dict_get _ connectors) as [conn|]; [|by apply follows_nil].
    simpl. apply wp_follows. intros [[[|] cur]|e]; eexists;
      (split; [apply idle_step_at_rest; [done|reflexivity]|]); simpl; try by apply follows_nil.
    destruct (decide (cur.(PbEffect.status) <> EFFECT_STATUS_PENDING)) as [Hst|Hst].
    - rewrite decide_False by done. by apply follows_nil.
    - rewrite decide_True by (by apply dec_stable). simpl. apply wp_follows. intros r.
      exists (Called cur r). split; [unfold OutboxProtocol.step, held_step; by rewrite bool_decide_true|].
      destruct r as [res|e]; simpl.
      + apply (settle_attempt_follows cur (effect_summary eff) (Ok res)).
      + apply (settle_attempt_follows cur (effect_summary eff) (Err e)). }
  apply exec_wp. intros t o He ph Hph. by apply (wp_exec _ _ _ _ (Hrest ph Hph) He).
Qed.

Lemma call_from_rest {A} c (k : result (answer c) -> P A) :
  (forall r, idle_step (Ev c r) = Some Idle) -> (forall r, wp (k r) (fun t _ => from_rest t)) ->
  wp (Call c k) (fun t _ => from_rest t).
Proof.
  intros Hc Hk r. eapply wp_mono, Hk. intros t o Ht ph Hph.
  eapply follows_cons; [apply idle_step_at_rest; [done|apply Hc]|]. by apply Ht.
Qed.

Lemma outbox_dispatch_once_follows connector limit claimer :
  wp (outbox_dispatch_once connectors registries connector limit claimer max_attempts)
     (fun t _ => from_rest t).
Proof.
  unfold outbox_dispatch_once. simpl. apply call_from_rest; [done|].
  intros [es|e]; simpl; [|apply closed_nil].
  apply wp_each_closed; [apply _|]. intros e _. apply wp_try_closed; [apply _| |intros; apply closed_nil].
  apply dispatch_one_follows.
Qed.

Variable claimer_id : string.
#[local] Abbreviation callback ticking := (if (ticking : bool) then user_tick else None).

(** What concerns the process only *)
Lemma idle_rests c r : idle_step (Ev c r) = Some Idle -> from_rest [Ev c r].
Proof.
  intros Hc ph Hph. eapply follows_cons; [by apply idle_step_at_rest|]. by apply follows_nil.
Qed.

Lemma outbox_pass_follows connector claimer interval once ticking u :
  wp (outbox_pass connectors registries claimer_id connector claimer max_attempts interval once (callback ticking) u)
     (fun t _ => from_rest t).
Proof.
  unfold outbox_pass, call_back, sleep_or_return, user_tick.
  destruct ticking, once; repeat first [apply outbox_dispatch_once_follows | closed_step | by apply idle_rests].
Qed.

Lemma run_outbox_dispatcher_follows turns url connector claimer interval once ticking :
  wp (run_outbox_dispatcher connectors registries claimer_id turns url connector claimer max_attempts interval
        once (callback ticking)) (fun t _ => from_rest t).
Proof.
  assert (Hloop : forall u, wp (forever turns (outbox_pass connectors registries claimer_id connector claimer
      max_attempts interval once (callback ticking)) u) (fun t _ => from_rest t)).
  { induction turns as [|turns IH]; intros u; cbn [forever]; [closed_step|].
    apply wp_bind_closed; [apply _|apply outbox_pass_follows|].
    intros [u'|[]]; [apply IH|closed_step]. }
  unfold run_outbox_dispatcher, with_client, finally_.
  repeat first [apply Hloop | closed_step | by apply idle_rests]. apply closed_nil.
Qed.
End refinement.

Section theorems.
Context `{PyText}.
Variable connectors : list (string * Conn).
Variable registries : Registries.
Variable max_attempts : Z.
Variable claimer_id : string.

(** C2: Refinement: every trace of the dispatcher process, whatever the server, the
    connectors, the user's functions and the clock answer, is one the protocol
    allows, at every point of it, and ends where the protocol lets a dispatcher rest:
    never between a call of the connector and the record its answer requires. *)
Theorem outbox_refines_protocol turns url connector claimer interval once (ticking : bool) t o :
  exec (run_outbox_dispatcher connectors registries claimer_id turns url connector claimer max_attempts interval
          once (if ticking then user_tick else None)) t o ->
  (exists ph, steps max_attempts Idle t = Some ph /\ at_rest max_attempts ph) /\
  (forall t1 t2, t = t1 ++ t2 -> is_Some (steps max_attempts Idle t1)).
Proof.
  intros He. assert (Hf := wp_exec _ _ _ _ (run_outbox_dispatcher_follows connectors registries
    max_attempts claimer_id turns url connector claimer interval once ticking) He).
  destruct (Hf Idle I) as (ph & Hs & Hr). split; [eauto|].
  intros t1 t2 ->. rewrite steps_app in Hs. by destruct (steps max_attempts Idle t1).
Qed.

(** Every process [p] of a global trace is a dispatcher, stopped at some point. *)
Definition dispatchers (connector url : string) (claimer : nat -> string) (interval : Q)
    (G : list (nat * event answer)) : Prop :=
  forall p, exists turns once (ticking : bool) tail o,
    exec (run_outbox_dispatcher connectors registries claimer_id turns url connector (claimer p) max_attempts
            interval once (if ticking then user_tick else None)) (local p G ++ tail) o.
Lemma dispatchers_follow connector url claimer interval G :
  dispatchers connector url claimer interval G -> forall p, is_Some (steps max_attempts Idle (local p G)).
Proof.
  intros Hd p. destruct (Hd p) as (turns & once & ticking & tail & o & He).
  destruct (wp_exec _ _ _ _ (run_outbox_dispatcher_follows connectors registries max_attempts claimer_id
    turns url connector (claimer p) interval once ticking) He Idle I) as (ph & Hs & _).
  rewrite steps_app in Hs. by destruct (steps max_attempts Idle (local p G)).
Qed.

(** A call of a non-idempotent connector that did not end in a definite failure with
    attempts left: confirmed, ambiguous, raised, or given up. *)
Definition failed_definitely (x : PbEffect.t * result SDispatch.t) : Prop :=
  exists res, x.2 = Ok res /\ res.(SDispatch.status) <> "confirmed" /\
    res.(SDispatch.status) <> "unknown" /\ (x.1.(PbEffect.dispatch_attempts) + 1 < max_attempts)%Z.
Definition may_have_landed (x : PbEffect.t * result SDispatch.t) : Prop :=
  x.1.(PbEffect.semantics) = EFFECT_SEMANTICS_NON_IDEMPOTENT /\ ~ failed_definitely x.
#[export] Instance failed_definitely_dec x : Decision (failed_definitely x).
Proof.
  destruct x as [cur [res|e]]; [|right; by intros (? & ? & _)].
  destruct (decide (SDispatch.status res <> "confirmed" /\ SDispatch.status res <> "unknown" /\
    (cur.(PbEffect.dispatch_attempts) + 1 < max_attempts)%Z)) as [H0|H0].
  - left. by exists res.
  - right. intros (res' & [= <-] & H1). by apply H0.
Defined.
#[export] Instance may_have_landed_dec x : Decision (may_have_landed x).
Proof. unfold may_have_landed. apply _. Defined.

Lemma may_have_landed_unsettled xs : length (filter may_have_landed xs) <= unsettled max_attempts xs.
Proof.
  unfold unsettled. induction xs as [|x xs IH]; [done|]. rewrite !filter_cons.
  destruct (decide (may_have_landed x)) as [[Hs Hf]|]; [|case_decide; cbn; lia].
  rewrite decide_True; [cbn; lia|]. intros Hd. apply Hf. unfold definite, verdict_of in Hd.
  destruct x as [cur [res|e]]; cbn in *; [|by rewrite decide_True in Hd].
  repeat case_decide; try done. exists res. split_and!; [done..|cbn; lia].
Qed.

(** C3: Any number of dispatcher processes, each stopped at any point, on one server whose
    leases run out: [n] counts the leases of the effect granted over one that had run out
    before its holder recorded an outcome.  Nothing but the dispatchers settles the effect.
    Then, before every call of the connector for a non-idempotent effect, at most [n] calls
    were made that did not definitely fail, with attempts left.  While no lease runs out
    there is no further call after a confirmation, an ambiguous answer or an exception; one
    that runs out allows one. *)
Theorem no_second_call_unless_failed id_run id_key connector url claimer interval G n s xs y ys :
  serves id_run id_key Free G.*2 n s ->
  dispatchers connector url claimer interval G ->
  calls id_run id_key G = xs ++ y :: ys ->
  length (filter may_have_landed xs) <= n.
Proof.
  intros Hs Hp Hc. etransitivity; [apply may_have_landed_unsettled|].
  eapply (interleaving_calls max_attempts id_run id_key G n s); [done| |done].
  by eapply dispatchers_follow.
Qed.

(** What every report names. *)
Definition identifies (e : PbEffect.t) (out : pydict) : Prop :=
  dict_get "run_id" out = Some (JStr e.(PbEffect.run_id)) /\
  dict_get "idempotency_key" out = Some (JStr e.(PbEffect.idempotency_key)).
Definition reports (e : PbEffect.t) (out : pydict) : Prop :=
  identifies e out /\ is_Some (dict_get "status" out).
Definition reported (e : PbEffect.t) (o : result pydict) : Prop :=
  match o with Ok out => reports e out | Err _ => True end.

Lemma identifies_set e out k v :
  identifies e out -> k <> "run_id" -> k <> "idempotency_key" -> identifies e (dict_set k v out).
Proof. intros [H1 H2] Hk1 Hk2. split; by rewrite dict_get_set_ne. Qed.
Lemma reports_status e out v : identifies e out -> reports e (dict_set "status" v out).
Proof. intros Hi. split; [by apply identifies_set|]. rewrite dict_get_set_eq. eauto. Qed.
Lemma reports_set e out k v :
  reports e out -> k <> "run_id" -> k <> "idempotency_key" -> reports e (dict_set k v out).
Proof.
  intros [Hi Hs] Hk1 Hk2. split; [by apply identifies_set|].
  destruct (decide (k = "status")) as [->|Hne]; [rewrite dict_get_set_eq; eauto|].
  by rewrite dict_get_set_ne.
Qed.

Lemma settle_attempt_reports e cur out r :
  identifies e out ->
  wp (settle_attempt registries max_attempts cur out r) (fun _ o => reported e o).
Proof.
  intros Hi.
  assert (Hs : forall v, reports e (dict_set "status" v out)) by (intros; by apply reports_status).
  assert (Hset : forall k v out, reports e out -> k <> "run_id" -> k <> "idempotency_key" ->
    reports e (dict_set k v out)) by (intros; by apply reports_set).
  assert (Hfin : forall out', reports e out' -> reported e (Ok out')) by done.
  unfold settle_attempt. destruct r as [res|ex].
  - case_decide; [|case_decide].
    + intros [u|ex]; [|exact I]. simpl. apply wp_bind, wp_any. intros t [u'|ex]; [|exact I].
      apply wp_ret, Hfin. by repeat first [apply Hs|apply Hset].
    + intros [u|ex]; [|exact I]. apply Hs.
    + unfold settle_failed. case_decide;
        [intros [u|ex]; [|exact I]; apply wp_ret, Hfin; by repeat first [apply Hs|apply Hset]|].
      case_decide; simpl;
        [|intros [u|ex]; [|exact I]; apply wp_ret, Hfin; by repeat first [apply Hs|apply Hset]].
      intros [now|ex]; [|exact I]. simpl. destruct (outbox_backoff_ms _); [|exact I].
      simpl. intros [u|ex]; [|exact I]. apply wp_ret, Hfin. by repeat first [apply Hs|apply Hset].
  - unfold dispatch_raised. case_decide.
    + intros [u|ex']; [|exact I]. apply wp_ret, Hfin. by repeat first [apply Hs|apply Hset].
    + intros [now|ex']; [|exact I]. simpl. destruct (outbox_backoff_ms _); [|exact I].
      simpl. intros [u|ex']; [|exact I]. apply wp_ret, Hfin. by repeat first [apply Hs|apply Hset].
Qed.

Lemma dispatch_one_reports claimer e :
  wp (dispatch_one connectors registries claimer max_attempts e) (fun _ o => reported e o).
Proof.
  assert (Hskip : forall reason, reports e (skipped reason (effect_summary e))) by (by repeat split).
  unfold dispatch_one. destruct (dict_get _ connectors); [|apply Hskip].
  intros [[[|] cur]|ex]; simpl; [|apply Hskip|exact I].
  case_decide; [apply Hskip|]. intros [res|ex].
  - by apply (settle_attempt_reports e cur (effect_summary e) (Ok res)).
  - by apply (settle_attempt_reports e cur (effect_summary e) (Err ex)).
Qed.

(** The effects a pass was given to dispatch. *)
Definition listed (t : list (event answer)) : option (list PbEffect.t) :=
  match t with
  | Ev c r :: _ =>
    match c return result (answer c) -> option (list PbEffect.t) with
    | ListEffectsToDispatch _ _ _ => fun r => match r with Ok es => Some es | Err _ => None end
    | _ => fun _ => None
    end r
  | [] => None
  end.

(** A pass that could list the queue returns, and reports every listed effect once, in
    order, by run, key and a status; an exception of one effect is its report and stops
    no other. *)
Theorem pass_reports_every_effect connector limit claimer es t o :
  exec (outbox_dispatch_once connectors registries connector limit claimer max_attempts) t o ->
  listed t = Some es -> exists outs, o = Ok outs /\ Forall2 reports es outs.
Proof.
  intros He Hl. refine (wp_exec _ (fun t o => forall es, listed t = Some es ->
    exists outs, o = Ok outs /\ Forall2 reports es outs) t o _ He es Hl). clear.
  intros [es|e]; [|done]. simpl. eapply wp_mono; [|apply (wp_each_total es _ reports)].
  - intros t o (outs & -> & Hf) es' [= <-]. eauto.
  - intros e _. apply wp_try. eapply wp_mono, dispatch_one_reports.
    intros t [out|ex] Hr; [by exists out|]. apply wp_ret. eexists. split; [done|]. by repeat split.
Qed.
(** A confirmed dispatch completes the effect with the connector's response and, when
    the tool declared a compensation, then registers it under the declared kind, address
    and attempts; whether that registration succeeds is not looked at. *)
Theorem confirmed_registers_inverse cur res out spec t o :
  registries.(tool_compensators) !! cur.(PbEffect.tool_name) = Some spec ->
  res.(SDispatch.status) = "confirmed" ->
  exec (settle_attempt registries max_attempts cur out (Ok res)) t o ->
  let complete := CompleteEffect cur.(PbEffect.run_id) cur.(PbEffect.idempotency_key)
    EFFECT_STATUS_CONFIRMED (dumps (JObj (confirmed_payload res))) "" in
  (is_ok o = false /\ map ev_call t = [complete]) \/
  (is_ok o = true /\ exists pre payload,
    map ev_call t = complete :: pre ++
      [RegisterCompensation cur.(PbEffect.run_id) cur.(PbEffect.idempotency_key)
         spec.(tc_kind) (dumps payload) spec.(tc_ref) spec.(tc_max_attempts)] /\
    (spec.(tc_payload) = None -> pre = [] /\ payload = JObj (confirmed_payload res))).
Proof.
  intros Hspec Hst He complete. revert t o He. apply (forall_exec _ (fun t o => _ \/ _)).
  unfold settle_attempt. rewrite decide_True by done. unfold settle_confirmed.
  intros [u|e]; simpl; [|by left].
  apply wp_bind. unfold register_inverse, get_tool_compensator. rewrite Hspec.
  unfold compensation_body. destruct (tc_payload spec) as [fn|]; simpl.
  - intros [v|e]; simpl; intros [u'|e']; simpl; right; (split; [done|]);
      eexists [_], _; split; try reflexivity; done.
  - intros [u'|e']; simpl; right; (split; [done|]); exists [], (JObj (confirmed_payload res)); by split.
Qed.

(** The delay before a retry doubles with each attempt from one second and never exceeds
    a minute, until the 1025th attempt, where the float power overflows. *)
Theorem outbox_backoff_bounded attempt :
  match outbox_backoff_ms attempt with
  | Ok ms => (1000 <= ms <= 60000)%Z /\ (attempt <= 1024)%Z /\
      (1 <= attempt -> outbox_backoff_ms (attempt + 1) = Ok (Z.min (2 * ms) 60000) \/ attempt = 1024)%Z
  | Err e => e = OverflowError /\ (1025 <= attempt)%Z
  end.
Proof.
  unfold outbox_backoff_ms. case_decide as Hn; [split; [done|lia]|].
  assert (0 < 2 ^ Z.max (attempt - 1) 0)%Z by (apply Z.pow_pos_nonneg; lia).
  split_and!; [lia|lia|lia|]. intros Ha. destruct (decide (attempt = 1024)%Z) as [->|Hne]; [by right|].
  left. rewrite decide_False by lia. f_equal.
  replace (Z.max (attempt + 1 - 1) 0)%Z with (Z.succ (Z.max (attempt - 1) 0)) by lia.
  rewrite Z.pow_succ_r by lia. lia.
Qed.
End theorems.

(** ** Witnesses *)

(** A dispatcher process that makes [turns] passes *)
Definition sample_run (turns : nat) : P (option unit) :=
  @run_outbox_dispatcher sample_text sample_connectors sample_registries "host-1" turns "" "" "me" 5 1%Q
    false user_tick.

Lemma outbox_refines_protocol_witness :
  exists t o ph, exec (sample_run 2) t o /\ steps 5 Idle t = Some ph.
Proof.
  destruct (@outbox_refines_protocol sample_text sample_connectors sample_registries 5 "host-1" 2 "" "" "me" 1%Q
    false true (trace (sample_world landed) (sample_run 2) tt) _ (run_exec (sample_world landed) (sample_run 2) tt))
    as [(ph & Hs & _) _].
  exists (trace (sample_world landed) (sample_run 2) tt), (run (sample_world landed) (sample_run 2) tt).1, ph.
  split; [apply run_exec|exact Hs].
Defined.

(** Two processes: the first is stopped after its call of the connector, which landed,
    before the record; its lease runs out, and the second makes the second call. *)
Definition sample_interleaving : list (nat * event answer) :=
  map (pair 0) (take 4 (trace (sample_world landed) (sample_run 1) tt)) ++
  map (pair 1) (trace (sample_world landed) (sample_run 1) tt).

Ltac serve_as s k := apply (serves_cons _ _ _ _ k s); [vm_compute; naive_solver|].
Lemma sample_interleaving_served :
  serves "run-1" "run-1/fc-1" Free sample_interleaving.*2 1 Settled.
Proof.
  set (t := sample_interleaving.*2). vm_compute in t. subst t.
  serve_as Free 0. serve_as Free 0. serve_as Leased 0. serve_as Leased 0.
  serve_as Leased 0. serve_as Leased 0. serve_as Leased 1. serve_as Leased 0.
  serve_as Settled 0. serve_as Settled 0. serve_as Settled 0. serve_as Settled 0. serve_as Settled 0.
  constructor.
Qed.

Lemma sample_interleaving_processes :
  @dispatchers sample_text sample_connectors sample_registries 5 "host-1" "" "" (fun _ => "me") 1%Q sample_interleaving.
Proof.
  intros [|[|p]].
  - exists 1, false, true, (drop 4 (trace (sample_world landed) (sample_run 1) tt)),
      (run (sample_world landed) (sample_run 1) tt).1.
    apply (run_exec (sample_world landed) (sample_run 1) tt).
  - exists 1, false, true, [], (run (sample_world landed) (sample_run 1) tt).1.
    apply (run_exec (sample_world landed) (sample_run 1) tt).
  - exists 0, false, true, (trace (sample_world landed) (sample_run 0) tt),
      (run (sample_world landed) (sample_run 0) tt).1.
    apply (run_exec (sample_world landed) (sample_run 0) tt).
Qed.

(** One lease ran out, so one call that may have landed came before the second. *)
Lemma no_second_call_unless_failed_witness :
  length (filter (may_have_landed 5) [(sample_effect, Ok landed)]) <= 1.
Proof.
  refine (@no_second_call_unless_failed sample_text sample_connectors sample_registries 5 "host-1"
    "run-1" "run-1/fc-1" "" "" (fun _ => "me") 1%Q sample_interleaving 1 Settled
    [(sample_effect, Ok landed)] (sample_effect, Ok landed) [] sample_interleaving_served
    sample_interleaving_processes _).
  vm_compute. reflexivity.
Defined.

Lemma pass_reports_every_effect_witness :
  exists outs, (run (sample_world landed) (@outbox_dispatch_once sample_text sample_connectors
    sample_registries "" 200 "me" 5) tt).1 = Ok outs /\ Forall2 reports [sample_effect] outs.
Proof.
  refine (@pass_reports_every_effect sample_text sample_connectors sample_registries 5 "" 200 "me"
    [sample_effect] _ _ (run_exec (sample_world landed) _ tt) _).
  vm_compute. reflexivity.
Defined.

Definition sample_settle : P pydict :=
  @settle_attempt sample_text sample_registries 5 sample_effect [] (Ok landed).
Lemma confirmed_registers_inverse_witness :
  let o := (run (sample_world landed) sample_settle tt).1 in
  let t := trace (sample_world landed) sample_settle tt in
  let complete := CompleteEffect "run-1" "run-1/fc-1" EFFECT_STATUS_CONFIRMED "{}" "" in
  (is_ok o = false /\ map ev_call t = [complete]) \/
  (is_ok o = true /\ exists pre payload,
    map ev_call t = complete :: pre ++
      [RegisterCompensation "run-1" "run-1/fc-1" "reverse_wire" "{}" "treasury:reverse_wire" 5] /\
    (None = @None Callable -> pre = [] /\ payload = JObj (confirmed_payload landed))).
Proof.
  refine (@confirmed_registers_inverse sample_text sample_registries 5 sample_effect landed []
    (mkToolCompensator "reverse_wire" reverse_fn "treasury:reverse_wire" 5 None)
    _ _ _ eq_refl (run_exec (sample_world landed) _ tt)).
  vm_compute. reflexivity.
Defined.
