(* ===== verification/Recover.v ===== *)
(** * Recover: the recovery loop and the compensation drain, [tape/_recover.py]

    Re-driving recoverable runs, draining one obligation (claim, run the inverse, record
    the outcome), and draining one run to its final status. *)
From Stdlib Require Import Ascii QArith.
From S2P Require Import Prelude Scenarios Contracts Client.
#[local] Open Scope Z_scope.
#[local] Open Scope nat_scope.

(** ** Resolving the inverse *)

(** [s.split(c)] *)
Fixpoint split_on (c : ascii) (s : string) : list string :=
  match s with
  | EmptyString => [EmptyString]
  | String c' s' =>
    if decide (c' = c) then EmptyString :: split_on c s'
    else match split_on c s' with
         | [] => [String c' EmptyString]
         | w :: ws => String c' w :: ws
         end
  end.

(** [obj = getattr(obj, part, None)] along the path *)
Fixpoint walk (parts : list string) (obj : pyobj) : option pyobj :=
  match parts with
  | [] => Some obj
  | part :: parts => let 'PyObj _ attrs := obj in
    match dict_get part attrs with Some o => walk parts o | None => None end
  end.

Definition as_callable (obj : pyobj) : option Callable := let 'PyObj fn _ := obj in fn.

Section recover.
Context `{PyText}.
Variable registries : Registries.

Definition get_compensator (kind : string) : option Callable := registries.(compensators) !! kind.

(** [_resolve_compensator]: the registry by kind, else the address. *)
Definition resolve_compensator (ob : PbObligation.t) : P (option Callable) :=
  match get_compensator ob.(PbObligation.kind) with
  | Some fn => mret (Some fn)
  | None =>
    let ref := ob.(PbObligation.compensator_ref) in
    if negb (has_char ":"%char ref) then mret None
    else
      m ← try_ (m ← (invoke (ImportModule (before_char ":"%char ref)) : P pyobj); mret (Some m))
               (fun _ => mret None);
      mret (m ← m; obj ← walk (split_on "."%char (after_char ":"%char ref)) m; as_callable obj)
  end.

(** [_backoff_ms] *)
Definition drain_backoff_ms (attempts : Z) : Z :=
  Z.min (1000 * Z.shiftl 1 (Z.max 0 (attempts - 1))) 300000.

(** ** Draining one obligation *)

(** The dicts [compensate_one] returns, one constructor per [return]. *)
Inductive drain_outcome :=
  | ClaimLost (current_status : Z)
  | NoCompensator (kind : string) (attempts : Z)
  | Compensated (kind : string) (value : pyval)
  | Attempted (stuck : bool) (kind : string) (attempts : Z) (error : string) (next_at : Z).

Definition outcome_name (o : drain_outcome) : string :=
  match o with
  | ClaimLost _ => "skipped"
  | NoCompensator _ _ | Attempted true _ _ _ _ => "stuck"
  | Compensated _ _ => "compensated"
  | Attempted false _ _ _ _ => "scheduled"
  end.
Definition outcome_kind (o : drain_outcome) : string :=
  match o with
  | ClaimLost _ => ""
  | NoCompensator k _ | Compensated k _ | Attempted _ k _ _ _ => k
  end.

(** [json.dumps(result if .. else str(result))]: a foreign object is rendered, one inside
    a list or dict is not. *)
Definition serialised (v : pyval) : result json :=
  match v with VObject s => Ok (JStr s) | v => to_json_strict v end.

Definition no_compensator_text (ob : PbObligation.t) : string :=
  "no compensator registered for kind=" +:+ repr_str ob.(PbObligation.kind) +:+
  " (compensator_ref=" +:+ repr_str ob.(PbObligation.compensator_ref) +:+ ")".

(** [fn is None]: the obligation is terminal. *)
Definition mark_stuck (ob : PbObligation.t) : P drain_outcome :=
  _ ← rpc_resolve_obligation ob.(PbObligation.run_id) ob.(PbObligation.seq)
        OBLIGATION_STATUS_STUCK (dumps (JObj [("error", JStr (no_compensator_text ob))]));
  mret (NoCompensator ob.(PbObligation.kind) ob.(PbObligation.attempts)).

(** The inverse raised: the attempt is reported, terminally or with a next time. *)
Definition report_failure (ob : PbObligation.t) (ex : exn) : P drain_outcome :=
  let next_attempts := (ob.(PbObligation.attempts) + 1)%Z in
  next_at ← (if decide (Z.max 1 ob.(PbObligation.max_attempts) <= next_attempts)%Z then mret 0%Z
             else now ← now_ms; mret (now + drain_backoff_ms next_attempts)%Z);
  updated ← rpc_record_obligation_attempt ob.(PbObligation.run_id) ob.(PbObligation.seq)
              (str_exn ex) next_at;
  mret (Attempted (bool_decide (updated.(PbObligation.status) = OBLIGATION_STATUS_STUCK))
          ob.(PbObligation.kind) updated.(PbObligation.attempts) (str_exn ex)
          updated.(PbObligation.next_attempt_at_ms)).

(** The inverse returned: its value is written down, if it can be. *)
Definition report_success (ob : PbObligation.t) (v : pyval) : P drain_outcome :=
  doc ← lift (serialised v);
  _ ← rpc_resolve_obligation ob.(PbObligation.run_id) ob.(PbObligation.seq)
        OBLIGATION_STATUS_COMPENSATED (dumps doc);
  mret (Compensated ob.(PbObligation.kind) v).

Definition run_inverse (ob : PbObligation.t) (fn : Callable) : P drain_outcome :=
  let payload := loads_or_empty ob.(PbObligation.payload_json) in
  r ← try_ (v ← (invoke (Inverse fn payload) : P pyval); mret (Ok v)) (fun ex => mret (Err ex));
  match r with
  | Err ex => report_failure ob ex
  | Ok v => report_success ob v
  end.

Definition compensate_one (claimer : string) (ob : PbObligation.t) : P drain_outcome :=
  cl ← rpc_claim_obligation ob.(PbObligation.run_id) ob.(PbObligation.seq) claimer 60000;
  if negb cl.1 then mret (ClaimLost cl.2.(PbObligation.status))
  else
    fn ← resolve_compensator cl.2;
    match fn with
    | None => mark_stuck cl.2
    | Some fn => run_inverse cl.2 fn
    end.

(** ** Draining one run *)

Record Drained := mkDrained { compensated : list string; stuck : list string; scheduled : list string }.
Definition nothing_drained : Drained := mkDrained [] [] [].

Definition tally (o : drain_outcome) (d : Drained) : Drained :=
  let k := outcome_kind o in
  if decide (outcome_name o = "compensated") then
    mkDrained (d.(compensated) ++ [k]) d.(stuck) d.(scheduled)
  else if decide (outcome_name o = "stuck") then
    mkDrained d.(compensated) (d.(stuck) ++ [k]) d.(scheduled)
  else if decide (outcome_name o = "scheduled") then
    mkDrained d.(compensated) d.(stuck) (d.(scheduled) ++ [k])
  else d.

(** The list comprehension: PENDING and due; the clock is read per candidate. *)
Fixpoint due_obligations (obs : list PbObligation.t) : P (list PbObligation.t) :=
  match obs with
  | [] => mret []
  | ob :: obs =>
    if decide (ob.(PbObligation.status) = OBLIGATION_STATUS_PENDING) then
      now ← now_ms;
      rest ← due_obligations obs;
      mret (if decide (ob.(PbObligation.next_attempt_at_ms) <= now)%Z then ob :: rest else rest)
    else due_obligations obs
  end.

Definition drain_pass (claimer : string) (obs : list PbObligation.t) (d : Drained) : P Drained :=
  fold_each obs (fun ob d => o ← compensate_one claimer ob; mret (tally o d)) d.

(** [for _ in range(max(1, max_passes))], leaving when nothing is due. *)
Fixpoint drain_passes (passes : nat) (run_id claimer : string) (d : Drained) : P Drained :=
  match passes with
  | O => mret d
  | S passes =>
    obs ← rpc_list_obligations run_id;
    due ← due_obligations obs;
    if decide (due = []) then mret d
    else d ← drain_pass claimer due d; drain_passes passes run_id claimer d
  end.

Record RunReport := mkRunReport { drained : Drained; leftover : nat; final_status : Z }.

Definition final_run_status (d : Drained) (leftover : nat) : Z :=
  if decide (d.(stuck) <> []) then RUN_STATUS_STUCK
  else if decide (leftover <> 0) then RUN_STATUS_COMPENSATING
  else RUN_STATUS_FAILED.

Definition run_detail (d : Drained) (leftover : nat) : json :=
  JObj [("compensated", JList (map JStr d.(compensated))); ("stuck", JList (map JStr d.(stuck)));
        ("scheduled", JList (map JStr d.(scheduled))); ("leftover", JInt (Z.of_nat leftover))].

Definition compensate_run (run_id claimer : string) (max_passes : Z) : P RunReport :=
  _ ← end_run run_id RUN_STATUS_COMPENSATING "";
  d ← drain_passes (Z.to_nat (Z.max 1 max_passes)) run_id claimer nothing_drained;
  obs ← rpc_list_obligations run_id;
  let n := length (filter (fun ob => ob.(PbObligation.status) = OBLIGATION_STATUS_PENDING) obs) in
  _ ← end_run run_id (final_run_status d n) (dumps (run_detail d n));
  if decide (d.(stuck) <> []) then Throw (RuntimeError (MCompensationStuck run_id d.(stuck)))
  else mret (mkRunReport d n (final_run_status d n)).

(** ** Recovery *)

(** [redrive_fn] is preferred to [runner]. *)
Definition redrive (runner redrive_fn : bool) (run : PbRun.t) : P unit :=
  if redrive_fn then invoke (Redrive RedriveFn run)
  else if runner then invoke (Redrive Runner run)
  else Throw (ValueError MNoRedrivePath).

Definition resume (invocation_id user_id session_id : string) (runner redrive_fn : bool) : P unit :=
  redrive runner redrive_fn (PbRun.mk "" user_id session_id invocation_id 0 []).

Definition recover_once (runner redrive_fn : bool) (limit : Z) : P (list (string * string)) :=
  runs ← list_runs_to_recover limit;
  each runs (fun r => _ ← redrive runner redrive_fn r;
                      mret (r.(PbRun.run_id), r.(PbRun.invocation_id))).
End recover.
