(* ===== verification/RecoverTheorems.v ===== *)
(** * RecoverTheorems: the compensation drain and the recovery loop

    What draining one obligation calls and records for every behaviour of the server
    and of the inverse, the final status of a drained run, and how far a recovery pass
    gets. *)
From Stdlib Require Import Ascii QArith.
From S2P Require Import Prelude Scenarios ScenarioTheorems Contracts Client Recover SdkSamples.
#[local] Open Scope Z_scope.
#[local] Open Scope nat_scope.

(** ** What a trace holds *)

(** The obligation row a drain was granted by its first call. *)
Definition granted (t : list (event answer)) : option PbObligation.t :=
  match t with
  | Ev c r :: _ =>
    match c return result (answer c) -> option PbObligation.t with
    | ClaimObligation _ _ _ _ => fun r => match r with Ok (true, ob) => Some ob | _ => None end
    | _ => fun _ => None
    end r
  | [] => None
  end.

(** The inverses run, with their payload and answer. *)
Definition inverse_of (ev : event answer) : list (Callable * json * result pyval) :=
  let 'Ev c r := ev in
  match c return result (answer c) -> list (Callable * json * result pyval) with
  | Inverse fn p => fun r => [(fn, p, r)]
  | _ => fun _ => []
  end r.
Definition inverses (t : list (event answer)) := t ≫= inverse_of.

(** The obligation writes attempted, in order. *)
Definition record_of (ev : event answer) : list call :=
  match ev.(ev_call) with
  | RecordObligationAttempt _ _ _ _ | ResolveObligation _ _ _ _ => [ev.(ev_call)]
  | _ => []
  end.
Definition records (t : list (event answer)) := t ≫= record_of.

Section drain.
Context `{PyText}.
Variable registries : Registries.

Definition exhausted (ob : PbObligation.t) : Prop :=
  (Z.max 1 ob.(PbObligation.max_attempts) <= ob.(PbObligation.attempts) + 1)%Z.

(** What one drain writes, given the row it was granted. *)
Definition drain_writes (cur : PbObligation.t) (t : list (event answer)) (o : result drain_outcome)
    : Prop :=
  match inverses t with
  | [] => records t = [ResolveObligation cur.(PbObligation.run_id) cur.(PbObligation.seq)
                        OBLIGATION_STATUS_STUCK
                        (dumps (JObj [("error", JStr (no_compensator_text cur))]))]
  | [(fn, p, Ok v)] => p = loads_or_empty cur.(PbObligation.payload_json) /\
    match serialised v with
    | Ok doc => records t = [ResolveObligation cur.(PbObligation.run_id) cur.(PbObligation.seq)
                              OBLIGATION_STATUS_COMPENSATED (dumps doc)]
    | Err e => records t = [] /\ o = Err e
    end
  | [(fn, p, Err ex)] => p = loads_or_empty cur.(PbObligation.payload_json) /\
    ((records t = [] /\ is_ok o = false /\ ~ exhausted cur) \/
     exists next_at, records t = [RecordObligationAttempt cur.(PbObligation.run_id)
                                    cur.(PbObligation.seq) (str_exn ex) next_at] /\
       (exhausted cur -> next_at = 0%Z) /\
       (~ exhausted cur -> exists now,
          next_at = (now + drain_backoff_ms (cur.(PbObligation.attempts) + 1))%Z))
  | _ => False
  end.

Lemma run_inverse_writes cur fn :
  wp (run_inverse cur fn) (fun t o => forall pre, inverses pre = [] -> records pre = [] ->
    drain_writes cur (pre ++ t) o).
Proof.
  assert (Hinv : forall pre t, inverses pre = [] -> inverses (pre ++ t) = inverses t)
    by (intros pre t Hp; unfold inverses in *; by rewrite bind_app, Hp).
  assert (Hrec : forall pre t, records pre = [] -> records (pre ++ t) = records t)
    by (intros pre t Hp; unfold records in *; by rewrite bind_app, Hp).
  unfold run_inverse. intros [v|ex]; simpl.
  - unfold report_success. destruct (serialised v) as [doc|e] eqn:Hs; simpl.
    + intros [u|e] pre Hi Hr; unfold drain_writes; rewrite Hinv, Hrec by done; simpl; by rewrite Hs.
    + intros pre Hi Hr. unfold drain_writes. rewrite Hinv, Hrec by done. simpl. by rewrite Hs.
  - unfold report_failure. case_decide as Hex; simpl.
    + intros [u|e] pre Hi Hr; unfold drain_writes; rewrite Hinv, Hrec by done; simpl;
        (split; [done|right]); eexists; (split; [done|]);
        (split; [done|intros Hn; destruct (Hn Hex)]).
    + intros [now|e]; simpl.
      * intros [u|e] pre Hi Hr; unfold drain_writes; rewrite Hinv, Hrec by done; simpl;
          (split; [done|right]); eexists; (split; [done|]);
          (split; [intros Hn; destruct (Hex Hn)|eauto]).
      * intros pre Hi Hr; unfold drain_writes; rewrite Hinv, Hrec by done; simpl. auto.
Qed.

(** Draining one obligation: without a granted claim nothing runs and nothing is
    written; with one, the inverse runs at most once, on the payload of the granted row,
    and exactly its answer is written: compensated with the value, a failed attempt that
    is terminal exactly when the attempts are used up and otherwise has a back-off, stuck
    when no inverse can be found, and nothing when the value cannot be serialised. *)
Theorem drain_one_writes claimer ob t o :
  exec (compensate_one registries claimer ob) t o ->
  match granted t with
  | None => inverses t = [] /\ records t = []
  | Some cur => drain_writes cur t o
  end.
Proof.
  revert t o. apply forall_exec. unfold compensate_one, rpc_claim_obligation.
  intros [[[|] cur]|e]; [|by split..].
  change (wp (fn ← resolve_compensator registries cur;
              match fn with None => mark_stuck cur | Some fn => run_inverse cur fn end)
    (fun t o => drain_writes cur (Ev (ClaimObligation ob.(PbObligation.run_id) ob.(PbObligation.seq) claimer 60000)
       (Ok (true, cur)) :: t) o)).
  apply wp_bind.
  assert (Hnext : forall pre fn, inverses pre = [] -> records pre = [] ->
    wp (match fn with None => mark_stuck cur | Some fn => run_inverse cur fn end)
       (fun t o => drain_writes cur (pre ++ t) o)).
  { intros pre [fn|] Hi Hr.
    - eapply wp_mono, run_inverse_writes. simpl. auto.
    - unfold mark_stuck. intros [u|e]; simpl; unfold drain_writes, inverses, records in *;
        by rewrite !bind_app, Hi, Hr. }
  unfold resolve_compensator. destruct (get_compensator _ _) as [fn|]; [by apply (Hnext [_])|].
  case_match; [by apply (Hnext [_])|].
  intros [m|e].
  - by apply (Hnext [_; Ev (ImportModule _) (Ok m)] (obj ← walk (split_on "."%char
      (after_char ":"%char cur.(PbObligation.compensator_ref))) m; as_callable obj)).
  - by apply (Hnext [_; Ev (ImportModule _) (Err e)] None).
Qed.

(** The delay before a drained obligation is tried again doubles from one second up to
    five minutes. *)
Theorem drain_backoff_bounded n :
  (1 <= n)%Z -> (1000 <= drain_backoff_ms n <= 300000)%Z /\ drain_backoff_ms 1 = 1000%Z /\
  drain_backoff_ms (n + 1) = Z.min (2 * drain_backoff_ms n) 300000.
Proof.
  intros Hn. unfold drain_backoff_ms. rewrite !Z.shiftl_1_l.
  replace (Z.max 0 (n + 1 - 1)) with (Z.succ (Z.max 0 (n - 1))) by lia.
  rewrite Z.pow_succ_r by lia. assert (0 < 2 ^ Z.max 0 (n - 1))%Z by (apply Z.pow_pos_nonneg; lia).
  split_and!; [lia|lia|done|lia].
Qed.
End drain.

(** ** Draining a run *)

(** The answered call moved an obligation to STUCK. *)
Definition became_stuck (ev : event answer) : bool :=
  let 'Ev c r := ev in
  match c return result (answer c) -> bool with
  | RecordObligationAttempt _ _ _ _ => fun r =>
    match r with Ok ob => bool_decide (ob.(PbObligation.status) = OBLIGATION_STATUS_STUCK)
               | Err _ => false end
  | ResolveObligation _ _ status _ => fun r =>
    is_ok r && bool_decide (status = OBLIGATION_STATUS_STUCK)
  | _ => fun _ => false
  end r.
Definition any_stuck (t : list (event answer)) : bool := existsb became_stuck t.

Definition is_listing (ev : event answer) : bool :=
  match ev.(ev_call) with ListObligations _ _ _ => true | _ => false end.
Definition listings (t : list (event answer)) : nat := length (List.filter is_listing t).

Lemma any_stuck_app t t' : any_stuck (t ++ t') = any_stuck t || any_stuck t'.
Proof. apply existsb_app. Qed.
Lemma listings_app t t' : listings (t ++ t') = listings t + listings t'.
Proof. unfold listings. by rewrite List.filter_app, length_app. Qed.

Section run.
Context `{PyText}.
Variable registries : Registries.

Definition outcome_matches (t : list (event answer)) (o : result drain_outcome) : Prop :=
  listings t = 0 /\
  match o with Ok out => any_stuck t = bool_decide (outcome_name out = "stuck") | Err _ => True end.

Lemma compensate_one_stuck claimer ob :
  wp (compensate_one registries claimer ob) outcome_matches.
Proof.
  unfold compensate_one, rpc_claim_obligation. intros [[[|] cur]|e]; [|by split..].
  change (wp (fn ← resolve_compensator registries cur;
              match fn with None => mark_stuck cur | Some fn => run_inverse cur fn end)
    (fun t => outcome_matches (Ev (ClaimObligation ob.(PbObligation.run_id) ob.(PbObligation.seq) claimer 60000)
       (Ok (true, cur)) :: t))).
  apply wp_bind. unfold resolve_compensator.
  assert (Hnext : forall t fn, listings t = 0 -> any_stuck t = false ->
    wp (match fn with None => mark_stuck cur | Some fn => run_inverse cur fn end)
       (fun t' => outcome_matches (t ++ t'))).
  { intros t fn Hl Ht.
    assert (Hm : forall t' o, outcome_matches t' o -> outcome_matches (t ++ t') o).
    { intros t' o [H1 H2]. split; [rewrite listings_app; lia|].
      destruct o; [|done]. by rewrite any_stuck_app, Ht. }
    destruct fn as [fn|]; [|by intros [u|e]; apply Hm].
    eapply wp_mono; [exact Hm|]. unfold run_inverse. intros [v|ex]; simpl.
    - unfold report_success. destruct (serialised v); [|by split]. by intros [u|e].
    - unfold report_failure. case_decide; simpl.
      + intros [u|e]; split; try done. simpl. case_bool_decide; [done|]. by rewrite orb_false_r.
      + intros [now|e]; [|by split]. simpl. intros [u|e]; split; try done. simpl. by case_bool_decide. }
  destruct (get_compensator _ _) as [fn|]; [by apply (Hnext [_] (Some fn))|].
  case_match; [by apply (Hnext [_] None)|].
  intros [m|e].
  - by apply (Hnext [_; Ev (ImportModule _) (Ok m)] (obj ← walk (split_on "."%char
      (after_char ":"%char cur.(PbObligation.compensator_ref))) m; as_callable obj)).
  - by apply (Hnext [_; Ev (ImportModule _) (Err e)] None).
Qed.

(** Draining from [d] leaves a report that shows a stuck obligation exactly when [d]
    does or the trace made one. *)
Definition stuck_tracked (d : Drained) (n : nat) (t : list (event answer)) (o : result Drained) : Prop :=
  listings t <= n /\
  match o with
  | Ok d' => bool_decide (d'.(stuck) <> []) = bool_decide (d.(stuck) <> []) || any_stuck t
  | Err _ => True
  end.

Lemma tally_stuck out d :
  bool_decide ((tally out d).(stuck) <> []) =
  bool_decide (d.(stuck) <> []) || bool_decide (outcome_name out = "stuck").
Proof.
  assert (Happ : forall k, bool_decide (d.(stuck) ++ [k] <> []) = true)
    by (intros; apply bool_decide_true; by destruct (stuck d)).
  destruct out as [?|k ?|k ?|[|] k ? ? ?]; unfold tally; simpl;
    by rewrite ?Happ, ?orb_false_r, ?orb_true_r.
Qed.

Lemma drain_pass_stuck claimer obs d :
  wp (drain_pass registries claimer obs d) (stuck_tracked d 0).
Proof.
  unfold drain_pass. revert d. induction obs as [|ob obs IH]; intros d; cbn [fold_each].
  { split; [done|]. simpl. by rewrite orb_false_r. }
  apply wp_bind, wp_bind. eapply wp_mono, compensate_one_stuck.
  intros t [out|e] [Hl Ho]; [|split; [lia|done]]. apply wp_ret.
  eapply wp_mono, IH. intros t' o' [Hl' Ho']. rewrite app_nil_r. split; [rewrite listings_app; lia|].
  destruct o'; [|done]. by rewrite Ho', tally_stuck, any_stuck_app, Ho, orb_assoc.
Qed.

Lemma due_obligations_quiet obs :
  wp (due_obligations obs) (fun t _ => listings t = 0 /\ any_stuck t = false).
Proof.
  induction obs as [|ob obs IH]; simpl; [done|]. case_decide; [|done]. simpl.
  intros [now|e]; [|done]. simpl. apply wp_bind. eapply wp_mono, IH.
  intros t [due|e] [Hl Ht]; [|done]. apply wp_ret. by rewrite app_nil_r.
Qed.

Lemma drain_passes_stuck passes run_id claimer d :
  wp (drain_passes registries passes run_id claimer d) (stuck_tracked d passes).
Proof.
  revert d. induction passes as [|passes IH]; intros d; cbn [drain_passes].
  { apply wp_ret. split; [unfold listings; simpl; lia|]. simpl. by rewrite orb_false_r. }
  apply wp_bind, (wp_invoke (R:=answer) (ListObligations run_id true 0)).
  intros [obs|e]; [|split; [unfold listings; simpl; lia|done]].
  apply wp_bind. eapply wp_mono, due_obligations_quiet.
  intros t [due|e] [Hl Ht]; [|split; [simpl in *; unfold listings in *; simpl; lia|done]].
  case_decide.
  - apply wp_ret. rewrite app_nil_r. split; [unfold listings in *; simpl; lia|].
    simpl. by rewrite Ht, orb_false_r.
  - apply wp_bind. eapply wp_mono, drain_pass_stuck.
    intros t1 [d1|e] [Hl1 H1]; [|split; [rewrite !listings_app; unfold listings in *; simpl; lia|done]].
    eapply wp_mono, IH. intros t2 o2 [Hl2 H2].
    split; [rewrite !listings_app; unfold listings in *; simpl; lia|].
    destruct o2; [|done]. rewrite H2, H1, !any_stuck_app, Ht. simpl. by rewrite orb_assoc.
Qed.

(** Only [compensate_run] itself ends a run. *)
Definition not_end (ev : event answer) : Prop :=
  match ev.(ev_call) with EndRun _ _ _ => False | _ => True end.
Lemma drain_passes_no_end passes run_id claimer d :
  wp (drain_passes registries passes run_id claimer d) (fun t _ => Forall not_end t).
Proof.
  assert (Hone : forall ob, wp (compensate_one registries claimer ob) (fun t _ => Forall not_end t)).
  { intros ob. unfold compensate_one, resolve_compensator, mark_stuck, run_inverse, report_failure,
      report_success. autounfold with rpc.
    repeat (closed_step || (constructor; [exact I|constructor])). }
  assert (Hdue : forall obs, wp (due_obligations obs) (fun t _ => Forall not_end t)).
  { induction obs as [|ob obs IH]; cbn [due_obligations]; autounfold with rpc;
      repeat (exact IH || closed_step || (constructor; [exact I|constructor])). }
  revert d. induction passes as [|passes IH]; intros d; cbn [drain_passes]; unfold drain_pass;
    autounfold with rpc;
    repeat (apply IH || apply Hone || apply Hdue || closed_step || (constructor; [exact I|constructor])).
Qed.

(** The last call of a trace. *)
Definition last_call (t : list (event answer)) : option call := last (map ev_call t).


(** An obligation that is neither stuck nor leased to a drainer *)
Definition open_or_done (ob : PbObligation.t) : Prop :=
  ob.(PbObligation.status) = OBLIGATION_STATUS_PENDING \/ ob.(PbObligation.status) = OBLIGATION_STATUS_COMPENSATED.
Definition still_pending (obs : list PbObligation.t) : nat :=
  length (List.filter (fun ob => (ob.(PbObligation.status) =? OBLIGATION_STATUS_PENDING)%Z) obs).
Lemma still_pending_filter obs :
  length (filter (fun ob => ob.(PbObligation.status) = OBLIGATION_STATUS_PENDING) obs) = still_pending obs.
Proof.
  unfold still_pending. induction obs as [|ob obs IH]; [done|]. rewrite filter_cons. cbn [List.filter].
  case_decide as Hs; [rewrite (proj2 (Z.eqb_eq _ _) Hs); cbn; lia|]. by rewrite (proj2 (Z.eqb_neq _ _) Hs).
Qed.

(** The last listing and the last write of a run that is drained to its end *)
Definition last_two (t t' : list (event answer)) run_id obs status detail (r : result unit) : Prop :=
  t = t' ++ [Ev (ListObligations run_id true 0) (Ok obs); Ev (EndRun run_id status detail) r].
Definition listed_end (t : list (event answer)) : list (list PbObligation.t + Z * string * result unit) :=
  map (fun ev => let 'Ev c r := ev in
    match c return result (answer c) -> list PbObligation.t + Z * string * result unit with
    | ListObligations _ _ _ => fun r => inl (match r with Ok obs => obs | Err _ => [] end)
    | EndRun _ status detail => fun r => inr (status, detail, r)
    | _ => fun _ => inl []
    end r) t.
Lemma last_two_unique t t1 t2 run_id obs1 obs2 status1 status2 detail1 detail2 r1 r2 :
  last_two t t1 run_id obs1 status1 detail1 r1 -> last_two t t2 run_id obs2 status2 detail2 r2 ->
  t1 = t2 /\ obs1 = obs2 /\ status1 = status2 /\ detail1 = detail2 /\ r1 = r2.
Proof.
  unfold last_two. intros -> [Ht Hend]%app_inj_2; [|done]. split; [done|].
  apply (f_equal listed_end) in Hend. cbn in Hend. by simplify_eq.
Qed.

(** What a drain that listed [obs] last wrote and answered: the status of the run, the
    detail, and the report or the error. *)
Definition drained_ending run_id (t' : list (event answer)) (obs : list PbObligation.t) (status : Z)
    (detail : string) (r : result unit) (o : result RunReport) : Prop :=
  status = (if any_stuck t' then RUN_STATUS_STUCK
            else if decide (still_pending obs = 0) then RUN_STATUS_FAILED else RUN_STATUS_COMPENSATING) /\
  exists d,
    detail = dumps (JObj [("compensated", JList (map JStr d.(compensated))); ("stuck", JList (map JStr d.(stuck)));
      ("scheduled", JList (map JStr d.(scheduled))); ("leftover", JInt (Z.of_nat (still_pending obs)))]) /\
    o = match r with
        | Err e => Err e
        | Ok _ => if any_stuck t' then Err (RuntimeError (MCompensationStuck run_id d.(stuck)))
                  else Ok (mkRunReport d (still_pending obs) status)
        end.

(** C31: Draining a run ends: it lists the obligations at most once per pass, of which there
    are [max_passes] (at least one), and once at the end; it begins by setting the run to
    COMPENSATING.  Where the last listing shows nothing that was stuck before or is leased
    to another drainer, it sets the run to STUCK when an obligation became stuck on the way,
    and then raises; otherwise to COMPENSATING when that listing shows obligations that are
    still PENDING, and to FAILED when it shows none; it writes and reports their number.
    It returns only after those two calls. *)
Theorem compensate_run_ends run_id claimer max_passes t o :
  exec (compensate_run registries run_id claimer max_passes) t o ->
  listings t <= S (Z.to_nat (Z.max 1 max_passes)) /\
  ev_call <$> head t = Some (EndRun run_id RUN_STATUS_COMPENSATING "") /\
  (forall t' obs status detail r,
     last_two t t' run_id obs status detail r -> (any_stuck t' = false -> Forall open_or_done obs) ->
     drained_ending run_id t' obs status detail r o) /\
  (forall rep, o = Ok rep -> exists t' obs detail, last_two t t' run_id obs rep.(final_status) detail (Ok tt)).
Proof.
  revert t o. apply (forall_exec _ (fun t o => _ /\ _)). unfold compensate_run.
  apply wp_bind, (wp_invoke (R:=answer) (EndRun run_id RUN_STATUS_COMPENSATING "")).
  intros [u|e]; [|split_and!; [unfold listings; simpl; lia|done|by intros [|? [|? ?]]|done]].
  set (begun := Ev (EndRun run_id RUN_STATUS_COMPENSATING "") (Ok u)).
  apply wp_bind. eapply wp_mono;
    [|apply wp_and; [apply drain_passes_stuck|apply drain_passes_no_end]].
  intros t1 [d|e] [[Hl Hd] Hne]; cbn [app].
  2: { split_and!; [unfold listings in *; simpl; lia|done| |done].
       intros t' obs status detail r Ht _. exfalso. unfold last_two in Ht.
       destruct t' as [|ev t']; [by injection Ht|].
       injection Ht as _ ->. apply Forall_app in Hne as [_ Hne].
       apply Forall_cons in Hne as [_ Hne]. by apply Forall_cons in Hne as [[] _]. }
  apply wp_bind, (wp_invoke (R:=answer) (ListObligations run_id true 0)).
  intros [obs|e].
  2: { split_and!; [unfold listings in *; simpl; rewrite List.filter_app, length_app; simpl; lia|done| |done].
       intros t' obs status detail r Ht _. exfalso. unfold last_two in Ht.
       change [?a; ?b] with ([a] ++ [b]) in Ht.
       rewrite app_comm_cons, app_assoc in Ht. by apply app_inj_tail in Ht as [_ Ht]. }
  rewrite (bool_decide_false (stuck nothing_drained <> [])) in Hd by (intros Hx; by destruct Hx).
  cbn [orb] in Hd. rewrite still_pending_filter.
  set (status := final_run_status d _). set (detail := dumps (run_detail d _)).
  apply wp_bind, (wp_invoke (R:=answer) (EndRun run_id status detail)). intros r.
  assert (Hraise : any_stuck t1 = true <-> stuck d <> []) by (rewrite <- Hd; apply bool_decide_eq_true).
  assert (Hstatus : status = (if any_stuck t1 then RUN_STATUS_STUCK
    else if decide (still_pending obs = 0) then RUN_STATUS_FAILED else RUN_STATUS_COMPENSATING)).
  { rewrite <- Hd. unfold status, final_run_status. repeat case_decide; case_bool_decide; done. }
  set (begun_t := begun :: t1 ++ [Ev (ListObligations run_id true 0) (Ok obs)] ++ [Ev (EndRun run_id status detail) r]).
  assert (Hlast : last_two begun_t (begun :: t1) run_id obs status detail r) by done.
  assert (Hcount : listings begun_t <= S (Z.to_nat (Z.max 1 max_passes))).
  { unfold begun_t, listings in *. simpl. rewrite List.filter_app, length_app. simpl. lia. }
  assert (Hthird : forall o, o = match r with
      | Err e => Err e
      | Ok _ => if any_stuck t1 then Err (RuntimeError (MCompensationStuck run_id d.(stuck)))
                else Ok (mkRunReport d (still_pending obs) status)
      end -> forall t' obs' status' detail' r', last_two begun_t t' run_id obs' status' detail' r' ->
        (any_stuck t' = false -> Forall open_or_done obs') -> drained_ending run_id t' obs' status' detail' r' o).
  { intros o Ho t' obs' status' detail' r' Ht' _.
    destruct (last_two_unique _ _ _ _ _ _ _ _ _ _ _ _ Hlast Ht') as (<- & <- & <- & <- & <-).
    unfold drained_ending. change (any_stuck (begun :: t1)) with (any_stuck t1). split; [exact Hstatus|].
    exists d. split; [reflexivity|exact Ho]. }
  destruct r as [u'|e]; [|by split_and!; [..|apply Hthird|]].
  destruct (decide (stuck d <> [])) as [Hnil|Hnil].
  - apply Hraise in Hnil as Hs. split_and!; [done..|apply Hthird; by rewrite Hs|done].
  - apply wp_ret. assert (any_stuck t1 = false) as Hs by (apply not_true_iff_false; by rewrite Hraise).
    rewrite app_nil_r. split_and!; [done..|apply Hthird; by rewrite Hs|].
    intros rep [= <-]. destruct u'. eauto.
Qed.
End run.

(** ** Recovery *)

(** The runs a recovery pass was given, and the runs it re-invoked. *)
Definition listed_runs (t : list (event answer)) : option (list PbRun.t) :=
  match t with
  | Ev c r :: _ =>
    match c return result (answer c) -> option (list PbRun.t) with
    | ListRunsToRecover _ _ => fun r => match r with Ok rs => Some rs | Err _ => None end
    | _ => fun _ => None
    end r
  | [] => None
  end.
Definition redriven (t : list (event answer)) : list PbRun.t :=
  t ≫= (fun ev => match ev.(ev_call) with Redrive _ run => [run] | _ => [] end).

Lemma redriven_app t t' : redriven (t ++ t') = redriven t ++ redriven t'.
Proof. apply bind_app. Qed.

Definition recovered_upto (rs : list PbRun.t) (t : list (event answer))
    (o : result (list (string * string))) : Prop :=
  match o with
  | Ok out => redriven t = rs /\ out = map (fun r => (r.(PbRun.run_id), r.(PbRun.invocation_id))) rs
  | Err _ => exists pre r post, rs = pre ++ r :: post /\ (redriven t = pre ++ [r] \/ redriven t = pre)
  end.

Lemma recover_each runner redrive_fn rs :
  wp (each rs (fun r => _ ← redrive runner redrive_fn r;
                        mret (r.(PbRun.run_id), r.(PbRun.invocation_id)))) (recovered_upto rs).
Proof.
  induction rs as [|r rs IH]; cbn [each]; [by split|].
  assert (Hred : wp (redrive runner redrive_fn r) (fun t o =>
    match o with Ok _ => redriven t = [r] | Err _ => redriven t = [r] \/ redriven t = [] end)).
  { unfold redrive. destruct redrive_fn; [|destruct runner]; [intros [?|?]..|]; simpl; auto. }
  apply wp_bind, wp_bind. eapply wp_mono, Hred. intros t [u|e] Ht.
  - apply wp_ret. apply wp_bind. eapply wp_mono, IH. intros t' [out|e] Ho.
    + destruct Ho as [Ho ->]. apply wp_ret. rewrite !app_nil_r. split; [|done].
      by rewrite redriven_app, Ht, Ho.
    + destruct Ho as (pre & x & post & -> & Ho). exists (r :: pre), x, post. split; [done|].
      rewrite app_nil_r, redriven_app, Ht. destruct Ho as [->| ->]; auto.
  - exists [], r, rs. auto.
Qed.

(** A recovery pass re-drives the runs it is given in order, and reports each; when
    re-driving one raises, the runs after it are not re-driven in this pass. *)
Theorem recover_once_in_order runner redrive_fn limit rs t o :
  exec (recover_once runner redrive_fn limit) t o -> listed_runs t = Some rs ->
  recovered_upto rs t o.
Proof.
  intros He Hl. refine (wp_exec _ (fun t o => forall rs, listed_runs t = Some rs -> recovered_upto rs t o)
    t o _ He rs Hl). clear.
  intros [rs|e]; [|done]. eapply wp_mono; [|apply (recover_each runner redrive_fn rs)].
  intros t o Ho rs' [= <-]. exact Ho.
Qed.

(** ** Witnesses and concrete runs *)

Definition sample_obligation (status : Z) : PbObligation.t :=
  PbObligation.mk "run-1" 1 "reverse_wire" "" status 0 5 0 "" "run-1/fc-1" "" "".
(** A server with one obligation row, an inverse that answers [v]. *)
Definition drain_world (status : Z) (v : result pyval) (c : call) : M unit (answer c) := fun w =>
  (match c return result (answer c) with
   | ListObligations _ _ _ => Ok [sample_obligation status]
   | ClaimObligation _ _ _ _ => Ok (true, sample_obligation OBLIGATION_STATUS_COMMITTED)
   | Inverse _ _ => v
   | ResolveObligation _ _ _ _ | EndRun _ _ _ => Ok tt
   | RecordObligationAttempt _ _ _ _ => Ok (sample_obligation OBLIGATION_STATUS_PENDING)
   | ListRunsToRecover _ _ => Ok [PbRun.mk "run-1" "u" "s" "inv-1" 2 []]
   | Redrive _ _ => Ok tt
   | Time => Ok 1000%Q
   | _ => Err TypeError
   end, w).

Definition sample_drain : P drain_outcome :=
  @compensate_one sample_text sample_registries "me" (sample_obligation OBLIGATION_STATUS_PENDING).
Lemma drain_one_writes_witness :
  exists t o, @granted t = Some (sample_obligation OBLIGATION_STATUS_COMMITTED) /\
    @drain_writes sample_text (sample_obligation OBLIGATION_STATUS_COMMITTED) t o.
Proof.
  pose proof (@drain_one_writes sample_text sample_registries "me" (sample_obligation OBLIGATION_STATUS_PENDING)
    _ _ (run_exec (drain_world OBLIGATION_STATUS_PENDING (Ok (VStr "done"))) _ tt)) as Hd.
  eexists _, _. split; [|exact Hd]. vm_compute. reflexivity.
Defined.

Lemma drain_backoff_bounded_witness : (1000 <= drain_backoff_ms 7 <= 300000)%Z.
Proof. apply (drain_backoff_bounded 7). lia. Defined.

Definition sample_compensate : P RunReport :=
  @compensate_run sample_text sample_registries "run-1" "me" 2.
(** The obligation stays PENDING. *)
Lemma compensate_run_ends_witness :
  RUN_STATUS_COMPENSATING = RUN_STATUS_COMPENSATING /\ exists d,
    "{}" = "{}" /\
    (run (drain_world OBLIGATION_STATUS_PENDING (Ok (VStr "done"))) sample_compensate tt).1 =
      Ok (mkRunReport d 1 RUN_STATUS_COMPENSATING).
Proof.
  set (w := drain_world OBLIGATION_STATUS_PENDING (Ok (VStr "done"))).
  pose proof (proj1 (proj2 (proj2 (@compensate_run_ends sample_text sample_registries "run-1" "me" 2 _ _
    (run_exec w sample_compensate tt))))) as Hend.
  refine (Hend (take (length (trace w sample_compensate tt) - 2) (trace w sample_compensate tt))
    [sample_obligation OBLIGATION_STATUS_PENDING] RUN_STATUS_COMPENSATING "{}" (Ok tt) _ _).
  - vm_compute. reflexivity.
  - intros _. constructor; [by left|constructor].
Defined.

Lemma recover_once_in_order_witness :
  recovered_upto [PbRun.mk "run-1" "u" "s" "inv-1" 2 []]
    (trace (drain_world 1 (Ok VNone)) (recover_once true false 50) tt)
    (Ok [("run-1", "inv-1")]).
Proof.
  apply (recover_once_in_order true false 50); [|reflexivity].
  exact (run_exec (drain_world 1 (Ok VNone)) (recover_once true false 50) tt).
Defined.

(** An inverse that returns a dict holding a date has run, and nothing is written: the
    obligation stays leased and a later drain runs the inverse again. *)
Theorem dated_result_unrecorded :
  let w := drain_world OBLIGATION_STATUS_PENDING (Ok (VDict [("at", VObject "2024-01-01")])) in
  inverses (trace w sample_drain tt) =
    [(reverse_fn, JObj [], Ok (VDict [("at", VObject "2024-01-01")]))] /\
  records (trace w sample_drain tt) = [] /\ (run w sample_drain tt).1 = Err TypeError.
Proof. vm_compute. by repeat split. Qed.

(** A run whose only obligation another drainer is working on is set to FAILED, the
    status documented for a run all of whose obligations are compensated. *)
Theorem leased_obligation_ends_failed :
  let w := drain_world OBLIGATION_STATUS_COMMITTED (Ok VNone) in
  last_call (trace w sample_compensate tt) = Some (EndRun "run-1" RUN_STATUS_FAILED "{}").
Proof. vm_compute. reflexivity. Qed.
