(* ===== verification/SdkReactors.v ===== *)
(** * SdkReactors: the reactors of the gRPC tier, [tape/reactors/__init__.py]

    The reconciler, the timer reactor, the obligations reactor, the compactor, one tick
    of all of them, and the outbox relay with its durable cursor. *)
From Stdlib Require Import QArith.
From S2P Require Import Prelude Scenarios Contracts Client Recover.
#[local] Open Scope Z_scope.
#[local] Open Scope nat_scope.

Section reactors.
Context `{PyText}.
Variable connectors : list (string * Conn).
Variable registries : Registries.

Definition get_status_check (tool : string) : option Callable := registries.(status_checks) !! tool.

(** ** The reconciler *)

(** [_observe_via_connector]: an exception is the observation "stuck", without a
    reference or a response. *)
Definition observe_via_connector (eff : PbEffect.t) : P (option SObservation.t) :=
  if decide (eff.(PbEffect.connector) = "") then mret None
  else match dict_get eff.(PbEffect.connector) connectors with
    | None => mret None
    | Some c => try_ (obs ← (invoke (ConnObserve c eff) : P SObservation.t); mret (Some obs))
                     (fun _ => mret (Some (SObservation.mk "stuck" "" [])))
    end.

(** [_status_str_to_resolution] *)
Definition status_str_to_resolution (s : string) : Z :=
  if decide (s = "confirmed") then EFFECT_RESOLUTION_CONFIRMED
  else if decide (s = "absent") then EFFECT_RESOLUTION_ABSENT
  else if decide (s = "duplicate") then EFFECT_RESOLUTION_DUPLICATE
  else if decide (s = "failed") then EFFECT_RESOLUTION_FAILED
  else EFFECT_RESOLUTION_STUCK.

Definition compensation_kind (tool : string) : string :=
  match registries.(tool_compensators) !! tool with Some spec => spec.(tc_kind) | None => "" end.

(** The branch with an observation. *)
Definition record_observation (e : PbEffect.t) (obs : SObservation.t) : P pydict :=
  let status_str := str_or obs.(SObservation.status) "absent" in
  _ ← rpc_record_external_observation e.(PbEffect.run_id) e.(PbEffect.idempotency_key)
        (status_str_to_resolution status_str) obs.(SObservation.external_ref)
        (dumps (JObj obs.(SObservation.response))) ""
        (if decide (status_str = "duplicate") then compensation_kind e.(PbEffect.tool_name) else "");
  mret [("key", JStr e.(PbEffect.idempotency_key)); ("resolved", JStr ("observed-" +:+ status_str));
        ("external_ref", JStr obs.(SObservation.external_ref)); ("semantics", JInt e.(PbEffect.semantics))].

(** [res.get("found", True) if isinstance(res, dict) else bool(res)], as a truth value *)
Definition found (res : pyval) : bool :=
  match res with
  | VDict d => match dict_get "found" d with Some v => py_truthy v | None => true end
  | v => py_truthy v
  end.
(** [json.dumps(res, default=str) if isinstance(res, dict) else "{}"] *)
Definition dict_text (res : pyval) : string :=
  match res with VDict _ => dumps (to_json res) | _ => "{}" end.

(** The branch of the per-tool status check; [None] is a [continue] or no report. *)
Definition check_status (e : PbEffect.t) (check : Callable) : P (option pydict) :=
  let key := e.(PbEffect.idempotency_key) in
  let report r := [("key", JStr key); ("resolved", JStr r)] in
  res ← try_ (v ← (invoke (StatusCheck check key) : P pyval); mret (Ok v)) (fun ex => mret (Err ex));
  match res with
  | Err ex => mret (Some (report ("check-error: " +:+ str_exn ex)))
  | Ok res =>
    if found res then
      _ ← reconcile_effect e.(PbEffect.run_id) key EFFECT_STATUS_CONFIRMED (dict_text res) "";
      mret (Some (report "confirmed"))
    else if decide (e.(PbEffect.status) = EFFECT_STATUS_UNKNOWN) then
      if decide (e.(PbEffect.semantics) = EFFECT_SEMANTICS_NON_IDEMPOTENT) then
        mret (Some (report "left-unknown" ++ [("reason", JStr "non-idempotent + no observe()")]))
      else
        _ ← reconcile_effect e.(PbEffect.run_id) key EFFECT_STATUS_FAILED ""
              (dumps (JObj [("reconciled", JStr "absent at counterparty")]));
        mret (Some (report "failed"))
    else mret None
  end.

Definition reconcile_effect_once (e : PbEffect.t) : P (option pydict) :=
  obs ← observe_via_connector e;
  match obs with
  | Some obs => r ← record_observation e obs; mret (Some r)
  | None =>
    match get_status_check e.(PbEffect.tool_name) with
    | None => mret None
    | Some check => check_status e check
    end
  end.

(** What the loop appended. *)
Definition appended (out : list (option pydict)) : list pydict := omap id out.

Definition sdk_reconcile_once (reconcile_pending_after_ms : Z) : P (list pydict) :=
  let include_pending := bool_decide (0 < reconcile_pending_after_ms)%Z in
  older ← (if include_pending then now ← now_ms; mret (now - reconcile_pending_after_ms)%Z
           else mret 0%Z : P Z);
  effects ← rpc_list_pending_effects older include_pending 500;
  out ← each effects reconcile_effect_once;
  mret (appended out).

(** ** The timer reactor *)

(** [payload.get(key, default)] *)
Definition json_get (v : json) (key : string) (default_ : json) : result json :=
  match v with
  | JObj d => Ok (default default_ (dict_get key d))
  | _ => Err AttributeError
  end.
(** A value used where the RPC takes a string. *)
Definition as_string (v : json) : result string :=
  match v with JStr s => Ok s | _ => Err TypeError end.
(** [{**d, **v}] with [v or {}]: a value that is not a mapping raises. *)
Definition merge_json (d : pydict) (v : json) : result pydict :=
  match json_or v (JObj []) with JObj d' => Ok (merge d d') | _ => Err TypeError end.

Definition gate_timeout (t : PbTimer.t) (payload : json) : P string :=
  g ← lift (json_get payload "gate" (JStr ""));
  res ← lift (json_get payload "resolution" JNull);
  resolution ← lift (merge_json [("timed_out", JBool true)] res);
  gate ← lift (as_string g);
  _ ← send_signal t.(PbTimer.run_id) gate (dumps (JObj resolution));
  mret ("signalled " +:+ gate +:+ " (timeout)").

Definition timer_reconcile (t : PbTimer.t) (payload : json) : P string :=
  k ← lift (json_get payload "key" (JStr ""));
  key ← lift (as_string k);
  eff ← rpc_get_effect t.(PbTimer.run_id) key;
  match eff with
  | Some eff =>
    if decide (eff.(PbEffect.status) = EFFECT_STATUS_PENDING \/
               eff.(PbEffect.status) = EFFECT_STATUS_UNKNOWN) then
      match get_status_check eff.(PbEffect.tool_name) with
      | None => mret "ignored"
      | Some check =>
        res ← (invoke (StatusCheck check key) : P pyval);
        let yes := found res in
        _ ← reconcile_effect t.(PbTimer.run_id) key
              (if yes then EFFECT_STATUS_CONFIRMED else EFFECT_STATUS_FAILED)
              (if yes then dict_text res else "{}") "";
        mret ("reconciled " +:+ key +:+ " -> " +:+ (if yes then "confirmed" else "failed"))
      end
    else mret "ignored"
  | None => mret "ignored"
  end.

(** The body of the [try] for one timer. *)
Definition timer_action (runner redrive_fn on_timer : bool) (t : PbTimer.t) : P string :=
  let payload := loads_or_empty t.(PbTimer.payload_json) in
  if decide (t.(PbTimer.kind) = "gate_timeout") then gate_timeout t payload
  else if decide (t.(PbTimer.kind) = "redrive" /\ runner || redrive_fn = true) then
    run ← get_run t.(PbTimer.run_id);
    _ ← resume run.(PbRun.invocation_id) run.(PbRun.user_id) run.(PbRun.session_id) runner redrive_fn;
    mret "re-driven"
  else if decide (t.(PbTimer.kind) = "reconcile") then timer_reconcile t payload
  else if on_timer then
    _ ← (invoke (OnTimer t) : P unit);
    mret "delegated"
  else mret "ignored".

Definition sdk_fire_timer (runner redrive_fn on_timer : bool) (t : PbTimer.t) : P pydict :=
  action ← try_ (timer_action runner redrive_fn on_timer t)
                (fun ex => mret ("error: " +:+ str_exn ex));
  mret [("run_id", JStr t.(PbTimer.run_id)); ("timer_id", JStr t.(PbTimer.timer_id));
        ("kind", JStr t.(PbTimer.kind)); ("action", JStr action)].

Definition sdk_fire_due_timers_once (runner redrive_fn on_timer : bool) : P (list pydict) :=
  timers ← rpc_list_due_timers 500;
  each timers (sdk_fire_timer runner redrive_fn on_timer).

(** ** The obligations reactor *)

(** One row of the report: the obligation's run and number, and what became of it. *)
Definition drained_row : Type := string * Z * drain_outcome.

Definition compensate_once (claimer : string) (limit : Z) (include_committed_expired : bool)
    : P (list drained_row) :=
  rows ← rpc_list_unresolved_obligations limit include_committed_expired;
  each rows (fun ob => r ← compensate_one registries claimer ob;
                       mret (ob.(PbObligation.run_id), ob.(PbObligation.seq), r)).

(** ** The compactor *)

Definition compact_runs_once (before_ms limit : Z) : P (list (string * result CompactReport.t)) :=
  before ← (if decide (before_ms <= 0)%Z then now ← now_ms; mret (now - 86400000)%Z else mret before_ms : P Z);
  runs ← list_compactable_runs before limit;
  each runs (fun r =>
    rep ← try_ (rep ← compact_run r.(PbRun.run_id); mret (Ok rep)) (fun ex => mret (Err ex));
    mret (r.(PbRun.run_id), rep)).

(** ** One tick of [run_reactors] *)

(** A reactor of the tick: not run, its report, or the text of what it raised. *)
Inductive attempt (A : Type) := NotRun | Reported (a : A) | Failed (text : string).
Arguments NotRun {A}.
Arguments Reported {A} _.
Arguments Failed {A} _.
Definition attempt_of {A} (enabled : bool) (p : P A) : P (attempt A) :=
  if enabled then try_ (a ← p; mret (Reported a)) (fun ex => mret (Failed (str_exn ex)))
  else mret NotRun.

Record Options := mkOptions {
  opt_runner : bool; opt_redrive_fn : bool;
  opt_recover : bool; opt_reconcile : bool; opt_timers : bool; opt_compensations : bool;
  opt_compact : bool; opt_hot_window_s : Q; opt_compact_interval_s : Q;
  opt_pending_after_s : Q; opt_claimer : string
}.
Record TickReport := mkTickReport {
  recovered : attempt (list (string * string));
  reconciled : attempt (list pydict);
  timers_fired : attempt (list pydict);
  compensations : attempt (list drained_row);
  compactions : attempt (list (string * result CompactReport.t))
}.

(** The compactor's own cooldown: [_last_compact_at] moves when a pass is due. *)
Definition compact_tick (o : Options) (last_compact_at : Q)
    : P (attempt (list (string * result CompactReport.t)) * Q) :=
  if o.(opt_compact) then
    now ← time_time;
    if Qle_bool o.(opt_compact_interval_s) (now - last_compact_at) then
      r ← attempt_of true (compact_runs_once (py_int (now * 1000) - py_int (o.(opt_hot_window_s) * 1000)) 100);
      mret (r, now)
    else mret (NotRun, last_compact_at)
  else mret (NotRun, last_compact_at).

Definition reactors_tick (o : Options) (last_compact_at : Q) : P (TickReport * Q) :=
  a ← attempt_of (o.(opt_recover) && (o.(opt_runner) || o.(opt_redrive_fn)))
        (recover_once o.(opt_runner) o.(opt_redrive_fn) 50);
  b ← attempt_of o.(opt_reconcile) (sdk_reconcile_once (py_int (o.(opt_pending_after_s) * 1000)));
  c ← attempt_of o.(opt_timers) (sdk_fire_due_timers_once o.(opt_runner) o.(opt_redrive_fn) false);
  d ← attempt_of o.(opt_compensations) (compensate_once o.(opt_claimer) 200 true);
  e ← compact_tick o last_compact_at;
  mret (mkTickReport a b c d e.1, e.2).

(** ** The outbox relay *)

Fixpoint substring_of (sub s : string) : bool :=
  starts_with sub s ||
  match s with EmptyString => false | String _ s' => substring_of sub s' end.

(** [key in d] for a JSON document *)
Definition json_in (key : string) (d : json) : result bool :=
  match d with
  | JObj fields => Ok (bool_decide (is_Some (dict_get key fields)))
  | JList l => Ok (existsb (fun v => match v with JStr s => bool_decide (s = key) | _ => false end) l)
  | JStr s => Ok (substring_of key s)
  | _ => Err TypeError
  end.

Definition cursor_doc (last_global_seq : Z) : json := JObj [("last_global_seq", JInt last_global_seq)].

Definition write_cursor (path : string) (last_global_seq : Z) : P unit :=
  if decide (path = "") then mret tt else invoke (WriteFile path (cursor_doc last_global_seq)).

(** A document that is not the new format: legacy keys are migrated by a reset. *)
Definition migrate_cursor (path : string) (d : json) : P Z :=
  a ← lift (json_in "from_ts_ms" d); b ← lift (json_in "last_run_id" d); c ← lift (json_in "last_seq" d);
  if a || b || c then
    match d with
    | JObj _ => _ ← write_cursor path 0; mret 0%Z
    | _ => Throw AttributeError
    end
  else mret 0%Z.

(** The cursor a document holds. *)
Definition cursor_of (path : string) (d : json) : P Z :=
  new ← lift (json_in "last_global_seq" d);
  if (new : bool) then
    match d with
    | JObj fields =>
      match int_json (default (JInt 0) (dict_get "last_global_seq" fields)) with
      | Ok z => mret z | Err _ => mret 0%Z end
    | _ => mret 0%Z
    end
  else migrate_cursor path d.

Definition read_cursor (path : string) : P Z :=
  if decide (path = "") then mret 0%Z
  else
    d ← try_ (invoke (ReadFile path) : P (option json)) (fun _ => mret None);
    match d with None => mret 0%Z | Some d => cursor_of path d end.

(** [entry] passes the client-side filters. *)
Definition wanted (run_id kind : string) (e : PbEvent.t) : bool :=
  (bool_decide (run_id = "") || bool_decide (e.(PbEvent.run_id) = run_id)) &&
  (bool_decide (kind = "") || bool_decide (e.(PbEvent.kind) = kind)).

(** The loop over the stream: the cursor, the count, and what it raised. *)
Fixpoint relay_entries (run_id kind : string) (batch_limit : Z) (es : list PbEvent.t)
    (ending : option exn) (last_seq n : Z) : P (Z * Z * option exn) :=
  match es with
  | [] => mret (last_seq, n, ending)
  | e :: es =>
    if decide (e.(PbEvent.global_seq) <= last_seq)%Z then
      relay_entries run_id kind batch_limit es ending last_seq n
    else if negb (wanted run_id kind e) then
      relay_entries run_id kind batch_limit es ending last_seq n
    else
      r ← (try_ (_ ← (invoke (Publish e) : P unit); mret None) (fun ex => mret (Some ex)) : P (option exn));
      match r with
      | Some ex => mret (last_seq, n, Some ex)
      | None =>
        if decide (batch_limit <= n + 1)%Z then mret (e.(PbEvent.global_seq), (n + 1)%Z, None)
        else relay_entries run_id kind batch_limit es ending e.(PbEvent.global_seq) (n + 1)
      end
  end.

(** One pass from a cursor already read. *)
Definition relay_from (cursor_path run_id kind subject_pattern predicate_cel : string)
    (batch_limit last_seq : Z) : P Z :=
  s ← (invoke (SubscribeBySubject (str_or subject_pattern "/tape/**") predicate_cel last_seq)
        : P stream);
  r ← relay_entries run_id kind batch_limit s.1 s.2 last_seq 0;
  let '(last_seq', n, raised) := r in
  _ ← (match raised with
       | None => mret tt
       | Some e => if decide (e = RpcError "DEADLINE_EXCEEDED" \/ e = RpcError "CANCELLED")
                   then mret tt else Throw e
       end : P unit);
  _ ← (if decide (n = 0%Z) then mret tt else write_cursor cursor_path last_seq' : P unit);
  mret n.

Definition outbox_relay_tick (cursor_path run_id kind subject_pattern predicate_cel : string)
    (batch_limit : Z) : P Z :=
  last_seq ← read_cursor cursor_path;
  relay_from cursor_path run_id kind subject_pattern predicate_cel batch_limit last_seq.
End reactors.
Arguments NotRun {A}.
Arguments Reported {A} _.
Arguments Failed {A} _.
