(* ===== verification/SdkReactorTheorems.v ===== *)
(** * SdkReactorTheorems: the reactors of the gRPC tier

    What reconciling one effect writes for each observation and status check, that a
    timer pass reports every claimed timer, that a tick survives its reactors; and the
    outbox relay: a pass publishes a prefix of the wanted entries past its cursor and
    writes the cursor of the last one, so that passes leave no gap, and a written cursor
    is read back. *)
From Stdlib Require Import QArith Sorting.Sorted.
From S2P Require Import Prelude Scenarios ScenarioTheorems Contracts Client Recover SdkReactors SdkSamples.
#[local] Open Scope Z_scope.
#[local] Open Scope nat_scope.

(** The observation and the status check a trace holds, and its writes. *)
Definition observation_of (ev : event answer) : list (result SObservation.t) :=
  let 'Ev c r := ev in
  match c return result (answer c) -> list (result SObservation.t) with
  | ConnObserve _ _ => fun r => [r] | _ => fun _ => [] end r.
Definition observations (t : list (event answer)) := t ≫= observation_of.
Definition check_of (ev : event answer) : list (result pyval) :=
  let 'Ev c r := ev in
  match c return result (answer c) -> list (result pyval) with
  | StatusCheck _ _ => fun r => [r] | _ => fun _ => [] end r.
Definition checks (t : list (event answer)) := t ≫= check_of.
Definition resolution_of (ev : event answer) : list call :=
  match ev.(ev_call) with
  | RecordExternalObservation _ _ _ _ _ _ _ | ReconcileEffect _ _ _ _ _ => [ev.(ev_call)]
  | _ => []
  end.
Definition resolutions (t : list (event answer)) := t ≫= resolution_of.

(** The timers a pass claimed. *)
Definition claimed_timers (t : list (event answer)) : option (list PbTimer.t) :=
  match t with
  | Ev c r :: _ =>
    match c return result (answer c) -> option (list PbTimer.t) with
    | ListDueTimers _ _ _ => fun r => match r with Ok ts => Some ts | Err _ => None end
    | _ => fun _ => None
    end r
  | [] => None
  end.

Section reconcile.
Context `{PyText}.
Variable connectors : list (string * Conn).
Variable registries : Registries.

(** The write an observation is recorded with. *)
Definition observed_write (e : PbEffect.t) (status ref : string) (response : pydict) : call :=
  RecordExternalObservation e.(PbEffect.run_id) e.(PbEffect.idempotency_key)
    (status_str_to_resolution status) ref (dumps (JObj response)) ""
    (if decide (status = "duplicate") then compensation_kind registries e.(PbEffect.tool_name) else "").

(** What reconciling one effect does, from what it saw. *)
Definition reconciled_as (e : PbEffect.t) (t : list (event answer)) : Prop :=
  let key := e.(PbEffect.idempotency_key) in
  match observations t, checks t with
  | [Ok obs], [] => resolutions t =
      [observed_write e (str_or obs.(SObservation.status) "absent") obs.(SObservation.external_ref)
         obs.(SObservation.response)]
  | [Err _], [] => resolutions t = [observed_write e "stuck" "" []]
  | [], [Ok res] => resolutions t =
        (if found res then [ReconcileEffect e.(PbEffect.run_id) key EFFECT_STATUS_CONFIRMED (dict_text res) ""]
         else if decide (e.(PbEffect.status) = EFFECT_STATUS_UNKNOWN /\
                         e.(PbEffect.semantics) <> EFFECT_SEMANTICS_NON_IDEMPOTENT)
         then [ReconcileEffect e.(PbEffect.run_id) key EFFECT_STATUS_FAILED ""
                 (dumps (JObj [("reconciled", JStr "absent at counterparty")]))]
         else [])
  | [], [Err _] | [], [] => resolutions t = []
  | _, _ => False
  end.

(** The connector an effect is observed through. *)
Definition observer (e : PbEffect.t) : option Conn :=
  if decide (e.(PbEffect.connector) = "") then None else dict_get e.(PbEffect.connector) connectors.

(** Reconciling one effect: with a registered connector it is observed once and the
    observation, or "stuck" when observing raised, is recorded with the kind of the
    tool's compensation for a duplicate; without one the tool's status check decides,
    and an effect it did not find is marked FAILED only when it is UNKNOWN and not
    declared non-idempotent; with neither nothing is written. *)
Theorem reconcile_effect_decides e t o :
  exec (reconcile_effect_once connectors registries e) t o ->
  reconciled_as e t /\ (observations t = [] <-> observer e = None).
Proof.
  intros He. refine (wp_exec _ (fun t _ => reconciled_as e t /\ (observations t = [] <-> observer e = None))
    t o _ He). clear He t o.
  unfold reconcile_effect_once, observe_via_connector.
  assert (Hcheck : wp (match get_status_check registries e.(PbEffect.tool_name) with
                       | None => mret None | Some check => check_status e check end)
                      (fun t _ => reconciled_as e t /\ observations t = [])).
  { destruct (get_status_check _ _) as [check|]; [|by apply wp_ret].
    unfold check_status, reconciled_as. intros [res|ex]; [|done]. simpl.
    destruct (found res) eqn:Hf; [intros [u|ex]; by split|].
    case_decide as Hst; [case_decide as Hsem|].
    - simpl. rewrite decide_False by tauto. done.
    - intros [u|ex]; simpl; by rewrite decide_True.
    - simpl. rewrite decide_False by tauto. done. }
  assert (Hnone : observer e = None -> wp (match get_status_check registries e.(PbEffect.tool_name) with
                       | None => mret None | Some check => check_status e check end)
    (fun t _ => reconciled_as e t /\ (observations t = [] <-> observer e = None))).
  { intros Ho. eapply wp_mono, Hcheck. intros t o [H1 H2]. by rewrite Ho, H2. }
  unfold observer in *. case_decide; [by apply Hnone|].
  destruct (dict_get _ connectors) as [c|] eqn:Hc; [|by apply Hnone].
  intros [obs|ex]; simpl; intros [u|ex']; done.
Qed.

Definition timer_reported (tm : PbTimer.t) (out : pydict) : Prop :=
  dict_get "run_id" out = Some (JStr tm.(PbTimer.run_id)) /\
  dict_get "timer_id" out = Some (JStr tm.(PbTimer.timer_id)) /\
  is_Some (dict_get "action" out).

(** A timer pass that could list its timers returns, with one report per claimed timer,
    in order; a timer whose action raised is reported and stops no other. *)
Theorem timers_all_reported runner redrive_fn on_timer t o :
  exec (sdk_fire_due_timers_once registries runner redrive_fn on_timer) t o ->
  match claimed_timers t with
  | None => is_ok o = false
  | Some ts => exists outs, o = Ok outs /\ Forall2 timer_reported ts outs
  end.
Proof.
  intros He. refine (wp_exec _ (fun t o => match claimed_timers t with
    | None => is_ok o = false | Some ts => exists outs, o = Ok outs /\ Forall2 timer_reported ts outs end)
    t o _ He). clear He t o.
  intros [ts|ex]; [|done]. cbn [claimed_timers].
  eapply wp_mono; [intros t o Hx; exact Hx|]. apply wp_each_total. intros tm _.
  unfold sdk_fire_timer. apply wp_bind, wp_try, wp_any. intros t [a|ex]; apply wp_ret;
    (eexists; split; [done|]); repeat split; eauto.
Qed.

(** Which reactors of a tick ran. *)
Definition ran_as_enabled (o : Options) (rep : TickReport) : Prop :=
  (rep.(reconciled) = NotRun <-> o.(opt_reconcile) = false) /\
  (rep.(timers_fired) = NotRun <-> o.(opt_timers) = false) /\
  (rep.(compensations) = NotRun <-> o.(opt_compensations) = false) /\
  (rep.(recovered) = NotRun <-> o.(opt_recover) && (o.(opt_runner) || o.(opt_redrive_fn)) = false).

(** A tick returns whatever its reactors do, unless the compactor is on and the clock
    fails; a disabled reactor is not run and one that raised is reported as failed. *)
Theorem tick_survives o last t r :
  exec (reactors_tick connectors registries o last) t r ->
  o.(opt_compact) = false ->
  exists rep, r = Ok (rep, last) /\ rep.(compactions) = NotRun /\ ran_as_enabled o rep.
Proof.
  intros He Hc. refine (wp_exec _ (fun _ r => exists rep, r = Ok (rep, last) /\
    rep.(compactions) = NotRun /\ ran_as_enabled o rep) t r _ He). clear He.
  unfold reactors_tick.
  assert (Hatt : forall A b (p : P A) Q, (forall t a, (a = NotRun <-> b = false) -> Q t (Ok a)) ->
    wp (attempt_of b p) Q).
  { intros A b p Q HQ. unfold attempt_of. destruct b; [|by apply wp_ret, HQ].
    apply wp_try, wp_bind, wp_any. intros t1 [a|ex]; apply wp_ret, HQ; by split. }
  do 4 (apply wp_bind, Hatt; intros ? ? ?). unfold compact_tick. rewrite Hc.
  apply wp_ret. eexists. split; [done|]. by split_and!.
Qed.
End reconcile.

(** ** Witnesses and concrete runs *)

Definition key_text_ : PyText := {|
  dumps := fun _ => "{}"; loads := fun _ => Ok (JObj [("key", JStr "run-1/fc-1")]);
  str_exn := fun _ => "boom"; exn_name := fun _ => "Exception"; exn_details := fun _ => ""; str_json := fun _ => "";
  int_text := fun _ => Ok 0%Z; float_text := fun _ => Ok 0%Q; repr_str := fun s => s; from_markup := fun s => Ok s |}.
Definition wire_check : Callable := mkCallable "wire_status" "treasury" "wire_status".
Definition checked_registries : Registries := mkRegistries ∅ {["wire" := wire_check]} ∅.
Definition reconcile_timer : PbTimer.t := PbTimer.mk "run-1" "t-1" "reconcile" "{..}".

(** A counterparty that does not find the wire, and a connector that found it. *)
Definition reactor_world (c : call) : M unit (answer c) := fun w =>
  (match c return result (answer c) with
   | ListDueTimers _ _ _ => Ok [reconcile_timer]
   | GetEffect _ _ => Ok (Some sample_effect)
   | StatusCheck _ _ => Ok (VBool false)
   | ConnObserve _ _ => Ok (SObservation.mk "confirmed" "W-1" [])
   | ReconcileEffect _ _ _ _ _ | RecordExternalObservation _ _ _ _ _ _ _ => Ok tt
   | ListPendingEffects _ _ _ _ => Ok [sample_effect]
   | ListUnresolvedObligations _ _ _ _ _ => Ok []
   | _ => Err TypeError
   end, w).

Definition sample_reconcile : P (option pydict) :=
  @reconcile_effect_once key_text_ sample_connectors checked_registries sample_effect.
Lemma reconcile_effect_decides_witness :
  @reconciled_as key_text_ checked_registries sample_effect (trace reactor_world sample_reconcile tt).
Proof.
  exact (proj1 (@reconcile_effect_decides key_text_ sample_connectors checked_registries sample_effect _ _
    (run_exec reactor_world sample_reconcile tt))).
Defined.

Definition sample_timer_pass : P (list pydict) :=
  @sdk_fire_due_timers_once key_text_ checked_registries true false false.
Lemma timers_all_reported_witness :
  exists outs, (run reactor_world sample_timer_pass tt).1 = Ok outs /\
    Forall2 timer_reported [reconcile_timer] outs.
Proof.
  exact (@timers_all_reported key_text_ checked_registries true false false _ _
    (run_exec reactor_world sample_timer_pass tt)).
Defined.

Definition sample_options : Options :=
  mkOptions true false true true true true false 0 0 0 "me".
Definition sample_tick : P (TickReport * Q) :=
  @reactors_tick key_text_ sample_connectors checked_registries sample_options 0.
Lemma tick_survives_witness :
  exists rep, (run reactor_world sample_tick tt).1 = Ok (rep, 0%Q) /\
    rep.(compactions) = NotRun /\ ran_as_enabled sample_options rep.
Proof.
  exact (@tick_survives key_text_ sample_connectors checked_registries sample_options 0 _ _
    (run_exec reactor_world sample_tick tt) eq_refl).
Defined.

(** A timer of kind "reconcile" marks a non-idempotent effect FAILED that is still
    PENDING, possibly in flight, because its status check did not find it; the
    reconciler leaves the same effect alone. *)
Theorem reconcile_timer_fails_non_idempotent :
  sample_effect.(PbEffect.semantics) = EFFECT_SEMANTICS_NON_IDEMPOTENT /\
  sample_effect.(PbEffect.status) = EFFECT_STATUS_PENDING /\
  resolutions (trace reactor_world sample_timer_pass tt) =
    [ReconcileEffect "run-1" "run-1/fc-1" EFFECT_STATUS_FAILED "{}" ""] /\
  resolutions (trace reactor_world
    (@reconcile_effect_once key_text_ [] checked_registries sample_effect) tt) = [].
Proof. vm_compute. by repeat split. Qed.

(** ** The relay *)

(** The entries the sink accepted, and the documents written, in order. *)
Definition published_of (ev : event answer) : list PbEvent.t :=
  match ev.(ev_call) with Publish e => if is_ok ev.(ev_answer) then [e] else [] | _ => [] end.
Definition published (t : list (event answer)) : list PbEvent.t := t ≫= published_of.
Definition written_of (ev : event answer) : list json :=
  match ev.(ev_call) with WriteFile _ doc => [doc] | _ => [] end.
Definition written (t : list (event answer)) : list json := t ≫= written_of.

Lemma published_app t t' : published (t ++ t') = published t ++ published t'.
Proof. apply bind_app. Qed.
Lemma written_app t t' : written (t ++ t') = written t ++ written t'.
Proof. apply bind_app. Qed.

(** The entries a pass from cursor [c] is for. *)
Definition pending (run_id kind : string) (c : Z) : list PbEvent.t -> list PbEvent.t :=
  List.filter (fun e => (c <? e.(PbEvent.global_seq))%Z && wanted run_id kind e).
Definition ascending : list PbEvent.t -> Prop :=
  StronglySorted (fun a b => a.(PbEvent.global_seq) < b.(PbEvent.global_seq))%Z.
(** The cursor after publishing [ps] from [c]. *)
Definition cursor_after (c : Z) (ps : list PbEvent.t) : Z :=
  default c (PbEvent.global_seq <$> last ps).

Lemma pending_from run_id kind c e es :
  ascending (e :: es) -> (c < e.(PbEvent.global_seq))%Z ->
  pending run_id kind c es = pending run_id kind e.(PbEvent.global_seq) es.
Proof.
  intros Hs Hc. apply StronglySorted_inv in Hs as [_ Hf].
  unfold pending. apply List.filter_ext_in. intros x Hx.
  rewrite List.Forall_forall in Hf. specialize (Hf x Hx).
  by rewrite !(proj2 (Z.ltb_lt _ _)) by lia.
Qed.

Lemma cursor_after_cons c e ps :
  cursor_after c (e :: ps) = cursor_after e.(PbEvent.global_seq) ps.
Proof. unfold cursor_after. destruct ps as [|x ps]; [done|].
  rewrite last_cons_cons. destruct (last (x :: ps)) eqn:Hl; [done|]. by apply last_None in Hl.
Qed.

Lemma ascending_pending run_id kind c es : ascending es -> ascending (pending run_id kind c es).
Proof.
  induction es as [|e es IH]; [done|]. intros [Hs Hf]%StronglySorted_inv. unfold pending in *. simpl.
  case_match; [|by apply IH]. constructor; [by apply IH|].
  apply List.Forall_forall. intros x [Hx _]%List.filter_In. rewrite List.Forall_forall in Hf. by apply Hf.
Qed.

(** Filtering past a later cursor filters what is pending. *)
Lemma pending_later run_id kind c c' es :
  (c <= c')%Z -> pending run_id kind c' es =
    List.filter (fun e => c' <? e.(PbEvent.global_seq))%Z (pending run_id kind c es).
Proof.
  intros Hc. unfold pending. induction es as [|e es IH]; [done|]. simpl.
  destruct (wanted run_id kind e); rewrite ?andb_false_r, ?andb_true_r; [|done].
  destruct (c <? PbEvent.global_seq e)%Z eqn:Hlt; simpl; [by case_match; rewrite IH|].
  apply Z.ltb_ge in Hlt. by rewrite (proj2 (Z.ltb_ge _ _)) by lia.
Qed.

Lemma filter_past_none c' (es : list PbEvent.t) :
  (forall e, e ∈ es -> e.(PbEvent.global_seq) <= c')%Z ->
  List.filter (fun e => c' <? e.(PbEvent.global_seq))%Z es = [].
Proof.
  induction es as [|e es IH]; intros He; [done|]. simpl.
  rewrite (proj2 (Z.ltb_ge _ _)) by (apply He; left). apply IH. intros x Hx. apply He. by right.
Qed.
Lemma filter_past_all c' (es : list PbEvent.t) :
  (forall e, e ∈ es -> c' < e.(PbEvent.global_seq))%Z ->
  List.filter (fun e => c' <? e.(PbEvent.global_seq))%Z es = es.
Proof.
  induction es as [|e es IH]; intros He; [done|]. simpl.
  rewrite (proj2 (Z.ltb_lt _ _)) by (apply He; left). f_equal. apply IH. intros x Hx. apply He. by right.
Qed.

(** After a prefix of the pending entries, exactly the others are pending. *)
Lemma pending_rest run_id kind c es ps rest :
  ascending es -> ps ++ rest = pending run_id kind c es ->
  pending run_id kind (cursor_after c ps) es = rest.
Proof.
  intros Hs Hp. destruct ps as [|x ps _] using rev_ind; [exact (eq_sym Hp)|].
  unfold cursor_after. rewrite last_snoc. simpl.
  pose proof (ascending_pending run_id kind c es Hs) as Ha. rewrite <- Hp in Ha.
  assert (Hx : (c < x.(PbEvent.global_seq))%Z).
  { assert (Hx : In x (pending run_id kind c es)).
    { rewrite <- Hp. apply in_or_app. left. apply in_or_app. right. by left. }
    apply List.filter_In in Hx as [_ Hx]. apply andb_prop in Hx as [Hx _]. by apply Z.ltb_lt. }
  rewrite (pending_later run_id kind c) by lia. rewrite <- Hp, List.filter_app.
  unfold ascending in Ha. rewrite filter_past_none, filter_past_all; [done| |].
  - intros e He. apply (StronglySorted_app_1_elem_of _ _ _ x e Ha); [|done]. set_solver.
  - intros e He. apply StronglySorted_app_1_l in Ha. apply elem_of_app in He as [He|He].
    + pose proof (StronglySorted_app_1_elem_of _ _ _ e x Ha He) as Hlt. specialize (Hlt ltac:(left)). cbv beta in Hlt. lia.
    + apply list_elem_of_singleton in He as ->. lia.
Qed.

Section relay.
Context `{PyText}.
Variables run_id kind : string.
Variable batch_limit : Z.

(** What the loop over a stream has done, from cursor [c] and count [n]. *)
Definition relayed (es : list PbEvent.t) (c n : Z) (t : list (event answer))
    (o : result (Z * Z * option exn)) : Prop :=
  written t = [] /\ exists ps rest raised, published t = ps /\
    o = Ok (cursor_after c ps, (n + Z.of_nat (length ps))%Z, raised) /\
    ps ++ rest = pending run_id kind c es /\
    (ps <> [] -> n < batch_limit -> n + Z.of_nat (length ps) <= batch_limit)%Z.

Lemma relay_entries_relays es ending c n :
  ascending es -> (0 <= n)%Z ->
  wp (relay_entries run_id kind batch_limit es ending c n) (relayed es c n).
Proof.
  revert c n. induction es as [|e es IH]; intros c n Hs Hn; cbn [relay_entries].
  { apply wp_ret. split; [done|]. exists [], [], ending. split_and!; try done. simpl. f_equal. f_equal. f_equal. lia. }
  pose proof Hs as [Hs' _]%StronglySorted_inv.
  assert (Hskip : (c <? e.(PbEvent.global_seq))%Z && wanted run_id kind e = false ->
    wp (relay_entries run_id kind batch_limit es ending c n) (relayed (e :: es) c n)).
  { intros Hk. eapply wp_mono, (IH c n Hs' Hn). intros t o (Hw & ps & rest & raised & Hp & -> & Hr & Hb).
    split; [done|]. exists ps, rest, raised. split_and!; try done.
    unfold pending in *. simpl. by rewrite Hk. }
  case_decide as Hle; [apply Hskip; by rewrite (proj2 (Z.ltb_ge _ _))|].
  destruct (wanted run_id kind e) eqn:Hwant; [|apply Hskip, andb_false_r].
  assert (Hpend : pending run_id kind c (e :: es) = e :: pending run_id kind e.(PbEvent.global_seq) es).
  { rewrite <- (pending_from run_id kind c e es Hs) by lia. unfold pending. simpl.
    by rewrite (proj2 (Z.ltb_lt _ _)), Hwant by lia. }
  cbn [negb]. intros [u|ex]; simpl.
  - case_decide as Hlim.
    + apply wp_ret. split; [done|]. eexists [e], _, None. rewrite Hpend.
      split_and!; [done|simpl; done|done|]. simpl. lia.
    + eapply wp_mono, (IH e.(PbEvent.global_seq) (n + 1)%Z Hs'); [|lia].
      intros t o (Hw & ps & rest & raised & Hp & -> & Hr & Hb). split; [done|].
      exists (e :: ps), rest, raised. rewrite Hpend, <- Hr, cursor_after_cons.
      split_and!; [by simpl; rewrite <- Hp|simpl; f_equal; f_equal; f_equal; lia|done|].
      intros _ _. simpl. destruct ps as [|x ps]; [simpl; lia|]. specialize (Hb ltac:(done) ltac:(lia)). simpl in *. lia.
  - apply wp_ret. split; [done|]. eexists [], _, (Some ex). rewrite Hpend.
    split_and!; [done| |done|done]. simpl. f_equal. f_equal. f_equal. lia.
Qed.

(** The entries the server streamed to a pass. *)
Definition streamed (t : list (event answer)) : option (list PbEvent.t) :=
  match t with
  | Ev c r :: _ =>
    match c return result (answer c) -> option (list PbEvent.t) with
    | SubscribeBySubject _ _ _ => fun r => match r with Ok s => Some s.1 | Err _ => None end
    | _ => fun _ => None
    end r
  | [] => None
  end.

(** What a pass from cursor [c] guarantees of its trace and outcome. *)
Definition no_gap (path : string) (c : Z) (es : list PbEvent.t) (t : list (event answer))
    (o : result Z) : Prop :=
  exists ps rest, published t = ps /\ ps ++ rest = pending run_id kind c es /\
    (Z.of_nat (length ps) <= batch_limit)%Z /\
    (written t = [] \/ written t = [cursor_doc (cursor_after c ps)]) /\
    pending run_id kind (cursor_after c ps) es = rest /\
    (forall n, o = Ok n -> n = Z.of_nat (length ps) /\
       (ps <> [] -> path <> "" -> written t = [cursor_doc (cursor_after c ps)])).

Lemma no_gap_after path c es ps rest t1 t o :
  ascending es -> (Z.of_nat (length ps) <= batch_limit)%Z ->
  published t1 = ps -> written t1 = [] -> ps ++ rest = pending run_id kind c es ->
  published t = [] ->
  (written t = [] \/ written t = [cursor_doc (cursor_after c ps)]) ->
  (forall n, o = Ok n -> n = Z.of_nat (length ps) /\
     (ps <> [] -> path <> "" -> written t = [cursor_doc (cursor_after c ps)])) ->
  no_gap path c es (t1 ++ t) o.
Proof.
  intros Hs Hb Hp Hw Hr Hp2 Hw2 Ho. exists ps, rest.
  rewrite published_app, written_app, Hp, Hw, Hp2, app_nil_r. split_and!; auto.
  by apply pending_rest.
Qed.

(** One pass of the relay over an ascending stream, from cursor [c]: it publishes, in
    order, a prefix of the wanted entries past [c], at most a batch; the only cursor it
    may write is that of the last entry the sink accepted, after which exactly the
    other entries are pending; and it writes it whenever it returns a count. *)
Theorem relay_leaves_no_gap path pattern predicate c es t o :
  exec (relay_from path run_id kind pattern predicate batch_limit c) t o ->
  streamed t = Some es -> ascending es -> (0 < batch_limit)%Z -> no_gap path c es t o.
Proof.
  intros He Hst Hs Hlim.
  refine (wp_exec _ (fun t o => streamed t = Some es -> no_gap path c es t o) t o _ He Hst). clear He Hst t o.
  unfold relay_from. intros [[es' ending]|e]; [|done].
  apply exec_wp. intros t o He [= <-]. set (begun := Ev _ _). revert t o He. apply forall_exec.
  simpl. apply wp_bind. eapply wp_mono; [|by apply relay_entries_relays].
  intros t ? (Hw & ps & rest & raised & Hp & -> & Hr & Hb). cbv beta iota.
  assert (Hlen : (Z.of_nat (length ps) <= batch_limit)%Z).
  { destruct ps as [|x ps]; [simpl; lia|]. specialize (Hb ltac:(done) Hlim). lia. }
  assert (Hstop : forall t2 o, published t2 = [] ->
    (written t2 = [] \/ written t2 = [cursor_doc (cursor_after c ps)]) ->
    (forall n, o = Ok n -> n = Z.of_nat (length ps) /\
       (ps <> [] -> path <> "" -> written t2 = [cursor_doc (cursor_after c ps)])) ->
    no_gap path c es' (begun :: t ++ t2) o).
  { intros t2 o H1 H2 H3. rewrite app_comm_cons. by apply (no_gap_after path c es' ps rest). }
  assert (Hend : wp (_ ← (if decide ((0 + Z.of_nat (length ps))%Z = 0%Z) then mret tt
                          else write_cursor path (cursor_after c ps) : P unit);
                     mret (0 + Z.of_nat (length ps))%Z)
    (fun t2 o => no_gap path c es' (begun :: t ++ t2) o)).
  { case_decide as Hz.
    - apply wp_ret, Hstop; [done|by left|]. intros n [= <-]. split; [lia|].
      intros Hne. destruct ps; [done|simpl in Hz; lia].
    - unfold write_cursor. case_decide as Hpath.
      + apply wp_ret, Hstop; [done|by left|]. intros n [= <-]. split; [lia|done].
      + intros [u|e]; simpl; apply Hstop; try done; [by right| |by right].
        intros n [= <-]. split; [lia|done]. }
  destruct raised as [e|]; [|apply Hend].
  destruct (decide (e = RpcError "DEADLINE_EXCEEDED" \/ e = RpcError "CANCELLED")); [apply Hend|].
  apply Hstop; [done|by left|done].
Qed.
End relay.

(** ** The cursor file *)

(** The document a cursor read found. *)
Definition file_read (t : list (event answer)) : option json :=
  match t with
  | Ev c r :: _ =>
    match c return result (answer c) -> option json with
    | ReadFile _ => fun r => match r with Ok d => d | Err _ => None end
    | _ => fun _ => None
    end r
  | [] => None
  end.

(** A cursor that was written is the cursor the next pass starts from: reading the
    written document answers its number and writes nothing. *)
Theorem cursor_round_trip `{PyText} path c t1 o1 t2 o2 :
  path <> "" -> exec (write_cursor path c) t1 o1 -> exec (read_cursor path) t2 o2 ->
  file_read t2 = head (written t1) -> o2 = Ok c /\ written t2 = [].
Proof.
  intros Hpath He1 He2.
  assert (Hw : head (written t1) = Some (cursor_doc c)).
  { refine (wp_exec _ (fun t _ => head (written t) = Some (cursor_doc c)) _ _ _ He1). unfold write_cursor. rewrite decide_False by done.
    by intros [u|e]. }
  rewrite Hw. clear He1 Hw.
  refine (wp_exec _ (fun t o => file_read t = Some (cursor_doc c) -> o = Ok c /\ written t = []) _ _ _ He2).
  unfold read_cursor.
  rewrite decide_False by done. intros [[d|]|e]; [|done..]. apply exec_wp.
  intros t o He [= ->]. simpl in He. by inversion He.
Qed.

(** A cursor file in an old format restarts the relay from the beginning, and is
    rewritten in the new format, so that the next read finds it migrated. *)
Theorem legacy_cursor_migrates `{PyText} path fields t o :
  path <> "" -> exec (read_cursor path) t o -> file_read t = Some (JObj fields) ->
  dict_get "last_global_seq" fields = None ->
  is_Some (dict_get "from_ts_ms" fields) \/ is_Some (dict_get "last_run_id" fields) \/
    is_Some (dict_get "last_seq" fields) ->
  written t = [cursor_doc 0] /\ (is_ok o = true -> o = Ok 0%Z).
Proof.
  intros Hpath He Hf Hnew Hold. revert Hf.
  refine (wp_exec _ (fun t o => file_read t = Some (JObj fields) ->
    written t = [cursor_doc 0] /\ (is_ok o = true -> o = Ok 0%Z)) t o _ He). clear He t o.
  unfold read_cursor. rewrite decide_False by done. intros [[d|]|e]; [|done..]. apply exec_wp.
  intros t o He [= ->]. simpl in He. revert t o He. apply forall_exec.
  unfold cursor_of. cbn [lift json_in]. rewrite Hnew.
  assert (Hb : bool_decide (is_Some (dict_get "from_ts_ms" fields)) ||
               bool_decide (is_Some (dict_get "last_run_id" fields)) ||
               bool_decide (is_Some (dict_get "last_seq" fields)) = true).
  { destruct Hold as [Ho|[Ho|Ho]]; rewrite (bool_decide_true _ Ho); by rewrite ?orb_true_r. }
  rewrite bool_decide_false by (by intros []).
  change (wp (migrate_cursor path (JObj fields)) (fun t o => written t = [cursor_doc 0] /\
    (is_ok o = true -> o = Ok 0%Z))).
  unfold migrate_cursor. cbn [lift json_in mbind prog_bind]. rewrite Hb. unfold write_cursor.
  rewrite decide_False by done. by intros [u|e].
Qed.

(** ** Witnesses *)

Definition entry (n : Z) (k : string) : PbEvent.t := PbEvent.mk "run-1" n k "" 0 n "".
Definition journal : list PbEvent.t := [entry 1 "effect"; entry 2 "timer"; entry 5 "effect"].
(** A server that streams [journal] and then times out, a sink that accepts, and a file
    holding the cursor 1. *)
Definition relay_world (c : call) : M unit (answer c) := fun w =>
  (match c return result (answer c) with
   | SubscribeBySubject _ _ _ => Ok (journal, Some (RpcError "DEADLINE_EXCEEDED"))
   | Publish _ | WriteFile _ _ => Ok tt
   | ReadFile _ => Ok (Some (cursor_doc 1))
   | _ => Err TypeError
   end, w).

Definition sample_pass : P Z := relay_from "cursor.json" "" "effect" "" "" 512 0.
Lemma relay_leaves_no_gap_witness :
  no_gap "" "effect" 512 "cursor.json" 0 journal (trace relay_world sample_pass tt) (Ok 2%Z).
Proof.
  refine (relay_leaves_no_gap "" "effect" 512 "cursor.json" "" "" 0 journal _ _
    (run_exec relay_world sample_pass tt) eq_refl _ eq_refl).
  repeat constructor.
Defined.

Lemma cursor_round_trip_witness :
  (run relay_world (@read_cursor sample_text "cursor.json") tt).1 = Ok 1%Z.
Proof.
  refine (proj1 (@cursor_round_trip sample_text "cursor.json" 1 _ _ _ _ _
    (run_exec relay_world (write_cursor "cursor.json" 1) tt)
    (run_exec relay_world (@read_cursor sample_text "cursor.json") tt) eq_refl)).
  discriminate.
Defined.
