(* ===== verification/SdkLoops.v ===== *)
(** * SdkLoops: the processes of the gRPC tier

    The endless loops around the ticks of [SdkReactors] and [SdkOutbox], with their
    callbacks.  They are [Client.forever] with a number of passes: a process that is killed
    or interrupted is a prefix of a longer one.  What starts them is [SdkEntry]. *)
From Stdlib Require Import QArith Sorting.Sorted.
From S2P Require Import Prelude Scenarios ScenarioTheorems Contracts Client Recover SdkReactors SdkOutbox.
From S2P Require Import SdkSamples SdkReactorTheorems.
#[local] Open Scope Z_scope.
#[local] Open Scope nat_scope.

(** ** Loops *)

Section loops.
Context `{PyText}.
Variable connectors : list (string * Conn).
Variable registries : Registries.
(** [_compensator_id()] and [_claimer_id()] of the process *)
Variables compensator_id claimer_id : string.

(** ** What the loops report *)

Definition outcome_dict (o : drain_outcome) : pydict :=
  match o with
  | ClaimLost s => [("outcome", JStr "skipped"); ("reason", JStr "claim-lost"); ("current_status", JInt s)]
  | NoCompensator k n =>
    [("outcome", JStr "stuck"); ("kind", JStr k); ("attempts", JInt n); ("error", JStr "no-compensator")]
  | Compensated k v => [("outcome", JStr "compensated"); ("kind", JStr k); ("result", to_json v)]
  | Attempted stuck k n e next_at =>
    [("outcome", JStr (if stuck then "stuck" else "scheduled")); ("kind", JStr k); ("attempts", JInt n);
     ("error", JStr e); ("next_attempt_at_ms", JInt next_at)]
  end.
Definition row_dict (r : drained_row) : json :=
  let '(run_id, seq, o) := r in
  JObj (outcome_dict o ++ [("run_id", JStr run_id); ("obligation_seq", JInt seq)]).

Definition compaction_dict (r : string * result CompactReport.t) : json :=
  JObj match r.2 with
       | Ok rep => [("run_id", JStr r.1); ("decisions_zeroed", JInt rep.(CompactReport.decisions_zeroed));
                    ("effects_zeroed", JInt rep.(CompactReport.effects_zeroed));
                    ("bytes_saved", JInt rep.(CompactReport.bytes_saved));
                    ("already_compacted", JBool rep.(CompactReport.already_compacted))]
       | Err ex => [("run_id", JStr r.1); ("error", JStr (str_exn ex))]
       end.

Definition recovered_dict (r : string * string) : json :=
  JObj [("run_id", JStr r.1); ("invocation_id", JStr r.2)].

(** The keys one reactor sets on the tick. *)
Definition tick_keys {A} (done failed : string) (enc : A -> json) (a : attempt (list A)) : pydict :=
  match a with
  | NotRun => []
  | Reported l => [(done, JList (map enc l))]
  | Failed text => [(failed, JStr text)]
  end.
Definition tick_dict (r : TickReport) : pydict :=
  tick_keys "recovered" "recover_error" recovered_dict r.(recovered) ++
  tick_keys "reconciled" "reconcile_error" JObj r.(reconciled) ++
  tick_keys "timers_fired" "timer_error" JObj r.(timers_fired) ++
  tick_keys "compensations" "compensation_error" row_dict r.(compensations) ++
  tick_keys "compactions" "compaction_error" compaction_dict r.(compactions).

(** ** [run_reactors] *)

(** A pass, with the time of the last compaction. *)
Definition reactors_pass (o : Options) (interval_s : Q) (once : bool)
    (on_tick : option (json -> P unit)) (last_compact_at : Q) : P (Q + unit) :=
  r ← reactors_tick connectors registries o last_compact_at;
  _ ← call_back on_tick (JObj (tick_dict r.1));
  sleep_or_return once interval_s r.2.

Definition run_reactors (turns : nat) (url : string) (o : Options) (interval_s : Q) (once : bool)
    (on_tick : option (json -> P unit)) (last_compact_at : Q) : P (option unit) :=
  with_client url (forever turns (reactors_pass o interval_s once on_tick) last_compact_at).

(** ** [run_compactor] *)

Definition compactor_tick (reports : list json) : json :=
  JObj [("compactor", JBool true); ("reports", JList reports); ("count", JInt (Z.of_nat (length reports)))].

Definition compactor_pass (interval_s hot_window_s : Q) (batch_limit : Z) (once : bool)
    (on_tick : option (json -> P unit)) (_ : unit) : P (unit + unit) :=
  now ← time_time;
  let before := (py_int (now * 1000) - py_int (hot_window_s * 1000))%Z in
  reports ← try_ (rs ← compact_runs_once before batch_limit; mret (map compaction_dict rs))
                 (fun ex => mret [JObj [("error", JStr (str_exn ex)); ("tick", JStr "compactor")]]);
  _ ← call_back on_tick (compactor_tick reports);
  sleep_or_return once interval_s tt.

Definition run_compactor (turns : nat) (url : string) (interval_s hot_window_s : Q) (batch_limit : Z)
    (once : bool) (on_tick : option (json -> P unit)) : P (option unit) :=
  with_client url (forever turns (compactor_pass interval_s hot_window_s batch_limit once on_tick) tt).

(** ** [run_compensations_event_driven] *)

(** [json.loads(payload).get("transition", "")], [""] when any of it raises *)
Definition transition_of (payload : string) : json :=
  if decide (payload = "") then JStr ""
  else match (v ← loads payload; json_get v "transition" (JStr "")) with
       | Ok v => v | Err _ => JStr "" end.

Definition event_dict (e : PbEvent.t) : json :=
  JObj [("event", JStr "obligation"); ("transition", transition_of e.(PbEvent.payload_json));
        ("ts_ms", JInt e.(PbEvent.ts_ms))].

(** The loop over the stream: the cursor, whether an event was seen, and what was raised. *)
Fixpoint window_entries (on_event : option (json -> P unit)) (es : list PbEvent.t)
    (ending : option exn) (from_ts_ms : Z) (saw : bool) : P (Z * bool * option exn) :=
  match es with
  | [] => mret (from_ts_ms, saw, ending)
  | e :: es =>
    let from' := Z.max from_ts_ms e.(PbEvent.ts_ms) in
    r ← caught (call_back on_event (event_dict e));
    match r with
    | Ok _ => window_entries on_event es ending from' true
    | Err ex => mret (from', true, Some ex)
    end
  end.

(** The end of a window by its deadline is no failure. *)
Definition window_over (raised : option exn) : P unit :=
  match raised with
  | None => mret tt
  | Some e => if decide (e = RpcError "DEADLINE_EXCEEDED" \/ e = RpcError "CANCELLED")
              then mret tt else Throw e
  end.

(** [for r in compensate_once(..): on_event(r)] *)
Definition drain_and_report (claimer : string) (on_event : option (json -> P unit)) : P unit :=
  rows ← compensate_once registries (str_or claimer compensator_id) 200 true;
  _ ← each rows (fun r => call_back on_event (row_dict r));
  mret tt.

(** One window: any event at all drains the whole queue once. *)
Definition event_pass (claimer : string) (on_event : option (json -> P unit)) (from_ts_ms : Z)
    : P (Z + Empty_set) :=
  s ← (invoke (SubscribeEvents from_ts_ms "" "obligation" 0 "") : P stream);
  w ← window_entries on_event s.1 s.2 from_ts_ms false;
  let '(from', saw, raised) := w in
  _ ← window_over raised;
  _ ← (if saw : bool then drain_and_report claimer on_event else mret tt : P unit);
  mret (inl from').

Definition run_compensations_event_driven (turns : nat) (url claimer : string) (from_ts_ms : Z)
    (catchup : bool) (on_event : option (json -> P unit)) : P (option Empty_set) :=
  with_client url
    (_ ← (if catchup then drain_and_report claimer on_event else mret tt : P unit);
     forever turns (event_pass claimer on_event) from_ts_ms).

(** ** [run_outbox_relay] and [run_event_fanout] *)

Definition relay_pass (cursor_path run_id kind subject_pattern predicate_cel : string)
    (interval_s : Q) (once : bool) (_ : unit) : P (unit + unit) :=
  _ ← try_ (_ ← outbox_relay_tick cursor_path run_id kind subject_pattern predicate_cel 512; mret tt)
           (fun ex => invoke (PrintErr ("[tape outbox] tick error: " +:+ str_exn ex)) : P unit);
  sleep_or_return once interval_s tt.

(** The sink is closed after the client, and its failure to close is dropped. *)
Definition run_outbox_relay (turns : nat) (url cursor_path run_id kind subject_pattern predicate_cel : string)
    (interval_s : Q) (once : bool) : P (option unit) :=
  _ ← (invoke (OpenClient url) : P unit);
  finally_ (forever turns (relay_pass cursor_path run_id kind subject_pattern predicate_cel interval_s once) tt)
    (_ ← (invoke CloseClient : P unit);
     try_ (invoke CloseSink : P unit) (fun _ => mret tt)).

Definition run_event_fanout (url : string) (from_ts_ms : Z) (run_id kind : string) : P unit :=
  with_client url
    (s ← (invoke (SubscribeEvents from_ts_ms run_id kind 0 "") : P stream);
     _ ← each s.1 (fun e => invoke (Publish e) : P unit);
     match s.2 with None => mret tt | Some e => Throw e end).
End loops.

(** * Theorems *)

(** ** What the reactors call *)

(** Every call of a trace satisfies [E]. *)
Definition calls (E : call -> Prop) (t : list (event answer)) : Prop := Forall (fun ev => E ev.(ev_call)) t.
#[export] Instance calls_closed E : Closed (calls E).
Proof. apply forall_closed. Qed.

(** The calls of the reactors other than the compactor: none of the loop's own, and no
    listing of compactable runs. *)
Definition of_reactors (c : call) : Prop :=
  match c with
  | OpenClient _ | CloseClient | CloseSink | OnTick _ | OnEvent _ | Sleep _ | ListCompactableRuns _ _ => False
  | _ => True
  end.
#[local] Abbreviation reacts p := (wp p (fun t _ => calls of_reactors t)).

Ltac reacts_step :=
  match goal with
  | |- calls _ [_] => constructor; [exact I|constructor]
  | |- wp (Call _ _) _ => apply wp_call_closed; [apply _|intros ?|intros ?]
  | _ => progress autounfold with rpc
  | _ => closed_step
  end.
Ltac reacts := repeat reacts_step.

Section reacts.
Context `{PyText}.
Variable connectors : list (string * Conn).
Variable registries : Registries.

Lemma recover_reacts runner redrive_fn limit : reacts (recover_once runner redrive_fn limit).
Proof. unfold recover_once, redrive. reacts. Qed.
Lemma reconcile_reacts after : reacts (sdk_reconcile_once connectors registries after).
Proof.
  unfold sdk_reconcile_once, reconcile_effect_once, observe_via_connector, record_observation, check_status.
  reacts.
Qed.
Lemma timers_react runner redrive_fn on_timer : reacts (sdk_fire_due_timers_once registries runner redrive_fn on_timer).
Proof.
  unfold sdk_fire_due_timers_once, sdk_fire_timer, timer_action, gate_timeout, timer_reconcile, resume, redrive.
  reacts.
Qed.
Lemma compensate_reacts claimer limit ce : reacts (compensate_once registries claimer limit ce).
Proof.
  unfold compensate_once, compensate_one, resolve_compensator, mark_stuck, run_inverse, report_failure, report_success.
  reacts.
Qed.
End reacts.

(** ** Loops *)

(** What [on_tick] and [on_event] were given. *)
Definition ticks_of (ev : event answer) : list json :=
  match ev.(ev_call) with OnTick v => [v] | _ => [] end.
Definition ticks (t : list (event answer)) : list json := t ≫= ticks_of.
Lemma ticks_app t t' : ticks (t ++ t') = ticks t ++ ticks t'.
Proof. apply bind_app. Qed.
Lemma no_ticks t : calls of_reactors t -> ticks t = [].
Proof. induction 1 as [|[[] r] t Hev _ IH]; cbn in *; rewrite ?IH; by try destruct Hev. Qed.

(** The calls of the loop itself, its clock included, and a trace in which one of them
    raised [e]. *)
Definition of_loop (c : call) : Prop :=
  match c with OpenClient _ | CloseClient | OnTick _ | Sleep _ | Time => True | _ => False end.
Definition raised_by_loop (e : exn) (t : list (event answer)) : Prop :=
  exists c, of_loop c /\ Ev c (Err e) ∈ t.

Lemma raised_app_l e t t' : raised_by_loop e t -> raised_by_loop e (t ++ t').
Proof. intros (c & Hc & He). exists c. set_solver. Qed.
Lemma raised_app_r e t t' : raised_by_loop e t' -> raised_by_loop e (t ++ t').
Proof. intros (c & Hc & He). exists c. set_solver. Qed.
Lemma raised_here e c t : of_loop c -> raised_by_loop e (Ev c (Err e) :: t).
Proof. intros Hc. exists c. split; [done|left]. Qed.
Create HintDb loops.
#[local] Hint Resolve raised_app_l raised_app_r raised_here : loops.
#[local] Hint Extern 1 (of_loop _) => exact I : loops.

(** A loop without [once] is left only by an exception. *)
Lemma forever_goes_on {S A} turns (body : S -> P (S + A)) s :
  (forall s, wp (body s) (fun _ o => forall r, o = Ok r -> exists s', r = inl s')) ->
  wp (forever turns body s) (fun _ o => forall r, o = Ok r -> r = None).
Proof.
  intros Hb. revert s. induction turns as [|n IH]; intros s; [by intros r [= <-]|].
  cbn. apply wp_bind. eapply wp_mono, Hb. intros t [r|e] Hr; [|done].
  destruct (Hr r eq_refl) as [s' ->]. apply IH.
Qed.

(** The client is closed last, whatever the loop did. *)
Definition ends_closed (t : list (event answer)) : Prop :=
  (exists url e, t = [Ev (OpenClient url) (Err e)]) \/
  (exists url t' r, t = Ev (OpenClient url) (Ok tt) :: t' ++ [Ev CloseClient r]).

Lemma wp_with_client {A} url (body : P A) (Q : list (event answer) -> result A -> Prop) :
  (forall e, Q [Ev (OpenClient url) (Err e)] (Err e)) ->
  wp body (fun t o => forall r, let t' := Ev (OpenClient url) (Ok tt) :: t ++ [Ev CloseClient r] in
     match r with Ok _ => Q t' o | Err e => Q t' (Err e) end) ->
  wp (with_client url body) Q.
Proof.
  intros Herr Hb. unfold with_client, finally_. intros [[]|e]; [|apply Herr].
  cbn. apply wp_bind, wp_caught. eapply wp_mono, Hb. intros t o Ho [[]|e]; cbn.
  - specialize (Ho (Ok tt)). cbn in Ho. by destruct o.
  - exact (Ho (Err e)).
Qed.

Section run_reactors.
Context `{PyText}.
Variable connectors : list (string * Conn).
Variable registries : Registries.

(** A program that raises only what one of the loop's own calls raised. *)
Definition raises_loops {A} (t : list (event answer)) (r : result A) : Prop :=
  match r with Ok _ => True | Err e => raised_by_loop e t end.
Lemma attempt_then {A B} b (p : P A) (f : attempt A -> P B) :
  (forall a, wp (f a) raises_loops) -> wp (attempt_of b p ≫= f) raises_loops.
Proof.
  intros Hf. assert (Hgo : forall t a, wp (f a) (fun t' r => raises_loops (t ++ t') r)).
  { intros t a. eapply wp_mono, Hf. intros t' [x|e]; [done|]. apply raised_app_r. }
  apply wp_bind. unfold attempt_of. destruct b; [|exact (Hgo [] NotRun)].
  apply wp_try, wp_bind, wp_any. intros t [a|e]; apply wp_ret; rewrite ?app_nil_r; apply (Hgo _).
Qed.
Lemma compact_tick_raises o last : wp (compact_tick o last) raises_loops.
Proof.
  unfold compact_tick. destruct (opt_compact o); [|done].
  apply wp_bind. unfold time_time. intros [now|e]; cbn [lift wp]; [|by apply raised_here].
  assert (Hgo : forall (p : P (attempt (list (string * result CompactReport.t)) * Q)) ev, wp p raises_loops ->
    wp p (fun t r => raises_loops (ev :: t) r)).
  { intros p ev Hp. eapply wp_mono, Hp. intros t [x|e]; [done|]. apply (raised_app_r e [ev]). }
  case_match; apply Hgo; [|done]. apply attempt_then. done.
Qed.
Definition untold (c : call) : Prop := match c with OnTick _ => False | _ => True end.
Lemma untold_ticks t : calls untold t -> ticks t = [].
Proof. induction 1 as [|[[] r] t Hev _ IH]; cbn in *; rewrite ?IH; by try destruct Hev. Qed.
Lemma compact_tick_untold o last : wp (compact_tick o last) (fun t _ => calls untold t).
Proof. unfold compact_tick, attempt_of, compact_runs_once, now_ms, list_compactable_runs, compact_run. reacts. Qed.

(** A tick reports nothing itself, and no reactor, the compactor included, makes it raise. *)
Lemma tick_reports o last :
  wp (reactors_tick connectors registries o last) (fun t r => ticks t = [] /\ raises_loops t r).
Proof.
  apply wp_and.
  - eapply wp_mono; [intros t r; apply untold_ticks|]. unfold reactors_tick, attempt_of.
    assert (Hup : forall A (p : P A), reacts p -> wp p (fun t _ => calls untold t)).
    { intros A p. apply wp_mono. intros t _ Ht. eapply Forall_impl; [exact Ht|]. intros [[] ?]; done. }
    pose proof (Hup _ _ (recover_reacts (opt_runner o) (opt_redrive_fn o) 50)) as H1.
    pose proof (Hup _ _ (reconcile_reacts connectors registries (py_int (opt_pending_after_s o * 1000)))) as H2.
    pose proof (Hup _ _ (timers_react registries (opt_runner o) (opt_redrive_fn o) false)) as H3.
    pose proof (Hup _ _ (compensate_reacts registries (opt_claimer o) 200 true)) as H4.
    pose proof (compact_tick_untold o last) as H5.
    repeat (assumption || closed_step).
  - unfold reactors_tick. do 4 (apply attempt_then; intros ?).
    apply wp_bind. eapply wp_mono, compact_tick_raises. intros t [x|e] Ht; [done|exact Ht].
Qed.

(** A pass reports one tick, and only the loop's own calls can make it raise. *)
Lemma pass_reports o interval_s once last :
  wp (reactors_pass connectors registries o interval_s once user_tick last) (fun t r =>
    match r with
    | Ok (inl _) => once = false /\ length (ticks t) = 1
    | Ok (inr _) => once = true /\ length (ticks t) = 1
    | Err e => raised_by_loop e t
    end).
Proof.
  unfold reactors_pass. apply wp_bind. eapply wp_mono, tick_reports.
  intros t [[rep last']|e] [Ht Hr]; [|exact Hr]. cbn -[tick_dict]. unfold sleep_or_return.
  assert (Hn : forall x : event answer, forall t', ticks (t ++ x :: t') = ticks_of x ++ ticks t').
  { intros x t'. by rewrite ticks_app, Ht. }
  intros [[]|e]; cbn -[tick_dict]; [|eauto with loops].
  destruct once; cbn -[tick_dict]; [by rewrite Hn|].
  intros [[]|e]; cbn -[tick_dict]; [by rewrite Hn|].
  apply raised_app_r. exists (Sleep interval_s). split; [exact I|]. right. left.
Qed.

Lemma loop_reports turns o interval_s once last :
  wp (forever turns (reactors_pass connectors registries o interval_s once user_tick) last) (fun t r =>
    match r with
    | Ok None => length (ticks t) = turns /\ (once = true -> turns = 0)
    | Ok (Some _) => once = true /\ length (ticks t) = 1
    | Err e => raised_by_loop e t
    end).
Proof.
  revert last. induction turns as [|n IH]; intros last; [done|].
  cbn. apply wp_bind. eapply wp_mono, pass_reports. intros t [[last'|[]]|e]; cbn.
  - intros (-> & Hl). eapply wp_mono, IH. intros t' [[v|]|e].
    + by intros [Ho _].
    + intros [Hn _]. rewrite ticks_app, length_app. split; [lia|done].
    + apply raised_app_r.
  - by rewrite app_nil_r.
  - done.
Qed.

(** C39: The process of the reactors, the compactor included.  Whatever the server, the
    connectors, the inverses and the runner do, it reports one tick per pass to its
    callback and goes on; it returns exactly with [once], after one tick, and what ends it
    otherwise was raised by opening or closing the client, by the callback, by the sleep or
    by the clock.  The client is closed last. *)
Theorem reactors_keep_ticking turns url o interval_s once last t r :
  exec (run_reactors connectors registries turns url o interval_s once user_tick last) t r ->
  ends_closed t /\
  match r with
  | Ok None => length (ticks t) = turns /\ (once = true -> turns = 0)
  | Ok (Some _) => once = true /\ length (ticks t) = 1
  | Err e => raised_by_loop e t
  end.
Proof.
  revert t r. apply forall_exec. unfold run_reactors.
  apply wp_with_client; [intros e; split; [left; eauto|eauto with loops]|].
  assert (Hk : forall t r, length (ticks (Ev (OpenClient url) (Ok tt) :: t ++ [Ev CloseClient r])) = length (ticks t)).
  { intros t r. change (length (ticks (t ++ [Ev CloseClient r])) = length (ticks t)).
    by rewrite ticks_app, length_app, Nat.add_0_r. }
  eapply wp_mono, (loop_reports turns o interval_s once last).
  intros t o' Ho [[]|e]; cbn zeta; (split; [right; eauto|]).
  - rewrite Hk. destruct o' as [[v|]|e]; [done..|]. by apply (raised_app_r e [_]), raised_app_l.
  - apply (raised_app_r e [_]), raised_app_r. eauto with loops.
Qed.
End run_reactors.

(** ** The compactor's cooldown *)

(** The cutoffs compactable runs were listed with. *)
Definition cutoffs_of (ev : event answer) : list Z :=
  match ev.(ev_call) with ListCompactableRuns before _ => [before] | _ => [] end.
Definition cutoffs (t : list (event answer)) : list Z := t ≫= cutoffs_of.
Lemma cutoffs_app t t' : cutoffs (t ++ t') = cutoffs t ++ cutoffs t'.
Proof. apply bind_app. Qed.
Lemma no_cutoffs t : calls of_reactors t -> cutoffs t = [].
Proof. induction 1 as [|[[] r] t Hev _ IH]; cbn in *; rewrite ?IH; by try destruct Hev. Qed.

Lemma wp_after_reactors {A B} (p : P A) (f : A -> P B) (G : list Z -> result B -> Prop) :
  reacts p -> (forall e, G [] (Err e)) ->
  (forall a, wp (f a) (fun t r => G (cutoffs t) r)) -> wp (p ≫= f) (fun t r => G (cutoffs t) r).
Proof.
  intros Hp He Hf. apply wp_bind. eapply wp_mono, Hp. intros t [a|e] Ht.
  - eapply wp_mono, Hf. intros t' r. by rewrite cutoffs_app, (no_cutoffs t).
  - by rewrite (no_cutoffs t).
Qed.

(** Clock readings, each at least [i] after the one before. *)
Fixpoint spaced (i last : Q) (nows : list Q) : Prop :=
  match nows with
  | [] => True
  | now :: nows => (i <= now - last)%Q /\ spaced i now nows
  end.

Section cooldown.
Context `{PyText}.
Variable connectors : list (string * Conn).
Variable registries : Registries.
Variable o : Options.

(** The cutoff of a pass at [now]. *)
Definition cutoff_at (now : Q) : Z := (py_int (now * 1000) - py_int (o.(opt_hot_window_s) * 1000))%Z.
(** A cutoff that was listed at [now]; one before the epoch stands for a day ago. *)
Definition listed_at (now : Q) (before : Z) : Prop := (0 < cutoff_at now)%Z -> before = cutoff_at now.
Definition spaced_from (last : Q) (cs : list Z) : Prop :=
  exists nows, Forall2 listed_at nows cs /\ spaced o.(opt_compact_interval_s) last nows.

Lemma compact_runs_lists before limit :
  wp (compact_runs_once before limit) (fun t _ => cutoffs t = [] \/
    exists c, cutoffs t = [c] /\ ((0 < before)%Z -> c = before)).
Proof.
  unfold compact_runs_once.
  assert (Hl : forall c, wp (runs ← list_compactable_runs c limit;
    each runs (fun r => rep ← try_ (rep ← compact_run r.(PbRun.run_id); mret (Ok rep)) (fun ex => mret (Err ex));
                        mret (r.(PbRun.run_id), rep))) (fun t _ => cutoffs t = [c])).
  { intros c. apply wp_bind. unfold list_compactable_runs. intros [runs|e]; [|done]. cbn -[cutoffs].
    apply wp_mono with (P := fun t _ => calls of_reactors t).
    - intros t r Ht. change (c :: cutoffs t = [c]). by rewrite no_cutoffs.
    - reacts. }
  apply wp_bind. case_decide as Hb.
  - unfold now_ms, time_time. do 2 wp_step. intros [now|e]; cbn [lift wp]; [|by left].
    do 2 apply wp_ret. eapply wp_mono; [|apply Hl].
    intros t r Hc. right. eexists. split; [exact Hc|lia].
  - apply wp_ret. eapply wp_mono; [|apply Hl]. intros t r Hc. right. eexists. split; [exact Hc|done].
Qed.

Lemma compact_tick_spaced last :
  wp (compact_tick o last) (fun t r => match r with
    | Ok (_, last') => (last' = last /\ cutoffs t = []) \/
        (o.(opt_compact_interval_s) <= last' - last)%Q /\
        (cutoffs t = [] \/ exists c, cutoffs t = [c] /\ listed_at last' c)
    | Err _ => cutoffs t = []
    end).
Proof.
  unfold compact_tick. destruct (opt_compact o); [|by left].
  apply wp_bind. unfold time_time. intros [now|e]; [|done]. cbn.
  destruct (Qle_bool _ _) eqn:Hd; [|by left]. apply Qle_bool_iff in Hd.
  unfold attempt_of. apply wp_bind, wp_try, wp_bind.
  eapply wp_mono, compact_runs_lists. intros t [v|e] Ht; cbn; right; (split; [done|]); rewrite ?app_nil_r; exact Ht.
Qed.

(** What a tick or a pass lists, when it leaves the time of the last compaction at [last']. *)
Definition one_pass (last last' : Q) (c : list Z) : Prop :=
  (last' = last /\ c = []) \/
  (o.(opt_compact_interval_s) <= last' - last)%Q /\ (c = [] \/ exists x, c = [x] /\ listed_at last' x).

Definition tick_lists (last : Q) (c : list Z) (r : result (TickReport * Q)) : Prop :=
  match r with Ok (_, last') => one_pass last last' c | Err _ => c = [] end.

Lemma attempt_reacts {A} b (p : P A) : reacts p -> reacts (attempt_of b p).
Proof. intros Hp. unfold attempt_of. repeat (assumption || closed_step). Qed.

Lemma tick_spaced last :
  wp (reactors_tick connectors registries o last) (fun t r => tick_lists last (cutoffs t) r).
Proof.
  unfold reactors_tick.
  apply (wp_after_reactors _ _ (tick_lists last));
    [apply attempt_reacts, recover_reacts|done|]. intros a.
  apply (wp_after_reactors _ _ (tick_lists last));
    [apply attempt_reacts, reconcile_reacts|done|]. intros b.
  apply (wp_after_reactors _ _ (tick_lists last));
    [apply attempt_reacts, timers_react|done|]. intros c.
  apply (wp_after_reactors _ _ (tick_lists last));
    [apply attempt_reacts, compensate_reacts|done|]. intros d.
  apply wp_bind. eapply wp_mono, compact_tick_spaced.
  intros t [[r last']|e] Ht; [|done]. apply wp_ret. by rewrite app_nil_r.
Qed.

Lemma pass_spaced interval_s once last :
  wp (reactors_pass connectors registries o interval_s once user_tick last) (fun t r =>
    exists last', one_pass last last' (cutoffs t) /\ (forall l, r = Ok (inl l) -> l = last')).
Proof.
  unfold reactors_pass. apply wp_bind. eapply wp_mono, tick_spaced.
  intros t [[rep last']|e] Ht; [|by exists last; rewrite Ht; split; [left|]].
  cbn -[tick_dict cutoffs]. unfold sleep_or_return.
  assert (Hn : forall x t', cutoffs_of x = [] -> cutoffs t' = [] -> cutoffs (t ++ x :: t') = cutoffs t).
  { intros x t' Hx Ht'. rewrite cutoffs_app. change (cutoffs (x :: t')) with (cutoffs_of x ++ cutoffs t').
    by rewrite Hx, Ht', app_nil_r. }
  intros [[]|e]; cbn -[tick_dict cutoffs]; [|exists last'; by rewrite Hn].
  destruct once; cbn -[tick_dict cutoffs]; [exists last'; by rewrite Hn|].
  intros [[]|e]; cbn -[tick_dict cutoffs]; exists last'; (rewrite Hn; [|done..]); (split; [done|]); [by intros l [= <-]|done].
Qed.

Lemma loop_spaced turns interval_s once last :
  (0 <= o.(opt_compact_interval_s))%Q ->
  wp (forever turns (reactors_pass connectors registries o interval_s once user_tick) last)
    (fun t _ => spaced_from last (cutoffs t)).
Proof.
  intros Hi. revert last. induction turns as [|n IH]; intros last; [by exists []|].
  cbn [forever]. apply wp_bind. eapply wp_mono, pass_spaced. intros t r (last' & Hp & Hl).
  assert (Hs : forall c, spaced_from last' c -> spaced_from last (cutoffs t ++ c)).
  { intros c (nows & Hf & Hs). destruct Hp as [[-> ->]|[Hge [->|(x & -> & Hx)]]]; [by exists nows| |].
    - exists nows. split; [done|]. destruct nows as [|now nows]; [done|]. destruct Hs as [Hd Hs].
      split; [|done]. eapply Qle_trans; [exact Hd|]. unfold Qminus. apply Qplus_le_r, Qopp_le_compat.
      apply Qle_minus_iff. eapply Qle_trans; [exact Hi|exact Hge].
    - exists (last' :: nows). split; [by constructor|done]. }
  assert (Hend : spaced_from last (cutoffs t)).
  { rewrite <- (app_nil_r (cutoffs t)). apply Hs. by exists []. }
  destruct r as [[l|v]|e]; [|by apply wp_ret; rewrite app_nil_r|done].
  rewrite (Hl l eq_refl). eapply wp_mono, IH. intros t' r Ht'. rewrite cutoffs_app. by apply Hs.
Qed.

(** The compactor's cooldown.  Over any number of passes of the process, whatever its
    reactors do: the listings of compactable runs are made with the cutoffs of clock
    readings that are each at least the compaction interval after the one before, the
    first after the last compaction of the process; a pass that fails, or that could not
    even list, uses up its turn. *)
Theorem compactor_cooldown turns url interval_s once last t r :
  exec (run_reactors connectors registries turns url o interval_s once user_tick last) t r ->
  (0 <= o.(opt_compact_interval_s))%Q -> spaced_from last (cutoffs t).
Proof.
  intros He Hi. revert t r He. apply forall_exec. unfold run_reactors.
  apply wp_with_client; [by intros e; exists []|].
  eapply wp_mono, (loop_spaced turns interval_s once last Hi). intros t r Ht [[]|e]; cbn zeta.
  all: match goal with |- spaced_from _ (cutoffs (_ :: ?t' ++ ?l)) => change (spaced_from last (cutoffs (t' ++ l))) end.
  all: by rewrite cutoffs_app, app_nil_r.
Qed.
End cooldown.

(** ** The relay over its restarts *)

(** The server's journal in the order its entries appeared, the cursor file and what the
    sink was given. *)
Record RelayWorld := mkRelayWorld {
  rw_journal : list PbEvent.t; rw_file : option json; rw_sunk : list PbEvent.t
}.

(** The journal's numbers are positive and given once; an entry's number is taken before the
    entry appears, so they need not appear in order. *)
Definition numbered (j : list PbEvent.t) : Prop :=
  NoDup (PbEvent.global_seq <$> j) /\ Forall (fun e => 0 < e.(PbEvent.global_seq))%Z j.

(** An entry that appeared after one with a greater number *)
Definition overtaken (j : list PbEvent.t) (e : PbEvent.t) : Prop :=
  exists j1 j2 x, j = j1 ++ j2 /\ e ∈ j2 /\ x ∈ j1 /\ (e.(PbEvent.global_seq) <= x.(PbEvent.global_seq))%Z.
Lemma overtaken_new j new x e :
  x ∈ j -> e ∈ new -> (e.(PbEvent.global_seq) <= x.(PbEvent.global_seq))%Z -> overtaken (j ++ new) e.
Proof. intros. by exists j, new, x. Qed.
Lemma overtaken_grows j new e : overtaken j e -> overtaken (j ++ new) e.
Proof.
  intros (j1 & j2 & x & -> & He & Hx & Hle). exists j1, (j2 ++ new), x.
  split_and!; [by rewrite <- app_assoc|apply elem_of_app; by left|done..].
Qed.
Lemma ascending_not_overtaken j e : ascending j -> ~ overtaken j e.
Proof.
  intros Ha (j1 & j2 & x & -> & He & Hx & Hle).
  pose proof (StronglySorted_app_1_elem_of _ _ _ x e Ha Hx He). cbv beta in *. lia.
Qed.

Section relay_restarts.
Context `{PyText}.
Variables path run_id kind subject_pattern predicate_cel : string.
(** The server's subject pattern and predicate. *)
Variable selects : PbEvent.t -> bool.

(** One call.  The journal may grow before it; a stream is a prefix of what is selected
    past its cursor, in the order of the numbers; a publish that raised may have gone out, and a write that raised may
    have replaced the file. *)
Definition relay_call (w : RelayWorld) (c : call) : result (answer c) -> RelayWorld -> Prop :=
  match c with
  | SubscribeBySubject _ _ from => fun r w' =>
    w'.(rw_file) = w.(rw_file) /\ w'.(rw_sunk) = w.(rw_sunk) /\
    forall s, r = Ok s -> exists rest, ascending (s.1 ++ rest) /\
      s.1 ++ rest ≡ₚ List.filter (fun e => (from <? e.(PbEvent.global_seq))%Z && selects e) w'.(rw_journal)
  | ReadFile p => fun r w' =>
    w'.(rw_file) = w.(rw_file) /\ w'.(rw_sunk) = w.(rw_sunk) /\ forall d, r = Ok d -> p = path -> d = w.(rw_file)
  | WriteFile p doc => fun r w' =>
    w'.(rw_sunk) = w.(rw_sunk) /\ (p <> path -> w'.(rw_file) = w.(rw_file)) /\
    (w'.(rw_file) = Some doc \/ is_ok r = false /\ w'.(rw_file) = w.(rw_file) \/ p <> path)
  | Publish e => fun r w' =>
    w'.(rw_file) = w.(rw_file) /\
    (w'.(rw_sunk) = w.(rw_sunk) ++ [e] \/ is_ok r = false /\ w'.(rw_sunk) = w.(rw_sunk))
  | _ => fun _ w' => w'.(rw_file) = w.(rw_file) /\ w'.(rw_sunk) = w.(rw_sunk)
  end.
Definition relay_step (w : RelayWorld) (ev : event answer) (w' : RelayWorld) : Prop :=
  (exists new, w'.(rw_journal) = w.(rw_journal) ++ new) /\ numbered w'.(rw_journal) /\
  relay_call w ev.(ev_call) ev.(ev_answer) w'.

(** The entries the relay is for. *)
Definition matters (e : PbEvent.t) : bool := selects e && wanted run_id kind e.

(** The sink was given the entry, or it came late. *)
Definition covered (w : RelayWorld) (e : PbEvent.t) : Prop :=
  e ∈ w.(rw_sunk) \/ overtaken w.(rw_journal) e.
(** Every entry up to [c] is covered, and [c] is not past the journal. *)
Definition at_cursor (w : RelayWorld) (c : Z) : Prop :=
  (forall e, e ∈ w.(rw_journal) -> matters e = true -> (e.(PbEvent.global_seq) <= c)%Z -> covered w e) /\
  ((c <= 0)%Z \/ exists x, x ∈ w.(rw_journal) /\ (c <= x.(PbEvent.global_seq))%Z).

(** The cursor a file holds; a file without one, or in another format, holds 0. *)
Definition file_cursor (d : option json) : Z :=
  match d with
  | Some (JObj fields) => match dict_get "last_global_seq" fields with Some (JInt z) => z | _ => 0 end
  | _ => 0
  end.
(** A cursor is a number. *)
Definition file_ok (d : option json) : Prop :=
  forall fields v, d = Some (JObj fields) -> dict_get "last_global_seq" fields = Some v -> exists z, v = JInt z.

Record relay_inv (w : RelayWorld) : Prop := mkRelayInv {
  inv_numbered : numbered w.(rw_journal);
  inv_file : file_ok w.(rw_file);
  inv_cursor : at_cursor w (file_cursor w.(rw_file))
}.

Lemma at_cursor_low w c : numbered w.(rw_journal) -> (c <= 0)%Z -> at_cursor w c.
Proof.
  intros [_ Hp] Hc. split; [|by left]. intros e He _ Hle. rewrite Forall_forall in Hp. specialize (Hp e He). lia.
Qed.

Lemma covered_grows w w' new e :
  w'.(rw_journal) = w.(rw_journal) ++ new -> w.(rw_sunk) ⊆ w'.(rw_sunk) -> covered w e -> covered w' e.
Proof. unfold covered. intros -> Hs [He|He]; [left; by apply Hs|right; by apply overtaken_grows]. Qed.

Lemma at_cursor_grows w w' new c :
  w'.(rw_journal) = w.(rw_journal) ++ new -> numbered w'.(rw_journal) -> w.(rw_sunk) ⊆ w'.(rw_sunk) ->
  at_cursor w c -> at_cursor w' c.
Proof.
  intros Hj Hn Hs [Hall Htop]. split.
  - intros e He Hm Hle. rewrite Hj in He, Hn. apply elem_of_app in He as [He|He].
    { eapply covered_grows; [done..|]. by apply Hall. }
    destruct Htop as [Hc|(x & Hx & Hc)].
    + destruct Hn as [_ Hp]. rewrite Forall_app in Hp. destruct Hp as [_ Hp].
      rewrite Forall_forall in Hp. specialize (Hp e He). cbv beta in Hp. lia.
    + right. rewrite Hj. apply (overtaken_new _ _ x); [done..|lia].
  - destruct Htop as [Hc|(x & Hx & Hc)]; [by left|]. right. exists x. rewrite Hj. set_solver.
Qed.

(** A call that leaves the file alone keeps the invariant and every cursor. *)
Lemma quiet_step w ev w' :
  relay_step w ev w' -> w'.(rw_file) = w.(rw_file) -> w.(rw_sunk) ⊆ w'.(rw_sunk) -> relay_inv w ->
  relay_inv w' /\ forall c, at_cursor w c -> at_cursor w' c.
Proof.
  intros ((new & Hj) & Hn & _) Hf Hs [_ Hok Hc].
  assert (Hg : forall c, at_cursor w c -> at_cursor w' c) by (intros c; by eapply at_cursor_grows).
  split; [|done]. split; [done|by rewrite Hf|]. rewrite Hf. by apply Hg.
Qed.

Lemma cursor_written w w' ev c :
  relay_step w ev w' -> w'.(rw_sunk) = w.(rw_sunk) -> w'.(rw_file) = Some (cursor_doc c) ->
  at_cursor w c -> relay_inv w'.
Proof.
  intros ((new & Hj) & Hn & _) Hs Hf Hc. split; [done| |].
  - rewrite Hf. intros fields v [= <-]. cbn. intros [= <-]. by eexists.
  - rewrite Hf. cbn. eapply at_cursor_grows; [done..| |done]. by rewrite Hs.
Qed.

#[local] Abbreviation step := relay_step.
#[local] Abbreviation keeps p Q w := (survives relay_step p relay_inv Q w).

(** What is left of a stream in a pass at cursor [c]. *)
Definition streaming (w : RelayWorld) (es : list PbEvent.t) (c : Z) : Prop :=
  ascending es /\ (forall x, x ∈ es -> x ∈ w.(rw_journal)) /\
  forall e, e ∈ w.(rw_journal) -> matters e = true -> (c < e.(PbEvent.global_seq))%Z ->
    e ∈ es \/ overtaken w.(rw_journal) e \/
    forall x, x ∈ es -> (x.(PbEvent.global_seq) < e.(PbEvent.global_seq))%Z.

Lemma streaming_skips w e es c :
  streaming w (e :: es) c -> (matters e = true -> (e.(PbEvent.global_seq) <= c)%Z) -> streaming w es c.
Proof.
  intros (Ha & Hin & Hall) Hskip. apply StronglySorted_inv in Ha as [Ha _]. split_and!; [done|set_solver|].
  intros e' He' Hm Hlt. destruct (Hall e' He' Hm Hlt) as [[->|He]%elem_of_cons|[He|He]];
    [|by left|right; by left|right; right; set_solver].
  specialize (Hskip Hm). lia.
Qed.

(** The sink took [e]: everything up to [e] was given to it. *)
Lemma streaming_published w w' e (r : result (answer (Publish e))) es c :
  step w (Ev (Publish e) r) w' -> e ∈ w'.(rw_sunk) -> w.(rw_sunk) ⊆ w'.(rw_sunk) ->
  at_cursor w c -> streaming w (e :: es) c -> (c < e.(PbEvent.global_seq))%Z ->
  at_cursor w' e.(PbEvent.global_seq) /\ streaming w' es e.(PbEvent.global_seq).
Proof.
  intros ((new & Hj) & Hn & _) Hin Hsub Hc (Ha & Hes & Hall) Hlt.
  destruct (at_cursor_grows w w' new c Hj Hn Hsub Hc) as [Hbelow _].
  apply StronglySorted_inv in Ha as [Ha Hf]. rewrite List.Forall_forall in Hf.
  assert (Hej : e ∈ w.(rw_journal)) by (apply Hes; left).
  (* what appeared since: past the whole stream, or late *)
  assert (Hgt : forall e', e' ∈ w'.(rw_journal) -> e' ∈ w.(rw_journal) \/ overtaken w'.(rw_journal) e' \/
                forall x, x ∈ e :: es -> (x.(PbEvent.global_seq) < e'.(PbEvent.global_seq))%Z).
  { intros e' He'. rewrite Hj in He' |- *. apply elem_of_app in He' as [He'|He']; [by left|right].
    destruct (decide (Exists (fun x => e'.(PbEvent.global_seq) <= x.(PbEvent.global_seq))%Z (e :: es))) as [Hx|Hx].
    - left. apply Exists_exists in Hx as (x & Hx & Hle). by eapply overtaken_new; [apply Hes| |].
    - right. intros x Hx'. apply Z.nle_gt. intros Hle. apply Hx, Exists_exists. by exists x. }
  split; [split|split_and!].
  - intros e' He' Hm Hle. destruct (decide (e'.(PbEvent.global_seq) <= c)%Z) as [Hl|Hl]; [by apply Hbelow|].
    destruct (Hgt e' He') as [Hold|[Hlate|Hnew]]; [|by right|specialize (Hnew e ltac:(left)); lia].
    destruct (Hall e' Hold Hm ltac:(lia)) as [[->|He]%elem_of_cons|[He|He]]; [by left| | |].
    + apply list_elem_of_In in He. specialize (Hf e' He). cbv beta in Hf. lia.
    + right. rewrite Hj. by apply overtaken_grows.
    + specialize (He e ltac:(left)). lia.
  - right. exists e. rewrite Hj. split; [set_solver|lia].
  - done.
  - intros x Hx. rewrite Hj. apply elem_of_app. left. apply Hes. by right.
  - intros e' He' Hm Hle. destruct (Hgt e' He') as [Hold|[Hlate|Hnew]].
    + destruct (Hall e' Hold Hm ltac:(lia)) as [[->|He]%elem_of_cons|[He|He]]; [lia|by left| |].
      * right. left. rewrite Hj. by apply overtaken_grows.
      * right. right. set_solver.
    + right. by left.
    + right. right. set_solver.
Qed.

Lemma entries_keep limit es ending c n w :
  relay_inv w -> at_cursor w c -> streaming w es c ->
  keeps (relay_entries run_id kind limit es ending c n)
    (fun o w' => relay_inv w' /\ forall l m r, o = Ok (l, m, r) -> at_cursor w' l) w.
Proof.
  revert c n w. induction es as [|e es IH]; intros c n w Hinv Hc Hs; cbn [relay_entries].
  { cbn. split; [done|]. by intros l m r [= <- _ _]. }
  case_decide as Hle; [apply IH; [done..|]; eapply streaming_skips; [exact Hs|done]|].
  destruct (negb (wanted run_id kind e)) eqn:Hw.
  { apply IH; [done..|]. eapply streaming_skips; [exact Hs|]. unfold matters. apply negb_true_iff in Hw.
    by rewrite Hw, andb_false_r. }
  apply survives_bind, survives_try, survives_bind. intros r w' Hstep.
  pose proof Hstep as (_ & _ & Hf & Hsunk). cbn in Hf, Hsunk.
  assert (Hsub : w.(rw_sunk) ⊆ w'.(rw_sunk)) by (destruct Hsunk as [->|[_ ->]]; [apply list_subseteq_app_l|]; done).
  destruct (quiet_step w _ w' Hstep Hf Hsub Hinv) as [Hinv' Hcs]. split; [done|].
  destruct r as [[]|ex]; cbn; [|by split; [|intros l m r [= <- _ _]; apply Hcs]].
  destruct Hsunk as [Hsunk|[? _]]; [|done].
  assert (Hin : e ∈ w'.(rw_sunk)) by (rewrite Hsunk; apply elem_of_app; right; left).
  assert (Hlt : (c < e.(PbEvent.global_seq))%Z) by lia.
  destruct (streaming_published w w' e _ es c Hstep Hin Hsub Hc Hs Hlt) as [Hc' Hs'].
  case_decide; [|by apply IH]. cbn. split; [done|]. by intros l m r [= <- _ _].
Qed.

(** A stream that answers a subscription at [c]. *)
Lemma stream_starts w es rest c :
  ascending (es ++ rest) ->
  es ++ rest ≡ₚ List.filter (fun e => (c <? e.(PbEvent.global_seq))%Z && selects e) w.(rw_journal) ->
  streaming w es c.
Proof.
  intros Hsort Hes.
  assert (Hmem : forall x, x ∈ es ++ rest <-> x ∈ w.(rw_journal) /\ (c < x.(PbEvent.global_seq))%Z /\ selects x = true).
  { intros x. rewrite Hes, !list_elem_of_In, List.filter_In, andb_true_iff, Z.ltb_lt. tauto. }
  split_and!.
  - by eapply StronglySorted_app_1_l.
  - intros x Hx. apply Hmem, elem_of_app. by left.
  - intros e He Hm Hlt. apply andb_true_iff in Hm as [Hsel _].
    destruct (proj1 (elem_of_app _ _ _) (proj2 (Hmem e) (conj He (conj Hlt Hsel)))) as [Hin|Hin]; [by left|].
    right. right. intros x Hx. exact (StronglySorted_app_1_elem_of _ _ _ x e Hsort Hx Hin).
Qed.

Lemma write_keeps c w :
  relay_inv w -> at_cursor w c -> keeps (write_cursor path c) (fun _ => relay_inv) w.
Proof.
  intros Hinv Hc. unfold write_cursor. case_decide as Hp; [done|].
  intros r w' Hstep. pose proof Hstep as (_ & _ & Hsunk & _ & Hf).
  assert (Hk : relay_inv w').
  { destruct Hf as [Hf|[[_ Hf]|?]]; [|eapply quiet_step; [exact Hstep|done|by rewrite Hsunk|done]|done].
    by eapply cursor_written. }
  destruct r; done.
Qed.

Lemma pass_keeps limit c w :
  relay_inv w -> at_cursor w c ->
  keeps (relay_from path run_id kind subject_pattern predicate_cel limit c) (fun _ => relay_inv) w.
Proof.
  intros Hinv Hc. unfold relay_from. apply survives_bind. intros r w' Hstep.
  pose proof Hstep as (_ & _ & Hf & Hsunk & Hs).
  destruct (quiet_step w _ w' Hstep Hf ltac:(by rewrite Hsunk) Hinv) as [Hinv' Hcs]. split; [done|].
  destruct r as [[es ending]|ex]; cbn; [|done]. destruct (Hs _ eq_refl) as (rest & Hasc & Hes).
  apply survives_bind. eapply survives_mono; [|apply entries_keep; [done|by apply Hcs|by eapply stream_starts]].
  intros [[[l n] raised]|ex] w2 [Hinv2 Hl]; [|done]. specialize (Hl _ _ _ eq_refl).
  apply survives_bind. destruct raised as [ex|]; [destruct (decide _); [|done]|]; apply survives_bind.
  all: case_decide; [done|]; eapply survives_mono; [|by apply write_keeps].
  all: by intros [[]|e'] w3 Hw.
Qed.

(** A reset writes the cursor 0, which every world is past. *)
Lemma reset_keeps w : relay_inv w ->
  keeps (write_cursor path 0) (fun _ => relay_inv) w.
Proof. intros Hinv. apply write_keeps; [done|]. apply at_cursor_low; [by destruct Hinv|done]. Qed.

Lemma migrate_keeps d w : relay_inv w ->
  keeps (migrate_cursor path d) (fun o w' => relay_inv w' /\ forall c, o = Ok c -> at_cursor w' c) w.
Proof.
  intros Hinv. unfold migrate_cursor.
  assert (Hz : forall w, relay_inv w -> relay_inv w /\ forall c, Ok 0%Z = Ok c -> at_cursor w c).
  { intros w1 H1. split; [done|]. intros c [= <-]. apply at_cursor_low; [by destruct H1|done]. }
  do 3 (apply survives_bind, survives_lift; case_match; [|done]).
  case_match; [|by apply Hz]. case_match; try done.
  apply survives_bind. eapply survives_mono; [|by apply reset_keeps]. intros [[]|ex] w' Hw; [by apply Hz|done].
Qed.

Lemma read_keeps w : relay_inv w ->
  keeps (read_cursor path) (fun o w' => relay_inv w' /\ forall c, o = Ok c -> at_cursor w' c) w.
Proof.
  intros Hinv. unfold read_cursor.
  assert (Hz : forall w, relay_inv w -> relay_inv w /\ forall c, Ok 0%Z = Ok c -> at_cursor w c).
  { intros w1 H1. split; [done|]. intros c [= <-]. apply at_cursor_low; [by destruct H1|done]. }
  case_decide as Hp; [by apply Hz|].
  apply survives_bind, survives_try. intros r w' Hstep. pose proof Hstep as (_ & _ & Hf & Hsunk & Hd).
  destruct (quiet_step w _ w' Hstep Hf ltac:(by rewrite Hsunk) Hinv) as [Hinv' Hcs]. split; [done|].
  destruct r as [[d|]|ex]; cbn -[cursor_of]; [|by apply Hz..].
  specialize (Hd _ eq_refl eq_refl). unfold cursor_of. apply survives_bind, survives_lift.
  destruct (json_in "last_global_seq" d) as [[]|ex] eqn:Hin; [|by apply migrate_keeps|done].
  destruct d as [| | | | | |fields]; try by apply Hz.
  cbn in Hin. injection Hin as Hin. apply bool_decide_eq_true in Hin as [v Hv]. rewrite Hv. cbn.
  destruct (inv_file w Hinv fields v ltac:(by rewrite <- Hd) Hv) as [z ->]. cbn.
  split; [done|]. intros c [= <-]. apply Hcs.
  pose proof (inv_cursor w Hinv) as Hc. rewrite <- Hd in Hc. cbn in Hc. by rewrite Hv in Hc.
Qed.

(** A call that touches neither the file nor the sink. *)
Definition unchanged (c : call) : Prop :=
  forall w r w', relay_call w c r w' -> w'.(rw_file) = w.(rw_file) /\ w'.(rw_sunk) = w.(rw_sunk).
Definition of_process (c : call) : Prop :=
  match c with OpenClient _ | CloseClient | CloseSink | Sleep _ | PrintErr _ => True | _ => False end.
Lemma quiet_unchanged c : of_process c -> unchanged c.
Proof. destruct c; (done || by intros []) || (intros _ w r w' Hc; exact Hc). Qed.

Lemma other_keeps (c : call) w : unchanged c -> relay_inv w -> keeps (invoke c) (fun _ => relay_inv) w.
Proof.
  intros Hc Hinv r w' Hstep. pose proof Hstep as (_ & _ & Hcall). apply Hc in Hcall as [Hf Hs].
  destruct (quiet_step w _ w' Hstep Hf ltac:(by rewrite Hs) Hinv) as [Hinv' _]. split; [done|]. by destruct r.
Qed.

Lemma relay_tick_keeps limit w : relay_inv w ->
  keeps (outbox_relay_tick path run_id kind subject_pattern predicate_cel limit) (fun _ => relay_inv) w.
Proof.
  intros Hinv. unfold outbox_relay_tick. apply survives_bind. eapply survives_mono; [|by apply read_keeps].
  intros [c|ex] w' [Hw Hc]; [|done]. apply pass_keeps; [done|by apply Hc].
Qed.

Lemma relay_pass_keeps interval_s once u w : relay_inv w ->
  keeps (relay_pass path run_id kind subject_pattern predicate_cel interval_s once u) (fun _ => relay_inv) w.
Proof.
  intros Hinv. unfold relay_pass, sleep_or_return.
  assert (Hend : forall w, relay_inv w -> keeps (if once then mret (inr tt)
     else _ ← (invoke (Sleep interval_s) : P unit); mret (inl tt) : P (unit + unit)) (fun _ => relay_inv) w).
  { intros w1 H1. destruct once; [done|]. apply survives_bind.
    eapply survives_mono; [|exact (other_keeps (Sleep interval_s) w1 (quiet_unchanged (Sleep interval_s) I) H1)].
    by intros [[]|ex] w2 H2. }
  apply survives_bind, survives_try, survives_bind.
  eapply survives_mono; [|by apply relay_tick_keeps]. intros [n|ex] w' Hw; [by apply Hend|].
  eapply survives_mono; [|exact (other_keeps (PrintErr _) w' (quiet_unchanged (PrintErr _) I) Hw)]. intros [[]|e2] w2 H2; [by apply Hend|done].
Qed.

Lemma loop_keeps turns interval_s once w : relay_inv w ->
  keeps (forever turns (relay_pass path run_id kind subject_pattern predicate_cel interval_s once) tt)
    (fun _ => relay_inv) w.
Proof.
  revert w. induction turns as [|n IH]; intros w Hinv; [done|]. cbn [forever]. apply survives_bind.
  eapply survives_mono; [|by apply relay_pass_keeps]. intros [[[]|v]|ex] w' Hw; [by apply IH|done..].
Qed.

Lemma relay_process_keeps turns url interval_s once w : relay_inv w ->
  keeps (run_outbox_relay turns url path run_id kind subject_pattern predicate_cel interval_s once)
    (fun _ => relay_inv) w.
Proof.
  intros Hinv. unfold run_outbox_relay, finally_.
  apply survives_bind. eapply survives_mono; [|exact (other_keeps (OpenClient url) w (quiet_unchanged (OpenClient url) I) Hinv)].
  intros [[]|ex] w1 H1; [|done].
  apply survives_bind, survives_caught. eapply survives_mono; [|by apply loop_keeps].
  intros o w2 H2. apply survives_bind, survives_bind.
  eapply survives_mono; [|exact (other_keeps CloseClient w2 (quiet_unchanged CloseClient I) H2)].
  intros [[]|ex] w3 H3; [|done]. apply survives_try.
  eapply survives_mono; [|exact (other_keeps CloseSink w3 (quiet_unchanged CloseSink I) H3)].
  intros [[]|ex] w4 H4; cbn; by destruct o.
Qed.

(** A relay process killed anywhere: it ran to [w'] and the rest of its trace did not happen. *)
Definition relay_killed (w w' : RelayWorld) : Prop :=
  exists turns url interval_s once t tail o,
    exec (run_outbox_relay turns url path run_id kind subject_pattern predicate_cel interval_s once) (t ++ tail) o /\
    world_steps relay_step w t w'.

(** Between the processes the journal may grow. *)
Definition journal_grows (w w' : RelayWorld) : Prop :=
  (exists new, w'.(rw_journal) = w.(rw_journal) ++ new) /\ numbered w'.(rw_journal) /\
  w'.(rw_file) = w.(rw_file) /\ w'.(rw_sunk) = w.(rw_sunk).

Inductive relay_history : RelayWorld -> RelayWorld -> Prop :=
  | history_nil w : relay_history w w
  | history_grows w w1 w2 : journal_grows w w1 -> relay_history w1 w2 -> relay_history w w2
  | history_relay w w1 w2 : relay_killed w w1 -> relay_history w1 w2 -> relay_history w w2.

Lemma history_keeps w w' : relay_history w w' -> relay_inv w -> relay_inv w'.
Proof.
  induction 1 as [w|w w1 w2 Hg _ IH|w w1 w2 Hk _ IH]; intros Hinv; [done| |]; apply IH.
  - destruct Hg as ((new & Hj) & Hn & Hf & Hs). destruct Hinv as [_ Hok Hc]. split; [done|by rewrite Hf|].
    rewrite Hf. eapply at_cursor_grows; [done..|by rewrite Hs|done].
  - destruct Hk as (turns & url & interval_s & once & t & tail & o & He & Ht).
    refine (proj1 (survives_prefix relay_step _ relay_inv (fun _ => relay_inv) w t tail o w1 _ Hinv He Ht)).
    by apply relay_process_keeps.
Qed.

(** C33: The relay loses only what comes late.  A sink's relay is started over one cursor file
    that did not exist, any number of times, each process running any number of passes and
    killed anywhere, its calls failing at will, while the journal keeps growing, in any
    order of the numbers: at every moment, whatever entry of the journal the sink is for and
    the cursor on file is past, the sink was given, unless the entry appeared in the journal
    only after one with a greater number. *)
Theorem relay_loses_nothing w w' e :
  relay_history w w' -> numbered w.(rw_journal) -> w.(rw_file) = None ->
  e ∈ w'.(rw_journal) -> matters e = true -> (e.(PbEvent.global_seq) <= file_cursor w'.(rw_file))%Z ->
  e ∈ w'.(rw_sunk) \/ overtaken w'.(rw_journal) e.
Proof.
  intros Hh Hn Hf. assert (Hinv : relay_inv w).
  { split; [done|by rewrite Hf|]. rewrite Hf. by apply at_cursor_low. }
  destruct (history_keeps w w' Hh Hinv) as [_ _ [Hall _]]. apply Hall.
Qed.

(** A surrounding that answers everything, over a journal that stands still. *)
Definition serve_relay (c : call) : M RelayWorld (answer c) := fun w =>
  match c return result (answer c) * RelayWorld with
  | SubscribeBySubject _ _ from =>
    (Ok (List.filter (fun e => (from <? e.(PbEvent.global_seq))%Z && selects e) w.(rw_journal), None), w)
  | ReadFile p => (if decide (p = path) then Ok w.(rw_file) else Err TypeError, w)
  | WriteFile p doc => if decide (p = path) then (Ok tt, mkRelayWorld w.(rw_journal) (Some doc) w.(rw_sunk)) else (Ok tt, w)
  | Publish e => (Ok tt, mkRelayWorld w.(rw_journal) w.(rw_file) (w.(rw_sunk) ++ [e]))
  | OpenClient _ | CloseClient | CloseSink | Sleep _ => (Ok tt, w)
  | _ => (Err TypeError, w)
  end.

Lemma ascending_filter (f : PbEvent.t -> bool) j : ascending j -> ascending (List.filter f j).
Proof.
  induction 1 as [|e j Ha IH Hf]; [constructor|]. cbn. case_match; [|done]. constructor; [done|].
  apply List.Forall_forall. intros x [Hx _]%List.filter_In. rewrite List.Forall_forall in Hf. by apply Hf.
Qed.
Lemma served_steps {A} (p : P A) w :
  ascending w.(rw_journal) -> numbered w.(rw_journal) -> world_steps relay_step w (trace serve_relay p w) (run serve_relay p w).2.
Proof.
  revert w. induction p as [a|ex|c k IH]; intros w Ha Hn; cbn; [constructor..|].
  assert (Hc : relay_call w c (serve_relay c w).1 (serve_relay c w).2 /\
    (serve_relay c w).2.(rw_journal) = w.(rw_journal)).
  { destruct c; cbn; try done; repeat case_decide; cbn; split_and!; try done; try (by left); try (by right; right).
    - intros s [= <-]. exists []. cbn. rewrite app_nil_r. split; [by apply ascending_filter|done].
    - by intros d [= <-]. }
  destruct (serve_relay c w) as [r w1] eqn:Hs. cbn in Hc. destruct Hc as [Hc Hj].
  econstructor; [|by apply IH; rewrite Hj].
  split_and!; [exists []; by rewrite app_nil_r|by rewrite Hj|exact Hc].
Qed.
End relay_restarts.

(** ** A quiet server keeps the event-driven drain awake *)

Section quiet_server.
Context `{PyText}.
Variable registries : Registries.
Variable compensator_id : string.
(** The obligation events of the journal. *)
Variable log : list PbEvent.t.

(** The server streams the events at or after the cursor, the boundary included, and the
    window ends by its deadline. *)
Definition quiet_answer (ev : event answer) : Prop :=
  let 'Ev c r := ev in
  match c return result (answer c) -> Prop with
  | SubscribeEvents from _ _ _ _ => fun r =>
    exists ending, r = Ok (List.filter (fun e => from <=? e.(PbEvent.ts_ms))%Z log, ending)
  | _ => fun _ => True
  end r.

(** The times the queue was listed to be drained. *)
Definition drains_of (ev : event answer) : nat :=
  match ev.(ev_call) with ListUnresolvedObligations _ _ _ _ _ => 1 | _ => 0 end.
Definition drains (t : list (event answer)) : nat := sum_list (map drains_of t).

Definition newest (from : Z) (es : list PbEvent.t) : Z := foldl (fun m e => Z.max m e.(PbEvent.ts_ms)) from es.
Definition since (from : Z) : list PbEvent.t := List.filter (fun e => from <=? e.(PbEvent.ts_ms))%Z log.

Lemma drains_app t t' : drains (t ++ t') = drains t + drains t'.
Proof. unfold drains. by rewrite map_app, sum_list_with_app. Qed.

Lemma newest_spec from es :
  (from <= newest from es)%Z /\
  (newest from es = from \/ exists e, e ∈ es /\ e.(PbEvent.ts_ms) = newest from es).
Proof.
  revert from. induction es as [|e es IH]; intros from; [by split; [|left]|].
  change (newest from (e :: es)) with (newest (Z.max from e.(PbEvent.ts_ms)) es).
  destruct (IH (Z.max from e.(PbEvent.ts_ms))) as [Hle Hin]. split; [lia|].
  destruct Hin as [->|(x & Hx & Hm)]; [|right; exists x; split; [by right|done]].
  destruct (decide (e.(PbEvent.ts_ms) <= from)%Z); [left; lia|right].
  exists e. split; [left|lia].
Qed.

Lemma since_elem e from : e ∈ since from <-> e ∈ log /\ (from <= e.(PbEvent.ts_ms))%Z.
Proof. unfold since. by rewrite !list_elem_of_In, List.filter_In, Z.leb_le. Qed.

(** The boundary of a window that saw events is an event of the next window. *)
Lemma boundary_again from : since from <> [] -> since (newest from (since from)) <> [].
Proof.
  intros Hne. destruct (newest_spec from (since from)) as [Hle [Heq|(e & He & Heq)]]; [by rewrite Heq|].
  intros Hnil. apply since_elem in He as [He _].
  assert (Hin : e ∈ since (newest from (since from))) by (apply since_elem; split; [done|lia]).
  rewrite Hnil in Hin. by apply elem_of_nil in Hin.
Qed.

Definition not_listing (c : call) : Prop :=
  match c with ListUnresolvedObligations _ _ _ _ _ => False | _ => True end.
Lemma no_drains t : calls not_listing t -> drains t = 0.
Proof. induction 1 as [|[[] r] t Hev _ IH]; cbn in *; try done; by destruct Hev. Qed.

Definition user_event : option (json -> P unit) := Some (fun v => invoke (OnEvent v) : P unit).

Lemma drain_lists claimer :
  wp (drain_and_report registries compensator_id claimer user_event)
    (fun t _ => drains t = 1).
Proof.
  unfold drain_and_report, compensate_once. apply wp_bind, wp_bind. unfold rpc_list_unresolved_obligations.
  intros [rows|e]; [|done]. cbn [lift wp].
  assert (Hn : wp (each rows (fun ob => r ← compensate_one registries (str_or claimer compensator_id) ob;
      mret (ob.(PbObligation.run_id), ob.(PbObligation.seq), r))) (fun t _ => calls not_listing t)).
  { unfold compensate_one, resolve_compensator, mark_stuck, run_inverse, report_failure, report_success. reacts. }
  eapply wp_mono, Hn. intros t [out|e] Ht; [|by change (S (drains t) = 1); rewrite no_drains].
  apply wp_mono with (P := fun t' _ => calls not_listing t').
  - intros t' o Ht'. change (S (drains (t ++ t')) = 1). by rewrite drains_app, !no_drains.
  - apply wp_bind_closed; [apply _| |intros ?; apply wp_ret_closed; apply _].
    apply wp_each_closed; [apply _|]. intros r _. unfold call_back, user_event. reacts.
Qed.

(** The loop over a window: the cursor after it, when no callback raised. *)
Lemma entries_newest es ending from saw :
  wp (window_entries user_event es ending from saw) (fun t o =>
    calls not_listing t /\
    forall from' saw' raised, o = Ok (from', saw', raised) ->
      (from' = newest from es /\ saw' = (saw || negb (bool_decide (es = []))) /\ raised = ending) \/
      exists e v, Ev (OnEvent v) (Err e) ∈ t).
Proof.
  revert from saw. induction es as [|e es IH]; intros from saw; cbn [window_entries].
  { apply wp_ret. split; [constructor|]. intros ? ? ? [= <- <- <-]. left. cbn. by rewrite orb_false_r. }
  unfold caught. apply wp_bind, wp_try, wp_bind. intros [[]|ex]; cbn.
  - eapply wp_mono, IH. intros t o (Ht & Ho). split; [by constructor|].
    intros from' saw' raised Heq. destruct (Ho _ _ _ Heq) as [(-> & -> & ->)|(x & v & Hx)].
    + left. by rewrite orb_true_r.
    + right. exists x, v. by right.
  - split; [by repeat constructor|]. intros ? ? ? [= <- <- <-]. right. exists ex, (event_dict e). left.
Qed.


(** Every callback returns, besides. *)
Definition quiet_event (ev : event answer) : Prop :=
  quiet_answer ev /\
  let 'Ev c r := ev in
  match c return result (answer c) -> Prop with OnEvent _ => fun r => r = Ok tt | _ => fun _ => True end r.

(** One window from [from]: it drains when it saw events, and leaves the cursor at the
    newest of them. *)
Lemma pass_drains claimer from :
  wp (event_pass registries compensator_id claimer user_event from) (fun t o =>
    Forall quiet_event t -> forall r, o = Ok r ->
      r = inl (newest from (since from)) /\ drains t = if bool_decide (since from = []) then 0 else 1).
Proof.
  unfold event_pass. apply wp_bind. intros [[es ending]|e]; cbn [lift wp]; [|done].
  apply wp_bind. eapply wp_mono, entries_newest.
  intros t [[[from' saw] raised]|e] (Ht & Ho); [|done].
  assert (Hkey : forall t', Forall quiet_event ([Ev (SubscribeEvents from "" "obligation" 0 "") (Ok (es, ending))] ++ t ++ t') ->
    es = since from /\ from' = newest from (since from) /\ saw = negb (bool_decide (since from = []))).
  { intros t' Hq. apply Forall_app in Hq as [Hs Hq]. apply Forall_app in Hq as [Hq _].
    apply Forall_cons in Hs as [[(ending' & Hs) _] _]. injection Hs as Hs _. change (es = since from) in Hs.
    destruct (Ho _ _ _ eq_refl) as [(-> & -> & _)|(x & v & Hx)]; cbn [fst] in *; [by subst|].
    rewrite Forall_forall in Hq. destruct (Hq _ Hx) as [_ Hbad]. done. }
  apply wp_bind. unfold window_over.
  assert (Hrest : wp (_ ← (if saw then drain_and_report registries compensator_id claimer user_event else mret tt);
     mret (inl from')) (fun t' (o : result (Z + Empty_set)) => Forall quiet_event
       ([Ev (SubscribeEvents from "" "obligation" 0 "") (Ok (es, ending))] ++ t ++ t') -> forall r, o = Ok r ->
       r = inl (newest from (since from)) /\
       drains (t ++ t') = if bool_decide (since from = []) then 0 else 1)).
  { apply wp_bind. destruct saw.
    - eapply wp_mono, drain_lists. intros t' [[]|e] Hd; [|done]. apply wp_ret. rewrite app_nil_r.
      intros Hq r [= <-]. destruct (Hkey t' Hq) as (_ & -> & Hsaw).
      rewrite drains_app, no_drains, Hd by done. by destruct (bool_decide _).
    - do 2 apply wp_ret. cbn. intros Hq r [= <-]. destruct (Hkey [] Hq) as (_ & -> & Hsaw).
      rewrite app_nil_r, no_drains by done. by destruct (bool_decide _). }
  destruct raised as [e|]; [destruct (decide _)|]; [exact Hrest|done|exact Hrest].
Qed.

Lemma loop_drains claimer turns from :
  wp (forever turns (event_pass registries compensator_id claimer user_event) from) (fun t o =>
    Forall quiet_event t -> o = Ok None -> drains t = if bool_decide (since from = []) then 0 else turns).
Proof.
  revert from. induction turns as [|n IH]; intros from; [intros _ _; cbn; by case_match|].
  cbn [forever]. apply wp_bind. eapply wp_mono, pass_drains. intros t [r|e] Hp; [|done].
  destruct r as [from'|[]]. eapply wp_mono, IH. intros t' o Ho Hq Heq. apply Forall_app in Hq as [Hq1 Hq2].
  destruct (Hp Hq1 _ eq_refl) as [[= ->] Hd]. rewrite drains_app, Hd, (Ho Hq2 Heq).
  destruct (bool_decide_reflect (since from = [])) as [Hnil|Hne].
  - rewrite bool_decide_true; [done|]. by rewrite Hnil.
  - rewrite bool_decide_false; [done|]. by apply boundary_again.
Qed.

(** The event-driven drain on a server where nothing happens any more.  When no event is at
    or after the cursor it starts from, no window drains; when one is, every window drains,
    for ever: the stream is read from the newest event on and so delivers it again. *)
Theorem quiet_server_keeps_draining claimer turns url from t r :
  exec (run_compensations_event_driven registries compensator_id turns url claimer from false user_event) t r ->
  Forall quiet_event t -> r = Ok None ->
  drains t = if bool_decide (since from = []) then 0 else turns.
Proof.
  intros He. refine (wp_exec _ (fun t r => Forall quiet_event t -> r = Ok None ->
    drains t = if bool_decide (since from = []) then 0 else turns) t r _ He). clear He t r.
  unfold run_compensations_event_driven. apply wp_with_client; [done|].
  apply wp_bind. cbn [wp mret prog_ret]. eapply wp_mono, loop_drains.
  intros t o Ho [[]|e]; cbn zeta; intros Hq Heq; [|done]. 
  inversion Hq as [|? ? _ Hq']; subst. apply Forall_app in Hq' as [Hq' _].
  change (drains (t ++ [Ev CloseClient (Ok tt)]) = if bool_decide (since from = []) then 0 else turns).
  rewrite drains_app, Nat.add_0_r. by apply Ho.
Qed.
End quiet_server.

(** ** Witnesses *)

(** A server without work, with a clock that advances 200 seconds at every reading. *)
Definition idle_world (c : call) : M Z (answer c) := fun w =>
  match c return result (answer c) * Z with
  | Time => (Ok (inject_Z w), (w + 200)%Z)
  | ListRunsToRecover _ _ | ListCompactableRuns _ _ => (Ok [], w)
  | ListPendingEffects _ _ _ _ => (Ok [], w)
  | ListDueTimers _ _ _ => (Err (RpcError "UNAVAILABLE"), w)
  | ListUnresolvedObligations _ _ _ _ _ => (Ok [], w)
  | OpenClient _ | CloseClient | OnTick _ | OnEvent _ | Sleep _ => (Ok tt, w)
  | SubscribeEvents _ _ _ _ _ => (Ok ([PbEvent.mk "run-1" 1 "obligation" "" 50 1 ""], Some (RpcError "DEADLINE_EXCEEDED")), w)
  | _ => (Err TypeError, w)
  end.

Definition compacting_options : Options :=
  mkOptions false false false false false false true 86400 300 0 "me".
Definition compacting_process : P (option unit) :=
  @run_reactors sample_text sample_connectors sample_registries 4 "tape://h" compacting_options 2 false user_tick 0.
(** The compactor is on, and its listing fails at every turn. *)
Definition failing_world (c : call) : M Z (answer c) := fun w =>
  match c return result (answer c) * Z with
  | ListCompactableRuns _ _ => (Err (RpcError "UNAVAILABLE"), w)
  | c => idle_world c w
  end.
Lemma reactors_keep_ticking_witness :
  ends_closed (trace failing_world compacting_process 100000%Z) /\
  length (ticks (trace failing_world compacting_process 100000%Z)) = 4 /\ (false = true -> 4 = 0).
Proof.
  exact (@reactors_keep_ticking sample_text sample_connectors sample_registries 4 "tape://h" compacting_options 2 false 0
    _ _ (run_exec failing_world compacting_process 100000%Z)).
Defined.

(** The clock reads 100000, 100200, 100400 and 100600 seconds; only two passes list. *)
Lemma compactor_cooldown_witness :
  cutoffs (trace idle_world compacting_process 100000%Z) = [13600000; 14000000]%Z /\
  spaced_from compacting_options 0 (cutoffs (trace idle_world compacting_process 100000%Z)).
Proof.
  split; [reflexivity|].
  refine (@compactor_cooldown sample_text sample_connectors sample_registries compacting_options 4 "tape://h" 2 false 0
    _ _ (run_exec idle_world compacting_process 100000%Z) _). discriminate.
Defined.

Definition all_events (e : PbEvent.t) : bool := true.
Definition fresh_relay : RelayWorld := mkRelayWorld journal None [].
Definition relay_process : P (option unit) :=
  @run_outbox_relay sample_text 1 "tape://h" "cursor.json" "" "effect" "" "" 1 true.
(** The process is killed when it has published both effects and written its cursor. *)
Definition relayed_world : RelayWorld := (run (serve_relay "cursor.json" all_events) relay_process fresh_relay).2.
Lemma relay_loses_nothing_witness :
  file_cursor relayed_world.(rw_file) = 5%Z /\
  (entry 5 "effect" ∈ relayed_world.(rw_sunk) \/ overtaken relayed_world.(rw_journal) (entry 5 "effect")).
Proof.
  split; [reflexivity|].
  assert (Hn : numbered journal) by (split; [apply (bool_decide_unpack _); vm_compute; exact I|repeat constructor]).
  refine (@relay_loses_nothing sample_text "cursor.json" "" "effect" "" "" all_events fresh_relay relayed_world
    (entry 5 "effect") _ Hn eq_refl _ eq_refl _).
  - eapply history_relay; [|apply history_nil].
    exists 1, "tape://h", 1%Q, true, (trace (serve_relay "cursor.json" all_events) relay_process fresh_relay), [], (Ok (Some tt)).
    split; [rewrite app_nil_r; exact (run_exec (serve_relay "cursor.json" all_events) relay_process fresh_relay)|].
    apply served_steps; [repeat constructor|done].
  - right. right. left.
  - done.
Defined.

(** An entry whose number was taken before, and which appears after, that of one the relay
    already passed is never published. *)
Definition after_late : RelayWorld :=
  mkRelayWorld (journal ++ [entry 4 "effect"]) relayed_world.(rw_file) relayed_world.(rw_sunk).
Lemma late_entry_is_never_published :
  let w := snd (run (serve_relay "cursor.json" all_events) relay_process after_late) in
  overtaken w.(rw_journal) (entry 4 "effect") /\ (entry 4 "effect" ∉ w.(rw_sunk)) /\ file_cursor w.(rw_file) = 5%Z.
Proof.
  split_and!.
  - exists journal, [entry 4 "effect"], (entry 5 "effect"). split_and!; [vm_compute; reflexivity|left|right; right; left|done].
  - intros Hin. vm_compute in Hin. repeat (apply elem_of_cons in Hin as [Hin|Hin]; [discriminate|]). by apply elem_of_nil in Hin.
  - vm_compute. reflexivity.
Qed.

Definition listening_process : P (option Empty_set) :=
  @run_compensations_event_driven sample_text sample_registries "me" 3 "tape://h" "" 0 false user_event.
Lemma quiet_server_keeps_draining_witness :
  drains (trace idle_world listening_process 0%Z) = 3.
Proof.
  refine (@quiet_server_keeps_draining sample_text sample_registries "me" [PbEvent.mk "run-1" 1 "obligation" "" 50 1 ""]
    "" 3 "tape://h" 0 _ _ (run_exec idle_world listening_process 0%Z) _ eq_refl).
  repeat first [apply Forall_nil | apply Forall_cons; split]; split; cbn; try done; by eexists.
Defined.
