(* ===== verification/SdkEntry.v ===== *)
(** * SdkEntry: where the SDK is entered

    The command lines of the two reactor processes ([tape/reactors/__init__.py],
    [tape/reactors/outbox.py]) over their parsed arguments, the functions of the package
    itself ([tape/__init__.py]), what a tool body reads off its context and what the plugin
    reads off a tool ([tape/effect.py]), the zero-touch launcher ([tape/_launcher.py]) and
    the structured log ([tape/obs.py]). *)
From Stdlib Require Import Ascii QArith Sorting.Permutation.
From S2P Require Import Prelude Scenarios ScenarioTheorems Contracts Client Recover SdkReactors SdkOutbox.
From S2P Require Import SdkSamples SdkLoops.
#[local] Open Scope Z_scope.
#[local] Open Scope nat_scope.

(** ** The parsed arguments *)

Module ReactorArgs.
Record t := mk {
  url : string; runner_from : string;
  no_recover : bool; no_reconcile : bool; no_timers : bool; no_compensations : bool;
  compact : bool; compact_hot_window_s : Q; compact_interval_s : Q;
  reconcile_pending_after : Q; interval : Q; claimer : string;
  once : bool; compensations_only : bool; load : list string
}.
End ReactorArgs.

Module OutboxArgs.
Record t := mk {
  url : string; connector : string; interval : Q; max_attempts : Z; claimer : string;
  load : list string; once : bool
}.
End OutboxArgs.

Section entry.
Context `{PyText}.
Variable connectors : list (string * Conn).
Variable registries : Registries.
Variables compensator_id claimer_id : string.

(** ** [python -m tape.reactors] *)

(** One [--load]: a module that cannot be imported is a line on stderr. *)
Definition load_spec (spec : string) : P unit :=
  try_ (_ ← (invoke (ImportModule (before_char ":"%char spec)) : P pyobj); mret tt)
       (fun ex => invoke (PrintErr ("[tape] --load " +:+ spec +:+ ": " +:+ str_exn ex)) : P unit).

(** [--runner-from]: whether it gives a runner; a factory may answer [None]. *)
Definition resolve_runner (spec : string) : P bool :=
  if decide (spec = "") then mret false
  else
    m ← (invoke (ImportModule (before_char ":"%char spec)) : P pyobj);
    let 'PyObj _ attrs := m in
    match dict_get (str_or (after_char ":"%char spec) "runner") attrs with
    | None => Throw AttributeError
    | Some (PyObj (Some fn) _) => invoke (Factory fn)
    | Some (PyObj None _) => mret true
    end.

(** [print(json.dumps(.., default=str))] *)
Definition print_json (v : json) : P unit := invoke (PrintOut (dumps v)).

Definition reactor_options (a : ReactorArgs.t) (runner : bool) : Options :=
  mkOptions runner false (negb a.(ReactorArgs.no_recover)) (negb a.(ReactorArgs.no_reconcile))
    (negb a.(ReactorArgs.no_timers)) (negb a.(ReactorArgs.no_compensations)) a.(ReactorArgs.compact)
    a.(ReactorArgs.compact_hot_window_s) a.(ReactorArgs.compact_interval_s)
    a.(ReactorArgs.reconcile_pending_after) a.(ReactorArgs.claimer).

(** [_main]: [None] is a process still running. *)
Definition reactors_main (turns : nat) (a : ReactorArgs.t) : P (option Z) :=
  _ ← each a.(ReactorArgs.load) load_spec;
  runner ← resolve_runner a.(ReactorArgs.runner_from);
  if a.(ReactorArgs.compensations_only) then
    r ← run_compensations_event_driven registries compensator_id turns a.(ReactorArgs.url)
          a.(ReactorArgs.claimer) 0 true (Some print_json);
    mret (match r with None => None | Some x => match x : Empty_set with end end)
  else
    r ← run_reactors connectors registries turns a.(ReactorArgs.url) (reactor_options a runner)
          a.(ReactorArgs.interval) a.(ReactorArgs.once)
          (Some (fun v => print_json (JObj [("tick", v)]))) 0%Q;
    mret (match r with Some _ => Some 0%Z | None => None end).

(** ** [python -m tape.reactors.outbox] *)

Definition outbox_main (turns : nat) (a : OutboxArgs.t) : P (option Z) :=
  _ ← each a.(OutboxArgs.load) load_spec;
  r ← run_outbox_dispatcher connectors registries claimer_id turns a.(OutboxArgs.url) a.(OutboxArgs.connector)
        a.(OutboxArgs.claimer) a.(OutboxArgs.max_attempts) a.(OutboxArgs.interval) a.(OutboxArgs.once)
        (Some (fun v => print_json (JObj [("outbox", v)])));
  mret (match r with Some _ => Some 0%Z | None => None end).

(** ** What a tool body reads off its context *)

(** [tool_context.state.get(key, "")], [""] when the context has no such state *)
Definition state_get (key : string) (state : option pydict) : json :=
  match state with Some d => default (JStr "") (dict_get key d) | None => JStr "" end.
Definition idempotency_key := state_get "temp:_tape_idempotency_key".
Definition run_id_of := state_get "temp:_tape_run_id".
Definition business_key_of := state_get "temp:_tape_business_key".
Definition external_ref_of := state_get "temp:_tape_external_ref".
Definition effect_semantics := state_get "temp:_tape_effect_semantics".

(** [policy_is]: the version the run was started with. *)
Definition policy_is (state : option pydict) (version : string) : bool :=
  match state with
  | Some d => match default (JStr "") (dict_get "policy_version" d) with
              | JStr v => bool_decide (v = version) | _ => false end
  | None => false
  end.

(** ** What the plugin reads off a tool *)

(** A function object: its [__name__] and the metadata the decorator left on it. *)
Record FnObj := mkFnObj { fn_name : option string; fn_meta : option Meta }.
Record ToolObj := mkToolObj {
  tool_name : option string; func : option FnObj; fn : option FnObj; _func : option FnObj;
  __wrapped__ : option FnObj; own_meta : option Meta; class_name : string
}.

Definition effect_meta_of (tool : ToolObj) : option Meta :=
  match omap (fun f => f ≫= fn_meta) [tool.(func); tool.(fn); tool.(_func); tool.(__wrapped__)] with
  | m :: _ => Some m
  | [] => tool.(own_meta)
  end.

Definition tool_name_of (tool : ToolObj) : string :=
  match str_or_none tool.(tool_name) with
  | Some n => n
  | None =>
    match (match tool.(func) with Some f => Some f | None => tool.(fn) end) with
    | Some f => default tool.(class_name) f.(fn_name)
    | None => tool.(class_name)
    end
  end.

(** ** The functions of the package *)

Definition release_gate (url run_id app_name user_id session_id gate_name : string) (resolution : json) : P unit :=
  with_client url (invoke (SendSignalTo run_id app_name user_id session_id gate_name
                             (dumps (json_or resolution (JObj [])))) : P unit).
Definition set_timer (url run_id timer_id : string) (fire_at_ms : Z) (kind : string) (payload : json) : P unit :=
  with_client url (invoke (SetTimer run_id timer_id fire_at_ms kind (dumps (json_or payload (JObj [])))) : P unit).
Definition cancel_timer (url run_id timer_id : string) : P unit :=
  with_client url (invoke (CancelTimer run_id timer_id) : P unit).
Definition cancel_run (url run_id reason : string) : P unit :=
  with_client url (end_run run_id RUN_STATUS_CANCELLED
                     (dumps (JObj [("cancelled", JBool true); ("reason", JStr reason)]))).

(** [if not rid: return False], else the run's status; a failure is not a cancellation. *)
Definition is_cancelled (url rid : string) : P bool :=
  if decide (rid = "") then mret false
  else with_client url
    (try_ (run ← get_run rid; mret (bool_decide (run.(PbRun.status) = RUN_STATUS_CANCELLED)))
          (fun _ => mret false)).

(** [owner] is [TAPE_LEASE_OWNER], or the host and the process. *)
Definition heartbeat (url rid owner : string) (lease_ttl_ms : Z) : P unit :=
  if decide (rid = "") then mret tt
  else with_client url (invoke (ResumeRun rid owner lease_ttl_ms) : P unit).

Definition set_value (url namespace key : string) (value : json) (if_version : Z) (writer : string) : P PbValue.t :=
  with_client url (invoke (WriteValue namespace key (dumps value) if_version writer) : P PbValue.t).
Definition get_value (url namespace key : string) : P (option PbValue.t) :=
  with_client url (invoke (GetValue namespace key) : P (option PbValue.t)).
Definition delete_value (url namespace key : string) : P unit :=
  with_client url (invoke (DeleteValue namespace key) : P unit).
(** The client stays open behind the stream. *)
Definition watch_value (url namespace key : string) (from_version : Z) : P unit :=
  _ ← (invoke (OpenClient url) : P unit); invoke (WatchValue namespace key from_version).
End entry.

(** ** [tape run -- <program>] *)

(** What the launcher does: usage on stderr, nothing to run, or a program with the
    [sys.argv] it sees. *)
Inductive Action := Usage | NothingToRun | RunPath (path : string) | RunModule (name : string).
Record Launch := mkLaunch { action : Action; sys_argv : list string; server : string; env_url : string }.
Definition exit_code (a : Action) : Z :=
  match a with Usage | NothingToRun => 2 | RunPath _ | RunModule _ => 0 end.
Definition IndexError : exn := Raised "IndexError" "list index out of range".

(** [s.endswith(p)] *)
Definition ends_with (p s : string) : bool :=
  bool_decide (String.length p <= String.length s) &&
  bool_decide (String.substring (String.length s - String.length p) (String.length p) s = p).

Definition names_python (executable target : string) : bool :=
  bool_decide (target = "python") || ends_with "/python" target || bool_decide (target = executable).

(** The part after the options; [env] is [TAPE_URL], which is kept when it is set. *)
Definition launch_target (executable : string) (env : option string) (url : string) (argv : list string)
    : result Launch :=
  let env' := default url env in
  match argv with
  | [] => Ok (mkLaunch Usage [] url (default "" env))
  | target :: rest =>
    if names_python executable target then
      match rest with
      | [] => Ok (mkLaunch NothingToRun argv url env')
      | file :: margs =>
        if decide (file = "-m") then
          match margs with
          | [] => Err IndexError
          | m :: _ => Ok (mkLaunch (RunModule m) margs url env')
          end
        else Ok (mkLaunch (RunPath file) rest url env')
      end
    else Ok (mkLaunch (RunPath target) argv url env')
  end.

(** [if argv and argv[0] == "--": argv = argv[1:]] *)
Definition drop_dashes (argv : list string) : list string :=
  match argv with [] => [] | a :: rest => if decide (a = "--") then rest else argv end.

(** [if argv and argv[0] == "--url": url, argv = argv[1], argv[2:]] *)
Definition url_option (url : string) (argv : list string) : result (string * list string) :=
  match argv with
  | [] => Ok (url, [])
  | a :: rest =>
    if decide (a = "--url") then
      match rest with [] => Err IndexError | u :: rest => Ok (u, rest) end
    else Ok (url, argv)
  end.

Definition launch (executable : string) (env : option string) (argv : list string) : result Launch :=
  match argv with
  | [] => Ok (mkLaunch Usage [] "" (default "" env))
  | command :: argv =>
    if decide (command = "run") then
      r ← url_option (default "tape://localhost:7878" env) argv;
      launch_target executable env r.1 (drop_dashes r.2)
    else Ok (mkLaunch Usage [] "" (default "" env))
  end.

(** [patched_init]: a plugin of the runner, and its session service. *)
Inductive RunnerPlugin := OwnPlugin (name : string) | TapePlugin (url : string).
Definition plugin_name (p : RunnerPlugin) : string :=
  match p with OwnPlugin n => n | TapePlugin _ => "tape" end.
Inductive RunnerService := OwnService | TapeService (url : string).
Record RunnerKwargs := mkRunnerKwargs { kw_plugins : option (list RunnerPlugin); kw_service : option RunnerService }.

Definition patched_init (url : string) (kw : RunnerKwargs) : RunnerKwargs :=
  let plugins := default [] kw.(kw_plugins) in
  let has_tape := existsb (fun p => bool_decide (plugin_name p = "tape")) plugins in
  mkRunnerKwargs (Some (if has_tape then plugins else plugins ++ [TapePlugin url]))
    (Some (default (TapeService url) kw.(kw_service))).

(** [_install]: the class remembers the constructors wrapped around its own; [_tape_patched]
    keeps it to one. *)
Record RunnerClass := mkRunnerClass { patched : bool; inits : list string }.
Definition install (url : string) (c : RunnerClass) : RunnerClass :=
  if c.(patched) then c else mkRunnerClass true (url :: c.(inits)).
Definition construct (c : RunnerClass) (kw : RunnerKwargs) : RunnerKwargs :=
  foldl (fun kw url => patched_init url kw) kw c.(inits).

(** ** Structured logs *)

Definition STRUCTURED_FIELDS : list string :=
  ["ts"; "level"; "msg"; "tenant_id"; "app_name"; "run_id"; "invocation_id"; "session_id"; "seq";
   "effect_key"; "decision_index"; "reactor"; "lease_owner"].

(** [v not in (None, "")] *)
Definition worth_logging (v : pyval) : bool :=
  match v with VNone => false | VStr s => negb (bool_decide (s = "")) | _ => true end.

Definition log_record (ts : string) (msg level : string) (fields : list (string * pyval)) : list (string * pyval) :=
  foldl (fun d kv => dict_set kv.1 kv.2 d) [("ts", VFloat ts); ("level", VStr level); ("msg", VStr msg)]
    (List.filter (fun kv => worth_logging kv.2) fields).

(** The known fields in their order, then the others in theirs. *)
Definition log_line (record : list (string * pyval)) : list (string * pyval) :=
  omap (fun k => pair k <$> dict_get k record) STRUCTURED_FIELDS ++
  List.filter (fun kv => negb (bool_decide (kv.1 ∈ STRUCTURED_FIELDS))) record.

Definition newline : string := String "010"%char EmptyString.
Definition log_json `{PyText} (repr : Q -> string) (msg level : string) (fields : list (string * pyval)) : P unit :=
  ts ← time_time;
  (invoke (PrintErr (dumps (to_json (VDict (log_line (log_record (repr ts) msg level fields)))) +:+ newline)) : P unit).

(** * Theorems *)

(** ** Loading *)

(** A [--load] that fails is a line on stderr and no more: loading always goes on, to a
    result for each of the specs, unless stderr itself is closed. *)
Theorem load_failures_are_printed `{PyText} specs t o :
  exec (each specs load_spec) t o -> (forall text e, Ev (PrintErr text) (Err e) ∉ t) ->
  is_ok o = true /\ length t = length specs + length (List.filter (fun ev => negb (is_ok ev.(ev_answer))) t).
Proof.
  intros He. refine (wp_exec _ (fun t o => (forall text e, Ev (PrintErr text) (Err e) ∉ t) ->
    is_ok o = true /\ length t = length specs + length (List.filter (fun ev => negb (is_ok ev.(ev_answer))) t)) t o _ He).
  clear He t o. induction specs as [|spec specs IH]; [by intros _|]. cbn [each]. apply wp_bind.
  unfold load_spec at 1. apply wp_try, wp_bind. intros [m|e]; cbn [lift wp].
  - apply wp_bind. eapply wp_mono, IH. intros t [out|e] Ht; cbn; rewrite ?app_nil_r.
    + intros Hno. destruct Ht as [_ Hl]; [set_solver|]. split; [done|]. cbn. lia.
    + intros Hno. destruct Ht as [? _]; [set_solver|done].
  - intros [[]|e']; cbn [lift wp]; [|intros Hno; exfalso; eapply Hno; right; left].
    apply wp_bind. eapply wp_mono, IH. intros t [out|e'] Ht; cbn; rewrite ?app_nil_r.
    + intros Hno. destruct Ht as [_ Hl]; [set_solver|]. split; [done|]. cbn. lia.
    + intros Hno. destruct Ht as [? _]; [set_solver|done].
Qed.

(** ** Cancellation *)

(** The run a call was answered with. *)
Definition run_of (ev : event answer) : option PbRun.t :=
  let 'Ev c r := ev in
  match c return result (answer c) -> option PbRun.t with
  | GetRun _ => fun r => match r with Ok run => Some run | Err _ => None end
  | _ => fun _ => None
  end r.

(** A tool is told that its run is cancelled exactly when the server said so; a run it
    cannot name is not asked about, and a server that cannot be asked is no cancellation. *)
Theorem is_cancelled_as_the_server_says url rid t b :
  exec (is_cancelled url rid) t (Ok b) ->
  (b = true <-> exists run, Ev (GetRun rid) (Ok run) ∈ t /\ run.(PbRun.status) = RUN_STATUS_CANCELLED) /\
  (rid = "" -> t = []).
Proof.
  intros He. refine (wp_exec _ (fun t o => forall b, o = Ok b ->
    (b = true <-> exists run, Ev (GetRun rid) (Ok run) ∈ t /\ run.(PbRun.status) = RUN_STATUS_CANCELLED) /\
    (rid = "" -> t = [])) t (Ok b) _ He b eq_refl). clear He t b.
  unfold is_cancelled. case_decide as Hr.
  { intros b [= <-]. split; [|done]. split; [done|]. intros (run & Hin & _). by apply elem_of_nil in Hin. }
  apply wp_with_client; [by intros e b [=]|]. unfold get_run. apply wp_try, wp_bind.
  intros [run|e]; cbn; intros [u|e'] b [= <-]; (split; [|done]).
  - rewrite bool_decide_eq_true. split.
    + intros Hc. exists run. split; [right; left|done].
    + intros (run' & Hin & Hc). rewrite !elem_of_cons in Hin.
      destruct Hin as [Heq|[Heq|[Heq|Heq%elem_of_nil]]]; try done; apply (f_equal run_of) in Heq; try done.
      by injection Heq as <-.
  - split; [done|]. intros (run' & Hin & Hc). rewrite !elem_of_cons in Hin.
    destruct Hin as [Heq|[Heq|[Heq|Heq%elem_of_nil]]]; try done; by apply (f_equal run_of) in Heq.
Qed.

(** ** The launcher *)

(** The options of the launcher. *)
Definition launcher_options (url : option string) (dashes : bool) : list string :=
  match url with Some u => ["--url"; u] | None => [] end ++ (if dashes then ["--"] else []).

(** A program is run as if it were run directly: it sees its own command line, without the
    launcher's words and without the interpreter's name; the server is the option's, else
    [TAPE_URL]'s, else the default; and [TAPE_URL] is set for it only when it was not. *)
Theorem program_sees_its_command_line executable env url dashes target args :
  target <> "--" -> (dashes = false -> url = None -> target <> "--url") ->
  names_python executable target = false ->
  launch executable env ("run" :: launcher_options url dashes ++ target :: args) =
    Ok (mkLaunch (RunPath target) (target :: args) (default (default "tape://localhost:7878" env) url)
          (default (default "tape://localhost:7878" url) env)) /\
  forall interpreter, names_python executable interpreter = true -> target <> "-m" ->
    launch executable env ("run" :: launcher_options url true ++ interpreter :: target :: args) =
    Ok (mkLaunch (RunPath target) (target :: args) (default (default "tape://localhost:7878" env) url)
          (default (default "tape://localhost:7878" url) env)).
Proof.
  intros Hd Hu Hp.
  assert (He : default (default (default "tape://localhost:7878" env) url) env = default (default "tape://localhost:7878" url) env)
    by (by destruct env, url).
  split.
  - assert (Hl : url_option (default "tape://localhost:7878" env) (launcher_options url dashes ++ target :: args) =
      Ok (default (default "tape://localhost:7878" env) url, (if dashes then ["--"] else []) ++ target :: args)).
    { unfold launcher_options. destruct url as [u|]; cbn -[decide]; [by rewrite decide_True|].
      destruct dashes; cbn -[decide]; [by rewrite decide_False|by rewrite decide_False; [|by apply Hu]]. }
    unfold launch. rewrite decide_True, Hl by done. cbn -[drop_dashes launch_target].
    assert (Hdr : drop_dashes ((if dashes then ["--"] else []) ++ target :: args) = target :: args).
    { destruct dashes; cbn -[decide]; [by rewrite decide_True|by rewrite decide_False]. }
    rewrite Hdr. unfold launch_target. by rewrite Hp, He.
  - intros interpreter Hi Hm.
    assert (Hl : url_option (default "tape://localhost:7878" env) (launcher_options url true ++ interpreter :: target :: args) =
      Ok (default (default "tape://localhost:7878" env) url, "--" :: interpreter :: target :: args)).
    { unfold launcher_options. destruct url as [u|]; cbn -[decide]; [by rewrite decide_True|by rewrite decide_False]. }
    unfold launch. rewrite decide_True, Hl by done. cbn -[decide launch_target].
    rewrite decide_True by done. unfold launch_target. rewrite Hi, decide_False by done. by rewrite He.
Qed.

(** With [--url] the injected plugin and session service talk to one server, and a
    [TAPE_URL] that was already set names another to everything else in the program. *)
Theorem launched_against_two_servers executable u env target args :
  target <> "--" -> names_python executable target = false ->
  launch executable (Some env) ("run" :: "--url" :: u :: target :: args) =
    Ok (mkLaunch (RunPath target) (target :: args) u env).
Proof.
  intros Hd Hp. refine (proj1 (program_sees_its_command_line executable (Some env) (Some u) false target args Hd _ Hp)). done.
Qed.

(** ** The injection *)

Definition is_tape (p : RunnerPlugin) : Prop := plugin_name p = "tape".

(** However often the launcher is installed, a runner is built with its own plugins first
    and in order, one plugin named "tape" added exactly when it had none, and its own
    session service exactly when it was given one; constructing from what was constructed
    changes nothing more. *)
Theorem injected_once urls kw url :
  let c := foldl (fun c u => install u c) (install url (mkRunnerClass false [])) urls in
  let plugins := default [] kw.(kw_plugins) in
  construct c kw = patched_init url kw /\
  kw_plugins (construct c kw) = Some (if decide (Exists is_tape plugins) then plugins else plugins ++ [TapePlugin url]) /\
  kw_service (construct c kw) = Some (default (TapeService url) kw.(kw_service)) /\
  construct c (construct c kw) = construct c kw.
Proof.
  cbv zeta.
  assert (Hc : foldl (fun c u => install u c) (install url (mkRunnerClass false [])) urls = mkRunnerClass true [url]).
  { by induction urls as [|u urls IH]. }
  assert (Hex : forall l, existsb (fun p => bool_decide (plugin_name p = "tape")) l = bool_decide (Exists is_tape l)).
  { intros l. apply eq_true_iff_eq. rewrite existsb_exists, bool_decide_eq_true, Exists_exists.
    split; intros (p & Hp & Hn); exists p; rewrite ?bool_decide_eq_true in *; (split; [by apply list_elem_of_In|done]). }
  rewrite Hc. change (construct (mkRunnerClass true [url]) kw) with (patched_init url kw).
  change (construct (mkRunnerClass true [url]) (patched_init url kw)) with (patched_init url (patched_init url kw)).
  destruct kw as [plugins service]. unfold patched_init. cbn [kw_plugins kw_service default]. rewrite !Hex.
  split_and!; [done|by case_decide; case_bool_decide|done|]. f_equal. f_equal.
  destruct (decide (Exists is_tape (default [] plugins))) as [Ht|Ht];
    rewrite !(bool_decide_true _ Ht) || rewrite !(bool_decide_false _ Ht); cbn [default].
  - by rewrite ?bool_decide_true.
  - rewrite bool_decide_true; [done|]. apply Exists_app. right. by constructor.
Qed.

(** ** The structured log *)

Lemma known_key k : k ∈ STRUCTURED_FIELDS -> forall (record : list (string * pyval)) v,
  (k, v) ∈ omap (fun k => pair k <$> dict_get k record) STRUCTURED_FIELDS <-> dict_get k record = Some v.
Proof.
  intros Hk record v. rewrite list_elem_of_omap. split.
  - intros (k' & _ & Hv). destruct (dict_get k' record) as [v'|] eqn:Hg; [|done]. by injection Hv as -> ->.
  - intros Hg. exists k. by rewrite Hg.
Qed.

Lemma known_keys (record : list (string * pyval)) k v :
  (k, v) ∈ omap (fun k => pair k <$> dict_get k record) STRUCTURED_FIELDS -> k ∈ STRUCTURED_FIELDS.
Proof.
  rewrite list_elem_of_omap. intros (k' & Hk & Hv).
  destruct (dict_get k' record); [|done]. by injection Hv as -> _.
Qed.

(** One line holds the whole record: every field once, the known ones first and in the
    documented order, the others after them in the order they were given. *)
Theorem log_line_holds_the_record record :
  NoDup record.*1 ->
  log_line record ≡ₚ record /\
  exists known others, log_line record = known ++ others /\
    known.*1 `sublist_of` STRUCTURED_FIELDS /\ others `sublist_of` record /\
    Forall (fun kv => kv.1 ∉ STRUCTURED_FIELDS) others.
Proof.
  intros Hnd.
  assert (Hsub : forall l, (omap (fun k => pair k <$> dict_get k record) l).*1 `sublist_of` l).
  { induction l as [|k l IH]; [constructor|]. cbn. destruct (dict_get k record); cbn; by constructor. }
  assert (Hother : forall kv, kv ∈ List.filter (fun kv => negb (bool_decide (kv.1 ∈ STRUCTURED_FIELDS))) record <->
    kv ∈ record /\ kv.1 ∉ STRUCTURED_FIELDS).
  { intros kv. rewrite !list_elem_of_In, List.filter_In, negb_true_iff, bool_decide_eq_false.
    by rewrite list_elem_of_In. }
  split.
  - apply NoDup_Permutation; [| |intros [k v]].
    + unfold log_line. apply NoDup_app. split_and!.
      * apply (NoDup_fmap_1 fst). eapply sublist_NoDup; [|apply Hsub]. apply (bool_decide_unpack _). by vm_compute.
      * intros [k v] Hk Ho. apply known_keys in Hk. apply Hother in Ho as [_ Ho]. by apply Ho.
      * apply NoDup_ListNoDup, List.NoDup_filter, NoDup_ListNoDup. by apply (NoDup_fmap_1 fst).
    + by apply (NoDup_fmap_1 fst).
    + unfold log_line. rewrite elem_of_app, Hother. cbn [fst].
      destruct (decide (k ∈ STRUCTURED_FIELDS)) as [Hk|Hk].
      * rewrite (known_key k Hk). split; [intros [Hg|[_ Hn]]; [by apply dict_get_elem|done]|].
        intros Hin. left. by apply dict_elem_get.
      * split; [intros [Hg%known_keys|[Hg _]]; done|]. intros Hin. by right.
  - eexists _, _. split_and!; [done|apply Hsub| |].
    + clear. induction record as [|kv record IH]; cbn; [constructor|]. case_match; by constructor.
    + apply Forall_forall. intros kv. rewrite Hother. by intros [_ Hn].
Qed.

(** ** Witnesses *)

Definition failing_loads (c : call) : M unit (answer c) := fun w =>
  (match c return result (answer c) with
   | ImportModule name => if decide (name = "agent") then Ok (PyObj None []) else Err (Raised "ImportError" name)
   | PrintErr _ | OpenClient _ | CloseClient => Ok tt
   | GetRun rid => Ok (PbRun.mk rid "u" "s" "i" RUN_STATUS_CANCELLED [])
   | _ => Err TypeError
   end, w).
Definition two_loads : P (list unit) := each ["missing:tools"; "agent:tools"] (@load_spec sample_text).
Lemma load_failures_are_printed_witness :
  is_ok (run failing_loads two_loads tt).1 = true /\ length (trace failing_loads two_loads tt) = 3.
Proof.
  refine (@load_failures_are_printed sample_text ["missing:tools"; "agent:tools"] _ _ (run_exec failing_loads two_loads tt) _).
  intros text e Hin%list_elem_of_In. vm_compute in Hin. intuition discriminate.
Defined.

Lemma is_cancelled_as_the_server_says_witness :
  exists run, Ev (GetRun "run-1") (Ok run) ∈ trace failing_loads (is_cancelled "tape://h" "run-1") tt /\
    run.(PbRun.status) = RUN_STATUS_CANCELLED.
Proof.
  refine (proj1 (proj1 (is_cancelled_as_the_server_says "tape://h" "run-1" _ true
    (run_exec failing_loads (is_cancelled "tape://h" "run-1") tt))) eq_refl).
Defined.

Lemma program_sees_its_command_line_witness :
  launch "/usr/bin/python3" None ["run"; "--url"; "tape://h:1"; "--"; "app.py"; "x"] =
    Ok (mkLaunch (RunPath "app.py") ["app.py"; "x"] "tape://h:1" "tape://h:1").
Proof.
  refine (proj1 (program_sees_its_command_line "/usr/bin/python3" None (Some "tape://h:1") true "app.py" ["x"] _ _ _));
    [discriminate|discriminate|reflexivity].
Defined.

Lemma launched_against_two_servers_witness :
  launch "/usr/bin/python3" (Some "tape://old:1") ["run"; "--url"; "tape://new:1"; "app.py"] =
    Ok (mkLaunch (RunPath "app.py") ["app.py"] "tape://new:1" "tape://old:1").
Proof.
  refine (launched_against_two_servers "/usr/bin/python3" "tape://new:1" "tape://old:1" "app.py" [] _ _);
    [discriminate|reflexivity].
Defined.

Lemma log_line_holds_the_record_witness :
  log_line (log_record "1.5" "began" "INFO" [("reactor", VStr "outbox"); ("extra", VInt 1); ("run_id", VStr "run-1"); ("seq", VNone)]) ≡ₚ
    log_record "1.5" "began" "INFO" [("reactor", VStr "outbox"); ("extra", VInt 1); ("run_id", VStr "run-1"); ("seq", VNone)].
Proof.
  refine (proj1 (log_line_holds_the_record _ _)). apply (bool_decide_eq_true_1 _). vm_compute. reflexivity.
Defined.
