(* ===== verification/Identity.v ===== *)
(** * Identity: the run identity, [tape/adk/identity.py], with [tape/tenancy.py]

    Reading the identity of a run from the environment, its strict validation, and the
    tenancy mode.

    Approval gates and run budgets, [tape/gates.py] and [tape/budget.py].

    What strict reading of the environment guarantees, what scopes parse to, when an
    approval gate lets the agent go on, and the budget a run config carries. *)
From Stdlib Require Import Ascii QArith.
From S2P Require Import Prelude Scenarios ScenarioTheorems Client SdkSamples Recover.
#[local] Open Scope Z_scope.
#[local] Open Scope nat_scope.

(** ** Text *)

(** The white space of [str.strip] and [str.split], in ASCII. *)
Definition is_space (c : ascii) : bool :=
  bool_decide (nat_of_ascii c ∈ [9; 10; 11; 12; 13; 28; 29; 30; 31; 32]).

Fixpoint lstrip (s : string) : string :=
  match s with
  | EmptyString => EmptyString
  | String c s' => if is_space c then lstrip s' else s
  end.
Fixpoint rstrip (s : string) : string :=
  match s with
  | EmptyString => EmptyString
  | String c s' =>
    match rstrip s' with
    | EmptyString => if is_space c then EmptyString else String c EmptyString
    | s'' => String c s''
    end
  end.
(** [s.strip()] *)
Definition strip (s : string) : string := rstrip (lstrip s).

(** [s.split()]: the maximal runs of non-space characters. [w] is the current one. *)
Fixpoint words_from (w : string) (s : string) : list string :=
  let flush := if decide (w = "") then [] else [w] in
  match s with
  | EmptyString => flush
  | String c s' => if is_space c then flush ++ words_from "" s' else words_from (w +:+ String c "") s'
  end.
Definition words (s : string) : list string := words_from "" s.

(** [s.replace(a, b)] for single characters *)
Fixpoint replace_char (a b : ascii) (s : string) : string :=
  match s with
  | EmptyString => EmptyString
  | String c s' => String (if decide (c = a) then b else c) (replace_char a b s')
  end.

(** [_parse_scopes] *)
Definition parse_scopes (s : string) : list string :=
  if decide (s = "") then []
  else List.filter (fun tok => negb (bool_decide (tok = ""))) (words (replace_char "," " " s)).

(** [_parse_labels]: one pair of the loop, then the loop. *)
Definition parse_label (pair : string) (out : list (string * string)) : list (string * string) :=
  let pair := strip pair in
  if bool_decide (pair = "") || negb (has_char "=" pair) then out
  else
    let k := strip (before_char "=" pair) in
    if decide (k = "") then out else dict_set k (strip (after_char "=" pair)) out.
Definition parse_labels (s : string) : list (string * string) :=
  if decide (s = "") then [] else foldl (fun out pair => parse_label pair out) [] (split_on "," s).

(** ** The identity *)

Record RunIdentity := mkRunIdentity {
  tenant_id : string; actor : string; subject : string; agent_id : string;
  aiplex_instance_id : string; gateway_route : string;
  scopes : list string; labels : list (string * string)
}.
Definition no_identity : RunIdentity := mkRunIdentity "" "" "" "" "" "" [] [].

(** [getattr(self, f, "")] for the fields a caller may require, as truth values. *)
Definition has_field (i : RunIdentity) (f : string) : bool :=
  if decide (f = "tenant_id") then negb (bool_decide (i.(tenant_id) = ""))
  else if decide (f = "actor") then negb (bool_decide (i.(actor) = ""))
  else if decide (f = "subject") then negb (bool_decide (i.(subject) = ""))
  else if decide (f = "agent_id") then negb (bool_decide (i.(agent_id) = ""))
  else if decide (f = "aiplex_instance_id") then negb (bool_decide (i.(aiplex_instance_id) = ""))
  else if decide (f = "gateway_route") then negb (bool_decide (i.(gateway_route) = ""))
  else if decide (f = "scopes") then negb (bool_decide (i.(scopes) = []))
  else if decide (f = "labels") then negb (bool_decide (i.(labels) = []))
  else false.

Definition REQUIRED_FOR_AIPLEX : list string := ["tenant_id"; "actor"; "agent_id"].

(** [validate]: [MissingIdentity] names the missing fields. *)
Definition validate (required : list string) (i : RunIdentity) : result unit :=
  let required := if decide (required = []) then REQUIRED_FOR_AIPLEX else required in
  let missing := List.filter (fun f => negb (has_field i f)) required in
  if decide (missing = []) then Ok tt else Err (ValueError (MMissingIdentity missing)).

(** [e.get(k, "")] *)
Definition env_get (env : list (string * string)) (k : string) : string := default "" (dict_get k env).

Definition identity_of (env : list (string * string)) : RunIdentity :=
  let e := env_get env in
  mkRunIdentity (e "AIPLEX_TENANT_ID") (e "AIPLEX_ACTOR") (e "AIPLEX_SUBJECT") (e "AIPLEX_AGENT_ID")
    (e "AIPLEX_INSTANCE_ID") (e "AIPLEX_ROUTE")
    (parse_scopes (e "AIPLEX_SCOPES")) (parse_labels (e "AIPLEX_LABELS")).

(** [from_env(env, strict=..)]; [None] reads the switch from the environment. *)
Definition from_env (env : list (string * string)) (strict : option bool) : result RunIdentity :=
  let strict := default (bool_decide (env_get env "AIPLEX_REQUIRE_IDENTITY" = "1")) strict in
  let ident := identity_of env in
  if strict then _ ← validate REQUIRED_FOR_AIPLEX ident; mret ident else mret ident.

Definition is_empty (i : RunIdentity) : bool :=
  forallb (fun f => negb (has_field i f))
    ["tenant_id"; "actor"; "subject"; "agent_id"; "aiplex_instance_id"; "gateway_route";
     "scopes"; "labels"].

Definition subject_or (i : RunIdentity) (fallback_user_id : string) : string :=
  str_or i.(subject) fallback_user_id.

(** ** Tenancy *)

Inductive TenancyMode := SINGLE | TRUSTED_MULTI_APP | HARD_MULTI_TENANT.
#[export] Instance tenancy_mode_eq_dec : EqDecision TenancyMode.
Proof. solve_decision. Defined.

(** [TenancyMode(value)] *)
Definition tenancy_mode (value : string) : result TenancyMode :=
  if decide (value = "single") then Ok SINGLE
  else if decide (value = "trusted_multi_app") then Ok TRUSTED_MULTI_APP
  else if decide (value = "hard_multi_tenant") then Ok HARD_MULTI_TENANT
  else Err (ValueError (MBadTenancy value)).
Definition tenancy_value (m : TenancyMode) : string :=
  match m with
  | SINGLE => "single" | TRUSTED_MULTI_APP => "trusted_multi_app"
  | HARD_MULTI_TENANT => "hard_multi_tenant"
  end.

Record TenancyConfig := mkTenancyConfig { mode : TenancyMode; tenancy_tenant : string }.

Definition tenancy_from_env (env : list (string * string)) : result TenancyConfig :=
  m ← tenancy_mode (default "single" (dict_get "TAPE_TENANCY" env));
  mret (mkTenancyConfig m (default "default" (dict_get "TAPE_TENANT_ID" env))).

(** [warn_if_hard_but_unenforced]: one warning exactly for the hard mode. *)
Definition unenforced_warnings (c : TenancyConfig) : nat :=
  if decide (c.(mode) = HARD_MULTI_TENANT) then 1 else 0.

(** ** Budgets *)

Record Budget := mkBudget { usd_cap : Q; token_cap : Z }.

(** [custom_metadata] of the run config [with_budget] returns. *)
Definition with_budget (usd_cap token_cap : json) : json :=
  JObj [("tape_budget", JObj [("usd_cap", usd_cap); ("token_cap", token_cap)])].

(** [b.get(key, default)] on a value that may not be a dict *)
Definition field_or (key : string) (d b : json) : result json :=
  match b with JObj fields => Ok (default d (dict_get key fields)) | _ => Err AttributeError end.

(** [budget_from_run_config] on the config's [custom_metadata], when it has one. *)
Definition budget_from_run_config `{PyText} (metadata : option json) : result (option Budget) :=
  match metadata with
  | Some (JObj md) =>
    match dict_get "tape_budget" md with
    | None => Ok None
    | Some v =>
      let b := json_or v (JObj []) in
      usd ← field_or "usd_cap" (JInt 0) b;
      usd ← float_json usd;
      tok ← field_or "token_cap" (JInt 0) b;
      tok ← int_json tok;
      mret (Some (mkBudget usd tok))
    end
  | _ => Ok None
  end.

(** ** Gates *)

(** [{"resolved": True, "gate": gate_name, **resolution}]; unpacking anything but a
    dict is a [TypeError]. *)
Definition resolved_with (gate_name : string) (resolution : json) : result json :=
  match resolution with
  | JObj fields => Ok (JObj (merge [("resolved", JBool true); ("gate", JStr gate_name)] fields))
  | _ => Err TypeError
  end.

Definition parked (gate_name : string) : json :=
  JObj [("resolved", JBool false); ("status", JStr "pending"); ("gate", JStr gate_name);
        ("note", JStr ("awaiting signal '" +:+ gate_name +:+ "'"))].

(** [gate]: [run_id] is the run the tool context names, empty without the plugin. *)
Definition gate `{PyText} (gate_name run_id risk : string) (payload : pydict) : P json :=
  if decide (run_id = "") then
    mret (JObj [("resolved", JBool true); ("gate", JStr gate_name);
                ("note", JStr "tape not active; auto-resolved")])
  else
    delivered ← await_signal run_id gate_name (dumps (JObj (merge [("risk", JStr risk)] payload)));
    match delivered with
    | Some text => lift (resolved_with gate_name (loads_or_empty text))
    | None => mret (parked gate_name)
    end.

(** The name the gate's tool shows to the model. *)
Definition gate_tool_name (gate_name : string) : string :=
  "await_" +:+ replace_char "-"%char "_"%char gate_name.

#[local] Arguments wp : simpl never.

(** Read strictly, an identity either has its three required fields, or the error names
    exactly the required fields the environment left empty. *)
Theorem strict_identity_complete env :
  let missing := List.filter (fun f => negb (has_field (identity_of env) f)) REQUIRED_FOR_AIPLEX in
  from_env env (Some true) =
    if decide (missing = []) then Ok (identity_of env)
    else Err (ValueError (MMissingIdentity missing)).
Proof.
  intros missing. unfold from_env, validate. cbn [default from_option id].
  rewrite (decide_False (P:=REQUIRED_FOR_AIPLEX = [])) by done. subst missing. by destruct (decide _).
Qed.

(** A scope is text without white space or commas. *)
Fixpoint clean (s : string) : bool :=
  match s with
  | EmptyString => true
  | String c s' => negb (is_space c) && negb (bool_decide (c = ","%char)) && clean s'
  end.

Lemma clean_snoc s c : clean s = true -> is_space c = false -> c <> ","%char ->
  clean (s +:+ String c "") = true.
Proof.
  intros Hs Hc Hne. induction s as [|a s IH].
  - change (negb (is_space c) && negb (bool_decide (c = ","%char)) && true = true).
    by rewrite Hc, bool_decide_false.
  - change (negb (is_space a) && negb (bool_decide (a = ","%char)) && clean (s +:+ String c "") = true).
    apply andb_true_iff in Hs as [Ha Hs]. rewrite Ha. by apply IH.
Qed.

Lemma words_clean w s :
  clean w = true -> Forall (fun tok => clean tok = true) (words_from w (replace_char ","%char " "%char s)).
Proof.
  revert w. induction s as [|c s IH]; intros w Hw; cbn [replace_char words_from].
  - case_decide; by repeat constructor.
  - destruct (decide (c = ","%char)) as [->|Hne]; cbn [is_space].
    + change (is_space " "%char) with true. cbn iota. apply Forall_app_2; [case_decide; by repeat constructor|by apply IH].
    + destruct (is_space c) eqn:Hc.
      * apply Forall_app_2; [case_decide; by repeat constructor|by apply IH].
      * apply IH. by apply clean_snoc.
Qed.

(** Every scope read from the environment is a non-empty word without commas. *)
Theorem parsed_scopes_are_words s :
  Forall (fun tok => tok <> "" /\ clean tok = true) (parse_scopes s).
Proof.
  unfold parse_scopes. case_decide; [constructor|].
  assert (Hw : Forall (fun tok => clean tok = true) (words (replace_char ","%char " "%char s)))
    by by apply words_clean.
  induction Hw as [|tok toks Htok _ IH]; cbn; [constructor|].
  destruct (bool_decide (tok = "")) eqn:Hb; cbn; [done|]. constructor; [|done].
  split; [exact (bool_decide_eq_false_1 _ Hb)|done].
Qed.

(** ** Gates *)

(** The answer to [AwaitSignal]. *)
Definition signalled (t : list (event answer)) : option (option string) :=
  match t with
  | [Ev c r] =>
    match c return result (answer c) -> option (option string) with
    | AwaitSignal _ _ _ => fun r => match r with Ok d => Some d | Err _ => None end
    | _ => fun _ => None
    end r
  | _ => None
  end.

(** In a journaled run a gate asks once for its signal; until it is delivered it answers
    the parked marker, and once it is, the resolution under the gate's name, a
    [TypeError] when the resolution is not a dict. *)
Theorem gate_waits_for_its_signal `{PyText} name run_id risk payload t o :
  run_id <> "" ->
  exec (gate name run_id risk payload) t o ->
  map ev_call t = [AwaitSignal run_id name (dumps (JObj (merge [("risk", JStr risk)] payload)))] /\
  (forall d, signalled t = Some d ->
     o = match d with
         | None => Ok (parked name)
         | Some text => resolved_with name (loads_or_empty text)
         end).
Proof.
  intros Hne He. refine (wp_exec _ (fun t o => map ev_call t = _ /\ forall d, signalled t = Some d -> o = _) t o _ He).
  unfold gate. rewrite decide_False by done. unfold await_signal.
  intros [[text|]|e]; cbn; [|by split; [|intros d [= <-]]|by split].
  destruct (resolved_with _ _) eqn:Hr; (split; [done|]); intros d [= <-]; by rewrite Hr.
Qed.
Lemma gate_waits_for_its_signal_witness :
  exists text, (run (fun (c : call) (w : unit) => (match c return result (answer c) with
      | AwaitSignal _ _ _ => Ok (Some text) | _ => Err TypeError end, w))
    (@gate sample_text "cfo" "run-1" "high" []) tt).1 =
    resolved_with "cfo" (@loads_or_empty sample_text text).
Proof.
  exists "{}".
  destruct (@gate_waits_for_its_signal sample_text "cfo" "run-1" "high" [] _ _ ltac:(discriminate)
    (run_exec (fun (c : call) (w : unit) => (match c return result (answer c) with
      | AwaitSignal _ _ _ => Ok (Some "{}") | _ => Err TypeError end, w))
    (@gate sample_text "cfo" "run-1" "high" []) tt)) as [_ Ho].
  apply (Ho (Some "{}")). vm_compute. reflexivity.
Defined.

(** A budget set on a run config is the one the plugin reads from it. *)
Lemma budget_read_back `{PyText} usd tok :
  budget_from_run_config (Some (with_budget (JInt usd) (JInt tok))) =
    Ok (Some (mkBudget (inject_Z usd) tok)).
Proof. reflexivity. Qed.
