(* ===== verification/SdkPlugin.v ===== *)
(** * SdkPlugin: the ADK callbacks of the gRPC tier, [tape/adk/plugin.py]

    [TapePlugin] as one definition per callback, over the plugin object's dicts and the
    tool context's state mapping, and the calls it makes to the server. *)
From Stdlib Require Import QArith.
From stdpp Require Import sorting.
From S2P Require Import Prelude Scenarios Contracts Client Identity.
#[local] Open Scope Z_scope.
#[local] Open Scope nat_scope.

(** ** The plugin object *)

(** Per-invocation bookkeeping, the process's registries, and [temp], the [temp:_tape_*]
    keys of the state mapping the tool context of the current call gives access to. *)
Module PluginState.
Record t := mk {
  run : gmap string string;
  dnext : gmap string Z;
  dlast : gmap string Z;
  tcount : gmap (string * Z * string) Z;
  has_budget : gset string;
  last_cancel_check : gmap string Q;
  run_scopes : gmap string (gset string);
  registries : Registries;
  temp : gmap string string
}.
Definition set_run v p := mk v p.(dnext) p.(dlast) p.(tcount) p.(has_budget)
  p.(last_cancel_check) p.(run_scopes) p.(registries) p.(temp).
Definition set_dnext v p := mk p.(run) v p.(dlast) p.(tcount) p.(has_budget)
  p.(last_cancel_check) p.(run_scopes) p.(registries) p.(temp).
Definition set_dlast v p := mk p.(run) p.(dnext) v p.(tcount) p.(has_budget)
  p.(last_cancel_check) p.(run_scopes) p.(registries) p.(temp).
Definition set_tcount v p := mk p.(run) p.(dnext) p.(dlast) v p.(has_budget)
  p.(last_cancel_check) p.(run_scopes) p.(registries) p.(temp).
Definition set_has_budget v p := mk p.(run) p.(dnext) p.(dlast) p.(tcount) v
  p.(last_cancel_check) p.(run_scopes) p.(registries) p.(temp).
Definition set_last_cancel_check v p := mk p.(run) p.(dnext) p.(dlast) p.(tcount) p.(has_budget)
  v p.(run_scopes) p.(registries) p.(temp).
Definition set_run_scopes v p := mk p.(run) p.(dnext) p.(dlast) p.(tcount) p.(has_budget)
  p.(last_cancel_check) v p.(registries) p.(temp).
Definition set_registries v p := mk p.(run) p.(dnext) p.(dlast) p.(tcount) p.(has_budget)
  p.(last_cancel_check) p.(run_scopes) v p.(temp).
Definition set_temp v p := mk p.(run) p.(dnext) p.(dlast) p.(tcount) p.(has_budget)
  p.(last_cancel_check) p.(run_scopes) p.(registries) v.
(** [__init__], in a process with the given registries *)
Definition init (r : Registries) : t := mk ∅ ∅ ∅ ∅ ∅ ∅ ∅ r ∅.
End PluginState.
Abbreviation PS := PluginState.t.

(** The arguments of [__init__]. *)
Record PluginConfig := mkPluginConfig {
  budget : option Budget;
  owner : string;
  lease_ttl_ms : Z;
  check_cancellation : bool;
  cancel_check_interval_s : Q;
  identity : RunIdentity
}.

(** A callback body: the plugin's state is kept when it raises. *)
Definition SP (A : Type) : Type := PS -> P (result A * PS).
#[export] Instance sp_ret : MRet SP := fun A a st => mret (Ok a, st).
#[export] Instance sp_bind : MBind SP := fun A B f m st =>
  o ← m st;
  match o.1 with Ok a => f a o.2 | Err e => mret (Err e, o.2) end.

Definition sp_get : SP PS := fun st => mret (Ok st, st).
Definition sp_modify (f : PS -> PS) : SP unit := fun st => mret (Ok tt, f st).
(** A server call, whose exception escapes the callback, or is caught at the call. *)
Definition sp_call {A} (p : P A) : SP A := fun st => r ← caught p; mret (r, st).
Definition sp_caught {A} (p : P A) : SP (result A) := fun st => r ← caught p; mret (Ok r, st).

(** ** What ADK hands the callbacks *)

Record Session := mkSession { app_name : string; user_id : string; session_id : string }.

Record ToolContext := mkToolContext { invocation_id : string; function_call_id : string }.

(** A tool, with the metadata [effect_meta_of] finds on it, if any. *)
Record Tool := mkTool { tool_name : string; tool_meta : option Meta }.

(** [getattr(llm_response, ..)] as far as it is read. *)
Record LlmResponse := mkLlmResponse {
  model_version : string;
  model_dump_json : result string;
  total_token_count : Z
}.

(** What [before_model] answers instead of a fresh call. *)
Inductive ModelAnswer := Refusal (reason : string) | Replayed (response_json : string).

(** ** Declarations, as integers on the wire *)
Definition semantics_to_pb (s : string) : Z :=
  if decide (s = "idempotent") then EFFECT_SEMANTICS_IDEMPOTENT
  else if decide (s = "non_idempotent") then EFFECT_SEMANTICS_NON_IDEMPOTENT
  else if decide (s = "observe_only") then EFFECT_SEMANTICS_OBSERVE_ONLY
  else EFFECT_SEMANTICS_UNSPECIFIED.
Definition dispatch_to_pb (s : string) : Z :=
  if decide (s = "inline") then EFFECT_DISPATCH_MODE_INLINE
  else if decide (s = "outbox") then EFFECT_DISPATCH_MODE_OUTBOX
  else EFFECT_DISPATCH_MODE_UNSPECIFIED.

(** The fields of [meta = effect_meta_of(tool) or {}]. *)
Definition meta_field {A} (f : Declaration -> A) (d : A) (tool : Tool) : A :=
  match tool.(tool_meta) with Some m => f m.(declared) | None => d end.
Definition meta_semantics (tool : Tool) : string :=
  str_or (meta_field semantics "" tool) "idempotent".
Definition meta_dispatch (tool : Tool) : string :=
  str_or (meta_field dispatch "" tool) "inline".

(** A dict the callback returns as the tool's result; Python's [None], also the [None]
    a recorded ["null"] parses to, lets ADK run the tool's body. *)
Definition tool_result (v : json) : option json :=
  match v with JNull => None | _ => Some v end.

Section plugin.
Context `{PyText}.
(** [LlmResponse.model_validate_json] accepts the text *)
Variable valid_response : string -> bool.
Variable config : PluginConfig.

(** ** Business keys *)

(** [str(v or "")] *)
Definition key_or_empty (v : pyval) : string := if py_truthy v then py_str v else "".

(** The shapes of the ladder from the [n]-th on. *)
Fixpoint try_shapes (fn : Callable) (args : json) (shapes : list nat) : P string :=
  match shapes with
  | [] => mret ""
  | n :: rest =>
    r ← caught (invoke (KeyShape fn n args) : P pyval);
    match r with
    | Ok v => mret (key_or_empty v)
    | Err TypeError => try_shapes fn args rest
    | Err _ => mret ""
    end
  end.

(** [_resolve_business_key] *)
Definition call_business_key (value : BusinessKey) (args : json) : P string :=
  match value with
  | NoKey => mret ""
  | StaticKey s => mret s
  | KeyOf fn => try_shapes fn args [0; 1; 2; 3]
  end.

(** ** Helpers of the plugin *)

(** [_count_decisions]: at most [hard_cap] questions, from the [n]-th decision on. *)
Fixpoint count_from (hard_cap : nat) (run_id : string) (n : Z) : P Z :=
  match hard_cap with
  | O => mret n
  | S hard_cap =>
    got ← caught (get_decision run_id n);
    match got with
    | Ok (Some _) => count_from hard_cap run_id (n + 1)%Z
    | _ => mret n
    end
  end.
Definition HARD_CAP : nat := Z.to_nat 10000.
Definition count_decisions (run_id : string) : P Z := count_from HARD_CAP run_id 0.

(** [_should_check_cancel] *)
Definition should_check_cancel (inv : string) : SP bool :=
  now ← sp_call time_time;
  st ← sp_get;
  let last := default 0%Q (st.(PluginState.last_cancel_check) !! inv) in
  if negb (Qle_bool config.(cancel_check_interval_s) (now - last)) then mret false
  else _ ← sp_modify (PluginState.set_last_cancel_check
                        (<[inv := now]> st.(PluginState.last_cancel_check)));
       mret true.

(** [_tool_keys]: the run of the call, and the key [before_tool] left, if any. *)
Definition tool_keys (ctx : ToolContext) (st : PS) : string * string :=
  let run_id := default "" (st.(PluginState.temp) !! "temp:_tape_run_id") in
  let key := default "" (st.(PluginState.temp) !! "temp:_tape_idempotency_key") in
  (if decide (run_id = "") then default "" (st.(PluginState.run) !! ctx.(invocation_id))
   else run_id, key).

Definition resolve_budget (metadata : option json) : result (option Budget) :=
  b ← budget_from_run_config metadata;
  mret (match b with Some b => Some b | None => config.(budget) end).

(** ** Run lifecycle *)

(** [self._run[inv] = ..; self._dnext[inv] = ..] *)
Definition place_run (inv run_id : string) (resumed : bool) : SP unit :=
  _ ← sp_modify (fun st => PluginState.set_run (<[inv := run_id]> st.(PluginState.run)) st);
  n ← (if resumed then sp_call (count_decisions run_id) else mret 0%Z);
  sp_modify (fun st => PluginState.set_dnext (<[inv := n]> st.(PluginState.dnext)) st).

(** The run's grants: the server's on a re-drive, else or failing that the local ones. *)
Definition note_scopes (run_id : string) (resumed : bool) : SP unit :=
  let local := config.(identity).(scopes) in
  granted ← (if resumed then
      rs ← sp_caught (get_run run_id);
      mret (match rs with Ok rs => rs.(PbRun.scopes) | Err _ => local end)
    else mret local);
  sp_modify (fun st => PluginState.set_run_scopes
    (<[run_id := list_to_set granted]> st.(PluginState.run_scopes)) st).

Definition install_budget (run_id : string) (metadata : option json) : SP unit :=
  b ← sp_call (lift (resolve_budget metadata));
  match b with
  | Some b =>
    if negb (Qle_bool b.(usd_cap) 0) || bool_decide (0 < b.(token_cap))%Z then
      _ ← sp_call (set_budget run_id b.(usd_cap) b.(token_cap));
      sp_modify (fun st => PluginState.set_has_budget ({[run_id]} ∪ st.(PluginState.has_budget)) st)
    else mret tt
  | None => mret tt
  end.

Definition begin_run (s : Session) (inv : string) : P (string * bool) :=
  let id := config.(identity) in
  invoke (BeginRun s.(app_name) s.(user_id) s.(session_id) inv config.(owner)
    config.(lease_ttl_ms) id.(tenant_id) id.(actor) id.(subject) id.(agent_id)
    id.(aiplex_instance_id) id.(gateway_route) id.(scopes) id.(labels)).

Definition before_run_callback (s : Session) (inv : string) (metadata : option json) : SP unit :=
  resp ← sp_call (begin_run s inv);
  let '(run_id, resumed) := resp : string * bool in
  _ ← place_run inv run_id resumed;
  _ ← note_scopes run_id resumed;
  install_budget run_id metadata.

(** The dicts popped at the end of [after_run]. *)
Definition forget_invocation (inv : string) (st : PS) : PS :=
  PluginState.set_run (delete inv st.(PluginState.run))
   (PluginState.set_dnext (delete inv st.(PluginState.dnext))
    (PluginState.set_dlast (delete inv st.(PluginState.dlast))
     (PluginState.set_tcount (filter (fun kv => kv.1.1.1 <> inv) st.(PluginState.tcount)) st))).

Definition after_run_callback (inv : string) : SP unit :=
  st ← sp_get;
  let run_id := default "" (st.(PluginState.run) !! inv) in
  _ ← (if decide (run_id = "") then mret tt else
    _ ← sp_caught (
      cur ← get_run run_id;
      if bool_decide (cur.(PbRun.status) = RUN_STATUS_RUNNING) ||
         bool_decide (cur.(PbRun.status) = RUN_STATUS_RUNNABLE)
      then end_run run_id RUN_STATUS_TERMINAL "" else mret tt);
    sp_modify (fun st => PluginState.set_run_scopes
      (delete run_id st.(PluginState.run_scopes)) st));
  sp_modify (forget_invocation inv).

(** ** Decisions *)

Definition cancelled (inv run_id : string) : SP bool :=
  if config.(check_cancellation) then
    due ← should_check_cancel inv;
    if due : bool then
      rs ← sp_caught (get_run run_id);
      mret (match rs with Ok rs => bool_decide (rs.(PbRun.status) = RUN_STATUS_CANCELLED)
                     | Err _ => false end)
    else mret false
  else mret false.

(** [if run_id in self._has_budget: adm = ..]: the reason of a refusal, if any. *)
Definition refused_by_budget (run_id : string) : SP (option string) :=
  st ← sp_get;
  if decide (run_id ∈ st.(PluginState.has_budget)) then
    adm ← sp_call (admit_budget run_id);
    mret (let '(admitted, reason) := adm : bool * string in if admitted then None else Some reason)
  else mret None.

Definition recorded_decision (run_id : string) (idx : Z) : SP (option ModelAnswer) :=
  got ← sp_caught (get_decision run_id idx);
  mret (match got with
        | Ok (Some d) => let text := d.(PbDecision.response_json) in
                         if valid_response text then Some (Replayed text) else None
        | _ => None
        end).

Definition before_model_callback (inv : string) : SP (option ModelAnswer) :=
  st ← sp_get;
  let run_id := default "" (st.(PluginState.run) !! inv) in
  if decide (run_id = "") then mret None else
  let idx := default 0%Z (st.(PluginState.dnext) !! inv) in
  _ ← sp_modify (fun st =>
        PluginState.set_dlast (<[inv := idx]> st.(PluginState.dlast))
         (PluginState.set_dnext (<[inv := (idx + 1)%Z]> st.(PluginState.dnext)) st));
  stop ← cancelled inv run_id;
  if stop : bool then mret (Some (Refusal "run cancelled")) else
  refused ← refused_by_budget run_id;
  match refused with
  | Some reason => mret (Some (Refusal (str_or reason "budget exhausted")))
  | None => recorded_decision run_id idx
  end.

(** [policy_version] is the one in the callback's state, or empty. *)
Definition after_model_callback (inv policy_version : string) (resp : LlmResponse) : SP unit :=
  st ← sp_get;
  let run_id := default "" (st.(PluginState.run) !! inv) in
  if decide (run_id = "") then mret tt else
  match st.(PluginState.dlast) !! inv with
  | None => mret tt
  | Some idx =>
    _ ← sp_caught (text ← lift resp.(model_dump_json);
                   record_decision run_id idx resp.(model_version) "" text "" policy_version);
    if bool_decide (run_id ∈ st.(PluginState.has_budget)) &&
       negb (bool_decide (resp.(total_token_count) = 0%Z)) then
      _ ← sp_caught (charge_budget run_id resp.(total_token_count));
      mret tt
    else mret tt
  end.

(** ** Tools *)

(** [run/fc-<function_call_id>], unless [key_from] yields another. *)
Definition effect_key (tool : Tool) (args : pydict) (ctx : ToolContext) (run_id : string)
    : SP string :=
  let fc := if decide (ctx.(function_call_id) = "") then ""
            else run_id +:+ "/fc-" +:+ ctx.(function_call_id) in
  match meta_field key_from None tool with
  | None => mret fc
  | Some fn =>
    k ← sp_caught (invoke (KeyFrom fn (JObj args)) : P pyval);
    mret (match k with Ok v => str_or (key_or_empty v) fc | Err _ => fc end)
  end.

(** [str(ScopeDenied(..))] *)
Definition scope_denied_text (tool scope : string) (granted : gset string) : string :=
  "tape: effect " +:+ repr_str tool +:+ " requires scope " +:+ repr_str scope +:+
  ", not granted to run (granted=[" +:+
  String.concat ", " (map repr_str (merge_sort String.le (elements granted))) +:+ "])".

Definition denial (text scope tool : string) : json :=
  JObj [("error", JStr text); ("scope_denied", JBool true);
        ("required_scope", JStr scope); ("tool", JStr tool)].

(** The two contracts under which a body must not run without a journaled intent. *)
Definition needs_intent (tool : Tool) : bool :=
  bool_decide (meta_semantics tool = "non_idempotent") ||
  bool_decide (meta_dispatch tool = "outbox").

(** The answer when [begin_effect] raised. *)
Definition begin_failed (tool : Tool) (ex : exn) : option json :=
  if decide (ex = RpcError "PERMISSION_DENIED") then
    Some (denial ("tape: begin_effect denied: " +:+ exn_details ex)
            (meta_field scope "" tool) tool.(tool_name))
  else if needs_intent tool then
    Some (JObj [("error", JStr ("tape: begin_effect refused: " +:+ str_exn ex))])
  else None.

Definition begin_request (tool : Tool) (args : pydict) (run_id : string) (dec_idx call_idx : Z)
    (custom_key bk : string) : BeginEffectRequest.t :=
  BeginEffectRequest.mk run_id dec_idx tool.(tool_name) call_idx (dumps (JObj args)) custom_key
    (semantics_to_pb (meta_semantics tool)) (dispatch_to_pb (meta_dispatch tool)) bk
    (meta_field connector "" tool) (meta_field scope "" tool).

(** The keys [before_tool] leaves in the context's state. *)
Definition note_effect (tool : Tool) (run_id key bk : string) (st : PS) : PS :=
  PluginState.set_temp
    (<["temp:_tape_effect_semantics" := meta_semantics tool]>
      (<["temp:_tape_business_key" := bk]>
        (<["temp:_tape_run_id" := run_id]>
          (<["temp:_tape_idempotency_key" := key]> st.(PluginState.temp))))) st.

Definition accepted (tool : Tool) (key bk : string) : json :=
  JObj [("tape_status", JStr "accepted"); ("effect_key", JStr key);
        ("dispatch_mode", JStr "outbox"); ("connector", JStr (meta_field connector "" tool));
        ("business_key", JStr bk)].

(** [get_effect], for the external reference a connector already observed. *)
Definition note_external_ref (run_id key : string) : SP unit :=
  eff ← sp_caught (rpc_get_effect run_id key);
  match eff with
  | Ok (Some e) =>
    if decide (e.(PbEffect.external_ref) = "") then mret tt
    else sp_modify (fun st => PluginState.set_temp
           (<["temp:_tape_external_ref" := e.(PbEffect.external_ref)]> st.(PluginState.temp)) st)
  | _ => mret tt
  end.

(** The answer once the intent is journaled. *)
Definition journaled (tool : Tool) (run_id bk : string) (resp : BeginEffectResponse)
    : SP (option json) :=
  let key := resp.(br_idempotency_key) in
  _ ← sp_modify (note_effect tool run_id key bk);
  if decide (resp.(br_status) = EFFECT_STATUS_CONFIRMED) then
    mret (tool_result (loads_or_empty resp.(br_response_json)))
  else if decide (meta_dispatch tool = "outbox" /\ resp.(br_status) = EFFECT_STATUS_PENDING) then
    _ ← note_external_ref run_id key;
    mret (Some (accepted tool key bk))
  else mret None.

(** [scope not in granted], for a declared scope. *)
Definition scope_refused (tool : Tool) (granted : gset string) : bool :=
  let scope := meta_field scope "" tool in
  negb (bool_decide (scope = "")) && negb (bool_decide (scope ∈ granted)).

(** The keys of the call, the scope check, and [begin_effect]. *)
Definition begin_call (tool : Tool) (args : pydict) (ctx : ToolContext) (run_id : string)
    (dec_idx call_idx : Z) : SP (option json) :=
  custom_key ← effect_key tool args ctx run_id;
  bk ← sp_call (call_business_key (meta_field business_key NoKey tool) (JObj args));
  st ← sp_get;
  let granted := default ∅ (st.(PluginState.run_scopes) !! run_id) in
  let scope := meta_field scope "" tool in
  if scope_refused tool granted then
    mret (Some (denial (scope_denied_text tool.(tool_name) scope granted) scope tool.(tool_name)))
  else
    resp ← sp_caught (rpc_begin_effect (begin_request tool args run_id dec_idx call_idx custom_key bk));
    match resp with
    | Ok resp => journaled tool run_id bk resp
    | Err ex => mret (begin_failed tool ex)
    end.

Definition before_tool_callback (tool : Tool) (args : pydict) (ctx : ToolContext)
    : SP (option json) :=
  st ← sp_get;
  let inv := ctx.(invocation_id) in
  let run_id := default "" (st.(PluginState.run) !! inv) in
  if decide (run_id = "") then mret None else
  let dec_idx := default (-1)%Z (st.(PluginState.dlast) !! inv) in
  let tkey := (inv, dec_idx, tool.(tool_name)) in
  let call_idx := default 0%Z (st.(PluginState.tcount) !! tkey) in
  _ ← sp_modify (fun st =>
        PluginState.set_tcount (<[tkey := (call_idx + 1)%Z]> st.(PluginState.tcount)) st);
  refused ← refused_by_budget run_id;
  match refused with
  | Some reason => mret (Some (JObj [("error", JStr ("tape: budget exhausted — " +:+ reason))]))
  | None => begin_call tool args ctx run_id dec_idx call_idx
  end.

(** The marker [before_tool] answered for an outbox effect, seen as the tool's result. *)
Definition is_outbox_accepted (tool : Tool) (res : pyval) : bool :=
  bool_decide (meta_field dispatch "" tool = "outbox") &&
  match res with
  | VDict d => match dict_get "tape_status" d with
               | Some (VStr s) => bool_decide (s = "accepted")
               | _ => false
               end
  | _ => false
  end.

(** [{**(tool_args or {}), **(result if isinstance(result, dict) else {})}] *)
Definition default_payload (args : pydict) (res : pyval) : json :=
  JObj (merge args (match to_json res with JObj d => d | _ => [] end)).

Definition declared_payload (m : Meta) (args : pydict) (res : pyval) : SP json :=
  match m.(declared).(compensation_payload) with
  | None => mret (default_payload args res)
  | Some fn =>
    v ← sp_caught (invoke (PayloadOf fn (JObj args) (to_json res)) : P pyval);
    mret (match v with
          | Ok v => if py_truthy v then to_json v else JObj []
          | Err _ => JObj []
          end)
  end.

(** [if comp is not None: ..] *)
Definition register_declared (m : Meta) (args : pydict) (res : pyval) (run_id key : string)
    : SP unit :=
  match m.(declared).(compensate) with
  | None => mret tt
  | Some comp =>
    let kind := name_or comp "compensate" in
    _ ← sp_modify (fun st => PluginState.set_registries
          (register_compensator kind comp st.(PluginState.registries)) st);
    payload ← declared_payload m args res;
    _ ← sp_caught (rpc_register_compensation run_id key kind (dumps payload)
          m.(compensator_ref) m.(declared).(drain_attempts));
    mret tt
  end.

Definition after_tool_callback (tool : Tool) (args : pydict) (ctx : ToolContext) (res : pyval)
    : SP unit :=
  st ← sp_get;
  let '(run_id, key) := tool_keys ctx st in
  if decide (run_id = "" \/ key = "") then mret tt
  else if is_outbox_accepted tool res then mret tt
  else
    _ ← sp_caught (rpc_complete_effect run_id key EFFECT_STATUS_CONFIRMED (dumps (to_json res)) "");
    match tool.(tool_meta) with
    | Some m => register_declared m args res run_id key
    | None => mret tt
    end.

(** [isinstance(error, AckLost)] *)
Definition ack_lost (ex : exn) : bool :=
  match ex with Raised name _ => bool_decide (name = "AckLost") | _ => false end.

Definition on_tool_error_callback (ctx : ToolContext) (error : exn) : SP unit :=
  st ← sp_get;
  let '(run_id, key) := tool_keys ctx st in
  if decide (run_id = "" \/ key = "") then mret tt
  else
    _ ← sp_caught (rpc_complete_effect run_id key
          (if ack_lost error then EFFECT_STATUS_UNKNOWN else EFFECT_STATUS_FAILED) ""
          (dumps (JObj [("type", JStr (exn_name error)); ("message", JStr (str_exn error))])));
    mret tt.
End plugin.
