(* ===== verification/SdkPluginTheorems.v ===== *)
(** * SdkPluginTheorems: the ADK callbacks of the gRPC tier

    What [before_tool] answers for each answer of the server, and what that guarantees:
    a body that needs a journaled intent runs only with one, a missing scope stops the
    call before the server, positions are never given twice. How a re-drive continues. *)
From Stdlib Require Import QArith.
From S2P Require Import Prelude Scenarios ScenarioTheorems Contracts Client Identity SdkPlugin SdkSamples.
#[local] Open Scope Z_scope.
#[local] Open Scope nat_scope.
#[local] Arguments wp : simpl never.

#[local] Opaque HARD_CAP.

(** ** Reasoning about callbacks *)

(** Every execution of a callback returns, in a state and with a result that satisfy
    [Q]. *)
Definition swp {A} (m : SP A) (st : PS) (Q : list (event answer) -> result A -> PS -> Prop) : Prop :=
  wp (m st) (fun t o => exists r st', o = Ok (r, st') /\ Q t r st').

Lemma swp_exec {A} (m : SP A) st Q t o :
  swp m st Q -> exec (m st) t o -> exists r st', o = Ok (r, st') /\ Q t r st'.
Proof. intros Hw He. apply (wp_exec _ _ _ _ Hw He). Qed.

Lemma swp_mono {A} (m : SP A) st (Q Q' : list (event answer) -> result A -> PS -> Prop) :
  (forall t r st', Q t r st' -> Q' t r st') -> swp m st Q -> swp m st Q'.
Proof. intros HQ. apply wp_mono. intros t o (r & st' & -> & HQt). eauto. Qed.

Lemma swp_ret {A} (a : A) st (Q : list (event answer) -> result A -> PS -> Prop) :
  Q [] (Ok a) st -> swp (mret a) st Q.
Proof. intros HQ. apply wp_ret. eauto. Qed.

Lemma swp_bind {A B} (m : SP A) (f : A -> SP B) st Q :
  swp m st (fun t r st' => match r with
    | Ok a => swp (f a) st' (fun t' => Q (t ++ t'))
    | Err e => Q t (Err e) st'
    end) -> swp (m ≫= f) st Q.
Proof.
  intros Hm. apply wp_bind. eapply wp_mono, Hm. intros t o ([a|e] & st' & -> & HQ); cbn.
  - exact HQ.
  - apply wp_ret. rewrite app_nil_r. eauto.
Qed.

Lemma swp_get st (Q : list (event answer) -> result PS -> PS -> Prop) :
  Q [] (Ok st) st -> swp sp_get st Q.
Proof. apply swp_ret. Qed.
Lemma swp_modify f st (Q : list (event answer) -> result unit -> PS -> Prop) :
  Q [] (Ok tt) (f st) -> swp (sp_modify f) st Q.
Proof. intros HQ. apply wp_ret. eauto. Qed.
Lemma swp_call {A} (p : P A) st (Q : list (event answer) -> result A -> PS -> Prop) :
  wp p (fun t r => Q t r st) -> swp (sp_call p) st Q.
Proof.
  intros Hp. apply wp_bind, wp_caught. eapply wp_mono, Hp. intros t r HQ. apply wp_ret.
  rewrite app_nil_r. eauto.
Qed.
Lemma swp_caught {A} (p : P A) st (Q : list (event answer) -> result (result A) -> PS -> Prop) :
  wp p (fun t r => Q t (Ok r) st) -> swp (sp_caught p) st Q.
Proof.
  intros Hp. apply wp_bind, wp_caught. eapply wp_mono, Hp. intros t r HQ. apply wp_ret.
  rewrite app_nil_r. eauto.
Qed.

(** One call, and one step of a callback. *)
Ltac call_step :=
  lazymatch goal with |- wp (invoke ?c) _ => apply (wp_invoke (R:=answer) c); intros ?ans end.
Ltac swp_step :=
  cbn beta iota;
  match goal with
  | |- swp (mbind _ _) _ _ => apply swp_bind
  | |- swp (mret _) _ _ => apply swp_ret
  | |- swp sp_get _ _ => apply swp_get
  | |- swp (sp_modify _) _ _ => apply swp_modify
  | |- swp (sp_call (invoke _)) _ _ => apply swp_call; call_step
  | |- swp (sp_caught (invoke _)) _ _ => apply swp_caught; call_step
  | |- swp (sp_call (lift ?r)) _ _ => apply swp_call; destruct r; cbn [lift]
  end; cbn beta iota.

(** ** What no callback but [before_tool] asks *)

Definition not_begin (ev : event answer) : Prop :=
  match ev_call ev with BeginEffect _ => False | _ => True end.
Abbreviation no_begin := (Forall not_begin).

(** The requests to journal an effect, with their answers. *)
Definition begun_by (ev : event answer) : option (BeginEffectRequest.t * result BeginEffectResponse) :=
  match ev with
  | Ev c r =>
    match c return result (answer c) -> option (BeginEffectRequest.t * result BeginEffectResponse) with
    | BeginEffect req => fun r => Some (req, r)
    | _ => fun _ => None
    end r
  end.
Definition begun (t : list (event answer)) : list (BeginEffectRequest.t * result BeginEffectResponse) :=
  omap begun_by t.

Lemma begun_app t t' : begun (t ++ t') = begun t ++ begun t'.
Proof. apply omap_app. Qed.
Lemma begun_none t : no_begin t -> begun t = [].
Proof.
  induction 1 as [|[c r] t Hc _ IH]; [done|]. unfold begun in *. cbn [omap list_omap].
  rewrite IH. by destruct c.
Qed.

Section theorems.
Context `{PyText}.
Variable valid_response : string -> bool.
Variable config : PluginConfig.

Lemma try_shapes_ok fn args shapes :
  wp (try_shapes fn args shapes) (fun t o => is_ok o = true /\ no_begin t).
Proof.
  induction shapes as [|n rest IH]; cbn [try_shapes]; [by repeat constructor|].
  apply wp_bind, wp_caught. call_step.
  assert (Hr : no_begin [Ev (KeyShape fn n args) ans]) by (by repeat constructor).
  destruct ans as [v|[]]; try (apply wp_ret; by rewrite app_nil_r).
  eapply wp_mono, IH. intros t o [Ho Ht]. split; [done|]. by apply Forall_app_2.
Qed.

Lemma business_key_ok k args :
  wp (call_business_key k args) (fun t o => is_ok o = true /\ no_begin t).
Proof. destruct k; [by repeat constructor..|]. apply try_shapes_ok. Qed.

Lemma effect_key_ok tool args ctx run_id st :
  swp (effect_key tool args ctx run_id) st (fun t r st' => is_ok r = true /\ no_begin t /\ st' = st).
Proof.
  unfold effect_key. destruct (meta_field key_from None tool) as [fn|]; [|by apply swp_ret; repeat constructor].
  repeat swp_step. by repeat constructor.
Qed.

(** ** The answer of [before_tool] *)

(** What the callback answers when [begin_effect] answered. *)
Definition effect_answer (tool : Tool) (bk : string) (ans : result BeginEffectResponse)
    : option json :=
  match ans with
  | Err ex => begin_failed tool ex
  | Ok resp =>
    if decide (resp.(br_status) = EFFECT_STATUS_CONFIRMED)
    then tool_result (loads_or_empty resp.(br_response_json))
    else if decide (meta_dispatch tool = "outbox" /\ resp.(br_status) = EFFECT_STATUS_PENDING)
    then Some (accepted tool resp.(br_idempotency_key) bk)
    else None
  end.

(** The state when the callback returned: the key of the effect is noted exactly when
    the intent was journaled. *)
Definition effect_noted (run_id : string) (ans : result BeginEffectResponse) (st st' : PS) : Prop :=
  st'.(PluginState.tcount) = st.(PluginState.tcount) /\
  st'.(PluginState.run) = st.(PluginState.run) /\
  match ans with
  | Ok resp => st'.(PluginState.temp) !! "temp:_tape_idempotency_key" = Some resp.(br_idempotency_key) /\
               st'.(PluginState.temp) !! "temp:_tape_run_id" = Some run_id
  | Err _ => st'.(PluginState.temp) = st.(PluginState.temp)
  end.

(** The call with its effect journaled, or attempted to be, at a position. *)
Definition asked (tool : Tool) (args : pydict) (run_id : string) (dec_idx call_idx : Z)
    (st : PS) (t : list (event answer)) (r : result (option json)) (st' : PS) : Prop :=
  exists pre custom_key bk ans post,
    t = pre ++ Ev (BeginEffect (begin_request tool args run_id dec_idx call_idx custom_key bk)) ans :: post /\
    no_begin pre /\ no_begin post /\
    r = Ok (effect_answer tool bk ans) /\ effect_noted run_id ans st st'.

(** The call stopped by its scope. *)
Definition denied (tool : Tool) (st : PS) (t : list (event answer)) (r : result (option json))
    (st' : PS) : Prop :=
  no_begin t /\ st' = st /\
  exists text, r = Ok (Some (denial text (meta_field scope "" tool) tool.(tool_name))).

Lemma journaled_spec tool run_id bk resp st :
  swp (journaled tool run_id bk resp) st (fun t r st' =>
    no_begin t /\ r = Ok (effect_answer tool bk (Ok resp)) /\ effect_noted run_id (Ok resp) st st').
Proof.
  assert (Hnote : effect_noted run_id (Ok resp) st
            (note_effect tool run_id resp.(br_idempotency_key) bk st))
    by (split_and!; cbn; by simplify_map_eq).
  unfold journaled, effect_answer. do 2 swp_step. case_decide; [by apply swp_ret|].
  case_decide; [|by apply swp_ret]. swp_step. unfold note_external_ref. swp_step.
  unfold rpc_get_effect. swp_step. destruct ans as [[e|]|ex];
    [|do 2 swp_step; split_and!; [cbn; by repeat constructor|done..]..].
  case_decide; do 2 swp_step; (split_and!; [cbn; by repeat constructor|done|]); [done|].
  split_and!; cbn; by simplify_map_eq.
Qed.

Lemma begin_call_spec tool args ctx run_id dec_idx call_idx st :
  swp (begin_call tool args ctx run_id dec_idx call_idx) st (fun t r st' =>
    if scope_refused tool (default ∅ (st.(PluginState.run_scopes) !! run_id))
    then denied tool st t r st' else asked tool args run_id dec_idx call_idx st t r st').
Proof.
  unfold begin_call. swp_step. eapply swp_mono, effect_key_ok.
  intros t1 r1 st1 (Ho & Ht1 & ->). destruct r1 as [ck|]; [clear Ho|done].
  swp_step. apply swp_call. eapply wp_mono, business_key_ok.
  intros t2 r2 (Ho & Ht2). destruct r2 as [bk|]; [clear Ho|done].
  swp_step. swp_step. destruct (scope_refused _ _).
  - swp_step. rewrite !app_nil_r. split; [by apply Forall_app_2|eauto].
  - swp_step. unfold rpc_begin_effect. swp_step. destruct ans as [resp|ex].
    + eapply swp_mono, journaled_spec. intros t3 r3 st3 (Ht3 & -> & Hn).
      exists (t1 ++ t2), ck, bk, (Ok resp), t3. split_and!; [by rewrite <- app_assoc|by apply Forall_app_2|done..].
    + swp_step. exists (t1 ++ t2), ck, bk, (Err ex), [].
      split_and!; [by rewrite <- app_assoc|by apply Forall_app_2|done..].
Qed.

(** The state once the call is counted: the position it was given. *)
Definition position (tool : Tool) (inv : string) (st : PS) : string * Z * string :=
  (inv, default (-1)%Z (st.(PluginState.dlast) !! inv), tool.(tool_name)).
Definition counted (tool : Tool) (inv : string) (st : PS) : PS :=
  let tkey := position tool inv st in
  PluginState.set_tcount
    (<[tkey := (default 0 (st.(PluginState.tcount) !! tkey) + 1)%Z]> st.(PluginState.tcount)) st.

(** The call was stopped before the server was asked to journal it. *)
Definition stopped (t : list (event answer)) (r : result (option json)) (st st' : PS) : Prop :=
  no_begin t /\ st' = st /\ forall x, r = Ok x -> is_Some x.

(** [before_tool] in a known run: the position is counted, and the call is stopped, or
    its effect asked for at that position. *)
Lemma before_tool_spec tool args ctx st run_id :
  let inv := ctx.(invocation_id) in
  st.(PluginState.run) !! inv = Some run_id -> run_id <> "" ->
  swp (before_tool_callback tool args ctx) st (fun t r st' =>
    stopped t r (counted tool inv st) st' \/
    (scope_refused tool (default ∅ (st.(PluginState.run_scopes) !! run_id)) = false /\
     asked tool args run_id (position tool inv st).1.2
       (default 0%Z (st.(PluginState.tcount) !! position tool inv st)) (counted tool inv st) t r st')).
Proof.
  intros inv Hrun Hne. unfold before_tool_callback. do 2 swp_step. cbv zeta. fold inv. rewrite Hrun.
  cbn [default from_option id]. rewrite decide_False by done.
  assert (Hgo : forall t0, no_begin t0 ->
    swp (begin_call tool args ctx run_id (position tool inv st).1.2
           (default 0%Z (st.(PluginState.tcount) !! position tool inv st))) (counted tool inv st)
      (fun t r st' => stopped (t0 ++ t) r (counted tool inv st) st' \/
        (scope_refused tool (default ∅ (st.(PluginState.run_scopes) !! run_id)) = false /\
         asked tool args run_id (position tool inv st).1.2
           (default 0%Z (st.(PluginState.tcount) !! position tool inv st)) (counted tool inv st)
           (t0 ++ t) r st'))).
  { intros t0 Ht0. eapply swp_mono, begin_call_spec. intros t r st'. cbn [counted PluginState.set_tcount PluginState.run_scopes].
    destruct (scope_refused _ _).
    - intros (Ht & -> & text & ->). left. split_and!; [by apply Forall_app_2|done|]. intros x [= <-]. eauto.
    - intros (pre & ck & bk & ans & post & -> & Hpre & Hrest). right. split; [done|].
      exists (t0 ++ pre), ck, bk, ans, post. split_and!; [by rewrite <- app_assoc|by apply Forall_app_2|apply Hrest..]. }
  swp_step. swp_step. swp_step. unfold refused_by_budget. swp_step. swp_step. cbn beta iota.
  case_decide; [|swp_step; by apply Hgo].
  swp_step. unfold admit_budget. swp_step. destruct ans as [[[|] reason]|ex].
  - swp_step. apply Hgo. by repeat constructor.
  - do 2 swp_step. left. split_and!; [cbn; by repeat constructor|done|]. intros x [= <-]. eauto.
  - left. split_and!; [cbn; by repeat constructor|done|]. by intros x.
Qed.

(** ** A body that needs an intent runs only with one *)

(** C5: A tool declared non-idempotent or dispatched through the outbox, in a journaled run:
    when [before_tool] lets ADK run the body, the server had acknowledged the intent,
    for this tool and under its contract; the effect was not confirmed, or was with a
    response that reads as [null]; and it was not a pending outbox effect. *)
Theorem body_needs_intent tool args ctx st run_id t st' :
  st.(PluginState.run) !! ctx.(invocation_id) = Some run_id -> run_id <> "" ->
  needs_intent tool = true ->
  exec (before_tool_callback tool args ctx st) t (Ok (Ok None, st')) ->
  exists req resp, Ev (BeginEffect req) (Ok resp) ∈ t /\
    BeginEffectRequest.run_id req = run_id /\
    BeginEffectRequest.tool_name req = tool.(tool_name) /\
    BeginEffectRequest.semantics req = semantics_to_pb (meta_semantics tool) /\
    BeginEffectRequest.dispatch_mode req = dispatch_to_pb (meta_dispatch tool) /\
    st'.(PluginState.temp) !! "temp:_tape_idempotency_key" = Some resp.(br_idempotency_key) /\
    (resp.(br_status) = EFFECT_STATUS_CONFIRMED -> loads_or_empty resp.(br_response_json) = JNull) /\
    (meta_dispatch tool = "outbox" -> resp.(br_status) <> EFFECT_STATUS_PENDING).
Proof.
  intros Hrun Hne Hneeds He.
  destruct (swp_exec _ _ _ _ _ (before_tool_spec tool args ctx st run_id Hrun Hne) He)
    as (r & st2 & [= <- <-] & [(_ & _ & Hx)|(_ & pre & ck & bk & ans & post & -> & _ & _ & Hr & _ & _ & Htemp)]).
  { by destruct (Hx None eq_refl). }
  destruct ans as [resp|ex]; unfold effect_answer, begin_failed in Hr; [|rewrite Hneeds in Hr; by case_decide].
  destruct Htemp as [Hkey _]. eexists _, resp. split; [apply elem_of_app; right; left|].
  split_and!; [done..| |].
  - intros Hc. rewrite decide_True in Hr by done. by destruct (loads_or_empty _).
  - intros Ho Hp. rewrite decide_False in Hr by (rewrite Hp; done). by rewrite decide_True in Hr.
Qed.

(** C27: A declared scope the run was not granted stops the call: the server is not asked to
    journal it, and the body does not run. *)
Theorem missing_scope_stops_the_call tool args ctx st run_id t o :
  st.(PluginState.run) !! ctx.(invocation_id) = Some run_id -> run_id <> "" ->
  meta_field scope "" tool <> "" ->
  meta_field scope "" tool ∉ default ∅ (st.(PluginState.run_scopes) !! run_id) ->
  exec (before_tool_callback tool args ctx st) t o ->
  Forall not_begin t /\ forall st', o <> Ok (Ok None, st').
Proof.
  intros Hrun Hne Hs Hg He.
  destruct (swp_exec _ _ _ _ _ (before_tool_spec tool args ctx st run_id Hrun Hne) He)
    as (r & st2 & -> & [(Ht & _ & Hx)|(Href & _)]).
  - split; [done|]. intros st' [= -> ->]. by destruct (Hx None eq_refl).
  - unfold scope_refused in Href. by rewrite !bool_decide_false in Href.
Qed.

Lemma str_or_is s d x : x <> "" -> x <> d -> str_or s d = x <-> s = x.
Proof. unfold str_or. case_bool_decide; split; congruence. Qed.

(** C21: What the server answered to [begin_effect] decides what the agent sees: of a
    confirmed effect the recorded response, or an empty dict when none is readable; of a
    pending outbox effect the accepted marker; of any other inline effect nothing, so that
    the body runs; of a denied one the denial; of one that could not be journaled the
    error, when it is non-idempotent or goes through the outbox, and nothing otherwise.  An
    outbox effect is covered while it is pending or confirmed, a confirmed one when its
    response is not [null]. *)
Theorem before_tool_answers tool args ctx st run_id t o req ans :
  st.(PluginState.run) !! ctx.(invocation_id) = Some run_id -> run_id <> "" ->
  exec (before_tool_callback tool args ctx st) t o ->
  (req, ans) ∈ begun t ->
  (forall resp, ans = Ok resp ->
    (resp.(br_status) = EFFECT_STATUS_CONFIRMED -> resp.(br_response_json) <> "" ->
       loads resp.(br_response_json) <> Ok JNull) /\
    (meta_field dispatch "" tool = "outbox" ->
       resp.(br_status) = EFFECT_STATUS_CONFIRMED \/ resp.(br_status) = EFFECT_STATUS_PENDING)) ->
  let answer :=
    match ans with
    | Ok resp =>
      if decide (resp.(br_status) = EFFECT_STATUS_CONFIRMED) then
        Some (if decide (resp.(br_response_json) = "") then JObj []
              else match loads resp.(br_response_json) with Ok v => v | Err _ => JObj [] end)
      else if decide (meta_field dispatch "" tool = "outbox") then
        Some (JObj [("tape_status", JStr "accepted"); ("effect_key", JStr resp.(br_idempotency_key));
                    ("dispatch_mode", JStr "outbox"); ("connector", JStr (meta_field connector "" tool));
                    ("business_key", JStr (BeginEffectRequest.business_key req))])
      else None
    | Err ex =>
      if decide (ex = RpcError "PERMISSION_DENIED") then
        Some (JObj [("error", JStr ("tape: begin_effect denied: " +:+ exn_details ex));
                    ("scope_denied", JBool true); ("required_scope", JStr (meta_field scope "" tool));
                    ("tool", JStr tool.(tool_name))])
      else if decide (meta_field semantics "" tool = "non_idempotent" \/ meta_field dispatch "" tool = "outbox") then
        Some (JObj [("error", JStr ("tape: begin_effect refused: " +:+ str_exn ex))])
      else None
    end in
  exists st', o = Ok (Ok answer, st') /\
    effect_noted run_id ans (counted tool ctx.(invocation_id) st) st' /\
    BeginEffectRequest.call_index req =
      default 0%Z (st.(PluginState.tcount) !! position tool ctx.(invocation_id) st).
Proof.
  clear valid_response config. intros Hrun Hne He Hin Hcov answer.
  destruct (swp_exec _ _ _ _ _ (before_tool_spec tool args ctx st run_id Hrun Hne) He)
    as (r & st2 & -> & [(Ht & _)|(_ & pre & ck & bk & a & post & -> & Hpre & Hpost & -> & Hn)]).
  { rewrite begun_none in Hin by done. by apply not_elem_of_nil in Hin. }
  rewrite begun_app, begun_none in Hin by done. cbn in Hin. fold begun in Hin.
  rewrite begun_none in Hin by done. apply list_elem_of_singleton in Hin as [= -> ->].
  assert (Hd : meta_dispatch tool = "outbox" <-> meta_field dispatch "" tool = "outbox") by by apply str_or_is.
  assert (Hm : meta_semantics tool = "non_idempotent" <-> meta_field semantics "" tool = "non_idempotent")
    by by apply str_or_is.
  exists st2. split; [|done]. do 3 f_equal. subst answer. cbn [BeginEffectRequest.business_key begin_request].
  destruct a as [resp|ex]; cbn [effect_answer].
  - destruct (Hcov resp eq_refl) as [Hc Ho].
    destruct (decide (br_status resp = EFFECT_STATUS_CONFIRMED)) as [Hs|Hs].
    + specialize (Hc Hs). unfold loads_or_empty, tool_result.
      case_decide as Hr; [done|]. specialize (Hc Hr). by destruct (loads _) as [[]|].
    + destruct (decide (meta_field dispatch "" tool = "outbox")) as [Ho'|Ho'].
      * rewrite decide_True; [done|]. rewrite Hd. split; [done|]. by destruct (Ho Ho').
      * rewrite decide_False; [done|]. by rewrite Hd; intros [].
  - unfold begin_failed, needs_intent. case_decide; [done|].
    rewrite (bool_decide_ext _ _ Hd), (bool_decide_ext _ _ Hm).
    repeat case_bool_decide; case_decide; tauto || done.
Qed.

(** ** Positions are given once *)

(** The callbacks ADK makes inside one invocation. *)
Inductive callback :=
  | BeforeModel
  | AfterModel (policy_version : string) (resp : LlmResponse)
  | BeforeTool (tool : Tool) (args : pydict) (fc : string)
  | AfterTool (tool : Tool) (args : pydict) (fc : string) (res : pyval)
  | OnToolError (fc : string) (error : exn).

Definition turn (inv : string) (c : callback) : SP unit :=
  match c with
  | BeforeModel => _ ← before_model_callback valid_response config inv; mret tt
  | AfterModel policy resp => after_model_callback inv policy resp
  | BeforeTool tool args fc => _ ← before_tool_callback tool args (mkToolContext inv fc); mret tt
  | AfterTool tool args fc res => after_tool_callback tool args (mkToolContext inv fc) res
  | OnToolError fc e => on_tool_error_callback (mkToolContext inv fc) e
  end.

(** Any sequence of them, in any order, with what each asked. *)
Inductive turns (inv : string) : PS -> list (event answer) -> PS -> Prop :=
  | turns_nil st : turns inv st [] st
  | turns_cons c st t r st1 t' st2 :
      exec (turn inv c st) t (Ok (r, st1)) -> turns inv st1 t' st2 ->
      turns inv st (t ++ t') st2.

(** The position of a request: its decision, tool and call. *)
Definition place (r : BeginEffectRequest.t * result BeginEffectResponse) : Z * string * Z :=
  (BeginEffectRequest.decision_index r.1, BeginEffectRequest.tool_name r.1,
   BeginEffectRequest.call_index r.1).

Definition calls_at (inv : string) (d : Z) (tool : string) (st : PS) : Z :=
  default 0%Z (st.(PluginState.tcount) !! (inv, d, tool)).

(** What one callback does to the counters. *)
Definition counts (inv : string) (t : list (event answer)) (st st' : PS) : Prop :=
  (forall d tool, calls_at inv d tool st <= calls_at inv d tool st')%Z /\
  (begun t = [] \/ exists r d tool, begun t = [r] /\
     place r = (d, tool, calls_at inv d tool st) /\
     (calls_at inv d tool st < calls_at inv d tool st')%Z).

Lemma counts_same inv t st st' :
  no_begin t -> st'.(PluginState.tcount) = st.(PluginState.tcount) -> counts inv t st st'.
Proof.
  intros Ht Htc. split; [|left; by apply begun_none]. intros d tool. unfold calls_at. rewrite Htc. lia.
Qed.

(** A callback that asks for no effect and leaves the counters. *)
Abbreviation quiet m st := (swp m st (fun t r st' =>
  no_begin t /\ st'.(PluginState.tcount) = st.(PluginState.tcount))).

Lemma quiet_bind {A B} (m : SP A) (f : A -> SP B) st :
  quiet m st -> (forall a st', quiet (f a) st') -> quiet (m ≫= f) st.
Proof.
  intros Hm Hf. apply swp_bind. eapply swp_mono, Hm. intros t [a|e] st' [Ht Heq]; [|done].
  eapply swp_mono, Hf. intros t' r st2 [Ht' Heq']. split; [by apply Forall_app_2|congruence].
Qed.
Lemma quiet_ret {A} (a : A) st : quiet (mret a) st.
Proof. by apply swp_ret. Qed.
Lemma quiet_get st : quiet sp_get st.
Proof. by apply swp_get. Qed.
Lemma quiet_modify f st :
  (f st).(PluginState.tcount) = st.(PluginState.tcount) -> quiet (sp_modify f) st.
Proof. intros Hf. by apply swp_modify. Qed.
Lemma quiet_call {A} (p : P A) st : wp p (fun t _ => no_begin t) -> quiet (sp_call p) st.
Proof. intros Hp. apply swp_call. eapply wp_mono, Hp. done. Qed.
Lemma quiet_caught {A} (p : P A) st : wp p (fun t _ => no_begin t) -> quiet (sp_caught p) st.
Proof. intros Hp. apply swp_caught. eapply wp_mono, Hp. done. Qed.

Ltac quiet_step :=
  match goal with
  | |- swp (mbind _ _) _ _ => apply quiet_bind; [|intros ? ?]
  | |- swp (mret _) _ _ => apply quiet_ret
  | |- swp sp_get _ _ => apply quiet_get
  | |- swp (sp_modify _) _ _ => apply quiet_modify; reflexivity
  | |- swp (sp_call _) _ _ => apply quiet_call; autounfold with rpc; repeat closed_step; by repeat constructor
  | |- swp (sp_caught _) _ _ => apply quiet_caught; autounfold with rpc; repeat closed_step; by repeat constructor
  | |- swp (match ?x with _ => _ end) _ _ => destruct x
  end.

Lemma cancelled_quiet inv run_id st : quiet (cancelled config inv run_id) st.
Proof. unfold cancelled, should_check_cancel. repeat quiet_step. Qed.
Lemma refused_quiet run_id st : quiet (refused_by_budget run_id) st.
Proof. unfold refused_by_budget. repeat quiet_step. Qed.
Lemma before_model_quiet inv st : quiet (before_model_callback valid_response config inv) st.
Proof.
  unfold before_model_callback, recorded_decision.
  repeat first [apply cancelled_quiet|apply refused_quiet|quiet_step].
Qed.
Lemma after_model_quiet inv policy resp st : quiet (after_model_callback inv policy resp) st.
Proof. unfold after_model_callback. repeat quiet_step. Qed.
Lemma after_tool_quiet tool args ctx res st : quiet (after_tool_callback tool args ctx res) st.
Proof. unfold after_tool_callback, register_declared, declared_payload. repeat quiet_step. Qed.
Lemma on_tool_error_quiet ctx e st : quiet (on_tool_error_callback ctx e) st.
Proof. unfold on_tool_error_callback. repeat quiet_step. Qed.

Lemma before_tool_counts tool args ctx st :
  swp (before_tool_callback tool args ctx) st (fun t _ st' => counts ctx.(invocation_id) t st st').
Proof.
  set (inv := ctx.(invocation_id)).
  destruct (decide (default "" (st.(PluginState.run) !! inv) = "")) as [He|Hne].
  { unfold before_tool_callback. do 2 swp_step. cbv zeta. fold inv. rewrite decide_True by done.
    swp_step. by apply counts_same. }
  destruct (st.(PluginState.run) !! inv) as [run_id|] eqn:Hrun; [|done].
  assert (Hlt : forall st', st'.(PluginState.tcount) = (counted tool inv st).(PluginState.tcount) ->
    (forall d tl, calls_at inv d tl st <= calls_at inv d tl st')%Z /\
    (calls_at inv (position tool inv st).1.2 tool.(tool_name) st <
     calls_at inv (position tool inv st).1.2 tool.(tool_name) st')%Z).
  { intros st' Heq. unfold calls_at. rewrite Heq.
    change (inv, (position tool inv st).1.2, tool.(tool_name)) with (position tool inv st).
    cbn [counted PluginState.set_tcount PluginState.tcount]. split.
    - intros d tl. destruct (decide (position tool inv st = (inv, d, tl))) as [Hp|Hp];
        [rewrite Hp; simplify_map_eq; lia|by rewrite lookup_insert_ne].
    - simplify_map_eq. lia. }
  eapply swp_mono, (before_tool_spec tool args ctx st run_id Hrun Hne).
  intros t r st' [(Ht & -> & _)|(_ & pre & ck & bk & ans & post & -> & Hpre & Hpost & _ & Htc & _)].
  - split; [by apply Hlt|]. left. by apply begun_none.
  - destruct (Hlt st' Htc) as [Hle Hl]. split; [done|]. right.
    eexists _, _, _. split; [rewrite begun_app, begun_none by done; cbn; fold begun; by rewrite begun_none|].
    by split.
Qed.

Lemma swp_then_ret {A} (m : SP A) st (Q : list (event answer) -> PS -> Prop) :
  swp m st (fun t _ st' => Q t st') -> swp (_ ← m; mret tt) st (fun t _ st' => Q t st').
Proof.
  intros Hm. apply swp_bind. eapply swp_mono, Hm. intros t [a|e] st' HQ; [|done].
  apply swp_ret. by rewrite app_nil_r.
Qed.

Lemma turn_counts inv c st : swp (turn inv c) st (fun t _ st' => counts inv t st st').
Proof.
  assert (Hq : forall A (m : SP A), quiet m st -> swp m st (fun t _ st' => counts inv t st st')).
  { intros A m. apply swp_mono. intros t r st' [Ht Htc]. by apply counts_same. }
  destruct c; cbn [turn].
  - apply swp_then_ret, Hq, before_model_quiet.
  - apply Hq, after_model_quiet.
  - apply swp_then_ret. apply (before_tool_counts tool args (mkToolContext inv fc)).
  - apply Hq, after_tool_quiet.
  - apply Hq, on_tool_error_quiet.
Qed.

Lemma turns_counts inv st t st' :
  turns inv st t st' ->
  (forall d tool, calls_at inv d tool st <= calls_at inv d tool st')%Z /\
  NoDup (map place (begun t)) /\
  Forall (fun r => exists d tool n, place r = (d, tool, n) /\ (calls_at inv d tool st <= n)%Z) (begun t).
Proof.
  induction 1 as [st|c st t r st1 t' st2 He _ (Hle & Hnd & Hge)]; [split_and!; [done|constructor..]|].
  destruct (swp_exec _ _ _ _ _ (turn_counts inv c st) He) as (? & ? & [= <- <-] & Hle1 & Hb).
  assert (Hge' : Forall (fun r => exists d tool n, place r = (d, tool, n) /\
    (calls_at inv d tool st <= n)%Z) (begun t')).
  { eapply Forall_impl; [exact Hge|]. intros q (d & tool & n & Hp & Hn). exists d, tool, n.
    specialize (Hle1 d tool). split; [done|lia]. }
  rewrite begun_app. split.
  { intros d tool. specialize (Hle1 d tool). specialize (Hle d tool). lia. }
  destruct Hb as [->|(q & d & tool & -> & Hp & Hlt)]; [done|]. cbn. split.
  - apply NoDup_cons. split; [|done]. rewrite Hp. intros (q' & Hq' & Hin)%list_elem_of_fmap.
    rewrite Forall_forall in Hge. destruct (Hge q' Hin) as (d' & tool' & n & Hp' & Hn).
    rewrite Hp' in Hq'. injection Hq' as <- <- <-. lia.
  - constructor; [|done]. exists d, tool, (calls_at inv d tool st). by split.
Qed.

(** C23: However the callbacks of one invocation interleave, no two effects of it are asked
    for at the same decision, tool and call. *)
Theorem positions_never_repeat inv st t st' :
  turns inv st t st' -> NoDup (map place (begun t)).
Proof. intros Ht. by apply (turns_counts inv st t st'). Qed.

(** ** Where a re-drive continues *)






(** A callback that leaves the places of the invocations. *)
Abbreviation stays m st := (swp m st (fun _ _ st' =>
  st'.(PluginState.run) = st.(PluginState.run) /\ st'.(PluginState.dnext) = st.(PluginState.dnext))).







End theorems.

(** ** Outcomes *)
Section outcomes.
Context `{PyText}.

Lemma declared_payload_ok m args res st :
  swp (declared_payload m args res) st (fun _ r st' => is_ok r = true /\ st' = st).
Proof.
  unfold declared_payload. destruct (compensation_payload _) as [fn|]; [|by swp_step].
  do 3 swp_step. done.
Qed.

(** The body's result confirms the effect [before_tool] left the key of, and a declared
    compensation is registered for it after, whether or not the completion was
    recorded; its compensator is in the process's registry then. *)
Theorem tool_result_recorded tool m args ctx res st t o run_id key comp :
  tool_keys ctx st = (run_id, key) -> run_id <> "" -> key <> "" ->
  is_outbox_accepted tool res = false ->
  tool.(tool_meta) = Some m -> m.(declared).(compensate) = Some comp ->
  exec (after_tool_callback tool args ctx res st) t o ->
  exists st' mid payload,
    o = Ok (Ok tt, st') /\
    map ev_call t =
      CompleteEffect run_id key EFFECT_STATUS_CONFIRMED (dumps (to_json res)) "" :: mid ++
      [RegisterCompensation run_id key (name_or comp "compensate") (dumps payload)
         m.(compensator_ref) m.(declared).(drain_attempts)] /\
    st'.(PluginState.registries).(compensators) !! name_or comp "compensate" = Some comp.
Proof.
  intros Hk Hr Hkey Hacc Hm Hc He.
  enough (Hw : swp (after_tool_callback tool args ctx res) st (fun t r st' => exists mid payload,
    r = Ok tt /\ map ev_call t =
      CompleteEffect run_id key EFFECT_STATUS_CONFIRMED (dumps (to_json res)) "" :: mid ++
      [RegisterCompensation run_id key (name_or comp "compensate") (dumps payload)
         m.(compensator_ref) m.(declared).(drain_attempts)] /\
    st'.(PluginState.registries).(compensators) !! name_or comp "compensate" = Some comp)).
  { destruct (swp_exec _ _ _ _ _ Hw He) as (r & st' & -> & mid & payload & -> & Ht & Hreg).
    by exists st', mid, payload. }
  unfold after_tool_callback. do 2 swp_step. rewrite Hk, Hacc, Hm. rewrite decide_False by tauto.
  swp_step. unfold rpc_complete_effect. swp_step. unfold register_declared. rewrite Hc.
  do 3 swp_step. eapply swp_mono, declared_payload_ok. intros t1 r1 st1 [Hok ->].
  destruct r1 as [payload|]; [clear Hok|done]. swp_step. unfold rpc_register_compensation. do 2 swp_step.
  exists (map ev_call t1), payload. split_and!; [done| |].
  - cbn. by rewrite fmap_app.
  - cbn. by rewrite lookup_insert_eq.
Qed.

(** [after_run] always returns and forgets the invocation; it ends the run only after
    the server said it is still running or runnable. *)
Theorem after_run_spares_settled_runs inv st t o :
  exec (after_run_callback inv st) t o ->
  (exists st', o = Ok (Ok tt, st') /\
     st'.(PluginState.run) !! inv = None /\ st'.(PluginState.dnext) !! inv = None /\
     st'.(PluginState.dlast) !! inv = None /\
     forall d tool, st'.(PluginState.tcount) !! (inv, d, tool) = None) /\
  (t = [] \/ exists run_id, st.(PluginState.run) !! inv = Some run_id /\
     (map ev_call t = [GetRun run_id] \/
      exists cur ended, t = [Ev (GetRun run_id) (Ok cur); Ev (EndRun run_id RUN_STATUS_TERMINAL "") ended] /\
        (cur.(PbRun.status) = RUN_STATUS_RUNNING \/ cur.(PbRun.status) = RUN_STATUS_RUNNABLE))).
Proof.
  intros He.
  enough (Hw : swp (after_run_callback inv) st (fun t r st' => r = Ok tt /\
    (exists st1, st' = forget_invocation inv st1) /\
    (t = [] \/ exists run_id, st.(PluginState.run) !! inv = Some run_id /\
     (map ev_call t = [GetRun run_id] \/
      exists cur ended, t = [Ev (GetRun run_id) (Ok cur); Ev (EndRun run_id RUN_STATUS_TERMINAL "") ended] /\
        (cur.(PbRun.status) = RUN_STATUS_RUNNING \/ cur.(PbRun.status) = RUN_STATUS_RUNNABLE))))).
  { destruct (swp_exec _ _ _ _ _ Hw He) as (r & st' & -> & -> & (st1 & ->) & Ht). split; [|done].
    eexists. split; [done|]. cbn. rewrite !lookup_delete_eq. split_and!; [done..|]. intros d tool.
    apply map_lookup_filter_None. right. intros x _. cbn. tauto. }
  unfold after_run_callback. do 3 swp_step. case_decide as Hd.
  { do 2 swp_step. split_and!; [done|by eexists|by left]. }
  destruct (st.(PluginState.run) !! inv) as [run_id|] eqn:Hrun; [|done]. cbn [default from_option id] in *.
  swp_step. apply swp_caught. unfold get_run, end_run.
  apply wp_bind. call_step. destruct ans as [cur|e]; cbn beta iota.
  - destruct (bool_decide _) eqn:H1; [|destruct (bool_decide (cur.(PbRun.status) = RUN_STATUS_RUNNABLE)) eqn:H2];
      cbn [orb]; [call_step|call_step|apply wp_ret]; do 2 swp_step;
      (split_and!; [done|by eexists|]); right; exists run_id; (split; [done|]).
    + right. exists cur, ans. split; [done|]. left. exact (bool_decide_eq_true_1 _ H1).
    + right. exists cur, ans. split; [done|]. right. exact (bool_decide_eq_true_1 _ H2).
    + by left.
  - do 2 swp_step. split_and!; [done|by eexists|]. right. exists run_id. split; [done|]. by left.
Qed.
End outcomes.

(** ** A concrete run *)

(** The Python value of a JSON document. *)
Fixpoint of_json (v : json) : pyval :=
  match v with
  | JNull => VNone | JBool b => VBool b | JInt z => VInt z | JFloat r => VFloat r
  | JStr s => VStr s
  | JList l => VList (map of_json l)
  | JObj d => VDict (map (fun kv => (kv.1, of_json kv.2)) d)
  end.

(** JSON text in which [null] is told from everything else. *)
Definition plain_text : PyText := {|
  dumps := fun v => match v with JNull => "null" | _ => "{}" end;
  loads := fun s => if decide (s = "null") then Ok JNull else Ok (JObj []);
  str_exn := fun _ => "boom"; exn_name := fun _ => "Exception"; exn_details := fun _ => "";
  str_json := fun _ => ""; int_text := fun _ => Ok 0%Z; float_text := fun _ => Ok 0%Q;
  repr_str := fun s => s; from_markup := fun s => Ok s |}.

Definition wire_declaration (dispatch scope : string) : Declaration :=
  mkDeclaration (Some reverse_fn) None None None None 5 "non_idempotent" dispatch "bank" NoKey scope false.
Definition wire_tool (dispatch scope : string) : Tool :=
  mkTool "wire" (Some (mkMeta (wire_declaration dispatch scope) "treasury:reverse_wire")).
Definition plugin_config : PluginConfig := mkPluginConfig None "host:1" 120000 false 5%Q no_identity.

(** Inside decision 0 of run [run-1], with the state mapping of the invocation. *)
Definition in_run (temp : gmap string string) : PS :=
  PluginState.mk {["inv" := "run-1"]} {["inv" := 1%Z]} {["inv" := 0%Z]} ∅ ∅ ∅
    {["run-1" := {["mcp:bank"]}]} no_registrations temp.
Definition ctx_of (fc : string) : ToolContext := mkToolContext "inv" fc.

(** A server whose [BeginEffect] answers a status and a response; a run has [d]
    decisions, and asking for decision [flaky] fails. *)
Definition plugin_world (status : Z) (response : string) (d flaky : Z) (c : call)
    : M unit (answer c) := fun w =>
  (match c return result (answer c) with
   | BeginRun _ _ _ _ _ _ _ _ _ _ _ _ _ _ => Ok ("run-1", true)
   | GetRun _ => Ok (PbRun.mk "run-1" "u" "s" "inv" RUN_STATUS_RUNNING ["mcp:bank"])
   | GetDecision _ i => if decide (i = flaky) then Err (RpcError "UNAVAILABLE")
                        else Ok (if decide (i < d)%Z then Some (PbDecision.mk i "m" "" "{}" "" "") else None)
   | BeginEffect _ => Ok (mkBeginEffectResponse "run-1/fc-2" status response)
   | GetEffect _ _ => Ok None
   | CompleteEffect _ _ _ _ _ | RegisterCompensation _ _ _ _ _ _ | EndRun _ _ _ => Ok tt
   | _ => Err TypeError
   end, w).

Definition asked_of {A} (w : forall c, M unit (answer c)) (p : P A) : list call :=
  map ev_call (trace w p tt).
Definition outcome {A} (w : forall c, M unit (answer c)) (p : P A) : result A := (run w p tt).1.

Definition returned {A} (o : result (result A * PS)) : option A :=
  match o with Ok (Ok a, _) => Some a | _ => None end.

Definition wire_inline : Tool := wire_tool "inline" "mcp:bank".
Definition wire_outbox : Tool := wire_tool "outbox" "mcp:bank".
Definition wire_unscoped : Tool := wire_tool "inline" "mcp:other".

(** One tool call as ADK makes it: a dict from [before_tool] stands for the result of
    the body, and [after_tool] sees either. *)
Definition tool_turn (tool : Tool) (body : pyval) (st : PS) : P (result unit * PS) :=
  before ← @before_tool_callback plain_text tool [] (ctx_of "2") st;
  match before with
  | (Ok r, st1) => @after_tool_callback plain_text tool [] (ctx_of "2")
                     (match r with Some v => of_json v | None => body end) st1
  | (Err e, st1) => mret (Err e, st1)
  end.
Definition default_request : BeginEffectRequest.t :=
  BeginEffectRequest.mk "" 0 "" 0 "" "" 0 0 "" "" "".

(** A tool that returns [None] is recorded confirmed with the text [null]; a re-drive,
    told that the effect is confirmed, runs the non-idempotent body again. *)
Lemma confirmed_none_runs_again :
  asked_of (plugin_world EFFECT_STATUS_PENDING "" 0 (-1))
    (@after_tool_callback plain_text (mkTool "wire" None) [] (ctx_of "2") VNone
       (in_run {["temp:_tape_idempotency_key" := "run-1/fc-2"]})) =
    [CompleteEffect "run-1" "run-1/fc-2" EFFECT_STATUS_CONFIRMED "null" ""] /\
  returned (outcome (plugin_world EFFECT_STATUS_CONFIRMED "null" 0 (-1))
    (@before_tool_callback plain_text wire_inline [] (ctx_of "2") (in_run ∅))) = Some None.
Proof. split; vm_compute; reflexivity. Qed.

(** A call refused for its scope leaves the key of the invocation's previous effect in
    the state mapping; when ADK hands the refusal to [after_tool] over the same mapping,
    that effect is recorded confirmed with the refusal as its response, and a
    compensation is registered for it. *)
Lemma refusal_recorded_on_earlier_effect :
  asked_of (plugin_world EFFECT_STATUS_PENDING "" 0 (-1))
    (tool_turn wire_unscoped (VDict []) (in_run {["temp:_tape_idempotency_key" := "run-1/fc-1"]})) =
  [CompleteEffect "run-1" "run-1/fc-1" EFFECT_STATUS_CONFIRMED "{}" "";
   RegisterCompensation "run-1" "run-1/fc-1" "reverse_wire" "{}" "treasury:reverse_wire" 5].
Proof. vm_compute. reflexivity. Qed.

(** An outbox effect whose outcome is unknown, re-driven: the body runs inline, and its
    result confirms the effect. *)
Lemma unknown_outbox_effect_runs_inline :
  map (fun c => match c with BeginEffect _ => BeginEffect default_request | c => c end)
    (asked_of (plugin_world EFFECT_STATUS_UNKNOWN "" 0 (-1))
      (tool_turn wire_outbox (VDict [("ok", VBool true)]) (in_run ∅))) =
  [BeginEffect default_request;
   CompleteEffect "run-1" "run-1/fc-2" EFFECT_STATUS_CONFIRMED "{}" "";
   RegisterCompensation "run-1" "run-1/fc-2" "reverse_wire" "{}" "treasury:reverse_wire" 5].
Proof. vm_compute. reflexivity. Qed.

(** Counting the decisions of a run of five stops at the first question that fails, so
    the re-drive's next model call replays decision 2. *)
Lemma failed_question_ends_the_count :
  outcome (plugin_world EFFECT_STATUS_PENDING "" 5 2) (count_decisions "run-1") = Ok 2%Z.
Proof. vm_compute. reflexivity. Qed.

(** ** Witnesses *)

Definition pending_world := plugin_world EFFECT_STATUS_PENDING "" 2 (-1).
Definition wire_call : P (result (option json) * PS) :=
  @before_tool_callback plain_text wire_inline [] (ctx_of "2") (in_run ∅).

Lemma body_needs_intent_witness :
  exists req resp, Ev (BeginEffect req) (Ok resp) ∈ trace pending_world wire_call tt /\
    BeginEffectRequest.run_id req = "run-1".
Proof.
  destruct (@body_needs_intent plain_text wire_inline [] (ctx_of "2") (in_run ∅) "run-1"
    (trace pending_world wire_call tt)
    (note_effect wire_inline "run-1" "run-1/fc-2" "" (counted wire_inline "inv" (in_run ∅))))
    as (req & resp & Hin & Hrun & _).
  - vm_compute. reflexivity.
  - discriminate.
  - vm_compute. reflexivity.
  - refine (eq_rect _ (exec _ _) (run_exec pending_world wire_call tt) _ _). vm_compute. reflexivity.
  - exists req, resp. exact (conj Hin Hrun).
Defined.

Definition unscoped_call : P (result (option json) * PS) :=
  @before_tool_callback plain_text wire_unscoped [] (ctx_of "2") (in_run ∅).
Lemma missing_scope_stops_the_call_witness :
  Forall not_begin (trace pending_world unscoped_call tt) /\
  forall st', (run pending_world unscoped_call tt).1 <> Ok (Ok None, st').
Proof.
  refine (@missing_scope_stops_the_call plain_text wire_unscoped [] (ctx_of "2") (in_run ∅) "run-1"
    _ (run pending_world unscoped_call tt).1 _ _ _ _ (run_exec pending_world unscoped_call tt)).
  - vm_compute. reflexivity.
  - discriminate.
  - discriminate.
  - apply (bool_decide_unpack _). vm_compute. exact I.
Defined.

Lemma before_tool_answers_witness :
  exists st', (run pending_world wire_call tt).1 = Ok (Ok None, st') /\
    effect_noted "run-1" (Ok (mkBeginEffectResponse "run-1/fc-2" EFFECT_STATUS_PENDING ""))
      (counted wire_inline "inv" (in_run ∅)) st'.
Proof.
  destruct (@before_tool_answers plain_text wire_inline [] (ctx_of "2") (in_run ∅) "run-1"
    (trace pending_world wire_call tt) (run pending_world wire_call tt).1
    (@begin_request plain_text wire_inline [] "run-1" 0 0 "run-1/fc-2" "")
    (Ok (mkBeginEffectResponse "run-1/fc-2" EFFECT_STATUS_PENDING "")))
    as (st' & Ho & Hn & _).
  - vm_compute. reflexivity.
  - discriminate.
  - exact (run_exec pending_world wire_call tt).
  - vm_compute. by left.
  - intros resp [= <-]. split; [discriminate|]. intros [=].
  - exists st'. exact (conj Ho Hn).
Defined.

(** Two calls of the tool in one decision. *)
Definition run_turn (c : callback) (st : PS) : P (result unit * PS) :=
  @turn plain_text (fun _ => true) plugin_config "inv" c st.
Definition after_call (st : PS) : PS :=
  note_effect wire_inline "run-1" "run-1/fc-2" "" (counted wire_inline "inv" st).
Definition first_turn : P (result unit * PS) := run_turn (BeforeTool wire_inline [] "1") (in_run ∅).
Definition second_turn : P (result unit * PS) :=
  run_turn (BeforeTool wire_inline [] "2") (after_call (in_run ∅)).
Definition two_calls : list (event answer) :=
  trace pending_world first_turn tt ++ trace pending_world second_turn tt ++ [].
Lemma positions_never_repeat_witness : NoDup (map place (begun two_calls)).
Proof.
  refine (@positions_never_repeat plain_text (fun _ => true) plugin_config "inv" (in_run ∅) two_calls
    (after_call (after_call (in_run ∅))) _).
  refine (turns_cons _ _ "inv" (BeforeTool wire_inline [] "1") _ _ (Ok tt) (after_call (in_run ∅)) _ _ _
    (turns_cons _ _ "inv" (BeforeTool wire_inline [] "2") _ _ (Ok tt) _ _ _ _ (turns_nil _ _ "inv" _))).
  - refine (eq_rect _ (exec _ _) (run_exec pending_world first_turn tt) _ _). vm_compute. reflexivity.
  - refine (eq_rect _ (exec _ _) (run_exec pending_world second_turn tt) _ _). vm_compute. reflexivity.
Defined.


Definition recorded : P (result unit * PS) :=
  @after_tool_callback plain_text wire_inline [] (ctx_of "2") VNone
    (in_run {["temp:_tape_idempotency_key" := "run-1/fc-2"]}).
Lemma tool_result_recorded_witness :
  exists st' mid payload, (run pending_world recorded tt).1 = Ok (Ok tt, st') /\
    map ev_call (trace pending_world recorded tt) =
      CompleteEffect "run-1" "run-1/fc-2" EFFECT_STATUS_CONFIRMED "null" "" :: mid ++
      [RegisterCompensation "run-1" "run-1/fc-2" "reverse_wire" (@dumps plain_text payload)
         "treasury:reverse_wire" 5] /\
    st'.(PluginState.registries).(compensators) !! "reverse_wire" = Some reverse_fn.
Proof.
  refine (@tool_result_recorded plain_text wire_inline
    (mkMeta (wire_declaration "inline" "mcp:bank") "treasury:reverse_wire") [] (ctx_of "2") VNone
    (in_run {["temp:_tape_idempotency_key" := "run-1/fc-2"]})
    (trace pending_world recorded tt) (run pending_world recorded tt).1 "run-1" "run-1/fc-2" reverse_fn
    _ _ _ _ _ _ (run_exec pending_world recorded tt)); first [discriminate|vm_compute; reflexivity].
Defined.

Definition finished : P (result unit * PS) := after_run_callback "inv" (in_run ∅).
Lemma after_run_spares_settled_runs_witness :
  exists st', (run pending_world finished tt).1 = Ok (Ok tt, st') /\
    st'.(PluginState.run) !! "inv" = None.
Proof.
  destruct (@after_run_spares_settled_runs "inv" (in_run ∅) (trace pending_world finished tt)
    (run pending_world finished tt).1 (run_exec pending_world finished tt))
    as [(st' & Ho & Hrun & _) _].
  exists st'. exact (conj Ho Hrun).
Defined.
