(* ===== verification/Reactions.v ===== *)
(** * Reactions: the event-bus surface, [tape/reactions.py]

    Declaring reactions and their subject patterns, registering them, the in-process
    dispatcher with its debouncer and token bucket, and the Pub/Sub bridge. *)
From Stdlib Require Import Ascii QArith Qminmax.
From S2P Require Import Prelude Scenarios Contracts Client SdkOutbox.
#[local] Open Scope Z_scope.
#[local] Open Scope nat_scope.

(** ** Subjects *)

Definition hex_digits : list ascii := String.list_ascii_of_string "0123456789ABCDEF".
Definition hex_digit (n : nat) : ascii := nth n hex_digits "0"%char.

(** The characters [urllib.parse.quote] leaves alone with [safe=""]. *)
Definition always_safe (c : ascii) : bool :=
  let n := nat_of_ascii c in
  (Nat.leb 65 n && Nat.leb n 90) || (Nat.leb 97 n && Nat.leb n 122) ||
  (Nat.leb 48 n && Nat.leb n 57) || existsb (Ascii.eqb c) (String.list_ascii_of_string "_.-~").

Definition quote_char (c : ascii) : string :=
  if always_safe c then String c ""
  else String "%" (String (hex_digit (Nat.div (nat_of_ascii c) 16))
                    (String (hex_digit (Nat.modulo (nat_of_ascii c) 16)) "")).

(** [urllib.parse.quote(s, safe="")], on the UTF-8 bytes of [s] *)
Fixpoint quote (s : string) : string :=
  match s with
  | EmptyString => EmptyString
  | String c s' => quote_char c +:+ quote s'
  end.

(** [_seg] *)
Definition seg (s : string) : string :=
  if decide (s = "*" \/ s = "**") then s else quote s.

Definition value_changed (namespace key : string) : string :=
  "/tape/value/changed/" +:+ seg namespace +:+ "/" +:+ seg key.
Definition value_deleted (namespace key : string) : string :=
  "/tape/value/deleted/" +:+ seg namespace +:+ "/" +:+ seg key.
(** [on_effect_confirmed], [on_effect_failed] and [on_effect_unknown], by their verb *)
Definition effect_subject (verb tool : string) : string :=
  "/tape/effect/" +:+ verb +:+ "/" +:+ seg tool +:+ "/**".
Definition decision_recorded : string := "/tape/decision/recorded/**".
Definition gate_subject (verb gate : string) : string :=
  "/tape/gate/" +:+ seg verb +:+ "/" +:+ seg gate +:+ "/**".
Definition run_subject (status : string) : string := "/tape/run/" +:+ seg status +:+ "/**".

(** ** Declarations *)

Module ReactionDef.
Record t := mk {
  subject_pattern : string; handler : option Callable; handler_kind : Z;
  predicate_cel : string; agent_app : string; publish_target : string;
  max_concurrency : Z; rate_limit_per_s : Z; debounce_ms : Z; retry_max : Z;
  retry_backoff_ms : Z; dlq_after_n : Z; num_shards : Z; name : string;
  reaction_id : string; server_reaction_id : string
}.
Definition set_server_id (v : string) (r : t) : t :=
  mk r.(subject_pattern) r.(handler) r.(handler_kind) r.(predicate_cel) r.(agent_app)
    r.(publish_target) r.(max_concurrency) r.(rate_limit_per_s) r.(debounce_ms) r.(retry_max)
    r.(retry_backoff_ms) r.(dlq_after_n) r.(num_shards) r.(name) r.(reaction_id) v.
End ReactionDef.
Abbreviation Declarations := (list ReactionDef.t).

(** The keyword arguments of [on]; an absent option is empty. *)
Record OnOptions := mkOnOptions {
  on_predicate : string; on_agent : string; on_publish : string;
  on_max_concurrency : Z; on_rate_limit_per_s : Z; on_debounce_ms : Z; on_retry_max : Z;
  on_retry_backoff_ms : Z; on_dlq_after_n : Z; on_num_shards : Z; on_name : string;
  on_reaction_id : string
}.
Definition on_defaults : OnOptions := mkOnOptions "" "" "" 1 0 0 5 1000 5 1 "" "".

(** [_resolve_handler_kind] *)
Definition resolve_handler_kind (agent publish : string) : result (Z * string * string) :=
  if decide (agent <> "" /\ publish <> "") then Err (ValueError MAgentAndPublish)
  else if decide (agent <> "") then Ok (HANDLER_KIND_AGENT, agent, "")
  else if decide (publish <> "") then Ok (HANDLER_KIND_PUBLISH, "", publish)
  else Ok (HANDLER_KIND_TASK, "", "").

(** [on(pattern, **options)] applied to a function: the declaration is appended. *)
Definition on (pattern : string) (o : OnOptions) (fn : Callable) : M Declarations ReactionDef.t :=
  fun registry =>
  match resolve_handler_kind o.(on_agent) o.(on_publish) with
  | Err e => (Err e, registry)
  | Ok (kind, agent_app, publish_target) =>
    let rd := ReactionDef.mk pattern (Some fn) kind o.(on_predicate) agent_app publish_target
      (Z.max 1 o.(on_max_concurrency)) o.(on_rate_limit_per_s) o.(on_debounce_ms) o.(on_retry_max)
      o.(on_retry_backoff_ms) o.(on_dlq_after_n) (Z.max 1 o.(on_num_shards))
      (str_or o.(on_name) fn.(fn_name)) o.(on_reaction_id) "" in
    (Ok rd, registry ++ [rd])
  end.

(** ** Registration *)

Definition reaction_of (prefix : string) (rd : ReactionDef.t) : PbReaction.t :=
  PbReaction.mk rd.(ReactionDef.reaction_id)
    (if decide (prefix = "") then rd.(ReactionDef.name) else prefix +:+ rd.(ReactionDef.name))
    rd.(ReactionDef.subject_pattern) rd.(ReactionDef.predicate_cel) rd.(ReactionDef.handler_kind)
    rd.(ReactionDef.agent_app) rd.(ReactionDef.publish_target) rd.(ReactionDef.max_concurrency)
    rd.(ReactionDef.rate_limit_per_s) rd.(ReactionDef.debounce_ms) rd.(ReactionDef.retry_max)
    rd.(ReactionDef.retry_backoff_ms) rd.(ReactionDef.dlq_after_n) rd.(ReactionDef.num_shards).

(** [register_all]: the registry after, with the ids recorded so far, and the reactions
    or the error of the first registration that failed. *)
Fixpoint register_all (prefix : string) (registry : Declarations)
    : P (Declarations * result (list PbReaction.t)) :=
  match registry with
  | [] => mret ([], Ok [])
  | rd :: rest =>
    r ← caught (register_reaction (reaction_of prefix rd));
    match r with
    | Err e => mret (registry, Err e)
    | Ok r =>
      o ← register_all prefix rest;
      mret (ReactionDef.set_server_id r.(PbReaction.reaction_id) rd :: o.1,
            match o.2 with Ok out => Ok (r :: out) | Err e => Err e end)
    end
  end.

(** ** Back-pressure *)

(** [_TokenBucket]; times are in seconds of the monotonic clock. *)
Record TokenBucket := mkTokenBucket { rate : Z; tokens : Q; last : Q }.
Definition new_bucket (rate_per_s : Z) (now : Q) : TokenBucket :=
  let rate := Z.max 0 rate_per_s in mkTokenBucket rate (inject_Z rate) now.

(** The body of [acquire]'s lock at a time: whether it took a token, and the bucket. *)
Definition refilled (b : TokenBucket) (now : Q) : Q :=
  Qmin (inject_Z b.(rate)) (b.(tokens) + (now - b.(last)) * inject_Z b.(rate)).
Definition take (now : Q) (b : TokenBucket) : bool * TokenBucket :=
  let t := refilled b now in
  if Qle_bool 1 t then (true, mkTokenBucket b.(rate) (t - 1) now)
  else (false, mkTokenBucket b.(rate) t now).
(** [need], capped at a quarter of a second *)
Definition nap (b : TokenBucket) : Q := Qmin (1#4) ((1 - b.(tokens)) / inject_Z b.(rate)).

(** [acquire]: [None] when it still waits after [fuel] turns. *)
Fixpoint acquire_from (fuel : nat) (b : TokenBucket) : P (option TokenBucket) :=
  match fuel with
  | O => mret None
  | S fuel =>
    now ← (invoke Monotonic : P Q);
    match take now b with
    | (true, b') => mret (Some b')
    | (false, b') => _ ← (invoke (Sleep (nap b')) : P unit); acquire_from fuel b'
    end
  end.
Definition acquire (fuel : nat) (b : TokenBucket) : P (option TokenBucket) :=
  if decide (b.(rate) <= 0)%Z then mret (Some b) else acquire_from fuel b.

(** [_Debouncer]: the window in seconds, and when each subject last went through. *)
Record Debouncer := mkDebouncer { window : Q; seen : gmap string Q }.
Definition new_debouncer (window_ms : Z) : Debouncer :=
  mkDebouncer (inject_Z (Z.max 0 window_ms) / 1000) ∅.

(** [allow] at a time of the clock, for a positive window *)
Definition allow_at (now : Q) (subject : string) (d : Debouncer) : bool * Debouncer :=
  let last := default (-1)%Q (d.(seen) !! subject) in
  if negb (Qle_bool 0 last) || Qle_bool d.(window) (now - last)
  then (true, mkDebouncer d.(window) (<[subject := now]> d.(seen)))
  else (false, d).
Definition allow (subject : string) (d : Debouncer) : P (bool * Debouncer) :=
  if Qle_bool d.(window) 0 then mret (true, d)
  else now ← (invoke Monotonic : P Q); mret (allow_at now subject d).

(** ** The dispatcher *)
Section dispatcher.
Context `{PyText}.

(** [envelope_of] *)
Definition envelope_of (t : PbTask.t) : pydict :=
  let payload :=
    if decide (t.(PbTask.payload_json) = "") then JObj []
    else match loads t.(PbTask.payload_json) with
         | Ok v => v
         | Err _ => JObj [("raw", JStr t.(PbTask.payload_json))]
         end in
  [("task_id", JStr t.(PbTask.task_id)); ("reaction_id", JStr t.(PbTask.reaction_id));
   ("subject", JStr t.(PbTask.subject)); ("source_run_id", JStr t.(PbTask.source_run_id));
   ("source_global_seq", JInt t.(PbTask.source_global_seq)); ("attempts", JInt t.(PbTask.attempts));
   ("trace_id", JStr t.(PbTask.trace_id)); ("parent_span_id", JStr t.(PbTask.parent_span_id));
   ("payload", payload); ("payload_json", JStr t.(PbTask.payload_json))].

(** [_payload_handler(rd)]; the tracing span around the handler is not modelled. *)
Definition run_handler (rd : ReactionDef.t) (t : PbTask.t) : P unit :=
  match rd.(ReactionDef.handler) with
  | None => mret tt
  | Some fn => invoke (Handler fn (envelope_of t))
  end.

(** [_work]: what a thread of the pool does with a task; [None] when it still waits for
    a token after [fuel] turns. *)
Definition settle_task (rd : ReactionDef.t) (owner : string) (t : PbTask.t) : P unit :=
  try_ (_ ← run_handler rd t; complete_task t.(PbTask.task_id) owner)
    (fun ex =>
       let permanent := bool_decide (rd.(ReactionDef.dlq_after_n) <= t.(PbTask.attempts))%Z in
       try_ (nack_task t.(PbTask.task_id) owner (raised_text "" ex) permanent)
         (fun _ => mret tt)).
Definition work (fuel : nat) (rd : ReactionDef.t) (owner : string) (t : PbTask.t) (b : TokenBucket)
    : P (option TokenBucket) :=
  got ← acquire fuel b;
  match got with
  | None => mret None
  | Some b' => _ ← settle_task rd owner t; mret (Some b')
  end.

(** The state [run_dispatcher] keeps of one reaction. *)
Record Lane := mkLane { lane_rd : ReactionDef.t; lane_bucket : TokenBucket; lane_debouncer : Debouncer }.

(** [_dispatch_one] in the dispatcher's own thread: the debouncer after, and the task
    when its work was submitted to the pool. *)
Definition dispatch_task (owner : string) (d : Debouncer) (t : PbTask.t)
    : P (Debouncer * option PbTask.t) :=
  a ← allow t.(PbTask.subject) d;
  let '(allowed, d') := a : bool * Debouncer in
  if allowed then mret (d', Some t)
  else _ ← try_ (complete_task t.(PbTask.task_id) owner) (fun _ => mret tt); mret (d', None).

(** The tasks of one claim, in order; the submitted ones are collected. *)
Fixpoint dispatch_tasks (owner : string) (d : Debouncer) (ts : list PbTask.t)
    : P (Debouncer * list PbTask.t) :=
  match ts with
  | [] => mret (d, [])
  | t :: ts =>
    r ← dispatch_task owner d t;
    rest ← dispatch_tasks owner r.1 ts;
    mret (rest.1, option_list r.2 ++ rest.2)
  end.

(** One lane of a pass: its tasks are claimed and dispatched; a failed claim is logged. *)
Definition dispatch_lane (owner : string) (lease_ms claim_max : Z) (l : Lane)
    : P (Lane * list PbTask.t * bool) :=
  r ← caught (claim_tasks l.(lane_rd).(ReactionDef.server_reaction_id) owner lease_ms claim_max);
  match r with
  | Err _ => mret (l, [], false)
  | Ok ts =>
    o ← dispatch_tasks owner l.(lane_debouncer) ts;
    mret (mkLane l.(lane_rd) l.(lane_bucket) o.1, o.2, negb (bool_decide (ts = [])))
  end.

(** [state]: the lanes of the registered TASK reactions, keyed by the server's id. *)
Definition is_task (rd : ReactionDef.t) : bool :=
  bool_decide (rd.(ReactionDef.handler_kind) = HANDLER_KIND_TASK) &&
  negb (bool_decide (rd.(ReactionDef.server_reaction_id) = "")).
Fixpoint lanes_of (registry : Declarations) (lanes : list (string * Lane)) : P (list (string * Lane)) :=
  match registry with
  | [] => mret lanes
  | rd :: rest =>
    if is_task rd then
      now ← (invoke Monotonic : P Q);
      lanes_of rest (dict_set rd.(ReactionDef.server_reaction_id)
        (mkLane rd (new_bucket rd.(ReactionDef.rate_limit_per_s) now)
           (new_debouncer rd.(ReactionDef.debounce_ms))) lanes)
    else lanes_of rest lanes
  end.

(** One pass over the lanes: their states, the work submitted to each pool, and whether
    any task was claimed. *)
Fixpoint dispatch_pass (owner : string) (lease_ms claim_max : Z) (lanes : list (string * Lane))
    : P (list (string * Lane) * list (Lane * PbTask.t) * bool) :=
  match lanes with
  | [] => mret ([], [], false)
  | (rid, l) :: lanes =>
    o ← dispatch_lane owner lease_ms claim_max l;
    let '(l', jobs, any) := o : Lane * list PbTask.t * bool in
    rest ← dispatch_pass owner lease_ms claim_max lanes;
    let '(lanes', jobs', any') := rest : list (string * Lane) * list (Lane * PbTask.t) * bool in
    mret ((rid, l') :: lanes', map (pair l) jobs ++ jobs', any || any')
  end.

(** [run_dispatcher] without its pools: registration, then [passes] passes with a pause
    after one that claimed nothing; the work submitted, in order. *)
Fixpoint dispatch_passes (passes : nat) (owner : string) (poll_interval_s : Q)
    (lease_ms claim_max : Z) (lanes : list (string * Lane)) : P (list (Lane * PbTask.t)) :=
  match passes with
  | O => mret []
  | S passes =>
    o ← dispatch_pass owner lease_ms claim_max lanes;
    let '(lanes', jobs, any) := o : list (string * Lane) * list (Lane * PbTask.t) * bool in
    if decide (passes = 0) then mret jobs
    else
      _ ← (if any : bool then mret tt else (invoke (Sleep poll_interval_s) : P unit));
      rest ← dispatch_passes passes owner poll_interval_s lease_ms claim_max lanes';
      mret (jobs ++ rest)
  end.
Definition run_dispatcher (passes : nat) (registry : Declarations) (register : bool) (prefix owner : string)
    (poll_interval_s : Q) (lease_ms claim_max : Z) : P (Declarations * list (Lane * PbTask.t)) :=
  r ← (if register then register_all prefix registry else mret (registry, Ok []));
  let '(registry', o) := r : Declarations * result (list PbReaction.t) in
  _ ← lift o;
  lanes ← lanes_of registry' [];
  jobs ← dispatch_passes passes owner poll_interval_s lease_ms claim_max lanes;
  mret (registry', jobs).

(** ** The Pub/Sub bridge *)

Definition task_attrs (t : PbTask.t) : list (string * string) :=
  [("tape-task-id", t.(PbTask.task_id)); ("tape-reaction-id", t.(PbTask.reaction_id));
   ("tape-subject", t.(PbTask.subject)); ("tape-global-seq", pretty t.(PbTask.source_global_seq));
   ("tape-trace-id", t.(PbTask.trace_id))].

Definition bridge_task (owner : string) (t : PbTask.t) : P unit :=
  try_ (_ ← (invoke (PublishTask t.(PbTask.payload_json) t.(PbTask.source_run_id) (task_attrs t)) : P unit);
        complete_task t.(PbTask.task_id) owner)
    (fun ex =>
       try_ (nack_task t.(PbTask.task_id) owner ("pubsub-publish: " +:+ str_exn ex) false)
         (fun _ => mret tt)).

(** The reactions to pull: the given one, or every registered PUBLISH reaction,
    registering the registry first when one of them has no id yet. *)
Fixpoint bridge_rids (todo : Declarations) (registry : Declarations) : P (Declarations * list string) :=
  match todo with
  | [] => mret (registry, [])
  | rd :: todo =>
    if decide (rd.(ReactionDef.handler_kind) <> HANDLER_KIND_PUBLISH) then bridge_rids todo registry
    else
      let ix := (length registry - length todo - 1)%nat in
      let rd_now := default rd (registry !! ix) in
      registry' ← (if decide (rd_now.(ReactionDef.server_reaction_id) = "") then
          r ← register_all "" registry; _ ← lift r.2; mret r.1
        else mret registry);
      let id := (default rd (registry' !! ix)).(ReactionDef.server_reaction_id) in
      rest ← bridge_rids todo registry';
      mret (rest.1, if decide (id = "") then rest.2 else id :: rest.2)
  end.

(** One pass of the bridge; whether any task was claimed. *)
Definition bridge_pass (owner : string) (lease_ms claim_max : Z) (rids : list string) : P bool :=
  fold_each rids (fun rid any =>
    r ← caught (claim_tasks rid owner lease_ms claim_max);
    match r with
    | Err _ => mret any
    | Ok ts => _ ← each ts (bridge_task owner); mret (any || negb (bool_decide (ts = [])))
    end) false.
End dispatcher.
