(* ===== verification/ReactionTheorems.v ===== *)
(** * ReactionTheorems: subjects, back-pressure and the dispatcher of reactions

    Subject patterns name what they were built from; the debouncer spaces the triggers of
    a subject and the token bucket bounds a handler's rate; a claimed task is submitted when
    the debouncer's rule lets it through, its completion is asked for otherwise, and a
    submitted one is settled. *)
From Stdlib Require Import Ascii QArith Qminmax Lqa.
From S2P Require Import Prelude Scenarios ScenarioTheorems Contracts Client SdkOutbox Reactions SdkSamples.
#[local] Open Scope nat_scope.
#[local] Arguments wp : simpl never.

(** ** Subjects *)

(** The value of a hexadecimal digit, and decoding a quoted segment. *)
Definition digit_value (c : ascii) : nat :=
  let n := nat_of_ascii c in if Nat.leb n 57 then n - 48 else n - 55.
Fixpoint unquote (s : string) : string :=
  match s with
  | String "%" (String h (String l s')) =>
    String (ascii_of_nat (digit_value h * 16 + digit_value l)) (unquote s')
  | String c s' => String c (unquote s')
  | EmptyString => EmptyString
  end.

Lemma unquote_char c s : unquote (quote_char c +:+ s) = String c (unquote s).
Proof. destruct c as [[][][][][][][][]]; reflexivity. Qed.
Lemma app_string_assoc (a b c : string) : (a +:+ b) +:+ c = a +:+ (b +:+ c).
Proof. induction a as [|x a IH]; [done|]. change (String x ((a +:+ b) +:+ c) = String x (a +:+ (b +:+ c))). by rewrite IH. Qed.

Lemma unquote_quote s : unquote (quote s) = s.
Proof. induction s as [|c s IH]; [done|]. cbn [quote]. by rewrite unquote_char, IH. Qed.

Lemma has_char_app x a b : has_char x (a +:+ b) = has_char x a || has_char x b.
Proof.
  induction a as [|c a IH]; [done|].
  change (bool_decide (c = x) || has_char x (a +:+ b) = (bool_decide (c = x) || has_char x a) || has_char x b).
  by rewrite IH, orb_assoc.
Qed.
Lemma quote_char_free c : has_char "/" (quote_char c) = false /\ has_char "*" (quote_char c) = false.
Proof. destruct c as [[][][][][][][][]]; split; reflexivity. Qed.
Lemma quote_free s : has_char "/" (quote s) = false /\ has_char "*" (quote s) = false.
Proof.
  induction s as [|c s [H1 H2]]; [done|]. cbn [quote]. rewrite !has_char_app, H1, H2.
  by destruct (quote_char_free c) as [-> ->].
Qed.
Lemma seg_slash_free s : has_char "/" (seg s) = false.
Proof. unfold seg. case_decide as H; [by destruct H as [-> | ->]|]. apply quote_free. Qed.

Lemma seg_inj s s' : seg s = seg s' -> s = s'.
Proof.
  unfold seg. intros Heq.
  assert (Hq : forall a b, (a = "*" \/ a = "**") -> a = quote b -> False).
  { intros a b Ha ->. destruct (quote_free b) as [_ Hb]. by destruct Ha as [Ha|Ha]; rewrite Ha in Hb. }
  repeat case_decide; [done|by destruct (Hq _ _ H Heq)|by destruct (Hq _ _ H0 (eq_sym Heq))|].
  by rewrite <- (unquote_quote s), <- (unquote_quote s'), Heq.
Qed.

Lemma before_char_app x a b : has_char x a = false -> before_char x (a +:+ String x b) = a.
Proof.
  induction a as [|c a IH]; intros Ha.
  - change (before_char x (String x b) = ""). cbn [before_char]. by rewrite decide_True.
  - change (bool_decide (c = x) || has_char x a = false) in Ha. apply orb_false_iff in Ha as [Hc Ha].
    change (before_char x (String c (a +:+ String x b)) = String c a). cbn [before_char].
    apply bool_decide_eq_false_1 in Hc. rewrite decide_False by done. by rewrite IH.
Qed.
Lemma after_char_app x a b : has_char x a = false -> after_char x (a +:+ String x b) = b.
Proof.
  induction a as [|c a IH]; intros Ha.
  - change (after_char x (String x b) = b). cbn [after_char]. by rewrite decide_True.
  - change (bool_decide (c = x) || has_char x a = false) in Ha. apply orb_false_iff in Ha as [Hc Ha].
    change (after_char x (String c (a +:+ String x b)) = b). cbn [after_char].
    apply bool_decide_eq_false_1 in Hc. rewrite decide_False by done. by apply IH.
Qed.
Lemma app_string_inj (p a b : string) : p +:+ a = p +:+ b -> a = b.
Proof. induction p as [|c p IH]; [done|]. intros [= Heq]. by apply IH. Qed.

(** The patterns of two values are the same only when namespace and key are: user text,
    slashes and wildcard characters included, cannot break out of its segment. *)
Theorem value_patterns_distinct ns key ns' key' :
  value_changed ns key = value_changed ns' key' -> ns = ns' /\ key = key'.
Proof.
  unfold value_changed. intros Heq%app_string_inj.
  pose proof (f_equal (before_char "/") Heq) as H1. pose proof (f_equal (after_char "/") Heq) as H2.
  change ("/" +:+ seg key) with (String "/" (seg key)) in *.
  change ("/" +:+ seg key') with (String "/" (seg key')) in *.
  rewrite !before_char_app in H1 by apply seg_slash_free.
  rewrite !after_char_app in H2 by apply seg_slash_free. by split; apply seg_inj.
Qed.
Lemma value_patterns_distinct_witness : "a/b" = "a/b" /\ "k" = "k".
Proof. apply (value_patterns_distinct "a/b" "k" "a/b" "k" eq_refl). Defined.

(** ** The token bucket *)

(** Attempts to take a token at times of the clock, with how many succeeded. *)
Inductive takes : TokenBucket -> list Q -> Z -> TokenBucket -> Prop :=
  | takes_nil b : takes b [] 0 b
  | takes_cons b now ok b1 times n b2 :
      take now b = (ok, b1) -> takes b1 times n b2 ->
      takes b (now :: times) ((if ok then 1 else 0) + n) b2.

(** The times of a list lie between two bounds, in order. *)
Fixpoint ordered (from to : Q) (times : list Q) : Prop :=
  match times with
  | [] => True
  | now :: times => (from <= now <= to)%Q /\ ordered now to times
  end.

Definition bucket_ok (b : TokenBucket) : Prop := (0 <= b.(tokens) <= inject_Z b.(rate))%Q.

Lemma refilled_bounds b now :
  bucket_ok b -> (b.(last) <= now)%Q ->
  (0 <= refilled b now)%Q /\ (refilled b now <= inject_Z b.(rate))%Q /\
  (refilled b now <= b.(tokens) + (now - b.(last)) * inject_Z b.(rate))%Q.
Proof.
  intros [H0 Hr] Hl. unfold refilled. set (r := inject_Z (rate b)) in *.
  set (x := (tokens b + (now - last b) * r)%Q).
  assert (Hx : (0 <= x)%Q) by (subst x; nra).
  destruct (Q.min_spec r x) as [[Hlt ->]|[Hle ->]]; repeat split; lra.
Qed.

Lemma take_spec now b ok b' :
  bucket_ok b -> (b.(last) <= now)%Q -> take now b = (ok, b') ->
  bucket_ok b' /\ b'.(rate) = b.(rate) /\ b'.(last) = now /\
  ((if ok then 1 else 0) + b'.(tokens) == refilled b now)%Q.
Proof.
  intros Hb Hl Ht. destruct (refilled_bounds b now Hb Hl) as (H0 & Hr & _). unfold take in Ht.
  destruct (Qle_bool 1 (refilled b now)) eqn:H1; injection Ht as <- <-; unfold bucket_ok; cbn.
  - apply Qle_bool_iff in H1. repeat split; lra.
  - repeat split; lra.
Qed.

Lemma takes_bound b times n b' :
  takes b times n b' -> bucket_ok b -> forall to, (b.(last) <= to)%Q -> ordered b.(last) to times ->
  (inject_Z n <= b.(tokens) + (to - b.(last)) * inject_Z b.(rate))%Q.
Proof.
  induction 1 as [b|b now ok b1 times n b2 Ht _ IH]; intros Hb to Hto Ho.
  - destruct Hb. change (inject_Z 0) with 0%Q. nra.
  - destruct Ho as [[Hl Hn] Ho]. destruct (take_spec _ _ _ _ Hb Hl Ht) as (Hb1 & Hrate & Hlast & Hsum).
    destruct (refilled_bounds b now Hb Hl) as (_ & _ & Hr).
    specialize (IH Hb1 to). rewrite Hrate, Hlast in IH. specialize (IH Hn Ho).
    rewrite inject_Z_plus. assert (H1 : (inject_Z (if ok then 1 else 0) == if ok then 1 else 0)%Q) by by destruct ok.
    rewrite H1. set (r := inject_Z (rate b)) in *. nra.
Qed.

(** C35: However the workers of a reaction interleave, the tokens they take between two times
    are at most the rate plus the rate times the seconds between. *)
Theorem bucket_bounds_the_rate b now times n b' to :
  takes b (now :: times) n b' -> bucket_ok b -> (b.(last) <= now)%Q -> ordered now to (now :: times) ->
  (inject_Z n <= inject_Z b.(rate) + (to - now) * inject_Z b.(rate))%Q.
Proof.
  intros Ht Hb Hl Ho. inversion Ht as [|? ? ok b1 ? m ? Htake Hrest]; subst.
  destruct (take_spec _ _ _ _ Hb Hl Htake) as (Hb1 & Hrate & Hlast & Hsum).
  destruct (refilled_bounds b now Hb Hl) as (_ & Hr & _). destruct Ho as [[_ Hn] Ho].
  pose proof (takes_bound _ _ _ _ Hrest Hb1 to) as Hm. rewrite Hrate, Hlast in Hm. specialize (Hm Hn Ho).
  rewrite inject_Z_plus. assert (H1 : (inject_Z (if ok then 1 else 0) == if ok then 1 else 0)%Q) by by destruct ok.
  rewrite H1. lra.
Qed.
Lemma bucket_bounds_the_rate_witness :
  (inject_Z 1 <= inject_Z 1 + (1 - 0) * inject_Z 1)%Q.
Proof.
  refine (bucket_bounds_the_rate (new_bucket 1 0) 0 [1#2]%Q (1 + (0 + 0)) _ 1
    (takes_cons (new_bucket 1 0) 0 true (take 0 (new_bucket 1 0)).2 [1#2]%Q _ _ eq_refl
      (takes_cons (take 0 (new_bucket 1 0)).2 (1#2) false (take (1#2) (take 0 (new_bucket 1 0)).2).2 [] _ _ eq_refl
        (takes_nil _))) _ _ _).
  - split; vm_compute; discriminate.
  - vm_compute. discriminate.
  - vm_compute. repeat split; discriminate.
Defined.

(** Waiting ends: while the clock moves on by what each nap slept, a worker alone has its
    token by the fifth look at the clock. *)
Fixpoint advances (from : Q) (t : list (event answer)) : Prop :=
  match t with
  | [] => True
  | Ev c r :: t =>
    match c return result (answer c) -> Prop with
    | Monotonic => fun r => exists now, r = Ok now /\ (from <= now)%Q /\ advances now t
    | Sleep s => fun r => r = Ok tt /\ advances (from + s) t
    | _ => fun _ => advances from t
    end r
  end.

Lemma failed_take now b b1 :
  (1 <= b.(rate))%Z -> take now b = (false, b1) ->
  (b1.(tokens) < 1)%Q /\ b1.(last) = now /\ b1.(rate) = b.(rate) /\
  (b1.(tokens) == b.(tokens) + (now - b.(last)) * inject_Z b.(rate))%Q.
Proof.
  intros Hr. unfold take. destruct (Qle_bool 1 (refilled b now)) eqn:H1; intros [= <-]. cbn.
  assert (Hlt : (refilled b now < 1)%Q).
  { apply Qnot_le_lt. intros Hle%Qle_bool_iff. congruence. }
  assert (Hr1 : (1 <= inject_Z (rate b))%Q) by (change 1%Q with (inject_Z 1); by rewrite <- Zle_Qle).
  split_and!; [done..|]. unfold refilled in *.
  destruct (Q.min_spec (inject_Z (rate b)) (tokens b + (now - last b) * inject_Z (rate b))) as [[? Hm]|[? Hm]];
    rewrite Hm in *; lra.
Qed.

Lemma nap_covers b n r :
  (b.(tokens) < 1)%Q -> (r == inject_Z b.(rate))%Q -> (1 <= r)%Q -> (0 <= n)%Q ->
  (1 - b.(tokens) <= (1 + n) * (1#4) * r)%Q ->
  (0 <= nap b)%Q /\ (1 - (b.(tokens) + nap b * r) <= n * (1#4) * r)%Q.
Proof.
  intros Ht Hr H1 Hn Hneed. unfold nap.
  assert (Hd : ((1 - tokens b) / inject_Z (rate b) * r == 1 - tokens b)%Q) by (rewrite Hr; field; lra).
  assert (Hp : (0 <= (1 - tokens b) / inject_Z (rate b))%Q) by (apply Qle_shift_div_l; lra).
  destruct (Q.min_spec (1#4) ((1 - tokens b) / inject_Z (rate b))) as [[? ->]|[? ->]]; split; nra.
Qed.

Lemma acquire_within n b :
  bucket_ok b -> (1 <= b.(rate))%Z ->
  wp (acquire_from (S n) b) (fun t o => forall from, advances from t -> (b.(last) <= from)%Q ->
    (1 - (b.(tokens) + (from - b.(last)) * inject_Z b.(rate)) <= inject_Z (Z.of_nat n) * (1#4) * inject_Z b.(rate))%Q ->
    exists b', o = Ok (Some b')).
Proof.
  revert b. induction n as [|n IH]; intros b Hb Hrate.
  all: assert (Hr1 : (1 <= inject_Z (rate b))%Q) by (change 1%Q with (inject_Z 1); by rewrite <- Zle_Qle).
  all: cbn [acquire_from]; apply wp_bind; apply (wp_invoke (R:=answer) Monotonic); intros [now|e];
    [|intros from (now & [=] & _)].
  all: destruct (take now b) as [ok b1] eqn:Ht; destruct ok; [intros from _ _ _; by exists b1|].
  all: destruct (failed_take now b b1 Hrate Ht) as (Hlt & Hlast & Hrate1 & Htok).
  - cbn. intros ans. destruct ans as [u|e]; cbn.
    + intros from (? & [= <-] & Hfrom & _) Hl Hneed. change (inject_Z (Z.of_nat 0)) with 0%Q in Hneed.
      exfalso. nra.
    + intros from (? & [= <-] & Hfrom & _ & _) Hl Hneed. change (inject_Z (Z.of_nat 0)) with 0%Q in Hneed.
      exfalso. nra.
  - apply wp_bind. apply (wp_invoke (R:=answer) (Sleep (nap b1))). intros [u|e];
      [|intros from (? & [= <-] & _ & [=] & _)].
    assert (Hb1 : (b.(last) <= now)%Q -> bucket_ok b1).
    { intros Hl. by destruct (take_spec now b false b1 Hb Hl Ht). }
    apply exec_wp. intros t o He from (? & [= <-] & Hfrom & _ & Hadv) Hl Hneed.
    assert (Hln : (b.(last) <= now)%Q) by lra.
    assert (Hn : (inject_Z (Z.of_nat (S n)) == 1 + inject_Z (Z.of_nat n))%Q).
    { rewrite Nat2Z.inj_succ, <- Z.add_1_l. by rewrite inject_Z_plus. }
    assert (Hn0 : (0 <= inject_Z (Z.of_nat n))%Q) by (change 0%Q with (inject_Z 0); rewrite <- Zle_Qle; lia).
    rewrite Hn in Hneed.
    destruct (nap_covers b1 (inject_Z (Z.of_nat n)) (inject_Z b.(rate))) as [Hnap Hcov];
      [done|by rewrite Hrate1|done|done|rewrite Htok; nra|].
    assert (Hr2 : (1 <= b1.(rate))%Z) by by rewrite Hrate1.
    pose proof (wp_exec _ _ _ _ (IH b1 (Hb1 Hln) Hr2) He) as Hw. apply (Hw (now + nap b1)%Q Hadv).
    + rewrite Hlast. lra.
    + rewrite Hlast, Hrate1. lra.
Qed.

(** A worker alone has its token by its fifth look at the clock, as long as the clock
    moves on by what the worker slept. *)
Theorem acquire_ends b now t o :
  (1 <= b.(rate))%Z -> bucket_ok b -> (b.(last) <= now)%Q -> advances now t ->
  exec (acquire 5 b) t o -> exists b', o = Ok (Some b').
Proof.
  intros Hr Hb Hl Ha He. unfold acquire in He. rewrite decide_False in He by lia.
  refine (wp_exec _ _ _ _ (acquire_within 4 b Hb Hr) He now Ha Hl _).
  assert (Hr1 : (1 <= inject_Z (rate b))%Q) by (change 1%Q with (inject_Z 1); by rewrite <- Zle_Qle).
  change (inject_Z (Z.of_nat 4)) with 4%Q. destruct Hb. nra.
Qed.
Lemma acquire_ends_witness :
  exists b', (run (fun (c : call) (w : unit) => (match c return result (answer c) with
      | Monotonic => Ok 1%Q | _ => Err TypeError end, w)) (acquire 5 (new_bucket 2 0)) tt).1 = Ok (Some b').
Proof.
  refine (acquire_ends (new_bucket 2 0) 0 _ _ _ _ _ _
    (run_exec (fun (c : call) (w : unit) => (match c return result (answer c) with
      | Monotonic => Ok 1%Q | _ => Err TypeError end, w)) (acquire 5 (new_bucket 2 0)) tt)).
  - vm_compute. discriminate.
  - split; vm_compute; discriminate.
  - vm_compute. discriminate.
  - vm_compute. eexists. split; [reflexivity|]. split; [discriminate|exact I].
Defined.

(** ** The debouncer *)

(** Triggers at times of the clock, with whether each went through. *)
Fixpoint hits (d : Debouncer) (triggers : list (Q * string)) : list (Q * string * bool) :=
  match triggers with
  | [] => []
  | (now, s) :: rest => let '(ok, d') := allow_at now s d in (now, s, ok) :: hits d' rest
  end.

(** What the debouncer remembers of the triggers so far. *)
Definition remembers (d : Debouncer) (past : list (Q * string * bool)) : Prop :=
  forall s, match d.(seen) !! s with
    | Some l => (0 <= l)%Q /\ (l, s, true) ∈ past /\ forall t, (t, s, true) ∈ past -> (t <= l)%Q
    | None => forall t, (t, s, true) ∉ past
    end.

Lemma allow_at_spec d now s past ok d' :
  remembers d past -> (0 <= now)%Q -> (forall e, e ∈ past -> (e.1.1 <= now)%Q) ->
  allow_at now s d = (ok, d') ->
  remembers d' (past ++ [(now, s, ok)]) /\ d'.(window) = d.(window) /\
  (ok = true <-> forall t, (t, s, true) ∈ past -> (d.(window) <= now - t)%Q).
Proof.
  intros Hr H0 Hle Ha. unfold allow_at in Ha. pose proof (Hr s) as Hs.
  assert (Hw : negb (Qle_bool 0 (default (-1)%Q (seen d !! s))) || Qle_bool (window d) (now - default (-1)%Q (seen d !! s)) = true
    <-> forall t, (t, s, true) ∈ past -> (d.(window) <= now - t)%Q).
  { destruct (seen d !! s) as [l|]; cbn [default from_option id].
    - destruct Hs as (Hl & Hin & Hmax). rewrite (proj2 (Qle_bool_iff 0 l) Hl). cbn [negb orb].
      rewrite Qle_bool_iff. split; [|auto]. intros Hwin t Ht%Hmax. lra.
    - split; [|done]. intros _ t Ht. by destruct (Hs t). }
  set (through := negb (Qle_bool 0 (default (-1)%Q (seen d !! s))) || Qle_bool (window d) (now - default (-1)%Q (seen d !! s))) in *.
  assert (Hok : ok = through) by (destruct through; congruence).
  split; [|split; [by destruct through; injection Ha as <- <-|by rewrite Hok]].
  intros s'. destruct (decide (s' = s)) as [->|Hne].
  - destruct through; injection Ha as <- <-; cbn [seen].
    + rewrite lookup_insert_eq. split_and!; [done|apply elem_of_app; right; by left|].
      intros t [Ht%Hle|Ht]%elem_of_app; [done|]. apply list_elem_of_singleton in Ht as [= ->]. lra.
    + destruct (seen d !! s) as [l|].
      * destruct Hs as (? & ? & Hmax). split_and!; [done|apply elem_of_app; by left|].
        intros t [Ht|Ht]%elem_of_app; [by apply Hmax|]. by apply list_elem_of_singleton in Ht.
      * intros t [Ht|Ht]%elem_of_app; [by destruct (Hs t)|]. by apply list_elem_of_singleton in Ht.
  - assert (Hl : seen d' !! s' = seen d !! s').
    { destruct through; injection Ha as <- <-; [|done]. cbn. by rewrite lookup_insert_ne. }
    rewrite Hl. specialize (Hr s'). destruct (seen d !! s') as [l|].
    + destruct Hr as (? & ? & Hmax). split_and!; [done|apply elem_of_app; by left|].
      intros t [Ht|Ht]%elem_of_app; [by apply Hmax|]. apply list_elem_of_singleton in Ht. congruence.
    + intros t [Ht|Ht]%elem_of_app; [by destruct (Hr t)|]. apply list_elem_of_singleton in Ht. congruence.
Qed.

Lemma hits_spec d triggers past from to :
  remembers d past -> (0 <= from)%Q -> (forall e, e ∈ past -> (e.1.1 <= from)%Q) ->
  ordered from to (map fst triggers) ->
  forall xs t s ok zs, hits d triggers = xs ++ (t, s, ok) :: zs ->
  (ok = true <-> forall t', (t', s, true) ∈ past ++ xs -> (d.(window) <= t - t')%Q).
Proof.
  revert d past from. induction triggers as [|[now s] triggers IH]; intros d past from Hr H0 Hle Ho xs t s' ok zs Heq.
  { by destruct xs. }
  destruct Ho as [[Hfrom _] Ho]. cbn [fst] in Hfrom, Ho. cbn [hits] in Heq. destruct (allow_at now s d) as [ok1 d1] eqn:Ha.
  assert (Hlen : forall e, e ∈ past -> (e.1.1 <= now)%Q) by (intros e He%Hle; lra).
  assert (H0n : (0 <= now)%Q) by lra.
  destruct (allow_at_spec _ _ _ _ _ _ Hr H0n Hlen Ha) as (Hr1 & Hw & Hok).
  destruct xs as [|x xs].
  - injection Heq as <- <- <- _. by rewrite app_nil_r.
  - injection Heq as <- Heq. rewrite <- Hw.
    replace (past ++ (now, s, ok1) :: xs) with ((past ++ [(now, s, ok1)]) ++ xs) by by rewrite <- app_assoc.
    apply (IH d1 (past ++ [(now, s, ok1)]) now Hr1 H0n) with (zs := zs); [|done|done].
    intros e [He%Hlen|He]%elem_of_app; [done|]. apply list_elem_of_singleton in He as ->. cbn. lra.
Qed.

(** A trigger goes through exactly when no trigger of its subject went through within
    the window before it. *)
Theorem debounce_spaces_triggers ms triggers to xs t s ok zs :
  ordered 0 to (map fst triggers) ->
  hits (new_debouncer ms) triggers = xs ++ (t, s, ok) :: zs ->
  ok = true <-> forall t', (t', s, true) ∈ xs -> ((new_debouncer ms).(window) <= t - t')%Q.
Proof.
  intros Ho Heq.
  apply (hits_spec (new_debouncer ms) triggers [] 0 to) with (zs := zs); [|lra|by intros e ?%not_elem_of_nil|done|done].
  intros s'. cbn. rewrite lookup_empty. intros t'. apply not_elem_of_nil.
Qed.
Lemma debounce_spaces_triggers_witness :
  true = true <-> forall t', (t', "s", true) ∈ [(0%Q, "s", true); (1#2, "s", false)]%Q ->
    ((new_debouncer 1000).(window) <= 1 - t')%Q.
Proof.
  refine (debounce_spaces_triggers 1000 [(0, "s"); (1#2, "s"); (1, "s")]%Q 1
    [(0%Q, "s", true); (1#2, "s", false)] 1 "s" true [] _ _).
  - vm_compute. repeat split; discriminate.
  - vm_compute. reflexivity.
Defined.

(** ** The dispatcher *)

(** The tasks a trace was given, each under the reaction it was claimed for; the
    completions it asked for, whatever their answers; and its readings of the clock. *)
Definition claimed_by (ev : event answer) : list (string * PbTask.t) :=
  match ev with
  | Ev c r =>
    match c return result (answer c) -> list (string * PbTask.t) with
    | ClaimTasks rid _ _ _ _ => fun r => match r with Ok ts => map (pair rid) ts | Err _ => [] end
    | _ => fun _ => []
    end r
  end.
Definition claimed (t : list (event answer)) : list (string * PbTask.t) := t ≫= claimed_by.
Definition completed_by (ev : event answer) : list (string * string) :=
  match ev_call ev with CompleteTask id owner => [(id, owner)] | _ => [] end.
Definition completions (t : list (event answer)) : list (string * string) := t ≫= completed_by.
Definition read_by (ev : event answer) : list Q :=
  match ev with
  | Ev c r =>
    match c return result (answer c) -> list Q with
    | Monotonic => fun r => match r with Ok now => [now] | Err _ => [] end
    | _ => fun _ => []
    end r
  end.
Definition readings (t : list (event answer)) : list Q := t ≫= read_by.

(** A task's turn in the dispatcher's thread: its reaction, the time the debouncer read,
    and whether its work was submitted to the reaction's pool. *)
Record Turn := mkTurn { turn_rd : ReactionDef.t; turn_task : PbTask.t; turn_at : option Q; turn_submitted : bool }.
Definition turn_key (x : Turn) : string := x.(turn_rd).(ReactionDef.server_reaction_id).
Definition turn_subject (x : Turn) : string := x.(turn_task).(PbTask.subject).
Definition submissions (log : list Turn) : list (ReactionDef.t * PbTask.t) :=
  omap (fun x => if x.(turn_submitted) then Some (x.(turn_rd), x.(turn_task)) else None) log.
Definition skips (owner : string) (log : list Turn) : list (string * string) :=
  omap (fun x => if x.(turn_submitted) then None else Some (x.(turn_task).(PbTask.task_id), owner)) log.

(** When a reaction last submitted a task of a subject. *)
Definition submitted_at (rid subject : string) (x : Turn) : option Q :=
  if decide (turn_key x = rid /\ turn_subject x = subject) then
    if x.(turn_submitted) then x.(turn_at) else None
  else None.
Definition last_submitted (past : list Turn) (rid subject : string) : option Q :=
  list.last (omap (submitted_at rid subject) past).

(** The debouncing rule: without a window every task is submitted; with one, a task is
    submitted exactly when its subject has no earlier submission within the window
    before the time read (a time below 0 does not count). *)
Definition debounced (past : list Turn) (x : Turn) : Prop :=
  let ms := x.(turn_rd).(ReactionDef.debounce_ms) in
  match x.(turn_at) with
  | None => (ms <= 0)%Z /\ x.(turn_submitted) = true
  | Some now =>
    (0 < ms)%Z /\
    (x.(turn_submitted) = true <->
     match last_submitted past (turn_key x) (turn_subject x) with
     | None => True
     | Some l => (l < 0 \/ inject_Z ms / 1000 <= now - l)%Q
     end)
  end.
Fixpoint turns_follow (past log : list Turn) : Prop :=
  match log with
  | [] => True
  | x :: log => debounced past x /\ turns_follow (past ++ [x]) log
  end.

Lemma claimed_app t t' : claimed (t ++ t') = claimed t ++ claimed t'.
Proof. apply bind_app. Qed.
Lemma completions_app t t' : completions (t ++ t') = completions t ++ completions t'.
Proof. apply bind_app. Qed.
Lemma readings_app t t' : readings (t ++ t') = readings t ++ readings t'.
Proof. apply bind_app. Qed.

Lemma turns_follow_app past l l' :
  turns_follow past l -> turns_follow (past ++ l) l' -> turns_follow past (l ++ l').
Proof.
  revert past. induction l as [|x l IH]; intros past; cbn; [by rewrite app_nil_r|].
  intros [Hx Hl] Hl'. split; [done|]. apply IH; [done|]. by rewrite <- app_assoc.
Qed.
Lemma turns_follow_at past before x after :
  turns_follow past (before ++ x :: after) -> debounced (past ++ before) x.
Proof.
  revert past. induction before as [|y before IH]; intros past; cbn; [by intros [? _]; rewrite app_nil_r|].
  intros [_ Hl]. specialize (IH _ Hl). by rewrite <- app_assoc in IH.
Qed.

(** What one stretch of the trace was given, asked for and read, by the turns in it. *)
Definition tells (owner : string) (t : list (event answer)) (given : list (string * PbTask.t)) (log : list Turn) : Prop :=
  claimed t = given /\ completions t = skips owner log /\ readings t = omap turn_at log.
Lemma tells_app owner t t' given given' log log' :
  tells owner t given log -> tells owner t' given' log' -> tells owner (t ++ t') (given ++ given') (log ++ log').
Proof.
  unfold tells, skips. intros (H1 & H2 & H3) (H1' & H2' & H3').
  by rewrite claimed_app, completions_app, readings_app, !omap_app, H1, H2, H3, H1', H2', H3'.
Qed.
Lemma tells_end owner t given log : tells owner t given log -> tells owner (t ++ []) given log.
Proof. by rewrite app_nil_r. Qed.
Definition given_by (x : Turn) : string * PbTask.t := (turn_key x, x.(turn_task)).

(** A debouncer that remembers the submissions of the turns so far. *)
Definition remembers_turns (past : list Turn) (rd : ReactionDef.t) (d : Debouncer) : Prop :=
  d.(window) = (new_debouncer rd.(ReactionDef.debounce_ms)).(window) /\
  forall s, d.(seen) !! s = last_submitted past rd.(ReactionDef.server_reaction_id) s.

Lemma last_submitted_snoc past x rid s :
  last_submitted (past ++ [x]) rid s =
  match submitted_at rid s x with Some now => Some now | None => last_submitted past rid s end.
Proof.
  unfold last_submitted. rewrite omap_app. cbn. destruct (submitted_at rid s x) as [now|]; cbn.
  - by rewrite last_snoc.
  - by rewrite app_nil_r.
Qed.
Lemma remembers_other past new rd d :
  Forall (fun x => turn_key x <> rd.(ReactionDef.server_reaction_id)) new ->
  remembers_turns past rd d -> remembers_turns (past ++ new) rd d.
Proof.
  intros Hn. revert past. induction Hn as [|x new Hx _ IH]; intros past [Hw Hs]; [by rewrite app_nil_r|].
  replace (past ++ x :: new) with ((past ++ [x]) ++ new) by by rewrite <- app_assoc.
  apply IH. split; [done|]. intros s. rewrite last_submitted_snoc. unfold submitted_at.
  by rewrite decide_False by (intros [? _]; done).
Qed.

(** The window, as the rule reads it. *)
Lemma window_closed ms : Qle_bool (new_debouncer ms).(window) 0 = true <-> (ms <= 0)%Z.
Proof.
  rewrite Qle_bool_iff. unfold new_debouncer, window, Qle. cbn. lia.
Qed.
Lemma window_open ms : (0 < ms)%Z -> (new_debouncer ms).(window) = (inject_Z ms / 1000)%Q.
Proof. intros. cbn. by rewrite Z.max_r by lia. Qed.

(** A turn of the debouncer, read on the turns before it. *)
Lemma allow_at_turn past rd t now d ok d' :
  remembers_turns past rd d -> (0 < rd.(ReactionDef.debounce_ms))%Z ->
  allow_at now t.(PbTask.subject) d = (ok, d') ->
  let x := mkTurn rd t (Some now) ok in debounced past x /\ remembers_turns (past ++ [x]) rd d'.
Proof.
  intros [Hw Hs] Hms Ha x. unfold allow_at in Ha. rewrite Hs, Hw, (window_open _ Hms) in Ha.
  set (l := last_submitted past _ _) in Ha.
  assert (Hok : ok = true <-> match l with None => True | Some l =>
    (l < 0 \/ inject_Z rd.(ReactionDef.debounce_ms) / 1000 <= now - l)%Q end).
  { transitivity (negb (Qle_bool 0 (default (-1)%Q l)) ||
      Qle_bool (inject_Z rd.(ReactionDef.debounce_ms) / 1000) (now - default (-1)%Q l) = true).
    { destruct (negb _ || _); injection Ha as <- _; done. }
    destruct l as [l|]; cbn [default from_option id]; [|done].
    rewrite orb_true_iff, negb_true_iff, Qle_bool_iff, <- not_true_iff_false, Qle_bool_iff.
    split; (intros [?|?]; [left|by right]); lra. }
  split; [done|]. unfold remembers_turns.
  destruct (negb _ || _); injection Ha as <- <-; (split; [first [exact Hw|exact (eq_sym (window_open _ Hms))]|]);
    intros s; rewrite last_submitted_snoc; unfold submitted_at; cbn.
  - destruct (decide (t.(PbTask.subject) = s)) as [<-|Hne].
    + rewrite lookup_insert_eq. by rewrite decide_True.
    + rewrite lookup_insert_ne by done. rewrite decide_False by (intros [_ ?]; done). apply Hs.
  - destruct (decide _); apply Hs.
Qed.

Section dispatcher.
Context `{PyText}.

(** A task's turn: what it asks for, and what the debouncer remembers after it. *)
Lemma dispatch_task_turn owner past rd d t :
  remembers_turns past rd d ->
  wp (dispatch_task owner d t) (fun tr o => forall (d' : Debouncer) (job : option PbTask.t), o = Ok (d', job) ->
    exists x, turn_rd x = rd /\ turn_task x = t /\ debounced past x /\ remembers_turns (past ++ [x]) rd d' /\
      tells owner tr [] [x] /\ submissions [x] = map (pair rd) (option_list job)).
Proof.
  intros Hd. unfold dispatch_task, allow. destruct (Qle_bool (window d) 0) eqn:Hq.
  - intros d' job [= <- <-]. destruct Hd as [Hw Hs]. rewrite Hw, window_closed in Hq.
    exists (mkTurn rd t None true). do 3 (split; [done|]). split; [|done]. split; [done|]. intros s.
    rewrite last_submitted_snoc. unfold submitted_at. by case_decide.
  - intros [now|e]; [|by intros]. cbn.
    assert (Hms : (0 < rd.(ReactionDef.debounce_ms))%Z).
    { apply Z.nle_gt. rewrite <- window_closed, <- (proj1 Hd). by rewrite Hq. }
    destruct (allow_at _ _ _) as [ok d1] eqn:Ha. destruct (allow_at_turn _ _ _ _ _ _ _ Hd Hms Ha) as [Hx Hr].
    destruct ok.
    + intros d' job [= <- <-]. by exists (mkTurn rd t (Some now) true).
    + unfold complete_task. intros [u|e]; intros d' job [= <- <-]; by exists (mkTurn rd t (Some now) false).
Qed.

Lemma dispatch_tasks_turns owner past rd d ts :
  remembers_turns past rd d ->
  wp (dispatch_tasks owner d ts) (fun tr o => forall (d' : Debouncer) (jobs : list PbTask.t), o = Ok (d', jobs) ->
    exists log, map turn_task log = ts /\ Forall (fun x => turn_rd x = rd) log /\ turns_follow past log /\
      remembers_turns (past ++ log) rd d' /\ tells owner tr [] log /\ submissions log = map (pair rd) jobs).
Proof.
  revert past d. induction ts as [|t ts IH]; intros past d Hd; cbn [dispatch_tasks].
  { intros d' jobs [= <- <-]. exists []. rewrite app_nil_r. by repeat split; try apply Hd. }
  apply wp_bind. eapply wp_mono, (dispatch_task_turn owner past rd d t Hd). intros tr [[d1 job]|e] Hj; [|by intros].
  destruct (Hj _ _ eq_refl) as (x & Hrd & <- & Hx & Hd1 & Ht & Hs). apply wp_bind. eapply wp_mono, IH, Hd1.
  intros tr2 [[d2 jobs]|e] Hr; [|by intros].
  destruct (Hr _ _ eq_refl) as (log & <- & Hrds & Hf & Hd2 & Ht2 & Hs2).
  apply wp_ret. intros d' jobs' [= <- <-]. exists (x :: log). rewrite <- app_assoc in Hd2.
  split; [done|]. split; [by constructor|]. split; [done|]. split; [done|].
  split; [by apply (tells_app _ _ _ [] [] [x]), tells_end|].
  change (submissions (x :: log)) with (submissions ([x] ++ log)). unfold submissions in *.
  rewrite omap_app, Hs, Hs2. cbn [fst snd]. by rewrite map_app.
Qed.

(** The lanes, keyed by the ids of their reactions, remember the turns so far. *)
Definition lane_ok (registry : Declarations) (past : list Turn) (kl : string * Lane) : Prop :=
  let rd := kl.2.(lane_rd) in
  kl.1 = rd.(ReactionDef.server_reaction_id) /\ rd ∈ registry /\ is_task rd = true /\
  remembers_turns past rd kl.2.(lane_debouncer).
Definition task_turn (registry : Declarations) (x : Turn) : Prop :=
  turn_rd x ∈ registry /\ is_task (turn_rd x) = true.

Lemma dispatch_lane_turns registry owner lease_ms claim_max past rid l :
  lane_ok registry past (rid, l) ->
  wp (dispatch_lane owner lease_ms claim_max l) (fun tr o => forall (l' : Lane) (jobs : list PbTask.t) (any : bool),
    o = Ok (l', jobs, any) -> exists log, Forall (fun x => turn_key x = rid) log /\ Forall (task_turn registry) log /\
      turns_follow past log /\ lane_ok registry (past ++ log) (rid, l') /\
      tells owner tr (map given_by log) log /\ submissions log = map (pair l.(lane_rd)) jobs).
Proof.
  intros (Hk & Hin & Ht & Hd). cbn [fst snd] in *. subst rid.
  unfold dispatch_lane. apply wp_bind, wp_caught. unfold claim_tasks.
  apply (wp_invoke (R:=answer) (ClaimTasks _ _ _ _ _)). intros [ts|e].
  - apply wp_bind. eapply wp_mono, dispatch_tasks_turns, Hd. intros tr [[d' jobs]|e] Hr; [|by intros].
    destruct (Hr _ _ eq_refl) as (log & <- & Hrds & Hf & Hd' & (Hc & Hs & Hq) & Hsub).
    apply wp_ret. intros l' jobs' any [= <- <- _]. exists log.
    split; [eapply Forall_impl; [exact Hrds|]; unfold turn_key; by intros x ->|].
    split; [eapply Forall_impl; [exact Hrds|]; intros x Hx; split; by rewrite Hx|].
    split; [done|]. split; [by split_and!|]. split; [|done].
    rewrite app_nil_r. split; [|done]. unfold claimed. cbn. fold (claimed tr).
    rewrite Hc, app_nil_r, map_map. clear -Hrds. induction Hrds as [|x log <- _ IH]; cbn; [done|by rewrite IH].
  - apply wp_ret. intros l' jobs any [= <- <- _]. exists []. rewrite app_nil_r.
    split; [done|]. split; [done|]. split; [done|]. split; [done|]. by repeat split.
Qed.

Lemma lane_ok_other registry past new lanes :
  Forall (fun x => turn_key x ∉ lanes.*1) new -> Forall (lane_ok registry past) lanes ->
  Forall (lane_ok registry (past ++ new)) lanes.
Proof.
  intros Hn. induction 1 as [|[rid l] lanes (Hk & Hin & Ht & Hd) _ IH]; constructor.
  - split_and!; [done..|]. apply remembers_other; [|done]. eapply Forall_impl; [exact Hn|].
    intros x Hx Heq. apply Hx. rewrite Heq, <- Hk. left.
  - apply IH. eapply Forall_impl; [exact Hn|]. intros x Hx ?. apply Hx. by right.
Qed.

(** The submissions of a pass are those of its turns. *)
Definition submitted_jobs (jobs : list (Lane * PbTask.t)) : list (ReactionDef.t * PbTask.t) :=
  map (fun j => (lane_rd j.1, j.2)) jobs.
Definition accounts (registry : Declarations) (owner : string) (past : list Turn)
    (tr : list (event answer)) (jobs : list (Lane * PbTask.t)) (log : list Turn) : Prop :=
  Forall (task_turn registry) log /\ turns_follow past log /\
  tells owner tr (map given_by log) log /\ submissions log = submitted_jobs jobs.
Lemma accounts_app registry owner past tr tr' jobs jobs' log log' :
  accounts registry owner past tr jobs log -> accounts registry owner (past ++ log) tr' jobs' log' ->
  accounts registry owner past (tr ++ tr') (jobs ++ jobs') (log ++ log').
Proof.
  intros (H1 & H2 & H3 & H4) (H1' & H2' & H3' & H4'). split; [|split; [|split]].
  - by apply Forall_app.
  - by apply turns_follow_app.
  - rewrite map_app. by apply tells_app.
  - unfold submissions, submitted_jobs in *. by rewrite omap_app, map_app, H4, H4'.
Qed.
(** Events that claim, complete and read nothing. *)
Lemma accounts_quiet registry owner past pre tr jobs log :
  tells owner pre [] [] -> accounts registry owner past tr jobs log ->
  accounts registry owner past (pre ++ tr) jobs log.
Proof.
  intros Hp (H1 & H2 & H3 & H4). split; [done|]. split; [done|]. split; [|done].
  by apply (tells_app _ _ _ [] _ []).
Qed.

Lemma dispatch_pass_turns registry owner lease_ms claim_max past lanes :
  NoDup lanes.*1 -> Forall (lane_ok registry past) lanes ->
  wp (dispatch_pass owner lease_ms claim_max lanes) (fun tr o =>
    forall (lanes' : list (string * Lane)) (jobs : list (Lane * PbTask.t)) (any : bool), o = Ok (lanes', jobs, any) ->
    exists log, accounts registry owner past tr jobs log /\ lanes'.*1 = lanes.*1 /\
      Forall (fun x => turn_key x ∈ lanes.*1) log /\ Forall (lane_ok registry (past ++ log)) lanes').
Proof.
  intros Hnd. revert past. induction lanes as [|[rid l] lanes IH]; intros past Hl; cbn [dispatch_pass].
  { intros ? ? ? [= <- <- _]. exists []. by split_and!. }
  apply NoDup_cons in Hnd as [Hrid Hnd]. apply Forall_cons in Hl as [Hl Hls].
  apply wp_bind. eapply wp_mono, dispatch_lane_turns, Hl. intros tr [[[l' jobs] any]|e] Hj; [|by intros].
  destruct (Hj _ _ _ eq_refl) as (log & Hk & Ht & Hf & Hl' & Htell & Hs). apply wp_bind. eapply wp_mono.
  2: { apply (IH Hnd (past ++ log)), lane_ok_other, Hls. eapply Forall_impl; [exact Hk|]. by intros x ->. }
  intros tr2 [[[lanes' jobs'] any']|e] Hr; [|by intros].
  destruct (Hr _ _ _ eq_refl) as (log' & Hacc & Hkeys & Hk' & Hls').
  apply wp_ret. intros ? ? ? [= <- <- _]. exists (log ++ log'). rewrite app_nil_r. split; [|split; [|split]].
  - apply accounts_app; [|done]. do 3 (split; [done|]). unfold submitted_jobs. rewrite Hs, map_map. by apply map_ext.
  - cbn. by rewrite Hkeys.
  - apply Forall_app. split; [eapply Forall_impl; [exact Hk|]; intros x ->; left|].
    eapply Forall_impl; [exact Hk'|]. intros x Hx. by right.
  - constructor; [|by rewrite app_assoc]. rewrite app_assoc.
    apply Forall_singleton, (lane_ok_other _ _ log' [(rid, l')]); [|by apply Forall_singleton].
    eapply Forall_impl; [exact Hk'|]. intros x Hx Heq%list_elem_of_singleton. cbn in Hx, Heq. by rewrite Heq in Hx.
Qed.

Lemma dispatch_passes_turns registry passes owner poll lease_ms claim_max past lanes :
  NoDup lanes.*1 -> Forall (lane_ok registry past) lanes ->
  wp (dispatch_passes passes owner poll lease_ms claim_max lanes) (fun tr o => forall jobs,
    o = Ok jobs -> exists log, accounts registry owner past tr jobs log).
Proof.
  revert past lanes. induction passes as [|passes IH]; intros past lanes Hnd Hl; cbn [dispatch_passes].
  { intros ? [= <-]. by exists []. }
  apply wp_bind. eapply wp_mono, dispatch_pass_turns; [|exact Hnd|exact Hl].
  intros tr [[[lanes' jobs] any]|e] Hj; [|by intros].
  destruct (Hj _ _ _ eq_refl) as (log & Hacc & Hkeys & _ & Hl').
  case_decide; [apply wp_ret; intros ? [= <-]; exists log; by rewrite app_nil_r|].
  assert (Hrest : forall pre, tells owner pre [] [] ->
    wp (rest ← dispatch_passes passes owner poll lease_ms claim_max lanes'; mret (jobs ++ rest))
      (fun tr2 o => forall jobs', o = Ok jobs' -> exists log', accounts registry owner past (tr ++ pre ++ tr2) jobs' log')).
  { intros pre Hp. apply wp_bind. eapply wp_mono, (IH (past ++ log)); [|by rewrite Hkeys|done].
    intros tr2 [rest|e] Hr; [|by intros]. destruct (Hr rest eq_refl) as [log' Hacc'].
    apply wp_ret. intros jobs' [= <-]. exists (log ++ log'). rewrite app_nil_r.
    by apply accounts_app, accounts_quiet. }
  destruct any; [by apply (Hrest [])|].
  intros [u|e]; [|by intros]. by apply (Hrest [Ev (Sleep poll) (Ok u)]).
Qed.

(** The lanes open with debouncers that remember nothing. *)
Lemma dict_set_Forall {V} (Q : string * V -> Prop) k v d :
  Q (k, v) -> Forall Q d -> Forall Q (dict_set k v d).
Proof.
  intros Hk. induction 1 as [|[k' v'] d Hv Hd IH]; cbn; [by constructor|].
  case_decide; by constructor.
Qed.
Lemma lanes_of_open registry todo lanes :
  (forall rd, rd ∈ todo -> rd ∈ registry) -> NoDup lanes.*1 -> Forall (lane_ok registry []) lanes ->
  wp (lanes_of todo lanes) (fun tr o => claimed tr = [] /\ completions tr = [] /\
    forall lanes', o = Ok lanes' -> length (readings tr) = length (List.filter is_task todo) /\
      NoDup lanes'.*1 /\ Forall (lane_ok registry []) lanes').
Proof.
  revert lanes. induction todo as [|rd todo IH]; intros lanes Hin Hnd Hl; cbn [lanes_of].
  { split_and!; [done..|]. by intros ? [= <-]. }
  cbn [List.filter]. destruct (is_task rd) eqn:Ht; [|apply IH; [set_solver|done|done]].
  intros [now|e]; [|by split_and!]. eapply wp_mono; [|apply IH].
  - intros tr o (Hc & Hs & Ho). split_and!; [done..|]. intros lanes' Heq.
    destruct (Ho lanes' Heq) as (Hlen & ? & ?). split_and!; [|done..]. cbn. by rewrite <- Hlen.
  - set_solver.
  - by apply dict_set_NoDup.
  - apply dict_set_Forall; [|done]. split_and!; cbn; [done|apply Hin; left|done|].
    split; [done|]. intros s. apply lookup_empty.
Qed.

Lemma register_all_spec prefix registry :
  wp (register_all prefix registry) (fun tr o => exists registry' res, o = Ok (registry', res) /\
    claimed tr = [] /\ completions tr = [] /\ readings tr = [] /\
    forall out, res = Ok out ->
      map ev_call tr = map (fun rd => RegisterReaction (reaction_of prefix rd)) registry /\
      registry' = zip_with (fun rd r => ReactionDef.set_server_id r.(PbReaction.reaction_id) rd) registry out /\
      length out = length registry).
Proof.
  induction registry as [|rd registry IH]; cbn [register_all].
  { exists [], (Ok []). split_and!; [done..|]. by intros out [= <-]. }
  apply wp_bind, wp_caught. unfold register_reaction.
  apply (wp_invoke (R:=answer) (RegisterReaction _)). intros [r|e].
  - apply wp_bind. eapply wp_mono, IH. intros tr o (registry' & res & -> & Hc & Hd & Hq & Hout).
    apply wp_ret. eexists _, _. split; [done|]. rewrite app_nil_r. split_and!; [done..|].
    intros out Hres. destruct res as [out'|]; [|done]. injection Hres as <-.
    destruct (Hout out' eq_refl) as (Hcalls & -> & Hlen). cbn. rewrite Hcalls, Hlen. by split_and!.
  - apply wp_ret. eexists _, _. split; [done|]. split_and!; [done..|]. by intros.
Qed.

(** Registration asks for every declaration in order, and records on each the id the
    server gave its reaction. *)
Theorem registration_records_ids prefix registry t registry' out :
  exec (register_all prefix registry) t (Ok (registry', Ok out)) ->
  map ev_call t = map (fun rd => RegisterReaction (reaction_of prefix rd)) registry /\
  registry' = zip_with (fun rd r => ReactionDef.set_server_id r.(PbReaction.reaction_id) rd) registry out /\
  length out = length registry.
Proof.
  intros He. destruct (wp_exec _ _ _ _ (register_all_spec prefix registry) He)
    as (? & ? & [= <- <-] & _ & _ & _ & Hout). by apply Hout.
Qed.

(** C34: A run of the dispatcher that returned is told by the turns of its tasks: they are
    the tasks it claimed, each under the TASK reaction it was claimed for and in the order
    claimed; a turn is submitted exactly when the reaction has no debounce window, or when
    it submitted no task of that subject within the window before the time the turn read
    off the clock; the pools were given the submitted tasks and no other; and for the
    others, and no other, the server was asked once, under the owner's name, to complete
    them (the answer is not looked at: a refused completion leaves the task leased). *)
Theorem claimed_tasks_accounted passes registry register prefix owner poll lease_ms claim_max t registry' jobs :
  exec (run_dispatcher passes registry register prefix owner poll lease_ms claim_max) t
    (Ok (registry', jobs)) ->
  exists (log : list Turn) (opened : list Q),
    claimed t = map given_by log /\ Forall (task_turn registry') log /\
    readings t = opened ++ omap turn_at log /\ length opened = length (List.filter is_task registry') /\
    (forall before x after, log = before ++ x :: after -> debounced before x) /\
    submitted_jobs jobs = submissions log /\
    completions t = skips owner log.
Proof.
  intros He. refine (wp_exec _ (fun t o => forall registry' jobs, o = Ok (registry', jobs) -> _)
    t _ _ He registry' jobs eq_refl). clear.
  unfold run_dispatcher. apply wp_bind.
  apply (wp_mono _ (fun tr _ => tells owner tr [] [])).
  2: { destruct register; [|done]. eapply wp_mono, register_all_spec.
       intros tr o (? & ? & _ & Hc & Hd & Hq & _). done. }
  intros tr [[reg o]|e] Hq; [|by intros]. apply wp_bind. destruct o as [out|e]; [|by intros].
  cbn [lift]. cbn [wp]. apply wp_bind. eapply wp_mono, (lanes_of_open reg); [|done|constructor|constructor].
  intros tr2 [lanes|e] (Hc2 & Hd2 & Hl); [|by intros]. destruct (Hl lanes eq_refl) as (Hlen & Hnd & Hok).
  apply wp_bind. eapply wp_mono, dispatch_passes_turns; [|exact Hnd|exact Hok].
  intros tr3 [jobs|e] Hj; [|by intros]. destruct (Hj jobs eq_refl) as (log & Ht & Hf & (Hc & Hd & Hr) & Hs).
  apply wp_ret. intros ? ? [= <- <-]. exists log, (readings tr2). destruct Hq as (Hc0 & Hd0 & Hr0).
  rewrite !claimed_app, !completions_app, !readings_app, Hc0, Hd0, Hr0, Hc2, Hd2, Hc, Hd, Hr. cbn.
  rewrite !app_nil_r. split_and!; try done. intros before x after ->. exact (turns_follow_at _ _ _ _ Hf).
Qed.

(** What a thread of the pool does with a task never raises; after the handler, it
    completes the task, or reports the failure of the handler or of the completion, for
    good exactly when the attempts have reached the declared threshold. *)
Theorem submitted_task_settled rd owner task t o :
  exec (settle_task rd owner task) t o ->
  let done_ := CompleteTask task.(PbTask.task_id) owner in
  let failed err := NackTask task.(PbTask.task_id) owner err
                      (bool_decide (rd.(ReactionDef.dlq_after_n) <= task.(PbTask.attempts))%Z) in
  o = Ok tt /\
  exists pre, (pre = [] \/ exists fn, rd.(ReactionDef.handler) = Some fn /\ pre = [Handler fn (envelope_of task)]) /\
    (map ev_call t = pre ++ [done_] \/
     (exists e, map ev_call t = pre ++ [failed (raised_text "" e)]) \/
     (exists e, map ev_call t = pre ++ [done_; failed (raised_text "" e)])).
Proof.
  intros He done_ failed. revert t o He. apply (forall_exec _ (fun t o => _ /\ _)).
  unfold settle_task, run_handler, complete_task, nack_task. destruct (ReactionDef.handler rd) as [fn|].
  - assert (Hpre : [Handler fn (envelope_of task)] = [] \/ exists fn', Some fn = Some fn' /\
      [Handler fn (envelope_of task)] = [Handler fn' (envelope_of task)]) by (right; by exists fn).
    intros [u|e].
    + intros [[]|e]; [|intros [[]|e']]; hnf; (split; [done|]); eexists; (split; [exact Hpre|]);
        [by left|right; right; by exists e|right; right; by exists e].
    + intros [[]|e']; hnf; (split; [done|]); eexists; (split; [exact Hpre|]); right; left; by exists e.
  - intros [[]|e]; [|intros [[]|e']]; hnf; (split; [done|]); exists []; (split; [by left|]);
      [by left|right; right; by exists e|right; right; by exists e].
Qed.
End dispatcher.

(** ** A concrete bus *)

Definition notify_fn : Callable := mkCallable "notify" "desk" "notify".
Definition notify_options : OnOptions := mkOnOptions "" "" "" 1 0 5000 5 1000 5 1 "" "".
Definition notify : ReactionDef.t :=
  match (on (value_changed "treasury" "*") notify_options notify_fn []).1 with
  | Ok rd => rd
  | Err _ => ReactionDef.mk "" None 0 "" "" "" 0 0 0 0 0 0 0 "" "" ""
  end.
Definition trade (attempts : Z) : PbTask.t :=
  PbTask.mk "task-1" "rx-1" "/tape/value/changed/treasury/fx" "run-1" 7 "" attempts "" "".

(** The first claim gives the task's first attempt, each later claim the next; the
    handler raises; the clock shows one second more at each look. *)
Definition bus (c : call) : M Z (answer c) := fun w =>
  match c return (result (answer c) * Z)%type with
  | RegisterReaction r => (Ok (PbReaction.mk "rx-1" r.(PbReaction.name) "" "" 2 "" "" 1 0 0 5 1000 5 1), w)
  | ClaimTasks _ _ _ _ _ => (Ok [trade (w + 1)], (w + 1)%Z)
  | Handler _ _ => (Err TypeError, w)
  | CompleteTask _ _ | NackTask _ _ _ _ | Sleep _ => (Ok tt, w)
  | Monotonic => (Ok (inject_Z w), w)
  | _ => (Err TypeError, w)
  end.
Definition two_passes : P (Declarations * list (Lane * PbTask.t)) :=
  run_dispatcher 2 [notify] true "" "host:1" (1#2) 60000 16.

(** The first attempt of a task is submitted and fails; its second attempt, a second
    later, falls in the window its own first attempt opened and is completed without
    being handled. *)
Lemma debounce_swallows_retry :
  (exists lane, (run bus two_passes 0%Z).1 = Ok ([ReactionDef.set_server_id "rx-1" notify], [(lane, trade 1)])) /\
  completions (trace bus two_passes 0%Z) = [("task-1", "host:1")] /\
  map ev_call (trace bus (@settle_task sample_text notify "host:1" (trade 1)) 0%Z) =
    [Handler notify_fn (@envelope_of sample_text (trade 1)); NackTask "task-1" "host:1" "Exception: boom" false].
Proof. split; [eexists; vm_compute; reflexivity|]. split; vm_compute; reflexivity. Qed.

(** ** Witnesses *)

Lemma registration_records_ids_witness :
  map ev_call (trace bus (register_all "" [notify]) 0%Z) = [RegisterReaction (reaction_of "" notify)].
Proof.
  refine (proj1 (registration_records_ids "" [notify] (trace bus (register_all "" [notify]) 0%Z)
    [ReactionDef.set_server_id "rx-1" notify] [PbReaction.mk "rx-1" "notify" "" "" 2 "" "" 1 0 0 5 1000 5 1] _)).
  refine (eq_rect _ (exec _ _) (run_exec bus (register_all "" [notify]) 0%Z) _ _). vm_compute. reflexivity.
Defined.

Definition pass_result : list (Lane * PbTask.t) :=
  match (run bus two_passes 0%Z).1 with Ok (_, jobs) => jobs | Err _ => [] end.
Lemma claimed_tasks_accounted_witness :
  exists (log : list Turn) (opened : list Q),
    claimed (trace bus two_passes 0%Z) = map given_by log /\
    Forall (task_turn [ReactionDef.set_server_id "rx-1" notify]) log /\
    readings (trace bus two_passes 0%Z) = opened ++ omap turn_at log /\
    length opened = length (List.filter is_task [ReactionDef.set_server_id "rx-1" notify]) /\
    (forall before x after, log = before ++ x :: after -> debounced before x) /\
    submitted_jobs pass_result = submissions log /\
    completions (trace bus two_passes 0%Z) = skips "host:1" log.
Proof.
  refine (claimed_tasks_accounted 2 [notify] true "" "host:1" (1#2) 60000 16
    (trace bus two_passes 0%Z) [ReactionDef.set_server_id "rx-1" notify] pass_result _).
  refine (eq_rect _ (exec _ _) (run_exec bus two_passes 0%Z) _ _). vm_compute. reflexivity.
Defined.

Lemma submitted_task_settled_witness :
  (run bus (@settle_task sample_text notify "host:1" (trade 1)) 0%Z).1 = Ok tt.
Proof.
  exact (proj1 (@submitted_task_settled sample_text notify "host:1" (trade 1) _ _
    (run_exec bus (@settle_task sample_text notify "host:1" (trade 1)) 0%Z))).
Defined.
