(* ===== verification/ContractTheorems.v ===== *)
(** * ContractTheorems: what the SDK's decorators accept, and the retry loop

    A declaration is accepted exactly when it satisfies the effect contract; the retry
    loop around a tool body ends, and its delays are bounded. *)
From Stdlib Require Import Ascii QArith Qpower Qminmax Lqa.
From S2P Require Import Prelude Contracts SdkSamples.
#[local] Open Scope nat_scope.

(** ** The effect contract *)

(** What a declaration must satisfy, read off the documentation of [effect]. *)
Record contract (d : Declaration) : Prop := {
  known_semantics : d.(semantics) ∈ SEMANTICS;
  known_dispatch : d.(dispatch) ∈ DISPATCH;
  (** a non-idempotent effect can be recovered, and is authorised *)
  recoverable : d.(semantics) = "non_idempotent" -> d.(allow_unsafe) = false ->
    is_Some d.(status_check) \/ is_Some d.(compensate) \/ has_key d.(business_key) = true;
  scoped : d.(semantics) = "non_idempotent" -> d.(allow_unsafe) = false -> blank d.(scope) = false;
  (** the outbox and cross-run uniqueness need a connector *)
  outbox_connector : d.(dispatch) = "outbox" -> d.(connector) <> "";
  key_connector k : d.(business_key) = StaticKey k -> k <> "" -> d.(connector) <> ""
}.

Lemma validate_semantics_spec d :
  validate_semantics d = Ok tt <->
  d.(semantics) ∈ SEMANTICS /\ d.(dispatch) ∈ DISPATCH /\
  (d.(semantics) = "non_idempotent" -> d.(allow_unsafe) = false ->
     (is_Some d.(status_check) \/ is_Some d.(compensate) \/ has_key d.(business_key) = true) /\
     blank d.(scope) = false).
Proof.
  unfold validate_semantics.
  destruct (decide (semantics d ∉ SEMANTICS)) as [Hs|Hs]; [split; [done|tauto]|].
  destruct (decide (dispatch d ∉ DISPATCH)) as [Hd|Hd]; [split; [done|tauto]|].
  apply dec_stable in Hs, Hd.
  destruct (decide (semantics d = "non_idempotent")) as [Hn|Hn]; [|split; [by intros|done]].
  destruct (allow_unsafe d) eqn:Hu; cbn [negb andb]; [by split; [intros _; split_and!; [..|discriminate]|]|].
  assert (Hrec : (is_Some (status_check d) \/ is_Some (compensate d) \/ has_key (business_key d) = true) <->
    negb (bool_decide (is_Some (status_check d))) && negb (bool_decide (is_Some (compensate d))) &&
    negb (has_key (business_key d)) = false).
  { rewrite !andb_false_iff, !negb_false_iff, !bool_decide_eq_true. tauto. }
  destruct (negb _ && negb _ && negb _) eqn:Hc.
  { split; [done|]. intros (_ & _ & Hok).
    assert (Hf : true = false) by (apply Hrec; by apply Hok). discriminate Hf. }
  destruct (blank (scope d)); split; [done| |intros _|done].
  - intros (_ & _ & Hok). by destruct (Hok Hn eq_refl) as [_ [=]].
  - split_and!; [done..|]. intros _ _. split; [by apply Hrec|done].
Qed.

Lemma check_declaration_spec d : check_declaration d = Ok tt <-> contract d.
Proof.
  unfold check_declaration. destruct (validate_semantics d) as [[]|e] eqn:Hv.
  - apply validate_semantics_spec in Hv as (Hs & Hd & Hn). cbn.
    destruct (decide (dispatch d = "outbox" /\ connector d = "")) as [[Ho Hc]|Ho].
    { split; [done|]. intros Hok. by destruct (outbox_connector d Hok Ho). }
    assert (Hoc : dispatch d = "outbox" -> connector d <> "") by tauto.
    assert (Hr := fun H1 H2 => proj1 (Hn H1 H2)). assert (Hsc := fun H1 H2 => proj2 (Hn H1 H2)).
    destruct (business_key d) as [|k|fn] eqn:Hk;
      [split; [intros _; by split; rewrite ?Hk|done]| |split; [intros _; by split; rewrite ?Hk|done]].
    destruct (decide (k <> "" /\ connector d = "")) as [[Hk1 Hk2]|Hk1].
    + split; [done|]. intros Hok. by destruct (key_connector d Hok k Hk Hk1).
    + split; [|done]. intros _. split; rewrite ?Hk; try done. intros k' [= <-] Hne Hc. tauto.
  - split; [done|]. intros [Hs Hd Hr Hsc _ _].
    assert (Hok : validate_semantics d = Ok tt) by (apply validate_semantics_spec; auto). congruence.
Qed.

(** C36: [@tape.effect] accepts a declaration exactly when it satisfies the effect contract;
    an accepted one is stamped on the tool unchanged, with the address of its
    compensator, and a refused one registers nothing. *)
Theorem accepted_declarations_satisfy_contract d fn r :
  match (effect d fn r).1 with
  | Ok m => contract d /\ m.(declared) = d /\
      m.(compensator_ref) = match d.(compensate) with Some c => compensator_ref_of c | None => "" end
  | Err _ => ~ contract d /\ (effect d fn r).2 = r
  end.
Proof.
  unfold effect. destruct (check_declaration d) as [[]|e] eqn:Hc.
  - apply check_declaration_spec in Hc. by destruct (decorate d fn r) as [m r'] eqn:Hd; injection Hd as <- _.
  - split; [|done]. intros Hok%check_declaration_spec. congruence.
Qed.

(** ** Retries *)
Section retry.
Context {W A : Type}.
Variable is_instance : exn -> string -> bool.
Variable uniform : Q -> Q -> W -> Q * W.
Variable sleep : Q -> W -> W.
Variable policy : RetryPolicy.
Variable body : M W A.

(** The attempts of the loop, its turns made explicit: [runs n w o w'] when the body ran
    [n] times. *)
Inductive runs : Z -> W -> nat -> result A -> W -> Prop :=
  | runs_ok attempt w a w' : body w = (Ok a, w') -> runs attempt w 1 (Ok a) w'
  | runs_gave attempt w ex w' :
      body w = (Err ex, w') -> should_retry is_instance policy ex attempt = false ->
      runs attempt w 1 (Err ex) w'
  | runs_again attempt w ex w' d w'' n o wf :
      body w = (Err ex, w') -> should_retry is_instance policy ex attempt = true ->
      retry_delay uniform policy attempt w' = (Ok d, w'') ->
      runs (attempt + 1) (sleep d w'') n o wf -> runs attempt w (S n) o wf.

Lemma should_retry_bound ex attempt :
  should_retry is_instance policy ex attempt = true -> (attempt < policy.(max_attempts))%Z.
Proof. unfold should_retry. case_decide; [done|]. intros _. lia. Qed.

Lemma retry_delay_ok attempt w : exists d w', retry_delay uniform policy attempt w = (Ok d, w').
Proof. unfold retry_delay. destruct (Qle_bool _ _); [eauto|]. destruct (uniform _ _ _). eauto. Qed.

Lemma retry_from_runs fuel attempt w :
  (policy.(max_attempts) - attempt < Z.of_nat fuel)%Z -> 0 < fuel ->
  exists n o w', retry_from is_instance uniform sleep policy fuel attempt body w = Some (o, w') /\
    runs attempt w n o w' /\ (Z.of_nat n <= Z.max 1 (policy.(max_attempts) - attempt + 1))%Z.
Proof.
  revert attempt w. induction fuel as [|fuel IH]; intros attempt w Hf H0; [lia|]. cbn [retry_from].
  destruct (body w) as [[a|ex] w'] eqn:Hb; [exists 1, (Ok a), w'; split_and!; [done|by constructor|lia]|].
  destruct (should_retry is_instance policy ex attempt) eqn:Hs.
  - pose proof (should_retry_bound _ _ Hs) as Hlt.
    destruct (retry_delay_ok attempt w') as (d & w'' & Hd). rewrite Hd.
    destruct (IH (attempt + 1)%Z (sleep d w'')) as (n & o & wf & Hr & Hn & Hle); [lia|lia|].
    exists (S n), o, wf. split_and!; [done|by eapply runs_again|lia].
  - exists 1, (Err ex), w'. split_and!; [done|by apply runs_gave|lia].
Qed.

(** The retry loop ends: the body runs at least once and at most [max_attempts] times,
    and the loop's outcome is that of its last run. *)
Theorem retry_ends w :
  exists n o w', with_retry is_instance uniform sleep policy body w = Some (o, w') /\
    runs 1 w n o w' /\ (1 <= Z.of_nat n <= Z.max 1 policy.(max_attempts))%Z.
Proof.
  destruct (retry_from_runs (S (Z.to_nat (max_attempts policy))) 1 w) as (n & o & w' & Hr & Hn & Hle); [lia|lia|].
  exists n, o, w'. split_and!; [done|done| |lia]. inversion Hn; subst; lia.
Qed.

(** A delay is never negative and exceeds the policy's maximum by its jitter at most. *)
Lemma retry_delay_bounded attempt w d w' :
  (0 <= policy.(max_interval_s))%Q -> (0 <= policy.(jitter) <= 1)%Q ->
  (forall a b w, (a <= (uniform a b w).1 <= b)%Q) ->
  (0 <= policy.(initial_interval_s))%Q -> (0 <= policy.(backoff_coefficient))%Q ->
  retry_delay uniform policy attempt w = (Ok d, w') ->
  (0 <= d <= policy.(max_interval_s) * (1 + policy.(jitter)))%Q.
Proof.
  intros Hm [Hj Hj1] Hu Hi Hb Hd.
  assert (Hbase : (0 <= base_delay policy attempt <= max_interval_s policy)%Q).
  { unfold base_delay. split; [|apply Q.le_min_r]. apply Q.min_glb; [|done].
    apply Qmult_le_0_compat; [done|]. by apply Qpower_0_le. }
  unfold retry_delay in Hd. destruct (Qle_bool (jitter policy) 0) eqn:Hz.
  - injection Hd as <- _. split; [apply Q.le_max_r|]. apply Q.max_lub; nra.
  - destruct (uniform _ _ w) as [u w1] eqn:Hun. injection Hd as <- _.
    specialize (Hu (- jitter policy)%Q (jitter policy) w). rewrite Hun in Hu. cbn in Hu.
    split; [apply Q.le_max_r|]. apply Q.max_lub; nra.
Qed.
End retry.
