(* ===== verification/Sinks.v ===== *)
(** * Sinks: where the relay publishes, [tape/sinks.py]

    The webhook's retried POST and the AIPlex sink's buffer, batches and event mapping;
    the file, callable and Pub/Sub sinks are one call each.

    A webhook publish that returns was acknowledged; the AIPlex sink posts or still holds
    every event, in order, as long as its calls return; what a failed flush loses. *)
From Stdlib Require Import Ascii QArith.
From S2P Require Import Prelude Scenarios ScenarioTheorems Lineage Client SdkSamples Recover Identity.
#[local] Open Scope Z_scope.
#[local] Open Scope nat_scope.

(** [seconds * n] sleeps *)
Definition sleep (seconds : Q) : P unit := invoke (Sleep seconds).

(** ** Posting with retries *)

(** What a reply means to a sink: delivered, try again, or give the exception up. *)
Inductive verdict := Delivered | Again (ex : exn) | GiveUp (ex : exn).

Definition is_2xx (code : Z) : bool := Z.leb 200 code && Z.ltb code 300.

(** [for _ in range(max_retries): .. time.sleep(delay); delay *= 2], then the last error
    is raised, if there was one. *)
Fixpoint post_from (turns : nat) (send : P http_reply) (judge : http_reply -> verdict) (delay : Q)
    (last_err : option exn) : P unit :=
  match turns with
  | O => match last_err with Some ex => Throw ex | None => mret tt end
  | S turns =>
    r ← send;
    match judge r with
    | Delivered => mret tt
    | GiveUp ex => Throw ex
    | Again ex => _ ← sleep delay; post_from turns send judge (delay * 2) (Some ex)
    end
  end.

Section sinks.
Context `{PyText}.

Definition returned_http (what url : string) (code : Z) : exn :=
  Raised "RuntimeError" (what +:+ " " +:+ url +:+ " returned HTTP " +:+ pretty code).

(** The JSON document of an entry, in the log and webhook sinks. *)
Definition entry_doc (e : PbEvent.t) : json :=
  JObj [("run_id", JStr e.(PbEvent.run_id)); ("seq", JInt e.(PbEvent.seq));
        ("kind", JStr e.(PbEvent.kind)); ("payload_json", JStr e.(PbEvent.payload_json));
        ("ts_ms", JInt e.(PbEvent.ts_ms))].
Definition event_id (e : PbEvent.t) : string := e.(PbEvent.run_id) +:+ "/" +:+ pretty e.(PbEvent.seq).

(** ** The webhook *)

Record WebhookSink := mkWebhookSink {
  hook_url : string; hook_headers : list (string * string); hook_max_retries : Z;
  hook_initial_backoff_s : Q
}.
(** Every error of the transport is tried again, except one [urllib] does not wrap. *)
Definition webhook_verdict (url : string) (r : http_reply) : verdict :=
  match r with
  | HttpOk code _ => if is_2xx code then Delivered else Again (returned_http "webhook" url code)
  | HttpErr _ _ ex => Again ex
  | HttpFailed OtherOSError ex => GiveUp ex
  | HttpFailed _ ex => Again ex
  end.
Definition hook_send (s : WebhookSink) (e : PbEvent.t) : P http_reply :=
  invoke (HttpSend "POST" s.(hook_url)
    (foldl (fun h kv => dict_set kv.1 kv.2 h)
       [("Content-Type", "application/json"); ("X-Tape-Event-Id", event_id e)] s.(hook_headers))
    (dumps (entry_doc e))).
Definition webhook_publish (s : WebhookSink) (e : PbEvent.t) : P unit :=
  post_from (Z.to_nat s.(hook_max_retries)) (hook_send s e) (webhook_verdict s.(hook_url))
    s.(hook_initial_backoff_s) None.

(** ** The AIPlex sink *)

(** [_AIPLEX_KIND_RULES] *)
Definition KIND_RULES : list (string * option (string * string) * string) :=
  [("run", Some ("status", "running"), "run.started");
   ("run", Some ("status", "terminal"), "run.completed");
   ("run", Some ("status", "failed"), "run.failed");
   ("run", Some ("status", "stuck"), "run.failed");
   ("run", Some ("status", "cancelled"), "run.failed");
   ("run", Some ("status", "compensating"), "obligation.created");
   ("decision", None, "decision.recorded");
   ("effect", Some ("status", "pending"), "effect.begin");
   ("effect", Some ("status", "confirmed"), "effect.confirmed");
   ("effect", Some ("status", "failed"), "effect.failed");
   ("effect", Some ("status", "unknown"), "effect.unknown");
   ("effect", Some ("status", "duplicate"), "effect.duplicate");
   ("obligation", None, "obligation.created");
   ("gate", None, "gate.waiting");
   ("policy", None, "policy.violation");
   ("budget", None, "budget.charged");
   ("timer", None, "timer.scheduled")].

(** [str(v)] of a JSON value *)
Definition json_text (v : json) : string := match v with JStr s => s | v => str_json v end.
(** [payload.get(key, d)], for a dict *)
Definition get_or (key : string) (d : json) (payload : pydict) : json :=
  default d (dict_get key payload).

Definition rule_matches (kind : string) (payload : pydict)
    (rule : string * option (string * string) * string) : bool :=
  let '(k, predicate, _) := rule in
  bool_decide (kind = k) &&
  match predicate with
  | None => true
  | Some (key, want) => bool_decide (lower (json_text (get_or key (JStr "") payload)) = want)
  end.
(** [_map_kind]: the first rule that matches, or the kind itself. *)
Definition map_kind (kind : string) (payload : pydict) : string :=
  match List.find (rule_matches kind payload) KIND_RULES with
  | Some (_, _, aiplex_kind) => aiplex_kind
  | None => kind
  end.

(** [_infer_plane]; empty segments, also those [strip] takes off, are dropped. *)
Definition infer_plane (route : string) : string :=
  match List.filter (fun p => negb (bool_decide (p = ""))) (split_on "/" route) with
  | [] => ""
  | head :: _ =>
    let head := lower head in
    if decide (head = "a2a") then "a2aplex"
    else if decide (head = "mcp") then "mcplex"
    else if decide (head = "llm") then "llmplex"
    else head
  end.

Record AIPlexConfig := mkAIPlexConfig {
  ingest_url : string; ingest_token : string; plex_tenant_id : string; plex_agent_id : string;
  plane : string; plex_actor : string; plex_subject : string; plex_instance_id : string;
  batch_size : Z; flush_interval_s : Q; max_retries : Z; initial_backoff_s : Q
}.
(** [s.rstrip("/")] and [s.endswith(suffix)] *)
Fixpoint rstrip_slash (s : string) : string :=
  match s with
  | EmptyString => EmptyString
  | String c s' =>
    match rstrip_slash s' with
    | EmptyString => if decide (c = "/"%char) then EmptyString else String c EmptyString
    | s'' => String c s''
    end
  end.
Fixpoint ends_with (suffix s : string) : bool :=
  bool_decide (s = suffix) ||
  match s with EmptyString => false | String _ s' => ends_with suffix s' end.
Definition INGEST_PATH : string := "/internal/tape/events".

(** [AIPlexSink.__init__]: an argument that is empty is read from the environment, and
    the numbers are kept positive. *)
Definition new_config (env : list (string * string)) (c : AIPlexConfig) : result AIPlexConfig :=
  let arg v k := str_or v (env_get env k) in
  let url := rstrip_slash (arg c.(ingest_url) "AIPLEX_INGEST_URL") in
  if decide (url = "") then
    Err (Raised "ValueError" "AIPlexSink requires url= or AIPLEX_INGEST_URL env (e.g. https://aiplex.example.com)")
  else
    let at_least (low x : Q) := if Qle_bool x low then low else x in
    Ok (mkAIPlexConfig (if ends_with INGEST_PATH url then url else url +:+ INGEST_PATH)
          (arg c.(ingest_token) "AIPLEX_INGEST_TOKEN")
          (arg c.(plex_tenant_id) "AIPLEX_TENANT_ID") (arg c.(plex_agent_id) "AIPLEX_AGENT_ID")
          (str_or c.(plane) (infer_plane (env_get env "AIPLEX_ROUTE")))
          (arg c.(plex_actor) "AIPLEX_ACTOR") (arg c.(plex_subject) "AIPLEX_SUBJECT")
          (arg c.(plex_instance_id) "AIPLEX_INSTANCE_ID")
          (Z.max 1 c.(batch_size)) (at_least (1#20) c.(flush_interval_s))
          (Z.max 1 c.(max_retries)) (at_least (1#20) c.(initial_backoff_s))).

(** The mutable part of the sink. *)
Record AIPlexSink := mkAIPlexSink { buf : list json; last_flush : Q; closed : bool }.

(** [strftime] of [gmtime] *)
Variable iso_time : Q -> string.
Variable config : AIPlexConfig.

(** [json.loads(raw)], [{}] for an empty or unreadable document; a document that is not
    a dict has no [get]. *)
Definition event_payload (raw : string) : result pydict :=
  match loads_or_empty raw with JObj d => Ok d | _ => Err AttributeError end.

Definition event_doc (e : PbEvent.t) (payload : pydict) (timestamp : string) : json :=
  JObj [("run_id", JStr e.(PbEvent.run_id)); ("seq", JInt e.(PbEvent.seq));
        ("tenant_id", JStr config.(plex_tenant_id)); ("agent_id", JStr config.(plex_agent_id));
        ("plane", JStr config.(plane)); ("actor", JStr config.(plex_actor));
        ("subject", JStr config.(plex_subject));
        ("aiplex_instance_id", JStr config.(plex_instance_id));
        ("kind", JStr (map_kind e.(PbEvent.kind) payload));
        ("scope", JStr (json_text (json_or (get_or "scope" (get_or "required_scope" (JStr "") payload) payload) (JStr ""))));
        ("tool", JStr (json_text (json_or (get_or "tool" (JStr "") payload) (JStr ""))));
        ("timestamp", JStr timestamp); ("payload_json", JStr e.(PbEvent.payload_json))].

(** [_to_execution_event] *)
Definition to_execution_event (e : PbEvent.t) : P json :=
  payload ← lift (event_payload e.(PbEvent.payload_json));
  at_ ← (if decide (0 < e.(PbEvent.ts_ms))%Z then mret (inject_Z e.(PbEvent.ts_ms) / 1000)%Q else time_time);
  mret (event_doc e payload (iso_time at_)).

(** 4xx answers other than 408 and 429 are permanent. *)
Definition aiplex_verdict (r : http_reply) : verdict :=
  match r with
  | HttpOk code _ => if is_2xx code then Delivered else Again (returned_http "AIPlex ingest" config.(ingest_url) code)
  | HttpErr code _ ex =>
    if Z.leb 400 code && Z.ltb code 500 && negb (bool_decide (code ∈ [408; 429]%Z)) then GiveUp ex else Again ex
  | HttpFailed OtherOSError ex => GiveUp ex
  | HttpFailed _ ex => Again ex
  end.

Definition batch_doc (batch : list json) : json := JObj [("events", JList batch)].
Definition batch_send (batch : list json) : P http_reply :=
  invoke (HttpSend "POST" config.(ingest_url)
    (("Content-Type", "application/json") ::
     (if decide (config.(ingest_token) = "") then []
      else [("Authorization", "Bearer " +:+ config.(ingest_token))]))
    (dumps (batch_doc batch))).

(** [flush]: the buffer is taken out before it is posted; the sink after, also when the
    post raised. *)
Definition flush (s : AIPlexSink) : P (result unit * AIPlexSink) :=
  now ← (invoke Monotonic : P Q);
  let s' := mkAIPlexSink [] now s.(closed) in
  if decide (s.(buf) = []) then mret (Ok tt, s')
  else
    r ← caught (post_from (Z.to_nat config.(max_retries)) (batch_send s.(buf)) aiplex_verdict
                  config.(initial_backoff_s) None);
    mret (r, s').

(** [publish] *)
Definition aiplex_publish (e : PbEvent.t) (s : AIPlexSink) : P (result unit * AIPlexSink) :=
  if s.(closed) then mret (Ok tt, s)
  else
    ev ← caught (to_execution_event e);
    match ev with
    | Err ex => mret (Err ex, s)
    | Ok ev =>
      let s' := mkAIPlexSink (s.(buf) ++ [ev]) s.(last_flush) s.(closed) in
      due ← (if decide (config.(batch_size) <= Z.of_nat (length s'.(buf)))%Z then mret true
             else now ← (invoke Monotonic : P Q);
                  mret (Qle_bool config.(flush_interval_s) (now - s'.(last_flush))));
      if due : bool then flush s' else mret (Ok tt, s')
    end.

(** [close]: the sink is closed whatever the flush does. *)
Definition aiplex_close (s : AIPlexSink) : P (result unit * AIPlexSink) :=
  r ← flush s;
  let '(o, s') := r : result unit * AIPlexSink in
  mret (o, mkAIPlexSink s'.(buf) s'.(last_flush) true).

(** The relay's calls of a sink, until one raises. *)
Fixpoint publish_all (es : list PbEvent.t) (s : AIPlexSink) : P (result unit * AIPlexSink) :=
  match es with
  | [] => mret (Ok tt, s)
  | e :: es =>
    r ← aiplex_publish e s;
    match r : result unit * AIPlexSink with
    | (Ok _, s') => publish_all es s'
    | (Err ex, s') => mret (Err ex, s')
    end
  end.
End sinks.

#[local] Arguments wp : simpl never.

(** ** Posting with retries *)

(** The bodies of the requests that were acknowledged with a 2xx, and how many requests
    were made. *)
Definition acknowledged_by (ev : event answer) : list string :=
  match ev with
  | Ev c r =>
    match c return result (answer c) -> list string with
    | HttpSend _ _ _ body => fun r =>
      match r with Ok (HttpOk code _) => if is_2xx code then [body] else [] | _ => [] end
    | _ => fun _ => []
    end r
  end.
Definition acknowledged (t : list (event answer)) : list string := concat (map acknowledged_by t).
Definition is_post (ev : event answer) : bool :=
  match ev_call ev with HttpSend _ _ _ _ => true | _ => false end.
Definition posts (t : list (event answer)) : nat := length (List.filter is_post t).

Lemma acknowledged_app t t' : acknowledged (t ++ t') = acknowledged t ++ acknowledged t'.
Proof. unfold acknowledged. by rewrite map_app, concat_app. Qed.
Lemma posts_app t t' : posts (t ++ t') = posts t + posts t'.
Proof. unfold posts. by rewrite List.filter_app, length_app. Qed.

(** A judge that takes exactly the 2xx responses for delivered. *)
Definition honest (judge : http_reply -> verdict) : Prop :=
  forall r, judge r = Delivered <-> exists code body, r = HttpOk code body /\ is_2xx code = true.

Lemma post_from_spec turns m url h body judge delay last_err :
  honest judge ->
  wp (post_from turns (invoke (HttpSend m url h body)) judge delay last_err) (fun t o =>
    posts t <= turns /\
    match o with
    | Ok _ => acknowledged t = [body] \/ (turns = 0 /\ last_err = None /\ acknowledged t = [])
    | Err _ => acknowledged t = []
    end).
Proof.
  intros Hj. revert delay last_err. induction turns as [|turns IH]; intros delay last_err; cbn [post_from].
  { destruct last_err; [by split; [cbn; lia|]|]. apply wp_ret. split; [cbn; lia|by right]. }
  apply wp_bind, (wp_invoke (R:=answer) (HttpSend m url h body)). intros [r|e]; [|by split; [cbn; lia|]].
  destruct (judge r) eqn:Hv.
  - apply wp_ret. apply Hj in Hv as (code & b & -> & H2). split; [cbn; lia|]. left. cbn. by rewrite H2.
  - assert (Hack : acknowledged [Ev (HttpSend m url h body) (Ok r)] = []).
    { cbn. destruct r as [code b| |]; try done. destruct (is_2xx code) eqn:H2; [|done].
      rewrite (proj2 (Hj (HttpOk code b)) (ex_intro _ code (ex_intro _ b (conj eq_refl H2)))) in Hv. done. }
    apply wp_bind. unfold sleep. apply (wp_invoke (R:=answer) (Sleep delay)). intros [u|e].
    + eapply wp_mono, IH. intros t o [Hp Ho]. rewrite !acknowledged_app, !posts_app, Hack. cbn.
      split; [unfold posts in *; cbn; lia|]. destruct o; [|done]. left. by destruct Ho as [Ho|(_ & [=] & _)].
    + rewrite acknowledged_app, Hack. split; [cbn; lia|done].
  - split; [cbn; lia|]. cbn. destruct r as [code b| |]; try done. destruct (is_2xx code) eqn:H2; [|done].
    rewrite (proj2 (Hj (HttpOk code b)) (ex_intro _ code (ex_intro _ b (conj eq_refl H2)))) in Hv. done.
Qed.

Section theorems.
Context `{PyText}.

Lemma webhook_honest url : honest (webhook_verdict url).
Proof.
  intros r. destruct r as [code b|code b ex|[] ex]; cbn; try (split; [done|by intros (? & ? & [=] & _)]).
  destruct (is_2xx code) eqn:H2; split; try done; [intros _; by exists code, b|].
  intros (? & ? & [= <- <-] & Hc). congruence.
Qed.
Lemma aiplex_honest config : honest (aiplex_verdict config).
Proof.
  intros r. destruct r as [code b|code b ex|[] ex]; cbn; try (split; [done|by intros (? & ? & [=] & _)]).
  - destruct (is_2xx code) eqn:H2; split; try done; [intros _; by exists code, b|].
    intros (? & ? & [= <- <-] & Hc). congruence.
  - destruct (_ && _ && _); (split; [done|by intros (? & ? & [=] & _)]).
Qed.

(** With at least one try, a webhook publish that returns had its entry acknowledged with
    a 2xx, once; one that raises had none, after at most the configured tries. *)
Theorem webhook_acknowledged s e t o :
  (1 <= s.(hook_max_retries))%Z -> exec (webhook_publish s e) t o ->
  posts t <= Z.to_nat s.(hook_max_retries) /\
  acknowledged t = match o with Ok _ => [dumps (entry_doc e)] | Err _ => [] end.
Proof.
  intros Hr He.
  destruct (wp_exec _ _ _ _ (post_from_spec (Z.to_nat s.(hook_max_retries)) "POST" _ _ _ _
    s.(hook_initial_backoff_s) None (webhook_honest s.(hook_url))) He) as [Hp Ho].
  split; [done|]. destruct o; [|done]. destruct Ho as [Ho|[Hz _]]; [done|]. lia.
Qed.

(** ** The AIPlex sink *)
Variable iso_time : Q -> string.
Variable config : AIPlexConfig.
Hypothesis tries : (1 <= config.(max_retries))%Z.

Definition names (e : PbEvent.t) (doc : json) : Prop :=
  exists payload timestamp, doc = event_doc config e payload timestamp.

Lemma to_event_spec e :
  wp (to_execution_event iso_time config e) (fun t o =>
    acknowledged t = [] /\ match o with Ok doc => names e doc | Err _ => True end).
Proof.
  unfold to_execution_event. destruct (event_payload _) as [payload|ex]; [|by split].
  cbn [lift]. apply wp_bind. cbn [wp]. case_decide.
  - apply wp_bind, wp_ret, wp_ret. split; [done|]. by eexists _, _.
  - apply wp_bind. unfold time_time. apply (wp_invoke (R:=answer) Time). intros [now|ex]; [|by split].
    apply wp_ret. split; [done|]. by eexists _, _.
Qed.

(** What was delivered and what is still held make up what was there and what came. *)
Definition keeps (s s' : AIPlexSink) (came : list json) (t : list (event answer)) : Prop :=
  exists batches, acknowledged t = map (fun b => dumps (batch_doc b)) batches /\
    concat batches ++ s'.(buf) = s.(buf) ++ came /\ s'.(closed) = s.(closed).

Lemma flush_spec s :
  wp (flush config s) (fun t o => forall s', o = Ok (Ok tt, s') -> keeps s s' [] t).
Proof.
  unfold flush. apply wp_bind, (wp_invoke (R:=answer) Monotonic). intros [now|ex]; [|by intros].
  case_decide as Hb.
  { apply wp_ret. intros s' [= <-]. exists []. by rewrite Hb. }
  apply wp_bind, wp_caught. eapply wp_mono; [|apply (post_from_spec _ _ _ _ _ _ _ _ (aiplex_honest config))].
  intros t o [_ Ho]. apply wp_ret. intros s' [= -> <-]. exists [s.(buf)].
  rewrite !acknowledged_app. cbn [acknowledged map concat app buf]. rewrite !app_nil_r. cbn.
  split; [by destruct Ho as [Ho|[Hz _]]; [|lia]|done].
Qed.

Lemma publish_spec e s :
  s.(closed) = false ->
  wp (aiplex_publish iso_time config e s) (fun t o => forall s', o = Ok (Ok tt, s') ->
    exists doc, names e doc /\ keeps s s' [doc] t).
Proof.
  intros Hc. unfold aiplex_publish. rewrite Hc. apply wp_bind, wp_caught. eapply wp_mono, to_event_spec.
  intros t1 o1 [Ha Hn]. destruct o1 as [doc|ex]; [|apply wp_ret; by intros].
  set (s1 := mkAIPlexSink (s.(buf) ++ [doc]) s.(last_flush) false).
  assert (Hflush : forall pre, acknowledged pre = [] ->
    wp (flush config s1) (fun t o => forall s', o = Ok (Ok tt, s') ->
      exists doc', names e doc' /\ keeps s s' [doc'] (t1 ++ pre ++ t))).
  { intros pre Hpre. eapply wp_mono, flush_spec. intros t o Hk s' Heq.
    destruct (Hk s' Heq) as (batches & Hb & Hcat & Hcl). exists doc. split; [done|]. exists batches.
    rewrite !acknowledged_app, Ha, Hpre, Hb, Hc. by rewrite Hcat, app_nil_r. }
  assert (Hkeep : forall pre, acknowledged pre = [] -> keeps s s1 [doc] (t1 ++ pre)).
  { intros pre Hpre. exists []. by rewrite acknowledged_app, Ha, Hpre, Hc. }
  cbn [buf]. fold s1. case_decide; cbn [mbind].
  - apply (Hflush [] eq_refl).
  - apply wp_bind, wp_bind, (wp_invoke (R:=answer) Monotonic). intros [now|ex]; [|by intros].
    apply wp_ret. rewrite app_nil_r. destruct (Qle_bool _ _).
    + apply (Hflush [Ev Monotonic (Ok now)] eq_refl).
    + apply wp_ret. intros s' [= <-]. exists doc. split; [done|]. rewrite app_nil_r. by apply Hkeep.
Qed.

(** While its calls return, the AIPlex sink loses nothing and reorders nothing: the
    batches acknowledged, then the buffer, are the buffer there was, then one document
    per entry, in order. *)
Theorem aiplex_sink_conserves es s t s' :
  s.(closed) = false -> exec (publish_all iso_time config es s) t (Ok (Ok tt, s')) ->
  exists docs batches, Forall2 names es docs /\
    acknowledged t = map (fun b => dumps (batch_doc b)) batches /\
    concat batches ++ s'.(buf) = s.(buf) ++ docs.
Proof.
  intros Hc He.
  enough (Hw : forall s, s.(closed) = false -> wp (publish_all iso_time config es s) (fun t o => forall s',
    o = Ok (Ok tt, s') -> exists docs, Forall2 names es docs /\ keeps s s' docs t)).
  { destruct (wp_exec _ _ _ _ (Hw s Hc) He s' eq_refl) as (docs & Hf & batches & Ha & Hcat & _). by exists docs, batches. }
  clear s t s' Hc He. induction es as [|e es IH]; intros s Hc; cbn [publish_all].
  { apply wp_ret. intros s' [= <-]. exists []. split; [constructor|]. exists []. by rewrite app_nil_r. }
  apply wp_bind. eapply wp_mono; [|by apply publish_spec]. intros t1 [[[[]|ex] s1]|ex] Hp; [|by intros..].
  destruct (Hp s1 eq_refl) as (doc & Hn & batches & Ha & Hcat & Hcl). rewrite Hc in Hcl.
  eapply wp_mono; [|by apply (IH s1)]. intros t2 o Hk s' Heq.
  destruct (Hk s' Heq) as (docs & Hf & batches2 & Ha2 & Hcat2 & Hcl2). exists (doc :: docs).
  split; [by constructor|]. exists (batches ++ batches2). rewrite acknowledged_app, Ha, Ha2, map_app.
  rewrite concat_app, <- app_assoc, Hcat2, app_assoc, Hcat, <- app_assoc. split_and!; [done|done|congruence].
Qed.
End theorems.

(** ** Concrete sinks *)

Definition sample_config : AIPlexConfig := mkAIPlexConfig "https://plex/internal/tape/events" "" "acme" "desk" "" "" "" ""
  2 1 2 (1#2).
Definition empty_sink : AIPlexSink := mkAIPlexSink [] 0 false.
Definition sample_entry (seq : Z) : PbEvent.t := PbEvent.mk "run-1" seq "decision" "" 1000 seq "".
Definition post_world (status : Z) (c : call) : M unit (answer c) := fun w =>
  (match c return result (answer c) with
   | HttpSend _ _ _ _ => Ok (HttpOk status "")
   | Monotonic => Ok 0%Q
   | Sleep _ => Ok tt
   | _ => Err TypeError
   end, w).
Definition publishing (es : list PbEvent.t) (s : AIPlexSink) : P (result unit * AIPlexSink) :=
  @publish_all sample_text (fun _ => "") sample_config es s.
Definition sample_hook (tries : Z) : WebhookSink := mkWebhookSink "https://hook" [] tries (1#2).

(** A publish below the batch size returns without a request: the relay's cursor passes
    an entry that only this process holds. *)
Lemma buffered_publish_not_posted :
  exists s, (run (post_world 200) (publishing [sample_entry 1] empty_sink) tt).1 = Ok (Ok tt, s) /\
  posts (trace (post_world 200) (publishing [sample_entry 1] empty_sink) tt) = 0.
Proof. eexists. split; vm_compute; reflexivity. Qed.

(** A batch that could not be posted is dropped from the buffer: the second publish
    raises, and the first entry, whose publish had returned, is in no later batch. *)
Lemma failed_flush_drops_batch :
  (run (post_world 503) (publishing [sample_entry 1; sample_entry 2] empty_sink) tt).1 =
    Ok (Err (returned_http "AIPlex ingest" "https://plex/internal/tape/events" 503), empty_sink).
Proof. vm_compute. reflexivity. Qed.

(** Without a try a webhook publish returns, and nothing was sent. *)
Lemma webhook_without_tries_drops :
  (run (post_world 200) (@webhook_publish sample_text (sample_hook 0) (sample_entry 1)) tt).1 = Ok tt /\
  trace (post_world 200) (@webhook_publish sample_text (sample_hook 0) (sample_entry 1)) tt = [].
Proof. split; reflexivity. Qed.

(** ** The configuration *)

Lemma ends_with_app suffix s : ends_with suffix (s +:+ suffix) = true.
Proof.
  induction s as [|c s IH].
  - change ("" +:+ suffix) with suffix. destruct suffix; cbn [ends_with]; by rewrite bool_decide_true.
  - change (String c s +:+ suffix) with (String c (s +:+ suffix)). cbn [ends_with]. by rewrite IH, orb_true_r.
Qed.

(** A sink that is constructed posts to the ingest path, in batches and with a number of
    tries and waits that are positive; without a URL it is not constructed. *)
Theorem accepted_sink_config env c :
  match new_config env c with
  | Ok c' => ends_with INGEST_PATH c'.(ingest_url) = true /\ (1 <= c'.(batch_size))%Z /\
      (1 <= c'.(max_retries))%Z /\ (0 < c'.(flush_interval_s))%Q /\ (0 < c'.(initial_backoff_s))%Q
  | Err ex => rstrip_slash (str_or c.(ingest_url) (env_get env "AIPLEX_INGEST_URL")) = ""
  end.
Proof.
  assert (Hq : forall x : Q, (0 < if Qle_bool x (1#20) then 1#20 else x)%Q).
  { intros x. destruct (Qle_bool x (1#20)) eqn:Hx; [done|]. apply Qnot_le_lt. intros Hle.
    assert (Hx' : (x <= 1#20)%Q) by (eapply Qle_trans; [exact Hle|done]).
    apply Qle_bool_iff in Hx'. congruence. }
  unfold new_config. case_decide; [done|]. cbn. split_and!; [|lia|lia|apply Hq|apply Hq].
  destruct (ends_with INGEST_PATH (rstrip_slash _)) eqn:Hends; [done|apply ends_with_app].
Qed.

(** ** Witnesses *)

Lemma webhook_acknowledged_witness :
  acknowledged (trace (post_world 200) (@webhook_publish sample_text (sample_hook 3) (sample_entry 1)) tt) = ["{}"].
Proof.
  destruct (@webhook_acknowledged sample_text (sample_hook 3) (sample_entry 1) _ _ ltac:(vm_compute; discriminate)
    (run_exec (post_world 200) (@webhook_publish sample_text (sample_hook 3) (sample_entry 1)) tt)) as [_ Ha].
  exact Ha.
Defined.

Lemma aiplex_sink_conserves_witness :
  exists docs batches, Forall2 (names (H:=sample_text) sample_config) [sample_entry 1; sample_entry 2; sample_entry 3] docs /\
    acknowledged (trace (post_world 200) (publishing [sample_entry 1; sample_entry 2; sample_entry 3] empty_sink) tt) =
      map (fun b => @dumps sample_text (batch_doc b)) batches /\
    concat batches ++ [event_doc (H:=sample_text) sample_config (sample_entry 3) [] ""] = [] ++ docs.
Proof.
  refine (@aiplex_sink_conserves sample_text (fun _ => "") sample_config ltac:(vm_compute; discriminate)
    [sample_entry 1; sample_entry 2; sample_entry 3] empty_sink _
    (mkAIPlexSink [event_doc (H:=sample_text) sample_config (sample_entry 3) [] ""] 0 false) eq_refl _).
  refine (eq_rect _ (exec _ _) (run_exec (post_world 200)
    (publishing [sample_entry 1; sample_entry 2; sample_entry 3] empty_sink) tt) _ _).
  vm_compute. reflexivity.
Defined.
