(* ===== verification/HttpConnector.v ===== *)
(** * HttpConnector: outbox connectors, [tape/connectors/http.py] and [tape/connectors/pubsub.py]

    The connector that calls an HTTP endpoint; over Pub/Sub the publishing connector, and
    the subscriber that calls the upstream and reports. *)
From Stdlib Require Import Ascii.
From S2P Require Import Prelude Scenarios Client SdkOutbox Reactions.
#[local] Open Scope Z_scope.
#[local] Open Scope nat_scope.

(** What running an inverse through a connector comes to. *)
Module SCompensation.
Record t := mk { status : string; response : pydict; error : pydict }.
End SCompensation.

(** ** How a connector is called, [tape/connectors/base.py]

    A method answers at once or gives a coroutine, which the thread's event loop runs to
    its end, if there is one and it is not running already. *)
Inductive Returned (A : Type) := Value (a : A) | Coroutine (ends : result A).
Arguments Value {A} _.
Arguments Coroutine {A} _.
Inductive EventLoop := NoLoop | IdleLoop | RunningLoop.
Definition run_until_complete {A} (loop : EventLoop) (ends : result A) : result A :=
  match loop with
  | NoLoop => Err (Raised "RuntimeError" "There is no current event loop")
  | IdleLoop => ends
  | RunningLoop => Err (Raised "RuntimeError" "This event loop is already running")
  end.
Definition called {A} (loop : EventLoop) (r : result (Returned A)) : result A :=
  v ← r; match v with Value a => mret a | Coroutine ends => run_until_complete loop ends end.
Definition call_dispatch : EventLoop -> result (Returned SDispatch.t) -> result SDispatch.t := called.
Definition call_observe : EventLoop -> result (Returned SObservation.t) -> result SObservation.t := called.
Definition call_compensate : EventLoop -> result (Returned SCompensation.t) -> result SCompensation.t := called.
(** Called where a loop runs, an asynchronous connector raises, whatever it would answer; the
    outbox dispatcher takes that for a lost acknowledgement. *)
Lemma running_loop_refuses (ends : result SDispatch.t) :
  call_dispatch RunningLoop (Ok (Coroutine ends)) = Err (Raised "RuntimeError" "This event loop is already running").
Proof. reflexivity. Qed.

Record HTTPConnector := mkHTTPConnector {
  http_name : string; endpoint : string; headers : list (string * string);
  observe_endpoint : string; compensate_endpoint : string;
  success_codes : list Z; duplicate_code : Z
}.
Definition http_defaults (name endpoint : string) : HTTPConnector :=
  mkHTTPConnector name endpoint [] "" "" [200; 201; 202; 204]%Z 409.

(** [{**a, **b}] on headers *)
Definition with_headers (a b : list (string * string)) : list (string * string) :=
  foldl (fun h kv => dict_set kv.1 kv.2 h) a b.

(** [urllib.parse.quote(s)], which leaves slashes alone *)
Fixpoint quote_path (s : string) : string :=
  match s with
  | EmptyString => EmptyString
  | String c s' => (if decide (c = "/"%char) then "/" else quote_char c) +:+ quote_path s'
  end.

Section http.
Context `{PyText}.
Variable conn : HTTPConnector.

(** [_build_headers] *)
Definition build_headers (e : PbEffect.t) : list (string * string) :=
  with_headers
    [("Content-Type", "application/json"); ("Idempotency-Key", e.(PbEffect.idempotency_key));
     ("X-Tape-Run-Id", e.(PbEffect.run_id)); ("X-Tape-Effect-Key", e.(PbEffect.idempotency_key));
     ("X-Tape-Business-Key", e.(PbEffect.business_key))] conn.(headers).

Definition body_or_empty (text : string) : string := str_or text "{}".

(** The body of a response: unreadable text is kept under [_raw]. *)
Definition response_body (text : string) : json :=
  if decide (text = "") then JObj []
  else match loads text with Ok v => v | Err _ => JObj [("_raw", JStr text)] end.
(** The body of an error status: unreadable text is dropped. *)
Definition error_body (text : option string) : string * json :=
  match text with
  | None => ("", JObj [])
  | Some text =>
    if decide (text = "") then ("", JObj [])
    else match loads text with Ok v => (text, v) | Err _ => ("", JObj []) end
  end.

(** [str(body.get("external_ref") or body.get("id") or "")] *)
Definition reference_of (body : pydict) : string :=
  let get k := default JNull (dict_get k body) in
  match json_or (json_or (get "external_ref") (get "id")) (JStr "") with
  | JStr s => s
  | v => str_json v
  end.

Definition coded (code : Z) (body : pydict) : pydict := merge [("http_code", JInt code)] body.

(** The two results built from a body, which must be a dict. *)
Definition confirmed_result (code : Z) (body : json) : result SDispatch.t :=
  match body with
  | JObj d => Ok (SDispatch.mk "confirmed" (reference_of d) (coded code d) [] 0)
  | _ => Err AttributeError
  end.
Definition failed_result (code : Z) (text : string) (body : json) : result SDispatch.t :=
  match body with
  | JObj d => Ok (SDispatch.mk "failed" "" (coded code d)
                    [("http_code", JInt code); ("body", JStr text)] 0)
  | _ => Err TypeError
  end.
Definition unknown_result (ex : exn) : SDispatch.t :=
  SDispatch.mk "unknown" "" [] [("type", JStr (exn_name ex)); ("message", JStr (str_exn ex))] 0.

(** What [dispatch] makes of a reply. *)
Definition interpret (r : http_reply) : result SDispatch.t :=
  match r with
  | HttpOk code text =>
    let body := response_body text in
    if decide (code = conn.(duplicate_code) \/ code ∈ conn.(success_codes))
    then confirmed_result code body else failed_result code text body
  | HttpErr code text _ =>
    let '(text, body) := error_body text in
    if decide (code = conn.(duplicate_code)) then confirmed_result code body
    else failed_result code text body
  | HttpFailed _ ex => Ok (unknown_result ex)
  end.

Definition http_dispatch (e : PbEffect.t) : P SDispatch.t :=
  r ← (invoke (HttpSend "POST" conn.(endpoint) (build_headers e)
                (body_or_empty e.(PbEffect.request_json))) : P http_reply);
  lift (interpret r).

(** ** Observation *)

Definition OBSERVATIONS : list string := ["confirmed"; "absent"; "duplicate"; "failed"; "stuck"].

Definition observed_body (body : json) : result SObservation.t :=
  match body with
  | JObj d =>
    let text k alt := match json_or (default JNull (dict_get k d)) (JStr alt) with
                      | JStr s => s | v => str_json v end in
    let status := text "status" "absent" in
    Ok (SObservation.mk (if decide (status ∈ OBSERVATIONS) then status else "stuck")
          (text "external_ref" "") d)
  | _ => Err AttributeError
  end.

Definition observe_url (e : PbEffect.t) : string :=
  conn.(observe_endpoint) +:+ "?key=" +:+ quote_path e.(PbEffect.idempotency_key) +:+
  "&business_key=" +:+ quote_path e.(PbEffect.business_key).

Definition http_observe (e : PbEffect.t) : P SObservation.t :=
  if decide (conn.(observe_endpoint) = "") then mret (SObservation.mk "absent" "" [])
  else
    try_ (r ← (invoke (HttpSend "GET" (observe_url e) (build_headers e) "") : P http_reply);
          match r with
          | HttpOk _ text =>
            body ← lift (if decide (text = "") then Ok (JObj []) else loads text);
            lift (observed_body body)
          | HttpErr _ _ ex | HttpFailed _ ex => Throw ex
          end)
         (fun ex => mret (SObservation.mk "stuck" "" [("error", JStr (str_exn ex))])).

(** ** Compensation *)

Definition http_compensate (ob : PbObligation.t) : P SCompensation.t :=
  if decide (conn.(compensate_endpoint) = "") then
    mret (SCompensation.mk "failed" [] [("reason", JStr "no compensate_endpoint configured")])
  else
    try_ (r ← (invoke (HttpSend "POST" conn.(compensate_endpoint)
                 (with_headers conn.(headers)
                    [("Content-Type", "application/json");
                     ("Idempotency-Key", ob.(PbObligation.effect_key))])
                 (body_or_empty ob.(PbObligation.payload_json))) : P http_reply);
          match r with
          | HttpOk code _ =>
            mret (if decide (code ∈ conn.(success_codes))
                  then SCompensation.mk "compensated" [("http_code", JInt code)] []
                  else SCompensation.mk "failed" [] [("http_code", JInt code)])
          | HttpErr _ _ ex | HttpFailed _ ex => Throw ex
          end)
         (fun ex => mret (SCompensation.mk "failed" []
            [("type", JStr (exn_name ex)); ("message", JStr (str_exn ex))])).
End http.

(** ** The publisher *)

Record PubSubConnector := mkPubSubConnector { ps_name : string; project : string; topic : string }.

Definition topic_path (c : PubSubConnector) : string :=
  "projects/" +:+ c.(project) +:+ "/topics/" +:+ c.(topic).

Definition effect_attrs (c : PubSubConnector) (e : PbEffect.t) : list (string * string) :=
  [("tape_run_id", e.(PbEffect.run_id)); ("tape_effect_key", e.(PbEffect.idempotency_key));
   ("tape_business_key", e.(PbEffect.business_key)); ("tape_connector", c.(ps_name));
   ("tape_tool", e.(PbEffect.tool_name)); ("tape_semantics", pretty e.(PbEffect.semantics))].

Section pubsub.
Context `{PyText}.

(** [dispatch], ordered by the run; every failure to publish is a definite one. *)
Definition pubsub_dispatch (c : PubSubConnector) (e : PbEffect.t) : P SDispatch.t :=
  r ← caught (invoke (PublishMessage (topic_path c) (body_or_empty e.(PbEffect.request_json))
                        e.(PbEffect.run_id) (effect_attrs c e)) : P string);
  mret (match r with
        | Ok mid => SDispatch.mk "confirmed" mid
                      [("message_id", JStr mid); ("topic", JStr (topic_path c))] [] 0
        | Err ex => SDispatch.mk "failed" "" []
                      [("type", JStr (exn_name ex)); ("message", JStr (str_exn ex))] 0
        end).
Definition pubsub_observe : SObservation.t := SObservation.mk "absent" "" [].
Definition pubsub_compensate : SCompensation.t :=
  SCompensation.mk "failed" []
    [("reason", JStr ("PubSubConnector does not implement compensate; " +:+
       "publish a compensation message via a separate connector or " +:+
       "wire it through the business system."))].

(** ** The subscriber *)

Record Subscriber := mkSubscriber {
  claimer : string; sub_lease_ttl_ms : Z; backoff_base_ms : Z; lru_size : nat
}.
Variable sub : Subscriber.

(** [_seen_lookup]: the keys seen, oldest first, of which the newest [lru_size] are kept. *)
Definition seen_lookup (key : string) (seen : list string) : bool * list string :=
  if decide (key ∈ seen)
  then (true, List.filter (fun k => negb (bool_decide (k = key))) seen ++ [key])
  else let seen' := seen ++ [key] in
       (false, drop (length seen' - sub.(lru_size)) seen').

(** [_report] *)
Definition report (run_id key : string) (res : SDispatch.t) : P unit :=
  if decide (res.(SDispatch.status) = "confirmed") then
    rpc_complete_effect run_id key EFFECT_STATUS_CONFIRMED (dumps (JObj (confirmed_payload res))) ""
  else if decide (res.(SDispatch.status) = "unknown") then
    rpc_record_dispatch_attempt run_id key
      (dumps (json_or (JObj res.(SDispatch.error)) (JObj [("reason", JStr "ack lost")]))) 0
  else
    next_at ← (if decide (res.(SDispatch.retry_at_ms) = 0%Z)
               then now ← now_ms; mret (now + sub.(backoff_base_ms))%Z
               else mret res.(SDispatch.retry_at_ms));
    rpc_record_dispatch_attempt run_id key (dumps (JObj res.(SDispatch.error))) next_at.

(** [try: record_dispatch_attempt(..) except: pass], then [ack] *)
Definition unknown_and_ack (m : PsMessage.t) (run_id key error : string) : P unit :=
  _ ← try_ (rpc_record_dispatch_attempt run_id key error 0) (fun _ => mret tt);
  invoke (Ack m).

(** What follows an acquired claim: parse, handle, report. *)
Definition handle_claimed (m : PsMessage.t) (run_id key : string) : P unit :=
  match (if decide (m.(PsMessage.data) = "") then Ok (JObj []) else loads m.(PsMessage.data)) with
  | Err ex => unknown_and_ack m run_id key ("malformed body: " +:+ str_exn ex)
  | Ok payload =>
    r ← caught (invoke (HandleMessage payload m.(PsMessage.attributes)) : P SDispatch.t);
    match r with
    | Err ex => unknown_and_ack m run_id key (raised_text "handler: " ex)
    | Ok res =>
      o ← caught (report run_id key res);
      match o with Ok _ => invoke (Ack m) | Err _ => invoke (Nack m) end
    end
  end.

(** [_on_message]: the keys seen after, and the settling of the message. *)
Definition on_message (m : PsMessage.t) (seen : list string) : list string * P unit :=
  let attr k := default "" (dict_get k m.(PsMessage.attributes)) in
  let key := attr "tape_effect_key" in
  let run_id := attr "tape_run_id" in
  if decide (key = "" \/ run_id = "") then (seen, invoke (Ack m))
  else
    let '(known, seen') := seen_lookup key seen in
    (seen',
     if known : bool then invoke (Ack m)
     else
       go ← try_ (claim ← (invoke (ClaimEffectDispatch run_id key sub.(claimer) sub.(sub_lease_ttl_ms))
                             : P (bool * PbEffect.t));
                   if (claim : bool * PbEffect.t).1 then mret true
                   else _ ← (invoke (Ack m) : P unit); mret false)
                  (fun _ => _ ← (invoke (Nack m) : P unit); mret false);
       if go : bool then handle_claimed m run_id key else mret tt).

(** The messages of one streaming pull, in the order they are delivered. *)
Fixpoint consume (ms : list PsMessage.t) (seen : list string) : P (list string) :=
  match ms with
  | [] => mret seen
  | m :: ms => let '(seen', settle) := on_message m seen in _ ← settle; consume ms seen'
  end.
End pubsub.
