(* ===== verification/SdkEdges.v ===== *)
(** * SdkEdges: where the SDK meets the outside

    The channel a client opens ([TapeClient.__init__]), the Pub/Sub subscriber's process
    ([tape/connectors/pubsub.py]), the Pub/Sub bridge's process ([tape/reactions.py]) and
    the file and Pub/Sub sinks ([tape/sinks.py]).

    The subscriber outlives every error of its stream; the bridge completes a task only
    after its message was taken, and publishes, completes or hands back every task it
    claimed. *)
From Stdlib Require Import Ascii QArith.
From S2P Require Import Prelude Scenarios ScenarioTheorems Lineage Contracts Client SdkSamples SdkOutbox SdkLoops Identity Reactions Sinks HttpConnector.
#[local] Open Scope Z_scope.
#[local] Open Scope nat_scope.

(** ** The channel *)

(** What a secure channel attaches to its calls. *)
Inductive CallCreds := NoCreds | AccessToken (token : string) | GoogleIdToken (audience : string).
Inductive Channel := Insecure (target : string) | Secure (target : string) (creds : CallCreds).
(** [TapeClient.__init__]: a token given is used as it is, else one is minted for the
    audience of the argument, the environment or the URL. *)
Definition open_channel (env : list (string * string)) (url : string) (auth : bool) (audience id_token : string) : Channel :=
  if is_tls url then
    Secure (url_target url)
      (if decide (id_token <> "") then AccessToken id_token
       else if auth then GoogleIdToken (str_or audience (str_or (env_get env "TAPE_AUDIENCE") (audience_for url)))
       else NoCreds)
  else Insecure (url_target url).

Section edges.
Context `{PyText}.

(** ** The subscriber's process *)
Section subscriber.
Variable path : string.
(** Whether a message has come, and with it the subscriber's client of the server. *)
Variable has_tape : bool.

Definition quietly (p : P unit) : P unit := try_ p (fun _ => mret tt).
(** [stop] *)
Definition stop_subscriber : P unit :=
  _ ← quietly (invoke CancelPull); if has_tape then quietly (invoke CloseClient) else mret tt.
(** What [result(timeout=2.0)] raises of a stream that is well. *)
Definition still_healthy (ex : exn) : bool :=
  bool_decide (exn_name ex ∈ ["TimeoutError"; "_MultiThreadedRendezvous"]).
Definition restart_pull : P unit := _ ← quietly (invoke CancelPull); invoke (Subscribe path).
(** One turn of the loop of [run]. *)
Definition pull_turn (_ : unit) : P (unit + unit) :=
  stop ← (invoke StopRequested : P bool);
  if stop : bool then mret (inr tt)
  else
    r ← caught (invoke (PullResult 2) : P unit);
    match r with
    | Ok _ => mret (inl tt)
    | Err ex =>
      stop ← (invoke StopRequested : P bool);
      if stop : bool then mret (inr tt)
      else if still_healthy ex then mret (inl tt)
      else _ ← restart_pull; mret (inl tt)
    end.
(** [run]; without [block] the stream goes on in the library's threads. *)
Definition run_subscriber (turns : nat) (block : bool) : P (option unit) :=
  _ ← (invoke (Subscribe path) : P unit);
  if block then finally_ (forever turns pull_turn tt) stop_subscriber else mret (Some tt).

(** [_main] over its parsed arguments: [resolve] is [getattr(import_module(m), attr)];
    without a handler a built-in one confirms everything. *)
Definition smoke_handler (attrs : list (string * string)) : SDispatch.t :=
  SDispatch.mk "confirmed" (default "" (dict_get "tape_effect_key" attrs)) [("smoke", JBool true)] [] 0.
Definition pubsub_main (turns : nat) (handler : string) (resolve : string -> string -> P unit) : P Z :=
  let attr := after_char ":"%char handler in
  if negb (bool_decide (handler = "")) && bool_decide (attr = "") then
    _ ← (invoke (PrintErr "--handler must be module:attr") : P unit); mret 2%Z
  else
    _ ← (if decide (handler = "") then mret tt else resolve (before_char ":"%char handler) attr);
    _ ← run_subscriber turns true;
    mret 0%Z.
End subscriber.

(** ** The bridge's process *)
Definition pubsub_missing (what : string) : exn :=
  Raised "RuntimeError" (what +:+ " requires google-cloud-pubsub; pip install google-cloud-pubsub").
Definition import_pubsub (what : string) : P unit :=
  try_ (_ ← (invoke (ImportModule "google.cloud.pubsub_v1") : P pyobj); mret tt) (fun _ => Throw (pubsub_missing what)).
(** One turn: [if once: return], and a pause when nothing was claimed. *)
Definition bridge_turn (owner : string) (lease_ms claim_max : Z) (rids : list string) (once : bool) (poll_interval_s : Q)
    (_ : unit) : P (unit + unit) :=
  any ← bridge_pass owner lease_ms claim_max rids;
  if once then mret (inr tt)
  else _ ← (if any : bool then mret tt else (invoke (Sleep poll_interval_s) : P unit)); mret (inl tt).
Definition run_pubsub_bridge (turns : nat) (registry : Declarations) (url reaction_id owner default_owner : string)
    (once : bool) (poll_interval_s : Q) (claim_max lease_ms : Z) : P (option unit) :=
  _ ← import_pubsub "run_pubsub_bridge";
  rids ← (if decide (reaction_id = "") then r ← bridge_rids registry registry; mret r.2 else mret [reaction_id]);
  finally_
    (with_client url (forever turns (bridge_turn (str_or owner default_owner) lease_ms claim_max rids once poll_interval_s) tt))
    (quietly (invoke PublisherStop)).

(** ** The sinks of one call *)
Definition log_publish (path : string) (e : PbEvent.t) : P unit :=
  if decide (path = ":stderr") then invoke (PrintErr (dumps (entry_doc e)))
  else invoke (AppendLine path (dumps (entry_doc e))).
(** [PubSubSink.publish]: ordered by run, with the id to dedup on. *)
Definition pubsub_publish (topic : string) (e : PbEvent.t) : P unit :=
  _ ← (invoke (PublishMessage topic (dumps (entry_doc e)) e.(PbEvent.run_id)
                 [("tape-event-id", event_id e); ("kind", e.(PbEvent.kind))]) : P string);
  mret tt.
(** [PubSubSink.close] *)
Definition pubsub_sink_close : P unit := quietly (invoke PublisherStop).
End edges.

#[local] Arguments wp : simpl never.

(** ** The subscriber outlives its stream *)
Definition steady (e : event answer) : bool :=
  match e with Ev (Subscribe _) (Err _) | Ev StopRequested (Err _) => false | _ => true end.
Definition asked_to_stop (e : event answer) : bool := match e with Ev StopRequested (Ok true) => true | _ => false end.

Section subscriber_theorems.
Context `{PyText}.

Lemma quietly_returns p : wp (quietly p) (fun _ o => o = Ok tt).
Proof. apply wp_try, wp_any. by intros t [[]|e]; [|apply wp_ret]. Qed.

Lemma stop_returns has_tape : wp (stop_subscriber has_tape) (fun _ o => o = Ok tt).
Proof.
  unfold stop_subscriber. apply wp_bind. eapply wp_mono; [|apply quietly_returns]. intros t' ? ->.
  destruct has_tape; [|by apply wp_ret]. eapply wp_mono; [|apply quietly_returns]. by intros ? ? ->.
Qed.
(** A turn goes on, or the stop was asked for. *)
Lemma pull_turn_goes_on path s :
  wp (pull_turn path s) (fun t o => forallb steady t = true ->
    exists r, o = Ok r /\ (r = inr tt -> existsb asked_to_stop t = true)).
Proof.
  intros [[]|e]; cbn; [by intros _; eexists| |done].
  intros [[]|ex]; cbn; [by intros _; eexists|].
  intros [[]|e]; cbn; [by intros _; eexists| |done].
  destruct (still_healthy ex); [by intros _; eexists|].
  intros r; destruct r; cbn; intros [[]|e']; cbn; try done; by intros _; eexists.
Qed.

Lemma pulls_go_on path n s :
  wp (forever n (pull_turn path) s) (fun t o => forallb steady t = true ->
    exists r, o = Ok r /\ (is_Some r -> existsb asked_to_stop t = true)).
Proof.
  revert s. induction n as [|n IH]; intros s; cbn [forever]; [apply wp_ret; intros _; exists None; split; [done|by intros [? ?]]|].
  apply wp_bind. eapply wp_mono; [|apply pull_turn_goes_on]. intros t [[[]|[]]|e] Hr.
  - eapply wp_mono; [|apply IH]. intros t' o Ho. rewrite forallb_app, existsb_app. intros [H1 H2]%andb_true_iff.
    destruct (Ho H2) as (r & -> & Hs). exists r. split; [done|]. intros Hr'. by rewrite (Hs Hr'), orb_true_r.
  - apply wp_ret. rewrite app_nil_r. intros Hf. destruct (Hr Hf) as (r & [= <-] & Hs). exists (Some tt). split; [done|]. intros _. by apply Hs.
  - intros Hf. by destruct (Hr Hf) as (? & ? & _).
Qed.

(** Whatever its stream raises, and whatever its stop raises, the subscriber goes on until
    it is asked to stop: only a subscription that is refused ends it. *)
Theorem subscriber_outlives_its_stream path has_tape n t o :
  exec (run_subscriber path has_tape n true) t o -> forallb steady t = true ->
  exists r, o = Ok r /\ (is_Some r -> existsb asked_to_stop t = true).
Proof.
  intros He. pattern t, o. refine (wp_exec _ _ t o _ He). clear t o He.
  intros [[]|e]; [|done]. cbn. unfold finally_. apply wp_bind, wp_caught.
  eapply wp_mono; [|apply pulls_go_on]. intros t o Ho. apply wp_bind.
  eapply (wp_mono _ (fun t o => o = Ok tt)).
  - intros t' ? ->. assert (Hsplit : forallb steady (t ++ t') = true -> forallb steady t = true)
      by (rewrite forallb_app; by intros [? _]%andb_true_iff).
    destruct o as [r|e]; hnf.
    + rewrite app_nil_r. intros Hf. destruct (Ho (Hsplit Hf)) as (r' & [= <-] & Hs). exists r. split; [done|].
      intros Hr. by rewrite existsb_app, (Hs Hr).
    + rewrite app_nil_r. intros Hf. by destruct (Ho (Hsplit Hf)) as (? & ? & _).
  - apply stop_returns.
Qed.
End subscriber_theorems.

(** ** The bridge completes what was published *)
Definition id_of (attrs : list (string * string)) : string := default "" (dict_get "tape-task-id" attrs).
(** The task whose message an event says was taken. *)
Definition published_by (e : event answer) : list string :=
  match e with Ev (PublishTask _ _ attrs) (Ok _) => [id_of attrs] | _ => [] end.
(** A task is completed only after its message was taken. *)
Fixpoint published_first (ids : list string) (t : list (event answer)) : Prop :=
  match t with
  | [] => True
  | e :: t => match e.(ev_call) with CompleteTask id _ => id ∈ ids | _ => True end /\ published_first (published_by e ++ ids) t
  end.
Lemma published_first_mono ids ids' t : ids ⊆ ids' -> published_first ids t -> published_first ids' t.
Proof.
  revert ids ids'. induction t as [|[c r] t IH]; [done|]. cbn. intros ids ids' Hs [Hc Ht]. split.
  - destruct c; auto.
  - eapply IH; [|exact Ht]. set_solver.
Qed.
#[export] Instance published_first_closed : Closed (published_first []).
Proof.
  split; [done|]. assert (forall t ids t', published_first ids t -> published_first [] t' -> published_first ids (t ++ t')) as Happ;
    [|by intros t t'; apply Happ].
  induction t as [|e t IH]; intros ids t' Ht Ht'; cbn; [eapply published_first_mono; [|exact Ht']; set_solver|].
  destruct Ht as [Hc Ht]. split; [done|]. by apply IH.
Qed.

(** What a task's turn leaves: taken and completed, or handed back, or an attempt at it. *)
Definition task_settled (owner : string) (t : PbTask.t) (tr : list (event answer)) : Prop :=
  Ev (CompleteTask t.(PbTask.task_id) owner) (Ok tt) ∈ tr \/
  exists error r, Ev (NackTask t.(PbTask.task_id) owner error false) r ∈ tr.

Section bridge_theorems.
Context `{PyText}.
(** The tasks an event says were claimed. *)
Definition claimed_by (e : event answer) : list PbTask.t :=
  match e with Ev (ClaimTasks _ _ _ _ _) (Ok ts) => ts | _ => [] end.
Definition claimed (tr : list (event answer)) : list PbTask.t := flat_map claimed_by tr.
Lemma bridge_claimed_app t t' : claimed (t ++ t') = claimed t ++ claimed t'.
Proof. apply flat_map_app. Qed.

(** What a part of the bridge does: it does not raise, completes what was published, and
    settles the tasks in hand and those it claims. *)
Definition settles (owner : string) (ts : list PbTask.t) (tr : list (event answer)) : Prop :=
  published_first [] tr /\ forall t, t ∈ ts ++ claimed tr -> task_settled owner t tr.
Lemma task_settled_app owner t tr tr' : task_settled owner t tr \/ task_settled owner t tr' -> task_settled owner t (tr ++ tr').
Proof.
  unfold task_settled. setoid_rewrite elem_of_app. naive_solver.
Qed.
Lemma settles_app owner ts ts' tr tr' : settles owner ts tr -> settles owner ts' tr' -> settles owner (ts ++ ts') (tr ++ tr').
Proof.
  intros [H1 H2] [H3 H4]. split; [by apply closed_app|]. intros t. rewrite bridge_claimed_app, !elem_of_app.
  intros Ht. apply task_settled_app. setoid_rewrite elem_of_app in H2. setoid_rewrite elem_of_app in H4. naive_solver.
Qed.

Lemma bridge_task_settles owner t :
  wp (bridge_task owner t) (fun tr o => o = Ok tt /\ settles owner [t] tr).
Proof.
  assert (Hone : forall tr, claimed tr = [] -> published_first [] tr -> task_settled owner t tr -> settles owner [t] tr).
  { intros tr Hc Hp Ht. split; [done|]. rewrite Hc. by intros t' ->%list_elem_of_singleton. }
  unfold bridge_task. intros [[]|e]; cbn; [intros [[]|e]; cbn|]; [|intros r; destruct r as [[]|e']..]; cbn;
    (split; [done|apply Hone; [done|by repeat (split; try by apply list_elem_of_singleton)|]]); unfold task_settled;
    first [left; rewrite ?elem_of_cons; by auto|right; eexists _, _; rewrite ?elem_of_cons; by eauto 6].
Qed.
Lemma bridge_tasks_settle owner ts :
  wp (each ts (bridge_task owner)) (fun tr o => is_ok o = true /\ settles owner ts tr).
Proof.
  induction ts as [|t ts IH]; cbn [each]; [apply wp_ret; split; [done|split; [done|by intros t ?%elem_of_nil]]|].
  apply wp_bind. eapply wp_mono; [|apply bridge_task_settles]. intros tr ? [-> Ht].
  apply wp_bind. eapply wp_mono; [|exact IH]. intros tr' [os|e] [Ho Hts]; [|done].
  apply wp_ret. rewrite app_nil_r. split; [done|]. by apply (settles_app owner [t] ts).
Qed.

(** A pass of the bridge claims from every reaction, whichever of them fails, and of every
    task it claimed the message was taken and the task completed, or it was handed back; a
    task is completed only after its message was taken. *)
Theorem bridge_settles_what_it_claims owner lease_ms claim_max rids tr o :
  exec (bridge_pass owner lease_ms claim_max rids) tr o -> is_ok o = true /\ settles owner [] tr.
Proof.
  revert tr o. apply forall_exec. unfold bridge_pass. generalize false. induction rids as [|rid rids IH]; intros any; cbn [fold_each].
  { apply wp_ret. split; [done|split; [done|by intros t ?%elem_of_nil]]. }
  apply wp_bind. apply (wp_mono _ (fun tr o => is_ok o = true /\ settles owner [] tr)).
  - intros tr [any'|e] [Ho Htr]; [|done]. eapply wp_mono; [|apply IH]. intros tr' o' [Ho' Htr']. split; [done|].
    by apply (settles_app owner [] []).
  - apply wp_bind, wp_caught. unfold claim_tasks. intros [ts|e]; cbn.
    + apply wp_bind. eapply wp_mono; [|apply bridge_tasks_settle]. intros tr [os|e] [Ho [Hp Hts]]; [|done].
      hnf. rewrite app_nil_r. split; [done|]. split; [by split|]. intros t Ht. apply (task_settled_app owner t [_] tr). right. by apply Hts.
    + split; [done|]. split; [done|]. by intros t ?%elem_of_nil.
Qed.
End bridge_theorems.

(** ** Witnesses *)
(** A stream that times out, fails once and is then stopped. *)
Definition shaky (c : call) : M nat (answer c) := fun n =>
  match c return result (answer c) * nat with
  | StopRequested => (Ok (3 <? n), n)
  | PullResult _ => (Err (Raised (if decide (n = 1) then "Unavailable" else "TimeoutError") ""), S n)
  | Subscribe _ | CancelPull | CloseClient => (Ok tt, n)
  | _ => (Err TypeError, n)
  end.
Definition named_text : PyText := {|
  dumps := fun _ => "{}"; loads := fun _ => Ok (JObj []); str_exn := fun _ => "boom";
  exn_name := fun ex => match ex with Raised n _ => n | _ => "" end; exn_details := fun _ => ""; str_json := fun _ => "";
  int_text := fun _ => Ok 0%Z; float_text := fun _ => Ok 0%Q; repr_str := fun s => s; from_markup := fun s => Ok s |}.
Definition shaky_run : P (option unit) := run_subscriber (H := named_text) "projects/p/subscriptions/s" true 9 true.
Lemma subscriber_outlives_its_stream_witness :
  exists r, (run shaky shaky_run 0).1 = Ok r /\ (is_Some r -> existsb asked_to_stop (trace shaky shaky_run 0) = true).
Proof.
  apply (@subscriber_outlives_its_stream named_text "projects/p/subscriptions/s" true 9 _ _ (run_exec shaky shaky_run 0)).
  vm_compute. reflexivity.
Defined.
(** One restart: the subscription was made twice. *)
Example shaky_restarts : length (List.filter (fun e => match e.(ev_call) with Subscribe _ => true | _ => false end) (trace shaky shaky_run 0)) = 2.
Proof. vm_compute. reflexivity. Qed.
(** A stream that ends without an error is asked again at once, and never subscribed anew. *)
Definition ended (c : call) : M unit (answer c) := fun w =>
  match c return result (answer c) * unit with
  | StopRequested => (Ok false, w) | PullResult _ | Subscribe _ | CancelPull => (Ok tt, w) | _ => (Err TypeError, w)
  end.
Lemma ended_stream_spins :
  map ev_call (trace ended (run_subscriber (H := named_text) "s" false 3 true) tt) =
    [Subscribe "s"; StopRequested; PullResult 2; StopRequested; PullResult 2; StopRequested; PullResult 2; CancelPull].
Proof. vm_compute. reflexivity. Qed.

Definition two_tasks : list PbTask.t :=
  [PbTask.mk "t-1" "r-1" "/tape/run" "run-1" 7 "{}" 0 "" ""; PbTask.mk "t-2" "r-1" "/tape/run" "run-2" 8 "{}" 0 "" ""].
(** A broker that refuses the first message. *)
Definition broker (c : call) : M nat (answer c) := fun n =>
  match c return result (answer c) * nat with
  | ClaimTasks _ _ _ _ _ => (Ok two_tasks, n)
  | PublishTask _ _ _ => (if decide (n = 0) then Err TypeError else Ok tt, S n)
  | CompleteTask _ _ | NackTask _ _ _ _ => (Ok tt, n)
  | _ => (Err TypeError, n)
  end.
Definition one_pass : P bool := bridge_pass (H := sample_text) "me" 60000 32 ["r-1"].
Lemma bridge_settles_what_it_claims_witness :
  length (trace broker one_pass 0) = 5 /\ settles "me" [] (trace broker one_pass 0).
Proof.
  split; [vm_compute; reflexivity|].
  exact (proj2 (@bridge_settles_what_it_claims sample_text "me" 60000 32 ["r-1"] _ _ (run_exec broker one_pass 0))).
Defined.

(** A token given with a plaintext URL is not used. *)
Lemma plaintext_drops_the_token env auth audience id_token :
  open_channel env "tape://localhost:7878" auth audience id_token = Insecure "localhost:7878".
Proof. reflexivity. Qed.
