(* ===== verification/ConnectorTheorems.v ===== *)
(** * ConnectorTheorems: the HTTP connector and the Pub/Sub pair

    How an HTTP reply is classified, that observing never raises, that a subscriber
    settles every message once and calls its handler only under a claim. *)
From Stdlib Require Import QArith.
From S2P Require Import Prelude Scenarios ScenarioTheorems Contracts Client SdkOutbox HttpConnector SdkSamples.
#[local] Open Scope Z_scope.
#[local] Open Scope nat_scope.
#[local] Arguments wp : simpl never.

(** ** HTTP *)

(** The reply of the one request of a trace. *)
Definition replied (t : list (event answer)) : option http_reply :=
  match t with
  | [Ev c r] =>
    match c return result (answer c) -> option http_reply with
    | HttpSend _ _ _ _ => fun r => match r with Ok a => Some a | Err _ => None end
    | _ => fun _ => None
    end r
  | _ => None
  end.

Section http.
Context `{PyText}.
Variable conn : HTTPConnector.

(** What a reply says of the operation. *)
Definition verdict_of_reply (r : http_reply) : string :=
  match r with
  | HttpOk code _ => if decide (code = conn.(duplicate_code) \/ code ∈ conn.(success_codes)) then "confirmed" else "failed"
  | HttpErr code _ _ => if decide (code = conn.(duplicate_code)) then "confirmed" else "failed"
  | HttpFailed _ _ => "unknown"
  end.
(** The body of a reply, and that it reads as a dict. *)
Definition body_of (r : http_reply) : json :=
  match r with
  | HttpOk _ text => response_body text
  | HttpErr _ text _ => (error_body text).2
  | HttpFailed _ _ => JObj []
  end.
Definition dict_body (r : http_reply) : bool := match body_of r with JObj _ => true | _ => false end.

Lemma interpret_spec r :
  match interpret conn r with
  | Ok res => dict_body r = true /\ res.(SDispatch.status) = verdict_of_reply r
  | Err _ => dict_body r = false
  end.
Proof.
  destruct r as [code text|code text ex|kind ex]; cbn; [| |done].
  - unfold dict_body, body_of. case_decide; destruct (response_body text); by cbn.
  - unfold dict_body, body_of. destruct (error_body text) as [txt body]. cbn.
    case_decide; destruct body; by cbn.
Qed.

(** One POST under the effect's idempotency key; the reply's code decides between
    confirmed and failed, a transport failure is unknown; the dispatch raises exactly on
    a body that reads as something other than a dict. *)
Theorem http_dispatch_classifies e t o r :
  Forall (fun kv => kv.1 <> "Idempotency-Key") conn.(headers) ->
  exec (http_dispatch conn e) t o -> replied t = Some r ->
  (exists h, map ev_call t = [HttpSend "POST" conn.(endpoint) h (body_or_empty e.(PbEffect.request_json))] /\
     dict_get "Idempotency-Key" h = Some e.(PbEffect.idempotency_key)) /\
  match o with
  | Ok res => dict_body r = true /\ res.(SDispatch.status) = verdict_of_reply r
  | Err _ => dict_body r = false
  end.
Proof.
  intros Hh He Hr. revert Hr. refine (wp_exec _ (fun t o => replied t = Some r -> _) t o _ He).
  apply wp_bind, (wp_invoke (R:=answer) (HttpSend "POST" _ _ _)). intros [r'|ex]; [|done].
  assert (Hkey : dict_get "Idempotency-Key" (build_headers conn e) = Some e.(PbEffect.idempotency_key)).
  { unfold build_headers, with_headers. generalize (eq_refl : dict_get "Idempotency-Key"
      [("Content-Type", "application/json"); ("Idempotency-Key", e.(PbEffect.idempotency_key));
       ("X-Tape-Run-Id", e.(PbEffect.run_id)); ("X-Tape-Effect-Key", e.(PbEffect.idempotency_key));
       ("X-Tape-Business-Key", e.(PbEffect.business_key))] = Some e.(PbEffect.idempotency_key)).
    generalize [("Content-Type", "application/json"); ("Idempotency-Key", e.(PbEffect.idempotency_key));
       ("X-Tape-Run-Id", e.(PbEffect.run_id)); ("X-Tape-Effect-Key", e.(PbEffect.idempotency_key));
       ("X-Tape-Business-Key", e.(PbEffect.business_key))] as h.
    induction Hh as [|kv hs Hkv _ IH]; intros h Hg; cbn [foldl]; [done|]. apply IH. by rewrite dict_get_set_ne. }
  pose proof (interpret_spec r') as Hi. destruct (interpret conn r') as [res|ex]; hnf;
    intros [= <-]; (split; [eexists; by split|exact Hi]).
Qed.

(** Observing never raises, and answers one of the five statuses. *)
Theorem http_observe_total e t o :
  exec (http_observe conn e) t o -> exists obs, o = Ok obs /\ obs.(SObservation.status) ∈ OBSERVATIONS.
Proof.
  intros He. refine (wp_exec _ (fun _ o => exists obs, o = Ok obs /\ _) t o _ He).
  assert (Hstuck : forall ex : exn, exists obs, Ok (SObservation.mk "stuck" "" [("error", JStr (str_exn ex))]) = Ok obs /\
    obs.(SObservation.status) ∈ OBSERVATIONS) by (intros; eexists; split; [done|]; set_solver).
  unfold http_observe. case_decide; [eexists; split; [done|]; set_solver|].
  apply wp_try, wp_bind, (wp_invoke (R:=answer) (HttpSend "GET" _ _ _)).
  intros [[code text|code text ex|kind ex]|ex]; [|apply Hstuck..].
  apply wp_bind. destruct (if decide (text = "") then Ok (JObj []) else loads text) as [body|ex]; [|apply Hstuck].
  destruct body as [| | | | | |d]; try apply Hstuck. eexists. split; [done|]. cbn [SObservation.status].
  case_decide; [done|set_solver].
Qed.
End http.

(** ** The subscriber *)

(** The calls that settle a message. *)
Definition settles (m : PsMessage.t) (ev : event answer) : Prop :=
  ev_call ev = Ack m \/ ev_call ev = Nack m.
(** Settling a message does not fail. *)
Definition settling_ok (ev : event answer) : Prop :=
  match ev_call ev with Ack _ | Nack _ => is_ok (ev_answer ev) = true | _ => True end.
Definition no_settling (ev : event answer) : Prop :=
  match ev_call ev with Ack _ | Nack _ => False | _ => True end.

(** A trace that settles [m] once, at its end. *)
Definition settled (m : PsMessage.t) (t : list (event answer)) : Prop :=
  exists pre last, t = pre ++ [last] /\ settles m last /\ Forall no_settling pre.

Lemma settled_here m c r : c = Ack m \/ c = Nack m -> settled m [Ev c r].
Proof. intros Hc. by exists [], (Ev c r). Qed.
Lemma settled_cons m ev t : no_settling ev -> settled m t -> settled m (ev :: t).
Proof. intros Hev (pre & last & -> & Hl & Hp). exists (ev :: pre), last. split_and!; [done|done|by constructor]. Qed.
Lemma settled_app m t t' : Forall no_settling t -> settled m t' -> settled m (t ++ t').
Proof. intros Ht Hs. induction Ht; [done|]. by apply settled_cons. Qed.

Section subscriber.
Context `{PyText}.
Variable sub : Subscriber.

Lemma report_no_settling run_id key res :
  wp (report sub run_id key res) (fun t _ => Forall no_settling t).
Proof.
  unfold report. autounfold with rpc. repeat case_decide; repeat closed_step; by repeat constructor.
Qed.

(** A program whose traces, when settling works, return and settle the message. *)
Abbreviation settling m p := (wp p (fun t o => Forall settling_ok t -> o = Ok tt /\ settled m t)).

Lemma ack_settles m : settling m (invoke (Ack m) : P unit).
Proof. intros [[]|e]; intros Hok; [split; [done|]; apply settled_here; by left|]. by apply Forall_cons_1 in Hok as [Hok _]. Qed.
Lemma nack_settles m : settling m (invoke (Nack m) : P unit).
Proof. intros [[]|e]; intros Hok; [split; [done|]; apply settled_here; by right|]. by apply Forall_cons_1 in Hok as [Hok _]. Qed.

Lemma unknown_and_ack_settles m run_id key error : settling m (unknown_and_ack m run_id key error).
Proof.
  unfold unknown_and_ack, rpc_record_dispatch_attempt.
  intros [u|e]; (eapply wp_mono; [|apply ack_settles]); intros t o Hw Hok;
    apply Forall_cons_1 in Hok as [_ Hok]; destruct (Hw Hok) as [-> Hs]; (split; [done|]);
    by apply settled_cons.
Qed.

Lemma handle_claimed_settles m run_id key : settling m (handle_claimed sub m run_id key).
Proof.
  unfold handle_claimed. destruct (if decide _ then _ else _) as [payload|ex]; [|apply unknown_and_ack_settles].
  apply wp_bind, wp_caught. apply (wp_invoke (R:=answer) (HandleMessage _ _)). intros [res|ex].
  - apply wp_bind, wp_caught. eapply wp_mono, report_no_settling. intros t o Ht.
    assert (Hsw : settling m (match o with Ok _ => invoke (Ack m) | Err _ => invoke (Nack m) end : P unit))
      by (destruct o; [apply ack_settles|apply nack_settles]).
    eapply wp_mono, Hsw. intros t2 o2 Hw Hok.
    apply Forall_cons_1 in Hok as [_ Hok]. apply Forall_app in Hok as [_ Hok].
    destruct (Hw Hok) as [-> Hs]. split; [done|]. apply settled_cons; [done|]. by apply settled_app.
  - eapply wp_mono; [|apply unknown_and_ack_settles]. intros t o Hw Hok.
    apply Forall_cons_1 in Hok as [_ Hok]. destruct (Hw Hok) as [-> Hs]. split; [done|]. by apply settled_cons.
Qed.

(** Whatever its claim, its body, its handler and its report do, a delivered message is
    acknowledged or returned once, at the end, as long as settling a message works. *)
Theorem message_settled_once m seen t o :
  exec ((on_message sub m seen).2) t o -> Forall settling_ok t -> o = Ok tt /\ settled m t.
Proof.
  intros He. refine (wp_exec _ (fun t o => Forall settling_ok t -> o = Ok tt /\ settled m t) t o _ He).
  unfold on_message. case_decide; [apply ack_settles|].
  destruct (seen_lookup sub _ seen) as [[|] seen']; cbn [snd]; [apply ack_settles|].
  intros [[[|] eff]|ex].
  - hnf. eapply wp_mono; [|apply handle_claimed_settles]. intros t1 o1 Hw Hok.
    apply Forall_cons_1 in Hok as [_ Hok]. destruct (Hw Hok) as [-> Hs]. split; [done|]. by apply settled_cons.
  - intros [[]|e]; [|intros [[]|e']]; hnf; intros Hok; apply Forall_cons_1 in Hok as [_ Hok];
      apply Forall_cons_1 in Hok as [Ha Hok]; try done.
    split; [done|]. apply settled_cons; [done|]. apply settled_here. by left.
  - intros [[]|e]; hnf; intros Hok; apply Forall_cons_1 in Hok as [_ Hok];
      apply Forall_cons_1 in Hok as [Ha Hok]; try done.
    split; [done|]. apply settled_cons; [done|]. apply settled_here. by right.
Qed.

(** ** The keys seen *)

Lemma filter_other_length (key : string) l : key ∈ l ->
  length (List.filter (fun k => negb (bool_decide (k = key))) l) < length l.
Proof.
  pose proof (List.filter_length_le (fun k => negb (bool_decide (k = key)))) as Hle.
  induction l as [|k l IH]; [by inversion 1|]. specialize (Hle l). cbn [List.filter].
  intros [->|Hk]%elem_of_cons.
  - rewrite bool_decide_true by done. cbn. lia.
  - specialize (IH Hk). destruct (negb _); cbn; lia.
Qed.

(** The cache of keys stays within its size and holds no key twice, and a lookup leaves
    its key in it as long as the size is positive. *)
Theorem seen_lookup_cache key seen :
  NoDup seen -> length seen <= sub.(lru_size) -> 0 < sub.(lru_size) ->
  let '(known, seen') := seen_lookup sub key seen in
  (known = true <-> key ∈ seen) /\ NoDup seen' /\ length seen' <= sub.(lru_size) /\
  last seen' = Some key /\ (forall k, k ∈ seen' -> k ∈ seen \/ k = key).
Proof.
  intros Hnd Hlen Hpos. unfold seen_lookup. case_decide as Hin.
  - pose proof (filter_other_length key seen Hin) as Hlt.
    assert (Hmem : forall k, k ∈ List.filter (fun k => negb (bool_decide (k = key))) seen <-> k ∈ seen /\ k <> key).
    { intros k. rewrite list_elem_of_In, List.filter_In, <- list_elem_of_In, negb_true_iff, bool_decide_eq_false. done. }
    split_and!; [tauto| | |by rewrite last_snoc|].
    + apply NoDup_app. split_and!; [|intros k [_ Hk]%Hmem; by rewrite list_elem_of_singleton|apply NoDup_singleton].
      apply NoDup_ListNoDup, List.NoDup_filter. by apply NoDup_ListNoDup.
    + rewrite length_app. cbn. lia.
    + intros k [[Hk _]%Hmem|Hk%list_elem_of_singleton]%elem_of_app; tauto.
  - assert (Hnd' : NoDup (seen ++ [key])).
    { apply NoDup_app. split_and!; [done| |apply NoDup_singleton].
      intros k Hk Heq%list_elem_of_singleton. by subst k. }
    rewrite length_app in *. cbn [length] in *. split_and!; [split; [done|tauto]| | | |].
    + exact (sublist_NoDup _ _ Hnd' (sublist_drop _ _)).
    + rewrite length_drop, length_app. cbn. lia.
    + rewrite drop_app_le by lia. by rewrite last_snoc.
    + intros k Hk. pose proof (elem_of_sublist _ _ _ Hk (sublist_drop _ _)) as Hk'.
      apply elem_of_app in Hk' as [?|?%list_elem_of_singleton]; tauto.
Qed.

(** ** Handling *)

Definition handles (ev : event answer) : Prop :=
  match ev_call ev with HandleMessage _ _ => True | _ => False end.

Lemma no_handling_call c r t : (match c with HandleMessage _ _ => False | _ => True end) ->
  ~ Exists handles t -> ~ Exists handles (Ev c r :: t).
Proof. intros Hc Ht [Hh|Hh]%Exists_cons; [|done]. by destruct c. Qed.
Lemma no_handling_end : ~ Exists handles [].
Proof. inversion 1. Qed.
Lemma no_handling_ack m (X : list (event answer) -> Prop) :
  wp (invoke (Ack m) : P unit) (fun t _ => Exists handles t -> X t).
Proof.
  intros [[]|e]; intros Hx; exfalso; (eapply no_handling_call; [..|exact Hx]; [done|apply no_handling_end]).
Qed.

(** The handler is called only for a message of a journaled effect whose key was not
    seen lately, and after the server granted its claim. *)
Theorem handler_runs_under_a_claim m seen t o :
  exec ((on_message sub m seen).2) t o -> Exists handles t ->
  exists run_id key eff rest,
    dict_get "tape_run_id" m.(PsMessage.attributes) = Some run_id /\
    dict_get "tape_effect_key" m.(PsMessage.attributes) = Some key /\ (key ∉ seen) /\
    t = Ev (ClaimEffectDispatch run_id key sub.(claimer) sub.(sub_lease_ttl_ms)) (Ok (true, eff)) :: rest.
Proof.
  intros He. refine (wp_exec _ (fun t o => Exists handles t -> _) t o _ He).
  unfold on_message. case_decide as Hattr; cbn [snd]; [apply no_handling_ack|].
  destruct (dict_get "tape_effect_key" m.(PsMessage.attributes)) as [key|] eqn:Hkey; [|tauto].
  destruct (dict_get "tape_run_id" m.(PsMessage.attributes)) as [run_id|] eqn:Hrun; [|tauto].
  cbn [default from_option id] in *. unfold seen_lookup. case_decide as Hin; cbn [snd];
    [apply no_handling_ack|].
  intros [[[|] eff]|ex].
  - hnf. apply wp_any. intros t' o' _. by eexists _, _, _, _.
  - intros [[]|e]; [|intros [[]|e']]; intros Hx; exfalso; revert Hx;
      repeat (apply no_handling_call; [exact I|]); apply no_handling_end.
  - intros [[]|e]; intros Hx; exfalso; revert Hx;
      repeat (apply no_handling_call; [exact I|]); apply no_handling_end.
Qed.
End subscriber.

(** ** A subscriber at work *)

Definition sample_sub : Subscriber := mkSubscriber "host:1/pubsub" 60000 1000 4096.
Definition sample_message : PsMessage.t :=
  PsMessage.mk 1 "{}" [("tape_run_id", "run-1"); ("tape_effect_key", "run-1/fc-1")].
(** A server that answers a claim, a handler and a report; settling works. *)
Definition pubsub_world (claim : result (bool * PbEffect.t)) (done : result unit) (c : call) : M unit (answer c) :=
  fun w =>
  (match c return result (answer c) with
   | ClaimEffectDispatch _ _ _ _ => claim
   | HandleMessage _ _ => Ok landed
   | CompleteEffect _ _ _ _ _ => done
   | PublishMessage _ _ _ _ => Ok "m-1"
   | HttpSend _ _ _ _ => Ok (HttpOk 200 "{}")
   | Ack _ | Nack _ => Ok tt
   | _ => Err TypeError
   end, w).
Definition lost : exn := Raised "Unavailable" "connection lost".
Definition granting : forall c, M unit (answer c) := pubsub_world (Ok (true, sample_effect)) (Ok tt).
Definition delivered (ms : list PsMessage.t) : P (list string) := @consume sample_text sample_sub ms [].
Definition delivery (w : forall c, M unit (answer c)) (ms : list PsMessage.t) : list call :=
  map ev_call (trace w (delivered ms) tt).

Definition claiming : call := ClaimEffectDispatch "run-1" "run-1/fc-1" "host:1/pubsub" 60000.
Definition reporting : call := CompleteEffect "run-1" "run-1/fc-1" EFFECT_STATUS_CONFIRMED "{}" "".
Definition handling : call := HandleMessage (JObj []) sample_message.(PsMessage.attributes).

(** A message whose claim could not be made is returned to Pub/Sub, and its key was
    noted before the claim: the redelivery is taken for a duplicate and acknowledged.
    The handler never runs. *)
Lemma failed_claim_loses_message :
  delivery (pubsub_world (Err lost) (Ok tt)) [sample_message; sample_message] =
    [claiming; Nack sample_message; Ack sample_message].
Proof. vm_compute. reflexivity. Qed.

(** A report that fails returns the message, and its redelivery is acknowledged without
    a second report: the effect keeps the status it had. *)
Lemma failed_report_not_redelivered :
  delivery (pubsub_world (Ok (true, sample_effect)) (Err lost)) [sample_message; sample_message] =
    [claiming; handling; reporting; Nack sample_message; Ack sample_message].
Proof. vm_compute. reflexivity. Qed.

(** A refused claim drops the message, whoever holds the effect or however it ended. *)
Lemma refused_claim_drops_message :
  delivery (pubsub_world (Ok (false, sample_effect)) (Ok tt)) [sample_message] =
    [claiming; Ack sample_message].
Proof. vm_compute. reflexivity. Qed.

Definition sample_pubsub : PubSubConnector := mkPubSubConnector "bank" "treasury" "wires".
(** A publish is reported confirmed before any subscriber has seen the message, ... *)
Lemma publish_confirms_effect :
  exists res, (run granting (@pubsub_dispatch sample_text sample_pubsub sample_effect) tt).1 = Ok res /\
  res.(SDispatch.status) = "confirmed".
Proof. eexists. split; vm_compute; reflexivity. Qed.
(** ... and one that fails is a definite failure, whatever became of it on the wire. *)
Lemma failed_publish_is_definite : forall ex,
  exists res, exec (@pubsub_dispatch sample_text sample_pubsub sample_effect)
    [Ev (PublishMessage (topic_path sample_pubsub) "{}" "run-1" (effect_attrs sample_pubsub sample_effect)) (Err ex)]
    (Ok res) /\ res.(SDispatch.status) = "failed".
Proof. intros ex. eexists. split; [do 2 econstructor|reflexivity]. Qed.

(** ** An endpoint at work *)

(** JSON text that reads as a list of one order. *)
Definition list_text : PyText :=
  {| dumps := fun _ => "[]"; loads := fun _ => Ok (JList [JObj []]); str_exn := fun _ => "boom";
     exn_name := fun _ => "Exception"; exn_details := fun _ => ""; str_json := fun _ => "";
     int_text := fun _ => Ok 0%Z; float_text := fun _ => Ok 0%Q; repr_str := fun s => s; from_markup := fun s => Ok s |}.
Definition sample_http : HTTPConnector := http_defaults "bank" "https://bank/wires".

(** A wire the bank accepted, with a body that is a JSON list, makes the dispatch raise. *)
Lemma list_body_raises :
  exec (@http_dispatch list_text sample_http sample_effect)
    [Ev (HttpSend "POST" "https://bank/wires" (build_headers sample_http sample_effect) "{}") (Ok (HttpOk 200 "[{}]"))]
    (Err AttributeError).
Proof. repeat econstructor. Qed.

(** A gateway that timed out is a definite failure, though the wire may have landed. *)
Lemma gateway_timeout_is_definite :
  exists res, interpret (H:=sample_text) sample_http (HttpErr 504 None lost) = Ok res /\
  res.(SDispatch.status) = "failed".
Proof. eexists. split; reflexivity. Qed.

(** ** Witnesses *)

Lemma http_dispatch_classifies_witness :
  exists t r res, replied t = Some r /\ exec (@http_dispatch sample_text sample_http sample_effect) t (Ok res) /\
    res.(SDispatch.status) = verdict_of_reply sample_http r.
Proof.
  pose proof (run_exec granting (@http_dispatch sample_text sample_http sample_effect) tt) as He.
  destruct (@http_dispatch_classifies sample_text sample_http sample_effect _
    (Ok (SDispatch.mk "confirmed" "" [("http_code", JInt 200)] [] 0)) (HttpOk 200 "{}")
    ltac:(constructor) He eq_refl) as [_ [_ Hs]].
  exists (trace granting (@http_dispatch sample_text sample_http sample_effect) tt), (HttpOk 200 "{}"),
    (SDispatch.mk "confirmed" "" [("http_code", JInt 200)] [] 0).
  split_and!; [reflexivity|exact He|exact Hs].
Defined.

Lemma http_observe_total_witness :
  exists obs, (run granting (@http_observe sample_text sample_http sample_effect) tt).1 = Ok obs /\
  obs.(SObservation.status) ∈ OBSERVATIONS.
Proof.
  exact (@http_observe_total sample_text sample_http sample_effect _ _
    (run_exec granting (@http_observe sample_text sample_http sample_effect) tt)).
Defined.

Definition one_delivery : P unit := (@on_message sample_text sample_sub sample_message []).2.
Lemma message_settled_once_witness : settled sample_message (trace granting one_delivery tt).
Proof.
  refine (proj2 (@message_settled_once sample_text sample_sub sample_message [] _ _
    (run_exec granting one_delivery tt) _)).
  vm_compute. repeat constructor.
Defined.

Lemma seen_lookup_cache_witness :
  last (seen_lookup (mkSubscriber "c" 60000 1000 2) "c" ["a"; "b"]).2 = Some "c".
Proof.
  destruct (seen_lookup_cache (mkSubscriber "c" 60000 1000 2) "c" ["a"; "b"]) as (_ & _ & _ & Hl & _);
    [by vm_compute; repeat constructor; set_solver|cbn; lia..|exact Hl].
Defined.

Lemma handler_runs_under_a_claim_witness :
  exists key eff rest, (key ∉ []) /\ trace granting one_delivery tt =
    Ev (ClaimEffectDispatch "run-1" key "host:1/pubsub" 60000) (Ok (true, eff)) :: rest.
Proof.
  destruct (@handler_runs_under_a_claim sample_text sample_sub sample_message [] _ _
    (run_exec granting one_delivery tt)) as (run_id & key & eff & rest & Hr & _ & Hk & Ht).
  - vm_compute. apply Exists_cons_tl, Exists_cons_hd. exact I.
  - injection Hr as <-. eauto.
Defined.
