(* ===== verification/Sessions.v ===== *)
(** * Sessions: the ADK session service and [durable_app], [tape/adk/session.py], [tape/adk/durable.py]

    Sessions and events as ADK hands them over, their records on the wire, and the
    assembly of an app.  ADK's own code, the base class's in-memory append and the
    model's JSON, are parameters.

    What the session service persists, and what [durable_app] wires. *)
From Stdlib Require Import QArith.
From S2P Require Import Prelude Scenarios ScenarioTheorems Client SdkSamples Identity.
#[local] Open Scope Z_scope.
#[local] Open Scope nat_scope.

(** ** Events and sessions *)

Section sessions.
Context `{PyText}.
(** An ADK event, its fields as the service reads them. *)
Context {Event : Type}.
Record EventFields := mkEventFields {
  event_id : option string; event_invocation_id : option string; event_author : option string;
  event_branch : option string; event_timestamp : option Q;
  partial : bool; state_delta : option pydict     (* [None]: no actions, or no delta *)
}.
Variable fields_of : Event -> EventFields.
(** [model_dump_json], [model_validate_json], and the constructor. *)
Variable dump_event : Event -> string.
Variable validate_event : string -> result Event.
Variable make_event : EventFields -> result Event.

Record Session := mkSession {
  s_id : string; s_app_name : string; s_user_id : string;
  s_state : pydict; s_events : list Event; s_last_update_time : Q
}.
(** [BaseSessionService.append_event]: the event it returns and the session after. *)
Variable base_append : Session -> Event -> result Event * Session.

Definition text_or_empty (s : option string) : string := default "" s.

(** [_event_to_proto] *)
Definition event_to_proto (e : Event) : PbEventRecord.t :=
  let f := fields_of e in
  PbEventRecord.mk (text_or_empty f.(event_id)) (text_or_empty f.(event_invocation_id))
    (text_or_empty f.(event_author)) (text_or_empty f.(event_branch)) (dump_event e) ""
    (py_int (default 0 f.(event_timestamp) * 1000)%Q).

Definition none_if_empty (s : string) : option string := if decide (s = "") then None else Some s.

(** [_proto_to_event] *)
Definition proto_to_event (rec : PbEventRecord.t) : result Event :=
  if decide (rec.(PbEventRecord.content_json) <> "") then validate_event rec.(PbEventRecord.content_json)
  else
    make_event (mkEventFields (none_if_empty rec.(PbEventRecord.id))
      (Some rec.(PbEventRecord.invocation_id))
      (Some (str_or rec.(PbEventRecord.author) "user")) (none_if_empty rec.(PbEventRecord.branch))
      (if decide (rec.(PbEventRecord.timestamp_ms) = 0%Z) then None
       else Some (inject_Z rec.(PbEventRecord.timestamp_ms) / 1000)%Q) false None).

(** [_filter_persistable_delta] *)
Definition filter_persistable_delta (delta : option pydict) : pydict :=
  List.filter (fun kv => negb (String.prefix "temp:" kv.1)) (default [] delta).

(** [json.loads(s or "{}")], a dict or not a [Session]'s state. *)
Definition state_of (text : string) : result pydict :=
  v ← loads (str_or text "{}");
  match v with JObj d => mret d | _ => Err (Raised "ValidationError" "state") end.
Definition seconds_of (ms : Z) : Q := (inject_Z ms / 1000)%Q.

(** ** The service *)

Definition create_session (app_name user_id : string) (state : option pydict)
    (session_id : option string) : P Session :=
  resp ← rpc_create_session app_name user_id (text_or_empty session_id)
           (dumps (JObj (default [] state)));
  st ← lift (state_of resp.(PbSession.state_json));
  mret (mkSession resp.(PbSession.session_id) app_name user_id st []
          (seconds_of resp.(PbSession.last_update_time_ms))).

(** [num_recent_events] of the config, if there is one. *)
Definition get_session (app_name user_id session_id : string) (recent : option Z)
    : P (option Session) :=
  resp ← rpc_get_session app_name user_id session_id (default 0%Z recent);
  match resp with
  | None => mret None
  | Some s =>
    events ← lift (map_result proto_to_event s.(PbSession.events));
    st ← lift (state_of s.(PbSession.state_json));
    mret (Some (mkSession session_id app_name user_id st events
                  (seconds_of s.(PbSession.last_update_time_ms))))
  end.

Definition listed_session (app_name : string) (user_id : option string) (s : PbSession.t)
    : result Session :=
  st ← state_of s.(PbSession.state_json);
  mret (mkSession s.(PbSession.session_id) app_name
          (str_or s.(PbSession.user_id) (text_or_empty user_id)) st []
          (seconds_of s.(PbSession.last_update_time_ms))).
Definition list_sessions (app_name : string) (user_id : option string) : P (list Session) :=
  resp ← rpc_list_sessions app_name (text_or_empty user_id);
  lift (map_result (listed_session app_name user_id) resp).

Definition delete_session (app_name user_id session_id : string) : P unit :=
  rpc_delete_session app_name user_id session_id.

(** [append_event]: the session object is the caller's, so it is kept when the call to
    the server raises. *)
Definition append_event (session : Session) (event : Event) : P (result Event * Session) :=
  match base_append session event with
  | (Err ex, session) => mret (Err ex, session)
  | (Ok event, session) =>
    if (fields_of event).(partial) then mret (Ok event, session)
    else
      let delta := filter_persistable_delta (fields_of event).(state_delta) in
      r ← caught (rpc_append_event session.(s_app_name) session.(s_user_id) session.(s_id)
                    (event_to_proto event) (dumps (JObj delta)));
      mret (match r with Ok _ => Ok event | Err ex => Err ex end, session)
  end.

(** Events appended one after the other, up to the first that raises: what a runner does
    with the events of a turn. *)
Fixpoint append_all (session : Session) (events : list Event) : P (result (list Event) * Session) :=
  match events with
  | [] => mret (Ok [], session)
  | event :: events =>
    a ← append_event session event;
    match a with
    | (Err ex, session) => mret (Err ex, session)
    | (Ok event, session) =>
      rest ← append_all session events;
      mret (match rest.1 with Ok es => Ok (event :: es) | Err ex => Err ex end, rest.2)
    end
  end.
End sessions.
Arguments Session : clear implicits.

(** ** [durable_app] *)

Definition DEFAULT_TAPE_URL : string := "tape://localhost:7878".

(** [d.setdefault(k, v)] *)
Definition setdefault {V} (k : string) (v : V) (d : list (string * V)) : list (string * V) :=
  match dict_get k d with Some _ => d | None => d ++ [(k, v)] end.

Section durable.
(** An object of the caller's. *)
Context {Obj Budget : Type}.

Record PluginArgs := mkPluginArgs {
  plugin_url : string; plugin_budget : option Budget; plugin_check_cancellation : bool;
  plugin_identity : RunIdentity
}.
(** What the two constructors are given. *)
Inductive part :=
  | Given (o : Obj)
  | AppName (name : string)
  | Resumability                         (* ResumabilityConfig(is_resumable=True) *)
  | SessionServiceAt (url : string)      (* TapeSessionService(url) *)
  | TheApp.                              (* the App just built *)
Inductive plugin := UserPlugin (o : Obj) | TapePlugin (args : PluginArgs).
Record Durable := mkDurable {
  app_plugins : list plugin; app_init : list (string * part); runner_init : list (string * part)
}.

(** The keyword arguments, [app_kwargs] with its [plugins] taken out. *)
Record DurableArgs := mkDurableArgs {
  app_name : string; agent : Obj; tape_url : option string; budget : option Budget;
  resumable : bool; check_cancellation : bool;
  given_identity : option RunIdentity; require_identity : option bool;
  user_plugins : list Obj; app_kwargs : list (string * Obj); runner_kwargs : list (string * Obj)
}.

Definition resolve_url (env : list (string * string)) (explicit : option string) : string :=
  let explicit := default "" explicit in
  if decide (explicit <> "") then explicit
  else str_or (env_get env "TAPE_URL") DEFAULT_TAPE_URL.

Definition strict_identity (env : list (string * string)) (require : option bool) : bool :=
  match require with
  | Some b => b
  | None => bool_decide (env_get env "AIPLEX_REQUIRE_IDENTITY" = "1")
  end.
Definition resolve_identity (env : list (string * string)) (given : option RunIdentity)
    (require : option bool) : result RunIdentity :=
  match given with
  | None => from_env env require
  | Some i => if strict_identity env require then _ ← validate [] i; mret i else mret i
  end.

Definition durable_app (env : list (string * string)) (a : DurableArgs) : result Durable :=
  let url := resolve_url env a.(tape_url) in
  identity ← resolve_identity env a.(given_identity) a.(require_identity);
  let plugins := map UserPlugin a.(user_plugins) ++
    [TapePlugin (mkPluginArgs url a.(budget) a.(check_cancellation) identity)] in
  let given := map (fun kv : string * Obj => (kv.1, Given kv.2)) in
  let init := setdefault "root_agent" (Given a.(agent))
                (setdefault "name" (AppName a.(app_name)) (given a.(app_kwargs))) in
  let init := if a.(resumable) then setdefault "resumability_config" Resumability init else init in
  mret (mkDurable plugins init
          (setdefault "app" TheApp
            (setdefault "session_service" (SessionServiceAt url) (given a.(runner_kwargs))))).
End durable.

#[local] Arguments wp : simpl never.

Section sessions.
Context `{PyText} {Event : Type}.
Variable fields_of : Event -> EventFields.
Variable dump_event : Event -> string.
Variable validate_event : string -> result Event.
Variable make_event : EventFields -> result Event.
Variable base_append : Session Event -> Event -> result Event * Session Event.
(** ADK reads back what it writes, and writes something. *)
Hypothesis validate_dump : forall e, validate_event (dump_event e) = Ok e.
Hypothesis dump_nonempty : forall e, dump_event e <> "".

Abbreviation append_event := (append_event fields_of dump_event base_append).
Abbreviation reads_back := (proto_to_event validate_event make_event).

(** What the service sends for an event: its record, which reads back as the event, and
    the delta's keys but the temporary ones. *)
Definition persists (e : Event) (rec : PbEventRecord.t) (delta : pydict) : Prop :=
  reads_back rec = Ok e /\
  (forall k v, (k, v) ∈ delta <->
     (k, v) ∈ default [] (fields_of e).(state_delta) /\ String.prefix "temp:" k = false).

(** What [append_event] comes to, once the base class returned [e'] and [s0]. *)
Definition appended (e' : Event) (s0 : Session Event) (t : list (event answer)) (r : result Event) : Prop :=
  if (fields_of e').(partial) then t = [] /\ r = Ok e'
  else exists rec delta (ans : result unit), persists e' rec delta /\
    t = [Ev (AppendEvent s0.(s_app_name) s0.(s_user_id) s0.(s_id) rec (dumps (JObj delta))) ans] /\
    r = match ans with Ok _ => Ok e' | Err ex => Err ex end.

Lemma append_event_spec s e :
  wp (append_event s e) (fun t o => match base_append s e with
    | (Ok e', s0) => exists r, o = Ok (r, s0) /\ appended e' s0 t r
    | (Err ex, s0) => t = [] /\ o = Ok (Err ex, s0)
    end).
Proof.
  unfold Sessions.append_event, appended. destruct (base_append s e) as [[e'|ex] s0]; [|by apply wp_ret].
  destruct ((fields_of e').(partial)); [apply wp_ret; by eexists|].
  assert (Hpers : persists e' (event_to_proto fields_of dump_event e')
    (filter_persistable_delta (fields_of e').(state_delta))).
  { split.
    - unfold proto_to_event, event_to_proto. cbn. rewrite decide_True by apply dump_nonempty. apply validate_dump.
    - intros k v. unfold filter_persistable_delta.
      rewrite (list_elem_of_In (List.filter _ _)), List.filter_In, <- list_elem_of_In, negb_true_iff. done. }
  apply wp_bind, wp_caught. apply (wp_invoke (R:=answer) (AppendEvent _ _ _ _ _)).
  intros ans. destruct ans eqn:Hans; apply wp_ret; eexists; (split; [done|]);
    exists (event_to_proto fields_of dump_event e'), (filter_persistable_delta (fields_of e').(state_delta)), ans;
    rewrite Hans; by split_and!.
Qed.

(** The base class's session is what the caller keeps; a partial event sends nothing, any
    other is sent once, as a record that reads back as it, with its delta but for the
    temporary keys, and is returned exactly when that call returned. *)
Theorem append_persists_event s e e' s0 t o :
  base_append s e = (Ok e', s0) -> exec (append_event s e) t o ->
  exists r, o = Ok (r, s0) /\ appended e' s0 t r.
Proof. intros Hb He. pose proof (wp_exec _ _ _ _ (append_event_spec s e) He) as Hs. by rewrite Hb in Hs. Qed.

(** The records of the acknowledged appends of a trace. *)
Definition acknowledged_record (ev : event answer) : list PbEventRecord.t :=
  match ev_call ev with
  | AppendEvent _ _ _ rec _ => if is_ok (ev_answer ev) then [rec] else []
  | _ => []
  end.
Definition stored (t : list (event answer)) : list PbEventRecord.t := t ≫= acknowledged_record.
Definition committed (es : list Event) : list Event :=
  List.filter (fun e => negb (fields_of e).(partial)) es.
Definition stands_for (recs : list PbEventRecord.t) (es : list Event) : Prop :=
  Forall2 (fun rec e => reads_back rec = Ok e) recs es.

Lemma append_all_records es : forall s,
  wp (append_all fields_of dump_event base_append s es) (fun t o => forall es' s',
    o = Ok (Ok es', s') -> stands_for (stored t) (committed es')).
Proof.
  induction es as [|e es IH]; intros s; cbn [append_all]; [apply wp_ret; intros ? ? [= <- _]; constructor|].
  apply wp_bind. eapply wp_mono; [|apply append_event_spec]. intros t1 [[[e'|ex] s1]|ex] Hs;
    [|apply wp_ret; by intros|done].
  apply wp_bind. eapply wp_mono; [|apply IH]. intros t2 [[[es2|ex] s2]|ex] Hr; [|apply wp_ret; by intros|done].
  specialize (Hr _ _ eq_refl). apply wp_ret. rewrite app_nil_r. intros es' s' [= <- <-].
  destruct (base_append s e) as [[e0|ex] s0]; [|by destruct Hs]. destruct Hs as (r & [= <- <-] & Ha).
  unfold appended in Ha. unfold stored, committed. rewrite bind_app.
  destruct (partial (fields_of e0)) eqn:Hp.
  - destruct Ha as [-> [= ->]]. cbn. by rewrite Hp.
  - destruct Ha as (rec & delta & [u|ex] & [Hrb _] & -> & [= ->]). cbn. rewrite Hp. by constructor.
Qed.

Lemma map_result_stands recs es2 : stands_for recs es2 -> map_result reads_back recs = Ok es2.
Proof. induction 1 as [|rec e recs es2 Hr _ IH]; cbn; [done|]. rewrite Hr. cbn. by rewrite IH. Qed.

(** The session the one call of a trace found. *)
Definition found (t : list (event answer)) : option PbSession.t :=
  match t with
  | [Ev c r] =>
    match c return result (answer c) -> option PbSession.t with
    | GetSession _ _ _ _ => fun r => match r with Ok (Some s) => Some s | _ => None end
    | _ => fun _ => None
    end r
  | _ => None
  end.

(** The history round trip: a session whose stored events are the records of the
    acknowledged appends comes back with the non-partial events, in order. *)
Theorem history_comes_back s es t es' s' ps st n t2 o :
  exec (append_all fields_of dump_event base_append s es) t (Ok (Ok es', s')) ->
  exec (get_session validate_event make_event s.(s_app_name) s.(s_user_id) s.(s_id) n) t2 o ->
  found t2 = Some ps -> ps.(PbSession.events) = stored t -> state_of ps.(PbSession.state_json) = Ok st ->
  exists s2, o = Ok (Some s2) /\ s2.(s_events) = committed es' /\ s2.(s_state) = st.
Proof.
  intros He Hget Hf Hst Hstate.
  pose proof (map_result_stands _ _ (wp_exec _ _ _ _ (append_all_records es s) He _ _ eq_refl)) as Hmap.
  rewrite <- Hst in Hmap. revert Hf.
  refine (wp_exec _ (fun t o => found t = Some ps -> exists s2 : Session Event,
    o = Ok (Some s2) /\ s2.(s_events) = committed es' /\ s2.(s_state) = st) t2 o _ Hget).
  apply wp_bind, (wp_invoke (R:=answer) (GetSession _ _ _ _)). intros [[ps'|]|ex]; [|by apply wp_ret|done].
  apply exec_wp. intros [|ev t'] o' Hx; [|done]. intros [= ->].
  cbn beta iota in Hx. rewrite Hmap in Hx. cbn in Hx. rewrite Hstate in Hx. inversion Hx. by eexists.
Qed.
End sessions.

(** ** [durable_app] *)

Lemma dict_get_setdefault {V} k k' (v : V) d :
  dict_get k (setdefault k' v d) =
    match dict_get k d with Some w => Some w | None => if decide (k = k') then Some v else None end.
Proof.
  unfold setdefault. assert (Happ : forall d' : list (string * V), dict_get k (d ++ d') =
    match dict_get k d with Some w => Some w | None => dict_get k d' end).
  { intros d'. induction d as [|[k1 v1] d IH]; cbn; [done|]. case_decide; [done|exact IH]. }
  destruct (dict_get k' d) as [w|] eqn:Hk; [|rewrite Happ; cbn; repeat case_decide; by subst].
  destruct (dict_get k d) eqn:Hk2; [done|]. rewrite decide_False by congruence. done.
Qed.
Lemma dict_get_map {V W} (f : V -> W) (k : string) d :
  dict_get k (map (fun kv => (kv.1, f kv.2)) d) = f <$> dict_get k d.
Proof. induction d as [|[k1 v1] d IH]; cbn; [done|]. case_decide; [done|exact IH]. Qed.

Lemma resolve_identity_spec env given require :
  match resolve_identity env given require with
  | Ok i => i = default (identity_of env) given /\
      (strict_identity env require = true -> forall f, f ∈ REQUIRED_FOR_AIPLEX -> has_field i f = true)
  | Err _ => strict_identity env require = true /\
      exists f, f ∈ REQUIRED_FOR_AIPLEX /\ has_field (default (identity_of env) given) f = false
  end.
Proof.
  assert (Hv : forall required i, required = [] \/ required = REQUIRED_FOR_AIPLEX ->
    match validate required i with
    | Ok _ => forall f, f ∈ REQUIRED_FOR_AIPLEX -> has_field i f = true
    | Err _ => exists f, f ∈ REQUIRED_FOR_AIPLEX /\ has_field i f = false
    end).
  { intros required i Hr. unfold validate.
    assert ((if decide (required = []) then REQUIRED_FOR_AIPLEX else required) = REQUIRED_FOR_AIPLEX) as ->
      by (destruct Hr as [-> | ->]; done).
    case_decide as Hm.
    - intros f Hf. destruct (has_field i f) eqn:Hh; [done|].
      assert (Hin : f ∈ List.filter (fun f => negb (has_field i f)) REQUIRED_FOR_AIPLEX)
        by (rewrite list_elem_of_In in *; apply List.filter_In; by rewrite Hh).
      rewrite Hm in Hin. by inversion Hin.
    - destruct (List.filter _ _) as [|f fs] eqn:Hf; [done|]. exists f.
      assert (Hin : In f (List.filter (fun f => negb (has_field i f)) REQUIRED_FOR_AIPLEX)) by (rewrite Hf; by left).
      apply List.filter_In in Hin as [Hin Hb]. rewrite list_elem_of_In. by apply negb_true_iff in Hb. }
  unfold resolve_identity, from_env, strict_identity.
  destruct given as [i|]; cbn [default].
  - specialize (Hv [] i (or_introl eq_refl)). destruct (match require with Some b => b | None => _ end) eqn:Hs; [|done].
    destruct (validate [] i); cbn; [|done]. done.
  - specialize (Hv REQUIRED_FOR_AIPLEX (identity_of env) (or_intror eq_refl)).
    unfold default, from_option, id. destruct (match require with Some b => b | None => _ end) eqn:Hs; [|done].
    destruct (validate _ _); cbn; [|done]. done.
Qed.

Section durable.
Context {Obj Budget : Type}.
Implicit Types a : @DurableArgs Obj Budget.

(** An app is refused exactly for a missing identity in strict mode.  One that is built
    runs Tape's plugin last, on the URL its session service talks to, with an identity
    that strict mode has checked; what the caller passed wins over every default. *)
Theorem durable_app_wiring env a :
  match durable_app env a with
  | Err _ => strict_identity env a.(require_identity) = true /\
      exists f, f ∈ REQUIRED_FOR_AIPLEX /\ has_field (default (identity_of env) a.(given_identity)) f = false
  | Ok d => exists args,
      d.(app_plugins) = map UserPlugin a.(user_plugins) ++ [TapePlugin args] /\
      args.(plugin_url) = resolve_url env a.(tape_url) /\
      (strict_identity env a.(require_identity) = true ->
         forall f, f ∈ REQUIRED_FOR_AIPLEX -> has_field args.(plugin_identity) f = true) /\
      (forall k v, dict_get k a.(app_kwargs) = Some v -> dict_get k d.(app_init) = Some (Given v)) /\
      dict_get "session_service" d.(runner_init) = Some
        match dict_get "session_service" a.(runner_kwargs) with
        | Some v => Given v | None => SessionServiceAt args.(plugin_url)
        end
  end.
Proof.
  unfold durable_app. pose proof (resolve_identity_spec env a.(given_identity) a.(require_identity)) as Hi.
  destruct (resolve_identity _ _ _) as [i|ex]; cbn; [|exact Hi]. destruct Hi as [-> Hstrict].
  eexists. split_and!; [done|done|exact Hstrict| |].
  - intros k v Hv. destruct (resumable a); rewrite !dict_get_setdefault, (dict_get_map Given), Hv; done.
  - rewrite !dict_get_setdefault, (dict_get_map Given). by destruct (dict_get _ _).
Qed.
End durable.

(** ** A service at work *)

(** Events as text; the chunks of a stream are partial. *)
Definition text_fields (e : string) : EventFields :=
  mkEventFields (Some e) None None None None (bool_decide (e = "chunk"))
    (Some [("temp:draft", JStr e); ("answer", JStr e)]).
Definition json_of (e : string) : string := "j" +:+ e.
Definition read_event (s : string) : result string :=
  match s with String _ e => Ok e | EmptyString => Err TypeError end.
Definition text_append (s : Session string) (e : string) : result string * Session string :=
  (Ok e, mkSession s.(s_id) s.(s_app_name) s.(s_user_id) s.(s_state) (s.(s_events) ++ [e]) s.(s_last_update_time)).
Definition session_world (appends : result unit) (c : call) : M unit (answer c) := fun w =>
  (match c return result (answer c) with
   | AppendEvent _ _ _ _ _ => appends
   | GetSession _ _ _ _ => Ok (Some (PbSession.mk "s-1" "u" "{}" 0
       [event_to_proto text_fields json_of "hello"; event_to_proto text_fields json_of "bye"]))
   | _ => Err TypeError
   end, w).
Definition sample_session : Session string := mkSession "s-1" "desk" "u" [] [] 0.
Definition sample_turn : P (result (list string) * Session string) :=
  @append_all sample_text string text_fields json_of text_append sample_session ["hello"; "chunk"; "bye"].
Definition sample_append : P (result string * Session string) :=
  @append_event sample_text string text_fields json_of text_append sample_session "hello".

(** When the server does not take an event, the append raises, and the session object
    the agent goes on with holds the event all the same. *)
Lemma failed_append_kept_in_memory :
  exists s, (run (session_world (Err (RpcError "UNAVAILABLE"))) sample_append tt).1 =
    Ok (Err (RpcError "UNAVAILABLE"), s) /\ s.(s_events) = ["hello"].
Proof. eexists. split; vm_compute; reflexivity. Qed.

(** ** Witnesses *)

Lemma append_persists_event_witness :
  appended (H:=sample_text) text_fields read_event (fun _ => Err TypeError) "hello"
    (snd (text_append sample_session "hello")) (trace (session_world (Ok tt)) sample_append tt) (Ok "hello").
Proof.
  destruct (@append_persists_event sample_text string text_fields json_of read_event (fun _ => Err TypeError)
    text_append ltac:(done) ltac:(done) sample_session "hello" "hello" _ _ _ eq_refl
    (run_exec (session_world (Ok tt)) sample_append tt)) as (r & Hr & Ha).
  vm_compute in Hr. injection Hr as <-. exact Ha.
Defined.

Lemma history_comes_back_witness :
  exists s2, (run (session_world (Ok tt))
      (@get_session sample_text string read_event (fun _ => Err TypeError) "desk" "u" "s-1" None) tt).1 = Ok (Some s2) /\
    s2.(s_events) = ["hello"; "bye"] /\ s2.(s_state) = [].
Proof.
  refine (@history_comes_back sample_text string text_fields json_of read_event (fun _ => Err TypeError)
    text_append ltac:(done) ltac:(done) sample_session ["hello"; "chunk"; "bye"]
    (trace (session_world (Ok tt)) sample_turn tt) ["hello"; "chunk"; "bye"] _
    (PbSession.mk "s-1" "u" "{}" 0
       [event_to_proto text_fields json_of "hello"; event_to_proto text_fields json_of "bye"]) [] None
    (trace (session_world (Ok tt)) _ tt) _ (run_exec (session_world (Ok tt)) sample_turn tt)
    (run_exec (session_world (Ok tt)) _ tt) _ _ _); reflexivity.
Defined.
