(* ===== verification/Invariants.v ===== *)
(** * Invariants: the oracles of the chaos harness, [tape/chaos/invariants.py]

    Each invariant reads the journal or a listing from the server and answers passed or
    not, with a sentence for the report.

    What a passed check says of the journal. *)
From Stdlib Require Import QArith.
From S2P Require Import Prelude Scenarios ScenarioTheorems Contracts Client SdkSamples SdkOutbox.
From S2P Require Import RecoverTheorems.
#[local] Open Scope Z_scope.
#[local] Open Scope nat_scope.

Abbreviation Checked := SInvariantResult.t.

Section invariants.
Context `{PyText}.

(** [str(d.get(k) or "")] *)
Definition text_field (k : string) (d : pydict) : string :=
  match json_or (default JNull (dict_get k d)) (JStr "") with JStr s => s | v => str_json v end.

(** ** [exactly_one] *)

Record ExactlyOne := mkExactlyOne { connector : string; tool : string; by_ : string }.

(** [_ExactlyOne.__init__] *)
Definition exactly_one (connector tool by_ : string) : result ExactlyOne :=
  if decide (connector = "" /\ tool = "")
  then Err (Raised "ValueError" "exactly_one needs connector= or tool=")
  else Ok (mkExactlyOne connector tool by_).
Definition exactly_one_name (i : ExactlyOne) : string :=
  "exactly_one(" +:+ repr_str (str_or i.(connector) i.(tool)) +:+ ", by=" +:+ repr_str i.(by_) +:+ ")".
Definition confirmed_pattern (i : ExactlyOne) : string :=
  if decide (i.(tool) = "") then "/tape/effect/confirmed/**"
  else "/tape/effect/confirmed/" +:+ i.(tool) +:+ "/**".

(** The business key an entry is counted under: [None] for an unreadable payload, another
    connector's, or one without a key; a payload that is not a dict has no [get]. *)
Definition counted_key (i : ExactlyOne) (e : PbEvent.t) : result (option string) :=
  match loads (str_or e.(PbEvent.payload_json) "{}") with
  | Err _ => Ok None
  | Ok (JObj payload) =>
    let bk := text_field i.(by_) payload in
    if decide (i.(connector) <> "" /\ text_field "connector" payload <> i.(connector)) then Ok None
    else if decide (bk = "") then Ok None else Ok (Some bk)
  | Ok _ => Err AttributeError
  end.
Definition count_key (bk : string) (counts : list (string * Z)) : list (string * Z) :=
  dict_set bk (default 0 (dict_get bk counts) + 1)%Z counts.

(** The loop over the stream: the clock is looked at after an entry that was counted. *)
Fixpoint count_entries (i : ExactlyOne) (deadline : Q) (es : list PbEvent.t) (ends : option exn)
    (counts : list (string * Z)) : P (list (string * Z)) :=
  match es with
  | [] => match ends with None => mret counts | Some ex => lift (Err ex) end
  | e :: es =>
    key ← lift (counted_key i e);
    match key with
    | None => count_entries i deadline es ends counts
    | Some bk =>
      now ← time_time;
      if negb (Qle_bool now deadline) then mret (count_key bk counts)
      else count_entries i deadline es ends (count_key bk counts)
    end
  end.

Definition duplicates (counts : list (string * Z)) : list (string * Z) :=
  List.filter (fun kv => Z.ltb 1 kv.2) counts.
Definition exactly_one_verdict (i : ExactlyOne) (counts : list (string * Z)) : Checked :=
  let dupes := duplicates counts in
  if decide (dupes = [])
  then SInvariantResult.mk (exactly_one_name i) true ("unique business keys: " +:+ pretty (length counts))
  else SInvariantResult.mk (exactly_one_name i) false
    ("duplicate business keys: " +:+ str_json (JObj (map (fun kv => (kv.1, JInt kv.2)) dupes))).

Definition exactly_one_check (i : ExactlyOne) : P Checked :=
  it ← caught (invoke (SubscribeEvents 0 "" "" 1 (confirmed_pattern i)) : P stream);
  match it with
  | Err ex => mret (SInvariantResult.mk (exactly_one_name i) false
                      ("subscribe_events failed: " +:+ str_exn ex))
  | Ok (es, ends) =>
    start ← time_time;
    counts ← count_entries i (start + 2) es ends [];
    mret (exactly_one_verdict i counts)
  end.

(** ** The invariants without parameters *)

(** A call whose failure is a failed check. *)
Definition checked {A} (name what : string) (p : P A) (k : A -> P Checked) : P Checked :=
  r ← caught p;
  match r with
  | Err ex => mret (SInvariantResult.mk name false (what +:+ " failed: " +:+ str_exn ex))
  | Ok a => k a
  end.
(** [not run_id or x.run_id == run_id] *)
Definition in_run (run_id : option string) (r : string) : bool :=
  bool_decide (default "" run_id = "" \/ r = default "" run_id).

Definition no_stuck_obligations (run_id : option string) : P Checked :=
  let name := "no_stuck_obligations" in
  checked name "list_unresolved_obligations"
    (invoke (ListUnresolvedObligations 500 0 false true false) : P (list PbObligation.t)) (fun obs =>
    let stuck := List.filter (fun o => bool_decide (o.(PbObligation.status) = OBLIGATION_STATUS_STUCK) &&
                                       in_run run_id o.(PbObligation.run_id)) obs in
    mret (if decide (stuck = []) then SInvariantResult.mk name true "0 stuck"
          else SInvariantResult.mk name false (pretty (length stuck) +:+ " stuck obligation(s)"))).

(** An effect the outbox sent again without asking. *)
Definition blind_retry (run_id : option string) (e : PbEffect.t) : bool :=
  in_run run_id e.(PbEffect.run_id) &&
  bool_decide (e.(PbEffect.semantics) = EFFECT_SEMANTICS_NON_IDEMPOTENT) &&
  Z.ltb 1 e.(PbEffect.dispatch_attempts) && bool_decide (e.(PbEffect.status) = EFFECT_STATUS_PENDING) &&
  bool_decide (e.(PbEffect.external_ref) = "").
(** [repr] of a list of rows *)
Variable show_rows : list (string * string * Z) -> string.

Definition no_blind_non_idempotent_retry (run_id : option string) : P Checked :=
  let name := "no_blind_non_idempotent_retry" in
  checked name "list_pending_effects" (rpc_list_pending_effects 0 true 500) (fun effects =>
    let bad := List.filter (blind_retry run_id) effects in
    let row e := (e.(PbEffect.run_id), e.(PbEffect.idempotency_key), e.(PbEffect.dispatch_attempts)) in
    mret (if decide (bad = []) then SInvariantResult.mk name true "no blind retries on non-idempotent effects"
          else SInvariantResult.mk name false
            (pretty (length bad) +:+ " non-idempotent effect(s) re-dispatched without observation: " +:+
             show_rows (map row (take 3 bad))))).

Definition no_budget_overrun (run_id : option string) : P Checked :=
  let name := "no_budget_overrun" in
  if decide (default "" run_id = "") then
    mret (SInvariantResult.mk name true "no run_id; skipped (cross-run budget check is Phase 3)")
  else
    checked name "get_run" (get_run (default "" run_id)) (fun _ =>
      mret (SInvariantResult.mk name true "budget projection check is a Phase-3 invariant; v1 stub")).

(** The effect of an obligation, missing also when it cannot be asked for. *)
Definition orphan (run_id : string) (o : PbObligation.t) : P bool :=
  r ← caught (rpc_get_effect run_id o.(PbObligation.effect_key));
  mret (match r with Ok (Some _) => false | _ => true end).
Definition no_orphan_compensation (run_id : option string) : P Checked :=
  let name := "no_orphan_compensation" in
  if decide (default "" run_id = "") then
    mret (SInvariantResult.mk name true "no run_id; skipped (cross-run scan is Phase 3)")
  else
    checked name "list_obligations" (rpc_list_obligations (default "" run_id)) (fun obs =>
      flags ← each obs (orphan (default "" run_id));
      let orphans := map (fun o => o.1.(PbObligation.effect_key)) (List.filter snd (zip obs flags)) in
      mret (if decide (orphans = []) then
              SInvariantResult.mk name true ("all " +:+ pretty (length obs) +:+ " obligation(s) have an effect")
            else SInvariantResult.mk name false
              (pretty (length orphans) +:+ " obligation(s) with no effect: " +:+
               str_json (JList (map JStr (take 3 orphans)))))).
End invariants.

#[local] Arguments wp : simpl never.

(** ** Counting *)

Section counting.

Definition tally (ks : list string) (counts : list (string * Z)) : list (string * Z) :=
  foldl (fun c k => count_key k c) counts ks.
Definition count_of (k : string) (counts : list (string * Z)) : Z := default 0%Z (dict_get k counts).

Lemma count_of_key k k' counts :
  count_of k (count_key k' counts) = (count_of k counts + if decide (k = k') then 1 else 0)%Z.
Proof.
  unfold count_of, count_key. case_decide as Hk.
  - subst. by rewrite dict_get_set_eq.
  - rewrite dict_get_set_ne by done. cbn. lia.
Qed.
Lemma count_of_tally k ks counts :
  count_of k (tally ks counts) = (count_of k counts + Z.of_nat (count_occ String.string_dec ks k))%Z.
Proof.
  revert counts. unfold tally. induction ks as [|k' ks IH]; intros counts; cbn [foldl count_occ]; [lia|].
  rewrite IH, count_of_key. destruct (String.string_dec k' k), (decide (k = k')); subst; try done; lia.
Qed.

(** The keys of the counts are distinct, so a lookup sees every pair. *)
Lemma count_key_keys k counts : NoDup (counts.*1) -> NoDup ((count_key k counts).*1).
Proof.
  unfold count_key. generalize (default 0 (dict_get k counts) + 1)%Z as v. intros v.
  induction counts as [|[k' v'] counts IH]; cbn; [intros _; apply NoDup_singleton|].
  intros [Hk Hnd]%NoDup_cons. case_decide as Heq; cbn; [by subst; apply NoDup_cons|].
  apply NoDup_cons. split; [|by apply IH]. intros Hin. apply Hk.
  clear -Hin Heq. induction counts as [|[k2 v2] counts IH]; cbn in *.
  - apply list_elem_of_singleton in Hin. by subst.
  - case_decide; cbn in *; set_solver.
Qed.
Lemma tally_keys ks counts : NoDup (counts.*1) -> NoDup ((tally ks counts).*1).
Proof. revert counts. induction ks as [|k ks IH]; intros counts Hnd; cbn; [done|]. by apply IH, count_key_keys. Qed.

Lemma dict_get_in (counts : list (string * Z)) k v :
  NoDup (counts.*1) -> (k, v) ∈ counts <-> dict_get k counts = Some v.
Proof.
  induction counts as [|[k' v'] counts IH]; cbn.
  - intros _. split; [by inversion 1|done].
  - intros [Hk Hnd]%NoDup_cons. rewrite elem_of_cons. case_decide as Heq.
    + subst. split; [|intros [= ->]; by left].
      intros [[= ->]|Hin]; [done|]. exfalso. apply Hk. apply list_elem_of_fmap. by eexists (_, v).
    + rewrite <- IH by done. split; [intros [[= -> ->]|?]; done|by right].
Qed.

(** No duplicate is reported exactly when the keys counted are distinct. *)
Lemma no_duplicates ks : duplicates (tally ks []) = [] <-> NoDup ks.
Proof.
  assert (Hnd : NoDup ((tally ks []).*1)) by (apply tally_keys, NoDup_nil_2).
  rewrite NoDup_ListNoDup, (NoDup_count_occ String.string_dec). unfold duplicates. split.
  - intros Hd k. destruct (decide (count_occ String.string_dec ks k <= 1)) as [?|Hlt]; [done|exfalso].
    pose proof (count_of_tally k ks []) as Hc. unfold count_of in Hc.
    destruct (dict_get k (tally ks [])) as [v|] eqn:Hv; cbn in Hc; [|lia].
    assert (Hin : (k, v) ∈ List.filter (fun kv : string * Z => Z.ltb 1 kv.2) (tally ks [])).
    { rewrite list_elem_of_In. apply List.filter_In. rewrite <- list_elem_of_In.
      split; [by apply dict_get_in|]. apply Z.ltb_lt. cbn. lia. }
    rewrite Hd in Hin. inversion Hin.
  - intros Hall. destruct (List.filter _ _) as [|[k v] r] eqn:Hf; [done|exfalso].
    assert (Hin : In (k, v) (List.filter (fun kv : string * Z => Z.ltb 1 kv.2) (tally ks []))) by (rewrite Hf; by left).
    apply List.filter_In in Hin as [Hin Hlt]. rewrite <- list_elem_of_In in Hin. apply dict_get_in in Hin; [|done].
    pose proof (count_of_tally k ks []) as Hc. unfold count_of in Hc. rewrite Hin in Hc. cbn in Hc, Hlt.
    apply Z.ltb_lt in Hlt. specialize (Hall k). lia.
Qed.
End counting.

(** ** What a check reads *)

(** The stream of a trace's subscription, the listings it was given, and its clock. *)
Definition streamed (ev : event answer) : option stream :=
  let 'Ev c r := ev in
  match c return result (answer c) -> option stream with
  | SubscribeEvents _ _ _ _ _ => fun r => match r with Ok s => Some s | Err _ => None end
  | _ => fun _ => None
  end r.
Definition listed_effects (ev : event answer) : option (list PbEffect.t) :=
  let 'Ev c r := ev in
  match c return result (answer c) -> option (list PbEffect.t) with
  | ListPendingEffects _ _ _ _ => fun r => match r with Ok s => Some s | Err _ => None end
  | _ => fun _ => None
  end r.
Definition listed_obligations (ev : event answer) : option (list PbObligation.t) :=
  let 'Ev c r := ev in
  match c return result (answer c) -> option (list PbObligation.t) with
  | ListUnresolvedObligations _ _ _ _ _ | ListObligations _ _ _ =>
    fun r => match r with Ok s => Some s | Err _ => None end
  | _ => fun _ => None
  end r.
Definition clock (ev : event answer) : option Q :=
  let 'Ev c r := ev in
  match c return result (answer c) -> option Q with
  | Time => fun r => match r with Ok q => Some q | Err _ => None end
  | _ => fun _ => None
  end r.

Section checks.
Context `{PyText}.
Variable show_rows : list (string * string * Z) -> string.

Definition counted_keys (i : ExactlyOne) (es : list PbEvent.t) : list string :=
  omap (fun e => match counted_key i e with Ok k => k | Err _ => None end) es.

(** The entries counted are all, or those before the clock passed the deadline. *)
Definition counted_upto (deadline : Q) (pre post : list PbEvent.t) (t : list (event answer)) : Prop :=
  post = [] \/ exists now, Some now ∈ map clock t /\ (deadline < now)%Q.

Lemma count_entries_spec i deadline es ends : forall counts,
  wp (count_entries i deadline es ends counts) (fun t o => forall counts', o = Ok counts' ->
    exists pre post, es = pre ++ post /\ counts' = tally (counted_keys i pre) counts /\
      counted_upto deadline pre post t).
Proof.
  induction es as [|e es IH]; intros counts; cbn [count_entries].
  { destruct ends; [done|]. apply wp_ret. intros c [= <-]. exists [], []. split_and!; [done|done|by left]. }
  apply wp_bind. destruct (counted_key i e) as [[bk|]|ex] eqn:Hk; [| |done]; apply wp_ret; cbn [app].
  - apply wp_bind, (wp_invoke (R:=answer) Time). intros [now|ex]; [|done].
    destruct (Qle_bool now deadline) eqn:Hle; cbn [negb].
    + eapply wp_mono; [|apply IH]. intros t o Hw c Ho. destruct (Hw c Ho) as (pre & post & -> & -> & Hu).
      exists (e :: pre), post. split_and!; [done|by cbn; rewrite Hk|].
      destruct Hu as [Hu|(n & Hn & Hd)]; [by left|right]. exists n. split; [cbn; set_solver|done].
    + apply wp_ret. intros c [= <-]. exists [e], es. split_and!; [done|by cbn; rewrite Hk|]. right. exists now.
      split; [cbn; set_solver|]. apply Qnot_le_lt. intros Hq. apply Qle_bool_iff in Hq. congruence.
  - eapply wp_mono; [|apply IH]. intros t o Hw c Ho. destruct (Hw c Ho) as (pre & post & -> & -> & Hu).
    exists (e :: pre), post. split_and!; [done|by cbn; rewrite Hk|done].
Qed.

(** [exactly_one] passes exactly when no business key is counted twice among the entries
    it read: all of the stream's, unless two seconds went by. *)
Theorem exactly_one_decides i t r es ends :
  exec (exactly_one_check i) t (Ok r) -> streamed <$> head t = Some (Some (es, ends)) ->
  exists pre post start, es = pre ++ post /\
    (r.(SInvariantResult.passed) = true <-> NoDup (counted_keys i pre)) /\
    (clock <$> head (tail t)) = Some (Some start) /\ counted_upto (start + 2) pre post t.
Proof.
  intros He Hs.
  enough (Hw : wp (exactly_one_check i) (fun t o => forall r, o = Ok r ->
    streamed <$> head t = Some (Some (es, ends)) -> exists pre post start, es = pre ++ post /\
    (r.(SInvariantResult.passed) = true <-> NoDup (counted_keys i pre)) /\
    (clock <$> head (tail t)) = Some (Some start) /\ counted_upto (start + 2) pre post t))
    by exact (wp_exec _ _ _ _ Hw He r eq_refl Hs).
  clear. unfold exactly_one_check. apply wp_bind, wp_caught. apply (wp_invoke (R:=answer) (SubscribeEvents _ _ _ _ _)).
  intros [[es' ends']|ex]; [|by apply wp_ret]. apply wp_bind, (wp_invoke (R:=answer) Time).
  intros [start|ex]; [|done]. apply wp_bind. eapply wp_mono; [|apply count_entries_spec].
  intros t [counts|ex] Hc; [|done]. destruct (Hc _ eq_refl) as (pre & post & -> & -> & Hu). apply wp_ret.
  intros r [= <-] [= <- _]. exists pre, post, start. split_and!; [done| |done|].
  - unfold exactly_one_verdict. fold (tally (counted_keys i pre) []).
    rewrite <- no_duplicates. by case_decide.
  - destruct Hu as [?|(n & Hn & ?)]; [by left|right]. exists n. split; [|done]. rewrite app_nil_r. cbn. set_solver.
Qed.

Lemma counted_key_absent i e d :
  loads (str_or e.(PbEvent.payload_json) "{}") = Ok (JObj d) -> dict_get i.(by_) d = None ->
  counted_key i e = Ok None.
Proof.
  intros Hl Hd. unfold counted_key. rewrite Hl.
  assert (text_field i.(by_) d = "") as -> by (unfold text_field; by rewrite Hd). by case_decide.
Qed.

(** Entries that do not name the key are not counted: on a stream of them the check
    passes, whatever happened. *)
Theorem exactly_one_needs_the_key i t r es ends :
  exec (exactly_one_check i) t (Ok r) -> streamed <$> head t = Some (Some (es, ends)) ->
  Forall (fun e => exists d, loads (str_or e.(PbEvent.payload_json) "{}") = Ok (JObj d) /\ dict_get i.(by_) d = None) es ->
  r.(SInvariantResult.passed) = true.
Proof.
  intros He Hs Hall.
  enough (Hw : wp (exactly_one_check i) (fun t o => forall r, o = Ok r ->
    streamed <$> head t = Some (Some (es, ends)) -> r.(SInvariantResult.passed) = true))
    by exact (wp_exec _ _ _ _ Hw He r eq_refl Hs).
  clear He Hs t r. unfold exactly_one_check. apply wp_bind, wp_caught. apply (wp_invoke (R:=answer) (SubscribeEvents _ _ _ _ _)).
  intros [[es' ends']|ex]; [|by apply wp_ret]. apply wp_bind, (wp_invoke (R:=answer) Time).
  intros [start|ex]; [|done]. apply wp_bind. eapply wp_mono; [|apply count_entries_spec].
  intros t [counts|ex] Hc; [|done]. destruct (Hc _ eq_refl) as (pre & post & -> & -> & _). apply wp_ret.
  intros r [= <-] [= <- _]. apply Forall_app in Hall as [Hall _].
  assert (counted_keys i pre = []) as ->.
  { clear Hc. unfold counted_keys. induction Hall as [|e pre (d & Hl & Hd) _ IH]; cbn; [done|].
    by rewrite (counted_key_absent i e d Hl Hd). }
  done.
Qed.

Lemma filter_nil {A} (f : A -> bool) l : List.filter f l = [] <-> Forall (fun x => f x = false) l.
Proof.
  induction l as [|x l IH]; cbn; [done|]. rewrite Forall_cons. destruct (f x); [|tauto].
  split; [done|by intros []].
Qed.

(** No stuck obligation is left exactly when the check passes; it answers whatever the
    listing does. *)
Theorem no_stuck_decides run_id t o :
  exec (no_stuck_obligations run_id) t o -> exists r, o = Ok r /\
  match listed_obligations <$> head t with
  | Some (Some obs) => r.(SInvariantResult.passed) = true <->
      Forall (fun ob => ob.(PbObligation.status) = OBLIGATION_STATUS_STUCK ->
                        in_run run_id ob.(PbObligation.run_id) = false) obs
  | _ => r.(SInvariantResult.passed) = false
  end.
Proof.
  revert t o. apply forall_exec. unfold no_stuck_obligations, checked. apply wp_bind, wp_caught.
  apply (wp_invoke (R:=answer) (ListUnresolvedObligations _ _ _ _ _)). intros [obs|ex]; apply wp_ret; [|by eexists].
  eexists. split; [done|]. cbn. case_decide as Hf; cbn.
  - split; [intros _|done]. apply filter_nil in Hf. eapply Forall_impl; [exact Hf|]. cbn. intros ob Hb Hst.
    rewrite bool_decide_true in Hb by done. done.
  - split; [done|]. intros Hall. exfalso. apply Hf, filter_nil. eapply Forall_impl; [exact Hall|]. cbn. intros ob Hb.
    case_bool_decide; [by rewrite Hb|done].
Qed.

(** No blind retry among the listed effects exactly when the check passes. *)
Theorem no_blind_decides run_id t o :
  exec (no_blind_non_idempotent_retry show_rows run_id) t o -> exists r, o = Ok r /\
  match listed_effects <$> head t with
  | Some (Some effs) => r.(SInvariantResult.passed) = true <->
      Forall (fun e => blind_retry run_id e = false) effs
  | _ => r.(SInvariantResult.passed) = false
  end.
Proof.
  revert t o. apply forall_exec. unfold no_blind_non_idempotent_retry, checked, rpc_list_pending_effects.
  apply wp_bind, wp_caught. apply (wp_invoke (R:=answer) (ListPendingEffects _ _ _ _)).
  intros [effs|ex]; apply wp_ret; [|by eexists]. eexists. split; [done|]. cbn.
  rewrite <- filter_nil. by case_decide.
Qed.

(** The effect of an obligation was found. *)
Definition found_effect (ev : event answer) : bool :=
  let 'Ev c r := ev in
  match c return result (answer c) -> bool with
  | GetEffect _ _ => fun r => match r with Ok (Some _) => true | _ => false end
  | _ => fun _ => false
  end r.

Lemma orphans_spec run_id obs :
  wp (each obs (orphan run_id)) (fun t o => length t = length obs /\ o = Ok (map (fun ev => negb (found_effect ev)) t)).
Proof.
  induction obs as [|ob obs IH]; cbn [each]; [by apply wp_ret|]. apply wp_bind. unfold orphan at 1, rpc_get_effect.
  apply wp_bind, wp_caught, (wp_invoke (R:=answer) (GetEffect _ _)). intros ans.
  assert (Hans : match ans with Ok (Some _) => false | _ => true end =
    negb (found_effect (Ev (GetEffect run_id ob.(PbObligation.effect_key)) ans))) by (by destruct ans as [[]|]).
  destruct ans as [a|ex]; apply wp_ret; apply wp_bind; (eapply wp_mono; [|exact IH]);
    intros t o [Hlen ->]; apply wp_ret; rewrite !app_nil_r; cbn in *; rewrite Hlen; split; congruence.
Qed.

(** Every obligation listed has its effect exactly when the check passes: it asks for one
    effect per obligation, and one that cannot be had counts as missing. *)
Theorem no_orphan_decides rid t o : rid <> "" ->
  exec (no_orphan_compensation (Some rid)) t o -> exists r, o = Ok r /\
  match listed_obligations <$> head t with
  | Some (Some obs) => length (tail t) = length obs /\
      (r.(SInvariantResult.passed) = true <-> Forall (fun ev => found_effect ev = true) (tail t))
  | _ => r.(SInvariantResult.passed) = false
  end.
Proof.
  intros Hrid. revert t o. apply forall_exec. unfold no_orphan_compensation, checked, rpc_list_obligations.
  rewrite decide_False by done. apply wp_bind, wp_caught. apply (wp_invoke (R:=answer) (ListObligations _ _ _)).
  intros [obs|ex]; [|apply wp_ret; by eexists]. apply wp_bind. eapply wp_mono; [|apply orphans_spec].
  intros t o [Hlen ->]. apply wp_ret. eexists. split; [done|]. cbn [head fmap option_fmap option_map app tail].
  rewrite app_nil_r. split; [done|].
  transitivity (List.filter snd (zip obs (map (fun ev => negb (found_effect ev)) t)) = []).
  - case_decide as Hm; cbn.
    + split; [intros _|done]. by apply map_eq_nil in Hm.
    + split; [done|]. intros Hf. by rewrite Hf in Hm.
  - rewrite filter_nil. clear -Hlen. revert obs Hlen. induction t as [|ev t IH]; intros [|ob obs]; try done; cbn.
    intros [= Hlen]. rewrite !Forall_cons, (IH obs Hlen). cbn. by rewrite negb_false_iff.
Qed.
End checks.

(** ** Checks at work *)

(** Text in which every document is the payload the server journals for a confirmed
    effect: the tool, its key and the status. *)
Definition confirmed_text (extra : pydict) : PyText :=
  {| dumps := fun _ => "{}";
     loads := fun _ => Ok (JObj ([("tool", JStr "wire"); ("idempotency_key", JStr "run-1/fc-1");
                                  ("status", JStr "confirmed")] ++ extra));
     str_exn := fun _ => "boom"; exn_name := fun _ => "Exception"; exn_details := fun _ => "";
     str_json := fun _ => ""; int_text := fun _ => Ok 0%Z; float_text := fun _ => Ok 0%Q; repr_str := fun s => s; from_markup := fun s => Ok s |}.
Definition with_key : PyText := confirmed_text [("connector", JStr "bank"); ("business_key", JStr "rfp-1")].
Definition wires : ExactlyOne := mkExactlyOne "bank" "" "business_key".
Definition confirmed_entry (seq : Z) : PbEvent.t := PbEvent.mk "run-1" seq "effect" "{..}" 1000 seq "".
Definition two_confirmed : list PbEvent.t := [confirmed_entry 1; confirmed_entry 2].

Definition journal_world (es : list PbEvent.t) (ends : option exn) (c : call) : M Q (answer c) := fun w =>
  (match c return result (answer c) with
   | SubscribeEvents _ _ _ _ _ => Ok (es, ends)
   | Time => Ok w
   | ListUnresolvedObligations _ _ _ _ _ | ListObligations _ _ _ => Ok [sample_obligation OBLIGATION_STATUS_STUCK]
   | ListPendingEffects _ _ _ _ => Ok [sample_effect]
   | GetEffect _ _ => Ok None
   | _ => Err TypeError
   end, (w + 1)%Q).
Definition reading (es : list PbEvent.t) : list (event answer) :=
  trace (journal_world es None) (@exactly_one_check with_key wires) 0%Q.

(** Two confirmations of one wire, as the server journals them, pass the check that
    there is one: the payload names neither the connector nor the business key. *)
Lemma double_wire_passes :
  exists r, (run (journal_world two_confirmed None) (@exactly_one_check (confirmed_text []) wires) 0%Q).1 = Ok r /\
  r.(SInvariantResult.passed) = true.
Proof. eexists. split; vm_compute; reflexivity. Qed.

(** A stream that ends with an error makes the check raise. *)
Lemma broken_stream_raises :
  (run (journal_world two_confirmed (Some (RpcError "UNAVAILABLE"))) (@exactly_one_check with_key wires) 0%Q).1 =
    Err (RpcError "UNAVAILABLE").
Proof. vm_compute. reflexivity. Qed.

(** Entries that are not counted do not look at the clock: five of them, a second each,
    go by under a deadline of two. *)
Lemma skipped_entries_ignore_deadline :
  map clock (trace (journal_world (replicate 5 (confirmed_entry 1)) None)
    (@exactly_one_check (confirmed_text []) wires) 0%Q) = [None; Some 1%Q].
Proof. vm_compute. reflexivity. Qed.

(** The outbox dispatcher retries a non-idempotent effect whose connector reported a
    definite failure; the check takes the second retry for a blind one. *)
Definition attempted_once : PbEffect.t :=
  PbEffect.mk "run-1" "run-1/fc-1" "wire" EFFECT_STATUS_PENDING EFFECT_SEMANTICS_NON_IDEMPOTENT
    "bank" "" "" 1 "" "" EFFECT_DISPATCH_MODE_OUTBOX "" 0.
Definition attempted_twice : PbEffect.t :=
  PbEffect.mk "run-1" "run-1/fc-1" "wire" EFFECT_STATUS_PENDING EFFECT_SEMANTICS_NON_IDEMPOTENT
    "bank" "" "" 2 "" "" EFFECT_DISPATCH_MODE_OUTBOX "" 0.
Lemma refused_retry_flagged :
  map ev_call (trace (sample_world refused) (@settle_failed sample_text 5 attempted_once refused []) tt) =
    [Time; RecordDispatchAttempt "run-1" "run-1/fc-1" "{}" 1002000] /\
  blind_retry None attempted_twice = true.
Proof. split; vm_compute; reflexivity. Qed.

(** ** Witnesses *)

Lemma exactly_one_decides_witness :
  exists pre post, two_confirmed = pre ++ post /\ (false = true <-> NoDup (counted_keys (H:=with_key) wires pre)).
Proof.
  destruct (@exactly_one_decides with_key wires (reading two_confirmed) (SInvariantResult.mk
    "exactly_one(bank, by=business_key)" false "duplicate business keys: ") two_confirmed None)
    as (pre & post & start & Hes & Hp & _).
  - refine (eq_rect _ (exec _ _) (run_exec (journal_world two_confirmed None) (@exactly_one_check with_key wires) 0%Q) _ _).
    vm_compute. reflexivity.
  - reflexivity.
  - by exists pre, post.
Defined.

Lemma exactly_one_needs_the_key_witness :
  exists r, (run (journal_world two_confirmed None) (@exactly_one_check (confirmed_text []) wires) 0%Q).1 = Ok r /\
  r.(SInvariantResult.passed) = true.
Proof.
  eexists (SInvariantResult.mk _ true _). split; [vm_compute; reflexivity|].
  apply (@exactly_one_needs_the_key (confirmed_text []) wires
    (trace (journal_world two_confirmed None) (@exactly_one_check (confirmed_text []) wires) 0%Q)
    (SInvariantResult.mk "exactly_one(bank, by=business_key)" true "unique business keys: 0") two_confirmed None).
  - refine (eq_rect _ (exec _ _) (run_exec (journal_world two_confirmed None) (@exactly_one_check (confirmed_text []) wires) 0%Q) _ _).
    vm_compute. reflexivity.
  - reflexivity.
  - repeat constructor; eexists; split; reflexivity.
Defined.

Lemma no_stuck_decides_witness :
  exists r, (run (journal_world [] None) (@no_stuck_obligations sample_text None) 0%Q).1 = Ok r.
Proof.
  destruct (@no_stuck_decides sample_text None _ _
    (run_exec (journal_world [] None) (@no_stuck_obligations sample_text None) 0%Q)) as (r & Hr & _). by exists r.
Defined.

Lemma no_blind_decides_witness :
  exists r, (run (journal_world [] None) (@no_blind_non_idempotent_retry sample_text (fun _ => "") None) 0%Q).1 = Ok r /\
  (r.(SInvariantResult.passed) = true <-> Forall (fun e => blind_retry None e = false) [sample_effect]).
Proof.
  exact (@no_blind_decides sample_text (fun _ => "") None _ _
    (run_exec (journal_world [] None) (@no_blind_non_idempotent_retry sample_text (fun _ => "") None) 0%Q)).
Defined.

Lemma no_orphan_decides_witness :
  exists r, (run (journal_world [] None) (@no_orphan_compensation sample_text (Some "run-1")) 0%Q).1 = Ok r.
Proof.
  destruct (@no_orphan_decides sample_text "run-1" _ _ ltac:(done)
    (run_exec (journal_world [] None) (@no_orphan_compensation sample_text (Some "run-1")) 0%Q)) as (r & Hr & _).
  by exists r.
Defined.
