(* ===== verification/JournalSnapshots.v ===== *)
(** * JournalSnapshots: canonical journals and the replay check, [tape/chaos/snapshot.py], [tape/chaos/replay.py]

    Payloads with their run-scoped parts removed or renamed, as the nested tuples that
    snapshots compare, the capture of a run's journal or of its rows, and the comparison
    of two passes. *)
From Stdlib Require Import Ascii QArith.
From stdpp Require Import sorting.
From S2P Require Import Prelude Scenarios Client Lineage.
#[local] Open Scope Z_scope.
#[local] Open Scope nat_scope.

(** ** Canonical payloads *)

Definition STRIP_KEYS : list string :=
  ["ts_ms"; "started_at_ms"; "ended_at_ms"; "last_update_time_ms";
   "lease_expires_at_ms"; "claim_expires_at_ms"; "dispatch_claim_expires_at_ms";
   "next_dispatch_at_ms"; "next_attempt_at_ms"; "fire_at_ms";
   "lease_owner"; "claimed_by"; "dispatch_claimed_by";
   "trace_id"; "span_id"; "parent_span_id"; "seq"; "global_seq"; "invocation_id"].

(** [raw in s] and [s.replace(raw, canonical)] for a non-empty [raw]; [skip] characters
    belong to the occurrence just replaced. *)
Fixpoint contains (raw s : string) : bool :=
  String.prefix raw s || match s with EmptyString => false | String _ s' => contains raw s' end.
Fixpoint replace_from (raw canonical : string) (skip : nat) (s : string) : string :=
  match s with
  | EmptyString => EmptyString
  | String c s' =>
    match skip with
    | S skip => replace_from raw canonical skip s'
    | O => if String.prefix raw s
           then canonical +:+ replace_from raw canonical (String.length raw - 1) s'
           else String c (replace_from raw canonical 0 s')
    end
  end.
Definition replace (raw canonical s : string) : string := replace_from raw canonical 0 s.

(** The first identifier of the map that occurs is the one replaced. *)
Fixpoint remap (run_id_map : list (string * string)) (value : string) : string :=
  match run_id_map with
  | [] => value
  | (raw, canonical) :: rest =>
    if negb (bool_decide (raw = "")) && contains raw value then replace raw canonical value
    else remap rest value
  end.

(** [_canonical] *)
Fixpoint canonical (run_id_map : list (string * string)) (value : json) : json :=
  match value with
  | JObj d => JObj (omap (fun kv => if decide (kv.1 ∈ STRIP_KEYS) then None
                                    else Some (kv.1, canonical run_id_map kv.2)) d)
  | JList l => JList (map (canonical run_id_map) l)
  | JStr s => JStr (remap run_id_map s)
  | v => v
  end.

(** A value of a payload tuple: a tuple, or JSON data left as it is. *)
Inductive tval := TRaw (v : json) | TTuple (items : list tval).

Definition key_le (a b : string * tval) : Prop := String.le a.1 b.1.
#[export] Instance key_le_dec a b : Decision (key_le a b).
Proof. unfold key_le. apply _. Defined.
Definition pair_tuple (kv : string * tval) : tval := TTuple [TRaw (JStr kv.1); kv.2].
Definition sorted_tuple (items : list (string * tval)) : tval :=
  TTuple (map pair_tuple (merge_sort key_le items)).

(** [_to_tuple]: a dict becomes the tuple of its items in the order of the keys, also in
    a dict and in a list that is an item of one. *)
Fixpoint tuple_item (v : json) : tval :=
  match v with
  | JObj d => sorted_tuple (map (fun kv => (kv.1, tuple_item kv.2)) d)
  | JList l => TTuple (map (fun x => match x with JObj _ => tuple_item x | _ => TRaw x end) l)
  | v => TRaw v
  end.
Definition to_tuple (d : pydict) : tval := sorted_tuple (map (fun kv => (kv.1, tuple_item kv.2)) d).

(** ** Equality of what a snapshot holds *)
Section equality.
Context `{PyText}.

(** [True == 1 == 1.0]; a float that is no number is equal to itself when infinite. *)
Definition number_of (v : json) : option Q :=
  match v with
  | JBool b => Some (if b then 1 else 0)%Q
  | JInt z => Some (inject_Z z)
  | JFloat _ => match float_text v with Ok q => Some q | Err _ => None end
  | _ => None
  end.
Definition number_eq (a b : json) : bool :=
  match number_of a, number_of b with
  | Some x, Some y => Qeq_bool x y
  | _, _ => match a, b with JFloat r, JFloat s => bool_decide (r = s /\ r <> "NaN") | _, _ => false end
  end.

(** [a == b] *)
Fixpoint py_eq (a b : json) : bool :=
  match a, b with
  | JNull, JNull => true
  | JStr s, JStr t => bool_decide (s = t)
  | JList l, JList m =>
    (fix all l m := match l, m with
       | [], [] => true
       | x :: l, y :: m => py_eq x y && all l m
       | _, _ => false
       end) l m
  | JObj d, JObj e =>
    Nat.eqb (length d) (length e) &&
    (fix all d := match d with
       | [] => true
       | (k, x) :: d => match dict_get k e with Some y => py_eq x y | None => false end && all d
       end) d
  | _, _ => number_eq a b
  end.
Fixpoint tval_eq (a b : tval) : bool :=
  match a, b with
  | TRaw v, TRaw w => py_eq v w
  | TTuple l, TTuple m =>
    (fix all l m := match l, m with
       | [], [] => true
       | x :: l, y :: m => tval_eq x y && all l m
       | _, _ => false
       end) l m
  | _, _ => false
  end.

(** ** Snapshots *)

Record JournalLine := mkJournalLine { kind : string; payload : tval }.
Definition line_eq (a b : JournalLine) : bool :=
  bool_decide (a.(kind) = b.(kind)) && tval_eq a.(payload) b.(payload).
Record Snapshot := mkSnapshot { snap_run_id : string; lines : list JournalLine }.

Fixpoint all2 {A} (eq : A -> A -> bool) (l m : list A) : bool :=
  match l, m with
  | [], [] => true
  | x :: l, y :: m => eq x y && all2 eq l m
  | _, _ => false
  end.
(** [Snapshot.__eq__] *)
Definition snapshot_eq (a b : Snapshot) : bool := all2 line_eq a.(lines) b.(lines).

(** One position of a diff: the lines on the left and on the right. *)
Inductive diff_op := OnlyRight | OnlyLeft | Differs.
Definition diff_entry : Type := nat * diff_op * option JournalLine * option JournalLine.
Fixpoint only_right (i : nat) (m : list JournalLine) : list diff_entry :=
  match m with [] => [] | y :: m => (i, OnlyRight, None, Some y) :: only_right (S i) m end.
Fixpoint diff_from (i : nat) (l m : list JournalLine) : list diff_entry :=
  match l with
  | [] => only_right i m
  | x :: l =>
    match m with
    | [] => (i, OnlyLeft, Some x, None) :: diff_from (S i) l []
    | y :: m =>
      if line_eq x y then diff_from (S i) l m
      else (i, Differs, Some x, Some y) :: diff_from (S i) l m
    end
  end.
Definition diff (a b : Snapshot) : list diff_entry := diff_from 0 a.(lines) b.(lines).

(** ** Capture *)

Definition terminal_statuses : list string := ["terminal"; "failed"; "cancelled"; "stuck"].

(** The line of an entry; unreadable text is kept under [_raw]. *)
Definition entry_payload (e : PbEvent.t) : json :=
  match loads (str_or e.(PbEvent.payload_json) "{}") with
  | Ok v => v
  | Err _ => JObj [("_raw", JStr e.(PbEvent.payload_json))]
  end.
Definition value_tuple (v : json) : tval :=
  match v with
  | JObj d => to_tuple d
  | v => TTuple [pair_tuple ("_value", TRaw v)]
  end.
Definition line_of (run_id_map : list (string * string)) (e : PbEvent.t) : JournalLine :=
  mkJournalLine e.(PbEvent.kind) (value_tuple (canonical run_id_map (entry_payload e))).

(** Whether an entry ends its run; the status of a payload is text, or nothing. *)
Definition ends_run (e : PbEvent.t) : result bool :=
  if decide (e.(PbEvent.kind) = "run")
  then status ← status_lower (entry_payload e); mret (bool_decide (status ∈ terminal_statuses))
  else mret false.

Fixpoint capture_lines (run_id_map : list (string * string)) (deadline : Q) (es : list PbEvent.t)
    (ends : option exn) : P (list JournalLine) :=
  match es with
  | [] => match ends with None => mret [] | Some ex => lift (Err ex) end
  | e :: es =>
    stop ← lift (ends_run e);
    if stop : bool then mret [line_of run_id_map e]
    else
      now ← (invoke Monotonic : P Q);
      if negb (Qle_bool now deadline) then mret [line_of run_id_map e]
      else rest ← capture_lines run_id_map deadline es ends; mret (line_of run_id_map e :: rest)
  end.
Definition capture (run_id : string) (deadline_s : Q) (canonical_run_id : string) : P Snapshot :=
  start ← (invoke Monotonic : P Q);
  it ← (invoke (SubscribeRun run_id 0) : P stream);
  ls ← capture_lines [(run_id, canonical_run_id)] (start + deadline_s) it.1 it.2;
  mret (mkSnapshot run_id ls).

(** ** Deep snapshots *)

Record DeepSnapshot := mkDeepSnapshot {
  deep_run_id : string; decisions : list tval; effects : list tval; obligations : list tval
}.
Definition deep_eq (a b : DeepSnapshot) : bool :=
  all2 tval_eq a.(decisions) b.(decisions) && all2 tval_eq a.(effects) b.(effects) &&
  all2 tval_eq a.(obligations) b.(obligations).

Definition decision_row (d : PbDecision.t) : pydict :=
  [("decision_index", JInt d.(PbDecision.decision_index)); ("model", JStr d.(PbDecision.model));
   ("request_json", JStr d.(PbDecision.request_json)); ("response_json", JStr d.(PbDecision.response_json));
   ("policy_version", JStr d.(PbDecision.policy_version)); ("rationale", JStr d.(PbDecision.rationale))].
Definition effect_row (e : PbEffect.t) : pydict :=
  [("tool_name", JStr e.(PbEffect.tool_name)); ("idempotency_key", JStr e.(PbEffect.idempotency_key));
   ("status", JInt e.(PbEffect.status)); ("request_json", JStr e.(PbEffect.request_json));
   ("response_json", JStr e.(PbEffect.response_json)); ("error_json", JStr e.(PbEffect.error_json));
   ("semantics", JInt e.(PbEffect.semantics)); ("dispatch_mode", JInt e.(PbEffect.dispatch_mode));
   ("business_key", JStr e.(PbEffect.business_key)); ("connector", JStr e.(PbEffect.connector));
   ("external_ref", JStr e.(PbEffect.external_ref)); ("decision_index", JInt e.(PbEffect.decision_index))].
Definition obligation_row (o : PbObligation.t) : pydict :=
  [("kind", JStr o.(PbObligation.kind)); ("effect_key", JStr o.(PbObligation.effect_key));
   ("status", JInt o.(PbObligation.status)); ("payload_json", JStr o.(PbObligation.payload_json));
   ("attempts", JInt o.(PbObligation.attempts)); ("max_attempts", JInt o.(PbObligation.max_attempts));
   ("last_error", JStr o.(PbObligation.last_error)); ("result_json", JStr o.(PbObligation.result_json));
   ("compensator_ref", JStr o.(PbObligation.compensator_ref))].
(** [_canon_dict] *)
Definition row_tuple (run_id_map : list (string * string)) (d : pydict) : tval :=
  value_tuple (canonical run_id_map (JObj d)).

(** The decisions from [i] on, up to the first that is not found or cannot be had. *)
Fixpoint decisions_from (m : list (string * string)) (run_id : string) (n : nat) (i : Z) : P (list tval) :=
  match n with
  | O => mret []
  | S n =>
    got ← caught (get_decision run_id i);
    match got with
    | Ok (Some d) => rest ← decisions_from m run_id n (i + 1); mret (row_tuple m (decision_row d) :: rest)
    | _ => mret []
    end
  end.

(** [str(p.get("idempotency_key") or "")] of an effect entry, if it is readable; an entry
    that is readable but no dict raises. *)
Definition effect_key_of (e : PbEvent.t) : result (option string) :=
  match loads (str_or e.(PbEvent.payload_json) "{}") with
  | Err _ => Ok None
  | Ok p =>
    v ← get p "idempotency_key";
    mret (match json_or v (JStr "") with JStr "" => None | JStr s => Some s | v => Some (str_json v) end)
  end.
(** A [run] entry whose status is terminal; an unreadable one has none. *)
Definition run_over (e : PbEvent.t) : result bool :=
  match loads (str_or e.(PbEvent.payload_json) "{}") with
  | Err _ => Ok false
  | Ok p => status ← status_lower p; mret (bool_decide (status ∈ terminal_statuses))
  end.
Fixpoint effect_keys (deadline : Q) (es : list PbEvent.t) (ends : option exn) (seen : list string) : P (list string) :=
  match es with
  | [] => match ends with None => mret seen | Some ex => lift (Err ex) end
  | e :: es =>
    let next seen :=
      stop ← lift (if decide (e.(PbEvent.kind) = "run") then run_over e else Ok false);
      if stop : bool then mret seen
      else
        now ← (invoke Monotonic : P Q);
        if negb (Qle_bool now deadline) then mret seen else effect_keys deadline es ends seen in
    if decide (e.(PbEvent.kind) = "effect") then
      match loads (str_or e.(PbEvent.payload_json) "{}") with
      | Err _ => effect_keys deadline es ends seen
      | Ok _ =>
        key ← lift (effect_key_of e);
        next (match key with
              | Some k => if decide (k ∈ seen) then seen else seen ++ [k]
              | None => seen
              end)
      end
    else next seen
  end.
Fixpoint effect_rows (m : list (string * string)) (run_id : string) (keys : list string) : P (list tval) :=
  match keys with
  | [] => mret []
  | key :: keys =>
    got ← caught (rpc_get_effect run_id key);
    rest ← effect_rows m run_id keys;
    mret (match got with Ok (Some e) => row_tuple m (effect_row e) :: rest | _ => rest end)
  end.

Definition capture_deep (run_id canonical_run_id : string) (max_decisions : nat) : P DeepSnapshot :=
  let m := [(run_id, canonical_run_id)] in
  ds ← decisions_from m run_id max_decisions 0;
  start ← (invoke Monotonic : P Q);
  it ← (invoke (SubscribeRun run_id 0) : P stream);
  keys ← effect_keys (start + 3) it.1 it.2 [];
  es ← effect_rows m run_id (merge_sort String.le keys);
  obs ← try_ (obs ← (invoke (ListObligations run_id false 0) : P (list PbObligation.t));
              mret (map (fun o => row_tuple m (obligation_row o)) obs))
             (fun _ => mret []);
  mret (mkDeepSnapshot run_id ds es obs).

(** ** Replay *)

Record ReplayReport := mkReplayReport {
  scenario_name : string; seed : Z; bit_identical : bool;
  snap_a : option Snapshot; snap_b : option Snapshot;
  diff_summary : list string; notes : list string
}.
(** [repr] of a payload's dict *)
Variable show_payload : tval -> string.
Definition summary_of (d : diff_entry) : string :=
  let '(i, op, a, b) := d in
  let show l := show_payload l.(payload) in
  match op, a, b with
  | Differs, Some a, Some b =>
    "[" +:+ pretty i +:+ "] " +:+ a.(kind) +:+ " differs: A=" +:+ show a +:+ " | B=" +:+ show b
  | OnlyLeft, Some a, _ => "[" +:+ pretty i +:+ "] only in A: " +:+ a.(kind) +:+ " " +:+ show a
  | OnlyRight, _, Some b => "[" +:+ pretty i +:+ "] only in B: " +:+ b.(kind) +:+ " " +:+ show b
  | _, _, _ => ""
  end.
(** [_summarize] *)
Definition summarize (a b : Snapshot) : list string := map summary_of (diff a b).

(** One pass of the body in a session: the run it produced, or its exception.  Opening
    and closing the session are [Scenarios]' business, and so the caller's here. *)
Variable pass : nat -> P (option string).

Definition replay_pass (deadline_s : Q) (pass_idx : nat) : P (option Snapshot * list string) :=
  r ← caught (pass pass_idx);
  match r with
  | Err ex => mret (None, ["pass " +:+ pretty pass_idx +:+ " raised: " +:+ exn_name ex +:+ ": " +:+ str_exn ex])
  | Ok rid =>
    if decide (default "" rid = "") then
      mret (None, ["pass " +:+ pretty pass_idx +:+ ": body did not produce a run_id (set session.run_id or return it)"])
    else snap ← capture (default "" rid) deadline_s "run-1"; mret (Some snap, [])
  end.
Definition replay (name : string) (seed : Z) (deadline_s : Q) : P ReplayReport :=
  first ← replay_pass deadline_s 1;
  match first with
  | (None, note) => mret (mkReplayReport name seed false None None [] note)
  | (Some a, _) =>
    second ← replay_pass deadline_s 2;
    match second with
    | (None, note) => mret (mkReplayReport name seed false None None [] note)
    | (Some b, _) =>
      let same := snapshot_eq a b in
      mret (mkReplayReport name seed same (Some a) (Some b) (if same then [] else summarize a b) [])
    end
  end.
End equality.
