(* ===== verification/ReplayTheorems.v ===== *)
(** * ReplayTheorems: what equal snapshots mean, and what makes them equal *)
From Stdlib Require Import Ascii QArith.
From stdpp Require Import sorting.
From S2P Require Import Prelude Scenarios ScenarioTheorems Client Lineage JournalSnapshots SdkSamples.
#[local] Open Scope Z_scope.
#[local] Open Scope nat_scope.
#[local] Arguments wp : simpl never.

(** ** Replacing the run's identifier *)

Lemma prefix_app (r s : string) : String.prefix r (r +:+ s) = true.
Proof.
  induction r as [|c r IH]; [by destruct s|].
  change (String c r +:+ s) with (String c (r +:+ s)). cbn. destruct (ascii_dec c c); [exact IH|done].
Qed.
Lemma replace_skip r c a s :
  replace_from r c (String.length a) (a +:+ s) = replace_from r c 0 s.
Proof. induction a as [|ch a IH]; [done|exact IH]. Qed.
Lemma replace_absent r c s : contains r s = false -> replace r c s = s.
Proof.
  unfold replace. induction s as [|ch s IH]; [done|]. intros [Hp Hc]%orb_false_iff.
  cbn [replace_from]. rewrite Hp. by rewrite IH.
Qed.
Lemma remap_one r c s : r <> "" -> remap [(r, c)] s = replace r c s.
Proof.
  intros Hr. cbn [remap]. rewrite bool_decide_false by done. cbn.
  destruct (contains r s) eqn:Hc; [done|]. by rewrite replace_absent.
Qed.

(** Text with holes where a run's identifier goes. *)
Inductive seg := Lit (s : string) | Hole.
Definition fill (r : string) (segs : list seg) : string :=
  foldr (fun sg rest => match sg with Lit l => l | Hole => r end +:+ rest) "" segs.

(** The identifier does not occur but where it was put. *)
Fixpoint clean_lit (r l rest : string) : Prop :=
  match l with
  | EmptyString => True
  | String _ l' => String.prefix r (l +:+ rest) = false /\ clean_lit r l' rest
  end.
Fixpoint clean_text (r : string) (segs : list seg) : Prop :=
  match segs with
  | [] => True
  | Lit l :: segs => clean_lit r l (fill r segs) /\ clean_text r segs
  | Hole :: segs => clean_text r segs
  end.

Lemma replace_lit r c l rest :
  clean_lit r l rest -> replace r c (l +:+ rest) = l +:+ replace r c rest.
Proof.
  unfold replace. induction l as [|ch l IH]; [done|]. intros [Hp Hl].
  change (String ch l +:+ rest) with (String ch (l +:+ rest)) in *. cbn [replace_from]. rewrite Hp, IH by done. done.
Qed.
Lemma replace_fill r c segs : r <> "" -> clean_text r segs -> replace r c (fill r segs) = fill c segs.
Proof.
  intros Hr. induction segs as [|[l|] segs IH]; [done|intros [Hl Hs]|intros Hs].
  - change (replace r c (l +:+ fill r segs) = l +:+ fill c segs). by rewrite replace_lit, IH.
  - change (replace r c (r +:+ fill r segs) = c +:+ fill c segs). rewrite <- (IH Hs). destruct r as [|ch r]; [done|].
    unfold replace. change (String ch r +:+ fill (String ch r) segs) with (String ch (r +:+ fill (String ch r) segs)).
    cbn [replace_from]. pose proof (prefix_app (String ch r) (fill (String ch r) segs)) as Hp.
    change (String ch r +:+ fill (String ch r) segs) with (String ch (r +:+ fill (String ch r) segs)) in Hp.
    rewrite Hp. cbn [String.length]. rewrite Nat.sub_1_r. cbn [Nat.pred]. by rewrite replace_skip.
Qed.

(** ** Journals of one logical history *)

(** A payload up to the run it is of. *)
Inductive tmpl :=
  | KAtom (v : json)
  | KText (segs : list seg)
  | KList (l : list tmpl)
  | KObj (d : list (string * tmpl)).
Definition tmpl_ind' (P : tmpl -> Prop) (Ha : forall v, P (KAtom v)) (Ht : forall segs, P (KText segs))
    (Hl : forall l, Forall P l -> P (KList l)) (Ho : forall d, Forall (fun kv => P kv.2) d -> P (KObj d)) : forall t, P t :=
  fix go t := match t with
  | KAtom v => Ha v
  | KText segs => Ht segs
  | KList l => Hl l ((fix all l := match l return Forall P l with
      [] => Forall_nil_2 _ | x :: l => Forall_cons_2 _ _ _ (go x) (all l) end) l)
  | KObj d => Ho d ((fix all d := match d return Forall (fun kv => P kv.2) d with
      [] => Forall_nil_2 _ | kv :: d => Forall_cons_2 _ _ _ (go kv.2) (all d) end) d)
  end.

(** The payload a run journals. *)
Fixpoint inst (r : string) (t : tmpl) : json :=
  match t with
  | KAtom v => v
  | KText segs => JStr (fill r segs)
  | KList l => JList (map (inst r) l)
  | KObj d => JObj (map (fun kv => (kv.1, inst r kv.2)) d)
  end.
(** Without the stripped keys. *)
Fixpoint erase (t : tmpl) : tmpl :=
  match t with
  | KList l => KList (map erase l)
  | KObj d => KObj (omap (fun kv => if decide (kv.1 ∈ STRIP_KEYS) then None else Some (kv.1, erase kv.2)) d)
  | t => t
  end.
Definition atomic (v : json) : bool := match v with JStr _ | JList _ | JObj _ => false | _ => true end.
(** The identifier occurs in the values kept only where it was put. *)
Fixpoint clean (r : string) (t : tmpl) : Prop :=
  match t with
  | KAtom v => atomic v = true
  | KText segs => clean_text r segs
  | KList l => foldr (fun t P => clean r t /\ P) True l
  | KObj d => foldr (fun kv P => (kv.1 ∈ STRIP_KEYS \/ clean r kv.2) /\ P) True d
  end.

Lemma canonical_inst r c t : r <> "" -> clean r t -> canonical [(r, c)] (inst r t) = inst c (erase t).
Proof.
  intros Hr. induction t as [v|segs|l IH|d IH] using tmpl_ind'; cbn [inst canonical erase clean].
  - by destruct v.
  - intros Ht. by rewrite remap_one, replace_fill.
  - intros Hl. f_equal. induction IH as [|t l Ht _ IH]; cbn in *; [done|]. destruct Hl as [Hc Hl].
    by rewrite Ht, IH.
  - intros Hd. f_equal. induction IH as [|[k t] d Ht _ IH]; cbn in *; [done|]. destruct Hd as [Hc Hd].
    case_decide as Hk; [by apply IH|]. destruct Hc as [?|Hc]; [done|]. cbn. by rewrite Ht, IH.
Qed.

(** ** Tuples forget the order of keys *)

Lemma sorted_tuple_perm items items' :
  items ≡ₚ items' -> NoDup (items.*1) -> sorted_tuple items = sorted_tuple items'.
Proof.
  intros Hp Hnd. unfold sorted_tuple. do 2 f_equal.
  assert (Htr : Transitive key_le) by (intros a b c; unfold key_le; apply (transitivity (R:=String.le))).
  assert (Htot : Total key_le) by (intros a b; apply (total String.le)).
  apply (StronglySorted_unique_strong key_le); [|by apply StronglySorted_merge_sort..|by rewrite !merge_sort_Permutation].
  intros [k x] [k' x'] H1 H2 Hle Hle'. rewrite merge_sort_Permutation in H1, H2. rewrite <- Hp in H2.
  assert (k = k') as <- by (by apply (anti_symm String.le)). f_equal.
  apply list_elem_of_lookup in H1 as [i Hi]. apply list_elem_of_lookup in H2 as [j Hj].
  assert (i = j) as <-.
  { eapply NoDup_lookup; [exact Hnd|rewrite list_lookup_fmap, Hi; done|by rewrite list_lookup_fmap, Hj]. }
  by simplify_eq.
Qed.

(** Two dicts with the same items have the same tuple. *)
Theorem to_tuple_order d d' : d ≡ₚ d' -> NoDup (d.*1) -> to_tuple d = to_tuple d'.
Proof.
  intros Hp Hnd. unfold to_tuple. apply sorted_tuple_perm; [by rewrite Hp|].
  change (map (fun kv : string * json => (kv.1, tuple_item kv.2)) d) with ((fun kv : string * json => (kv.1, tuple_item kv.2)) <$> d).
  rewrite <- list_fmap_compose. exact Hnd.
Qed.

(** ** Equality *)
Section equality.
Context `{PyText}.

Lemma all2_Forall2 {A} (eq : A -> A -> bool) l m : all2 eq l m = true <-> Forall2 (fun x y => eq x y = true) l m.
Proof.
  revert m. induction l as [|x l IH]; intros [|y m]; cbn; [by split; [constructor|]|by split; [|inversion 1]..|].
  rewrite andb_true_iff, IH. split; [intros []; by constructor|by inversion 1].
Qed.

Lemma diff_from_nil i l m : diff_from i l m = [] <-> all2 line_eq l m = true.
Proof.
  revert i m. induction l as [|x l IH]; intros i [|y m]; cbn; try done.
  destruct (line_eq x y); cbn; [apply IH|]. done.
Qed.

(** The diff of two snapshots is empty exactly when they are equal. *)
Theorem diff_empty_iff_equal a b : diff a b = [] <-> snapshot_eq a b = true.
Proof. apply diff_from_nil. Qed.

(** Values that are equal to themselves: no NaN, and dicts with distinct keys. *)
Fixpoint regular (v : json) : bool :=
  match v with
  | JFloat r => number_eq v v
  | JList l => forallb regular l
  | JObj d => bool_decide (NoDup (d.*1)) && forallb (fun kv => regular kv.2) d
  | _ => true
  end.

Definition json_ind' (P : json -> Prop) (Ha : forall v, match v with JList _ | JObj _ => False | _ => True end -> P v)
    (Hl : forall l, Forall P l -> P (JList l)) (Ho : forall d, Forall (fun kv => P kv.2) d -> P (JObj d)) : forall v, P v :=
  fix go v := match v with
  | JList l => Hl l ((fix all l := match l return Forall P l with
      [] => Forall_nil_2 _ | x :: l => Forall_cons_2 _ _ _ (go x) (all l) end) l)
  | JObj d => Ho d ((fix all d := match d return Forall (fun kv => P kv.2) d with
      [] => Forall_nil_2 _ | kv :: d => Forall_cons_2 _ _ _ (go kv.2) (all d) end) d)
  | v => Ha v I
  end.

Lemma dict_get_here (d : pydict) k v : NoDup (d.*1) -> (k, v) ∈ d -> dict_get k d = Some v.
Proof.
  induction d as [|[k' v'] d IH]; [by inversion 2|]. cbn. intros [Hk Hnd]%NoDup_cons [[= -> ->]|Hin]%elem_of_cons.
  - by rewrite decide_True.
  - case_decide as Heq; [|by apply IH]. subst. exfalso. apply Hk. apply list_elem_of_fmap. by eexists (_, v).
Qed.

Lemma py_eq_refl v : regular v = true -> py_eq v v = true.
Proof.
  induction v as [v Hv|l IH|d IH] using json_ind'.
  - destruct v; cbn; try done; intros _; [by destruct b|by apply Qeq_bool_iff|by apply bool_decide_eq_true].
  - cbn. intros Hl. induction IH as [|x l Hx _ IH]; [done|]. cbn in Hl. apply andb_true_iff in Hl as [Hr Hl].
    by rewrite Hx, IH.
  - intros Hd. cbn in Hd. apply andb_true_iff in Hd as [Hnd Hd]. apply bool_decide_eq_true in Hnd.
    cbn. rewrite Nat.eqb_refl. cbn [andb].
    assert (Hsub : forall kv, kv ∈ d -> dict_get kv.1 d = Some kv.2) by (intros []; by apply dict_get_here).
    enough (Hall : forall whole : pydict, (forall kv, kv ∈ d -> dict_get kv.1 whole = Some kv.2) ->
      (fix all (d0 : pydict) := match d0 with
       | [] => true
       | (k, x) :: d0 => match dict_get k whole with Some y => py_eq x y | None => false end && all d0
       end) d = true) by by apply Hall.
    clear Hnd Hsub. intros whole Hsub.
    induction IH as [|[k x] d Hx _ IH]; [done|]. cbn in Hd. apply andb_true_iff in Hd as [Hr Hd].
    pose proof (Hsub (k, x) ltac:(by left)) as Hk. cbn [fst snd] in *. rewrite Hk, Hx by done. cbn.
    apply IH; [done|]. intros kv Hin. apply Hsub. by right.
Qed.

Abbreviation self_equal x := (tval_eq x x = true).
Lemma tuple_refl l : Forall (fun x => self_equal x) l -> self_equal (TTuple l).
Proof. induction 1 as [|x l Hx _ IH]; [done|]. cbn in *. by rewrite Hx, IH. Qed.
Lemma sorted_tuple_refl items : Forall (fun kx => self_equal kx.2) items -> self_equal (sorted_tuple items).
Proof.
  intros Hall. apply tuple_refl, Forall_fmap. rewrite merge_sort_Permutation.
  eapply Forall_impl; [exact Hall|]. intros [k x] Hx. apply tuple_refl. repeat constructor; [|exact Hx].
  cbn. by apply bool_decide_eq_true.
Qed.
Lemma tuple_item_refl v : regular v = true -> self_equal (tuple_item v).
Proof.
  induction v as [v Hv|l IH|d IH] using json_ind'; intros Hr.
  - destruct v; try done; by apply (py_eq_refl _ Hr).
  - apply tuple_refl, Forall_fmap. cbn in Hr. induction IH as [|x l Hx _ IH]; [constructor|].
    cbn in Hr. apply andb_true_iff in Hr as [Hrx Hr]. constructor; [|by apply IH].
    destruct x; try (by apply py_eq_refl). by apply Hx.
  - cbn in Hr. apply andb_true_iff in Hr as [_ Hr]. apply sorted_tuple_refl, Forall_fmap.
    induction IH as [|[k x] d Hx _ IH]; [constructor|]. cbn in Hr. apply andb_true_iff in Hr as [Hrx Hr].
    constructor; [by apply Hx|by apply IH].
Qed.
Lemma value_tuple_refl v : regular v = true -> self_equal (value_tuple v).
Proof.
  intros Hr. assert (Hraw : forall w, regular w = true -> self_equal (TTuple [pair_tuple ("_value", TRaw w)])).
  { intros w Hw. apply tuple_refl, Forall_singleton, tuple_refl. apply Forall_cons_2; [done|].
    apply Forall_singleton. by apply (py_eq_refl w). }
  destruct v; try (by apply Hraw). by apply (tuple_item_refl (JObj _)).
Qed.

(** ** Two runs of one history *)

(** Entries of two runs that record the same thing: the same kind, one template but for
    the stripped keys, filled with either run's identifier. *)
Definition same_entry (canon r1 r2 : string) (e1 e2 : PbEvent.t) : Prop :=
  e1.(PbEvent.kind) = e2.(PbEvent.kind) /\ ends_run e1 = ends_run e2 /\
  exists t1 t2, entry_payload e1 = inst r1 t1 /\ entry_payload e2 = inst r2 t2 /\
    clean r1 t1 /\ clean r2 t2 /\ erase t1 = erase t2 /\ regular (inst canon (erase t1)) = true.

Lemma same_entry_line canon r1 r2 e1 e2 : r1 <> "" -> r2 <> "" -> same_entry canon r1 r2 e1 e2 ->
  line_eq (line_of [(r1, canon)] e1) (line_of [(r2, canon)] e2) = true.
Proof.
  intros H1 H2 (Hk & _ & t1 & t2 & Hp1 & Hp2 & Hc1 & Hc2 & He & Hr). unfold line_eq, line_of. cbn.
  rewrite Hk, bool_decide_true by done. rewrite Hp1, Hp2, !canonical_inst by done. rewrite <- He.
  by apply value_tuple_refl.
Qed.

(** The entries up to the one that ends the run. *)
Fixpoint until_end (es : list PbEvent.t) : list PbEvent.t :=
  match es with
  | [] => []
  | e :: es => e :: (match ends_run e with Ok true => [] | _ => until_end es end)
  end.
Lemma same_until_end canon r1 r2 es1 es2 : Forall2 (same_entry canon r1 r2) es1 es2 ->
  Forall2 (same_entry canon r1 r2) (until_end es1) (until_end es2).
Proof.
  induction 1 as [|e1 e2 es1 es2 Hs _ IH]; cbn; [done|]. constructor; [done|].
  destruct Hs as (_ & -> & _). destruct (ends_run e2) as [[|]|]; done.
Qed.

(** The clock of a trace never passes the deadline. *)
Definition tick (ev : event answer) : option Q :=
  let 'Ev c r := ev in
  match c return result (answer c) -> option Q with
  | Monotonic => fun r => match r with Ok q => Some q | Err _ => None end
  | _ => fun _ => None
  end r.
Definition in_time (deadline : Q) (ev : event answer) : Prop :=
  match tick ev with Some now => (now <= deadline)%Q | None => True end.

Lemma capture_lines_spec m deadline es ends :
  wp (capture_lines m deadline es ends) (fun t o => forall ls, o = Ok ls ->
    exists pre post, until_end es = pre ++ post /\ ls = map (line_of m) pre /\
      (Forall (in_time deadline) t -> post = [])).
Proof.
  induction es as [|e es IH]; cbn [capture_lines].
  { destruct ends; [done|]. apply wp_ret. intros ls [= <-]. by exists [], []. }
  apply wp_bind. destruct (ends_run e) as [stop|ex] eqn:Hend; [|done]. apply wp_ret. cbn [app].
  destruct stop; [apply wp_ret; intros ls [= <-]; exists [e], []; cbn; by rewrite Hend|].
  apply wp_bind, (wp_invoke (R:=answer) Monotonic). intros [now|ex]; [|done].
  destruct (Qle_bool now deadline) eqn:Hle; cbn [negb].
  - apply wp_bind. eapply wp_mono; [|exact IH]. intros t [rest|ex] Hr; [|done]. apply wp_ret.
    intros ls [= <-]. destruct (Hr _ eq_refl) as (pre & post & Hu & -> & Ht). exists (e :: pre), post. cbn. rewrite Hend, Hu.
    split_and!; [done|done|]. rewrite app_nil_r. intros [_ Hin]%Forall_cons. by apply Ht.
  - apply wp_ret. intros ls [= <-]. exists [e], (until_end es). cbn. rewrite Hend. split_and!; [done|done|].
    intros [Hin _]%Forall_cons. cbn in Hin. apply Qle_bool_iff in Hin. congruence.
Qed.

(** The stream a capture read, and the deadline it set itself. *)
Definition run_stream (ev : event answer) : option stream :=
  let 'Ev c r := ev in
  match c return result (answer c) -> option stream with
  | SubscribeRun _ _ => fun r => match r with Ok s => Some s | Err _ => None end
  | _ => fun _ => None
  end r.
Definition read_in_time (dl : Q) (t : list (event answer)) (es : list PbEvent.t) : Prop :=
  exists start ends, (tick <$> head t) = Some (Some start) /\ (run_stream <$> head (tail t)) = Some (Some (es, ends)) /\
    Forall (in_time (start + dl)) (tail t).

Lemma capture_spec run_id dl canon :
  wp (capture run_id dl canon) (fun t o => forall s, o = Ok s -> forall es, read_in_time dl t es ->
    s.(lines) = map (line_of [(run_id, canon)]) (until_end es)).
Proof.
  unfold capture. apply wp_bind, (wp_invoke (R:=answer) Monotonic). intros [start|ex]; [|done].
  apply wp_bind, (wp_invoke (R:=answer) (SubscribeRun _ _)). intros [[es ends]|ex]; [|done].
  apply wp_bind. eapply wp_mono; [|apply capture_lines_spec]. intros t [ls|ex] Hls; [|done]. apply wp_ret.
  intros s [= <-] es' (start' & ends' & [= <-] & [= <- _] & Hin).
  destruct (Hls _ eq_refl) as (pre & post & Hu & -> & Hpost). cbn in Hin. apply Forall_cons_1 in Hin as [_ Hin].
  rewrite app_nil_r in Hin. cbn [fst] in Hu. by rewrite Hu, (Hpost Hin), app_nil_r.
Qed.

(** The determinism claim: two runs that journal the same history, each captured before
    its deadline, have equal snapshots, whatever their identifiers, clocks and leases. *)
Theorem same_history_same_snapshot canon dl r1 r2 t1 t2 s1 s2 es1 es2 :
  r1 <> "" -> r2 <> "" ->
  exec (capture r1 dl canon) t1 (Ok s1) -> exec (capture r2 dl canon) t2 (Ok s2) ->
  read_in_time dl t1 es1 -> read_in_time dl t2 es2 ->
  Forall2 (same_entry canon r1 r2) es1 es2 -> snapshot_eq s1 s2 = true.
Proof.
  intros H1 H2 He1 He2 Hr1 Hr2 Hsame.
  pose proof (wp_exec _ _ _ _ (capture_spec r1 dl canon) He1 _ eq_refl _ Hr1) as Hl1.
  pose proof (wp_exec _ _ _ _ (capture_spec r2 dl canon) He2 _ eq_refl _ Hr2) as Hl2.
  unfold snapshot_eq. rewrite Hl1, Hl2. apply all2_Forall2, Forall2_fmap.
  eapply Forall2_impl; [by apply same_until_end|]. intros e1 e2 He. by apply same_entry_line.
Qed.

(** ** The report *)
Section replay.
Variable show_payload : tval -> string.
Variable pass : nat -> P (option string).

(** Replay reports determinism exactly when both passes were captured and their
    snapshots are equal; a drift between two captured passes is never silent. *)
Theorem replay_report_honest name seed dl t rep :
  exec (replay show_payload pass name seed dl) t (Ok rep) ->
  match rep.(snap_a), rep.(snap_b) with
  | Some a, Some b => rep.(bit_identical) = snapshot_eq a b /\ rep.(notes) = [] /\
      (rep.(bit_identical) = true <-> rep.(diff_summary) = [])
  | _, _ => rep.(bit_identical) = false /\ rep.(notes) <> []
  end.
Proof.
  intros He. pose (good := fun rep => match rep.(snap_a), rep.(snap_b) with
    | Some a, Some b => rep.(bit_identical) = snapshot_eq a b /\ rep.(notes) = [] /\
        (rep.(bit_identical) = true <-> rep.(diff_summary) = [])
    | _, _ => rep.(bit_identical) = false /\ rep.(notes) <> [] end).
  assert (Hpass : forall n, wp (replay_pass pass dl n) (fun _ o => forall s note, o = Ok (s, note) -> s = None -> note <> [])).
  { intros n. unfold replay_pass. apply wp_bind, wp_caught, wp_any. intros t' [r|ex]; [|by apply wp_ret; intros ? ? [= <- <-]].
    case_decide; [by apply wp_ret; intros ? ? [= <- <-]|]. apply wp_bind, wp_any. intros t2 [s|ex]; [|done].
    by apply wp_ret; intros ? ? [= <- <-]. }
  enough (Hw : wp (replay show_payload pass name seed dl) (fun _ o => forall rep, o = Ok rep -> good rep))
    by exact (wp_exec _ _ _ _ Hw He rep eq_refl).
  unfold replay. apply wp_bind. eapply wp_mono; [|apply Hpass]. intros t1 [[[a|] note]|ex] H1; [| |done].
  2: { apply wp_ret. intros ? [= <-]. split; [done|]. by apply (H1 None). }
  apply wp_bind. eapply wp_mono; [|apply Hpass]. intros t2 [[[b|] note2]|ex] H2; [| |done].
  2: { apply wp_ret. intros ? [= <-]. split; [done|]. by apply (H2 None). }
  apply wp_ret. intros ? [= <-]. unfold good. cbn. split_and!; [done|done|].
  destruct (snapshot_eq a b) eqn:Heq; [done|]. split; [done|]. unfold summarize. intros Hd.
  apply map_eq_nil, diff_from_nil in Hd. unfold snapshot_eq in Heq. congruence.
Qed.
End replay.
End equality.

(** ** Captures at work *)

(** Text whose documents are the given payload. *)
Definition payload_text (v : json) : PyText :=
  {| dumps := fun _ => "{}"; loads := fun _ => Ok v; str_exn := fun _ => "boom"; exn_name := fun _ => "Exception";
     exn_details := fun _ => ""; str_json := fun _ => ""; int_text := fun _ => Ok 0%Z;
     float_text := fun _ => Err TypeError; repr_str := fun s => s; from_markup := fun s => Ok s |}.
Definition journaled (kind : string) (seq : Z) : PbEvent.t := PbEvent.mk "run-1" seq kind "{..}" 1000 seq "".
(** A server with a journal, and a clock that moves a second at a time. *)
Definition wal_world (es : list PbEvent.t) (ends : option exn) (c : call) : M Q (answer c) := fun w =>
  (match c return result (answer c) with
   | SubscribeRun _ _ => Ok (es, ends)
   | Monotonic => Ok w
   | _ => Err TypeError
   end, (w + 1)%Q).

(** A flag and the number 1 are the same to a snapshot, and so are an empty dict and an
    empty list. *)
Lemma true_is_one : tval_eq (H:=sample_text) (to_tuple [("retry", JBool true)]) (to_tuple [("retry", JInt 1)]) = true.
Proof. reflexivity. Qed.
Lemma empty_dict_is_empty_list : to_tuple [("args", JObj [])] = to_tuple [("args", JList [])].
Proof. reflexivity. Qed.

(** An identifier that is a key is not renamed: the same history, kept under the run's
    identifier, differs between two runs. *)
Lemma run_id_key_drifts :
  tval_eq (H:=sample_text) (value_tuple (canonical [("r-7", "run-1")] (JObj [("r-7", JNull)])))
    (value_tuple (canonical [("r-8", "run-1")] (JObj [("r-8", JNull)]))) = false.
Proof. vm_compute. reflexivity. Qed.

(** A capture that ran into its deadline keeps what it has: two journals that part after
    it are reported as identical. *)
Lemma cut_off_journals_are_equal :
  exists a b, (run (wal_world [journaled "effect" 1; journaled "effect" 2] None)
      (@capture (payload_text (JObj [])) "r-7" (1#2) "run-1") 0%Q).1 = Ok a /\
    (run (wal_world [journaled "effect" 1; journaled "gate" 2] None)
      (@capture (payload_text (JObj [])) "r-8" (1#2) "run-1") 0%Q).1 = Ok b /\
    length a.(lines) = 1 /\ snapshot_eq (H:=payload_text (JObj [])) a b = true.
Proof. do 2 eexists. split_and!; vm_compute; reflexivity. Qed.

(** A run entry whose payload is not an object makes the capture raise. *)
Lemma list_payload_raises :
  (run (wal_world [journaled "run" 1] None) (@capture (payload_text (JList [])) "r-7" 10 "run-1") 0%Q).1 = Err AttributeError.
Proof. vm_compute. reflexivity. Qed.

(** ** Witnesses *)

Lemma to_tuple_order_witness :
  to_tuple [("b", JInt 1); ("a", JInt 2)] = to_tuple [("a", JInt 2); ("b", JInt 1)].
Proof.
  apply (to_tuple_order [("b", JInt 1); ("a", JInt 2)]); [constructor|].
  apply NoDup_cons. split; [|apply NoDup_singleton]. by intros ?%list_elem_of_singleton.
Defined.

(** A confirmed effect: its key begins with the run's identifier, its timestamp is the
    run's own.  The text of a payload is, for short, the run's identifier. *)
Definition effect_tmpl (ts : Z) : tmpl :=
  KObj [("idempotency_key", KText [Hole; Lit "/fc-1"]); ("ts_ms", KAtom (JInt ts))].
Definition effect_text : PyText :=
  {| dumps := fun _ => "{}"; str_exn := fun _ => "boom"; exn_name := fun _ => "Exception";
     loads := fun r => Ok (inst r (effect_tmpl (if decide (r = "r-7") then 1000 else 2000)));
     exn_details := fun _ => ""; str_json := fun _ => ""; int_text := fun _ => Ok 0%Z;
     float_text := fun _ => Err TypeError; repr_str := fun s => s; from_markup := fun s => Ok s |}.
Definition wal_of (r : string) : list PbEvent.t := [PbEvent.mk r 1 "effect" r 1000 1 ""].
Definition captured (r : string) : P Snapshot := @capture effect_text r 10 "run-1".

Lemma same_history_same_snapshot_witness :
  exists s1 s2, (run (wal_world (wal_of "r-7") None) (captured "r-7") 0%Q).1 = Ok s1 /\
    (run (wal_world (wal_of "r-8") None) (captured "r-8") 0%Q).1 = Ok s2 /\
    snapshot_eq (H:=effect_text) s1 s2 = true.
Proof.
  eexists _, _. split_and!; [vm_compute; reflexivity|vm_compute; reflexivity|].
  refine (@same_history_same_snapshot effect_text "run-1" 10 "r-7" "r-8"
    (trace (wal_world (wal_of "r-7") None) (captured "r-7") 0%Q)
    (trace (wal_world (wal_of "r-8") None) (captured "r-8") 0%Q) _ _
    (wal_of "r-7") (wal_of "r-8") ltac:(done) ltac:(done) _ _ _ _ _).
  - refine (eq_rect _ (exec _ _) (run_exec (wal_world (wal_of "r-7") None) (captured "r-7") 0%Q) _ _).
    vm_compute. reflexivity.
  - refine (eq_rect _ (exec _ _) (run_exec (wal_world (wal_of "r-8") None) (captured "r-8") 0%Q) _ _).
    vm_compute. reflexivity.
  - exists 0%Q, None. split_and!; [reflexivity|reflexivity|]. repeat constructor; by vm_compute.
  - exists 0%Q, None. split_and!; [reflexivity|reflexivity|]. repeat constructor; by vm_compute.
  - constructor; [|constructor]. split; [done|]. split; [done|].
    exists (effect_tmpl 1000), (effect_tmpl 2000). split_and!; try reflexivity; cbn; by repeat split; right || left.
Defined.

Definition two_passes : P ReplayReport :=
  @replay (payload_text (JObj [])) (fun _ => "") (fun n => mret (Some (if decide (n = 1) then "r-7" else "r-8"))) "crash" 42 10.
Lemma replay_report_honest_witness :
  exists rep, (run (wal_world [journaled "effect" 1] None) two_passes 0%Q).1 = Ok rep /\ rep.(bit_identical) = true /\
    (rep.(bit_identical) = true <-> rep.(diff_summary) = []).
Proof.
  eexists. split; [vm_compute; reflexivity|]. split; [reflexivity|].
  refine (proj2 (proj2 (@replay_report_honest (payload_text (JObj [])) (fun _ => "")
    (fun n => mret (Some (if decide (n = 1) then "r-7" else "r-8"))) "crash" 42 10
    (trace (wal_world [journaled "effect" 1] None) two_passes 0%Q)
    (mkReplayReport "crash" 42 true (Some (mkSnapshot "r-7" [mkJournalLine "effect" (TTuple [])]))
       (Some (mkSnapshot "r-8" [mkJournalLine "effect" (TTuple [])])) [] []) _))).
  refine (eq_rect _ (exec _ _) (run_exec (wal_world [journaled "effect" 1] None) two_passes 0%Q) _ _).
  vm_compute. reflexivity.
Defined.
