(* ===== verification/SdkChaos.v ===== *)
(** * SdkChaos: faulty connectors and the reliability surface, [tape/chaos/connectors.py], [tape/chaos/reliability.py]

    The connector that decorates another with faults, over a generator of random numbers,
    and the counts of a campaign, in binary64 as Python computes them.

    What a faulty connector may do, and what a campaign prints. *)
From Stdlib Require Import QArith SpecFloat.
From S2P Require Import Prelude Scenarios ScenarioTheorems Client SdkSamples OutboxProtocol.
#[local] Open Scope Z_scope.
#[local] Open Scope nat_scope.

(** ** The faulty connector *)

Section chaos.
Context `{PyText}.
(** [random.Random]: a generator, its next [random()] in [0, 1), and its state after. *)
Context {Rng : Type}.
Variable draw : Rng -> Q * Rng.

(** [_fault(kind, effect)]: the faults in order; one that is certain does not draw. *)
Fixpoint fault (kind : string) (e : PbEffect.t) (faults : list SFault.t) (rng : Rng) : option SFault.t * Rng :=
  match faults with
  | [] => (None, rng)
  | f :: faults =>
    if decide (f.(SFault.action) <> kind) then fault kind e faults rng
    else if decide (f.(SFault.tool) <> "" /\ e.(PbEffect.tool_name) <> f.(SFault.tool))
    then fault kind e faults rng
    else if Qle_bool 1 f.(SFault.probability) then (Some f, rng)
    else
      let '(q, rng) := draw rng in
      if negb (Qle_bool f.(SFault.probability) q) then (Some f, rng) else fault kind e faults rng
  end.

(** The sleep before the inner call; [uniform(-j, j)] is [-j + 2 * j * random()]. *)
Definition delay_before (e : PbEffect.t) (faults : list SFault.t) (rng : Rng) : P unit * Rng :=
  match fault "delay" e faults rng with
  | (Some d, rng) =>
    if decide (0 < d.(SFault.ms))%Z then
      let '(factor, rng) :=
        if negb (Qle_bool d.(SFault.jitter) 0)
        then let '(q, rng) := draw rng in (1 + (- d.(SFault.jitter) + 2 * d.(SFault.jitter) * q), rng)%Q
        else (1%Q, rng) in
      let seconds := (inject_Z d.(SFault.ms) / 1000 * factor)%Q in
      (invoke (Sleep (if Qle_bool seconds 0 then 0 else seconds)%Q), rng)
    else (mret tt, rng)
  | (None, rng) => (mret tt, rng)
  end.

Definition lost_ack (r : SDispatch.t) : SDispatch.t :=
  SDispatch.mk "unknown" r.(SDispatch.external_ref) r.(SDispatch.response)
    [("reason", JStr "tape.chaos: simulated lost ack")] 0.
(** What the wrapper answers for the inner connector's answer. *)
Definition dispatched (e : PbEffect.t) (faults : list SFault.t) (r : SDispatch.t) (rng : Rng) : SDispatch.t * Rng :=
  if decide (r.(SDispatch.status) = "confirmed") then
    match fault "lose_ack" e faults rng with
    | (Some _, rng) => (lost_ack r, rng)
    | (None, rng) => (r, rng)
    end
  else (r, rng).

(** [dispatch] of a connector and of the wrappers around it, which share a generator. *)
Fixpoint conn_dispatch (c : Conn) (e : PbEffect.t) (rng : Rng) : P (SDispatch.t * Rng) :=
  match c with
  | Real name => r ← (invoke (ConnDispatch (Real name) e) : P SDispatch.t); mret (r, rng)
  | ChaosConnector inner faults =>
    let '(wait, rng) := delay_before e faults rng in
    _ ← wait;
    r ← conn_dispatch inner e rng;
    mret (dispatched e faults r.1 r.2)
  end.

Definition seen_twice (r : SObservation.t) : SObservation.t :=
  SObservation.mk "duplicate" r.(SObservation.external_ref) r.(SObservation.response).
Fixpoint conn_observe (c : Conn) (e : PbEffect.t) (rng : Rng) : P (SObservation.t * Rng) :=
  match c with
  | Real name => r ← (invoke (ConnObserve (Real name) e) : P SObservation.t); mret (r, rng)
  | ChaosConnector inner faults =>
    r ← conn_observe inner e rng;
    mret (if decide (r.1.(SObservation.status) = "confirmed") then
            match fault "duplicate" e faults r.2 with
            | (Some _, rng) => (seen_twice r.1, rng)
            | (None, rng) => (r.1, rng)
            end
          else r)
  end.
End chaos.

(** ** The reliability surface *)

(** Python's float of an int, and its [/], [*] and [int()]. *)
Definition py_float (z : Z) : spec_float := binary_normalize 53 1024 z 0 false.
Definition float_div : spec_float -> spec_float -> spec_float := SFdiv 53 1024.
Definition float_mul : spec_float -> spec_float -> spec_float := SFmul 53 1024.
Definition float_int (f : spec_float) : Z :=
  match f with
  | S754_finite s m e =>
    let n := if Z.leb 0 e then Z.shiftl (Zpos m) e else Z.shiftr (Zpos m) (- e) in
    if s then - n else n
  | _ => 0
  end%Z.

Record ReliabilitySurface := mkSurface { k : nat; epsilon : spec_float; lam : spec_float }.
Record Row := mkRow {
  row_scenario : string; row_passed : bool; failed_invariants : list string;
  row_terminal : bool; row_notes : list string
}.

(** [Recorder.add] *)
Definition row_of (report : Report.t) (terminal : bool) : Row :=
  mkRow report.(Report.scenario_name) report.(Report.passed)
    (map SInvariantResult.name (List.filter (fun r => negb r.(SInvariantResult.passed)) report.(Report.invariant_results)))
    terminal report.(Report.notes).
Definition add (rows : list Row) (report : Report.t) (terminal : bool) : list Row :=
  rows ++ [row_of report terminal].

Definition violations (rows : list Row) : nat := length (List.filter (fun r => negb r.(row_passed)) rows).
Definition terminals (rows : list Row) : nat := length (List.filter row_terminal rows).
(** [Recorder.surface] *)
Definition surface (rows : list Row) : ReliabilitySurface :=
  let k := length rows in
  if decide (k = 0) then mkSurface 0 (py_float 0) (py_float 1)
  else
    let ratio n := float_div (py_float (Z.of_nat n)) (py_float (Z.of_nat k)) in
    mkSurface k (ratio (violations rows)) (ratio (terminals rows)).
(** [score] *)
Definition score (reports : list Report.t) : ReliabilitySurface :=
  surface (foldl (fun rows r => add rows r true) [] reports).

(** [int(s.epsilon * s.k)], and the other count the report prints. *)
Definition printed (ratio : spec_float) (k : nat) : Z := float_int (float_mul ratio (py_float (Z.of_nat k))).

Section markdown.
(** [f"{x:.2f}"] *)
Variable fmt_2f : spec_float -> string.
Definition row_text (r : Row) : string :=
  "| `" +:+ r.(row_scenario) +:+ "` | " +:+ (if r.(row_passed) then "OK" else "FAIL") +:+ " | " +:+
  (if r.(row_terminal) then "yes" else "no") +:+ " | " +:+
  str_or (join ", " r.(failed_invariants)) "—" +:+ " |".
Definition to_markdown (title : string) (rows : list Row) : list string :=
  let s := surface rows in
  ["# " +:+ title; "";
   "**Reliability Surface**: `R(k=" +:+ pretty s.(k) +:+ ", ε=" +:+ fmt_2f s.(epsilon) +:+ ", λ=" +:+ fmt_2f s.(lam) +:+ ")`"; "";
   "- " +:+ pretty s.(k) +:+ " scenarios";
   "- " +:+ pretty (printed s.(epsilon) s.(k)) +:+ " invariant violations";
   "- " +:+ pretty (printed s.(lam) s.(k)) +:+ " runs reached terminal"; "";
   "| Scenario | Passed | Terminal | Failed invariants |";
   "|---|---|---|---|"] ++ map row_text rows.
End markdown.

#[local] Arguments wp : simpl never.

(** ** The faulty connector *)

(** The answers a real connector gave in a trace. *)
Definition real_answer (ev : event answer) : option (result SDispatch.t) :=
  let 'Ev c r := ev in
  match c return result (answer c) -> option (result SDispatch.t) with
  | ConnDispatch (Real _) _ => fun r => Some r
  | _ => fun _ => None
  end r.
Definition real_observation (ev : event answer) : option (result SObservation.t) :=
  let 'Ev c r := ev in
  match c return result (answer c) -> option (result SObservation.t) with
  | ConnObserve (Real _) _ => fun r => Some r
  | _ => fun _ => None
  end r.

(** The faults of each wrapper, the outermost first. *)
Fixpoint layers (c : Conn) : list (list SFault.t) :=
  match c with Real _ => [] | ChaosConnector inner faults => faults :: layers inner end.

(** A fault that is for this effect. *)
Definition applies (kind : string) (e : PbEffect.t) (f : SFault.t) : bool :=
  bool_decide (f.(SFault.action) = kind /\ (f.(SFault.tool) = "" \/ e.(PbEffect.tool_name) = f.(SFault.tool))).

Section chaos.
Context `{PyText} {Rng : Type}.
Variable draw : Rng -> Q * Rng.

Lemma fault_certain kind e faults f : forall rng,
  f ∈ faults -> applies kind e f = true -> (1 <= f.(SFault.probability))%Q ->
  exists f' rng', fault draw kind e faults rng = (Some f', rng').
Proof.
  induction faults as [|f0 faults IH]; intros rng Hin Ha Hp; [by inversion Hin|]. cbn.
  apply bool_decide_eq_true in Ha as Ha'. apply elem_of_cons in Hin as [<-|Hin].
  - rewrite decide_False by tauto. rewrite decide_False by naive_solver. apply Qle_bool_iff in Hp. rewrite Hp. eauto.
  - repeat case_decide; try (by apply IH). destruct (Qle_bool 1 _); [eauto|].
    destruct (draw rng) as [q rng1]. destruct (negb _); [eauto|by apply IH].
Qed.
Lemma fault_none kind e faults rng :
  forallb (fun f => negb (applies kind e f)) faults = true -> fault draw kind e faults rng = (None, rng).
Proof.
  induction faults as [|f faults IH]; [done|]. cbn. intros [Hf Hall]%andb_true_iff.
  apply negb_true_iff, bool_decide_eq_false in Hf. repeat case_decide; try (by apply IH).
  exfalso. apply Hf. destruct (decide (f.(SFault.tool) = "")); naive_solver.
Qed.

(** A wait calls nothing but sleep. *)
Lemma delay_calls e faults rng :
  wp (delay_before draw e faults rng).1 (fun t _ => omap real_answer t = []).
Proof.
  unfold delay_before. destruct (fault _ _ _ _ _) as [[d|] rng1]; [|by apply wp_ret].
  case_decide; [|by apply wp_ret]. destruct (negb _); [destruct (draw rng1)|]; cbn [fst];
    by apply (wp_invoke (R:=answer) (Sleep _)).
Qed.

(** What the wrappers may make of an answer. *)
Definition hides (r0 r : SDispatch.t) : Prop :=
  r = r0 \/ (r0.(SDispatch.status) = "confirmed" /\ r = lost_ack r0).

Definition lossy (e : PbEffect.t) (c : Conn) : Prop :=
  exists fs f, fs ∈ layers c /\ f ∈ fs /\ applies "lose_ack" e f = true /\ (1 <= f.(SFault.probability))%Q.

Lemma conn_dispatch_spec c e : forall rng,
  wp (conn_dispatch draw c e rng) (fun t o => match o with
    | Ok (r, _) => exists r0, omap real_answer t = [Ok r0] /\ hides r0 r /\
        (lossy e c -> r.(SDispatch.status) <> "confirmed")
    | Err _ => length (omap real_answer t) <= 1
    end).
Proof.
  induction c as [name|inner IH faults]; intros rng; cbn [conn_dispatch].
  - apply wp_bind, (wp_invoke (R:=answer) (ConnDispatch (Real name) e)). intros [r|ex]; [|cbn; lia].
    apply wp_ret. exists r. split_and!; [done|by left|]. intros (fs & f & Hfs & _). inversion Hfs.
  - pose proof (delay_calls e faults rng) as Hd. destruct (delay_before draw e faults rng) as [wait rng1].
    apply wp_bind. eapply wp_mono; [|exact Hd]. intros t1 [[]|ex] Ht1; [|rewrite Ht1; cbn; lia].
    apply wp_bind. eapply wp_mono; [|apply IH]. intros t2 [[r rng2]|ex] Hr; [|by rewrite omap_app, Ht1].
    apply wp_ret. destruct Hr as (r0 & Hr0 & Hh & Hl). rewrite app_nil_r, omap_app, Ht1. cbn [fst snd app].
    unfold dispatched. destruct (decide (SDispatch.status r = "confirmed")) as [Hc|Hc].
    + destruct Hh as [-> |[_ ->]]; [|done]. destruct (fault draw "lose_ack" e faults rng2) as [[f|] rng3] eqn:Hf.
      * exists r0. split_and!; [done|by right|done].
      * exists r0. split_and!; [done|by left|]. intros (fs & f & Hfs & Hin & Ha & Hp).
        apply elem_of_cons in Hfs as [->|Hfs]; [|apply Hl; by exists fs, f].
        destruct (fault_certain "lose_ack" e faults f rng2 Hin Ha Hp) as (f' & rng' & Hf'). congruence.
    + exists r0. by split_and!.
Qed.

(** Whatever its wrappers and their faults, a connector is called at most once, and when
    the dispatch returns, once; the answer is the real one, or the real confirmation with
    its acknowledgement lost.  Under a loss that is certain no confirmation gets through,
    so the outbox dispatcher finds the outcome ambiguous or failed, never landed. *)
Theorem faulty_connector_hides_only c e rng t o n cur :
  exec (conn_dispatch draw c e rng) t o ->
  match o with
  | Ok (r, _) => exists r0, omap real_answer t = [Ok r0] /\ hides r0 r /\
      (lossy e c -> verdict_of n cur (Ok r) <> Landed) /\
      (lossy e c -> r0.(SDispatch.status) = "confirmed" -> verdict_of n cur (Ok r) = Ambiguous)
  | Err _ => length (omap real_answer t) <= 1
  end.
Proof.
  intros He. pose proof (wp_exec _ _ _ _ (conn_dispatch_spec c e rng) He) as Hs.
  destruct o as [[r rng']|ex]; [|exact Hs]. destruct Hs as (r0 & Hr0 & Hh & Hl). exists r0.
  split_and!; [done|done| |]; intros Hlossy; specialize (Hl Hlossy); cbn [verdict_of].
  - rewrite decide_False by done. repeat case_decide; done.
  - intros Hc. destruct Hh as [-> |[_ ->]]; done.
Qed.

(** Without a fault for the effect a wrapped connector is the connector it wraps: the
    same call, the same answer, and no number drawn. *)
Theorem quiet_wrapper_transparent c e rng t o :
  Forall (fun fs => forallb (fun f => negb (applies "delay" e f) && negb (applies "lose_ack" e f)) fs = true) (layers c) ->
  exec (conn_dispatch draw c e rng) t o ->
  omap real_answer t = [match o with Ok (r, _) => Ok r | Err ex => Err ex end] /\ length t = 1 /\
  match o with Ok (_, rng') => rng' = rng | Err _ => True end.
Proof.
  intros Hq. revert t o. apply forall_exec. revert rng.
  induction c as [name|inner IH faults]; intros rng; cbn [conn_dispatch].
  - apply wp_bind, (wp_invoke (R:=answer) (ConnDispatch (Real name) e)). intros [r|ex]; by apply wp_ret || done.
  - cbn [layers] in Hq. apply Forall_cons in Hq as [Hf Hq]. unfold delay_before.
    rewrite fault_none. 2: { clear -Hf. induction faults; [done|]. cbn in *. rewrite !andb_true_iff in *. tauto. }
    apply wp_bind, wp_ret, wp_bind. eapply wp_mono; [|by apply IH]. intros t [[r rng']|ex] Hs; [|exact Hs].
    destruct Hs as (Ht & Hlen & ->). apply wp_ret. rewrite app_nil_r. cbn [fst snd app]. unfold dispatched.
    rewrite fault_none. 2: { clear -Hf. induction faults; [done|]. cbn in *. rewrite !andb_true_iff in *. tauto. }
    case_decide; done.
Qed.

(** An observation is the real one, or a real confirmation shown as a duplicate. *)
Theorem faulty_observation_doubles_only c e rng t r rng' :
  exec (conn_observe draw c e rng) t (Ok (r, rng')) ->
  exists r0, omap real_observation t = [Ok r0] /\
    (r = r0 \/ r0.(SObservation.status) = "confirmed" /\ r = seen_twice r0).
Proof.
  intros He. enough (Hw : forall rng, wp (conn_observe draw c e rng) (fun t o => forall r rng', o = Ok (r, rng') ->
    exists r0, omap real_observation t = [Ok r0] /\ (r = r0 \/ r0.(SObservation.status) = "confirmed" /\ r = seen_twice r0)))
    by exact (wp_exec _ _ _ _ (Hw rng) He _ _ eq_refl).
  clear He t r rng' rng. induction c as [name|inner IH faults]; intros rng; cbn [conn_observe].
  - apply wp_bind, (wp_invoke (R:=answer) (ConnObserve (Real name) e)). intros [r|ex]; [|done].
    apply wp_ret. intros ? ? [= <- <-]. exists r. split; [done|by left].
  - apply wp_bind. eapply wp_mono; [|apply IH]. intros t [[r rng1]|ex] Hr; [|done].
    destruct (Hr _ _ eq_refl) as (r0 & Hr0 & Hs). apply wp_ret. rewrite app_nil_r. cbn [fst snd]. intros r' rng' Heq.
    exists r0. split; [done|]. destruct (decide (SObservation.status r = "confirmed")) as [Hc|Hc].
    + destruct Hs as [-> |[_ ->]]; [|done]. destruct (fault _ _ _ _ _) as [[f|] rng2]; injection Heq as <- <-; tauto.
    + by injection Heq as <- <-.
Qed.
End chaos.

(** ** The reliability surface *)

(** The count printed for [v] of [k] rows. *)
Definition printed_count (v k : nat) : Z := printed (float_div (py_float (Z.of_nat v)) (py_float (Z.of_nat k))) k.
Definition near (v k : nat) : bool :=
  let p := printed_count v k in Z.leb (Z.of_nat v - 1) p && Z.leb p (Z.of_nat v).
Lemma near_small : forallb (fun k => forallb (fun v => near v (S k)) (seq 0 (S (S k)))) (seq 0 64) = true.
Proof. vm_compute. reflexivity. Qed.

Lemma filter_length_le {A} (f : A -> bool) l : length (List.filter f l) <= length l.
Proof. apply List.filter_length_le. Qed.

(** For campaigns of up to 64 scenarios the two counts of the report are the campaign's,
    or one less: the division and the product round, and [int] cuts off. *)
Theorem campaign_counts_near rows :
  rows <> [] -> length rows <= 64 -> let s := surface rows in
  s.(k) = length rows /\
  (Z.of_nat (violations rows) - 1 <= printed s.(epsilon) s.(k) <= Z.of_nat (violations rows))%Z /\
  (Z.of_nat (terminals rows) - 1 <= printed s.(lam) s.(k) <= Z.of_nat (terminals rows))%Z.
Proof.
  intros Hne Hlen. unfold surface. destruct rows as [|r rows]; [done|]. cbn [length] in *.
  rewrite decide_False by lia. cbn [k epsilon lam]. split; [done|].
  assert (Hnear : forall v, v <= S (length rows) -> (Z.of_nat v - 1 <= printed_count v (S (length rows)) <= Z.of_nat v)%Z).
  { intros v Hv. pose proof near_small as Hall. rewrite forallb_forall in Hall.
    specialize (Hall (length rows) ltac:(apply in_seq; lia)). rewrite forallb_forall in Hall.
    specialize (Hall v ltac:(apply in_seq; lia)). unfold near in Hall. apply andb_true_iff in Hall as [H1 H2].
    apply Z.leb_le in H1, H2. done. }
  split; apply Hnear; [apply (filter_length_le _ (r :: rows))|apply (filter_length_le _ (r :: rows))].
Qed.

(** A campaign recorded report by report has one row per report, in order, and its
    violations are the reports that did not pass. *)
Theorem score_counts_reports reports :
  let rows := foldl (fun rows r => add rows r true) [] reports in
  rows = map (fun r => row_of r true) reports /\
  violations rows = length (List.filter (fun r => negb r.(Report.passed)) reports) /\
  terminals rows = length reports.
Proof.
  assert (Hrows : forall acc, foldl (fun rows r => add rows r true) acc reports = acc ++ map (fun r => row_of r true) reports).
  { induction reports as [|r reports IH]; intros acc; cbn; [by rewrite app_nil_r|]. rewrite IH. unfold add. by rewrite <- app_assoc. }
  cbn zeta. rewrite (Hrows []). cbn [app]. split; [done|]. unfold violations, terminals. clear Hrows.
  induction reports as [|r reports [IH1 IH2]]; cbn; [done|]. destruct (Report.passed r); cbn; auto.
Qed.

(** ** A faulty bank *)

Definition certain_loss : SFault.t := SFault.mk LAYER_CONNECTOR "bank" "lose_ack" 1 0 0 0 "" "" None.
Definition lossy_bank : Conn := ChaosConnector (Real "bank") [certain_loss].
(** A generator that always draws the same number. *)
Definition constant_draw (q : Q) : Q * Q := (q, q).

(** One failing scenario of 49 is printed as none. *)
Lemma one_of_49_prints_none : printed_count 1 49 = 0%Z.
Proof. vm_compute. reflexivity. Qed.
(** ** Witnesses *)

Lemma faulty_connector_hides_only_witness :
  verdict_of 3 sample_effect (Ok (lost_ack landed)) = Ambiguous.
Proof.
  pose proof (@faulty_connector_hides_only Q constant_draw lossy_bank sample_effect (1#2) _ _ 3%Z sample_effect
    (run_exec (sample_world landed) (conn_dispatch constant_draw lossy_bank sample_effect (1#2)) tt)) as Hf.
  destruct Hf as (r0 & Hr0 & Hh & _ & Hamb).
  refine (Hamb _ _).
  - exists [certain_loss], certain_loss. split_and!; [by left|by left|reflexivity|by vm_compute].
  - injection Hr0 as <-. reflexivity.
Defined.

Lemma campaign_counts_near_witness :
  let rows := [mkRow "crash" false ["no_stuck"] true []; mkRow "delay" true [] true []] in
  (0 <= printed (surface rows).(epsilon) 2 <= 1)%Z.
Proof.
  destruct (campaign_counts_near [mkRow "crash" false ["no_stuck"] true []; mkRow "delay" true [] true []]
    ltac:(done) ltac:(cbn; lia)) as (_ & Hv & _). exact Hv.
Defined.
