(* ===== verification/Proxies.v ===== *)
(** * Proxies: faults on the wire, [tape/chaos/proxies.py]

    The fault rules, the JSON rewrites, the matching of rules with its counters, the
    event stream and the whole handler of the HTTP proxy.  What goes up with a
    request and comes down with a reply: the length read, the headers kept, dropped and
    added.  The server's sockets are left out; what the upstream answered is an argument.

    Then the theorems: what the HTTP proxy forwards and rewrites. *)
From Stdlib Require Import Ascii QArith.
From S2P Require Import Prelude Scenarios ScenarioTheorems Client SdkSamples Recover.
From S2P Require Lineage Sinks.
#[local] Open Scope Z_scope.
#[local] Open Scope nat_scope.

(** ** Rules *)

Record ProxyFault := mkProxyFault {
  kind : string; path_prefix : string; probability : Q;
  ms : Z; jitter : Q; status : Z; body : string; at_event : Z;
  json_path : string; replacement : json; suffix : string;
  extra_tool : option pydict; drift_fn : option (json -> result json)
}.
Definition rule (kind path_prefix : string) (probability : Q) : ProxyFault :=
  mkProxyFault kind path_prefix probability 0 0 0 "" 0 "" JNull "" None None.

Definition proxy_delay (prefix : string) (ms : Z) (jitter p : Q) : ProxyFault :=
  mkProxyFault "delay" prefix p ms jitter 0 "" 0 "" JNull "" None None.
Definition inject_status (prefix : string) (status : Z) (body : string) (p : Q) : ProxyFault :=
  mkProxyFault "inject_status" prefix p 0 0 status body 0 "" JNull "" None None.
Definition truncate_stream (prefix : string) (at_event : Z) (p : Q) : ProxyFault :=
  mkProxyFault "truncate_stream" prefix p 0 0 0 "" at_event "" JNull "" None None.
Definition mangle_json (prefix json_path : string) (replacement : json) (p : Q) : ProxyFault :=
  mkProxyFault "mangle_json" prefix p 0 0 0 "" 0 json_path replacement "" None None.
Definition inject_prompt (prefix suffix : string) (p : Q) : ProxyFault :=
  mkProxyFault "inject_prompt" prefix p 0 0 0 "" 0 "" JNull suffix None None.
Definition tool_shadow (prefix : string) (extra_tool : pydict) (p : Q) : ProxyFault :=
  mkProxyFault "tool_shadow" prefix p 0 0 0 "" 0 "" JNull "" (Some extra_tool) None.
Definition schema_drift (prefix : string) (drift_fn : json -> result json) (p : Q) : ProxyFault :=
  mkProxyFault "schema_drift" prefix p 0 0 0 "" 0 "" JNull "" None (Some drift_fn).
Definition drop_connection (prefix : string) (p : Q) : ProxyFault := rule "drop_connection" prefix p.

(** ** Rewrites *)

(** [p.isdigit()] and [int(p)] on ASCII text *)
Definition digit_value (c : ascii) : option nat :=
  let n := nat_of_ascii c in if decide (48 <= n <= 57) then Some (n - 48) else None.
Fixpoint digits_from (acc : nat) (s : string) : option nat :=
  match s with
  | EmptyString => Some acc
  | String c s' => match digit_value c with Some d => digits_from (10 * acc + d) s' | None => None end
  end.
Definition index_of (p : string) : option nat :=
  if decide (p = "") then None else digits_from 0 p.

(** [_set_json_at] along the components of the path: what does not match is left. *)
Fixpoint set_at (parts : list string) (value obj : json) : json :=
  match parts with
  | [] => value
  | p :: rest =>
    match obj with
    | JList l =>
      match index_of p with
      | Some i => match l !! i with
                  | Some x => JList (<[i := set_at rest value x]> l)
                  | None => obj
                  end
      | None => obj
      end
    | JObj d =>
      match rest, dict_get p d with
      | [], _ => JObj (dict_set p value d)
      | _, Some x => JObj (dict_set p (set_at rest value x) d)
      | _, None => obj
      end
    | _ => obj
    end
  end.
Definition set_json_at (obj : json) (path : string) (value : json) : json :=
  if decide (path = "") then value else set_at (split_on "." path) value obj.

Definition TEXT_KEYS : list string := ["text"; "content"; "output_text"].
(** [_inject_prompt_into] *)
Fixpoint inject_prompt_into (suffix : string) (obj : json) : json :=
  match obj with
  | JObj d => JObj (map (fun kv => (kv.1,
      match kv.2 with
      | JStr s => if decide (kv.1 ∈ TEXT_KEYS) then JStr (s +:+ suffix) else JStr s
      | _ => inject_prompt_into suffix kv.2
      end)) d)
  | JList l => JList (map (inject_prompt_into suffix) l)
  | v => v
  end.
(** [_shadow_tools] *)
Fixpoint shadow_tools (extra : json) (obj : json) : json :=
  match obj with
  | JObj d => JObj (map (fun kv => (kv.1,
      match kv.2 with
      | JList l => if decide (kv.1 = "tools") then JList (l ++ [extra])
                   else shadow_tools extra kv.2
      | _ => shadow_tools extra kv.2
      end)) d)
  | JList l => JList (map (shadow_tools extra) l)
  | v => v
  end.

(** ** Matching *)
Section proxy.
Context `{PyText} {Rng : Type}.
Variable draw : Rng -> Q * Rng.

(** The generator and [fault_hits]. *)
Record ProxyState := mkProxyState { rng : Rng; fault_hits : list (string * string * Z) }.
Fixpoint count_hit (kind prefix : string) (hits : list (string * string * Z)) : list (string * string * Z) :=
  match hits with
  | [] => [(kind, prefix, 1%Z)]
  | (k, p, n) :: hits =>
    if decide (k = kind /\ p = prefix) then (k, p, (n + 1)%Z) :: hits else (k, p, n) :: count_hit kind prefix hits
  end.

(** [_matching(path, kind)]: every rule of the kind that is for the path and fires. *)
Fixpoint matching (path kind_ : string) (faults : list ProxyFault) (st : ProxyState) : list ProxyFault * ProxyState :=
  match faults with
  | [] => ([], st)
  | f :: faults =>
    let skip st := matching path kind_ faults st in
    if decide (f.(kind) <> kind_) then skip st
    else if decide (f.(path_prefix) <> "" /\ String.prefix f.(path_prefix) path = false) then skip st
    else
      let hit st := let '(fs, st) := matching path kind_ faults
                          (mkProxyState st.(rng) (count_hit kind_ f.(path_prefix) st.(fault_hits))) in (f :: fs, st) in
      if Qle_bool 1 f.(probability) then hit st
      else
        let '(q, g) := draw st.(rng) in
        let st := mkProxyState g st.(fault_hits) in
        if negb (Qle_bool f.(probability) q) then hit st else skip st
  end.

(** ** The event stream *)

Definition LF : ascii := ascii_of_nat 10.
(** [buf.split(b"\n\n", 1)], the separator kept with the event *)
Fixpoint split_event (buf : string) : option (string * string) :=
  match buf with
  | String a (String b rest as tail) =>
    if decide (a = LF /\ b = LF) then Some (String a (String b EmptyString), rest)
    else match split_event tail with Some (evt, rest) => Some (String a evt, rest) | None => None end
  | _ => None
  end.
(** [while b"\n\n" in buf]: the events written, whether the stream was cut, the rest of
    the buffer and the count; an event takes at least two bytes of the buffer, so its
    length is fuel enough. *)
Fixpoint write_events (fuel : nat) (cut_at : Z) (buf : string) (count : Z) : list string * bool * string * Z :=
  match fuel with
  | O => ([], false, buf, count)
  | S fuel =>
    match split_event buf with
    | None => ([], false, buf, count)
    | Some (evt, rest) =>
      let count := (count + 1)%Z in
      if decide (cut_at <> 0 /\ cut_at <= count)%Z then ([evt], true, rest, count)
      else let '(evts, cut, rest, count) := write_events fuel cut_at rest count in (evt :: evts, cut, rest, count)
    end
  end.
(** The loop of [_stream_sse] over the chunks read. *)
Fixpoint stream_events (cut_at : Z) (drops : bool) (chunks : list string) (buf : string) (count : Z) : list string :=
  match chunks with
  | [] => []
  | chunk :: chunks =>
    let buf := buf +:+ chunk in
    let '(evts, cut, rest, count) := write_events (String.length buf) cut_at buf count in
    if (cut : bool) || (drops && Z.leb 1 count) then evts
    else evts ++ stream_events cut_at drops chunks rest count
  end.
(** [min((f.at_event for f in truncates), default=0)] *)
Definition cut_point (truncates : list ProxyFault) : Z :=
  match map at_event truncates with [] => 0%Z | a :: rest => foldl Z.min a rest end.

(** ** The handler *)

Inductive upstream :=
  | Upstream (code : Z) (content_type : string) (chunks : list string)
  | UpstreamError (code : Z) (body : string)          (* HTTPError *)
  | Unreachable.                                      (* URLError, OSError *)
(** What the client sees: the status, [X-Tape-Chaos] and the pieces of the body. *)
Record reply := mkReply { r_status : Z; r_chaos : string; r_body : list string }.

Fixpoint concat_text (l : list string) : string :=
  match l with [] => "" | s :: l => s +:+ concat_text l end.

Definition sleep_for (f : ProxyFault) (g : Rng) : P unit * Rng :=
  let '(ms, g) :=
    if negb (Qle_bool f.(jitter) 0)
    then let '(q, g) := draw g in
         (py_int (inject_Z f.(ms) * (1 + (- f.(jitter) + 2 * f.(jitter) * q))), g)
    else (f.(ms), g) in
  (invoke (Sleep (inject_Z (Z.max 0 ms) / 1000)), g).
Fixpoint delays (fs : list ProxyFault) (st : ProxyState) : P ProxyState :=
  match fs with
  | [] => mret st
  | f :: fs =>
    let '(wait, g) := sleep_for f st.(rng) in
    _ ← wait;
    delays fs (mkProxyState g st.(fault_hits))
  end.

(** The four rewrites of a JSON reply, each rule of a kind in turn, with their names. *)
Definition mangled (fs : list ProxyFault) (payload : json) : json :=
  foldl (fun v f => set_json_at v f.(json_path) f.(replacement)) payload fs.
Definition prompted (fs : list ProxyFault) (payload : json) : json :=
  foldl (fun v f => inject_prompt_into f.(suffix) v) payload fs.
Definition shadowed (fs : list ProxyFault) (payload : json) : json :=
  foldl (fun v f => match f.(extra_tool) with Some tool => shadow_tools (JObj tool) v | None => v end) payload fs.
Definition drifted (fs : list ProxyFault) (payload : json) : json :=
  foldl (fun v f => match f.(drift_fn) with
                    | Some fn => match fn v with Ok w => w | Err _ => v end
                    | None => v end) payload fs.
Definition applied_names (mangles prompts shadows drifts : list ProxyFault) : list string :=
  map (fun _ => "mangle_json") mangles ++ map (fun _ => "inject_prompt") prompts ++
  map (fun _ => "tool_shadow") (List.filter (fun f => match f.(extra_tool) with Some _ => true | None => false end) shadows) ++
  map (fun _ => "schema_drift") (List.filter (fun f => match f.(drift_fn) with Some _ => true | None => false end) drifts).

Variable faults : list ProxyFault.

(** [_reply_json] *)
Definition reply_json (code : Z) (data path : string) (st : ProxyState) : reply * ProxyState :=
  match loads data with
  | Err _ => (mkReply code "" [data], st)
  | Ok payload =>
    let '(ms, st) := matching path "mangle_json" faults st in
    let '(ps, st) := matching path "inject_prompt" faults st in
    let '(ts, st) := matching path "tool_shadow" faults st in
    let '(ds, st) := matching path "schema_drift" faults st in
    let '(drops, st) := matching path "drop_connection" faults st in
    let payload := drifted ds (shadowed ts (prompted ps (mangled ms payload))) in
    (mkReply code (str_or (join "," (applied_names ms ps ts ds)) "json")
       (match drops with [] => [dumps payload] | _ => [] end), st)
  end.
(** [_reply_passthrough] *)
Definition reply_passthrough (code : Z) (data path : string) (st : ProxyState) : reply * ProxyState :=
  let '(drops, st) := matching path "drop_connection" faults st in
  (mkReply code "passthrough" (match drops with [] => [data] | _ => [] end), st).
(** [_stream_sse] *)
Definition stream_sse (code : Z) (chunks : list string) (path : string) (st : ProxyState) : reply * ProxyState :=
  let '(truncates, st) := matching path "truncate_stream" faults st in
  let '(drops, st) := matching path "drop_connection" faults st in
  let tag := match truncates, drops with
             | _ :: _, _ => "truncate_stream" | [], _ :: _ => "drop_connection" | [], [] => "sse" end in
  (mkReply code tag
     (stream_events (cut_point truncates) (match drops with [] => false | _ => true end) chunks "" 0), st).

(** [_handle] *)
Definition handle (path : string) (up : upstream) (st : ProxyState) : P (reply * ProxyState) :=
  let '(ds, st) := matching path "delay" faults st in
  st ← delays ds st;
  let '(injected, st) := matching path "inject_status" faults st in
  match injected with
  | f :: _ => mret (mkReply f.(status) "inject_status" (if decide (f.(body) = "") then [] else [f.(body)]), st)
  | [] =>
    mret (match up with
          | UpstreamError code text => (mkReply code "" [text], st)
          | Unreachable => (mkReply 502 "upstream-unreachable" [], st)
          | Upstream code ctype chunks =>
            if String.prefix "text/event-stream" ctype then stream_sse code chunks path st
            else if String.prefix "application/json" ctype then reply_json code (concat_text chunks) path st
            else reply_passthrough code (concat_text chunks) path st
          end)
  end.
End proxy.

(** ** Headers

    In their order, a name as often as it came; names are compared without case. *)
Definition Headers : Type := list (string * string).
Definition DROP_REQUEST_HEADERS : list string :=
  ["host"; "content-length"; "connection"; "keep-alive"; "proxy-authenticate"; "proxy-authorization"; "te";
   "trailers"; "transfer-encoding"; "upgrade"].
Definition DROP_RESPONSE_HEADERS : list string := ["transfer-encoding"; "content-encoding"; "connection"; "keep-alive"].
Definition is_header (name : string) (h : string * string) : bool := bool_decide (Lineage.lower h.1 = name).
Definition get_header (name : string) (hs : Headers) : option string := snd <$> find (is_header name) hs.
Definition in_headers (names : list string) (h : string * string) : bool := bool_decide (Lineage.lower h.1 ∈ names).

Section headers.
Context `{PyText}.
(** [_read_request_body] from what the client sends *)
Definition read_request_body (hs : Headers) (sent : string) : result string :=
  length ← int_text (JStr (str_or (default "0" (get_header "content-length" hs)) "0"));
  mret (if (length <=? 0)%Z then "" else String.substring 0 (Z.to_nat length) sent).
Record ForwardRequest := mkForwardRequest { fw_method : string; fw_url : string; fw_data : option string; fw_headers : Headers }.
(** [{k: v for k, v in ..}]: the last value of a name, in the place of the first *)
Definition request_headers (hs : Headers) : Headers :=
  foldl (fun d h => dict_set h.1 h.2 d) [] (List.filter (fun h => negb (in_headers DROP_REQUEST_HEADERS h)) hs).
(** [_forward]; [base] is the proxy's [upstream] *)
Definition forward_request (base method path : string) (hs : Headers) (body : string) : ForwardRequest :=
  mkForwardRequest method (Sinks.rstrip_slash base +:+ path) (if decide (body = "") then None else Some body) (request_headers hs).
(** [_send_response_headers]: what follows the status line *)
Definition send_response_headers (resp : Headers) (override_length : option nat) (extra : Headers) : Headers :=
  List.filter (fun h => negb (in_headers DROP_RESPONSE_HEADERS h) &&
                        match override_length with Some _ => negb (is_header "content-length" h) | None => true end) resp ++
  match override_length with Some n => [("Content-Length", pretty (Z.of_nat n))] | None => [] end ++ extra.
(** What a reply made by the proxy itself carries *)
Definition injected_headers (body : string) : Headers :=
  [("Content-Length", pretty (Z.of_nat (String.length body))); ("Content-Type", "text/plain; charset=utf-8"); ("X-Tape-Chaos", "inject_status")].
Definition error_headers (body : string) : Headers := [("Content-Length", pretty (Z.of_nat (String.length body)))].
Definition unreachable_headers : Headers := [("Content-Length", "0"); ("X-Tape-Chaos", "upstream-unreachable")].
End headers.

(** ** The server: bound at [start], shut down at [stop] *)
Record Listener := mkListener { server_at : option (string * Z); threaded : bool }.
Definition start_listener (bound : result (string * Z)) : result Listener :=
  at_ ← bound; mret (mkListener (Some at_) true).
Definition stop_listener (l : Listener) : Listener := mkListener None false.
Definition proxy_url (tls : bool) (host : string) (port : Z) : string :=
  (if tls then "https" else "http") +:+ "://" +:+ host +:+ ":" +:+ pretty port.

#[local] Arguments wp : simpl never.

(** ** What is copied *)

(** However many the upstream sent, a reply of known length has one length, that of the
    body written. *)
Lemma one_content_length resp n extra :
  Forall (fun h => is_header "content-length" h = false) extra ->
  List.filter (is_header "content-length") (send_response_headers resp (Some n) extra) =
  [("Content-Length", pretty (Z.of_nat n))].
Proof.
  intros He. unfold send_response_headers. rewrite !List.filter_app.
  assert (Hr : forall l, List.filter (is_header "content-length")
    (List.filter (fun h => negb (in_headers DROP_RESPONSE_HEADERS h) && negb (is_header "content-length" h)) l) = []).
  { induction l as [|h l IH]; [done|]. cbn. destruct (negb (in_headers _ h)); cbn; [|done].
    destruct (is_header "content-length" h) eqn:E; cbn; [done|]. by rewrite E. }
  rewrite Hr. assert (Hx : List.filter (is_header "content-length") extra = []).
  { induction He as [|h l Hh _ IH]; [done|]. cbn. by rewrite Hh. }
  by rewrite Hx.
Qed.
(** A header of a connection is not forwarded, in either direction. *)
Lemma hop_headers_stay resp n extra :
  Forall (fun h => in_headers DROP_RESPONSE_HEADERS h = false) extra ->
  Forall (fun h => in_headers DROP_RESPONSE_HEADERS h = false) (send_response_headers resp n extra).
Proof.
  intros He. unfold send_response_headers. rewrite !Forall_app. split_and!; [|by destruct n; repeat constructor|done].
  apply List.Forall_forall. intros h [_ Hh]%List.filter_In. apply andb_true_iff in Hh as [Hh _]. by apply negb_true_iff.
Qed.
(** A body that comes in chunks has no length, and is not forwarded at all. *)
Lemma chunked_request_forwarded_empty `{PyText} base path sent :
  int_text (JStr "0") = Ok 0%Z ->
  let hs := [("Transfer-Encoding", "chunked"); ("X-Key", "1")] in
  exists body, read_request_body hs sent = Ok body /\
    forward_request base "POST" path hs body = mkForwardRequest "POST" (Sinks.rstrip_slash base +:+ path) None [("X-Key", "1")].
Proof.
  intros H0 hs. exists "". unfold read_request_body.
  assert (str_or (default "0" (get_header "content-length" hs)) "0" = "0") as -> by reflexivity. rewrite H0. by split.
Qed.
(** A compressed reply loses the header that says so, and keeps its bytes. *)
Lemma compressed_reply_loses_its_encoding n :
  send_response_headers [("Content-Type", "text/plain"); ("Content-Encoding", "gzip")] (Some n) [("X-Tape-Chaos", "passthrough")] =
  [("Content-Type", "text/plain"); ("Content-Length", pretty (Z.of_nat n)); ("X-Tape-Chaos", "passthrough")].
Proof. reflexivity. Qed.

(** ** Text *)

Lemma append_cons c (s t : string) : String c s +:+ t = String c (s +:+ t).
Proof. done. Qed.
Lemma append_empty (s : string) : s +:+ "" = s.
Proof. induction s as [|c s IH]; [done|]. by rewrite append_cons, IH. Qed.

(** ** Events *)

Lemma split_event_cons a b s :
  split_event (String a (String b s)) =
    if decide (a = LF /\ b = LF) then Some (String a (String b EmptyString), s)
    else match split_event (String b s) with Some (evt, rest) => Some (String a evt, rest) | None => None end.
Proof. reflexivity. Qed.
Lemma split_event_spec buf evt rest :
  split_event buf = Some (evt, rest) -> buf = evt +:+ rest /\ 2 <= String.length evt.
Proof.
  revert evt rest. induction buf as [|a [|b buf] IH]; intros evt rest; try done. rewrite split_event_cons.
  case_decide as Hab; [intros [= <- <-]; split; [done|cbn; lia]|].
  destruct (split_event (String b buf)) as [[e r]|] eqn:Hs; [|done]. intros [= <- <-].
  destruct (IH _ _ eq_refl) as [Hb Hlen]. rewrite append_cons, <- Hb. cbn. split; [done|lia].
Qed.
Lemma split_event_app buf evt rest x :
  split_event buf = Some (evt, rest) -> split_event (buf +:+ x) = Some (evt, rest +:+ x).
Proof.
  revert evt rest. induction buf as [|a [|b buf] IH]; intros evt rest; try done.
  rewrite !append_cons, !split_event_cons. case_decide as Hab; [by intros [= <- <-]|].
  destruct (split_event (String b buf)) as [[e r]|] eqn:Hs; [|done]. intros [= <- <-].
  rewrite append_cons in IH. by rewrite (IH _ _ eq_refl).
Qed.

(** The complete events of a text, and what is left: the reference for the loop. *)
Fixpoint events_from (fuel : nat) (buf : string) : list string * string :=
  match fuel with
  | O => ([], buf)
  | S fuel =>
    match split_event buf with
    | None => ([], buf)
    | Some (evt, rest) => let '(evts, rest) := events_from fuel rest in (evt :: evts, rest)
    end
  end.
Definition events_of (buf : string) : list string * string := events_from (String.length buf) buf.

Lemma events_from_fuel n buf : String.length buf <= n -> events_from n buf = events_of buf.
Proof.
  unfold events_of. remember (String.length buf) as m eqn:Hm. intros Hn.
  assert (Hle : String.length buf <= m) by lia. clear Hm. revert n Hn buf Hle.
  induction m as [|m IH]; intros n Hn buf Hle.
  - destruct buf; [|cbn in Hle; lia]. by destruct n.
  - destruct n as [|n]; [lia|]. cbn. destruct (split_event buf) as [[evt rest]|] eqn:Hs; [|done].
    apply split_event_spec in Hs as [-> Hlen]. rewrite length_append in Hle. by rewrite (IH n) by lia.
Qed.
Lemma events_of_split buf evt rest : split_event buf = Some (evt, rest) ->
  events_of buf = (evt :: (events_of rest).1, (events_of rest).2).
Proof.
  intros Hs. pose proof (split_event_spec _ _ _ Hs) as [Hb Hlen]. unfold events_of at 1.
  destruct (String.length buf) as [|n] eqn:Hn; [rewrite Hb, length_append in Hn; lia|]. cbn. rewrite Hs.
  rewrite events_from_fuel by (rewrite Hb, length_append in Hn; lia). by destruct (events_of rest).
Qed.
Lemma events_of_none buf : split_event buf = None -> events_of buf = ([], buf).
Proof. unfold events_of. intros Hs. destruct (String.length buf); cbn; [done|]. by rewrite Hs. Qed.

(** Induction on the events of a text. *)
Lemma events_ind (Q : string -> Prop) :
  (forall buf, split_event buf = None -> Q buf) ->
  (forall buf evt rest, split_event buf = Some (evt, rest) -> Q rest -> Q buf) -> forall buf, Q buf.
Proof.
  intros Hnone Hsome buf. remember (String.length buf) as n eqn:Hn. revert buf Hn.
  induction n as [n IH] using lt_wf_ind. intros buf ->.
  destruct (split_event buf) as [[evt rest]|] eqn:Hs; [|by apply Hnone].
  apply (Hsome _ _ _ Hs). eapply IH; [|done]. apply split_event_spec in Hs as [-> Hlen]. rewrite length_append. lia.
Qed.

Lemma events_of_app buf x :
  events_of (buf +:+ x) =
    ((events_of buf).1 ++ (events_of ((events_of buf).2 +:+ x)).1, (events_of ((events_of buf).2 +:+ x)).2).
Proof.
  induction buf as [buf Hs|buf evt rest Hs IH] using events_ind.
  - rewrite (events_of_none buf Hs). cbn. by destruct (events_of _).
  - rewrite (events_of_split _ _ _ Hs), (events_of_split _ _ _ (split_event_app _ _ _ x Hs)), IH. done.
Qed.
Lemma events_of_text buf : concat_text (events_of buf).1 +:+ (events_of buf).2 = buf.
Proof.
  induction buf as [buf Hs|buf evt rest Hs IH] using events_ind; [by rewrite (events_of_none buf Hs)|].
  rewrite (events_of_split _ _ _ Hs). cbn. rewrite append_assoc, IH. by apply split_event_spec in Hs as [-> _].
Qed.
Lemma rest_has_no_event buf : split_event (events_of buf).2 = None.
Proof.
  induction buf as [buf Hs|buf evt rest Hs IH] using events_ind; [by rewrite (events_of_none buf Hs)|].
  by rewrite (events_of_split _ _ _ Hs).
Qed.

(** ** The loop *)

(** The events that may still be written once [count] were. *)
Definition room (cut_at count : Z) : option nat :=
  if decide (cut_at = 0)%Z then None else Some (Z.to_nat (Z.max 1 (cut_at - count))).
Definition cut_list {A} (n : option nat) (l : list A) : list A := match n with None => l | Some n => take n l end.
Definition is_cut {A} (n : option nat) (l : list A) : bool := match n with None => false | Some n => Nat.leb n (length l) end.

Lemma write_events_spec cut_at buf : forall fuel count, String.length buf <= fuel ->
  let evts := (events_of buf).1 in
  exists rest', write_events fuel cut_at buf count =
    (cut_list (room cut_at count) evts, is_cut (room cut_at count) evts, rest',
     (count + Z.of_nat (length (cut_list (room cut_at count) evts)))%Z) /\
    (is_cut (room cut_at count) evts = false -> rest' = (events_of buf).2).
Proof.
  induction buf as [buf Hs|buf evt rest Hs IH] using events_ind; intros fuel count Hf; cbn zeta.
  - rewrite (events_of_none buf Hs). exists buf. split; [|done].
    assert (Hz : is_cut (room cut_at count) (@nil string) = false /\ cut_list (room cut_at count) (@nil string) = []).
    { unfold room. case_decide; cbn; [done|]. rewrite take_nil. split; [|done]. apply Nat.leb_gt. lia. }
    cbn [fst snd]. destruct Hz as [-> ->]. cbn. rewrite Z.add_0_r. destruct fuel; cbn; [done|]. by rewrite Hs.
  - rewrite (events_of_split _ _ _ Hs). pose proof (split_event_spec _ _ _ Hs) as [Hb Hlen].
    destruct fuel as [|fuel]; [rewrite Hb, length_append in Hf; lia|]. cbn [write_events fst snd]. rewrite Hs.
    destruct (decide (cut_at <> 0 /\ cut_at <= count + 1)%Z) as [[Hc0 Hc]|Hc].
    + exists rest. unfold room. rewrite decide_False by done.
      replace (Z.to_nat (Z.max 1 (cut_at - count))) with 1 by lia. cbn. done.
    + destruct (IH fuel (count + 1)%Z) as (rest' & Hw & Hr); [rewrite Hb, length_append in Hf; lia|].
      exists rest'. rewrite Hw. clear Hw IH. unfold room in *. destruct (decide (cut_at = 0)%Z) as [->|Hc0]; cbn in *.
      * split; [|by intros _; apply Hr]. f_equal. lia.
      * assert (Hcut : (count + 1 < cut_at)%Z) by lia.
        replace (Z.to_nat (Z.max 1 (cut_at - count))) with (S (Z.to_nat (Z.max 1 (cut_at - (count + 1))))) by lia.
        cbn [take length Nat.leb]. split; [f_equal; lia|exact Hr].
Qed.

Lemma cut_list_app cut_at count (l1 l2 : list string) :
  let n := room cut_at count in
  if is_cut n l1 then cut_list n (l1 ++ l2) = cut_list n l1
  else cut_list n (l1 ++ l2) = l1 ++ cut_list (room cut_at (count + Z.of_nat (length l1))) l2 /\ cut_list n l1 = l1.
Proof.
  unfold room. case_decide as Hc; cbn; [done|]. destruct (Nat.leb _ (length l1)) eqn:Hle.
  - apply Nat.leb_le in Hle. by rewrite take_app_le.
  - apply Nat.leb_gt in Hle. split; [|by rewrite take_ge by lia].
    rewrite take_app_ge by lia. do 2 f_equal. lia.
Qed.

Lemma stream_events_from cut_at drops chunks : forall buf count, split_event buf = None ->
  exists k, stream_events cut_at drops chunks buf count =
    cut_list (room cut_at count) (events_of (buf +:+ concat_text (take k chunks))).1 /\
    (drops = false -> take k chunks = chunks).
Proof.
  induction chunks as [|chunk chunks IH]; intros buf count Hb; cbn [stream_events].
  { exists 0. rewrite append_empty, (events_of_none buf Hb). split; [|done]. unfold room. case_decide; cbn; [done|by rewrite take_nil]. }
  destruct (write_events_spec cut_at (buf +:+ chunk) (String.length (buf +:+ chunk)) count (le_n _)) as (rest' & Hw & Hr).
  rewrite Hw. pose proof (cut_list_app cut_at count (events_of (buf +:+ chunk)).1) as Happ. cbn zeta in Happ.
  destruct (is_cut _ _) eqn:Hcut; cbn [orb].
  - exists (S (length chunks)). cbn [take concat_text]. rewrite take_ge by done. split; [|done].
    rewrite <- append_assoc, (events_of_app (buf +:+ chunk)). cbn [fst]. specialize (Happ (events_of ((events_of (buf +:+ chunk)).2 +:+ concat_text chunks)).1).
    exact (eq_sym Happ).
  - rewrite (Hr eq_refl). destruct (drops && _) eqn:Hd.
    + exists 1. cbn [take concat_text]. rewrite append_empty. split; [done|].
      intros ->. done.
    + destruct (IH (events_of (buf +:+ chunk)).2
        (count + Z.of_nat (length (cut_list (room cut_at count) (events_of (buf +:+ chunk)).1)))%Z
        (rest_has_no_event _)) as (k & -> & Hk).
      exists (S k). cbn [take concat_text]. split; [|intros Hdr; by rewrite Hk].
      specialize (Happ (events_of ((events_of (buf +:+ chunk)).2 +:+ concat_text (take k chunks))).1).
      destruct Happ as [Ha Hsame].
      rewrite <- append_assoc, (events_of_app (buf +:+ chunk)). cbn [fst]. by rewrite Ha, Hsame.
Qed.

(** A connection that is dropped leaves the events of some first chunks. *)
Lemma dropped_stream_is_a_prefix cut_at drops chunks :
  exists k, stream_events cut_at drops chunks "" 0 =
    cut_list (room cut_at 0) (events_of (concat_text (take k chunks))).1.
Proof. destruct (stream_events_from cut_at drops chunks "" 0 eq_refl) as (k & -> & _). by exists k. Qed.

Lemma undropped_stream cut_at chunks :
  stream_events cut_at false chunks "" 0 = cut_list (room cut_at 0) (events_of (concat_text chunks)).1.
Proof. destruct (stream_events_from cut_at false chunks "" 0 eq_refl) as (k & -> & Hk). by rewrite Hk. Qed.

(** C28: While no rule drops the connection, the events forwarded are those of the whole
    stream, all of them or, with a cut, the first ones up to it, at least one: they depend
    on the bytes and not on the chunks the bytes came in. *)
Theorem stream_independent_of_chunks cut_at chunks :
  stream_events cut_at false chunks "" 0 =
    (let events := (events_of (concat_text chunks)).1 in
     if decide (cut_at = 0)%Z then events else take (Z.to_nat (Z.max 1 cut_at)) events).
Proof.
  rewrite undropped_stream. unfold room. cbn zeta. case_decide; [done|]. by rewrite Z.sub_0_r.
Qed.

(** ** Rewrites *)

(** [obj[p0][p1]..] *)
Fixpoint json_at (parts : list string) (obj : json) : option json :=
  match parts with
  | [] => Some obj
  | p :: rest =>
    match obj with
    | JList l => i ← index_of p; x ← l !! i; json_at rest x
    | JObj d => x ← dict_get p d; json_at rest x
    | _ => None
    end
  end.

(** A rewritten path reads back what was written; a path that is not there changes
    nothing, but for a last key that is missing from its object, which is added. *)
Theorem set_at_reads_back parts v obj :
  match json_at parts obj with
  | Some _ => json_at parts (set_at parts v obj) = Some v
  | None => set_at parts v obj = obj \/ json_at parts (set_at parts v obj) = Some v
  end.
Proof.
  revert obj. induction parts as [|p parts IH]; intros obj; [done|].
  cbn [json_at set_at]. destruct obj as [| | | | |l|d]; try by left.
  - destruct (index_of p) as [i|] eqn:Hi; cbn; [|by left]. destruct (l !! i) as [x|] eqn:Hx; cbn; [|by left].
    assert (Hlen : i < length l) by (by apply lookup_lt_Some in Hx).
    specialize (IH x). destruct (json_at parts x); cbn [json_at]; rewrite ?Hi; cbn; rewrite list_lookup_insert_eq by done; cbn; [done|].
    destruct IH as [-> | ->]; [left|by right]. by rewrite list_insert_id.
  - destruct parts as [|q parts].
    + cbn. destruct (dict_get p d); cbn; rewrite dict_get_set_eq; [done|by right].
    + destruct (dict_get p d) as [x|] eqn:Hx; cbn [mbind option_bind]; [|by left].
      specialize (IH x). revert IH.
      generalize (q :: parts) as ps. intros ps IH. destruct (json_at ps x); cbn [json_at]; rewrite dict_get_set_eq; cbn [mbind option_bind]; [done|].
      destruct IH as [-> | ->]; [left|by right]. f_equal.
      clear -Hx. induction d as [|[k w] d IHd]; [done|]. cbn in *. case_decide; [by simplify_eq|]. by rewrite IHd.
Qed.

Section proxy.
Context `{PyText} {Rng : Type}.
Variable draw : Rng -> Q * Rng.

(** ** A proxy without rules *)

Lemma no_matching path kind st : matching draw path kind [] st = ([], st).
Proof. done. Qed.

(** What an upstream's answer is to a client. *)
Definition plain_reply (up : upstream) : reply :=
  match up with
  | UpstreamError code text => mkReply code "" [text]
  | Unreachable => mkReply 502 "upstream-unreachable" []
  | Upstream code ctype chunks =>
    if String.prefix "text/event-stream" ctype then mkReply code "sse" (events_of (concat_text chunks)).1
    else if String.prefix "application/json" ctype then
      match loads (concat_text chunks) with
      | Ok v => mkReply code "json" [dumps v]
      | Err _ => mkReply code "" [concat_text chunks]
      end
    else mkReply code "passthrough" [concat_text chunks]
  end.

(** Without rules the proxy sends what the upstream answered: JSON as the same document,
    an event stream's complete events, anything else byte for byte. *)
Theorem quiet_http_proxy_transparent path up st t o :
  exec (handle draw [] path up st) t o -> t = [] /\ o = Ok (plain_reply up, st).
Proof.
  revert t o. apply forall_exec. unfold handle. rewrite no_matching. apply wp_bind, wp_ret, wp_ret.
  split; [done|]. f_equal. destruct up as [code ctype chunks|code text|]; cbn; [|done..].
  destruct (String.prefix "text/event-stream" ctype).
  - unfold stream_sse. cbn. by rewrite undropped_stream.
  - destruct (String.prefix "application/json" ctype); [|done]. unfold reply_json. by destruct (loads _).
Qed.

(** Every rule that fires is of the kind asked for and for the path, in the order given,
    and is counted once under its kind and prefix. *)
Fixpoint hit_count (k p : string) (hits : list (string * string * Z)) : Z :=
  match hits with
  | [] => 0
  | (k', p', n) :: hits => if decide (k' = k /\ p' = p) then n else hit_count k p hits
  end%Z.
Lemma hit_count_hit k p k' p' hits :
  hit_count k p (count_hit k' p' hits) = (hit_count k p hits + if decide (k' = k /\ p' = p) then 1 else 0)%Z.
Proof.
  induction hits as [|[[k1 p1] n] hits IH]; cbn; [by case_decide|].
  destruct (decide (k1 = k' /\ p1 = p')) as [[-> ->]|Hne]; cbn.
  - case_decide; [done|lia].
  - rewrite IH. destruct (decide (k1 = k /\ p1 = p)) as [[-> ->]|]; [|done]. rewrite decide_False; [lia|]. intros [-> ->]. by apply Hne.
Qed.
Theorem matching_counts_hits path kind_ faults st p :
  let '(fs, st') := matching draw path kind_ faults st in
  sublist fs faults /\
  Forall (fun f => f.(kind) = kind_ /\ (f.(path_prefix) = "" \/ String.prefix f.(path_prefix) path = true)) fs /\
  hit_count kind_ p st'.(fault_hits) =
    (hit_count kind_ p st.(fault_hits) + Z.of_nat (length (List.filter (fun f => bool_decide (f.(path_prefix) = p)) fs)))%Z.
Proof.
  revert st. induction faults as [|f faults IH]; intros st; cbn [matching]; [split_and!; [done|done|cbn; lia]|].
  assert (Hskip : forall st, fault_hits st = fault_hits st -> let '(fs, st') := matching draw path kind_ faults st in
    sublist fs (f :: faults) /\
    Forall (fun f => f.(kind) = kind_ /\ (f.(path_prefix) = "" \/ String.prefix f.(path_prefix) path = true)) fs /\
    hit_count kind_ p st'.(fault_hits) =
      (hit_count kind_ p st.(fault_hits) + Z.of_nat (length (List.filter (fun f => bool_decide (f.(path_prefix) = p)) fs)))%Z).
  { intros st1 _. specialize (IH st1). destruct (matching _ _ _ _ _). destruct IH as (H1 & H2 & H3).
    split_and!; [by constructor|done|done]. }
  case_decide as Hk; [by apply Hskip|]. case_decide as Hp; [by apply Hskip|].
  assert (Hfor : f.(kind) = kind_ /\ (f.(path_prefix) = "" \/ String.prefix f.(path_prefix) path = true)).
  { destruct (decide (f.(kind) = kind_)), (decide (f.(path_prefix) = "")), (String.prefix _ _); tauto. }
  assert (Hhit : forall g, let '(fs, st') := matching draw path kind_ faults
      (mkProxyState g (count_hit kind_ f.(path_prefix) st.(fault_hits))) in
    sublist (f :: fs) (f :: faults) /\
    Forall (fun f => f.(kind) = kind_ /\ (f.(path_prefix) = "" \/ String.prefix f.(path_prefix) path = true)) (f :: fs) /\
    hit_count kind_ p st'.(fault_hits) = (hit_count kind_ p st.(fault_hits) +
      Z.of_nat (length (List.filter (fun f => bool_decide (f.(path_prefix) = p)) (f :: fs))))%Z).
  { intros g. specialize (IH (mkProxyState g (count_hit kind_ f.(path_prefix) st.(fault_hits)))).
    destruct (matching _ _ _ _ _) as [fs st']. destruct IH as (H1 & H2 & ->).
    split_and!; [by constructor|by constructor|]. cbn [fault_hits List.filter]. rewrite hit_count_hit.
    case_decide as H3; case_bool_decide as H4; cbn [length]; try lia; tauto. }
  destruct (Qle_bool 1 _); [specialize (Hhit st.(rng))|destruct (draw _) as [q g]; cbn [fault_hits rng];
    destruct (negb _); [specialize (Hhit g)|by apply (Hskip (mkProxyState g st.(fault_hits)))]];
    destruct (matching _ _ _ _ _); exact Hhit.
Qed.
End proxy.

(** ** A proxy at work *)

Definition CRLF : string := String (ascii_of_nat 13) (String LF EmptyString).
Definition LFLF : string := String LF (String LF EmptyString).

(** A stream whose lines end in CRLF, as its standard allows, has no event for the
    proxy: nothing of it is forwarded. *)
Lemma crlf_stream_forwards_nothing :
  stream_events 0 false ["data: 1" +:+ CRLF +:+ CRLF; "data: 2" +:+ CRLF +:+ CRLF] "" 0 = [].
Proof. reflexivity. Qed.
(** An event at the end of the stream that no blank line follows is dropped. *)
Lemma last_event_dropped :
  stream_events 0 false ["data: 1" +:+ LFLF +:+ "data: 2"] "" 0 = ["data: 1" +:+ LFLF].
Proof. reflexivity. Qed.
(** A rule that cuts at event 0, which cuts nothing, turns off the others. *)
Lemma cut_at_zero_masks :
  cut_point [truncate_stream "" 0 1; truncate_stream "" 3 1] = 0%Z.
Proof. reflexivity. Qed.
(** Without a path the whole body is replaced, by null unless told otherwise: JSON still. *)
Lemma mangled_body_is_null : set_json_at (JObj [("text", JStr "hi")]) "" (replacement (mangle_json "" "" JNull 1)) = JNull.
Proof. reflexivity. Qed.

(** ** Witnesses *)

Lemma quiet_http_proxy_transparent_witness :
  exists st', (run (sample_world landed) (handle (H:=sample_text) (fun q : Q => (q, q)) [] "/v1"
    (Upstream 200 "application/json" ["{}"]) (mkProxyState (1#2) [])) tt).1 =
    Ok (mkReply 200 "json" ["{}"], st').
Proof.
  destruct (@quiet_http_proxy_transparent sample_text Q (fun q : Q => (q, q)) "/v1" (Upstream 200 "application/json" ["{}"])
    (mkProxyState (1#2) []) _ _ (run_exec (sample_world landed) (handle (H:=sample_text) (fun q : Q => (q, q)) [] "/v1"
    (Upstream 200 "application/json" ["{}"]) (mkProxyState (1#2) [])) tt)) as [_ Ho].
  eexists. exact Ho.
Defined.
