(* ===== verification/McpStdio.v ===== *)
(** * McpStdio: faults on JSON-RPC over pipes, [tape/chaos/mcp_stdio.py]

    Which rule is for which message, what it makes of it, and the two ways messages are
    carried: one at a time by the library's calls, and by the pumps of the command.

    What the stdio proxy carries while its server runs, that it carries nothing once the
    server's exit is noticed, and that the command stops the server it started. *)
From Stdlib Require Import Ascii QArith.
From S2P Require Import Prelude Scenarios ScenarioTheorems Client SdkSamples Recover Identity Proxies.
#[local] Open Scope Z_scope.
#[local] Open Scope nat_scope.

Inductive direction := ToUpstream | FromUpstream.

(** What becomes of a message: [None] tears the proxy down; the JSON null, Python's
    [None], drops it. *)
Definition outcome : Type := option json.

Section mcp.
Context `{PyText} {Rng : Type}.
(** The module's generator. *)
Variable draw : Rng -> Q * Rng.

(** [msg.get("method", "") or ""] of the message, or of the first of a batch. *)
Definition method_of (msg : json) : json :=
  let name d := json_or (default (JStr "") (dict_get "method" d)) (JStr "") in
  match msg with
  | JObj d => name d
  | JList (JObj d :: _) => name d
  | _ => JStr ""
  end.

Definition UPSTREAM_KINDS : list string :=
  ["delay"; "drop_connection"; "inject_status"; "inject_prompt"; "schema_drift"].
Definition DOWNSTREAM_KINDS : list string :=
  ["delay"; "drop_connection"; "tool_shadow"; "schema_drift"; "mangle_json"; "inject_status"].
Definition applicable (dir : direction) : list string :=
  match dir with ToUpstream => UPSTREAM_KINDS | FromUpstream => DOWNSTREAM_KINDS end.

(** [_matches]; a method that is no text has no [startswith]. *)
Definition matches (f : ProxyFault) (msg : json) (dir : direction) : result bool :=
  let by_kind := bool_decide (f.(kind) ∈ applicable dir) in
  if decide (f.(path_prefix) = "") then Ok by_kind
  else match method_of msg with
       | JStr m => Ok (String.prefix f.(path_prefix) m && by_kind)
       | _ => Err AttributeError
       end.

(** ** One rule on one message *)

Definition error_reply (f : ProxyFault) (id : json) : json :=
  JObj [("jsonrpc", JStr "2.0"); ("id", id);
        ("error", JObj [("code", JInt (if decide (f.(status) = 0)%Z then -32000 else f.(status))%Z);
                        ("message", JStr (str_or f.(body) "injected by tape.chaos.mcp_stdio"))])].

(** The first text argument, with the suffix. *)
Fixpoint suffix_first (suffix : string) (args : pydict) : pydict :=
  match args with
  | [] => []
  | (k, JStr s) :: args => (k, JStr (s +:+ suffix)) :: args
  | kv :: args => kv :: suffix_first suffix args
  end.
(** [msg.get("params", {}).get("arguments", {})], changed in place where it is a dict. *)
Definition prompt_call (suffix : string) (d : pydict) : result json :=
  match default (JObj []) (dict_get "params" d) with
  | JObj params =>
    match default (JObj []) (dict_get "arguments" params) with
    | JObj args =>
      Ok (JObj match dict_get "params" d, dict_get "arguments" params with
               | Some _, Some _ => dict_set "params" (JObj (dict_set "arguments" (JObj (suffix_first suffix args)) params)) d
               | _, _ => d
               end)
    | _ => Err AttributeError
    end
  | _ => Err AttributeError
  end.
Definition shadow_result (f : ProxyFault) (d : pydict) : result json :=
  match dict_get "result" d with
  | None => Ok (JObj d)
  | Some (JObj r) =>
    Ok (JObj match dict_get "tools" r, f.(extra_tool) with
             | Some (JList tools), Some tool =>
               dict_set "result" (JObj (dict_set "tools" (JList (tools ++ [JObj tool])) r)) d
             | _, _ => d
             end)
  | Some _ => Err AttributeError
  end.
(** The dotted path through dicts only; its last key is set. *)
Fixpoint overwrite (parts : list string) (value msg : json) : json :=
  match parts, msg with
  | [p], JObj d => JObj (dict_set p value d)
  | p :: rest, JObj d =>
    match dict_get p d with Some x => JObj (dict_set p (overwrite rest value x) d) | None => msg end
  | _, _ => msg
  end.

Definition is_tool_call (d : pydict) : bool :=
  match dict_get "method" d with Some (JStr m) => bool_decide (m = "tools/call") | _ => false end.

(** What a rule that does not wait makes of a message. *)
Definition rewritten (f : ProxyFault) (msg : json) : result outcome :=
  if decide (f.(kind) = "drop_connection") then Ok None
  else if decide (f.(kind) = "inject_status") then
    Ok (Some match msg with
             | JObj d => match dict_get "id" d with Some id => error_reply f id | None => msg end
             | _ => msg
             end)
  else if decide (f.(kind) = "inject_prompt") then
    match msg with
    | JObj d => if is_tool_call d then v ← prompt_call f.(suffix) d; mret (Some v) else Ok (Some msg)
    | _ => Ok (Some msg)
    end
  else if decide (f.(kind) = "tool_shadow") then
    match msg with JObj d => v ← shadow_result f d; mret (Some v) | _ => Ok (Some msg) end
  else if decide (f.(kind) = "schema_drift") then
    match f.(drift_fn) with Some fn => v ← fn msg; mret (Some v) | None => Ok (Some msg) end
  else if decide (f.(kind) = "mangle_json") then
    Ok (Some match msg with
             | JObj _ => if decide (f.(json_path) = "") then msg
                         else overwrite (split_on "." f.(json_path)) f.(replacement) msg
             | _ => msg
             end)
  else Ok (Some msg).

(** [_apply_one] *)
Definition apply_one (f : ProxyFault) (msg : json) (rng : Rng) : P (result outcome * Rng) :=
  if decide (f.(kind) = "delay") then
    if decide (0 < f.(ms))%Z then
      let '(factor, rng) :=
        if Qeq_bool f.(jitter) 0 then (1%Q, rng)
        else let '(q, rng) := draw rng in ((1 + (- f.(jitter) + 2 * f.(jitter) * q))%Q, rng) in
      slept ← caught (invoke (Sleep (inject_Z f.(ms) * factor / 1000)) : P unit);
      mret (match slept with Ok _ => Ok (Some msg) | Err ex => Err ex end, rng)
    else mret (Ok (Some msg), rng)
  else mret (rewritten f msg, rng).

(** [_apply_faults]: whether a rule matches is asked of the message as it came. *)
Fixpoint apply_faults (faults : list ProxyFault) (msg out : json) (dir : direction) (rng : Rng)
    : P (result outcome * Rng) :=
  match faults with
  | [] => mret (Ok (Some out), rng)
  | f :: faults =>
    match matches f msg dir with
    | Err ex => mret (Err ex, rng)
    | Ok false => apply_faults faults msg out dir rng
    | Ok true =>
      let '(q, rng) := draw rng in
      if negb (Qle_bool q f.(probability)) then apply_faults faults msg out dir rng
      else
        r ← apply_one f out rng;
        match r with
        | (Ok (Some JNull), rng) => mret (Ok (Some JNull), rng)
        | (Ok (Some out), rng) => apply_faults faults msg out dir rng
        | stopped => mret stopped
        end
    end
  end.

(** ** The library *)

(** The proxy: whether it runs, the replies it owes, the messages it has passed on. *)
Record Proxy := mkProxy { up : bool; pending : list json; sent : list json; gen : Rng }.

(** An error or a result, and no method. *)
Definition is_reply (v : json) : bool :=
  match v with
  | JObj d => negb (bool_decide (is_Some (dict_get "method" d))) &&
              (bool_decide (is_Some (dict_get "error" d)) || bool_decide (is_Some (dict_get "result" d)))
  | _ => false
  end.

Variable faults : list ProxyFault.

(** [send_request]; writing to a pipe whose reader is gone is swallowed, so a message
    sent is a message written. *)
Definition send_request (msg : json) (p : Proxy) : P (result unit * Proxy) :=
  if negb p.(up) then mret (Err (Raised "RuntimeError" "proxy not started"), p)
  else
    r ← apply_faults faults msg msg ToUpstream p.(gen);
    mret match r with
    | (Err ex, g) => (Err ex, mkProxy p.(up) p.(pending) p.(sent) g)
    | (Ok None, g) => (Ok tt, mkProxy false p.(pending) p.(sent) g)
    | (Ok (Some JNull), g) => (Ok tt, mkProxy p.(up) p.(pending) p.(sent) g)
    | (Ok (Some v), g) =>
      (Ok tt, if is_reply v then mkProxy p.(up) (p.(pending) ++ [v]) p.(sent) g
              else mkProxy p.(up) p.(pending) (p.(sent) ++ [v]) g)
    end.

(** [recv_response], given what the upstream's next line is: [None] when none came in
    time, [Err] for one that is no JSON. *)
Definition recv_response (line : option (result json)) (p : Proxy) : P (result json * Proxy) :=
  match p.(pending) with
  | v :: rest => mret (Ok v, mkProxy p.(up) rest p.(sent) p.(gen))
  | [] =>
    if negb p.(up) then mret (Ok JNull, p)
    else match line with
         | None | Some (Err _) => mret (Ok JNull, p)
         | Some (Ok msg) =>
           r ← apply_faults faults msg msg FromUpstream p.(gen);
           mret match r with
           | (Err ex, g) => (Err ex, mkProxy p.(up) [] p.(sent) g)
           | (Ok None, g) => (Ok JNull, mkProxy false [] p.(sent) g)
           | (Ok (Some v), g) => (Ok v, mkProxy p.(up) [] p.(sent) g)
           end
         end
  end.

(** ** The pumps *)

(** One pump over the messages of its side, those that parse: what it writes to the
    other side, up to the first that tears it down or makes a rule raise. *)
Fixpoint pump (dir : direction) (msgs : list json) (rng : Rng) : P (list json) :=
  match msgs with
  | [] => mret []
  | msg :: msgs =>
    r ← apply_faults faults msg msg dir rng;
    match r with
    | (Ok (Some JNull), g) => pump dir msgs g
    | (Ok (Some v), g) => rest ← pump dir msgs g; mret (v :: rest)
    | _ => mret []
    end
  end.
End mcp.

(** ** The command line's rules *)

(** [_parse_kv] *)
Definition parse_kv (s : string) : list (string * string) :=
  foldl (fun out kv => if has_char "=" kv
                       then dict_set (strip (before_char "=" kv)) (strip (after_char "=" kv)) out else out)
    [] (split_on "," s).

(** The rules [main] makes of its options. *)
Definition cli_faults `{PyText} (delay_ms : Z) (tool_shadow_ inject_error : string) (drop_prob : Q)
    : result (list ProxyFault) :=
  let text s := map (fun kv : string * string => (kv.1, JStr kv.2)) (parse_kv s) in
  let spec := parse_kv inject_error in
  errors ← (if decide (inject_error = "") then Ok []
            else code ← int_text (JStr (default "-32000" (dict_get "code" spec)));
                 mret [inject_status (default "" (dict_get "method" spec)) code
                         (default "injected" (dict_get "message" spec)) 1]);
  mret ((if decide (0 < delay_ms)%Z then [proxy_delay "" delay_ms 0 1] else []) ++
        (if decide (tool_shadow_ = "") then [] else [tool_shadow "" (text tool_shadow_) 1]) ++ errors ++
        (if Qle_bool drop_prob 0 then [] else [drop_connection "" drop_prob])).

#[local] Arguments wp : simpl never.

Section mcp.
Context `{PyText} {Rng : Type}.
Variable draw : Rng -> Q * Rng.

(** What one request adds to the messages passed on and to the replies owed. *)
Definition accounted (p p' : Proxy (Rng:=Rng)) (s q : list json) : Prop :=
  p'.(sent) = p.(sent) ++ s /\ p'.(pending) = p.(pending) ++ q /\ length s + length q <= 1 /\
  Forall (fun v => is_reply v = false) s /\ Forall (fun v => is_reply v = true) q.

(** A request is passed on, or answered in the upstream's place, or neither; never both,
    never twice, and what is answered is an error or a result. *)
Theorem request_accounted faults msg p t r p' :
  exec (send_request draw faults msg p) t (Ok (r, p')) -> exists s q, accounted p p' s q.
Proof.
  intros He. refine (wp_exec _ (fun _ o => forall r p', o = Ok (r, p') -> exists s q, accounted p p' s q) t _ _ He r p' eq_refl).
  clear He r p' t.
  assert (Hnone : forall u g, exists s q, accounted p (mkProxy u p.(pending) p.(sent) g) s q)
    by (intros u g; exists [], []; unfold accounted; cbn; rewrite !app_nil_r; by repeat constructor).
  unfold send_request. destruct p as [up pend sent g]; cbn in *. destruct up; cbn [negb].
  2: { apply wp_ret. intros ? ? [= <- <-]. apply Hnone. }
  apply wp_bind, wp_any. intros t [[r g']|ex]; [|done]. apply wp_ret. intros r' p'.
  destruct r as [[v|]|ex]; [|intros [= <- <-]; apply Hnone..].
  destruct v; try (intros [= <- <-]; apply Hnone);
    (destruct (is_reply _) eqn:Hr; intros [= <- <-]; [eexists [], [_]|eexists [_], []];
     unfold accounted; cbn; rewrite ?app_nil_r; repeat split; repeat constructor; exact Hr).
Qed.

(** A rule with a prefix is for requests: a response names no method, so it passes such
    rules untouched, and no number is drawn for them. *)
Theorem scoped_rules_skip_responses faults d out dir rng t o :
  Forall (fun f => f.(path_prefix) <> "") faults -> dict_get "method" d = None ->
  exec (apply_faults draw faults (JObj d) out dir rng) t o -> t = [] /\ o = Ok (Ok (Some out), rng).
Proof.
  intros Hf Hd. revert t o. apply forall_exec. induction Hf as [|f faults Hp _ IH]; cbn [apply_faults]; [by apply wp_ret|].
  assert (Hm : matches f (JObj d) dir = Ok false).
  { unfold matches. rewrite decide_False by done. cbn. rewrite Hd. cbn. by destruct f.(path_prefix). }
  by rewrite Hm.
Qed.

(** A batch is left as it is by every rule but the two that do not look inside it. *)
Theorem batches_untouched f l :
  f.(kind) <> "drop_connection" -> f.(kind) <> "schema_drift" -> rewritten f (JList l) = Ok (Some (JList l)).
Proof. intros H1 H2. unfold rewritten. repeat case_decide; done. Qed.

(** A certain error rule answers a request in the upstream's place, under the request's
    id: the next receive hands it over. *)
Theorem injected_error_answers f d id p t o :
  f.(kind) = "inject_status" -> (1 <= f.(probability))%Q -> (forall g, (draw g).1 < 1)%Q ->
  matches f (JObj d) ToUpstream = Ok true -> dict_get "id" d = Some id -> p.(up) = true -> p.(pending) = [] ->
  exec (send_request draw [f] (JObj d) p) t o ->
  exists p', o = Ok (Ok tt, p') /\ t = [] /\ p'.(sent) = p.(sent) /\
    forall line, exists p2, recv_response draw [f] line p' = mret (Ok (error_reply f id), p2).
Proof.
  intros Hk Hp Hd Hm Hid Hup Hpend. revert t o. apply forall_exec. unfold send_request. rewrite Hup. cbn [negb apply_faults].
  rewrite Hm. specialize (Hd p.(gen)). destruct (draw p.(gen)) as [q g]. cbn in Hd.
  assert (Qle_bool q f.(probability) = true) as -> by (apply Qle_bool_iff; apply Qlt_le_weak; eapply Qlt_le_trans; eassumption).
  cbn [negb]. unfold apply_one. rewrite decide_False by (by rewrite Hk).
  assert (Hr : rewritten f (JObj d) = Ok (Some (error_reply f id))).
  { unfold rewritten. rewrite decide_False by (by rewrite Hk). rewrite decide_True by done. by rewrite Hid. }
  rewrite Hr. apply wp_bind, wp_bind, wp_ret. unfold error_reply at 1. cbn [apply_faults]. apply wp_ret, wp_ret.
  eexists. split_and!; [done|done|done|]. intros line. unfold recv_response. cbn. rewrite Hpend. cbn. by eexists.
Qed.

(** Without rules a pump writes every message but the nulls. *)
Theorem quiet_pump dir msgs rng t o :
  exec (pump draw [] dir msgs rng) t o ->
  t = [] /\ o = Ok (List.filter (fun v => match v with JNull => false | _ => true end) msgs).
Proof.
  revert t o. apply forall_exec. induction msgs as [|v msgs IH]; [by apply wp_ret|]. cbn [pump apply_faults].
  apply wp_bind, wp_ret. destruct v; [exact IH|..]; apply wp_bind; (eapply wp_mono; [|exact IH]);
    intros t o [-> ->]; by apply wp_ret.
Qed.
End mcp.

(** ** A proxy at work *)

Definition half_draw (g : nat) : Q * nat := ((1#2)%Q, S g).
Definition call_request : json :=
  JObj [("jsonrpc", JStr "2.0"); ("id", JInt 1); ("method", JStr "tools/call"); ("params", JObj [])].
Definition tools_reply : json :=
  JObj [("jsonrpc", JStr "2.0"); ("id", JInt 1); ("result", JObj [("tools", JList [])])].
Definition call_fails : ProxyFault := inject_status "tools/call" (-32603) "down" 1.
Definition idle_world (c : call) : M unit (answer c) := fun w => (Err TypeError, w).

(** Run as a command, the proxy sends the error it made up to the upstream, and the agent
    that asked gets no answer. *)
Lemma pumped_error_goes_upstream :
  (run idle_world (pump half_draw [call_fails] ToUpstream [call_request] 0) tt).1 =
    Ok [error_reply call_fails (JInt 1)].
Proof. vm_compute. reflexivity. Qed.
(** A tool rule that is scoped to the method that lists tools never fires. *)
Lemma scoped_shadow_never_fires :
  (run idle_world (pump half_draw [tool_shadow "tools/list" [("name", JStr "exfiltrate")] 1] FromUpstream [tools_reply] 0) tt).1 =
    Ok [tools_reply].
Proof. vm_compute. reflexivity. Qed.
(** A response whose result is not an object makes a tool rule raise, which ends the pump:
    the messages after it are not written. *)
Lemma null_result_ends_pump :
  (run idle_world (pump half_draw [tool_shadow "" [("name", JStr "exfiltrate")] 1] FromUpstream
     [JObj [("id", JInt 1); ("result", JNull)]; tools_reply] 0) tt).1 = Ok [].
Proof. vm_compute. reflexivity. Qed.
(** A rule of probability 0 fires when the number drawn is 0. *)
Lemma zero_probability_fires :
  (run idle_world (pump (fun g : nat => (0%Q, g)) [drop_connection "" 0] FromUpstream [tools_reply] 0) tt).1 = Ok [].
Proof. vm_compute. reflexivity. Qed.

(** ** Witnesses *)

Definition fresh : Proxy := mkProxy true [] [] 0.
Lemma request_accounted_witness :
  exists s q, accounted fresh (mkProxy true [error_reply call_fails (JInt 1)] [] 1) s q.
Proof.
  refine (@request_accounted nat half_draw [call_fails] call_request fresh
    (trace idle_world (send_request half_draw [call_fails] call_request fresh) tt) (Ok tt) _ _).
  refine (eq_rect _ (exec _ _) (run_exec idle_world (send_request half_draw [call_fails] call_request fresh) tt) _ _).
  vm_compute. reflexivity.
Defined.

(** ** The process and its pumps *)

(** [raw.rstrip("\r\n")] *)
Fixpoint rstrip_eol (s : string) : string :=
  match s with
  | EmptyString => EmptyString
  | String c s =>
    let r := rstrip_eol s in
    if bool_decide (c = "010"%char \/ c = "013"%char) && bool_decide (r = "") then "" else String c r
  end.

(** The proxy's lifetime: whether [_proc] is set, and the [_stop] event. *)
Record Life := mkLife { has_proc : bool; stop_set : bool }.
Definition not_started : Life := mkLife false false.

Definition TimeoutExpired : exn := Raised "TimeoutExpired" "".

(** [start]: the thread that mirrors stderr is left out. *)
Definition start_proxy (upstream_cmd : list string) (l : Life) : P Life :=
  if l.(has_proc) then mret l
  else _ ← (invoke (Spawn upstream_cmd) : P unit); mret (mkLife true l.(stop_set)).

(** [stop] *)
Definition end_proc : P unit :=
  try_ (_ ← (invoke ProcTerminate : P unit); _ ← (invoke (ProcWait (Some 2%Q)) : P Z); mret tt)
       (fun ex => if decide (ex = TimeoutExpired) then invoke ProcKill else mret tt).
Definition stop_proxy (l : Life) : P Life :=
  if l.(has_proc) then
    polled ← (invoke ProcPoll : P (option Z));
    _ ← match polled with None => end_proc | Some _ => mret tt end;
    mret (mkLife false true)
  else mret (mkLife false true).

(** [_readline_with_deadline] on POSIX, [fuel] turns of its loop; [None] is no line. *)
Fixpoint readline_with_deadline (fuel : nat) (deadline : Q) : P (option (option string)) :=
  match fuel with
  | O => mret None
  | S fuel =>
    now ← (invoke Monotonic : P Q);
    if Qle_bool (deadline - now) 0 then mret (Some None)
    else
      ready ← (invoke (SelectRead (deadline - now)) : P bool);
      if ready : bool then
        raw ← (invoke ReadRaw : P string);
        mret (Some (if decide (raw = "") then None else Some (rstrip_eol raw)))
      else readline_with_deadline fuel deadline
  end.

Section pumps.
Context `{PyText} {Rng : Type}.
Variable draw : Rng -> Q * Rng.
Variable faults : list ProxyFault.
(** [json.dumps(v, separators=(",", ":"))] *)
Variable compact : json -> string.

(** What the two threads share, and how far each has come. *)
Record Pumps := mkPumps { life : Life; up_ended : bool; down_ended : bool; rng : Rng }.

(** What a line is: blank, no JSON, or a message. *)
Inductive Line := Blank | NoJson | Message (msg : json).
Definition line_of (raw : string) : Line :=
  let s := rstrip_eol raw in
  if decide (s = "") then Blank else match loads s with Ok v => Message v | Err _ => NoJson end.

(** [finally: self._close_upstream_stdin()]: without a process there is no pipe to close. *)
Definition end_up (s : Pumps) : P Pumps :=
  _ ← (if s.(life).(has_proc) then try_ (invoke CloseStdin : P unit) (fun _ => mret tt) else mret tt);
  mret (mkPumps s.(life) true s.(down_ended) s.(rng)).
Definition end_down (s : Pumps) : Pumps := mkPumps s.(life) s.(up_ended) true s.(rng).

(** [self.stop()] in a pump; what it raises ends the pump like any other exception. *)
Definition tear_down (s : Pumps) : P Pumps :=
  l ← try_ (stop_proxy s.(life)) (fun _ => mret (mkLife s.(life).(has_proc) true));
  mret (mkPumps l s.(up_ended) s.(down_ended) s.(rng)).
Definition with_rng (g : Rng) (s : Pumps) : Pumps := mkPumps s.(life) s.(up_ended) s.(down_ended) g.

(** One line of the agent, in [_pump_agent_to_upstream]. *)
Definition up_line (raw : string) (s : Pumps) : P Pumps :=
  if s.(up_ended) then mret s
  else if s.(life).(stop_set) then end_up s
  else match line_of raw with
  | Blank | NoJson => mret s
  | Message msg =>
    r ← apply_faults draw faults msg msg ToUpstream s.(rng);
    match r with
    | (Err _, g) => end_up (with_rng g s)
    | (Ok None, g) => s ← tear_down (with_rng g s); end_up s
    | (Ok (Some JNull), g) => mret (with_rng g s)
    | (Ok (Some v), g) =>
      if s.(life).(has_proc) then
        w ← caught (invoke (WriteUpstream (compact v +:+ String "010" "")) : P unit);
        match w with Ok _ => mret (with_rng g s) | Err _ => end_up (with_rng g s) end
      else end_up (with_rng g s)
    end
  end.

(** One line of the upstream, in [_pump_upstream_to_agent]; what is no JSON passes as it is. *)
Definition write_agent (line : string) (s : Pumps) : P Pumps :=
  w ← caught (invoke (WriteAgent line) : P unit);
  mret match w with Ok _ => s | Err _ => end_down s end.
Definition down_line (raw : string) (s : Pumps) : P Pumps :=
  if s.(down_ended) then mret s
  else if s.(life).(stop_set) then mret (end_down s)
  else match line_of raw with
  | Blank => mret s
  | NoJson => write_agent raw s
  | Message msg =>
    r ← apply_faults draw faults msg msg FromUpstream s.(rng);
    match r with
    | (Err _, g) => mret (end_down (with_rng g s))
    | (Ok None, g) => s ← tear_down (with_rng g s); mret (end_down s)
    | (Ok (Some JNull), g) => mret (with_rng g s)
    | (Ok (Some v), g) => write_agent (compact v +:+ String "010" "") (with_rng g s)
    end
  end.

(** The threads at work: the lines as they come, from either side, each handled whole; the
    agent's end of file ends its pump. *)
Inductive Arrival := FromAgent (raw : string) | AgentEof | FromServer (raw : string).
Definition arrive (a : Arrival) (s : Pumps) : P Pumps :=
  match a with
  | FromAgent raw => up_line raw s
  | AgentEof => if s.(up_ended) then mret s else end_up s
  | FromServer raw => down_line raw s
  end.

(** [self._stop.set()] *)
Definition set_stop (s : Pumps) : Pumps := mkPumps (mkLife s.(life).(has_proc) true) s.(up_ended) s.(down_ended) s.(rng).

(** [run]: the pumps work while the upstream is waited for; [before] is what they take up
    until [_stop] is set on its exit, [later] what comes to them after that, at whose first
    line each ends.  Its exit status or what was raised, and the lifetime left. *)
Definition run_proxy (upstream_cmd : list string) (before later : list Arrival) (g : Rng) : P (result Z * Life) :=
  started ← caught (start_proxy upstream_cmd not_started);
  match started with
  | Err ex => mret (Err ex, not_started)
  | Ok l =>
    s ← fold_each before arrive (mkPumps l false false g);
    rc ← caught (invoke (ProcWait None) : P Z);
    match rc with
    | Err _ => mret (rc, s.(life))
    | Ok _ => s ← fold_each later arrive (set_stop s); mret (rc, s.(life))
    end
  end.
End pumps.

(** [main]: the rules of the options, the run, and [stop] at the end of it, whatever it
    raised. *)
Definition mcp_main `{PyText} {Rng} (draw : Rng -> Q * Rng) (compact : json -> string) (shlex : string -> list string)
    (upstream tool_shadow_ inject_error : string) (delay_ms : Z) (drop_prob : Q) (before later : list Arrival) (g : Rng) : P Z :=
  faults ← lift (cli_faults delay_ms tool_shadow_ inject_error drop_prob);
  '(rc, l) ← run_proxy draw faults compact (shlex upstream) before later g;
  _ ← stop_proxy l; lift rc.

(** ** What the two sides see *)

(** The lines written to the server and to the agent. *)
Definition to_server (t : list (event answer)) : list string :=
  flat_map (fun e : event answer => match e.(ev_call) with WriteUpstream l => [l] | _ => [] end) t.
Definition to_agent (t : list (event answer)) : list string :=
  flat_map (fun e : event answer => match e.(ev_call) with WriteAgent l => [l] | _ => [] end) t.
Definition taken (e : event answer) : Prop :=
  match e with
  | Ev (WriteUpstream _) (Err _) | Ev (WriteAgent _) (Err _) => False
  | _ => True
  end.
Definition unwritten (e : event answer) : Prop :=
  match e.(ev_call) with WriteUpstream _ | WriteAgent _ => False | _ => True end.

Section sides.
Context `{PyText} {Rng : Type}.
Variable draw : Rng -> Q * Rng.
Variable faults : list ProxyFault.
Variable compact : json -> string.

(** What each side is owed of what the other side wrote, without rules. *)
Definition passed (msg : json) : list string :=
  match msg with JNull => [] | v => [compact v +:+ String "010" ""] end.
Fixpoint agent_said (arrivals : list Arrival) : list string :=
  match arrivals with
  | [] | AgentEof :: _ => []
  | FromAgent raw :: rest =>
    match line_of raw with Message msg => passed msg | _ => [] end ++ agent_said rest
  | FromServer _ :: rest => agent_said rest
  end.
Fixpoint server_said (arrivals : list Arrival) : list string :=
  match arrivals with
  | [] => []
  | FromServer raw :: rest =>
    match line_of raw with Message msg => passed msg | NoJson => [raw] | Blank => [] end ++ server_said rest
  | _ :: rest => server_said rest
  end.

Lemma to_server_app t t' : to_server (t ++ t') = to_server t ++ to_server t'.
Proof. apply flat_map_app. Qed.
Lemma to_agent_app t t' : to_agent (t ++ t') = to_agent t ++ to_agent t'.
Proof. apply flat_map_app. Qed.

(** One arrival, without rules: what is written is what is owed. *)
Definition running (s : Pumps (Rng:=Rng)) : Prop := s.(life) = mkLife true false.
Lemma quiet_arrival a s :
  running s ->
  wp (arrive draw [] compact a s) (fun t o => exists s', o = Ok s' /\ running s' /\
    (Forall taken t -> s.(down_ended) = false -> s'.(down_ended) = false /\
       s'.(up_ended) = (s.(up_ended) || match a with AgentEof => true | _ => false end) /\
       to_server t = (if s.(up_ended) then [] else agent_said [a]) /\ to_agent t = server_said [a])).
Proof.
  destruct s as [l u d g]; unfold running; cbn. intros ->.
  assert (Hbad : forall c e t (G : Prop), taken (Ev c (Err e)) = False -> Forall taken (Ev c (Err e) :: t) -> G)
    by (intros c e t G Hc Hf; apply Forall_cons in Hf as [Hf _]; by rewrite Hc in Hf).
  destruct a as [raw| |raw]; cbn [arrive]; [unfold up_line; cbn|cbn|unfold down_line; cbn].
  - destruct u; [|destruct (line_of raw) as [| |[]]]; cbn; try (eexists; split_and!; by auto);
      intros [[]|e]; cbn; try (eexists; split_and!; by auto);
      intros r; destruct r; cbn; eexists; split_and!; try done; intros Hf; by eapply Hbad in Hf.
  - destruct u; cbn; [eexists; split_and!; by auto|]. intros [[]|e]; cbn; eexists; split_and!; by auto.
  - destruct d; cbn; [eexists; split_and!; by auto|].
    destruct (line_of raw) as [| |[]]; cbn; try (eexists; split_and!; try done; by destruct u);
      intros [[]|e]; cbn; eexists; split_and!; try done;
      first [by intros Hf; eapply Hbad in Hf|by destruct u].
Qed.

Lemma quiet_arrivals arrivals s :
  running s ->
  wp (fold_each arrivals (arrive draw [] compact) s) (fun t o => exists s', o = Ok s' /\
    (Forall taken t -> s.(down_ended) = false ->
       to_server t = (if s.(up_ended) then [] else agent_said arrivals) /\ to_agent t = server_said arrivals)).
Proof.
  revert s. induction arrivals as [|a arrivals IH]; intros s Hr; cbn [fold_each].
  { apply wp_ret. exists s. split; [done|]. by destruct (up_ended s). }
  apply wp_bind. eapply wp_mono; [|by apply quiet_arrival]. intros t1 ? (s1 & -> & Hr1 & H1).
  eapply wp_mono; [|by apply IH]. intros t2 ? (s2 & -> & H2). exists s2. split; [done|].
  rewrite Forall_app, to_server_app, to_agent_app. intros [Hf1 Hf2] Hd.
  destruct (H1 Hf1 Hd) as (Hd1 & Hu & -> & ->), (H2 Hf2 Hd1) as [-> ->]. rewrite Hu.
  destruct (up_ended s), a; cbn; by rewrite ?app_nil_r.
Qed.

(** Once the stop is set nothing is written. *)
Lemma stopped_arrival a s :
  s.(life).(stop_set) = true ->
  wp (arrive draw [] compact a s) (fun t o => Forall unwritten t /\ exists s', o = Ok s' /\ s'.(life) = s.(life)).
Proof.
  intros Hs. assert (Hend : wp (end_up s) (fun t o => Forall unwritten t /\ exists s', o = Ok s' /\ s'.(life) = s.(life))).
  { unfold end_up. destruct (has_proc _); [|by split; [apply Forall_nil_2|eexists]].
    intros [[]|e]; (split; [by repeat (apply Forall_cons; split; [exact I|])|by eexists]). }
  assert (Hstay : forall s' : Pumps (Rng:=Rng), s'.(life) = s.(life) -> wp (mret s') (fun t o => Forall unwritten t /\ exists s', o = Ok s' /\ s'.(life) = s.(life)))
    by (intros s' Hl; split; [apply Forall_nil_2|by exists s']).
  destruct a as [raw| |raw]; cbn [arrive].
  - unfold up_line. rewrite Hs. destruct (up_ended s); [by apply Hstay|done].
  - destruct (up_ended s); [by apply Hstay|done].
  - unfold down_line. rewrite Hs. destruct (down_ended s); by apply Hstay.
Qed.
Lemma stopped_arrivals arrivals s :
  s.(life).(stop_set) = true ->
  wp (fold_each arrivals (arrive draw [] compact) s) (fun t o => Forall unwritten t /\ exists s', o = Ok s').
Proof.
  revert s. induction arrivals as [|a arrivals IH]; intros s Hs; cbn [fold_each]; [by split; [apply Forall_nil_2|eexists]|].
  apply wp_bind. eapply wp_mono; [|by apply stopped_arrival]. intros t1 ? (H1 & s1 & -> & Hl).
  eapply wp_mono; [|apply IH; by rewrite Hl]. intros t2 o (H2 & Ho). split; [by apply Forall_app|done].
Qed.
Lemma unwritten_sides t : Forall unwritten t -> to_server t = [] /\ to_agent t = [].
Proof.
  induction 1 as [|[c r] t Hu _ [IH1 IH2]]; [done|]. cbn. unfold to_server, to_agent in *. rewrite IH1, IH2.
  by destruct c.
Qed.

(** C32: Without rules the proxy is transparent while it runs: however the lines of the two
    sides interleave, each side reads the other's messages taken up before the server's
    exit was noticed, in order, none lost and none twice, as long as the pipes take what is
    written; and what comes after that exit, in either direction, is not passed on. *)
Theorem quiet_proxy_transparent upstream_cmd before later g t rc l :
  exec (run_proxy draw [] compact upstream_cmd before later g) t (Ok (Ok rc, l)) -> Forall taken t ->
  to_server t = agent_said before /\ to_agent t = server_said before.
Proof.
  intros He. refine (wp_exec _ (fun t o => forall rc l, o = Ok (Ok rc, l) -> Forall taken t -> _) t _ _ He rc l eq_refl).
  clear He t rc l. unfold run_proxy, start_proxy. cbn. intros [[]|e]; cbn; [|by intros ? ?].
  apply wp_bind. eapply wp_mono; [|by apply quiet_arrivals]. intros t ? (s & -> & Ht). cbn. intros r.
  destruct r as [rc|e]; cbn; [|by intros ? ?]. apply wp_bind.
  eapply wp_mono; [|by apply (stopped_arrivals later (set_stop s))].
  intros t' ? (Hu & s' & ->) ? ? [= -> <-]. apply unwritten_sides in Hu as [Hs' Ha'].
  rewrite Forall_cons, Forall_app. intros (_ & Hf & _).
  destruct (Ht Hf eq_refl) as [H1 H2]; cbn in H1, H2. rewrite <- H1, <- H2. cbn.
  rewrite app_nil_r, to_server_app, to_agent_app. cbn. unfold to_server, to_agent in *. by rewrite Hs', Ha', !app_nil_r.
Qed.

(** ** Tear-down *)

Definition polls (e : event answer) : bool := match e.(ev_call) with ProcPoll => true | _ => false end.
Definition alive (e : event answer) : bool := match e with Ev ProcPoll (Ok None) => true | _ => false end.
Definition terminates (e : event answer) : bool := match e.(ev_call) with ProcTerminate => true | _ => false end.
Definition overran (e : event answer) : bool :=
  match e with Ev (ProcWait (Some _)) (Err ex) => bool_decide (ex = TimeoutExpired) | _ => false end.
Definition spawned (e : event answer) : bool := match e with Ev (Spawn _) (Ok _) => true | _ => false end.
Definition kills (e : event answer) : bool := match e.(ev_call) with ProcKill => true | _ => false end.

(** A server found running was told to terminate, and one that did not end in time was
    killed. *)
Definition settled (t : list (event answer)) : Prop :=
  implb (existsb alive t) (existsb terminates t) && implb (existsb overran t) (existsb kills t) = true.
#[export] Instance settled_closed : Closed settled.
Proof.
  split; [done|]. unfold settled. intros t t'. rewrite !existsb_app.
  destruct (existsb alive t), (existsb alive t'), (existsb terminates t), (existsb terminates t'),
    (existsb overran t), (existsb overran t'), (existsb kills t), (existsb kills t'); done.
Qed.

(** Once the server has been asked whether it still runs, which only [stop] does,
    nothing more is written. *)
Fixpoint silent_after (t : list (event answer)) : Prop :=
  match t with [] => True | e :: t => (polls e = true -> Forall unwritten t) /\ silent_after t end.
Lemma unwritten_silent t : Forall unwritten t -> silent_after t.
Proof. induction 1; by split. Qed.
Lemma silent_app t t' :
  silent_after t -> silent_after t' -> (existsb polls t = true -> Forall unwritten t') -> silent_after (t ++ t').
Proof.
  induction t as [|e t IH]; [done|]. cbn. intros [He Ht] Ht' Hp. split; [|apply IH; auto].
  - intros Hpe. apply Forall_app. split; [auto|]. apply Hp. by rewrite Hpe.
  - intros Hq. apply Hp. by rewrite Hq, orb_true_r.
Qed.

(** What a part of the proxy may do: it stops the server properly, is silent after it,
    writes nothing if it starts stopped, and ends stopped if it asked. *)
Definition orderly (before after : bool) (t : list (event answer)) : Prop :=
  settled t /\ silent_after t /\ (before = true -> Forall unwritten t /\ after = true) /\
  (existsb polls t = true -> after = true).
Lemma orderly_app b1 b2 b3 t1 t2 : orderly b1 b2 t1 -> orderly b2 b3 t2 -> orderly b1 b3 (t1 ++ t2).
Proof.
  intros (S1 & Q1 & B1 & A1) (S2 & Q2 & B2 & A2). split_and!.
  - by apply closed_app.
  - apply silent_app; [done..|]. intros Hp. by apply B2, A1.
  - intros Hb. destruct (B1 Hb) as [U1 ->], (B2 eq_refl) as [U2 ->]. split; [by apply Forall_app|done].
  - rewrite existsb_app, orb_true_iff. intros [Hp|Hp]; [by apply B2, A1|by apply A2].
Qed.

(** What concerns neither the pipes nor the process. *)
Definition neutral (e : event answer) : Prop :=
  match e.(ev_call) with
  | WriteUpstream _ | WriteAgent _ | ProcPoll | ProcTerminate | ProcWait (Some _) | ProcKill => False
  | _ => True
  end.
Lemma neutral_orderly b b' t : Forall neutral t -> (b = true -> b' = true) -> orderly b b' t.
Proof.
  intros Hn Hb. assert (Forall unwritten t) as Hu by (eapply Forall_impl; [exact Hn|]; by intros [[]]).
  assert (Hnone : forall f, (forall e, neutral e -> f e = false) -> existsb f t = false).
  { intros f Hf. induction Hn as [|e t He Hn IH]; [done|]. cbn. rewrite Hf by done. apply IH. by inversion Hu. }
  unfold orderly, settled. rewrite !Hnone by (intros [[] []]; cbn; repeat case_match; done).
  split_and!; [done|by apply unwritten_silent|auto|done].
Qed.

Lemma apply_faults_neutral rules msg out dir g :
  wp (apply_faults draw rules msg out dir g) (fun t o => Forall neutral t /\ exists r, o = Ok r).
Proof.
  revert out g. induction rules as [|f rules IH]; intros out g; cbn [apply_faults]; [apply wp_ret; by eauto|].
  destruct (matches _ _ _) as [[]|]; [|by apply IH|apply wp_ret; by eauto].
  destruct (draw g) as [q g1]. destruct (negb _); [by apply IH|].
  assert (wp (apply_one draw f out g1) (fun t o => Forall neutral t /\ exists r, o = Ok r)) as Hone.
  { unfold apply_one. repeat case_decide; [|apply wp_ret; by eauto..].
    case_match; case_match; (intros [[]|e]; cbn; repeat constructor; by eauto). }
  apply wp_bind. eapply wp_mono; [|exact Hone]. intros t o (Hn & [[[v|]|ex] g2] & ->); [|apply wp_ret; rewrite app_nil_r; by eauto..].
  destruct v; try (eapply wp_mono; [|by apply IH]; intros t' o' (Hn' & Ho); split; [by apply Forall_app|done]).
  apply wp_ret. rewrite app_nil_r. eauto.
Qed.

Lemma stop_orderly l :
  wp (stop_proxy l) (fun t o => (forall b, orderly b true t) /\ (l.(has_proc) = true -> existsb polls t = true) /\
    existsb spawned t = false /\ forall l', o = Ok l' -> l' = mkLife false true).
Proof.
  assert (Hall : forall t, settled t -> Forall unwritten t -> forall b, orderly b true t)
    by (intros t Hs Hu b; split_and!; try done; by apply unwritten_silent).
  destruct l as [[] st]; unfold stop_proxy; cbn; [|split_and!; [by apply Hall|done|done|by intros ? [= <-]]].
  intros [[z|]|e]; cbn; repeat (try (intros r; destruct r as [?|?]); cbn; try case_decide; cbn).
  all: first [apply wp_ret|cbn [wp]]; split_and!; [apply Hall| | |]; try (by intros ? [= <-]); try done.
  all: try (repeat (apply Forall_cons; split; [exact I|]); by apply Forall_nil_2).
  all: unfold settled; cbn; by case_bool_decide.
Qed.
(** What one step of a pump keeps: a proxy that still has its process was not asked about
    it, unless asking failed. *)
Definition stepped (s : Pumps (Rng:=Rng)) (t : list (event answer)) (o : result (Pumps (Rng:=Rng))) : Prop :=
  exists s', o = Ok s' /\ orderly s.(life).(stop_set) s'.(life).(stop_set) t /\
    (s.(life).(has_proc) = true -> s'.(life).(has_proc) = true \/ existsb polls t = true).

Lemma stays s s' t : Forall neutral t -> s'.(life) = s.(life) -> stepped s t (Ok s').
Proof. intros Hn Hl. exists s'. rewrite Hl. split_and!; [done|by apply neutral_orderly|auto]. Qed.
Lemma stepped_app s s1 t1 t2 o : stepped s t1 (Ok s1) -> stepped s1 t2 o -> stepped s (t1 ++ t2) o.
Proof.
  intros (? & [= <-] & H1 & P1) (s2 & -> & H2 & P2). exists s2. split_and!; [done|by eapply orderly_app|].
  rewrite existsb_app, orb_true_iff. intros Hs. destruct (P1 Hs) as [Hp|Hp]; [destruct (P2 Hp)|]; auto.
Qed.
Lemma end_up_stays s : wp (end_up s) (stepped s).
Proof.
  unfold end_up. destruct (has_proc _); [|by apply stays].
  intros r; destruct r as [[]|e]; cbn; apply stays; by repeat constructor.
Qed.
Lemma tear_down_steps s : wp (tear_down s) (stepped s).
Proof.
  unfold tear_down. apply wp_bind, wp_try. eapply wp_mono; [|apply stop_orderly].
  intros t [l|e] (Ho & Hp & _ & Hl); cbn beta iota.
  - apply wp_ret. rewrite app_nil_r, (Hl l eq_refl). eexists. split_and!; [done|apply Ho|]. auto.
  - apply wp_ret, wp_ret. rewrite !app_nil_r. eexists. split_and!; [done|apply Ho|]. by left.
Qed.

Lemma writes c r s s' :
  match c with WriteUpstream _ | WriteAgent _ => True | _ => False end ->
  s.(life).(stop_set) = false -> s'.(life) = s.(life) -> stepped s [Ev c r] (Ok s').
Proof.
  intros Hc Hs Hl. exists s'. rewrite Hl, Hs. unfold orderly, settled. destruct c; try done; cbn; split_and!; by auto.
Qed.
Lemma wp_stepped_after s s1 t1 (p : P Pumps) :
  stepped s t1 (Ok s1) -> wp p (stepped s1) -> wp p (fun t => stepped s (t1 ++ t)).
Proof. intros H1. apply wp_mono. intros t o. by apply stepped_app. Qed.

Lemma up_line_steps raw s : wp (up_line draw faults compact raw s) (stepped s).
Proof.
  unfold up_line. destruct (up_ended s); [by apply wp_ret, stays|].
  destruct (stop_set _) eqn:Hs; [apply end_up_stays|]. destruct (line_of raw); [by apply wp_ret, stays..|].
  apply wp_bind. eapply wp_mono; [|apply apply_faults_neutral]. intros t o (Hn & [[[v|]|ex] g] & ->).
  3: eapply wp_stepped_after; [by apply (stays _ (with_rng g s))|apply end_up_stays].
  2: { eapply wp_stepped_after; [by apply (stays _ (with_rng g s))|]. apply wp_bind.
       eapply wp_mono; [|apply tear_down_steps]. intros t' o' (s' & -> & Ht). eapply wp_stepped_after; [|apply end_up_stays].
       by exists s'. }
  assert (Hgo : wp (if (with_rng g s).(life).(has_proc) then
      w ← caught (invoke (WriteUpstream (compact v +:+ String "010" "")) : P unit);
      match w with Ok _ => mret (with_rng g s) | Err _ => end_up (with_rng g s) end
    else end_up (with_rng g s)) (stepped (with_rng g s))).
  { destruct (has_proc _); [|apply end_up_stays]. intros [[]|e].
    - by apply writes.
    - refine (wp_stepped_after _ _ [Ev _ _] _ _ (end_up_stays _)). by apply writes. }
  destruct v; (eapply wp_stepped_after; [by apply (stays _ (with_rng g s))|]); try exact Hgo. by apply wp_ret, stays.
Qed.

Lemma down_line_steps raw s : wp (down_line draw faults compact raw s) (stepped s).
Proof.
  unfold down_line. destruct (down_ended s); [by apply wp_ret, stays|].
  destruct (stop_set _) eqn:Hs; [by apply wp_ret, stays|].
  assert (Hgo : forall line s, s.(life).(stop_set) = false -> wp (write_agent line s) (stepped s)).
  { intros line s' Hs'. intros [[]|e]; by apply writes. }
  destruct (line_of raw); [by apply wp_ret, stays|by apply Hgo|].
  apply wp_bind. eapply wp_mono; [|apply apply_faults_neutral]. intros t o (Hn & [[[v|]|ex] g] & ->).
  3: apply wp_ret; rewrite app_nil_r; by apply stays.
  2: { eapply wp_stepped_after; [by apply (stays _ (with_rng g s))|]. apply wp_bind.
       eapply wp_mono; [|apply tear_down_steps]. intros t' o' (s' & -> & Ht). apply wp_ret. rewrite app_nil_r. by exists (end_down s'). }
  destruct v; (eapply wp_stepped_after; [by apply (stays _ (with_rng g s))|]); try (by apply Hgo). by apply wp_ret, stays.
Qed.

Lemma arrivals_step arrivals s : wp (fold_each arrivals (arrive draw faults compact) s) (stepped s).
Proof.
  revert s. induction arrivals as [|a arrivals IH]; intros s; [by apply wp_ret, stays|].
  cbn [fold_each]. apply wp_bind. eapply wp_mono with (P := stepped s).
  { intros t o (s' & -> & Ht). eapply wp_stepped_after; [|apply IH]. by exists s'. }
  destruct a; cbn [arrive]; [apply up_line_steps| |apply down_line_steps].
  destruct (up_ended s); [by apply wp_ret, stays|apply end_up_stays].
Qed.

(** The run as a whole: a server that was started is still held, or was asked about. *)
Lemma run_proxy_ran upstream_cmd before later g :
  wp (run_proxy draw faults compact upstream_cmd before later g) (fun t o => exists rc l, o = Ok (rc, l) /\
    orderly false l.(stop_set) t /\ (existsb spawned t = true -> l.(has_proc) = true \/ existsb polls t = true)).
Proof.
  unfold run_proxy, start_proxy. cbn [not_started has_proc]. intros [[]|e]; cbn.
  2: { exists (Err e), not_started. split_and!; [done|by apply neutral_orderly; [repeat constructor|]|done]. }
  apply wp_bind. eapply wp_mono; [|apply arrivals_step]. intros t ? (s & -> & Ho & Hp). cbn. intros rc.
  pose proof (orderly_app _ _ _ [Ev (Spawn upstream_cmd) (Ok tt)] _ (neutral_orderly false false [Ev (Spawn upstream_cmd) (Ok tt)] ltac:(by repeat constructor) id) Ho) as Hot.
  assert (H1 : forall b, (s.(life).(stop_set) = true -> b = true) ->
    orderly false b (([Ev (Spawn upstream_cmd) (Ok tt)] ++ t) ++ [Ev (ProcWait None) rc])).
  { intros b Hb. eapply orderly_app; [exact Hot|]. apply neutral_orderly; [by repeat constructor|done]. }
  cbn in H1. destruct rc as [rc|e]; cbn.
  - apply wp_bind. eapply wp_mono; [|apply arrivals_step]. intros t2 ? (s2 & -> & Ho2 & Hp2). cbn.
    exists (Ok rc), s2.(life). split; [done|]. rewrite app_nil_r. split.
    + change (orderly false s2.(life).(stop_set) ((Ev (Spawn upstream_cmd) (Ok tt) :: t) ++ Ev (ProcWait None) (Ok rc) :: t2)).
      change (Ev (ProcWait None) (Ok rc) :: t2) with ([Ev (ProcWait None) (Ok rc)] ++ t2). rewrite app_assoc.
      eapply orderly_app; [apply (H1 true)|]; done.
    + intros _. cbn. rewrite existsb_app. cbn. destruct (Hp eq_refl) as [Hh|Hq]; [|right; by rewrite Hq].
      destruct (Hp2 Hh) as [?|Hq]; [by left|right]. by rewrite Hq, orb_true_r.
  - eexists _, _; (split_and!; [done|by apply H1|]); cbn; intros _;
    rewrite existsb_app; destruct (Hp eq_refl) as [?|Hq]; auto; right; by rewrite Hq.
Qed.
End sides.

(** The command leaves no server behind: one it started is asked about, told to terminate
    if it runs, and killed if it does not end in time, whatever the rules, the pipes and
    the wait did; and once it has been asked about, neither side is written to. *)
Theorem main_stops_the_server `{PyText} {Rng} (draw : Rng -> Q * Rng) compact shlex upstream shadow err delay_ms drop_prob before later g t o :
  exec (mcp_main draw compact shlex upstream shadow err delay_ms drop_prob before later g) t o ->
  settled t /\ silent_after t /\ (existsb spawned t = true -> existsb polls t = true).
Proof.
  revert t o. apply forall_exec. unfold mcp_main.
  destruct (cli_faults delay_ms shadow err drop_prob) as [faults|e]; [|done]. cbn [lift].
  apply (wp_bind (mret faults)), wp_ret, wp_bind. eapply wp_mono; [|apply run_proxy_ran].
  intros t ? (rc & l & -> & Ho & Hs). apply wp_bind. eapply wp_mono; [|apply stop_orderly].
  intros t2 o (Ho2 & Hp & Hns & _). pose proof (orderly_app _ _ _ _ _ Ho (Ho2 _)) as (H1 & H2 & _).
  assert (Hend : existsb spawned (t ++ t2) = true -> existsb polls (t ++ t2) = true).
  { rewrite !existsb_app, Hns, orb_false_r. intros Hsp. destruct (Hs Hsp) as [Hl|Hq]; [by rewrite (Hp Hl), orb_true_r|by rewrite Hq]. }
  destruct o as [l'|e]; [|done]. destruct rc; cbv [wp lift]; rewrite app_nil_r; done.
Qed.

(** A reply that does not come is given up at the deadline: when a wait that brought
    nothing took at least as long as it was given, the second look at the clock is the
    last. *)
Theorem silence_gives_up deadline t o :
  exec (readline_with_deadline 2 deadline) t o ->
  (forall now now2 rest, t = Ev Monotonic (Ok now) :: Ev (SelectRead (deadline - now)) (Ok false) :: Ev Monotonic (Ok now2) :: rest ->
     now + (deadline - now) <= now2)%Q ->
  o <> Ok None.
Proof.
  intros He. pattern t, o. refine (wp_exec _ _ t o _ He). clear t o He. cbn. intros [now|e]; [|done]. cbn. destruct (Qle_bool _ _); [done|].
  intros [[]|e]; cbn; [by intros [raw|e]| |done].
  intros [now2|e]; [|done]. cbn. destruct (Qle_bool (deadline - now2) 0) eqn:Hle; [done|].
  intros [[]|e]; cbn; [by intros [raw|e]| |done]. intros Hw.
  specialize (Hw _ _ _ eq_refl). change (answer Monotonic) with Q in *.
  assert (Hz : (deadline - now2 <= 0)%Q).
  { apply (Qplus_le_l _ _ now2). ring_simplify. eapply Qle_trans; [|exact Hw]. ring_simplify. apply Qle_refl. }
  apply Qle_bool_iff in Hz. congruence.
Qed.

(** ** Witnesses: a proxy between an agent and a server *)

Definition word_text : PyText := {|
  dumps := fun _ => "{}"; loads := fun s => if decide (s = "null") then Ok JNull else if decide (s = "log") then Err TypeError else Ok (JStr s);
  str_exn := fun _ => ""; exn_name := fun _ => ""; exn_details := fun _ => ""; str_json := fun _ => "";
  int_text := fun _ => Ok 0%Z; float_text := fun _ => Ok 0%Q; repr_str := fun s => s; from_markup := fun s => Ok s |}.
Definition word_compact (v : json) : string := match v with JStr s => s | _ => "{}" end.
Definition chat : list Arrival :=
  [FromAgent "ping"; FromServer "log"; FromAgent ""; FromServer "pong"; FromAgent "null"; FromAgent "bye"; AgentEof; FromServer "done"].
(** Pipes that take everything, a server that runs until it is told to end, a clock. *)
Definition pipes (c : call) : M Q (answer c) := fun w =>
  match c return result (answer c) * Q with
  | Spawn _ | ProcTerminate | ProcKill | WriteUpstream _ | WriteAgent _ | CloseStdin => (Ok tt, w)
  | ProcPoll => (Ok None, w)
  | ProcWait None => (Ok 0%Z, w)
  | ProcWait (Some _) => (Err TimeoutExpired, w)
  | Monotonic => (Ok w, w)
  | SelectRead d => (Ok false, (w + d)%Q)
  | _ => (Err TypeError, w)
  end.
Definition eol : string := String "010" "".

(** The server's last line comes to its pump after the stop. *)
Definition quiet_run := run_proxy (H := word_text) half_draw [] word_compact ["server"] chat [FromServer "late"; FromAgent "more"] 0.
Lemma quiet_proxy_transparent_witness :
  to_server (trace pipes quiet_run 0%Q) = ["ping" +:+ eol; "bye" +:+ eol] /\
  to_agent (trace pipes quiet_run 0%Q) = ["log"; "pong" +:+ eol; "done" +:+ eol].
Proof.
  refine (@quiet_proxy_transparent word_text nat half_draw word_compact ["server"] chat [FromServer "late"; FromAgent "more"] 0 (trace pipes quiet_run 0%Q) 0%Z (mkLife true true) _ _).
  - refine (eq_rect _ (exec _ _) (run_exec pipes quiet_run 0%Q) _ _). vm_compute. reflexivity.
  - vm_compute. repeat constructor.
Defined.

(** A server that answers and exits: its answer, in the pipe but not yet taken up when the
    exit is noticed, does not reach the agent. *)
Lemma answer_before_exit_is_lost :
  to_agent (trace pipes (run_proxy (H := word_text) half_draw [] word_compact ["server"]
    [FromAgent "ping"] [FromServer "pong"] 0) 0%Q) = [].
Proof. vm_compute. reflexivity. Qed.

(** A drop rule: the server is asked, told, and killed for not ending in time; the lines
    that come after are not passed on. *)
Definition dropped_main := mcp_main (H := word_text) half_draw word_compact (fun s => [s]) "server" "" "" 0 1 chat [] 0.
Lemma main_stops_the_server_witness :
  map ev_call (trace pipes dropped_main 0%Q) =
    [Spawn ["server"]; ProcPoll; ProcTerminate; ProcWait (Some 2%Q); ProcKill; ProcWait None] /\
  settled (trace pipes dropped_main 0%Q) /\ silent_after (trace pipes dropped_main 0%Q) /\
  (existsb spawned (trace pipes dropped_main 0%Q) = true -> existsb polls (trace pipes dropped_main 0%Q) = true).
Proof.
  split; [vm_compute; reflexivity|].
  apply (@main_stops_the_server word_text nat half_draw word_compact (fun s => [s]) "server" "" "" 0%Z 1%Q chat [] 0 _ _
    (run_exec pipes dropped_main 0%Q)).
Defined.

(** The clock's answer in a trace. *)
Definition reading (e : event answer) : option Q :=
  match e with Ev Monotonic (Ok q) => Some q | _ => None end.
Lemma silence_gives_up_witness : (run pipes (readline_with_deadline 2 5) 0%Q).1 <> Ok None.
Proof.
  apply (silence_gives_up 5 (trace pipes (readline_with_deadline 2 5) 0%Q) _ (run_exec pipes _ 0%Q)).
  intros now now2 rest Heq. apply (f_equal (omap reading)) in Heq.
  replace (omap reading _) with [0%Q; 5%Q] in Heq by reflexivity. cbn in Heq.
  injection Heq as <- <- _. by apply Qle_bool_iff.
Defined.
