(* ===== verification/ExampleBank.v ===== *)
(** * ExampleBank: a bank that deduplicates nothing, [examples/non_idempotent_bank/]

    The file-backed ledger of [bank.py] and the connector of [connectors.py], as
    operations on the ledger file.

    The outbox dispatchers of [SdkOutbox] on the bank of [ExampleBank]: how often a wire
    lands whatever the interleaving and the faults, what the reconciler finds out about it,
    and when the business key of the example tells wires apart. *)
From Stdlib Require Import QArith.
From S2P Require Import Prelude Scenarios Contracts Client SdkSamples SdkOutbox OutboxProtocol.
From S2P Require Import SdkOutboxTheorems SdkReactors.
From S2P Require Identity.
#[local] Open Scope Z_scope.
#[local] Open Scope nat_scope.

(** ** [FakeNonIdempotentBank] *)

(** The ledger file: not there or no JSON text, empty, or holding a JSON value. *)
Inductive BankFile := Unreadable | EmptyFile | Holds (v : json).

(** [json.loads(self.path.read_text() or "[]")], and [[]] when that raises *)
Definition _load (f : BankFile) : json :=
  match f with Holds v => v | EmptyFile | Unreadable => JList [] end.
Definition _save (rows : json) : BankFile := Holds rows.

(** [rows.append(row)]: only a list has the method. *)
Definition py_append (rows row : json) : result json :=
  match rows with JList l => Ok (JList (l ++ [row])) | _ => Err AttributeError end.

Definition wire_row (wire_id : string) (account amount_minor beneficiary date : json)
    (business_key : string) : json :=
  JObj [("wire_id", JStr wire_id); ("account", account); ("amount_minor", amount_minor);
        ("beneficiary", beneficiary); ("date", date); ("business_key", JStr business_key)].

(** [hex] is [uuid.uuid4().hex[:8]]; the lock makes the method one step of its process. *)
Definition wire (hex : string) (account amount_minor beneficiary date : json)
    (business_key : string) : M BankFile string := fun f =>
  let wire_id := "wire-" +:+ hex in
  match py_append (_load f) (wire_row wire_id account amount_minor beneficiary date business_key) with
  | Ok rows => (Ok wire_id, _save rows)
  | Err ex => (Err ex, f)
  end.

(** [r.get("business_key") == business_key] *)
Definition row_matches (business_key : string) (r : json) : result bool :=
  match r with
  | JObj d => Ok (match dict_get "business_key" d with
                  | Some (JStr s) => bool_decide (s = business_key)
                  | _ => false
                  end)
  | _ => Err AttributeError
  end.
Fixpoint filter_rows (business_key : string) (rows : list json) : result (list json) :=
  match rows with
  | [] => mret []
  | r :: rows =>
    b ← row_matches business_key r;
    rest ← filter_rows business_key rows;
    mret (if b : bool then r :: rest else rest)
  end.
(** [for r in rows]: the elements of a list, the keys of a dict, the characters of a
    string; anything else is not iterable. *)
Definition py_iter (v : json) : result (list json) :=
  match v with
  | JList l => Ok l
  | JObj d => Ok (map (fun kv => JStr kv.1) d)
  | JStr s => Ok (map (fun c => JStr (String c EmptyString)) (String.list_ascii_of_string s))
  | _ => Err TypeError
  end.
Definition search_by_business_key (business_key : string) (f : BankFile) : result (list json) :=
  if decide (business_key = "") then Ok []
  else rows ← py_iter (_load f); filter_rows business_key rows.

Definition all_wires (f : BankFile) : json := _load f.

(** ** [BankConnector] *)

(** [req[key]] *)
Definition getitem (v : json) (key : string) : result json :=
  match v with
  | JObj d => match dict_get key d with Some x => Ok x | None => Err (Raised "KeyError" key) end
  | _ => Err TypeError
  end.

Section bank.
Context `{PyText}.

(** [reverse]: the row's identifier is drawn, the returned one is made of the argument. *)
Definition reverse (hex : string) (wire_id : json) : M BankFile string := fun f =>
  let row := JObj [("wire_id", JStr ("reverse-" +:+ hex)); ("reverses", wire_id)] in
  match py_append (_load f) row with
  | Ok rows => (Ok ("reverse-" +:+ match wire_id with JStr s => s | v => str_json v end), _save rows)
  | Err ex => (Err ex, f)
  end.

(** The environment variables that inject a fault: the acknowledgement is lost, or the
    connector raises, both after the wire. *)
Record BankFaults := mkBankFaults { inject_unknown : bool; crash_after_wire : bool }.

Definition bank_request (effect : PbEffect.t) : result json :=
  loads (str_or effect.(PbEffect.request_json) "{}").
Definition bank_args (effect : PbEffect.t) : result (json * json * json * json) :=
  req ← bank_request effect;
  account ← getitem req "account";
  amount_minor ← getitem req "amount_minor";
  beneficiary ← getitem req "beneficiary";
  date ← getitem req "date";
  mret (account, amount_minor, beneficiary, date).

Definition bank_dispatch (faults : BankFaults) (hex : string) (effect : PbEffect.t)
    : M BankFile SDispatch.t := fun f =>
  match bank_args effect with
  | Err ex => (Err ex, f)
  | Ok (account, amount_minor, beneficiary, date) =>
    (wire_id ← wire hex account amount_minor beneficiary date effect.(PbEffect.business_key);
     if faults.(inject_unknown) then
       mret (SDispatch.mk "unknown" "" [] [("reason", JStr "simulated lost ack")] 0)
     else if faults.(crash_after_wire) then
       raise (Raised "RuntimeError" "simulated dispatcher crash AFTER the wire landed")
     else mret (SDispatch.mk "confirmed" wire_id [("wire_id", JStr wire_id)] [] 0)) f
  end.

(** [rows[0]["wire_id"]]; what is no text cannot be sent as an [external_ref]. *)
Definition first_wire_id (r : json) : result string :=
  v ← getitem r "wire_id"; match v with JStr s => Ok s | _ => Err TypeError end.
Definition bank_observe (effect : PbEffect.t) (f : BankFile) : result SObservation.t :=
  rows ← search_by_business_key effect.(PbEffect.business_key) f;
  match rows with
  | [] => mret (SObservation.mk "absent" "" [])
  | [r] => ref ← first_wire_id r; mret (SObservation.mk "confirmed" ref [])
  | r :: _ => ref ← first_wire_id r; mret (SObservation.mk "duplicate" ref [])
  end.

Record BankCompensation := mkBankCompensation
  { bc_status : string; bc_response : pydict; bc_error : pydict }.

(** [payload.get("external_ref") or payload.get("wire_id")] *)
Definition compensated_wire (payload_json : string) : result json :=
  payload ← loads (str_or payload_json "{}");
  match payload with
  | JObj d => Ok (json_or (default JNull (dict_get "external_ref" d))
                    (default JNull (dict_get "wire_id" d)))
  | _ => Err AttributeError
  end.
Definition bank_compensate (hex : string) (obligation : PbObligation.t)
    : M BankFile BankCompensation :=
  try_except
    (fun f => match compensated_wire obligation.(PbObligation.payload_json) with
     | Err ex => (Err ex, f)
     | Ok wid =>
       if negb (json_truthy wid) then
         (Ok (mkBankCompensation "failed" [] [("reason", JStr "no wire_id to reverse")]), f)
       else (rev ← reverse hex wid;
             mret (mkBankCompensation "compensated" [("reversal_id", JStr rev)] [])) f
     end)
    (fun ex => mret (mkBankCompensation "failed" []
       [("type", JStr (exn_name ex)); ("message", JStr (str_exn ex))])).

(** ** The agent's tool, [agent.py] *)

(** [_business_key]: the f-string of the four arguments. *)
Definition wire_business_key (account : string) (amount_minor : Z) (beneficiary date : string)
    : string :=
  account +:+ ":" +:+ pretty amount_minor +:+ ":" +:+ beneficiary +:+ ":" +:+ date.
Definition wire_money (account : string) (amount_minor : Z) (beneficiary date : string) : pydict :=
  [("account", JStr account); ("amount_minor", JInt amount_minor);
   ("beneficiary", JStr beneficiary); ("date", JStr date)].
End bank.

(** ** The rows of a business key *)

Definition matches (business_key : string) (r : json) : bool :=
  match row_matches business_key r with Ok b => b | Err _ => false end.
Definition ledger_rows (f : BankFile) : list json :=
  match _load f with JList l => l | _ => [] end.
Definition wires_for (business_key : string) (f : BankFile) : list json :=
  List.filter (matches business_key) (ledger_rows f).

(** A row the bank writes: a dict with the text [wire_id]. *)
Definition bank_row (r : json) : Prop := exists d, r = JObj d /\ exists w, first_wire_id r = Ok w.
Definition ledger_ok (f : BankFile) : Prop :=
  exists l, _load f = JList l /\ Forall bank_row l.

Section theorems.
Context `{PyText}.

Lemma filter_rows_ok bk l :
  Forall bank_row l -> filter_rows bk l = Ok (List.filter (matches bk) l).
Proof.
  induction 1 as [|r l (d & -> & _) _ IH]; [done|]. cbn -[matches]. rewrite IH.
  unfold matches. cbn. by case_match.
Qed.

Lemma search_rows bk f :
  ledger_ok f -> bk <> "" -> search_by_business_key bk f = Ok (wires_for bk f).
Proof.
  intros (l & Hl & Hr) Hbk. unfold search_by_business_key, wires_for, ledger_rows.
  rewrite decide_False, Hl by done. by apply filter_rows_ok.
Qed.

Lemma wire_row_matches wid a m b d bk' bk :
  matches bk (wire_row wid a m b d bk') = bool_decide (bk' = bk).
Proof. done. Qed.

(** What one dispatch does to the ledger: nothing, or it lands one wire. *)
Lemma bank_dispatch_lands faults hex e f r f' :
  bank_dispatch faults hex e f = (r, f') ->
  f' = f \/
  exists l row, _load f = JList l /\ f' = Holds (JList (l ++ [row])) /\ bank_row row /\
    first_wire_id row = Ok ("wire-" +:+ hex) /\
    forall bk, matches bk row = bool_decide (e.(PbEffect.business_key) = bk).
Proof.
  unfold bank_dispatch. destruct (bank_args e) as [[[[a m] b] d]|ex]; [|intros [= _ <-]; by left].
  unfold wire. monad_simpl. destruct (_load f) as [| | | | |l|] eqn:Hl; cbn;
    try (intros [= _ <-]; by left).
  intros Hd. right. exists l, (wire_row ("wire-" +:+ hex) a m b d e.(PbEffect.business_key)).
  split; [done|]. split.
  - by destruct (inject_unknown faults), (crash_after_wire faults); injection Hd as _ <-.
  - split; [|done]. eexists. split; [done|]. by eexists.
Qed.

Lemma wires_for_snoc bk l row :
  wires_for bk (Holds (JList (l ++ [row]))) =
  wires_for bk (Holds (JList l)) ++ (if matches bk row then [row] else []).
Proof. unfold wires_for, ledger_rows. cbn. rewrite List.filter_app. cbn. by destruct (matches bk row). Qed.
Lemma wires_for_load bk f l : _load f = JList l -> wires_for bk f = wires_for bk (Holds (JList l)).
Proof. unfold wires_for, ledger_rows. by intros ->. Qed.

Lemma bank_dispatch_rows faults hex e f r f' bk :
  bank_dispatch faults hex e f = (r, f') ->
  length (wires_for bk f') <= length (wires_for bk f) +
    (if decide (e.(PbEffect.business_key) = bk) then 1 else 0).
Proof.
  intros [->|(l & row & Hl & -> & _ & _ & Hm)]%bank_dispatch_lands; [lia|].
  rewrite wires_for_snoc, (wires_for_load bk f l), length_app, Hm by done.
  case_bool_decide; case_decide; simpl; done || lia.
Qed.

(** The bank's connector never reports a definite failure, so no non-idempotent call of
    it is followed by another. *)
Lemma bank_verdict faults hex e f r f' max_attempts :
  bank_dispatch faults hex e f = (r, f') ->
  e.(PbEffect.semantics) = EFFECT_SEMANTICS_NON_IDEMPOTENT ->
  verdict_of max_attempts e r <> Retry.
Proof.
  intros Hd Hs. unfold bank_dispatch in Hd.
  destruct (bank_args e) as [[[[a m] b] d]|ex];
    [|injection Hd as <- _; unfold verdict_of; by rewrite decide_True].
  unfold wire in Hd. monad_simpl. destruct (py_append _ _);
    [|injection Hd as <- _; unfold verdict_of; by rewrite decide_True].
  destruct (inject_unknown faults), (crash_after_wire faults); injection Hd as <- _;
    unfold verdict_of; cbn; by rewrite ?Hs.
Qed.

(** ** Dispatchers on the bank *)

Definition dispatches (bank : string) (ev : event answer) : option PbEffect.t :=
  let 'Ev c _ := ev in
  match c with
  | ConnDispatch (Real c) e => if decide (c = bank) then Some e else None
  | _ => None
  end.

(** The ledger along a trace: a call of the bank's connector is answered by
    [bank_dispatch], under any faults; no other call touches the rows of [bk], nor does
    whatever else happens between two calls. *)
Inductive bank_trace (bank : string) (bk : string) : BankFile -> list (event answer) -> BankFile -> Prop :=
  | bt_nil f : bank_trace bank bk f [] f
  | bt_dispatch f faults hex e r f1 t f2 :
      bank_dispatch faults hex e f = (r, f1) -> bank_trace bank bk f1 t f2 ->
      bank_trace bank bk f (Ev (ConnDispatch (Real bank) e) r :: t) f2
  | bt_call f ev t f2 :
      dispatches bank ev = None -> bank_trace bank bk f t f2 -> bank_trace bank bk f (ev :: t) f2
  | bt_between f f1 t f2 :
      wires_for bk f1 = wires_for bk f -> bank_trace bank bk f1 t f2 -> bank_trace bank bk f t f2.

Variable max_attempts : Z.
Variables id_run id_key : string.
Variable bank : string.

(** Every effect with the business key is the one effect of [id_run] and [id_key], and it
    is non-idempotent. *)
Definition one_effect (bk : string) (t : list (event answer)) : Prop :=
  Forall (fun ev => forall e, dispatches bank ev = Some e -> e.(PbEffect.business_key) = bk ->
    mine id_run id_key e = true /\ e.(PbEffect.semantics) = EFFECT_SEMANTICS_NON_IDEMPOTENT) t.

(** The calls of the bank for the business key. *)
Definition bank_calls (bk : string) (t : list (event answer)) : list PbEffect.t :=
  List.filter (fun e => bool_decide (e.(PbEffect.business_key) = bk)) (omap (dispatches bank) t).

Lemma bank_trace_rows bk f t f' :
  bank_trace bank bk f t f' ->
  length (wires_for bk f') <= length (wires_for bk f) + length (bank_calls bk t).
Proof.
  unfold bank_calls.
  induction 1 as [f|f faults hex e r f1 t f2 Hd Ht IH|f ev t f2 Hev Ht IH|f f1 t f2 Hf Ht IH]; cbn.
  - lia.
  - rewrite decide_True by done. cbn. pose proof (bank_dispatch_rows _ _ _ _ _ _ bk Hd).
    case_bool_decide; case_decide; cbn in *; done || lia.
  - by rewrite Hev.
  - by rewrite <- Hf.
Qed.

Lemma unsettled_app xs ys :
  unsettled max_attempts (xs ++ ys) = unsettled max_attempts xs + unsettled max_attempts ys.
Proof. unfold unsettled. by rewrite filter_app, length_app. Qed.

(** The bank never definitely fails: each of its calls for the key is one the server pays
    for with a lease. *)
Lemma bank_calls_unsettled bk f t f' :
  bank_trace bank bk f t f' -> one_effect bk t ->
  length (bank_calls bk t) <= unsettled max_attempts (t ≫= call_of id_run id_key).
Proof.
  unfold bank_calls.
  induction 1 as [f|f faults hex e r f1 t f2 Hd Ht IH|f ev t f2 Hev Ht IH|f f1 t f2 Hf Ht IH];
    intros Hone; [cbn; lia| | |by apply IH];
    apply Forall_cons in Hone as [He Hone]; specialize (IH Hone);
    change ((?ev :: t) ≫= call_of id_run id_key) with (call_of id_run id_key ev ++ (t ≫= call_of id_run id_key));
    rewrite unsettled_app.
  - cbn in *. rewrite decide_True in He |- * by done. cbn. case_bool_decide as Hbk; [|lia].
    destruct (He e eq_refl Hbk) as [-> Hs]. unfold unsettled in *.
    rewrite filter_cons_True; [cbn; lia|]. by apply (bank_verdict _ _ _ _ _ _ max_attempts Hd Hs).
  - cbn. rewrite Hev. lia.
Qed.

Variable connectors : list (string * Conn).
Variable registries : Registries.
Variable claimer_id : string.

(** C4: Any number of dispatcher processes, each stopped at any point, on one server that
    grants [n] leases of the effect over one that ran out, with lost acknowledgements and
    exceptions of the connector after the wire wherever they happen: for one business key,
    which one non-idempotent effect has, and which only the dispatchers settle, the bank
    ends up with at most [n + 1] wires more: one while no lease runs out. *)
Theorem bank_lands_one_wire connector url claimer interval bk G n s f f' :
  serves id_run id_key Free G.*2 n s ->
  dispatchers connectors registries max_attempts claimer_id connector url claimer interval G ->
  bank_trace bank bk f G.*2 f' -> one_effect bk G.*2 ->
  length (wires_for bk f') <= length (wires_for bk f) + 1 + n.
Proof.
  intros Hs Hp Hb Hone. pose proof (bank_trace_rows _ _ _ _ Hb).
  pose proof (bank_calls_unsettled _ _ _ _ Hb Hone) as Hu.
  assert (Hc : G.*2 ≫= call_of id_run id_key = calls id_run id_key G).
  { unfold calls. clear. induction G as [|x G IH]; [done|]. cbn. by rewrite IH. }
  rewrite Hc in Hu. enough (unsettled max_attempts (calls id_run id_key G) <= n + 1) by lia.
  destruct (calls id_run id_key G) as [|y xs _] eqn:Hy using rev_ind; [cbn; lia|].
  rewrite unsettled_app. etransitivity; [apply Nat.add_le_mono|reflexivity].
  - eapply (interleaving_calls max_attempts id_run id_key G n s xs y []); [done| |done].
    by eapply dispatchers_follow.
  - unfold unsettled. rewrite filter_cons. case_decide; cbn; lia.
Qed.

(** ** The reconciler on the bank *)

(** The observations of a trace are the bank's, of the ledger [f]. *)
Definition observed_by (f : BankFile) (ev : event answer) : Prop :=
  let 'Ev c r := ev in
  match c return result (answer c) -> Prop with
  | ConnObserve (Real c) e => fun r => c = bank -> r = bank_observe e f
  | _ => fun _ => True
  end r.

(** What the rows of a business key say happened. *)
Definition ledger_says (kind : string) (rows : list json) : Z * string * string :=
  let ref r := match first_wire_id r with Ok w => w | Err _ => "" end in
  match rows with
  | [] => (EFFECT_RESOLUTION_ABSENT, "", "")
  | [r] => (EFFECT_RESOLUTION_CONFIRMED, ref r, "")
  | r :: _ => (EFFECT_RESOLUTION_DUPLICATE, ref r, kind)
  end.

Lemma ledger_wires_ok bk f : ledger_ok f -> Forall bank_row (wires_for bk f).
Proof.
  intros (l & Hl & Hr). unfold wires_for, ledger_rows. rewrite Hl.
  rewrite Forall_forall in *. intros r Hin%list_elem_of_In%List.filter_In.
  apply Hr, list_elem_of_In. tauto.
Qed.

Lemma bank_observe_rows e f :
  ledger_ok f -> e.(PbEffect.business_key) <> "" ->
  exists status ref, bank_observe e f = Ok (SObservation.mk status ref []) /\ status <> "" /\
    forall kind, ledger_says kind (wires_for e.(PbEffect.business_key) f) =
      (status_str_to_resolution status, ref, if decide (status = "duplicate") then kind else "").
Proof.
  intros Hf Hbk. pose proof (ledger_wires_ok e.(PbEffect.business_key) f Hf) as Hr.
  unfold bank_observe. rewrite (search_rows _ _ Hf Hbk). monad_simpl. unfold mbind, result_bind.
  destruct (wires_for _ f) as [|r [|r' rows]]; [by do 2 eexists|..];
    apply Forall_cons in Hr as [(d & _ & w & Hw) _]; cbn; rewrite Hw; by do 2 eexists.
Qed.

Lemma reconcile_observed e f :
  ledger_ok f -> e.(PbEffect.business_key) <> "" -> e.(PbEffect.connector) <> "" ->
  dict_get e.(PbEffect.connector) connectors = Some (Real bank) ->
  wp (reconcile_effect_once connectors registries e) (fun t _ =>
    Forall (observed_by f) t ->
    let '(res, ref, kind) := ledger_says (compensation_kind registries e.(PbEffect.tool_name))
      (wires_for e.(PbEffect.business_key) f) in
    map ev_call t = [ConnObserve (Real bank) e;
      RecordExternalObservation e.(PbEffect.run_id) e.(PbEffect.idempotency_key) res ref
        (dumps (JObj [])) "" kind]).
Proof.
  intros Hf Hbk Hc Hg. destruct (bank_observe_rows e f Hf Hbk) as (status & ref & Ho & Hs & Hl).
  rewrite Hl. unfold reconcile_effect_once, observe_via_connector.
  rewrite decide_False, Hg by done. cbn. intros r.
  destruct r as [obs|ex]; cbn; intros r'; destruct r' as [[]|ex']; cbn;
    intros [Hob _]%Forall_cons; cbn in Hob; specialize (Hob eq_refl); rewrite Ho in Hob;
    try done; injection Hob as ->; cbn; unfold str_or; by rewrite bool_decide_false.
Qed.

Lemma dispatch_keeps_ledger faults hex e f r f' :
  ledger_ok f -> bank_dispatch faults hex e f = (r, f') -> ledger_ok f'.
Proof.
  intros Hf [->|(l & row & Hl & -> & Hr & _)]%bank_dispatch_lands; [done|].
  destruct Hf as (l' & Hl' & Hrs). rewrite Hl in Hl'. injection Hl' as <-.
  eexists. split; [done|]. by apply Forall_app; split; [|constructor].
Qed.

Lemma dispatch_wires faults hex e f r f' :
  ledger_ok f -> bank_dispatch faults hex e f = (r, f') ->
  exists row, first_wire_id row = Ok ("wire-" +:+ hex) /\
    wires_for e.(PbEffect.business_key) f' = wires_for e.(PbEffect.business_key) f ++
      (if is_ok (bank_args e) then [row] else []).
Proof.
  intros (l & Hl & _). unfold bank_dispatch. destruct (bank_args e) as [[[[a m] b] d]|ex]; cbn.
  - unfold wire. monad_simpl. rewrite Hl. cbn. intros Hd.
    exists (wire_row ("wire-" +:+ hex) a m b d e.(PbEffect.business_key)). split; [done|].
    rewrite (wires_for_load _ f l Hl).
    destruct (inject_unknown faults), (crash_after_wire faults); injection Hd as _ <-;
      unfold _save; rewrite wires_for_snoc, wire_row_matches; by rewrite bool_decide_true.
  - intros [= _ <-]. exists (JObj [("wire_id", JStr ("wire-" +:+ hex))]). by rewrite app_nil_r.
Qed.

(** A dispatch under any fault, the acknowledgement lost or the connector raising after
    the wire included, followed by the reconciler: it asks the bank, and records the
    effect CONFIRMED with the identifier of the wire that landed, or ABSENT when the
    request could not be read and none did. *)
Theorem lost_ack_reconciled faults hex e f r f' e' t o :
  ledger_ok f -> wires_for e.(PbEffect.business_key) f = [] ->
  bank_dispatch faults hex e f = (r, f') ->
  e'.(PbEffect.business_key) = e.(PbEffect.business_key) -> e.(PbEffect.business_key) <> "" ->
  dict_get e'.(PbEffect.connector) connectors = Some (Real bank) -> e'.(PbEffect.connector) <> "" ->
  exec (reconcile_effect_once connectors registries e') t o -> Forall (observed_by f') t ->
  map ev_call t = [ConnObserve (Real bank) e';
    RecordExternalObservation e'.(PbEffect.run_id) e'.(PbEffect.idempotency_key)
      (if is_ok (bank_args e) then EFFECT_RESOLUTION_CONFIRMED else EFFECT_RESOLUTION_ABSENT)
      (if is_ok (bank_args e) then "wire-" +:+ hex else "") (dumps (JObj [])) "" ""].
Proof.
  intros Hf Hw Hd Hbk Hne Hg Hc He Ht.
  assert (Hf' : ledger_ok f') by by eapply dispatch_keeps_ledger.
  rewrite <- Hbk in Hne.
  pose proof (wp_exec _ _ _ _ (reconcile_observed e' f' Hf' Hne Hc Hg) He Ht) as Hr.
  destruct (dispatch_wires _ _ _ _ _ _ Hf Hd) as (row & Hrow & Hws).
  rewrite Hbk, Hws, Hw in Hr. destruct (is_ok (bank_args e)); cbn in Hr; by rewrite ?Hrow in Hr.
Qed.
End theorems.

(** ** The business key of the example *)

Definition colon : Ascii.ascii := Ascii.ascii_of_nat 58.

Lemma first_colon_inj a a' r r' :
  has_char colon a = false -> has_char colon a' = false ->
  a +:+ String colon r = a' +:+ String colon r' -> a = a' /\ r = r'.
Proof.
  revert a'. induction a as [|c a IH]; intros [|c' a'] Ha Ha'; simpl in *.
  - by intros [= ->].
  - intros [= <- _]. by rewrite bool_decide_true in Ha'.
  - intros [= -> _]. by rewrite bool_decide_true in Ha.
  - apply orb_false_elim in Ha as [_ Ha], Ha' as [_ Ha']. intros [= -> Hs].
    by destruct (IH a' Ha Ha' Hs) as [-> ->].
Qed.

Lemma pretty_N_go_colon x s : has_char colon s = false -> has_char colon (pretty_N_go x s) = false.
Proof.
  revert s. induction (N.lt_wf_0 x) as [x _ IH]; intros s Hs.
  destruct (decide (x = 0)%N) as [->|Hx]; [by rewrite pretty_N_go_0|].
  rewrite pretty_N_go_step by lia. apply IH; [apply N.div_lt; lia|].
  cbn. rewrite Hs, orb_false_r. unfold pretty_N_char. by repeat case_match.
Qed.
Lemma pretty_Z_colon (z : Z) : has_char colon (pretty z) = false.
Proof.
  assert (Hp : forall p, has_char colon (pretty (Npos p)) = false).
  { intros p. unfold pretty, pretty_N. case_decide; [done|]. by apply pretty_N_go_colon. }
  destruct z; [done|apply Hp|]. apply (Hp p).
Qed.

(** Two wires whose account and beneficiary hold no colon get the same business key only
    when they are the same wire. *)
Theorem wire_key_injective account account' amount amount' beneficiary beneficiary' date date' :
  has_char colon account = false -> has_char colon account' = false ->
  has_char colon beneficiary = false -> has_char colon beneficiary' = false ->
  wire_business_key account amount beneficiary date = wire_business_key account' amount' beneficiary' date' ->
  wire_money account amount beneficiary date = wire_money account' amount' beneficiary' date'.
Proof.
  intros Ha Ha' Hb Hb'. unfold wire_business_key.
  intros [-> [Hm [-> ->]%first_colon_inj]%first_colon_inj]%first_colon_inj;
    [|done || apply pretty_Z_colon..]. by apply (inj pretty) in Hm as ->.
Qed.

(** ** Concrete runs *)

(** A wire of the example, its request readable. *)
Definition bank_text : PyText := {|
  dumps := fun _ => "{}";
  loads := fun s => Ok (JObj (if decide (s = "{}") then []
                              else wire_money "acct-001" 100000 "vendor-x" "2026-05-17"));
  str_exn := fun _ => "boom"; exn_name := fun _ => "RuntimeError"; exn_details := fun _ => "";
  str_json := fun _ => ""; int_text := fun _ => Ok 0%Z; float_text := fun _ => Ok 0%Q;
  repr_str := fun s => s; from_markup := fun s => Ok s |}.
Definition wire_key : string := wire_business_key "acct-001" 100000 "vendor-x" "2026-05-17".
Definition wire_effect : PbEffect.t :=
  PbEffect.mk "run-1" "run-1/fc-1" "wire_money" EFFECT_STATUS_PENDING EFFECT_SEMANTICS_NON_IDEMPOTENT
    "bank.wire" "wire" "" 0 "" "" EFFECT_DISPATCH_MODE_OUTBOX wire_key 0.
Definition wire_connectors : list (string * Conn) := [("bank.wire", Real "bank.wire")].
Definition wire_registries : Registries := mkRegistries ∅ ∅ ∅.
Definition new_ledger : BankFile := Holds (JList []).

Definition lost_ack : BankFaults := mkBankFaults true false.
Definition crash : BankFaults := mkBankFaults false true.
Definition lost_ack_answer : result SDispatch.t :=
  (@bank_dispatch bank_text lost_ack "0a1b2c3d" wire_effect new_ledger).1.
Definition lost_ack_ledger : BankFile :=
  (@bank_dispatch bank_text lost_ack "0a1b2c3d" wire_effect new_ledger).2.
(** The wire of a dispatcher that dies in the connector, and the one after it. *)
Definition dead_answer : result SDispatch.t :=
  (@bank_dispatch bank_text crash "99887766" wire_effect new_ledger).1.
Definition second_ledger : BankFile :=
  (@bank_dispatch bank_text lost_ack "0a1b2c3d" wire_effect
    (@bank_dispatch bank_text crash "99887766" wire_effect new_ledger).2).2.

(** A server that grants the claim, and the answer of the bank. *)
Definition wire_world (r : result SDispatch.t) (c : call) : M unit (answer c) := fun w =>
  (match c return result (answer c) with
   | ListEffectsToDispatch _ _ _ => Ok [wire_effect]
   | ClaimEffectDispatch _ _ _ _ => Ok (true, wire_effect)
   | ConnDispatch _ _ => r
   | ConnObserve _ e => @bank_observe e lost_ack_ledger
   | RecordDispatchAttempt _ _ _ _ | RecordExternalObservation _ _ _ _ _ _ _ | Sleep _
   | OpenClient _ | CloseClient => Ok tt
   | _ => Err TypeError
   end, w).
Definition wire_loop : P (option unit) :=
  @run_outbox_dispatcher bank_text wire_connectors wire_registries "host-1" 1 "" "" "me" 5 1%Q false None.
(** A dispatcher that dies in the connector after the wire, and one that finds the lease
    run out; its acknowledgement is lost. *)
Definition wire_interleaving : list (nat * event answer) :=
  map (pair 0) (take 4 (trace (wire_world dead_answer) wire_loop tt)) ++
  map (pair 1) (trace (wire_world lost_ack_answer) wire_loop tt).

Lemma wire_interleaving_served : serves "run-1" "run-1/fc-1" Free wire_interleaving.*2 1 Settled.
Proof.
  set (t := wire_interleaving.*2). vm_compute in t. subst t.
  serve_as Free 0. serve_as Free 0. serve_as Leased 0. serve_as Leased 0.
  serve_as Leased 0. serve_as Leased 0. serve_as Leased 1. serve_as Leased 0.
  serve_as Settled 0. serve_as Settled 0. serve_as Settled 0. constructor.
Qed.

Lemma wire_interleaving_processes :
  @dispatchers bank_text wire_connectors wire_registries 5 "host-1" "" "" (fun _ => "me") 1%Q wire_interleaving.
Proof.
  intros [|[|p]].
  - exists 1, false, false, (drop 4 (trace (wire_world dead_answer) wire_loop tt)),
      (run (wire_world dead_answer) wire_loop tt).1.
    apply (run_exec (wire_world dead_answer) wire_loop tt).
  - exists 1, false, false, [], (run (wire_world lost_ack_answer) wire_loop tt).1.
    apply (run_exec (wire_world lost_ack_answer) wire_loop tt).
  - exists 0, false, false, [Ev (OpenClient "") (Ok tt); Ev CloseClient (Ok tt)], (Ok None).
    repeat constructor.
Qed.

Lemma wire_interleaving_ledger :
  @bank_trace bank_text "bank.wire" wire_key new_ledger wire_interleaving.*2 second_ledger.
Proof.
  set (t := wire_interleaving.*2). vm_compute in t. subst t.
  do 3 (apply bt_call; [done|]). eapply (bt_dispatch _ _ _ crash "99887766"); [done|].
  do 3 (apply bt_call; [done|]). eapply (bt_dispatch _ _ _ lost_ack "0a1b2c3d"); [done|].
  do 3 (apply bt_call; [done|]). constructor.
Qed.

(** One lease ran out: two wires. *)
Lemma bank_lands_one_wire_witness :
  length (wires_for wire_key second_ledger) <= length (wires_for wire_key new_ledger) + 1 + 1.
Proof.
  refine (@bank_lands_one_wire bank_text 5 "run-1" "run-1/fc-1" "bank.wire" wire_connectors
    wire_registries "host-1" "" "" (fun _ => "me") 1%Q wire_key wire_interleaving 1 Settled new_ledger _
    wire_interleaving_served wire_interleaving_processes wire_interleaving_ledger _).
  unfold one_effect. set (t := wire_interleaving.*2). vm_compute in t. subst t.
  repeat (constructor; [try done; intros e [= <-] _; vm_compute; tauto|]). constructor.
Defined.

Definition reconcile_wire : P (option pydict) :=
  @reconcile_effect_once bank_text wire_connectors wire_registries wire_effect.
Lemma lost_ack_reconciled_witness :
  map ev_call (trace (wire_world lost_ack_answer) reconcile_wire tt) =
  [ConnObserve (Real "bank.wire") wire_effect;
   RecordExternalObservation "run-1" "run-1/fc-1" EFFECT_RESOLUTION_CONFIRMED "wire-0a1b2c3d" "{}" "" ""].
Proof.
  refine (@lost_ack_reconciled bank_text "bank.wire" wire_connectors wire_registries lost_ack "0a1b2c3d"
    wire_effect new_ledger lost_ack_answer lost_ack_ledger wire_effect _ _
    (ex_intro _ [] (conj eq_refl (Forall_nil_2 _))) eq_refl eq_refl eq_refl _ eq_refl _
    (run_exec (wire_world lost_ack_answer) reconcile_wire tt) _); [done..|].
  set (t := trace _ _ _). vm_compute in t. subst t. repeat constructor.
Defined.

Lemma wire_key_injective_witness :
  wire_money "acct-001" 100000 "vendor-x" "2026-05-17" =
  wire_money "acct-001" 100000 "vendor-x" "2026-05-17".
Proof. by apply (wire_key_injective "acct-001" "acct-001" 100000 100000 "vendor-x" "vendor-x"). Defined.

(** ** Where the example falls short of what it says *)

(** A process that dies in the connector, after the wire, records nothing; when its lease
    has expired the next one claims the effect and calls [dispatch] at once, without an
    observation: a second wire. *)
Example expired_lease_wires_twice :
  length (wires_for wire_key second_ledger) = 2 /\
  omap (dispatches "bank.wire") wire_interleaving.*2 = [wire_effect; wire_effect] /\
  Forall (fun ev => match ev_call ev with ConnObserve _ _ => False | _ => True end) wire_interleaving.*2.
Proof. vm_compute. split_and!; [reflexivity..|]. repeat constructor. Qed.

(** A ledger file that cannot be read counts as empty, and the next wire replaces it. *)
Example unreadable_ledger_replaced :
  ledger_rows (@bank_dispatch bank_text (mkBankFaults false false) "0a1b2c3d" wire_effect Unreadable).2 =
  wires_for wire_key lost_ack_ledger /\
  @bank_observe wire_effect Unreadable = Ok (SObservation.mk "absent" "" []).
Proof. vm_compute. by split. Qed.

(** The reversal's identifier that the connector reports is not the one in the ledger. *)
Example reversal_reported_under_another_name :
  @reverse bank_text "55667788" (JStr "wire-0a1b2c3d") new_ledger =
  (Ok "reverse-wire-0a1b2c3d",
   Holds (JList [JObj [("wire_id", JStr "reverse-55667788"); ("reverses", JStr "wire-0a1b2c3d")]])).
Proof. done. Qed.

(** Accounts with a colon: two different wires with one business key. *)
Example wire_keys_collide :
  wire_business_key "acct" 1 "2:vendor" "2026-05-17" = wire_business_key "acct:1" 2 "vendor" "2026-05-17".
Proof. done. Qed.

(** ** An effect outside the granted scopes

    [main()]: the identity read from the environment goes onto the run, one effect is within
    its scopes and one is not.  The lines printed are left out. *)
Module Aiplex.
Definition defaults (instance_hex : string) : list (string * string) :=
  [("AIPLEX_TENANT_ID", "acme"); ("AIPLEX_ACTOR", "spiffe://aiplex/ns/treasury/sa/agent");
   ("AIPLEX_SUBJECT", "vamsi@example.com"); ("AIPLEX_AGENT_ID", "aiplex-treasury");
   ("AIPLEX_INSTANCE_ID", "inst-" +:+ instance_hex); ("AIPLEX_ROUTE", "/a2a/treasury");
   ("AIPLEX_SCOPES", "mcp:tools:read_balance"); ("AIPLEX_LABELS", "aiplex.plane=a2a,aiplex.policy=treasury-2026.05")].
(** [os.environ.setdefault] for each *)
Definition setdefault (env : list (string * string)) (kv : string * string) : list (string * string) :=
  match dict_get kv.1 env with Some _ => env | None => env ++ [kv] end.
Definition environ (instance_hex : string) (env : list (string * string)) : list (string * string) :=
  foldl setdefault env (defaults instance_hex).

(** The JSON texts, written with single quotes *)
Definition json_text : string -> string := Identity.replace_char (Ascii.ascii_of_nat 39) (Ascii.ascii_of_nat 34).
Definition read_intent (run_id : string) : BeginEffectRequest.t :=
  BeginEffectRequest.mk run_id 0 "read_balance" 0 (json_text "{'account_id':'acct-42'}") "" 0 0 "" "" "mcp:tools:read_balance".
Definition wire_intent (run_id : string) : BeginEffectRequest.t :=
  BeginEffectRequest.mk run_id 0 "bank_wire" 0
    (json_text "{'account_id':'acct-42','amount_minor':50000000,'target':'FZDXX','business_key':'sweep-2026-05-23-acct42'}") ""
    EFFECT_SEMANTICS_NON_IDEMPOTENT EFFECT_DISPATCH_MODE_OUTBOX "sweep-2026-05-23-acct42" "bank.wire" "mcp:tools:bank_wire".

Definition rpc_error_code (ex : exn) : option string :=
  match ex with Raised name code => if decide (name = "RpcError") then Some code else None | _ => None end.
Definition finish (run_id : string) : P Z := _ ← end_run run_id RUN_STATUS_TERMINAL ""; mret 0%Z.
(** What follows once the run is begun, with the exit code *)
Definition effects (run_id : string) : P Z :=
  _ ← record_decision run_id 0 "scripted-treasury-policy" "{}" (json_text "{'plan':['read_balance','bank_wire']}")
        "treasury policy fired" "aiplex-treasury-2026.05";
  e1 ← rpc_begin_effect (read_intent run_id);
  _ ← rpc_complete_effect run_id (br_idempotency_key e1) EFFECT_STATUS_CONFIRMED
        (json_text "{'balance_minor':100000000,'currency':'USD'}") "";
  admitted ← caught (rpc_begin_effect (wire_intent run_id));
  match admitted with
  | Ok _ => mret 2%Z
  | Err ex =>
    match rpc_error_code ex with
    | None => Throw ex
    | Some code =>
      if decide (code <> "PERMISSION_DENIED") then Throw (Raised "AssertionError" code)
      else
        journal ← caught (invoke (SubscribeRun run_id 0) : P stream);
        match match journal with Ok s => s.2 | Err ex => Some ex end with
        | Some ex => if decide (rpc_error_code ex = None) then Throw ex else finish run_id
        | None => finish run_id
        end
    end
  end.
Definition main (env : list (string * string)) (instance_hex session_hex invocation_hex : string) (pid : Z) : P Z :=
  identity ← lift (Identity.from_env (environ instance_hex env) None);
  run ← (invoke (BeginRun "aiplex_treasury" identity.(Identity.subject) ("sess-" +:+ session_hex) ("inv-" +:+ invocation_hex)
           ("demo-pid-" +:+ pretty pid) 60000 identity.(Identity.tenant_id) identity.(Identity.actor) identity.(Identity.subject)
           identity.(Identity.agent_id) identity.(Identity.aiplex_instance_id) identity.(Identity.gateway_route)
           identity.(Identity.scopes) identity.(Identity.labels)) : P (string * bool));
  effects run.1.
(** [_status_name] *)
Definition status_name (status : Z) : string :=
  if decide (status = EFFECT_STATUS_PENDING) then "PENDING"
  else if decide (status = EFFECT_STATUS_CONFIRMED) then "CONFIRMED"
  else if decide (status = EFFECT_STATUS_FAILED) then "FAILED"
  else if decide (status = EFFECT_STATUS_UNKNOWN) then "UNKNOWN"
  else "unknown(" +:+ pretty status +:+ ")".

Lemma rpc_error_code_Some ex code : rpc_error_code ex = Some code -> ex = RpcError code.
Proof. destruct ex; try done. cbn. case_decide; [|done]. subst. by intros [= ->]. Qed.
(** What the trace says of the wire and of the run's end *)
Definition wire_answer (ev : event answer) : list (result BeginEffectResponse) :=
  let 'Ev c r := ev in
  match c return result (answer c) -> list (result BeginEffectResponse) with
  | BeginEffect req => fun r => if decide (req.(BeginEffectRequest.tool_name) = "bank_wire") then [r] else []
  | _ => fun _ => []
  end r.
Definition ended (ev : event answer) : list (result unit) :=
  let 'Ev c r := ev in
  match c return result (answer c) -> list (result unit) with EndRun _ _ _ => fun r => [r] | _ => fun _ => [] end r.

(** It exits with 0 only when the server denied the wire and ended the run.  A wire that is
    admitted, as with its scope granted it should be, is an exit with 2 that leaves the run
    open and the wire in the outbox. *)
Theorem denied_or_left_open env instance_hex session_hex invocation_hex pid t o :
  exec (main env instance_hex session_hex invocation_hex pid) t o ->
  (o = Ok 0%Z -> t ≫= wire_answer = [Err (RpcError "PERMISSION_DENIED")] /\ t ≫= ended = [Ok tt]) /\
  (o = Ok 2%Z -> exists b, t ≫= wire_answer = [Ok b] /\ t ≫= ended = []).
Proof.
  intros He. pattern t, o. refine (wp_exec _ _ t o _ He). clear He t o. unfold main.
  destruct (Identity.from_env _ _) as [i|ex]; [|by split].
  intros [run|ex]; [|by split]. intros [[]|ex]; [|by split]. intros [e1|ex]; [|by split].
  intros [[]|ex]; [|by split]. intros [b|ex].
  { split; [done|]. intros _. by exists b. }
  cbn. destruct (rpc_error_code ex) as [code|] eqn:Ec; [|by split]. apply rpc_error_code_Some in Ec as ->.
  destruct (decide (code <> "PERMISSION_DENIED")) as [|Hc]; [by split|]. apply dec_stable in Hc as ->.
  intros [[es [ex|]]|ex]; cbn; try (destruct (decide (rpc_error_code ex = None)); [by split|]);
    (intros [[]|ex']; [|by split]); (split; [|done]); by intros _.
Qed.
End Aiplex.
