(* ===== verification/DemoBank.v ===== *)
(** * DemoBank: the banks of the command line's demos and of the project template

    [FileBank] and the embedded scenario of [tape_cli/commands/demo.py], and the stand-in
    connector of [templates/project-adk/app/connectors.py]. *)
From S2P Require Import Prelude Scenarios Schemas EffectLedger ObligationLedger.
From S2P Require Import Connectors Reactors System.

(** [f"{n:0{w}d}"] for a count *)
Fixpoint zeros (n : nat) : string := match n with O => "" | S n => "0" +:+ zeros n end.
Definition zero_pad (w n : nat) : string :=
  zeros (w - String.length (pretty n)) +:+ pretty n.

(** ** [FileBank]: a JSON file from keys to wires *)

(** The file: the JSON value it holds, [None] when it cannot be read. *)
Definition FileBank : Type := option json.
Definition _read (f : FileBank) : json := default (JObj []) f.

(** [rec.get(key)] *)
Definition rec_get (key : string) (rec : json) : result json :=
  match rec with JObj d => Ok (default JNull (dict_get key d)) | _ => Err AttributeError end.
(** [v == bk] for a business key that may be [None] *)
Definition is_key (bk : option string) (v : json) : bool :=
  match bk, v with
  | Some b, JStr s => bool_decide (s = b)
  | None, JNull => true
  | _, _ => false
  end.

(** [for rec in data.values(): if rec.get("business_key") == business_key: return rec] *)
Fixpoint find_rec (bk : option string) (recs : list (string * json)) : result (option json) :=
  match recs with
  | [] => mret None
  | (_, rec) :: recs =>
    v ← rec_get "business_key" rec;
    if is_key bk v then mret (Some rec) else find_rec bk recs
  end.
(** The items of [data]: only a dict has [values]. *)
Definition py_items (data : json) : result (list (string * json)) :=
  match data with JObj d => Ok d | _ => Err AttributeError end.

Definition wire_id_of (n : nat) : string := "wire-" +:+ zero_pad 4 (n + 1).

(** [wire]: deduplicated by the idempotency key. *)
Definition file_wire (idempotency_key : string) (amount_minor account_id : json)
    : M FileBank json := fun f =>
  match _read f with
  | JObj d =>
    match dict_get idempotency_key d with
    | Some rec => (Ok rec, f)
    | None =>
      let rec := JObj [("wire_id", JStr (wire_id_of (length d))); ("amount_minor", amount_minor);
                       ("account_id", account_id); ("idempotency_key", JStr idempotency_key)] in
      (Ok rec, Some (JObj (dict_set idempotency_key rec d)))
    end
  | JList _ | JStr _ | JNull | JBool _ | JInt _ | JFloat _ => (Err TypeError, f)
  end.

Definition wire_rec (n : nat) (amount_minor account_id : json) (bk : option string) : json :=
  JObj [("wire_id", JStr (wire_id_of n)); ("amount_minor", amount_minor);
        ("account_id", account_id); ("business_key", json_of_opt_str bk)].

(** [wire_by_business_key]; the key [None] is written to the file as the text "null". *)
Definition wire_by_business_key (bk : option string) (amount_minor account_id : json)
    : M FileBank json := fun f =>
  match items ← py_items (_read f); found ← find_rec bk items; mret (items, found) with
  | Err ex => (Err ex, f)
  | Ok (_, Some rec) => (Ok rec, f)
  | Ok (d, None) =>
    let rec := wire_rec (length d) amount_minor account_id bk in
    (Ok rec, Some (JObj (dict_set (default "null" bk) rec d)))
  end.

Definition find_by_business_key (bk : string) (f : FileBank) : result (option json) :=
  items ← py_items (_read f); find_rec (Some bk) items.
Definition file_wires (f : FileBank) : result (list json) :=
  items ← py_items (_read f); mret (items.*2 : list json).

(** [rec["wire_id"]], a text in every record the bank writes. *)
Definition wire_id (rec : json) : result string :=
  match rec with
  | JObj d => match dict_get "wire_id" d with
              | Some (JStr s) => Ok s
              | Some _ => Err TypeError
              | None => Err (Raised "KeyError" "wire_id")
              end
  | _ => Err TypeError
  end.

(** ** [_DemoBankConnector] *)

Section demo.
(** the clock, and the rest of the process's surroundings *)
Context {C : Type}.
Variable now : C -> Z * C.

Record DemoWorld := mkDemoWorld { bank : FileBank; n_dispatches : Z; clock : C }.
Definition demo_now (w : DemoWorld) : Z * DemoWorld :=
  let '(z, c) := now w.(clock) in (z, mkDemoWorld w.(bank) w.(n_dispatches) c).

(** [req.get(key, default)] *)
Definition req_get (req : json) (key : string) (default_ : json) : result json :=
  match req with JObj d => Ok (default default_ (dict_get key d)) | _ => Err AttributeError end.

Definition demo_dispatch (eff : EffectRecord.t) : M DemoWorld DispatchResult.t := fun w =>
  let n := (w.(n_dispatches) + 1)%Z in
  let req := json_or eff.(EffectRecord.request_json) (JObj []) in
  let w1 := mkDemoWorld w.(bank) n w.(clock) in
  match amount ← req_get req "amount_minor" (JInt 0);
        account ← req_get req "account_id" (JStr "?"); mret (amount, account) with
  | Err ex => (Err ex, w1)
  | Ok (amount, account) =>
    let '(r, f) := wire_by_business_key eff.(EffectRecord.business_key) amount account w.(bank) in
    let w2 := mkDemoWorld f n w.(clock) in
    match r with
    | Err ex => (Err ex, w2)
    | Ok rec =>
      if decide (n = 1)%Z then
        (Ok (DispatchResult.mk "unknown" "" JNull (JObj [("reason", JStr "simulated lost ack")]) 0), w2)
      else match wire_id rec with
        | Err ex => (Err ex, w2)
        | Ok ref => (Ok (DispatchResult.mk "confirmed" ref (JObj [("wire_id", JStr ref)]) JNull 0), w2)
        end
    end
  end.

Definition demo_observe (eff : EffectRecord.t) : M DemoWorld ObservationResult.t := fun w =>
  (rec ← find_by_business_key (default "" eff.(EffectRecord.business_key)) w.(bank);
   match rec with
   | None => mret (ObservationResult.mk "absent" "" JNull JNull "")
   | Some rec =>
     ref ← wire_id rec;
     mret (ObservationResult.mk "confirmed" ref (JObj [("wire_id", JStr ref)]) JNull "")
   end, w).

(** [compensate] answers [None] and is not exercised: it is left open. *)
Variable compensate : ObligationRecord.t -> M DemoWorld CompensationResult.t.
Definition DemoBankConnector : Connector.t DemoWorld := {|
  Connector.name := "bank.wire";
  Connector.dispatch := demo_dispatch;
  Connector.observe := demo_observe;
  Connector.compensate := compensate
|}.
Definition demo_connectors : gmap string (Connector.t DemoWorld) :=
  {[ "bank.wire" := DemoBankConnector ]}.

(** ** The scenario [tape demo tape-adk-embedded] *)
Variable exn_text : exn -> string.
Variable py_str : json -> string.
(** the drawn parts of the session's and the invocation's names *)
Variables session_hex invocation_hex : string.

Definition demo_business_key : string := "acct-1:2000000:2026-05-20".
Definition demo_session : SKey := mkSKey "treasury-adk-demo" "cfo" ("s-" +:+ session_hex).
Definition demo_effect : BeginArgs.t :=
  BeginArgs.mk demo_session ("inv-" +:+ invocation_hex) 0 "bank.wire" 0
    (JObj [("amount_minor", JInt 2000000); ("account_id", JStr "acct-1")]) ""
    EffectSemantics.NON_IDEMPOTENT EffectDispatchMode.OUTBOX (Some demo_business_key)
    (Some "bank.wire").

Definition is_unknown (a : DispatchAudit) : bool :=
  match a with DUnknown _ => true | _ => false end.
Definition is_confirmed (a : ReconcileAudit) : bool :=
  match a with ROutcome _ status _ => bool_decide (status = "confirmed") | _ => false end.

(** [ui.bank_wires()]: what cannot be read is no wires. *)
Definition ui_bank_wires (f : FileBank) : list json :=
  match file_wires f with Ok wires => wires | Err _ => [] end.

(** The session's name and the exit code. *)
Definition demo_run : Reactor (W := DemoWorld) (option string * Z) :=
  _ ← on_fst (fun d => (Ok tt, create_session demo_session d));
  _ ← svc demo_now (fun clk => begin_effect clk demo_effect);
  r1 ← dispatch_outbox_once demo_now exn_text py_str demo_connectors "demo-dispatcher" 50 60000 5000 300000;
  if negb (existsb is_unknown r1) then mret (None, 2%Z)
  else
    r2 ← reconcile_once demo_now demo_connectors 0 50;
    if negb (existsb is_confirmed r2) then mret (None, 2%Z)
    else fun s =>
      let wires := ui_bank_wires s.2.(bank) in
      (Ok (if decide (length wires = 1) then (Some ("s-" +:+ session_hex), 0%Z) else (None, 1%Z)), s).
End demo.
Arguments DemoWorld : clear implicits.
Arguments mkDemoWorld {C} _ _ _.

(** ** [PaymentConnector]: the ledger maps a business key to its charge *)

Definition payment_key (eff : EffectRecord.t) : string := default "" eff.(EffectRecord.business_key).
Definition charged (ref : string) : DispatchResult.t :=
  DispatchResult.mk "confirmed" ref (JObj [("charge_id", JStr ref)]) JNull 0.
Definition payment_dispatch (eff : EffectRecord.t) : M (gmap string string) DispatchResult.t :=
  fun ledger =>
  match ledger !! payment_key eff with
  | Some ref => (Ok (charged ref), ledger)
  | None => let charge_id := "ch_" +:+ zero_pad 6 (size ledger + 1) in
            (Ok (charged charge_id), <[payment_key eff := charge_id]> ledger)
  end.
Definition payment_observe (eff : EffectRecord.t) : M (gmap string string) ObservationResult.t :=
  fun ledger =>
  (Ok match ledger !! payment_key eff with
      | Some ref => ObservationResult.mk "confirmed" ref JNull JNull ""
      | None => ObservationResult.mk "absent" "" JNull JNull ""
      end, ledger).
Definition payment_compensate (ob : ObligationRecord.t) : M (gmap string string) CompensationResult.t :=
  fun ledger =>
  (ref ← req_get (json_or ob.(ObligationRecord.payload_json) (JObj [])) "external_ref" (JStr "");
   mret (CompensationResult.mk "compensated" (JObj [("refunded", ref)]) JNull 0), ledger).
Definition PaymentConnector : Connector.t (gmap string string) := {|
  Connector.name := "payment";
  Connector.dispatch := payment_dispatch;
  Connector.observe := payment_observe;
  Connector.compensate := payment_compensate
|}.
Definition CONNECTORS : gmap string (Connector.t (gmap string string)) :=
  {[ "payment" := PaymentConnector ]}.
