(* ===== verification/DemoBankTheorems.v ===== *)
(** * DemoBankTheorems: the journal agrees with the bank

    The banks of [DemoBank] as connectors of the embedded tier: what their ledgers keep,
    the agreement between the effect ledger and the bank over any sequence of operations
    and reactor ticks, and how the embedded demo ends. *)
From S2P Require Import Prelude Scenarios ScenarioTheorems Sql Schemas EffectLedger ObligationLedger.
From S2P Require Import TimersValues Snapshots Compact Connectors Reactors WellFormed EffectFacts.
From S2P Require Import SnapshotTheorems CompactTheorems ReactorFacts System DemoBank.
#[local] Open Scope nat_scope.

(** ** The ledger of [FileBank] *)

(** Every record is the wire of the business key it is filed under. *)
Definition filed (kv : string * json) : Prop :=
  exists n amount account, kv.2 = wire_rec n amount account (Some kv.1).
Definition bank_ok (f : FileBank) : Prop :=
  exists d, _read f = JObj d /\ NoDup d.*1 /\ Forall filed d.

(** The wire of a business key, and its identifier. *)
Definition wired (f : FileBank) (b ref : string) : Prop :=
  exists d rec, _read f = JObj d /\ dict_get b d = Some rec /\ wire_id rec = Ok ref.

Lemma find_rec_filed b d : Forall filed d -> find_rec (Some b) d = Ok (dict_get b d).
Proof.
  induction 1 as [|[k rec] d (n & am & ac & Hrec) _ IH]; [done|]. cbn in Hrec. subst rec.
  change (find_rec (Some b) (_ :: d)) with
    (if bool_decide (k = b) then Ok (Some (wire_rec n am ac (Some k))) else find_rec (Some b) d).
  cbn [dict_get]. case_bool_decide as E; [by rewrite decide_True|by rewrite decide_False by congruence].
Qed.

Lemma filed_wire_id b d rec :
  Forall filed d -> dict_get b d = Some rec -> exists n, wire_id rec = Ok (wire_id_of n).
Proof.
  intros Hd Hg%dict_get_elem. rewrite Forall_forall in Hd.
  destruct (Hd _ Hg) as (n & am & ac & Hrec). cbn in Hrec. subst rec. by exists n.
Qed.

Lemma wire_id_of_ne n : wire_id_of n <> "".
Proof. done. Qed.

Lemma dict_set_filed b rec d : filed (b, rec) -> Forall filed d -> Forall filed (dict_set b rec d).
Proof.
  intros Hb. induction 1 as [|[k v] d Hk Hd IH]; cbn; [by constructor|].
  case_decide; [subst|]; by constructor.
Qed.
(** The bank's contract: a business key has one wire, filed by the first call and returned
    by all, and no call disturbs another key's. *)
Lemma wire_by_business_key_spec b amount account f :
  bank_ok f ->
  exists rec ref f', wire_by_business_key (Some b) amount account f = (Ok rec, f') /\
    wire_id rec = Ok ref /\ ref <> "" /\ bank_ok f' /\ wired f' b ref /\
    (forall b' ref', wired f b' ref' -> wired f' b' ref') /\
    (forall ref', wired f b ref' -> f' = f).
Proof.
  intros (d & Hr & Hnd & Hf). unfold wire_by_business_key. rewrite Hr. cbn.
  rewrite find_rec_filed by done. destruct (dict_get b d) as [rec|] eqn:E; cbn.
  - destruct (filed_wire_id b d rec Hf E) as (n & Hn). exists rec, (wire_id_of n), f.
    split_and!; try done; [by exists d|]. by exists d, rec.
  - set (rec := wire_rec (length d) amount account (Some b)).
    exists rec, (wire_id_of (length d)), (Some (JObj (dict_set b rec d))). split_and!; try done.
    + exists (dict_set b rec d). split_and!; [done|by apply dict_set_NoDup|].
      apply dict_set_filed; [by do 3 eexists|done].
    + exists (dict_set b rec d), rec. by rewrite dict_get_set_eq.
    + intros b' ref' (d' & rec' & Hr' & Hg & Hw). rewrite Hr in Hr'. injection Hr' as <-.
      exists (dict_set b rec d), rec'. split_and!; try done.
      rewrite dict_get_set_ne; [done|]. intros ->. congruence.
    + intros ref' (d' & rec' & Hr' & Hg & _). rewrite Hr in Hr'. injection Hr' as <-. congruence.
Qed.

Lemma wired_unique f b ref ref' : wired f b ref -> wired f b ref' -> ref = ref'.
Proof.
  intros (d & rec & Hr & Hg & Hw) (d' & rec' & Hr' & Hg' & Hw'). rewrite Hr in Hr'.
  injection Hr' as <-. congruence.
Qed.

Lemma demo_finds b f :
  bank_ok f -> find_by_business_key b f = Ok (match _read f with JObj d => dict_get b d | _ => None end).
Proof.
  intros (d & Hr & _ & Hf). unfold find_by_business_key. rewrite Hr. cbn. by apply find_rec_filed.
Qed.

(** ** Operations and effect rows *)

(** Only [begin_effect] adds a row. *)
Lemma live_delete_none d (P : StorageEffect.t -> Prop) `{!∀ r, Decision (P r)} s key :
  wf d -> live d s key = None ->
  live (Db.set_effects (delete_where P d.(Db.effects)) d) s key = None.
Proof.
  intros Hwf Hn. unfold live in *. cbn. rewrite row_at_delete by apply Hwf. by rewrite Hn.
Qed.
Lemma live_with_effect_none d r s key : live d s key = None -> live (with_effect r d) s key = None.
Proof. intros Hn. rewrite live_with_effect, Hn. by case_decide. Qed.

Lemma step_new_effect op d s key r :
  wf d -> live d s key = None -> live (step op d) s key = Some r ->
  exists clk a, op = BeginEffect clk a /\ r = fresh_effect clk a.
Proof.
  intros Hwf Hn Hr. pose proof (step_effects_same op d Hwf) as Hsame.
  destruct op as [clk a|clk s0 k0 st resp err|clk s0 k0 c ttl now|clk s0 k0 e next
    |clk s0 k0 res ref resp err kind|s0 k0 ref| | | | | | | | | |clk s0 o n c p|clk policy now| |s0];
    try (by rewrite (live_ext _ _ _ _ Hsame), Hn in Hr).
  all: cbn [step] in Hr; unfold run_state in Hr.
  - exists clk, a. split; [done|]. rewrite begin_effect_eval in Hr by done.
    destruct (begin_refusal a); [cbn in Hr; congruence|].
    destruct (live d (BeginArgs.session a) _); [cbn in Hr; congruence|].
    destruct (captured_at _ _); [cbn in Hr; congruence|]. cbn zeta in Hr.
    case_decide; [|cbn in Hr; congruence]. cbn [snd] in Hr. rewrite live_insert, Hn in Hr.
    case_decide; congruence.
  - rewrite complete_effect_eval in Hr by done.
    repeat case_match; cbn [snd] in Hr; rewrite ?live_with_effect_none in Hr; congruence.
  - rewrite claim_effect_dispatch_eval in Hr by done. cbn zeta in Hr.
    repeat case_match; cbn [snd] in Hr; rewrite ?live_with_effect_none in Hr; congruence.
  - rewrite record_dispatch_attempt_eval in Hr by done.
    repeat case_match; cbn [snd] in Hr; rewrite ?live_with_effect_none in Hr; congruence.
  - rewrite record_external_observation_eval in Hr by done.
    destruct (live d s0 k0) as [r0|]; [|cbn [snd] in Hr; congruence].
    destruct (observed _ _ _ _ r0) as [r1|]; [|cbn [snd] in Hr; congruence]. cbn zeta in Hr.
    assert (Hw : live (with_effect (StorageEffect.set_ts_ms clk r1) d) s key = None)
      by by apply live_with_effect_none.
    case_decide; [|cbn [snd] in Hr; congruence].
    destruct (insert_obligation _ _) as [[o' d2]|] eqn:Ei; cbn [snd] in Hr; [|congruence].
    apply insert_obligation_inv in Ei as (_ & _ & ->). unfold live in *. cbn in *. congruence.
  - unfold attach_external_ref, txn in Hr. cbn [snd] in Hr. unfold live in *.
    cbn in Hr. rewrite row_at_update, Hn in Hr by done. done.
  - rewrite continue_as_new_eval in Hr by done. cbn [snd] in Hr.
    assert (Hp : live (pruned_db d s0 o p) s key = Some r).
    { revert Hr. unfold continued_db. destruct (json_is_none c); [done|].
      rewrite (write_value_tables clk) by by apply pruned_db_wf. done. }
    unfold pruned_db in Hp. destruct p; [by rewrite live_delete_none in Hp|congruence].
  - fold (run_state (compact_once clk policy now) d) in Hr.
    rewrite compact_once_state in Hr.
    destruct (compacted_live clk policy now d s key Hwf) as [E|E]; congruence.
  - unfold delete_session in Hr.
    fold (live (delete_session s0 d) s key) in Hr.
    assert (live (Db.set_effects (delete_where (fun r => r.(StorageEffect.session) = s0) d.(Db.effects)) d)
      s key = None) by by apply live_delete_none. unfold live in *. cbn in *. congruence.
Qed.

(** ** The agreement *)

(** An effect of the bank has a business key, and when CONFIRMED its wire is in the
    bank under that key, with the recorded reference. *)
Definition settled_row (f : FileBank) (r : StorageEffect.t) : Prop :=
  r.(StorageEffect.connector) = Some "bank.wire" ->
  exists b, r.(StorageEffect.business_key) = Some b /\
    (r.(StorageEffect.status) = EffectStatus.CONFIRMED ->
     exists ref, r.(StorageEffect.external_ref) = Some ref /\ wired f b ref).

Section agreement.
Context {C : Type}.
Variable now : C -> Z * C.
Variable compensate : ObligationRecord.t -> M (DemoWorld C) CompensationResult.t.
Variable exn_text : exn -> string.
Variable py_str : json -> string.

Definition agree (s : Db.t * DemoWorld C) : Prop :=
  wf s.1 /\ bank_ok (bank s.2) /\
  forall k key r, live s.1 k key = Some r -> settled_row (bank s.2) r.

(** What the other processes may do: anything, except confirm an effect of the bank, or
    rewrite the reference of a confirmed one, which the reactors do; and an effect of the
    bank is journaled with a business key. *)
Definition on_bank (k : SKey) (key : string) (d : Db.t) (r : StorageEffect.t) : Prop :=
  live d k key = Some r /\ r.(StorageEffect.connector) = Some "bank.wire".
Definition admissible (op : Op) (d : Db.t) : Prop :=
  match op with
  | BeginEffect _ a => str_or_none a.(BeginArgs.connector) = Some "bank.wire" ->
                       is_Some (str_or_none a.(BeginArgs.business_key))
  | CompleteEffect _ k key st _ _ =>
    forall r, on_bank k key d r -> st <> EffectStatus.CONFIRMED
  | ObserveEffect _ k key res _ _ _ _ =>
    forall r, on_bank k key d r -> res <> EffectResolution.CONFIRMED /\ res <> EffectResolution.DUPLICATE
  | AttachRef k key _ => forall r, on_bank k key d r -> r.(StorageEffect.status) <> EffectStatus.CONFIRMED
  | _ => True
  end.

Lemma settled_row_same f r r' :
  r'.(StorageEffect.connector) = r.(StorageEffect.connector) ->
  r'.(StorageEffect.business_key) = r.(StorageEffect.business_key) ->
  r'.(StorageEffect.external_ref) = r.(StorageEffect.external_ref) ->
  (r'.(StorageEffect.status) = EffectStatus.CONFIRMED -> r.(StorageEffect.status) = EffectStatus.CONFIRMED) ->
  settled_row f r -> settled_row f r'.
Proof.
  intros Hc Hb Hx Hs Hr. unfold settled_row. rewrite Hc, Hb, Hx. intros Hbank.
  destruct (Hr Hbank) as (b & Hkey & Hconf). eauto.
Qed.

(** A row that is not CONFIRMED after the change keeps only its business key to answer for. *)
Lemma settled_row_unconfirmed f r r' :
  r'.(StorageEffect.connector) = r.(StorageEffect.connector) ->
  r'.(StorageEffect.business_key) = r.(StorageEffect.business_key) ->
  (r.(StorageEffect.connector) = Some "bank.wire" -> r'.(StorageEffect.status) <> EffectStatus.CONFIRMED) ->
  settled_row f r -> settled_row f r'.
Proof.
  intros Hc Hb Hs Hr. unfold settled_row. rewrite Hc, Hb. intros Hbank.
  destruct (Hr Hbank) as (b & Hkey & _). exists b. split; [done|]. intros Hst. by destruct (Hs Hbank).
Qed.

(** An observation that confirms nothing. *)
Lemma settled_row_observed f res ref resp err r r1 :
  observed res ref resp err r = Some r1 ->
  (r.(StorageEffect.connector) = Some "bank.wire" ->
     res <> EffectResolution.CONFIRMED /\ res <> EffectResolution.DUPLICATE) ->
  settled_row f r -> settled_row f r1.
Proof.
  intros Ho Hres Hr. destruct (observed_spec _ _ _ _ _ _ Ho) as [(_ & _ & _ & _ & _ & Hc & Hb & _) _].
  intros Hbank. rewrite Hc in Hbank. destruct (Hres Hbank) as [Hn1 Hn2]. revert Hbank. rewrite <- Hc.
  change (settled_row f r1). unfold observed in Ho.
  repeat case_decide; simplify_eq; destruct (json_is_none err); simplify_eq;
    (apply (settled_row_same f r); done) || by apply (settled_row_unconfirmed f r).
Qed.

Lemma agree_step op d w :
  agree (d, w) ->
  (forall k key r r', live d k key = Some r -> effect_change op (k, key) r r' ->
    settled_row (bank w) r -> settled_row (bank w) r') ->
  (forall clk a, op = BeginEffect clk a -> admissible op d) ->
  agree (step op d, w).
Proof.
  intros (Hwf & Hb & Hr) Hch Hbegin. split; [by apply step_wf|]. split; [done|]. cbn in *.
  intros k key r' Hl. destruct (live d k key) as [r|] eqn:E.
  - eapply Hch; [exact E| |by eapply Hr]. by apply (step_effect op d).
  - destruct (step_new_effect op d k key r' Hwf E Hl) as (clk & a & -> & ->).
    intros Hc. destruct (Hbegin clk a eq_refl Hc) as [b Hkey]. by exists b.
Qed.

Lemma agree_op op d w : agree (d, w) -> admissible op d -> agree (step op d, w).
Proof.
  intros Ha Hadm. apply agree_step; [done| |by intros ? ? ->].
  intros k key r r' Hl Hch Hr. destruct op; cbn in Hch, Hadm; try by subst.
  - destruct Hch as [->|([= -> ->] & _ & _ & ->)]; [done|].
    apply (settled_row_unconfirmed _ r); [done..| |done]. intros Hc. by apply (Hadm r).
  - destruct Hch as [->|(_ & _ & ->)]; [done|]. by eapply settled_row_same.
  - destruct Hch as [->|(_ & ->)]; [done|]. unfold attempted.
    case_decide; apply (settled_row_same _ r); done.
  - destruct Hch as [->|([= -> ->] & r1 & Ho & ->)]; [done|].
    apply (settled_row_same _ r1); [done..|]. eapply settled_row_observed; [done| |done].
    intros Hc. by apply (Hadm r).
  - destruct Hch as [->|([= -> ->] & ->)]; [done|].
    apply (settled_row_unconfirmed _ r); [done..| |done]. intros Hc. by apply (Hadm r).
Qed.

(** *** The reactors' ticks *)

Definition stable (I : Db.t * DemoWorld C -> Prop) {A} (m : Reactor (W := DemoWorld C) A) : Prop :=
  forall s, I s -> I (m s).2.

Lemma stable_bind I {A B} (m : Reactor (W := DemoWorld C) A) (f : A -> Reactor (W := DemoWorld C) B) :
  stable I m -> (forall a, stable I (f a)) -> stable I (m ≫= f).
Proof.
  intros Hm Hf s Hs. unfold mbind, M_bind. specialize (Hm s Hs).
  destruct (m s) as [[a|e] s']; [by apply Hf|done].
Qed.
Lemma stable_for_each I {A B} (xs : list A) (body : A -> Reactor (W := DemoWorld C) B) :
  (forall x, x ∈ xs -> stable I (body x)) -> stable I (for_each xs body).
Proof.
  induction xs as [|x xs IH]; intros Hb; cbn [for_each]; [by intros s Hs|].
  apply stable_bind; [apply Hb; by left|]. intros y. apply stable_bind; [|by intros ys s Hs].
  apply IH. intros x' Hx'. apply Hb. by right.
Qed.

(** The clock is not the bank. *)
Lemma demo_now_bank w : bank (demo_now now w).2 = bank w.
Proof. unfold demo_now. by destruct (now (clock w)). Qed.
Lemma agree_world d w w' : bank w' = bank w -> agree (d, w) -> agree (d, w').
Proof. unfold agree. cbn. by intros ->. Qed.

Lemma settled_bank f f' r :
  (forall b ref, wired f b ref -> wired f' b ref) -> settled_row f r -> settled_row f' r.
Proof.
  intros Hmono Hr Hc. destruct (Hr Hc) as (b & Hb & Hs). exists b. split; [done|].
  intros Hst. destruct (Hs Hst) as (ref & Hx & Hw). eauto.
Qed.

(** The row of an effect of the bank after a dispatch: CONFIRMED only with the wire's
    reference. *)
Lemma settled_outcome f clk t db mb outcome r b :
  r.(StorageEffect.business_key) = Some b -> r.(StorageEffect.status) <> EffectStatus.CONFIRMED ->
  (forall o, outcome = Ok o -> o.(DispatchResult.status) = "confirmed" ->
    o.(DispatchResult.external_ref) <> "" /\ wired f b o.(DispatchResult.external_ref)) ->
  settled_row f (settled exn_text py_str clk t db mb outcome r).
Proof.
  intros Hb Hst Hout Hc. exists b.
  assert (Ha : forall (P : Prop) e n, (attempted clk e n r).(StorageEffect.business_key) = Some b /\
    ((attempted clk e n r).(StorageEffect.status) = EffectStatus.CONFIRMED -> P)).
  { intros P e n. unfold attempted. case_decide; by split. }
  unfold settled in *. destruct outcome as [o|ex]; [|apply Ha].
  destruct (decide (DispatchResult.status o = "confirmed")) as [E|_].
  { destruct (Hout o eq_refl E) as [Hne Hw]. rewrite decide_False by done. cbn. eauto. }
  case_decide; [apply Ha|]. case_decide; [case_decide; [by split|apply Ha]|by split].
Qed.

Lemma demo_dispatch_spec eff (w : DemoWorld C) b :
  bank_ok (bank w) -> eff.(EffectRecord.business_key) = Some b ->
  exists outcome w', demo_dispatch eff w = (outcome, w') /\ bank_ok (bank w') /\
    (forall b' ref, wired (bank w) b' ref -> wired (bank w') b' ref) /\ known_outcome outcome /\
    (forall o, outcome = Ok o -> o.(DispatchResult.status) = "confirmed" ->
      o.(DispatchResult.external_ref) <> "" /\ wired (bank w') b o.(DispatchResult.external_ref)).
Proof.
  intros Hb Hk. unfold demo_dispatch. cbv zeta.
  destruct (amount ← req_get _ "amount_minor" _; _) as [[amount account]|ex]; [|by do 2 eexists].
  rewrite Hk. destruct (wire_by_business_key_spec b amount account (bank w) Hb)
    as (rec & ref & f' & -> & Href & Hne & Hok & Hw & Hmono & _).
  case_decide; [|rewrite Href]; (do 2 eexists; split; [done|]; split_and!; [done..| |]).
  - cbn. unfold dispatch_statuses. set_solver.
  - by intros o [= <-].
  - cbn. unfold dispatch_statuses. set_solver.
  - by intros o [= <-] _.
Qed.

Lemma agree_with_effect d (w : DemoWorld C) r r' :
  agree (d, w) -> live d r.(StorageEffect.session) r.(StorageEffect.idempotency_key) = Some r ->
  StorageEffect.pk r' = StorageEffect.pk r -> StorageEffect.business r' = StorageEffect.business r ->
  (effect_ok r -> effect_ok r') -> settled_row (bank w) r' -> agree (with_effect r' d, w).
Proof.
  intros (Hwf & Hb & Hr) Hl Hpk Hbus Hok Hs. pose proof Hpk as [= Hss Hkk]. split_and!; cbn in *.
  - apply (wf_with_effect _ _ r); [done|by rewrite Hss, Hkk|done..].
  - done.
  - intros k key x. rewrite live_with_effect. case_decide as E; [|apply Hr].
    destruct (live d k key); [|done]. by intros [= <-].
Qed.

(** One turn of the dispatcher, whatever was listed. *)
Lemma dispatch_agrees t claimer ttl db mb eff :
  stable agree (dispatch_effect (demo_now now) exn_text py_str (demo_connectors compensate)
    t claimer ttl db mb eff).
Proof.
  intros [d w] Ha. unfold dispatch_effect.
  destruct (EffectRecord.connector eff ≫= _) as [c0|]; [|done]. unfold svc, read_clock, on_fst.
  unfold mbind, M_bind. destruct (demo_now now w) as [clk w1] eqn:Ew. cbn [fst snd].
  assert (Ha1 : agree (d, w1)).
  { eapply agree_world; [|exact Ha]. pose proof (demo_now_bank w) as Hn. by rewrite Ew in Hn. }
  assert (Ha2 := agree_op (ClaimEffect clk (EffectRecord.session eff) (EffectRecord.idempotency_key eff)
    claimer ttl t) d w1 Ha1 I). cbn [step] in Ha2. unfold run_state in Ha2.
  destruct (claim_effect_dispatch _ _ _ _ _ _ d) as [[claim|e] d2]; [|exact Ha2]. cbn [fst snd] in *.
  destruct (negb claim.1); [exact Ha2|]. rewrite get_effect_eval by apply Ha2. cbn [fst snd].
  destruct (live d2 _ _) as [r|] eqn:Hl; [|exact Ha2]. cbn [fmap option_fmap option_map].
  case_decide as Hst; [exact Ha2|]. change (r.(StorageEffect.status) = EffectStatus.PENDING) in Hst.
  pose proof (live_pk _ _ _ _ Hl) as [= Hs Hk].
  assert (Hl' : live d2 r.(StorageEffect.session) r.(StorageEffect.idempotency_key) = Some r) by by rewrite Hs, Hk.
  cbn [EffectRecord.from_row EffectRecord.connector].
  destruct (StorageEffect.connector r) as [cname|] eqn:Hc; [|exact Ha2]. cbn [option_bind].
  unfold demo_connectors. destruct (decide (cname = "bank.wire")) as [->|Hne];
    [rewrite lookup_singleton_eq|by rewrite lookup_singleton_ne].
  destruct Ha2 as (Hwf & Hb & Hrows).
  destruct (Hrows _ _ _ Hl Hc) as (b & Hkey & _). cbn in Hb, Hwf, Hrows.
  unfold attempt, ext. cbn [Connector.dispatch DemoBankConnector].
  destruct (demo_dispatch_spec (EffectRecord.from_row r) w1 b Hb Hkey)
    as (outcome & w2 & -> & Hb2 & Hmono & Hknown & Hout). cbn [fst snd].
  change {| EffectRecord.session := _ |} with (EffectRecord.from_row r).
  rewrite settle_dispatch_exact by done. cbn [snd].
  eapply agree_world; [apply demo_now_bank|].
  apply (agree_with_effect _ _ r); [|done|apply settled_pk|apply settled_business|apply settled_ok|].
  - split_and!; [done..|]. intros k key x Hx. eapply settled_bank; [exact Hmono|]. by eapply Hrows.
  - by apply (settled_outcome _ _ _ _ _ _ _ b); rewrite ?Hst.
Qed.

Lemma agree_clock d w w1 clk : agree (d, w) -> demo_now now w = (clk, w1) -> agree (d, w1).
Proof.
  intros Ha Ew. eapply agree_world; [|exact Ha]. pose proof (demo_now_bank w) as Hn.
  by rewrite Ew in Hn.
Qed.

Lemma stable_query {A} (m : M Db.t A) :
  (forall d, run_state m d = d) -> stable agree (on_fst m).
Proof.
  intros Hm [d w] Ha. unfold on_fst. cbn. specialize (Hm d). unfold run_state in Hm.
  destruct (m d) as [r d']. cbn in *. by subst.
Qed.
Lemma stable_clock : stable agree (read_clock (demo_now now)).
Proof.
  intros [d w] Ha. unfold read_clock. destruct (demo_now now w) as [clk w1] eqn:Ew.
  by eapply agree_clock.
Qed.

Lemma dispatch_tick_agrees claimer lim ttl db mb :
  stable agree (dispatch_outbox_once (demo_now now) exn_text py_str (demo_connectors compensate)
    claimer lim ttl db mb).
Proof.
  apply stable_bind; [apply stable_clock|]. intros t. apply stable_bind.
  - apply stable_bind; [apply stable_clock|]. intros clk. by apply stable_query.
  - intros effects. apply stable_for_each. intros eff _. apply dispatch_agrees.
Qed.

(** *** The reconciler *)

(** A listed record still describes its row, if the row is there. *)
Definition describes (d : Db.t) (eff : EffectRecord.t) : Prop :=
  forall r, live d eff.(EffectRecord.session) eff.(EffectRecord.idempotency_key) = Some r ->
    r.(StorageEffect.connector) = eff.(EffectRecord.connector) /\
    r.(StorageEffect.business_key) = eff.(EffectRecord.business_key).

Lemma describes_step op d eff :
  wf d -> describes d eff -> (forall clk a, op <> BeginEffect clk a) -> describes (step op d) eff.
Proof.
  intros Hwf He Hop r' Hr'.
  destruct (live d (EffectRecord.session eff) (EffectRecord.idempotency_key eff)) as [r|] eqn:E.
  - destruct (He r E) as [<- <-]. pose proof (step_effect _ _ _ _ _ _ Hwf E Hr') as Hch.
    destruct op; cbn in Hch; try by subst.
    + by destruct Hch as [->|(_ & _ & _ & ->)].
    + by destruct Hch as [->|(_ & _ & ->)].
    + destruct Hch as [->|(_ & ->)]; [done|]. unfold attempted. by case_decide.
    + destruct Hch as [->|(_ & r1 & Ho & ->)]; [done|].
      by destruct (observed_spec _ _ _ _ _ _ Ho) as [(_ & _ & _ & _ & _ & ? & ? & _) _].
    + by destruct Hch as [->|(_ & ->)].
  - destruct (step_new_effect op d _ _ _ Hwf E Hr') as (clk & a & -> & _). by destruct (Hop clk a).
Qed.

Lemma reconcile_agrees effs eff :
  eff ∈ effs ->
  stable (fun s => agree s /\ Forall (describes s.1) effs)
    (reconcile_effect (demo_now now) (demo_connectors compensate) eff).
Proof.
  intros Hin [d w] [Ha Hd]. unfold reconcile_effect.
  unfold demo_connectors.
  destruct (decide (default "" (str_or_none (EffectRecord.connector eff)) = "bank.wire")) as [Hc|Hne];
    [rewrite Hc, lookup_singleton_eq|by rewrite lookup_singleton_ne].
  assert (Hconn : EffectRecord.connector eff = Some "bank.wire").
  { destruct (EffectRecord.connector eff) as [[|? ?]|]; cbn in Hc; congruence. }
  unfold mbind, M_bind, attempt, ext. cbn [Connector.observe DemoBankConnector]. unfold demo_observe.
  set (obs := (rec ← _; _)). cbn [fst snd]. destruct obs as [o|ex] eqn:Eo; [|done].
  unfold svc, read_clock, on_fst, mbind, M_bind. destruct (demo_now now w) as [clk w1] eqn:Ew. cbn [fst snd].
  pose proof (agree_clock _ _ _ _ Ha Ew) as Ha1. pose proof Ha1 as (Hwf & _ & Hrows).
  assert (Hbank : bank w1 = bank w) by (pose proof (demo_now_bank w) as Hn; by rewrite Ew in Hn).
  set (op := ObserveEffect clk (EffectRecord.session eff) (EffectRecord.idempotency_key eff)
    (ObservationResult.status o) (ObservationResult.external_ref o) (ObservationResult.response o)
    (ObservationResult.error o) (ObservationResult.compensate_kind o)).
  assert (Hgoal : agree (step op d, w1) /\ Forall (describes (step op d)) effs).
  { split.
    2: { eapply Forall_impl; [exact Hd|]. intros e He. by apply describes_step. }
    apply agree_step; [done| |done]. intros k key r r' Hl [->|([= <- <-] & r1 & Ho & ->)] Hr; [done|].
    intros Hcr. cbn in Hcr.
    destruct (observed_spec _ _ _ _ _ _ Ho) as [(_ & _ & _ & _ & _ & Hcon & Hbk & _) _].
    rewrite Hcon in Hcr. destruct (Hr Hcr) as (b & Hb & Hs). exists b. cbn. split; [congruence|].
    assert (Heb : EffectRecord.business_key eff = Some b).
    { rewrite Forall_forall in Hd. by destruct (Hd eff Hin r Hl) as [_ <-]. }
    subst obs. rewrite Heb in Eo. cbn [default id] in Eo.
    destruct Ha as (_ & (led & Hled & Hnd & Hf) & _). cbn in Hled.
    rewrite (demo_finds b (bank w)) in Eo by by exists led. rewrite Hled in Eo.
    destruct (dict_get b led) as [rec|] eqn:Eg; cbn in Eo.
    - destruct (filed_wire_id b led rec Hf Eg) as (n & Hn). rewrite Hn in Eo. cbn in Eo.
      injection Eo as <-. cbn in Ho. injection Ho as <-. intros _. exists (wire_id_of n). split; [done|].
      rewrite Hbank. by exists led, rec.
    - injection Eo as <-. cbn in Ho. injection Ho as <-. case_decide; cbn; [done|exact Hs]. }
  cbn [step op] in Hgoal. unfold run_state in Hgoal.
  by destruct (record_external_observation _ _ _ _ _ _ _ _ d) as [[?|?] d2].
Qed.

Lemma listed_describes d (P : StorageEffect.t -> Prop) `{!∀ r, Decision (P r)} lim :
  wf d ->
  Forall (describes d) (EffectRecord.from_row <$> limit lim (order_by StorageEffect.ts_ms
    (select_where P d.(Db.effects)))).
Proof.
  intros Hwf. apply Forall_fmap, Forall_forall. intros r Hr%elem_of_limit%elem_of_order_by%elem_of_select.
  destruct Hr as [_ Hin]. intros r' Hl. cbn in Hl. cbn.
  assert (live d r.(StorageEffect.session) r.(StorageEffect.idempotency_key) = Some r) as Hr.
  { apply row_at_Some; [apply Hwf|]. by split. }
  rewrite Hr in Hl. by injection Hl as <-.
Qed.

Lemma reconcile_tick_agrees stale lim :
  stable agree (reconcile_once (demo_now now) (demo_connectors compensate) stale lim).
Proof.
  apply stable_bind.
  { destruct (decide (0 < stale)%Z); [|by intros s Hs]. apply stable_bind; [apply stable_clock|by intros t s Hs]. }
  intros cutoff [d w] Ha. unfold on_fst, list_pending_effects, mbind at 1, M_bind. cbn [fst snd].
  monad_simpl. rewrite andb_false_r. cbn [fst snd].
  set (effs := EffectRecord.from_row <$> _).
  apply (stable_for_each (fun s => agree s /\ Forall (describes s.1) effs) effs
    (reconcile_effect (demo_now now) (demo_connectors compensate))).
  - intros eff Hin. by apply reconcile_agrees.
  - split; [done|]. apply listed_describes, Ha.
Qed.

(** ** Any sequence of operations and ticks *)
Inductive reaches : Db.t * DemoWorld C -> Prop :=
  | reaches_start ss c : reaches (Db.empty ss, mkDemoWorld None 0 c)
  | reaches_op op d w : reaches (d, w) -> admissible op d -> reaches (step op d, w)
  | reaches_dispatch claimer lim ttl db mb s : reaches s ->
      reaches (dispatch_outbox_once (demo_now now) exn_text py_str (demo_connectors compensate)
        claimer lim ttl db mb s).2
  | reaches_reconcile stale lim s : reaches s ->
      reaches (reconcile_once (demo_now now) (demo_connectors compensate) stale lim s).2.

Lemma reaches_agree s : reaches s -> agree s.
Proof.
  induction 1 as [ss c|op d w _ IH Hadm|claimer lim ttl db mb s _ IH|stale lim s _ IH].
  - split_and!; [apply wf_empty| |done].
    exists []. split_and!; [done|constructor..].
  - by apply agree_op.
  - by apply dispatch_tick_agrees.
  - by apply reconcile_tick_agrees.
Qed.

(** The records of a business key. *)
Definition wires_of (b : string) (wires : list json) : list json :=
  List.filter (fun rec => match rec_get "business_key" rec with
                          | Ok v => is_key (Some b) v | Err _ => false end) wires.

Lemma wires_of_filed b d :
  NoDup d.*1 -> Forall filed d ->
  wires_of b d.*2 = match dict_get b d with Some rec => [rec] | None => [] end.
Proof.
  intros Hnd Hf. revert Hnd. induction Hf as [|[k rec] d (n & am & ac & Hrec) Hf IH]; [done|].
  cbn in Hrec. subst rec. cbn [fmap list_fmap fst]. intros [Hk Hnd]%NoDup_cons.
  change (wires_of b (_ :: d.*2)) with
    (if bool_decide (k = b) then wire_rec n am ac (Some k) :: wires_of b d.*2 else wires_of b d.*2).
  rewrite (IH Hnd). cbn [dict_get]. case_bool_decide as E.
  - subst. rewrite decide_True by done. destruct (dict_get b d) eqn:Eg; [|done].
    by apply dict_get_keys in Eg.
  - by rewrite decide_False by congruence.
Qed.

(** C6: Over any sequence of dispatcher and reconciler ticks on the bank's connector, which
    loses its first acknowledgement, and of operations of other processes between them that
    journal the bank's effects with a business key, and leave it to the reactors to confirm
    one and to write a confirmed one's reference: the bank has at most one wire per business
    key, and every effect of the bank that the journal calls CONFIRMED is that one wire,
    with the reference the journal recorded. *)
Theorem journal_agrees_with_bank s :
  reaches s ->
  exists wires, file_wires (bank s.2) = Ok wires /\
    (forall b, length (wires_of b wires) <= 1) /\
    forall k key r, live s.1 k key = Some r -> r.(StorageEffect.connector) = Some "bank.wire" ->
      r.(StorageEffect.status) = EffectStatus.CONFIRMED ->
      exists b rec ref, r.(StorageEffect.business_key) = Some b /\ wires_of b wires = [rec] /\
        wire_id rec = Ok ref /\ r.(StorageEffect.external_ref) = Some ref.
Proof.
  intros (_ & (d & Hd & Hnd & Hf) & Hr)%reaches_agree. exists d.*2.
  split_and!; [unfold file_wires; by rewrite Hd|..].
  - intros b. rewrite wires_of_filed by done. destruct (dict_get b d); cbn; lia.
  - intros k key r Hl Hc Hst. destruct (Hr k key r Hl Hc) as (b & Hb & Hs).
    destruct (Hs Hst) as (ref & Hx & d' & rec & Hd' & Hg & Hw). rewrite Hd in Hd'. injection Hd' as <-.
    exists b, rec, ref. by rewrite wires_of_filed, Hg.
Qed.
End agreement.

(** ** The embedded demo *)
Section demo_run.
Context {C : Type}.
Variable now : C -> Z * C.
Variable compensate : ObligationRecord.t -> M (DemoWorld C) CompensationResult.t.
Variable exn_text : exn -> string.
Variable py_str : json -> string.
Variables session_hex invocation_hex : string.
Hypothesis now_positive : forall c, (0 < (now c).1)%Z.

Definition the_session : SKey := demo_session session_hex.
Definition the_effect : BeginArgs.t := demo_effect session_hex invocation_hex.
(** The store after the effect is journaled at [clk]. *)
Definition demo_store (r : StorageEffect.t) : Db.t :=
  Db.set_effects [r] (create_session the_session (Db.empty [])).

Lemma demo_store_session r : (demo_store r).(Db.sessions) = [the_session].
Proof. done. Qed.

Lemma demo_live r s key : StorageEffect.pk r = (s, key) -> live (demo_store r) s key = Some r.
Proof.
  intros Hpk. change (live (demo_store r) s key) with (row_at StorageEffect.pk (s, key) [r]).
  by rewrite row_at_cons, decide_True.
Qed.
Lemma demo_with_effect r r0 :
  StorageEffect.pk r = StorageEffect.pk r0 -> with_effect r (demo_store r0) = demo_store r.
Proof. intros Hpk. unfold with_effect, demo_store, update_where. cbn. by rewrite decide_True. Qed.

Lemma demo_begin clk :
  begin_effect clk the_effect (create_session the_session (Db.empty [])) =
  (Ok (EffectRecord.from_row (fresh_effect clk the_effect)), demo_store (fresh_effect clk the_effect)).
Proof.
  rewrite begin_effect_eval by apply create_session_wf, wf_empty.
  change (begin_refusal the_effect) with (@None message). cbn [live row_at].
  change (captured_at _ _) with (@None Captured.t). cbv zeta. rewrite decide_True; [done|].
  split; [done|]. split; [right; constructor|]. by left.
Qed.

Lemma demo_store_wf clk r :
  StorageEffect.pk r = StorageEffect.pk (fresh_effect clk the_effect) ->
  StorageEffect.business r = StorageEffect.business (fresh_effect clk the_effect) ->
  (effect_ok (fresh_effect clk the_effect) -> effect_ok r) -> wf (demo_store r).
Proof.
  intros Hpk Hb Hok.
  assert (Hwf : wf (demo_store (fresh_effect clk the_effect))).
  { pose proof (begin_effect_wf (create_session the_session (Db.empty []))
      (create_session_wf _ _ (wf_empty [])) clk the_effect) as Hw.
    unfold run_state in Hw. by rewrite demo_begin in Hw. }
  rewrite <- (demo_with_effect r (fresh_effect clk the_effect)) by done. injection Hpk as Hs Hk.
  apply (wf_with_effect _ _ (fresh_effect clk the_effect)); [done| |done..].
  rewrite Hs, Hk. by apply demo_live.
Qed.

(** The bank's file after the demo's wire. *)
Definition demo_ledger : FileBank :=
  Some (JObj [(demo_business_key,
    wire_rec 0 (JInt 2000000) (JStr "acct-1") (Some demo_business_key))]).
Definition lost_ack : DispatchResult.t :=
  DispatchResult.mk "unknown" "" JNull (JObj [("reason", JStr "simulated lost ack")]) 0.
Definition unknown_effect (t clk clk' : Z) (ex : string) : StorageEffect.t :=
  attempted clk' ex 0 (leased "demo-dispatcher" (t + 60000) (fresh_effect clk the_effect)).

(** The queue of a store that holds one row. *)
Lemma one_row_queue (P : StorageEffect.t -> Prop) `{!∀ r, Decision (P r)} r lim :
  P r -> limit (S lim) (order_by StorageEffect.ts_ms (select_where P [r])) = [r].
Proof. intros Hp. unfold select_where. rewrite filter_cons_True, filter_nil by done.
  change (order_by StorageEffect.ts_ms [r]) with [r]. unfold limit. cbn. by rewrite take_nil. Qed.

(** The dispatcher's tick: one call of the bank, whose acknowledgement is lost. *)
Lemma demo_dispatch_tick clk c :
  exists ex clk' c',
    dispatch_outbox_once (demo_now now) exn_text py_str (demo_connectors compensate) "demo-dispatcher"
      50 60000 5000 300000 (demo_store (fresh_effect clk the_effect), mkDemoWorld None 0 c) =
    (Ok [DUnknown (effect_key the_effect)],
     (demo_store (unknown_effect (now c).1 clk clk' ex), mkDemoWorld demo_ledger 1 c')).
Proof.
  set (r0 := fresh_effect clk the_effect).
  destruct (now c) as [t c1] eqn:E1. destruct (now c1) as [clk1 c2] eqn:E2.
  destruct (now c2) as [clk2 c3] eqn:E3. destruct (now c3) as [clk3 c4] eqn:E4.
  assert (Ht : (0 < t)%Z) by (pose proof (now_positive c) as H; by rewrite E1 in H).
  assert (Hto : forall x, int_or t x = t) by (intros x; unfold int_or; destruct (Z.eqb_spec t 0); lia).
  assert (Hd : dispatchable t r0) by (split_and!; [done..|cbn; lia|by left]).
  eexists _, clk3, c4.
  unfold dispatch_outbox_once, mbind at 1, M_bind, read_clock at 1, demo_now at 1. cbn [clock].
  rewrite E1. cbn [bank n_dispatches].
  unfold mbind at 1, M_bind, svc at 1, mbind at 1, M_bind, read_clock at 1, demo_now at 1. cbn [clock].
  rewrite E2. unfold on_fst. cbn [fst snd bank n_dispatches]. rewrite list_effects_to_dispatch_eval.
  change (Db.effects (demo_store r0)) with [r0]. rewrite Hto, one_row_queue by (split; [exact Hd|by left]).
  cbn [fmap list_fmap for_each fst snd].
  pose proof (dispatch_effect_exact (demo_now now) exn_text py_str (demo_connectors compensate)
    (demo_store r0) (mkDemoWorld None 0 c2) t "demo-dispatcher" 60000 5000 300000 r0 "bank.wire"
    (DemoBankConnector compensate) clk2 (mkDemoWorld None 0 c3) (Ok lost_ack)
    (mkDemoWorld demo_ledger 1 c3)) as He. cbv zeta in He.
  rewrite Hto in He. unfold mbind at 1, M_bind. rewrite He; clear He.
  - replace (demo_now now (mkDemoWorld demo_ledger 1 c3)) with (clk3, mkDemoWorld demo_ledger 1 c4)
      by (unfold demo_now; cbn; by rewrite E4).
    cbn [fst snd]. rewrite demo_with_effect by done. done.
  - by apply (demo_store_wf clk).
  - by apply demo_live.
  - done.
  - apply lookup_singleton_eq.
  - unfold demo_now. cbn. by rewrite E3.
  - exact Hd.
  - done.
  - cbn. unfold dispatch_statuses. set_solver.
Qed.

Lemma unknown_effect_facts t clk clk' ex :
  let r := unknown_effect t clk clk' ex in
  wf (demo_store r) /\ StorageEffect.pk r = (the_session, effect_key the_effect) /\
  r.(StorageEffect.connector) = Some "bank.wire" /\
  r.(StorageEffect.business_key) = Some demo_business_key /\
  r.(StorageEffect.status) = EffectStatus.UNKNOWN.
Proof.
  split; [|by split_and!]. apply (demo_store_wf clk); [done..|].
  intros Hok. apply attempted_ok. by apply leased_ok.
Qed.

(** The reconciler's tick: the bank is asked, and has the wire. *)
Lemma demo_reconcile_tick r key c :
  wf (demo_store r) -> StorageEffect.pk r = (the_session, key) ->
  r.(StorageEffect.connector) = Some "bank.wire" ->
  r.(StorageEffect.business_key) = Some demo_business_key ->
  r.(StorageEffect.status) = EffectStatus.UNKNOWN ->
  exists c' row,
    reconcile_once (demo_now now) (demo_connectors compensate) 0 50
      (demo_store r, mkDemoWorld demo_ledger 1 c) =
    (Ok [ROutcome key "confirmed" "wire-0001"], (demo_store row, mkDemoWorld demo_ledger 1 c')) /\
    StorageEffect.pk row = (the_session, key) /\
    row.(StorageEffect.status) = EffectStatus.CONFIRMED /\
    row.(StorageEffect.external_ref) = Some "wire-0001".
Proof.
  intros Hwf [= Hs Hk] Hc Hb Hst. destruct (now c) as [clk1 c1] eqn:E1.
  set (obs := ObservationResult.mk "confirmed" "wire-0001" (JObj [("wire_id", JStr "wire-0001")]) JNull "").
  set (row := StorageEffect.set_ts_ms clk1 (StorageEffect.set_response_json obs.(ObservationResult.response)
    (StorageEffect.set_external_ref (Some "wire-0001")
      (StorageEffect.set_status EffectStatus.CONFIRMED r)))).
  exists c1, row. split; [|split_and!; [by rewrite <- Hs, <- Hk|done..]].
  unfold reconcile_once.
  unfold mbind at 1, M_bind. rewrite decide_False by lia. unfold mret at 1, M_ret.
  unfold mbind at 1, M_bind, on_fst at 1, list_pending_effects. monad_simpl.
  rewrite bool_decide_false by lia. cbn [negb andb fst snd].
  change (Db.effects (demo_store r)) with [r].
  rewrite one_row_queue by (unfold pending_filter; by rewrite Hst).
  cbn [fmap list_fmap for_each fst snd]. unfold reconcile_effect.
  cbn [EffectRecord.from_row EffectRecord.connector EffectRecord.session EffectRecord.idempotency_key].
  rewrite Hc, Hs, Hk. cbn [default str_or_none id]. unfold demo_connectors at 1. rewrite lookup_singleton_eq.
  unfold mbind at 1, M_bind, mbind at 1, M_bind, attempt, ext. cbn [Connector.observe DemoBankConnector].
  assert (Ho : demo_observe (EffectRecord.from_row r) (mkDemoWorld demo_ledger 1 c)
    = (Ok obs, mkDemoWorld demo_ledger 1 c)).
  { unfold demo_observe. cbn [EffectRecord.from_row EffectRecord.business_key]. by rewrite Hb. }
  rewrite Ho. unfold svc, mbind, M_bind, read_clock, demo_now. cbn [clock]. rewrite E1.
  unfold on_fst. cbn [bank n_dispatches fst snd]. rewrite record_external_observation_eval by done.
  rewrite (demo_live r the_session key) by (by rewrite <- Hs, <- Hk).
  assert (Hobs : observed obs.(ObservationResult.status) obs.(ObservationResult.external_ref)
    obs.(ObservationResult.response) obs.(ObservationResult.error) r =
    Some (StorageEffect.set_response_json obs.(ObservationResult.response)
      (StorageEffect.set_external_ref (Some "wire-0001")
        (StorageEffect.set_status EffectStatus.CONFIRMED r)))) by done.
  rewrite Hobs. cbv zeta. rewrite decide_False by (intros [[=] _]). cbn [fst snd].
  fold row. by rewrite (demo_with_effect row r).
Qed.

(** The embedded demo ends with exit code 0 whatever its clock reads and whatever names it
    draws: the first dispatch loses its acknowledgement, the reconciler finds the wire,
    the effect is CONFIRMED with its reference, and the bank holds exactly one wire. *)
Theorem embedded_demo_ends c :
  exists r c',
    demo_run now compensate exn_text py_str session_hex invocation_hex
      (Db.empty [], mkDemoWorld None 0 c) =
    (Ok (Some ("s-" +:+ session_hex), 0%Z), (demo_store r, mkDemoWorld demo_ledger 1 c')) /\
    StorageEffect.pk r = (the_session, effect_key the_effect) /\
    r.(StorageEffect.status) = EffectStatus.CONFIRMED /\
    r.(StorageEffect.external_ref) = Some "wire-0001".
Proof.
  destruct (now c) as [clk c0] eqn:E.
  destruct (demo_dispatch_tick clk c0) as (ex & clk' & c1 & Hd).
  destruct (unknown_effect_facts (now c0).1 clk clk' ex) as (Hwf & Hp & Hc & Hb & Hu).
  destruct (demo_reconcile_tick _ _ c1 Hwf Hp Hc Hb Hu) as (c2 & r & Hr & Hpk & Hst & Href).
  exists r, c2. split; [|by split_and!]. unfold demo_run.
  unfold mbind at 1, M_bind, on_fst at 1. cbn [fst snd].
  unfold mbind at 1, M_bind, svc at 1, mbind at 1, M_bind, read_clock at 1, demo_now at 1. cbn [clock].
  rewrite E. unfold on_fst at 1. cbn [fst snd bank n_dispatches].
  change (demo_effect session_hex invocation_hex) with the_effect.
  change (create_session (demo_session session_hex) (Db.empty [])) with
    (create_session the_session (Db.empty [])).
  rewrite demo_begin. cbn [fst snd]. unfold mbind at 1, M_bind. rewrite Hd. cbn [existsb is_unknown orb negb].
  unfold mbind at 1, M_bind. rewrite Hr. done.
Qed.
End demo_run.

(** ** The template's payment connector *)

#[export] Instance payment_connector_lawful : LawfulConnector PaymentConnector.
Proof.
  split; intros ? w r w'; cbn; unfold payment_dispatch, payment_observe, payment_compensate.
  - unfold dispatch_statuses. case_match; intros [= <- <-]; set_solver.
  - unfold observation_statuses. case_match; intros [= <- <-]; set_solver.
  - unfold compensation_statuses. destruct (req_get _ _ _); [|done]. cbn. intros [= <- <-]. set_solver.
Qed.

(** A charge is made once: every further dispatch of the business key answers the same
    charge and leaves the ledger, every observation confirms it, and the charges of other
    keys are not touched. *)
Theorem payment_charged_once e e' w r w' :
  payment_dispatch e w = (Ok r, w') -> payment_key e' = payment_key e ->
  payment_dispatch e' w' = (Ok r, w') /\
  payment_observe e' w' = (Ok (ObservationResult.mk "confirmed" r.(DispatchResult.external_ref) JNull JNull ""), w') /\
  forall k, k <> payment_key e -> w' !! k = w !! k.
Proof.
  unfold payment_dispatch, payment_observe. intros Hd ->.
  destruct (w !! payment_key e) as [ref|] eqn:E; injection Hd as <- <-.
  - by rewrite E.
  - rewrite lookup_insert_eq. split_and!; [done..|]. intros k Hk. by rewrite lookup_insert_ne.
Qed.

(** ** Concrete runs *)
Definition demo_clock (z : Z) : Z * Z := (Z.max 1 z, (z + 1)%Z).
Definition no_compensation (o : ObligationRecord.t) : M (DemoWorld Z) CompensationResult.t := raise TypeError.
Definition demo_end : Db.t * DemoWorld Z :=
  (reconcile_once (demo_now demo_clock) (demo_connectors no_compensation) 0 50
    (dispatch_outbox_once (demo_now demo_clock) (fun _ => "") (fun _ => "") (demo_connectors no_compensation)
      "d1" 50 60000 5000 300000
      (step (BeginEffect 1000 (demo_effect "0a1b2c" "0a1b2c3d"))
        (Db.empty [demo_session "0a1b2c"]), mkDemoWorld None 0 2000%Z)).2).2.

Lemma journal_agrees_with_bank_witness :
  exists wires, file_wires (bank demo_end.2) = Ok wires /\
    (forall b, length (wires_of b wires) <= 1) /\
    forall k key r, live demo_end.1 k key = Some r -> r.(StorageEffect.connector) = Some "bank.wire" ->
      r.(StorageEffect.status) = EffectStatus.CONFIRMED ->
      exists b rec ref, r.(StorageEffect.business_key) = Some b /\ wires_of b wires = [rec] /\
        wire_id rec = Ok ref /\ r.(StorageEffect.external_ref) = Some ref.
Proof.
  refine (journal_agrees_with_bank demo_clock no_compensation (fun _ => "") (fun _ => "") demo_end _).
  unfold demo_end. apply reaches_reconcile, reaches_dispatch, reaches_op; [apply reaches_start|].
  intros _. eexists. reflexivity.
Defined.

Lemma embedded_demo_ends_witness :
  exists r c',
    demo_run demo_clock no_compensation (fun _ => "") (fun _ => "") "0a1b2c" "0a1b2c3d"
      (Db.empty [], mkDemoWorld None 0 5%Z) =
    (Ok (Some ("s-" +:+ "0a1b2c"), 0%Z), (demo_store "0a1b2c" r, mkDemoWorld demo_ledger 1 c')) /\
    StorageEffect.pk r = (the_session "0a1b2c", effect_key (the_effect "0a1b2c" "0a1b2c3d")) /\
    r.(StorageEffect.status) = EffectStatus.CONFIRMED /\
    r.(StorageEffect.external_ref) = Some "wire-0001".
Proof. apply (embedded_demo_ends demo_clock). intros c. cbn. lia. Defined.

Definition payment_effect : EffectRecord.t :=
  EffectRecord.from_row (fresh_effect 1000 (demo_effect "0a1b2c" "0a1b2c3d")).
Lemma payment_charged_once_witness :
  payment_dispatch payment_effect {[demo_business_key := "ch_000001"]} =
    (Ok (charged "ch_000001"), {[demo_business_key := "ch_000001"]}) /\
  payment_observe payment_effect {[demo_business_key := "ch_000001"]} =
    (Ok (ObservationResult.mk "confirmed" "ch_000001" JNull JNull ""), {[demo_business_key := "ch_000001"]}) /\
  forall k, k <> demo_business_key ->
    ({[demo_business_key := "ch_000001"]} : gmap string string) !! k = (∅ : gmap string string) !! k.
Proof. exact (payment_charged_once payment_effect payment_effect ∅ (charged "ch_000001") _ eq_refl eq_refl). Defined.

(** Two effects without a business key are one charge. *)
Definition keyless (key : string) : EffectRecord.t :=
  EffectRecord.from_row (fresh_effect 1000 (BeginArgs.mk (demo_session "0a1b2c") "inv" 0 key 0 JNull key
    EffectSemantics.IDEMPOTENT EffectDispatchMode.OUTBOX None (Some "payment"))).
Example keyless_effects_share_a_charge :
  let '(r1, w1) := payment_dispatch (keyless "a") ∅ in
  let '(r2, w2) := payment_dispatch (keyless "b") w1 in
  r1 = r2 /\ r1 = Ok (charged "ch_000001").
Proof. vm_compute. by split. Qed.
