(* ===== verification/Treasury.v ===== *)
(** * Treasury: the counterparties of the treasury example, [examples/treasury/]

    File-backed ledgers that deduplicate by an idempotency key, with the crash and the lost
    acknowledgement that can follow a recorded effect, and the tools of the agent.

    A counterparty of [Treasury] performs once however often it is called with one key,
    through crashes and lost acknowledgements, and its status check says what happened. *)

From S2P Require Import Prelude Scenarios ScenarioTheorems Contracts Client ExampleBank DemoBank.
#[local] Open Scope nat_scope.

(** ** [_FileLedger] *)

(** [_load] answers [{}] for a file that is missing or cannot be read. *)
Definition FileLedger : Type := option json.
Definition ledger_load (f : FileLedger) : json := default (JObj []) f.
Definition ledger_get (key : string) (f : FileLedger) : result (option json) :=
  match ledger_load f with
  | JObj d => Ok (match dict_get key d with Some JNull => None | r => r end)
  | _ => Err AttributeError
  end.
(** [put_if_absent] on a ledger that is a dict; any other content raises in [get] first. *)
Definition put_if_absent (key : string) (record : json) : M FileLedger json := fun f =>
  match ledger_load f with
  | JObj d => match dict_get key d with
              | Some r => (Ok r, f)
              | None => (Ok record, Some (JObj (dict_set key record d)))
              end
  | _ => (Err TypeError, f)
  end.
Definition ledger_all (f : FileLedger) : json := ledger_load f.
(** [len(self.ledger.all())] *)
Definition ledger_size (f : FileLedger) : result nat :=
  match ledger_all f with
  | JObj d => Ok (length d) | JList l => Ok (length l) | JStr s => Ok (String.length s)
  | _ => Err TypeError
  end.

(** ** How a call of a counterparty ends *)
Inductive ending := Returns (v : json) | Raises (e : exn) | Dies.

(** [TAPE_CRASH_AFTER] and [TAPE_ACKLOST_AFTER] *)
Record Env := mkEnv { crash_after : string; acklost_after : string }.

Definition AckLost (tool : string) : exn :=
  Raised "AckLost" (tool +:+ ": acknowledgement lost (the request did land)").
Definition maybe_acklost (env : Env) (tool : string) : option exn :=
  if bool_decide (env.(acklost_after) = tool) then Some (AckLost tool) else None.
Definition maybe_crash (env : Env) (tool : string) : bool := bool_decide (env.(crash_after) = tool).

(** The part [wire], [place] and [post] share: answer the recorded identifier, or mint one
    from the size of the ledger, record it, and then lose the acknowledgement, die, or
    return it. *)
Definition perform (lossy : bool) (tool field prefix key : string) (fields : pydict) (env : Env)
    (f : FileLedger) : ending * FileLedger :=
  match ledger_get key f with
  | Err e => (Raises e, f)
  | Ok (Some existing) =>
    (match getitem existing field with Ok v => Returns v | Err e => Raises e end, f)
  | Ok None =>
    match ledger_size f with
    | Err e => (Raises e, f)
    | Ok n =>
      let id := prefix +:+ zero_pad 4 (n + 1) in
      match put_if_absent key (JObj ((field, JStr id) :: fields)) f with
      | (Err e, f') => (Raises e, f')
      | (Ok _, f') =>
        (match (if lossy then maybe_acklost env tool else None) with
         | Some e => Raises e
         | None => if maybe_crash env tool then Dies else Returns (JStr id)
         end, f')
      end
    end
  end.

(** ** [FakeBank], [FakeBroker], [FakeGL] *)

Definition bank_wire (account_id amount_minor target_mmf : json) (idempotency_key : string) :=
  perform true "execute_sweep" "wire_id" "wire-" idempotency_key
    [("account_id", account_id); ("amount_minor", amount_minor); ("target_mmf", target_mmf)].
Definition broker_place (instrument notional_minor : json) (idempotency_key : string) :=
  perform false "execute_hedge" "order_id" "order-" idempotency_key
    [("instrument", instrument); ("notional_minor", notional_minor)].
(** The recorded fields of [post] come in this order: the identifier, then the entries. *)
Definition gl_post (entries : json) (idempotency_key : string) :=
  perform false "post_gl" "batch_id" "gl-batch-" idempotency_key [("entries", entries)].

Definition bank_reverse (wire_id : string) (f : FileLedger) : result json * FileLedger :=
  let key := "reverse:" +:+ wire_id in
  match ledger_get key f with
  | Err e => (Err e, f)
  | Ok (Some rev) => (getitem rev "reversal_id", f)
  | Ok None =>
    let reversal_id := "reversal-of-" +:+ wire_id in
    match put_if_absent key (JObj [("reversal_id", JStr reversal_id)]) f with
    | (Err e, f') => (Err e, f')
    | (Ok _, f') => (Ok (JStr reversal_id), f')
    end
  end.

(** [wire_status] and [order_status]: a record that is an empty dict is found, but falsy. *)
Definition status_of (field : string) (idempotency_key : string) (f : FileLedger) : result pydict :=
  rec ← ledger_get idempotency_key f;
  match rec with
  | None => mret [("found", JBool false); (field, JNull)]
  | Some rec =>
    v ← (if json_truthy rec then getitem rec field else mret JNull);
    mret [("found", JBool true); (field, v)]
  end.
Definition wire_status := status_of "wire_id".
Definition order_status := status_of "order_id".

(** [count]: the bank's leaves the reversals out. *)
Fixpoint count_forward (keys : list json) : result nat :=
  match keys with
  | [] => mret 0
  | JStr k :: keys => n ← count_forward keys; mret (if starts_with "reverse:" k then n else S n)
  | _ :: _ => Err AttributeError
  end.
Definition bank_count (f : FileLedger) : result nat :=
  keys ← py_iter (ledger_all f); count_forward keys.
Definition gl_count := ledger_size.

(** ** The agent's tools, [agent.py]

    [key] is [tape.idempotency_key(tool_context)]. *)
Definition and_then (r : ending * FileLedger) (k : json -> json) : ending * FileLedger :=
  match r with (Returns v, f) => (Returns (k v), f) | (e, f) => (e, f) end.

Definition execute_sweep (account_id amount_minor target_mmf : json) (key : string) (env : Env)
    (f : FileLedger) : ending * FileLedger :=
  and_then (bank_wire account_id amount_minor target_mmf key env f) (fun wire_id =>
    JObj [("wire_id", wire_id); ("amount_minor", amount_minor); ("target_mmf", target_mmf)]).
Definition execute_hedge (notional_minor instrument : json) (key : string) (env : Env)
    (f : FileLedger) : ending * FileLedger :=
  and_then (broker_place instrument notional_minor key env f) (fun order_id =>
    JObj [("order_id", order_id); ("instrument", instrument); ("notional_minor", notional_minor)]).
Definition post_gl (entries : list json) (key : string) (env : Env) (f : FileLedger)
    : ending * FileLedger :=
  and_then (gl_post (JList entries) key env f) (fun batch_id =>
    JObj [("batch_id", batch_id); ("n_entries", JInt (Z.of_nat (length entries)))]).
Definition reverse_wire (wire_id : string) (f : FileLedger) : result json * FileLedger :=
  match bank_reverse wire_id f with
  | (Ok v, f') => (Ok (JObj [("reversal_id", v)]), f')
  | (Err e, f') => (Err e, f')
  end.

(** The policy of [ScriptedLlm]: the next tool, given the tools that have responded. *)
Definition scripted_next (responded : list string) : option string :=
  if negb (bool_decide ("execute_sweep" ∈ responded)) then Some "execute_sweep"
  else if negb (bool_decide ("post_gl" ∈ responded)) then Some "post_gl"
  else None.

(** The attempts of one key, each in its own environment. *)
Fixpoint attempts (lossy : bool) (tool field prefix key : string) (fields : pydict)
    (envs : list Env) (f : FileLedger) : list ending * FileLedger :=
  match envs with
  | [] => ([], f)
  | env :: envs =>
    let '(e, f1) := perform lossy tool field prefix key fields env f in
    let '(es, f2) := attempts lossy tool field prefix key fields envs f1 in (e :: es, f2)
  end.

Section floor.
Variables (lossy : bool) (tool field prefix key : string) (fields : pydict).

Lemma dict_set_length (rec : json) d : dict_get key d = None -> length (dict_set key rec d) = S (length d).
Proof.
  induction d as [|[k v] d IH]; cbn; [done|]. case_decide; [done|]. cbn. intros Hn. by rewrite IH.
Qed.

Lemma attempts_recorded envs d rec id :
  dict_get key d = Some rec -> rec <> JNull -> getitem rec field = Ok (JStr id) ->
  attempts lossy tool field prefix key fields envs (Some (JObj d)) =
    (replicate (length envs) (Returns (JStr id)), Some (JObj d)).
Proof.
  intros Hg Hne Hid. induction envs as [|env envs IH]; [done|]. cbn.
  unfold perform, ledger_get. cbn. rewrite Hg. destruct rec; try done; by rewrite Hid, IH.
Qed.

(** C16: Attempts with one idempotency key, the first of them with a key the ledger has not
    seen, each of which may die or lose its acknowledgement after the effect: exactly one
    record is added, no other record changes, every attempt after the first returns its
    identifier, and the status check finds it. *)
Theorem attempts_perform_once env envs f d :
  ledger_load f = JObj d -> dict_get key d = None ->
  exists first d',
    let id := JStr (prefix +:+ zero_pad 4 (length d + 1)) in
    attempts lossy tool field prefix key fields (env :: envs) f =
      (first :: replicate (length envs) (Returns id), Some (JObj d')) /\
    (first = Returns id \/ first = Dies \/ first = Raises (AckLost tool)) /\
    length d' = S (length d) /\ (forall k, k <> key -> dict_get k d' = dict_get k d) /\
    status_of field key (Some (JObj d')) = Ok [("found", JBool true); (field, id)].
Proof.
  intros Hf Hn. set (id := prefix +:+ zero_pad 4 (length d + 1)).
  set (rec := JObj ((field, JStr id) :: fields)).
  assert (Hid : getitem rec field = Ok (JStr id)) by (cbn; by rewrite decide_True).
  assert (Hg : dict_get key (dict_set key rec d) = Some rec) by apply dict_get_set_eq.
  assert (Hrec := attempts_recorded envs (dict_set key rec d) rec id Hg ltac:(done) Hid).
  assert (Hp : exists first, perform lossy tool field prefix key fields env f =
      (first, Some (JObj (dict_set key rec d))) /\
      (first = Returns (JStr id) \/ first = Dies \/ first = Raises (AckLost tool))).
  { unfold perform, ledger_get, ledger_size, put_if_absent, ledger_all. rewrite Hf, Hn.
    eexists. split; [done|]. unfold maybe_acklost.
    destruct lossy; [case_bool_decide; [by right; right|]|]; (destruct (maybe_crash env tool); [by right; left|by left]). }
  destruct Hp as (first & Hp & Hfirst). exists first, (dict_set key rec d). cbv zeta. split_and!.
  - cbn [attempts]. by rewrite Hp, Hrec.
  - done.
  - by apply dict_set_length.
  - intros k Hk. by apply dict_get_set_ne.
  - unfold status_of, ledger_get. cbn -[rec]. rewrite Hg. cbn -[getitem].
    change (getitem (JObj _) field) with (getitem rec field). by rewrite Hid.
Qed.
End floor.

(** A reversal is recorded once as well, and never counts as a wire. *)
Theorem reversal_recorded_once wire_id f d :
  ledger_load f = JObj d -> dict_get ("reverse:" +:+ wire_id) d = None ->
  let '(r, f') := bank_reverse wire_id f in
  r = Ok (JStr ("reversal-of-" +:+ wire_id)) /\ bank_reverse wire_id f' = (r, f') /\
  bank_count f' = bank_count f.
Proof.
  intros Hf Hn. unfold bank_reverse, ledger_get, put_if_absent. rewrite Hf, Hn.
  split; [done|]. cbn [ledger_load default id]. rewrite dict_get_set_eq. split; [cbn; by rewrite ?decide_True|].
  unfold bank_count, ledger_all. rewrite Hf. cbn [ledger_load default id py_iter].
  unfold mbind, result_bind. clear Hf. induction d as [|[k v] d IH]; [by destruct wire_id|].
  cbn [dict_get] in Hn. cbn [dict_set]. case_decide; [done|]. cbn [map fst count_forward].
  unfold mbind, result_bind. by rewrite (IH Hn).
Qed.

Definition killed : Env := mkEnv "execute_sweep" "".
Definition lost : Env := mkEnv "" "execute_sweep".
Definition healthy : Env := mkEnv "" "".
Lemma attempts_perform_once_witness :
  exists first d',
    attempts true "execute_sweep" "wire_id" "wire-" "run-1/fc-1" [] [killed; lost; healthy] None =
      (first :: replicate 2 (Returns (JStr "wire-0001")), Some (JObj d')) /\
    (first = Returns (JStr "wire-0001") \/ first = Dies \/ first = Raises (AckLost "execute_sweep")) /\
    length d' = 1 /\ (forall k, k <> "run-1/fc-1" -> dict_get k d' = None) /\
    status_of "wire_id" "run-1/fc-1" (Some (JObj d')) = Ok [("found", JBool true); ("wire_id", JStr "wire-0001")].
Proof.
  exact (attempts_perform_once true "execute_sweep" "wire_id" "wire-" "run-1/fc-1" [] killed [lost; healthy]
    None [] eq_refl eq_refl).
Defined.
Lemma reversal_recorded_once_witness :
  let '(r, f') := bank_reverse "wire-0001" None in
  r = Ok (JStr "reversal-of-wire-0001") /\ bank_reverse "wire-0001" f' = (r, f') /\
  bank_count f' = bank_count None.
Proof. exact (reversal_recorded_once "wire-0001" None [] eq_refl eq_refl). Defined.
