(* ===== verification/CliText.v ===== *)
(** * CliText: the text the command line shows, and its calls

    Lengths and prefixes of text in code points, [:.1f] on the quotient of two integers,
    [str] of JSON values, and the rows of a rich table.

    The messages of the server as far as the commands read them, and the calls they make:
    the client, the clock, the console and other programs. *)
From Stdlib Require Import Ascii SpecFloat.
From S2P Require Import Prelude Scenarios Program Client.
#[local] Open Scope Z_scope.
#[local] Open Scope nat_scope.

(** ** Code points

    Text is its UTF-8 bytes; a code point is a byte that is not a continuation byte and
    the continuation bytes that follow it. *)
Definition is_continuation (c : ascii) : bool :=
  let n := nat_of_ascii c in (128 <=? n) && (n <? 192).

(** [len(s)] *)
Fixpoint py_len (s : string) : nat :=
  match s with
  | EmptyString => 0
  | String c s => (if is_continuation c then 0 else 1) + py_len s
  end.
(** [s[:n]] *)
Fixpoint py_take (n : nat) (s : string) : string :=
  match s with
  | EmptyString => EmptyString
  | String c s =>
    if is_continuation c then String c (py_take n s)
    else match n with O => EmptyString | S n => String c (py_take n s) end
  end.

(** [_short(s, n)] of a text *)
Definition short (s : string) (n : nat) : string :=
  if py_len s <=? n then s else py_take (n - 1) s +:+ "…".

(** ** Numbers *)

(** [a / b] of two non-negative integers: the double nearest to the quotient. *)
Definition true_div (a b : Z) : spec_float :=
  match a, b with
  | Zpos a, Zpos b => SFdiv 53 1024 (S754_finite false a 0) (S754_finite false b 0)
  | _, _ => S754_zero false
  end.

(** The tenths nearest to [m * 2 ^ e], a half going to the even side. *)
Definition tenths (f : spec_float) : Z :=
  match f with
  | S754_finite false m e =>
    if (0 <=? e)%Z then (Z.shiftl (Zpos m) e * 10)%Z
    else
      let d := (2 ^ (- e))%Z in
      let q := (Zpos m * 10 / d)%Z in
      let r := (Zpos m * 10 mod d)%Z in
      if (d <? 2 * r)%Z || ((2 * r =? d)%Z && Z.odd q) then (q + 1)%Z else q
  | _ => 0%Z
  end.
(** [f"{x:.1f}"] of a non-negative float *)
Definition fmt_1f (f : spec_float) : string :=
  let t := tenths f in pretty (t / 10)%Z +:+ "." +:+ pretty (t mod 10)%Z.

(** [f"{d}ms"], [f"{d / 1000:.1f}s"], [f"{d / 60_000:.1f}m"] or [f"{d / 3_600_000:.1f}h"] of a
    duration that is not negative. *)
Definition ms_text (d : Z) : string :=
  if (d <? 1000)%Z then pretty d +:+ "ms"
  else if (d <? 60000)%Z then fmt_1f (true_div d 1000) +:+ "s"
  else if (d <? 3600000)%Z then fmt_1f (true_div d 60000) +:+ "m"
  else fmt_1f (true_div d 3600000) +:+ "h".

(** [s.lstrip(c)] *)
Fixpoint lstrip_char (c : ascii) (s : string) : string :=
  match s with
  | EmptyString => EmptyString
  | String c' s' => if decide (c' = c) then lstrip_char c s' else s
  end.

(** A text written with single quotes for its double quotes *)
Fixpoint double_quoted (s : string) : string :=
  match s with
  | EmptyString => EmptyString
  | String c s => String (if decide (c = "'"%char) then "034"%char else c) (double_quoted s)
  end.

(** ** JSON values as text *)
Section text.
Context `{PyText}.

(** [str(v)], and what an f-string shows of [v] *)
Definition text (v : json) : string :=
  match v with
  | JStr s => s
  | JInt z => pretty z
  | JNull => "None"
  | JBool b => if b then "True" else "False"
  | JFloat _ | JList _ | JObj _ => str_json v
  end.

(** [json.loads(s) if s else {}], and [{}] unless it is a dict *)
Definition safe_loads (s : string) : pydict :=
  match loads_or_empty s with JObj d => d | _ => [] end.
End text.

(** [_short(v, n)] of a value that need not be a text: [len] and a slice. *)
Definition short_json (v : json) (n : nat) : result json :=
  match v with
  | JStr s => Ok (JStr (short s n))
  | JList l => if length l <=? n then Ok v else Err TypeError
  | JObj d => if length d <=? n then Ok v else Err TypeError
  | JNull | JBool _ | JInt _ | JFloat _ => Err TypeError
  end.

(** [p.get(k, default)] *)
Definition get_or (p : pydict) (k : string) (default : json) : json :=
  match dict_get k p with Some v => v | None => default end.

(** [sep.join(bits)] of values that need not be texts *)
Fixpoint texts_of (bits : list json) : result (list string) :=
  match bits with
  | [] => mret []
  | JStr s :: bits => rest ← texts_of bits; mret (s :: rest)
  | _ :: _ => Err TypeError
  end.

(** ** Tables

    A cell is its text with its style; a row of the display is a list of cells. *)
Definition Cell : Type := string * string.
Definition plain (s : string) : Cell := (s, "").
Record Table := mkTable { table_title : string; table_rows : list (list Cell) }.

(** ** What the formatters give *)
Example fmt_below : ms_text 999 = "999ms". Proof. vm_compute. reflexivity. Qed.
Example fmt_seconds : ms_text 1150 = "1.1s". Proof. vm_compute. reflexivity. Qed.
Example fmt_up : ms_text 1050 = "1.1s". Proof. vm_compute. reflexivity. Qed.
Example fmt_edge : ms_text 59999 = "60.0s". Proof. vm_compute. reflexivity. Qed.
Example short_cut : short "récompense" 4 = "réc…". Proof. vm_compute. reflexivity. Qed.

(** ** Messages *)
Module RunState.
Record t := mk {
  run_id : string; status : Z; app_name : string; user_id : string; session_id : string;
  lease_owner : string; lease_expires_at_ms : Z; seq_cursor : Z; started_at_ms : Z;
  ended_at_ms : Z; waiting_on_gate : string
}.
End RunState.
Module EffectView.
Record t := mk {
  run_id : string; idempotency_key : string; status : Z; tool_name : string;
  business_key : string; connector : string; dispatch_attempts : Z;
  dispatch_claimed_by : string; ts_ms : Z
}.
End EffectView.
Module ObligationView.
Record t := mk {
  run_id : string; kind : string; status : Z; effect_key : string; attempts : Z;
  max_attempts : Z; ts_ms : Z
}.
End ObligationView.
Module TimerView.
Record t := mk { run_id : string; kind : string; timer_id : string; fire_at_ms : Z }.
End TimerView.
(** An entry of the journal, with the fields only a raw stream shows. *)
Module WireEntry.
Record t := mk {
  event : PbEvent.t; trace_id : string; span_id : string; parent_span_id : string;
  schema_version : Z
}.
End WireEntry.
(** A server stream: what it yields, and what it raises at the end, if it does not just end. *)
Definition WireStream : Type := list WireEntry.t * option exn.

(** ** Calls *)
Inductive cli_call :=
  | Connect (url : string)
  | CloseClient
  | GetRunState (run_id : string)
  | StreamRun (run_id : string) (from_seq : Z) (timeout : option Z)
  | StreamSubject (subject_pattern predicate_cel : string) (from_global_seq : Z)
  | StreamEvents (from_ts_ms : Z) (run_id kind : string) (from_global_seq : Z)
  | CancelStream
  | RunsToRecover (limit : Z)
  | PendingEffects (older_than_ms : Z) (include_pending include_unknown : bool) (limit : Z)
  | EffectsToDispatch (now_ms limit : Z)
  | UnresolvedObligations (limit : Z) (include_pending include_stuck include_committed_expired : bool)
  | DueTimers (now_ms limit : Z) (claim : bool)
  | Clock                                  (* int(time.time() * 1000) *)
  | PrintText (line : string)
  | PrintTable (t : Table)
  | WriteText (path : string) (contents : string)
  | MakeDirs (path : string)
  | RemoveTree (path : string)
  | CopyTree (src dst : string)
  | ListDir (path : string)
  | StartProc (argv : list string) (env : list (string * string))
  | Terminate (pid : Z)
  | WaitProc (pid timeout_ms : Z)
  | WaitSignal                             (* signal.pause() *)
  | SleepMs (ms : Z)
  | LiveJournal (db_url reactor_note : string)
  | ImportModule (name : string)
  | RunTui (run_id url : string) (from_seq : Z) (start_in_replay : bool)
  | RunCmd (argv : list string).           (* the process's exit status and output *)

Definition cli_answer (c : cli_call) : Type :=
  match c with
  | GetRunState _ => RunState.t
  | StreamRun _ _ _ | StreamSubject _ _ _ | StreamEvents _ _ _ _ => WireStream
  | RunsToRecover _ => list RunState.t
  | PendingEffects _ _ _ _ | EffectsToDispatch _ _ => list EffectView.t
  | UnresolvedObligations _ _ _ _ => list ObligationView.t
  | DueTimers _ _ _ => list TimerView.t
  | Clock => Z
  | ListDir _ => list string
  | StartProc _ _ => Z                     (* the process *)
  | RunCmd _ => Z * string
  | _ => unit
  end.

Abbreviation Cmd := (prog cli_answer).
Definition clock : Cmd Z := invoke Clock.
Definition say (line : string) : Cmd unit := invoke (PrintText line).
Definition show_table (t : Table) : Cmd unit := invoke (PrintTable t).

(** ** Ending a command

    [die(msg)] prints and exits with 2; [typer.Exit(code)] ends with the code. *)
Definition Exit (code : Z) : exn := Raised "Exit" (pretty code).
Definition SystemExit (code : Z) : exn := Raised "SystemExit" (pretty code).
Definition die {A} (msg : string) : Cmd A :=
  _ ← say ("[red]✗[/red] " +:+ msg); Throw (SystemExit 2).
Definition ok_line (msg : string) : Cmd unit := say ("[green]✓[/green] " +:+ msg).
Definition warn (msg : string) : Cmd unit := say ("[yellow]![/yellow] " +:+ msg).
Definition fail_line (msg hint : string) : Cmd unit :=
  _ ← say ("[red]✗[/red] " +:+ msg);
  if decide (hint = "") then mret tt else say ("  [dim]Fix: " +:+ hint +:+ "[/dim]").

(** An RPC error, by the name of its code. *)
Definition rpc_code (ex : exn) : option string :=
  match ex with Raised "RpcError" code => Some code | _ => None end.
(** [except grpc.RpcError as ex] around a call: any other exception goes on. *)
Definition try_rpc {A} (p : Cmd A) (h : exn -> string -> Cmd A) : Cmd A :=
  try_ p (fun ex => match rpc_code ex with Some code => h ex code | None => Throw ex end).
