(* ===== verification/CliJournal.v ===== *)
(** * CliJournal: reading a journal entry, [tape_cli/commands/_journal.py]

    The vocabulary [tape inspect] and [tape tail] share: icons, styles, labels, durations,
    and [decode_entry], which turns an entry's payload into one line.

    Payloads whose fields have the types the stores give them decode for every kind, the
    result is consistent, and the replay view pairs every entry with a read. *)
From Stdlib Require Import Ascii.
From S2P Require Import Prelude Scenarios ScenarioTheorems Lineage Client CliText.
#[local] Open Scope Z_scope.
#[local] Open Scope nat_scope.

(** ** Tables of labels *)
Definition KIND_ICONS : list (string * string) :=
  [("run", "▶"); ("decision", "●"); ("effect", "◆"); ("obligation", "↩"); ("gate", "⏸");
   ("value", "≡"); ("event", "✦"); ("timer", "⏱")].
Definition kind_icon (kind : string) : string := default "·" (dict_get kind KIND_ICONS).

Definition STATUS_STYLES : list (string * string) :=
  [("pending", "yellow"); ("confirmed", "bold green"); ("failed", "bold red");
   ("unknown", "bold red on yellow"); ("committed", "magenta"); ("compensated", "bold green");
   ("stuck", "bold red on yellow"); ("waiting", "blue"); ("released", "bold green");
   ("running", "bold cyan"); ("terminal", "bold green"); ("cancelled", "yellow");
   ("compensating", "magenta"); ("ended", "dim"); ("recorded", "cyan"); ("ok", "green");
   ("", "dim")].
Definition status_style (status : string) : string :=
  default "white" (dict_get (lower status) STATUS_STYLES).

Definition RUN_STATUS_LABELS : list (Z * (string * string)) :=
  [(0, ("UNSPECIFIED", "dim")); (1, ("RUNNABLE", "yellow")); (2, ("RUNNING", "bold cyan"));
   (3, ("WAITING", "blue")); (4, ("TERMINAL", "bold green")); (5, ("FAILED", "bold red"));
   (6, ("COMPENSATING", "magenta")); (7, ("STUCK", "bold red on yellow"));
   (8, ("CANCELLED", "yellow"))]%Z.
(** [d.get(n)] of a dict keyed by integers *)
Fixpoint int_get {A} (n : Z) (d : list (Z * A)) : option A :=
  match d with
  | [] => None
  | (k, v) :: d => if decide (k = n) then Some v else int_get n d
  end.
Definition run_status_label (status : Z) : string * string :=
  default ("?" +:+ pretty status, "dim") (int_get status RUN_STATUS_LABELS).

Definition EFFECT_STATUS_LABELS : list (Z * string) :=
  [(0, "unspecified"); (1, "pending"); (2, "confirmed"); (3, "failed"); (4, "unknown")]%Z.

(** ** Durations *)
Definition fmt_rel_ms (delta_ms : Z) : string :=
  if (delta_ms <? 0)%Z then "-+" +:+ ms_text (- delta_ms) else "+" +:+ ms_text delta_ms.

(** The countdown to [expires_at_ms] at [now_ms]. *)
Definition fmt_countdown_ms (expires_at_ms now_ms : Z) : string :=
  if (expires_at_ms <=? 0)%Z then "—"
  else
    let delta := (expires_at_ms - now_ms)%Z in
    if (delta <=? 0)%Z then "EXPIRED " +:+ fmt_rel_ms (- delta) +:+ " ago"
    else "~" +:+ lstrip_char "+"%char (fmt_rel_ms delta).

(** ** Decoding *)
Module Decoded.
Record t := mk {
  type : string; status : string; style : string; icon : string; summary : string;
  trace_id : string
}.
End Decoded.

Section decode.
Context `{PyText}.

(** [effect_status_label(status)] *)
Definition effect_status_label (status : json) : result string :=
  match status with
  | JStr s => Ok (lower s)
  | v => n ← int_json v; mret (default (text v) (int_get n EFFECT_STATUS_LABELS))
  end.

(** [str(p.get("status", "")).lower()] *)
Definition status_of (p : pydict) : string := lower (text (get_or p "status" (JStr ""))).
(** [p.get(k, "") or p.get(k', "")] *)
Definition either (p : pydict) (k k' : string) : json :=
  json_or (get_or p k (JStr "")) (get_or p k' (JStr "")).
(** [f"…{_short(v, n)}…"] *)
Definition short_text (v : json) (n : nat) : result string := v ← short_json v n; mret (text v).

Definition bold (s : string) : string := "[bold]" +:+ s +:+ "[/bold]".
Definition dim (s : string) : string := "[dim]" +:+ s +:+ "[/dim]".

(** The location a run entry shows: app, user and session, else the run; a run id that is
    no text stands as its [str]. *)
Definition run_location (p : pydict) : result string :=
  let app := get_or p "app" (JStr "") in
  let user := get_or p "user" (JStr "") in
  let sess := get_or p "session" (JStr "") in
  last ← (if json_truthy sess then s ← short_json sess 18; mret [s] else mret []);
  let bits := (if json_truthy app then [app] else []) ++ (if json_truthy user then [user] else []) ++ last in
  match bits with
  | [] => short_text (get_or p "run_id" (JStr "")) 16
  | _ => ts ← texts_of bits; mret (join " / " ts)
  end.

Definition decision_summary (p : pydict) : result string :=
  let model := get_or p "model" (JStr "") in
  let rationale := get_or p "rationale" (JStr "") in
  why ← (if json_truthy rationale then s ← short_text rationale 60; mret [dim s] else mret []);
  mret (join "  " ([if json_truthy model then bold (text model) else "model=?";
                    "idx=" +:+ text (get_or p "decision_index" (JStr "?"))] ++ why)).

(** The identity an effect shows: its reference, else its business key, else its key. *)
Definition effect_identity (p : pydict) : result string :=
  let xref := get_or p "external_ref" (JStr "") in
  let bk := get_or p "business_key" (JStr "") in
  let ek := get_or p "idempotency_key" (JStr "") in
  if json_truthy xref then s ← short_text xref 28; mret (" → [cyan]" +:+ s +:+ "[/cyan]")
  else if json_truthy bk then s ← short_text bk 36; mret ("  [dim](" +:+ s +:+ ")[/dim]")
  else if json_truthy ek then s ← short_text ek 36; mret ("  " +:+ dim s)
  else mret "".
(** The badges of a non-idempotent or an outbox effect. *)
Definition effect_tags (p : pydict) : result (list string) :=
  sem ← int_json (json_or (get_or p "semantics" (JInt 0)) (JInt 0));
  mode ← int_json (json_or (get_or p "dispatch_mode" (JInt 0)) (JInt 0));
  mret ((if (sem =? 2)%Z then ["[red]NI[/red]"] else []) ++
        (if (mode =? 2)%Z then ["[yellow]OUT[/yellow]"] else [])).
Definition effect_tool (p : pydict) : string := text (either p "tool" "tool_name").

(** The dict a value entry's fields are read from. *)
Definition value_fields (p : pydict) : result pydict :=
  match get_or p "value" (JObj p) with JObj v => Ok v | _ => Err AttributeError end.
Definition is_empty_text (v : json) : bool :=
  match v with JStr s => bool_decide (s = "") | _ => false end.
Definition value_summary (v : pydict) : string :=
  let ver := get_or v "version" (JStr "") in
  bold (text (get_or v "namespace" (JStr ""))) +:+ "/[cyan]" +:+ text (get_or v "key" (JStr "")) +:+ "[/cyan]" +:+
  (if is_empty_text ver then "" else "  [dim]v" +:+ text ver +:+ "[/dim]").

Definition decode_effect (p : pydict) (icon trace_id : string) : result Decoded.t :=
  st ← effect_status_label (get_or p "status" (JStr ""));
  ident ← effect_identity p;
  tags ← effect_tags p;
  let tag_s := match tags with [] => "" | _ => " " +:+ join " " tags end in
  mret (Decoded.mk "effect" st (status_style st) icon (bold (effect_tool p) +:+ tag_s +:+ ident) trace_id).

Definition decode_value (p : pydict) (icon trace_id : string) : result Decoded.t :=
  v ← value_fields p;
  let st := if json_truthy (get_or v "deleted" (JBool false)) then "deleted" else "" in
  mret (Decoded.mk "value" st (status_style st) icon (value_summary v) trace_id).

(** [decode_entry(kind, payload_json, trace_id)] *)
Definition decode_entry (kind payload_json trace_id : string) : result Decoded.t :=
  let p := safe_loads payload_json in
  let icon := kind_icon kind in
  if decide (kind = "run") then
    let s := status_of p in
    loc ← run_location p; mret (Decoded.mk "run" s (status_style s) icon loc trace_id)
  else if decide (kind = "decision") then
    summary ← decision_summary p;
    mret (Decoded.mk "decision" "recorded" (status_style "recorded") icon summary trace_id)
  else if decide (kind = "effect") then decode_effect p icon trace_id
  else if decide (kind = "obligation") then
    let st := status_of p in
    ek ← short_text (get_or p "effect_key" (JStr "")) 32;
    mret (Decoded.mk "obligation" st (status_style st) icon
            (bold (text (get_or p "kind" (JStr ""))) +:+ "  [dim]for " +:+ ek +:+ "[/dim]") trace_id)
  else if decide (kind = "gate") then
    let st := status_of p in
    mret (Decoded.mk "gate" st (status_style st) icon (bold (text (either p "gate" "gate_name"))) trace_id)
  else if decide (kind = "value") then decode_value p icon trace_id
  else if decide (kind = "event") then
    mret (Decoded.mk "event" "" "dim" icon (dim (short payload_json 60)) trace_id)
  else if decide (kind = "timer") then
    mret (Decoded.mk "timer" "" "dim" icon
            (bold (text (get_or p "kind" (JStr ""))) +:+ "  " +:+ text (get_or p "timer_id" (JStr "")) +:+
             "  [dim]fire@" +:+ text (get_or p "fire_at_ms" (JStr "")) +:+ "[/dim]") trace_id)
  else mret (Decoded.mk (str_or kind "?") "" "dim" icon (dim (short payload_json 60)) trace_id).
End decode.

(** ** What a replay reads, [tape_cli/commands/_replay.py] *)
Record ReplayPair := mkReplayPair {
  first_run : string; replay : string; first_call : string; replay_call : string;
  is_read_only : bool
}.

Definition WRITE : string := "[green]write[/green]".
Definition READ : string := "[cyan]read[/cyan]".
Definition EXTERNAL : string := "[red]external call[/red]".
(** The badges of most pairs. *)
Definition read_back (first_run replay first_call : string) : ReplayPair :=
  mkReplayPair first_run replay first_call READ true.

Section pair.
Context `{PyText}.

Definition run_pair (p : pydict) : ReplayPair :=
  let status := status_of p in
  if decide (status = "running") then
    read_back "[bold]BeginRun[/bold] — minted a fresh run_id, lease leased"
      "[bold]BeginRun[/bold] — returns the existing run_id [dim](resumed=true)[/dim], lease re-leased" WRITE
  else mkReplayPair ("[bold]EndRun[/bold] — status → " +:+ bold status)
         ("[dim]no replay — " +:+ status +:+ " is terminal[/dim]") WRITE "[dim]—[/dim]" true.

Definition decision_pair (p : pydict) : ReplayPair :=
  let model := text (get_or p "model" (JStr "?")) in
  let idx := text (get_or p "decision_index" (JStr "?")) in
  read_back ("[bold]RecordDecision[/bold] — called " +:+ bold model +:+ " (idx=" +:+ idx +:+ "), persisted the response")
    ("[bold]GetDecision[/bold](decision_index=" +:+ idx +:+ ") — reads the recorded response [bold red]without calling the model[/bold red]")
    "[yellow]model call[/yellow]".

Definition effect_pair (p : pydict) : result ReplayPair :=
  status ← effect_status_label (get_or p "status" (JStr ""));
  let tool := bold (effect_tool p) in
  let begin := "[bold]BeginEffect[/bold](" +:+ tool +:+ ") — " in
  let complete := "[bold]CompleteEffect[/bold](" +:+ tool +:+ ") — " in
  mret (
    if decide (status = "pending") then
      read_back (begin +:+ "intent journaled, status=[yellow]PENDING[/yellow]")
        (begin +:+ "returns the existing [yellow]PENDING[/yellow] record (the tool body sees the same intent)") WRITE
    else if decide (status = "confirmed") then
      read_back (complete +:+ "tool returned, response journaled, status=[bold green]CONFIRMED[/bold green]")
        (begin +:+ "[bold green]short-circuits[/bold green] on the CONFIRMED record: returns the recorded response [bold red]without calling the tool again[/bold red]") EXTERNAL
    else if decide (status = "failed") then
      read_back (complete +:+ "tool raised, status=[bold red]FAILED[/bold red]")
        (begin +:+ "short-circuits on FAILED: returns the recorded error [bold red]without calling the tool again[/bold red]") EXTERNAL
    else if decide (status = "unknown") then
      read_back (complete +:+ "[bold red on yellow]UNKNOWN[/bold red on yellow] (ack lost; the act may or may not have happened)")
        (begin +:+ "short-circuits on UNKNOWN: the [bold]reconciler[/bold] will observe the counterparty before the agent re-acts") EXTERNAL
    else read_back ("[bold]Effect[/bold](" +:+ tool +:+ ") status=" +:+ status)
           ("[bold]BeginEffect[/bold] — short-circuits on " +:+ status) WRITE).

Definition gate_pair (p : pydict) : ReplayPair :=
  let gn := bold (text (either p "gate" "gate_name")) in
  let await := "[bold]AwaitSignal[/bold](" +:+ gn +:+ ") — " in
  if decide (status_of p = "waiting") then
    read_back (await +:+ "agent parked, run → [blue]WAITING[/blue]")
      (await +:+ "re-drive sees the run is at this gate; resumes when the signal lands") WRITE
  else read_back ("[bold]SendSignal[/bold](" +:+ gn +:+ ") — resolution committed, run released")
         (await +:+ "short-circuits: returns the recorded resolution [bold red]without parking[/bold red]") WRITE.

Definition value_pair (p : pydict) : result ReplayPair :=
  v ← value_fields p;
  let at_ := bold (text (get_or v "namespace" (JStr ""))) +:+ "/[cyan]" +:+ text (get_or v "key" (JStr "")) +:+ "[/cyan]" in
  mret (read_back ("[bold]WriteValue[/bold](" +:+ at_ +:+ " v" +:+ text (get_or v "version" (JStr "")) +:+ ") — CAS commit")
          ("[bold]GetValue[/bold](" +:+ at_ +:+ ") — reads the version at this point in the journal") WRITE).

(** [replay_pair(kind, payload_json)] *)
Definition replay_pair (kind payload_json : string) : result ReplayPair :=
  let p := safe_loads payload_json in
  if decide (kind = "run") then mret (run_pair p)
  else if decide (kind = "decision") then mret (decision_pair p)
  else if decide (kind = "effect") then effect_pair p
  else if decide (kind = "obligation") then
    mret (read_back ("[bold]RegisterCompensation[/bold](" +:+ bold (text (get_or p "kind" (JStr ""))) +:+ ") — obligation now waits for the drainer")
            "[bold]ListObligations[/bold] / [bold]RegisterCompensation[/bold] — idempotent on (run_id, effect_key, kind); existing record returned" WRITE)
  else if decide (kind = "gate") then mret (gate_pair p)
  else if decide (kind = "value") then value_pair p
  else if decide (kind = "timer") then
    mret (read_back ("[bold]SetTimer[/bold](" +:+ bold (text (get_or p "kind" (JStr ""))) +:+ ") — fire-at deadline persisted")
            "[bold]SetTimer[/bold] — idempotent on (run_id, timer_id); existing record returned" WRITE)
  else mret (read_back (bold kind) (dim ("replay reads " +:+ kind)) WRITE).

(** The rows [on_mount] fills the two tables with: one per entry on each side. *)
Definition replay_rows (e : PbEvent.t) (first_ts : Z) : result (list Cell * list Cell) :=
  pair ← replay_pair e.(PbEvent.kind) e.(PbEvent.payload_json);
  d ← decode_entry e.(PbEvent.kind) e.(PbEvent.payload_json) "";
  let rel := if (first_ts =? 0)%Z then "+0ms" else fmt_rel_ms (e.(PbEvent.ts_ms) - first_ts) in
  let head := bold (d.(Decoded.icon) +:+ " " +:+ d.(Decoded.type)) +:+ "  " in
  let row call what := [(pretty e.(PbEvent.seq), "dim"); (rel, "dim"); plain call; plain (head +:+ what)] in
  mret (row pair.(first_call) pair.(first_run), row pair.(replay_call) pair.(replay)).
Fixpoint replay_tables_from (first_ts : Z) (entries : list PbEvent.t) : result (list (list Cell * list Cell)) :=
  match entries with
  | [] => mret []
  | e :: entries => r ← replay_rows e first_ts; rest ← replay_tables_from first_ts entries; mret (r :: rest)
  end.
Definition replay_tables (entries : list PbEvent.t) : result (list (list Cell * list Cell)) :=
  replay_tables_from (match entries with e :: _ => e.(PbEvent.ts_ms) | [] => 0%Z end) entries.

(** The cursor of one table that follows the other's. *)
Definition follow_cursor (row_count cursor_row own : nat) : nat :=
  if cursor_row <? row_count then cursor_row else own.
(** The screen's two cursors, and whether one is being moved after the other *)
Record Cursors := mkCursors { first_at : nat; replay_at : nat; syncing : bool }.
Definition left_to_right (row_count row : nat) (c : Cursors) : Cursors :=
  if c.(syncing) then c else mkCursors c.(first_at) (follow_cursor row_count row c.(replay_at)) false.
Definition right_to_left (row_count row : nat) (c : Cursors) : Cursors :=
  if c.(syncing) then c else mkCursors (follow_cursor row_count row c.(first_at)) c.(replay_at) false.
Definition action_scroll_home (c : Cursors) : Cursors := mkCursors 0 0 c.(syncing).
Definition action_scroll_end (row_count : nat) (c : Cursors) : Cursors :=
  if row_count =? 0 then c else mkCursors (row_count - 1) (row_count - 1) c.(syncing).
(** [_headline] *)
Definition replay_headline : list Cell :=
  [plain "[bold cyan]REPLAY IS READS, NOT WRITES[/bold cyan]";
   plain ("[dim]Every external action on the left becomes a journal read on the right. " +:+
          "Re-driving the agent is safe because the runtime memoizes — one wire, one model call, " +:+
          "one signal — no matter how many times the agent crashes and resumes.[/dim]")].
End pair.

(** A row highlighted on either side is the row of both, until the next one. *)
Inductive highlighted_row := OnFirst (row : nat) | OnReplay (row : nat).
Definition highlight (row_count : nat) (c : Cursors) (h : highlighted_row) : Cursors :=
  match h with
  | OnFirst row => left_to_right row_count row (mkCursors row c.(replay_at) c.(syncing))
  | OnReplay row => right_to_left row_count row (mkCursors c.(first_at) row c.(syncing))
  end.
Definition row_of (h : highlighted_row) : nat := match h with OnFirst row | OnReplay row => row end.
Lemma cursors_agree row_count hs c :
  c.(syncing) = false -> c.(first_at) = c.(replay_at) -> Forall (fun h => row_of h < row_count) hs ->
  let c' := foldl (highlight row_count) c hs in
  c'.(first_at) = c'.(replay_at) /\ (forall h, last hs = Some h -> c'.(first_at) = row_of h).
Proof.
  intros Hs Ha Hh. cbn. assert (Hstep : forall c h, c.(syncing) = false -> row_of h < row_count ->
    highlight row_count c h = mkCursors (row_of h) (row_of h) false).
  { intros [f r b] [row|row] [= ->] Hr%Nat.ltb_lt; cbn in *; unfold left_to_right, right_to_left, follow_cursor; cbn; by rewrite Hr. }
  revert c Hs Ha. induction Hh as [|h hs Hr Hh IH]; intros c Hs Ha; [done|]. cbn [foldl]. rewrite Hstep by done.
  destruct (IH (mkCursors (row_of h) (row_of h) false)) as [He Hl]; [done..|]. split; [done|].
  intros h' Hlast. destruct hs as [|h2 hs]; [by injection Hlast as <-|]. by apply Hl.
Qed.

Section journal.
Context `{PyText}.

(** ** Payloads as the stores write them *)
Definition is_text (v : json) : bool := match v with JStr _ => true | _ => false end.
Definition is_number (v : json) : bool := match v with JInt _ | JNull => true | _ => false end.
Definition TEXT_FIELDS : list string :=
  ["app"; "user"; "session"; "run_id"; "rationale"; "external_ref"; "business_key"; "idempotency_key"; "effect_key"].
(** Texts where the decoder cuts texts, numbers or nulls where it reads numbers, a text or a
    number for a status, and a dict under [value] if there is one. *)
Record stored (p : pydict) : Prop := mk_stored {
  stored_text : forall k v, k ∈ TEXT_FIELDS -> dict_get k p = Some v -> is_text v = true;
  stored_number : forall k v, k ∈ ["semantics"; "dispatch_mode"] -> dict_get k p = Some v -> is_number v = true;
  stored_status : forall v, dict_get "status" p = Some v -> is_text v || (match v with JInt _ => true | _ => false end) = true;
  stored_value : forall v, dict_get "value" p = Some v -> exists d, v = JObj d
}.

Lemma get_or_text p k : stored p -> k ∈ TEXT_FIELDS -> exists s, get_or p k (JStr "") = JStr s.
Proof.
  intros Hp Hk. unfold get_or. destruct (dict_get k p) as [v|] eqn:E; [|by eexists].
  pose proof (stored_text _ Hp k v Hk E) as Hv. destruct v; try done. by eexists.
Qed.
Lemma get_or_number p k : stored p -> k ∈ ["semantics"; "dispatch_mode"] ->
  exists n, int_json (json_or (get_or p k (JInt 0)) (JInt 0)) = Ok n.
Proof.
  intros Hp Hk. unfold get_or. destruct (dict_get k p) as [v|] eqn:E; [|by eexists].
  pose proof (stored_number _ Hp k v Hk E) as Hv. destruct v; try done; [by eexists|].
  unfold json_or. cbn. destruct (z =? 0)%Z; by eexists.
Qed.
Lemma short_text_ok s n : exists t, short_text (JStr s) n = Ok t.
Proof. by eexists. Qed.

Ltac text_field p k := let s := fresh "s" in let E := fresh "E" in
  destruct (get_or_text p k) as [s E]; [done|unfold TEXT_FIELDS; set_solver|rewrite ?E in *].

Lemma run_location_ok p : stored p -> is_ok (run_location p) = true.
Proof.
  intros Hp. unfold run_location. text_field p "app". text_field p "user". text_field p "session". text_field p "run_id".
  destruct (json_truthy (JStr s1)), (json_truthy (JStr s0)), (json_truthy (JStr s)); reflexivity.
Qed.
Lemma decision_summary_ok p : stored p -> is_ok (decision_summary p) = true.
Proof.
  intros Hp. unfold decision_summary. text_field p "rationale". by destruct (json_truthy (JStr s)).
Qed.
Lemma effect_identity_ok p : stored p -> is_ok (effect_identity p) = true.
Proof.
  intros Hp. unfold effect_identity. text_field p "external_ref". text_field p "business_key". text_field p "idempotency_key".
  destruct (json_truthy (JStr s)), (json_truthy (JStr s0)), (json_truthy (JStr s1)); reflexivity.
Qed.
Lemma effect_tags_ok p : stored p -> is_ok (effect_tags p) = true.
Proof.
  intros Hp. unfold effect_tags.
  destruct (get_or_number p "semantics" Hp) as [n ->]; [set_solver|].
  by destruct (get_or_number p "dispatch_mode" Hp) as [m ->]; [set_solver|].
Qed.
Lemma effect_status_ok p : stored p -> is_ok (effect_status_label (get_or p "status" (JStr ""))) = true.
Proof.
  intros Hp. unfold get_or. destruct (dict_get "status" p) as [v|] eqn:E; [|done].
  pose proof (stored_status _ Hp v E) as Hv. by destruct v.
Qed.
Lemma value_fields_ok p : stored p -> is_ok (value_fields p) = true.
Proof.
  intros Hp. unfold value_fields, get_or. destruct (dict_get "value" p) as [v|] eqn:E; [|done].
  by destruct (stored_value _ Hp v E) as [d ->].
Qed.
Lemma ok_of {A} (r : result A) : is_ok r = true -> exists a, r = Ok a.
Proof. destruct r as [a|]; [by exists a|done]. Qed.

(** C30: An entry a store writes is always readable: whatever its kind, also an unknown one,
    decoding its payload returns, and so does pairing it with its replay. *)
Theorem stored_entries_decode kind payload trace_id :
  stored (safe_loads payload) ->
  (exists d, decode_entry kind payload trace_id = Ok d) /\ (exists pair, replay_pair kind payload = Ok pair).
Proof.
  intros Hp. unfold decode_entry, replay_pair, decode_effect, effect_pair, decode_value, value_pair.
  set (p := safe_loads payload) in *.
  destruct (ok_of _ (run_location_ok p Hp)) as [loc ->], (ok_of _ (decision_summary_ok p Hp)) as [sum ->],
    (ok_of _ (effect_status_ok p Hp)) as [st ->], (ok_of _ (effect_identity_ok p Hp)) as [ident ->],
    (ok_of _ (effect_tags_ok p Hp)) as [tags ->], (ok_of _ (value_fields_ok p Hp)) as [v ->].
  text_field p "effect_key". monad_simpl.
  split; repeat (case_decide; [by eexists|]); by eexists.
Qed.

(** ** The shape of the result *)

(** The kinds whose status badge has the style of its status. *)
Definition KNOWN_KINDS : list string := ["run"; "decision"; "effect"; "obligation"; "gate"; "value"; "event"; "timer"].

(** What decoding returns is of the entry's kind: its type is the kind (or a question
    mark for an entry without one), its icon the kind's, the trace the entry's, and the
    style is its status's style, or dim where there is no status. *)
Theorem decoded_is_of_its_kind kind payload trace_id d :
  decode_entry kind payload trace_id = Ok d ->
  d.(Decoded.type) = str_or kind "?" /\ d.(Decoded.icon) = kind_icon kind /\ d.(Decoded.trace_id) = trace_id /\
  d.(Decoded.style) = status_style d.(Decoded.status) /\
  (kind ∉ KNOWN_KINDS -> d.(Decoded.status) = "" /\ kind_icon kind = "·").
Proof.
  intros Hd. unfold decode_entry, decode_effect, decode_value in Hd.
  monad_simpl.
  repeat (case_decide as Hk;
    [subst kind; simplify_eq/=; repeat (case_match; simplify_eq/=); (split_and!; [done..|]);
     intros Hu; destruct Hu; unfold KNOWN_KINDS; set_solver|clear Hk]).
  injection Hd as <-. cbn. split_and!; try done.
  intros Hu. split; [done|]. unfold kind_icon, KIND_ICONS. cbn.
  rewrite !decide_False; [done|..]; intros <-; apply Hu; unfold KNOWN_KINDS; set_solver.
Qed.

(** ** The replay view *)
Lemma pairs_read kind payload pair :
  replay_pair kind payload = Ok pair ->
  pair.(is_read_only) = true /\ (pair.(replay_call) = READ \/ kind = "run" /\ pair.(replay_call) = "[dim]—[/dim]").
Proof.
  unfold replay_pair, effect_pair, value_pair, gate_pair, run_pair, decision_pair. intros Hp. monad_simpl.
  repeat (case_decide as Hk;
    [try subst kind; simplify_eq/=; repeat (case_match; simplify_eq/=); repeat case_decide; by auto|clear Hk]).
  injection Hp as <-. by auto.
Qed.

(** Two rows of one entry: the same sequence number and time, the entry's badge, and on the
    right a read, or nothing to do once the run has ended. *)
Definition paired (first_ts : Z) (e : PbEvent.t) (r : list Cell * list Cell) : Prop :=
  exists call what replay_call_ what',
    let rel := if (first_ts =? 0)%Z then "+0ms" else fmt_rel_ms (e.(PbEvent.ts_ms) - first_ts) in
    r.1 = [(pretty e.(PbEvent.seq), "dim"); (rel, "dim"); plain call; plain what] /\
    r.2 = [(pretty e.(PbEvent.seq), "dim"); (rel, "dim"); plain replay_call_; plain what'] /\
    (replay_call_ = READ \/ e.(PbEvent.kind) = "run" /\ replay_call_ = "[dim]—[/dim]").

(** The two tables of the replay view line up: one row on each side per entry, in the
    journal's order, with the entry's number and time, and every row on the right is a
    read. *)
Theorem replay_tables_line_up es rows :
  replay_tables es = Ok rows ->
  Forall2 (paired (match es with e :: _ => e.(PbEvent.ts_ms) | [] => 0%Z end)) es rows.
Proof.
  unfold replay_tables. generalize (match es with e :: _ => e.(PbEvent.ts_ms) | [] => 0%Z end). intros first_ts.
  revert rows. induction es as [|e es IH]; intros rows; cbn [replay_tables_from]; [intros [= <-]; constructor|].
  monad_simpl. unfold replay_rows at 1. monad_simpl.
  destruct (replay_pair _ _) as [pair|] eqn:Ep; [|done]. destruct (decode_entry _ _ _) as [d|]; [|done].
  destruct (replay_tables_from first_ts es) as [rest|]; [|done]. intros [= <-].
  constructor; [|by apply IH]. eexists _, _, pair.(replay_call), _. cbn. split_and!; [done..|].
  by apply (pairs_read _ (PbEvent.payload_json e)).
Qed.
End journal.

(** ** Witnesses and concrete entries *)
Definition wire_payload : pydict :=
  [("status", JInt 4); ("tool_name", JStr "wire"); ("business_key", JStr "rfp-1"); ("semantics", JInt 2); ("dispatch_mode", JInt 2)].
Definition holding (p : pydict) : PyText := {|
  dumps := fun _ => "{..}"; loads := fun _ => Ok (JObj p); str_exn := fun _ => "boom"; exn_name := fun _ => "Exception";
  exn_details := fun _ => ""; str_json := fun _ => ""; int_text := fun _ => Err (Raised "ValueError" "int");
  float_text := fun _ => Err TypeError; repr_str := fun s => s; from_markup := fun s => Ok s |}.
Lemma wire_payload_stored : stored (@safe_loads (holding wire_payload) "{..}").
Proof.
  split; cbn.
  - intros k v Hk Hg. unfold TEXT_FIELDS in Hk. repeat case_decide; simplify_eq/=; try done; set_solver.
  - intros k v Hk Hg. repeat case_decide; simplify_eq/=; try done; set_solver.
  - intros v Hg. repeat case_decide; by simplify_eq/=.
  - intros v Hg. repeat case_decide; by simplify_eq/=.
Qed.
Lemma stored_entries_decode_witness :
  exists d, @decode_entry (holding wire_payload) "effect" "{..}" "" = Ok d.
Proof. exact (proj1 (@stored_entries_decode (holding wire_payload) "effect" "{..}" "" wire_payload_stored)). Defined.
Lemma decoded_is_of_its_kind_witness :
  exists d, @decode_entry (holding wire_payload) "effect" "{..}" "" = Ok d /\ d.(Decoded.style) = status_style "unknown".
Proof.
  eexists. split; [reflexivity|].
  exact (proj1 (proj2 (proj2 (proj2 (@decoded_is_of_its_kind (holding wire_payload) "effect" "{..}" "" _ eq_refl))))).
Defined.
Definition two_entries : list PbEvent.t :=
  [PbEvent.mk "run-1" 1 "effect" "{..}" 1000 1 ""; PbEvent.mk "run-1" 2 "gate" "{..}" 3500 2 ""].
Lemma replay_tables_line_up_witness :
  exists rows, @replay_tables (holding wire_payload) two_entries = Ok rows /\ Forall2 (@paired 1000) two_entries rows.
Proof.
  eexists. split; [reflexivity|]. exact (@replay_tables_line_up (holding wire_payload) two_entries _ eq_refl).
Defined.

(** The inspector is not as tolerant as it says: a semantics that is a word, or a value
    entry without a dict, raises. *)
Lemma word_semantics_raises :
  @decode_entry (holding [("semantics", JStr "non_idempotent")]) "effect" "{..}" "" = Err (Raised "ValueError" "int").
Proof. reflexivity. Qed.
Lemma scalar_value_raises :
  @decode_entry (holding [("value", JInt 3)]) "value" "{..}" "" = Err AttributeError.
Proof. reflexivity. Qed.
(** Durations that are not positive carry two signs. *)
Lemma negative_duration : fmt_rel_ms (-5) = "-+5ms".
Proof. vm_compute. reflexivity. Qed.
Lemma expired_countdown : fmt_countdown_ms 1000 4000 = "EXPIRED +3.0s ago".
Proof. vm_compute. reflexivity. Qed.
(** Nearly a minute is shown as sixty seconds. *)
Lemma sixty_seconds : fmt_rel_ms 59999 = "+60.0s".
Proof. vm_compute. reflexivity. Qed.
