(* ===== verification/CliInspector.v ===== *)
(** * CliInspector: the full-screen inspector, [tape_cli/commands/_inspector_app.py]

    The app keeps the entries of one run in the order they arrive and a table that shows
    those its filter and its search let through, with a divider between what was in the
    journal at connect and what came after.  Its handlers run one at a time on the user
    interface's thread: a session is a list of messages.

    The table is maintained incrementally, entry by entry, and rebuilt when the filter or
    the search changes; both give the same rows. *)
From Stdlib Require Import Ascii.
From S2P Require Import Prelude Sql Scenarios Lineage Client JournalSnapshots Program CliText CliJournal.
#[local] Open Scope Z_scope.
#[local] Open Scope nat_scope.

(** ** The table widget

    What the app relies on of textual's [DataTable]: rows under distinct keys, in the
    order they are added. *)
Definition DuplicateKey : exn := Raised "DuplicateKey" "".
Class DataTable (T : Type) := {
  rows : T -> list (string * list Cell);
  add_row : string -> list Cell -> T -> result T;
  clear : T -> T;
  move_cursor : nat -> T -> T
}.
Class LawfulTable (T : Type) `{DataTable T} := {
  rows_add key cells t :
    key ∉ (rows t).*1 -> exists t', add_row key cells t = Ok t' /\ rows t' = rows t ++ [(key, cells)];
  add_taken key cells t : key ∈ (rows t).*1 -> add_row key cells t = Err DuplicateKey;
  rows_clear t : rows (clear t) = [];
  rows_move n t : rows (move_cursor n t) = rows t
}.
Definition row_count {T} `{DataTable T} (t : T) : nat := length (rows t).

(** ** The app *)
Record StatusBar := mkStatusBar {
  bar_run : option RunState.t; bar_cursor : Z; bar_seen : nat; bar_error : string
}.
Record App (T : Type) := mkApp {
  entries : list PbEvent.t;
  table : T;
  row_keys_by_seq : gmap Z string;
  connect_cursor : Z;
  first_ts_ms : option Z;
  divider_inserted : bool;
  follow : bool;
  filter_kind : string;
  search_query : string;
  bar : StatusBar
}.
Arguments mkApp {T}. Arguments entries {T}. Arguments table {T}. Arguments row_keys_by_seq {T}.
Arguments connect_cursor {T}. Arguments first_ts_ms {T}. Arguments divider_inserted {T}.
Arguments follow {T}. Arguments filter_kind {T}. Arguments search_query {T}. Arguments bar {T}.

(** What the user interface's thread handles. *)
Inductive Msg :=
  | JournalEntryArrived (e : PbEvent.t)
  | RunStateArrived (rs : RunState.t)
  | StreamError (message : string)
  | StreamClosed
  | TickStatus
  | ToggleFollow
  | FilterKind (kind : string)
  | SearchSubmitted (query : string)
  | SearchChanged (query : string)
  | BlurSearch
  | ScrollEnd.

Section app.
Context `{PyText} {T : Type} `{DataTable T}.
#[local] Abbreviation H_ := (M (App T)).

(** Assignments to the attributes of [self]. *)
Definition set_entries v (s : App T) : App T :=
  mkApp v s.(table) s.(row_keys_by_seq) s.(connect_cursor) s.(first_ts_ms) s.(divider_inserted) s.(follow) s.(filter_kind) s.(search_query) s.(bar).
Definition set_table v (s : App T) : App T :=
  mkApp s.(entries) v s.(row_keys_by_seq) s.(connect_cursor) s.(first_ts_ms) s.(divider_inserted) s.(follow) s.(filter_kind) s.(search_query) s.(bar).
Definition set_keys v (s : App T) : App T :=
  mkApp s.(entries) s.(table) v s.(connect_cursor) s.(first_ts_ms) s.(divider_inserted) s.(follow) s.(filter_kind) s.(search_query) s.(bar).
Definition set_cursor v (s : App T) : App T :=
  mkApp s.(entries) s.(table) s.(row_keys_by_seq) v s.(first_ts_ms) s.(divider_inserted) s.(follow) s.(filter_kind) s.(search_query) s.(bar).
Definition set_first v (s : App T) : App T :=
  mkApp s.(entries) s.(table) s.(row_keys_by_seq) s.(connect_cursor) v s.(divider_inserted) s.(follow) s.(filter_kind) s.(search_query) s.(bar).
Definition set_divider v (s : App T) : App T :=
  mkApp s.(entries) s.(table) s.(row_keys_by_seq) s.(connect_cursor) s.(first_ts_ms) v s.(follow) s.(filter_kind) s.(search_query) s.(bar).
Definition set_follow v (s : App T) : App T :=
  mkApp s.(entries) s.(table) s.(row_keys_by_seq) s.(connect_cursor) s.(first_ts_ms) s.(divider_inserted) v s.(filter_kind) s.(search_query) s.(bar).
Definition set_filter v (s : App T) : App T :=
  mkApp s.(entries) s.(table) s.(row_keys_by_seq) s.(connect_cursor) s.(first_ts_ms) s.(divider_inserted) s.(follow) v s.(search_query) s.(bar).
Definition set_search v (s : App T) : App T :=
  mkApp s.(entries) s.(table) s.(row_keys_by_seq) s.(connect_cursor) s.(first_ts_ms) s.(divider_inserted) s.(follow) s.(filter_kind) v s.(bar).
Definition set_bar v (s : App T) : App T :=
  mkApp s.(entries) s.(table) s.(row_keys_by_seq) s.(connect_cursor) s.(first_ts_ms) s.(divider_inserted) s.(follow) s.(filter_kind) s.(search_query) v.

Definition modify (f : App T -> App T) : H_ unit := fun s => (Ok tt, f s).
Definition get_app : H_ (App T) := fun s => (Ok s, s).
Definition lift_app {A} (r : result A) : H_ A := fun s => (r, s).

(** [StatusBar.refresh_from]: the arguments that are given replace what the bar holds. *)
Definition refresh_from (run : option RunState.t) (cursor : option Z) (seen : option nat)
    (error : option string) (b : StatusBar) : StatusBar :=
  mkStatusBar (match run with Some _ => run | None => b.(bar_run) end) (default b.(bar_cursor) cursor)
    (default b.(bar_seen) seen) (default b.(bar_error) error).

(** ** Which entries are shown *)
Definition hay (e : PbEvent.t) (d : Decoded.t) : string :=
  join " " [e.(PbEvent.kind); d.(Decoded.status); d.(Decoded.summary); e.(PbEvent.subject); e.(PbEvent.payload_json)].
Definition decoded (e : PbEvent.t) : result Decoded.t :=
  decode_entry e.(PbEvent.kind) e.(PbEvent.payload_json) "".
Definition entry_visible (filter_kind search_query : string) (e : PbEvent.t) : result bool :=
  if decide (filter_kind <> "" /\ e.(PbEvent.kind) <> filter_kind) then mret false
  else if decide (search_query <> "") then
    d ← decoded e; mret (contains (lower search_query) (lower (hay e d)))
  else mret true.

(** ** Rows *)
Definition row_key (seq : Z) : string := "seq-" +:+ pretty seq.
Definition divider_key (cursor : Z) : string := "divider-" +:+ pretty cursor.
Definition divider_cells : list Cell :=
  [plain ""; plain ""; plain ""; ("─── live (entries arriving after connect) ───", "bold dim"); plain ""; plain ""].
Definition is_history (cursor seq : Z) : bool := negb (cursor =? 0)%Z && (seq <=? cursor)%Z.
Definition rel_text (first : option Z) (ts_ms : Z) : string :=
  match first with
  | Some f => if (f =? 0)%Z then "+0ms" else fmt_rel_ms (ts_ms - f)
  | None => "+0ms"
  end.
Definition entry_cells (cursor : Z) (first : option Z) (e : PbEvent.t) (d : Decoded.t) (details : string) : list Cell :=
  let old := is_history cursor e.(PbEvent.seq) in
  [(pretty e.(PbEvent.seq), "dim"); (rel_text first e.(PbEvent.ts_ms), "dim");
   (d.(Decoded.icon), if old then "dim white" else "white");
   (d.(Decoded.type), if old then "dim bold" else "bold");
   (d.(Decoded.status), d.(Decoded.style)); (details, if old then "dim" else "")].

(** [table.add_row(.., key=key)] on the app's table *)
Definition table_add (key : string) (cells : list Cell) : H_ unit :=
  s ← get_app; t ← lift_app (add_row key cells s.(table)); modify (set_table t).

(** [_add_row]: the divider goes in once, before the first row past the cursor; the markup
    of the summary is parsed after it. *)
Definition app_add_row (e : PbEvent.t) : H_ unit :=
  d ← lift_app (decoded e);
  s ← get_app;
  _ ← (if negb s.(divider_inserted) && negb (s.(connect_cursor) =? 0)%Z
          && (s.(connect_cursor) <? e.(PbEvent.seq))%Z
       then _ ← table_add (divider_key s.(connect_cursor)) divider_cells; modify (set_divider true)
       else mret tt : H_ unit);
  details ← lift_app (from_markup d.(Decoded.summary));
  let key := row_key e.(PbEvent.seq) in
  _ ← table_add key (entry_cells s.(connect_cursor) s.(first_ts_ms) e d details);
  modify (fun s => set_keys (<[e.(PbEvent.seq) := key]> s.(row_keys_by_seq)) s).

Definition scroll_to_bottom : H_ unit :=
  modify (fun s => if decide (row_count s.(table) = 0) then s
                   else set_table (move_cursor (row_count s.(table) - 1) s.(table)) s).
Definition scroll_if_following : H_ unit :=
  s ← get_app; if s.(follow) then scroll_to_bottom else mret tt.

Definition add_if_visible (e : PbEvent.t) : H_ unit :=
  s ← get_app;
  v ← lift_app (entry_visible s.(filter_kind) s.(search_query) e);
  if (v : bool) then app_add_row e else mret tt : H_ unit.
(** [for e in self.entries] *)
Fixpoint add_all (es : list PbEvent.t) : H_ unit :=
  match es with [] => mret tt | e :: es => _ ← add_if_visible e; add_all es end.

Definition rebuild_table : H_ unit :=
  _ ← modify (fun s => set_keys ∅ (set_divider false (set_table (clear s.(table)) s)));
  s ← get_app;
  _ ← add_all s.(entries);
  scroll_if_following.

(** ** The handlers *)
Definition on_entry (e : PbEvent.t) : H_ unit :=
  _ ← modify (fun s => set_entries (s.(entries) ++ [e]) s);
  _ ← modify (fun s => set_first (match s.(first_ts_ms) with None => Some e.(PbEvent.ts_ms) | f => f end) s);
  _ ← add_if_visible e;
  _ ← modify (fun s => set_bar (refresh_from None None (Some (length s.(entries))) None s.(bar)) s);
  scroll_if_following.

Definition on_run_state (rs : RunState.t) : H_ unit :=
  _ ← modify (fun s =>
        if (s.(connect_cursor) =? 0)%Z && negb (rs.(RunState.seq_cursor) =? 0)%Z
        then set_cursor rs.(RunState.seq_cursor) s else s);
  modify (fun s => set_bar (refresh_from (Some rs) (Some s.(connect_cursor)) None None s.(bar)) s).

Definition show_error (message : string) : H_ unit :=
  modify (fun s => set_bar (refresh_from None None None (Some message) s.(bar)) s).

Definition toggle_follow : H_ unit :=
  _ ← modify (fun s => set_follow (negb s.(follow)) s);
  scroll_if_following.

Definition handle (m : Msg) : H_ unit :=
  match m with
  | JournalEntryArrived e => on_entry e
  | RunStateArrived rs => on_run_state rs
  | StreamError message => show_error message
  | StreamClosed => show_error "[dim]stream closed (run terminal or server reset)[/dim]"
  | TickStatus => modify (fun s => set_bar (refresh_from None None None None s.(bar)) s)
  | ToggleFollow => toggle_follow
  | FilterKind kind => _ ← modify (set_filter kind); rebuild_table
  | SearchSubmitted q | SearchChanged q => _ ← modify (set_search q); rebuild_table
  | BlurSearch => _ ← modify (set_search ""); rebuild_table
  | ScrollEnd => scroll_to_bottom
  end.

(** A session; a handler that raises ends the app. *)
Fixpoint handle_all (ms : list Msg) : H_ unit :=
  match ms with [] => mret tt | m :: ms => _ ← handle m; handle_all ms end.

(** [on_mount]: the app after the first [get_run]; an unknown run ends the app. *)
Definition new_app (t : T) : App T :=
  mkApp [] t ∅ 0 None false true "" "" (mkStatusBar None 0 0 "").
Definition on_mount (first : result RunState.t) (t : T) : result (option (App T)) :=
  match first with
  | Ok rs =>
    let s := set_cursor rs.(RunState.seq_cursor) (new_app t) in
    Ok (Some (set_bar (refresh_from (Some rs) (Some s.(connect_cursor)) None None s.(bar)) s))
  | Err (Raised "RpcError" "NOT_FOUND") => Ok None
  | Err ((Raised "RpcError" code) as ex) =>
    let s := new_app t in
    Ok (Some (set_bar (refresh_from None None None (Some ("get_run: " +:+ code +:+ " " +:+ exn_details ex)) s.(bar)) s))
  | Err ex => Err ex
  end.

(** ** The selected row *)

(** [next((e for e in self.entries if e.seq == seq), None)] *)
Fixpoint entry_at (seq : Z) (es : list PbEvent.t) : option PbEvent.t :=
  match es with
  | [] => None
  | e :: es => if decide (e.(PbEvent.seq) = seq) then Some e else entry_at seq es
  end.
(** [_on_row_highlight]: the entry a row's key stands for; the divider stands for none. *)
Definition highlighted (key : string) (s : App T) : option PbEvent.t :=
  if starts_with "seq-" key then
    match int_text (JStr (drop_prefix "seq-" key)) with
    | Ok seq => entry_at seq s.(entries)
    | Err _ => None
    end
  else None.
(** The phase the detail pane gives an entry. *)
Definition phase (cursor seq : Z) : option string :=
  if (cursor =? 0)%Z then None
  else Some (if (seq <=? cursor)%Z then "[dim]history (was already in the journal at connect)[/dim]"
             else "[bold cyan]live (arrived after connect)[/bold cyan]").

(** [action_dump_raw]: what the notification shows of the selected entry. *)
Definition dump_raw (e : PbEvent.t) : string :=
  let payload := e.(PbEvent.payload_json) in
  let pretty := if starts_with "{" payload then payload else dumps (JObj [("payload", JStr payload)]) in
  py_take 160 pretty +:+ (if 160 <? py_len pretty then "…" else "").

(** The entry under the cursor: the divider's row and a row past the end stand for none. *)
Definition selected (cursor : Z) (s : App T) : option PbEvent.t :=
  if (cursor <? 0)%Z || (Z.of_nat (row_count s.(table)) <=? cursor)%Z then None
  else match rows s.(table) !! Z.to_nat cursor with Some (key, _) => highlighted key s | None => None end.
(** [notify(text, title=..)] *)
Record Notice := mkNotice { notice_title : string; notice_text : string }.
Definition action_dump_raw (cursor : Z) (s : App T) : option Notice :=
  e ← selected cursor s; Some (mkNotice ("seq " +:+ pretty e.(PbEvent.seq) +:+ " · " +:+ e.(PbEvent.kind)) (dump_raw e)).
(** [json.dumps(payload, indent=2)] *)
Variable dumps_indented : json -> string.
Definition copied (trace_id : string) (e : PbEvent.t) : json :=
  JObj [("seq", JInt e.(PbEvent.seq)); ("global_seq", JInt e.(PbEvent.global_seq)); ("kind", JStr e.(PbEvent.kind));
        ("ts_ms", JInt e.(PbEvent.ts_ms)); ("subject", JStr e.(PbEvent.subject)); ("trace_id", JStr trace_id);
        ("payload_json", JStr e.(PbEvent.payload_json))].
(** [action_copy_json]: what is put on the clipboard, and what is shown. *)
Definition action_copy_json (clipboard : string -> result unit) (trace_of : PbEvent.t -> string) (cursor : Z) (s : App T)
    : option (string * Notice) :=
  e ← selected cursor s;
  let text := dumps_indented (copied (trace_of e) e) in
  Some (text, mkNotice "" match clipboard text with
                          | Ok _ => "copied to clipboard"
                          | Err _ => "clipboard unavailable; use `tape inspect <id> --raw`"
                          end).

(** ** The header and the detail pane *)
(** [StatusBar._build_panel] *)
Definition status_panel (run_id : string) (now : Z) (b : StatusBar) : Table :=
  match b.(bar_run) with
  | None => mkTable ("RUN " +:+ run_id) [[("…connecting…", "dim")]]
  | Some rs =>
    let '(status_label, status_style) := run_status_label rs.(RunState.status) in
    let lease := if decide (rs.(RunState.lease_owner) = "") then "[dim]—[/dim]"
      else bold rs.(RunState.lease_owner) +:+ "  [dim](" +:+ fmt_countdown_ms rs.(RunState.lease_expires_at_ms) now +:+ ")[/dim]" in
    let cursor := bold (pretty rs.(RunState.seq_cursor)) +:+
      (if negb (b.(bar_cursor) =? 0)%Z && (b.(bar_cursor) <? rs.(RunState.seq_cursor))%Z
       then "  [dim](connect: " +:+ pretty b.(bar_cursor) +:+ ")[/dim]" else "") in
    let duration := if decide (rs.(RunState.started_at_ms) = 0%Z) then "—"
      else lstrip_char "+" (fmt_rel_ms ((if decide (rs.(RunState.ended_at_ms) = 0%Z) then now else rs.(RunState.ended_at_ms))
             - rs.(RunState.started_at_ms))) in
    mkTable ("[bold]RUN[/bold] [cyan]" +:+ rs.(RunState.run_id) +:+ "[/cyan]")
      [[plain "app/user/session"; plain (bold rs.(RunState.app_name) +:+ " / " +:+ rs.(RunState.user_id) +:+ " / " +:+ rs.(RunState.session_id));
        plain "status"; (status_label, status_style)];
       [plain "lease"; plain lease; plain "seq cursor"; plain cursor];
       [plain "duration"; plain duration; plain "entries"; plain (bold (pretty b.(bar_seen)))];
       [plain "gate"; if decide (rs.(RunState.waiting_on_gate) = "") then ("—", "dim") else (rs.(RunState.waiting_on_gate), "blue");
        plain ""; if decide (b.(bar_error) = "") then plain "" else (b.(bar_error), "red")]]
  end.
(** What the pane shows of a payload: its JSON laid out, or its text where it is none. *)
Inductive PayloadPanel := NoPayload | Laid (text : string) | RawText (text : string).
(** [json.dumps(.., indent=2, sort_keys=True)] *)
Variable dumps_sorted : json -> string.
Definition payload_panel (payload : string) : PayloadPanel :=
  if decide (payload = "") then NoPayload
  else match loads payload with Ok v => Laid (dumps_sorted v) | Err _ => RawText payload end.
(** [DetailPane.show]; [None] is the hint to select a row. *)
Definition detail_pane (connect_cursor : Z) (entry : option WireEntry.t) : result (option (Table * PayloadPanel)) :=
  match entry with
  | None => mret None
  | Some w =>
    let e := w.(WireEntry.event) in
    d ← decode_entry e.(PbEvent.kind) e.(PbEvent.payload_json) w.(WireEntry.trace_id);
    let row (shown : bool) (label : string) (c : Cell) := if shown then [[plain label; c]] else [] in
    let given s := negb (bool_decide (s = "")) in
    let trace := w.(WireEntry.trace_id) in
    summary ← from_markup d.(Decoded.summary);
    phase_row ← match phase connect_cursor e.(PbEvent.seq) with
                | Some p => p ← from_markup p; mret [[plain "phase"; plain p]]
                | None => mret []
                end;
    mret (Some (mkTable ""
      ([[plain "seq"; plain (pretty e.(PbEvent.seq))]] ++
       row (negb (e.(PbEvent.global_seq) =? 0)%Z) "global_seq" (plain (pretty e.(PbEvent.global_seq))) ++
       [[plain "kind"; plain (kind_icon e.(PbEvent.kind) +:+ "  " +:+ bold e.(PbEvent.kind))]] ++
       row (given d.(Decoded.status)) "status" (d.(Decoded.status), d.(Decoded.style)) ++
       [[plain "ts_ms"; plain (pretty e.(PbEvent.ts_ms))]; [plain "summary"; plain summary]] ++ phase_row ++
       row (given e.(PbEvent.subject)) "subject" (plain (dim e.(PbEvent.subject))) ++
       row (given trace) "trace" (plain (dim (py_take 16 trace +:+ (if 16 <? py_len trace then "…" else "")))) ++
       row (given trace && given w.(WireEntry.span_id)) "span" (plain (dim w.(WireEntry.span_id)))),
      payload_panel e.(PbEvent.payload_json)))
  end.

(** ** The workers

    Each runs in a thread of its own and posts messages. *)
(** [_stream_worker]: what it posts, and what it raised. *)
Definition stream_worker (run_id : string) (from_seq : Z) : Cmd (list Msg * result unit) :=
  r ← caught (invoke (StreamRun run_id from_seq None) : Cmd WireStream);
  let '(es, ending) := match r with Ok it => it | Err ex => ([], Some ex) end in
  let posted := map (fun w => JournalEntryArrived w.(WireEntry.event)) es in
  mret match ending with
       | None => (posted ++ [StreamClosed], Ok tt)
       | Some ex =>
         match rpc_code ex with
         | Some code =>
           (posted ++ (if bool_decide (code ∈ ["CANCELLED"; "DEADLINE_EXCEEDED"]) then []
                       else [StreamError (code +:+ ": " +:+ exn_details ex)]) ++ [StreamClosed], Ok tt)
         | None => (posted ++ [StreamClosed], Err ex)
         end
       end.
(** [_poll_worker], [turns] readings of its stop event. *)
Fixpoint poll_worker (turns : nat) (run_id : string) : Cmd (list Msg) :=
  match turns with
  | O => mret []
  | S turns =>
    r ← caught (invoke (GetRunState run_id) : Cmd RunState.t);
    _ ← (invoke (SleepMs 500) : Cmd unit);
    rest ← poll_worker turns run_id;
    mret (match r with Ok rs => RunStateArrived rs | Err ex => StreamError ("get_run: " +:+ str_exn ex) end :: rest)
  end.
(** [on_unmount]: the poll's stop event is set and the stream cancelled. *)
Definition on_unmount (streaming : bool) : Cmd unit :=
  if streaming then try_ (invoke CancelStream) (fun _ => mret tt) else mret tt.

(** [action_open_replay]: the replay screen over the entries, or the notice that there are
    none; with [--replay] it is tried again every half second until there are some. *)
Definition open_replay (s : App T) : list PbEvent.t + Notice :=
  match s.(entries) with
  | [] => inr (mkNotice "" "no journal entries yet — nothing to replay")
  | es => inl es
  end.
(** The entries at each try, until the screen is pushed. *)
Fixpoint maybe_push_replay (tries : list (App T)) : option (list PbEvent.t) :=
  match tries with
  | [] => None
  | s :: tries => match open_replay s with inl es => Some es | inr _ => maybe_push_replay tries end
  end.
End app.

(** ** Keys of rows *)
Lemma substring_all s : String.substring 0 (String.length s) s = s.
Proof. induction s as [|a s IH]; [done|]. cbn. by rewrite IH. Qed.
Lemma substring_skip p n s : String.substring (String.length p) n (p +:+ s) = String.substring 0 n s.
Proof. by induction p. Qed.
(** [(p + s)[len(p):]] is [s]. *)
Lemma drop_prefix_append p s : drop_prefix p (p +:+ s) = s.
Proof.
  unfold drop_prefix. rewrite length_append, substring_skip.
  replace (String.length p + String.length s - String.length p) with (String.length s) by lia.
  apply substring_all.
Qed.
Lemma starts_with_append p s : starts_with p (p +:+ s) = true.
Proof. unfold starts_with. induction p as [|a p IH]; [by destruct s|]. simpl. by destruct (Ascii.ascii_dec a a). Qed.
(** The entry of a sequence number, when no two share one. *)
Lemma entry_at_unique es e :
  NoDup (PbEvent.seq <$> es) -> e ∈ es -> entry_at e.(PbEvent.seq) es = Some e.
Proof.
  induction es as [|e' es IH]; [by intros _ He%elem_of_nil|].
  cbn. intros [Hn Hnd]%NoDup_cons He. case_decide as Heq; apply elem_of_cons in He as [->|He]; try done.
  - destruct Hn. rewrite Heq. apply list_elem_of_fmap. eauto.
  - by apply IH.
Qed.
Lemma row_key_inj a b : row_key a = row_key b -> a = b.
Proof. intros Heq%append_inj. by apply (inj pretty) in Heq. Qed.
Lemma row_key_not_divider a b : row_key a <> divider_key b.
Proof. done. Qed.

Section timeline.
Context `{PyText}.
Variables (c : Z) (first : option Z) (fk sq : string).

(** ** The rows a table should have *)
(** An entry that decodes, to a summary that is well-formed markup *)
Definition rendered (e : PbEvent.t) : result (Decoded.t * string) :=
  d ← decoded e; details ← from_markup d.(Decoded.summary); mret (d, details).
Definition readable (e : PbEvent.t) : Prop := is_ok (rendered e) = true.
Definition shown (e : PbEvent.t) : bool :=
  match entry_visible fk sq e with Ok v => v | Err _ => false end.
Definition entry_row (e : PbEvent.t) : string * list Cell :=
  (row_key e.(PbEvent.seq),
   match rendered e with Ok (d, details) => entry_cells c first e d details | Err _ => [] end).
Definition divider_row : string * list Cell := (divider_key c, divider_cells).

(** Whether the divider goes in before the row of [e], and what a visible entry adds. *)
Definition past (divided : bool) (e : PbEvent.t) : bool :=
  negb divided && negb (c =? 0)%Z && (c <? e.(PbEvent.seq))%Z.
Definition piece (divided : bool) (e : PbEvent.t) : list (string * list Cell) :=
  if shown e then (if past divided e then [divider_row] else []) ++ [entry_row e] else [].
Definition divided_by (divided : bool) (e : PbEvent.t) : bool :=
  if shown e then divided || past divided e else divided.
Fixpoint timeline (divided : bool) (es : list PbEvent.t) : list (string * list Cell) :=
  match es with
  | [] => []
  | e :: es => piece divided e ++ timeline (divided_by divided e) es
  end.
Definition divided_after : bool -> list PbEvent.t -> bool := foldl divided_by.

Lemma timeline_app d es es' :
  timeline d (es ++ es') = timeline d es ++ timeline (divided_after d es) es'.
Proof.
  revert d. induction es as [|e es IH]; intros d; [done|]. simpl. by rewrite IH, app_assoc.
Qed.

Lemma visible_readable e : readable e -> entry_visible fk sq e = Ok (shown e).
Proof.
  unfold readable, rendered, shown, entry_visible. intros Hr.
  case_decide; [done|]. case_decide; [|done]. by destruct (decoded e).
Qed.

(** Entries in the order of the journal: what was there at connect, the divider, the rest. *)
Lemma timeline_live es :
  Forall (fun e => (c < e.(PbEvent.seq))%Z) es -> timeline true es = entry_row <$> List.filter shown es.
Proof.
  induction 1 as [|e es _ _ IH]; [done|]. simpl. unfold piece, divided_by, past. simpl.
  destruct (shown e); simpl; by rewrite IH.
Qed.
Lemma timeline_divides es :
  c <> 0%Z -> Forall (fun e => (c < e.(PbEvent.seq))%Z) es ->
  timeline false es =
    match List.filter shown es with [] => [] | l => divider_row :: (entry_row <$> l) end.
Proof.
  intros Hc. induction 1 as [|e es He Hes IH]; [done|].
  simpl. unfold piece at 1, divided_by, past. simpl.
  destruct (shown e); simpl; [|done].
  assert ((c =? 0)%Z = false) as -> by lia. assert ((c <? e.(PbEvent.seq))%Z = true) as -> by lia.
  simpl. by rewrite timeline_live.
Qed.
Lemma timeline_history es :
  Forall (fun e => (e.(PbEvent.seq) <= c)%Z) es ->
  timeline false es = entry_row <$> List.filter shown es /\ divided_after false es = false.
Proof.
  induction 1 as [|e es He _ [IH IH']]; [done|].
  assert (past false e = false) as Hp by (unfold past; rewrite (proj2 (Z.ltb_ge _ _)); [by destruct (c =? 0)%Z|done]).
  simpl. unfold piece, divided_by. rewrite Hp. destruct (shown e); simpl; by rewrite IH.
Qed.
End timeline.

(** ** The table is the timeline *)
Section app.
Context `{PyText} {T : Type} `{LawfulTable T}.
Implicit Types (s : App T).

(** The rest of the state that adding rows leaves alone. *)
Definition same_frame s s' : Prop :=
  s'.(entries) = s.(entries) /\ s'.(connect_cursor) = s.(connect_cursor) /\
  s'.(first_ts_ms) = s.(first_ts_ms) /\ s'.(follow) = s.(follow) /\
  s'.(filter_kind) = s.(filter_kind) /\ s'.(search_query) = s.(search_query).
Lemma same_frame_trans s s' s'' : same_frame s s' -> same_frame s' s'' -> same_frame s s''.
Proof. unfold same_frame. intuition congruence. Qed.

(** The keys the table may hold: rows of [pre], and the divider once it is in. *)
Definition keys_of (pre : list PbEvent.t) s : Prop :=
  forall k, k ∈ (rows s.(table)).*1 ->
    k ∈ (fun e => row_key e.(PbEvent.seq)) <$> pre \/
    s.(divider_inserted) = true /\ k = divider_key s.(connect_cursor).

Definition piece_of s := piece s.(connect_cursor) s.(first_ts_ms) s.(filter_kind) s.(search_query) s.(divider_inserted).
Definition divided_by_of s := divided_by s.(connect_cursor) s.(filter_kind) s.(search_query) s.(divider_inserted).
Definition timeline_of s := timeline s.(connect_cursor) s.(first_ts_ms) s.(filter_kind) s.(search_query).

Lemma table_add_fresh key cells s :
  key ∉ (rows s.(table)).*1 ->
  exists t', table_add key cells s = (Ok tt, set_table t' s) /\ rows t' = rows s.(table) ++ [(key, cells)].
Proof.
  intros Hk. destruct (rows_add key cells _ Hk) as (t' & Ht & Hr). exists t'.
  unfold table_add, get_app, lift_app, modify. monad_simpl. by rewrite Ht.
Qed.

Lemma fresh_row pre e s :
  keys_of pre s -> e.(PbEvent.seq) ∉ PbEvent.seq <$> pre -> row_key e.(PbEvent.seq) ∉ (rows s.(table)).*1.
Proof.
  intros Hk He Hin. destruct (Hk _ Hin) as [Hin'|[_ Heq]]; [|by apply row_key_not_divider in Heq].
  apply list_elem_of_fmap in Hin' as (e' & Heq%row_key_inj & Hin'). apply He.
  apply list_elem_of_fmap. eauto.
Qed.

(** Adding one row. *)
Lemma app_add_row_spec pre e s :
  readable e -> keys_of pre s -> e.(PbEvent.seq) ∉ PbEvent.seq <$> pre ->
  shown s.(filter_kind) s.(search_query) e = true ->
  exists s', app_add_row e s = (Ok tt, s') /\ same_frame s s' /\
    rows s'.(table) = rows s.(table) ++ piece_of s e /\ s'.(divider_inserted) = divided_by_of s e /\
    s'.(bar) = s.(bar).
Proof.
  intros Hr Hk He Hv. pose proof (fresh_row _ _ _ Hk He) as Hf.
  unfold piece_of, divided_by_of, piece, divided_by, entry_row. rewrite Hv.
  unfold app_add_row, readable, rendered in *. unfold get_app, lift_app, modify. monad_simpl.
  destruct (decoded e) as [d|]; [|done]. cbn in Hr |- *.
  destruct (from_markup (Decoded.summary d)) as [details|]; [|done]. cbn in Hr. clear Hr. cbn [mbind result_bind]. fold (past s.(connect_cursor) s.(divider_inserted) e).
  destruct (past _ _ e) eqn:Hp.
  - assert (divider_key s.(connect_cursor) ∉ (rows s.(table)).*1) as Hd.
    { intros Hin. destruct (Hk _ Hin) as [Hin'|[Hi _]].
      - apply list_elem_of_fmap in Hin' as (? & Heq & _). by apply eq_sym, row_key_not_divider in Heq.
      - unfold past in Hp. by rewrite Hi in Hp. }
    destruct (table_add_fresh _ divider_cells s Hd) as (t1 & Ht1 & Hr1). rewrite Ht1. cbn.
    destruct (table_add_fresh (row_key e.(PbEvent.seq)) (entry_cells s.(connect_cursor) s.(first_ts_ms) e d details)
                (set_divider true (set_table t1 s))) as (t2 & Ht2 & Hr2).
    { cbn. rewrite Hr1, fmap_app, elem_of_app. intros [?|Hin]; [done|].
      apply list_elem_of_singleton in Hin. by apply row_key_not_divider in Hin. }
    rewrite Ht2. cbn. eexists. split; [done|]. split; [done|]. cbn.
    rewrite Hr2. cbn. rewrite Hr1, <-app_assoc. by rewrite orb_true_r.
  - cbn. destruct (table_add_fresh _ (entry_cells s.(connect_cursor) s.(first_ts_ms) e d details) s Hf) as (t2 & Ht2 & Hr2).
    rewrite Ht2. cbn. eexists. split; [done|]. split; [done|]. cbn. by rewrite Hr2, orb_false_r.
Qed.

Lemma add_if_visible_spec pre e s :
  readable e -> keys_of pre s -> e.(PbEvent.seq) ∉ PbEvent.seq <$> pre ->
  exists s', add_if_visible e s = (Ok tt, s') /\ same_frame s s' /\
    rows s'.(table) = rows s.(table) ++ piece_of s e /\ s'.(divider_inserted) = divided_by_of s e /\
    s'.(bar) = s.(bar) /\ keys_of (pre ++ [e]) s'.
Proof.
  intros Hr Hk He. unfold add_if_visible, get_app, lift_app. monad_simpl.
  rewrite visible_readable by done.
  assert (Hkeys : forall s', same_frame s s' -> rows s'.(table) = rows s.(table) ++ piece_of s e ->
            s'.(divider_inserted) = divided_by_of s e -> keys_of (pre ++ [e]) s').
  { intros s' (_ & Hc & _) Hrows Hdiv k. rewrite Hrows, fmap_app, elem_of_app, fmap_app, elem_of_app, Hc, Hdiv.
    unfold piece_of, piece, divided_by_of, divided_by. destruct (shown _ _ e); intros [Hin|Hin].
    - destruct (Hk _ Hin) as [?|[-> ->]]; auto.
    - rewrite fmap_app, elem_of_app in Hin. destruct (past _ _ e); [|destruct Hin as [Hin|Hin]; [by apply elem_of_nil in Hin|auto]].
      destruct Hin as [Hin|Hin]; [|auto]. apply list_elem_of_singleton in Hin. right. by rewrite orb_true_r.
    - destruct (Hk _ Hin) as [?|[-> ->]]; auto.
    - by apply elem_of_nil in Hin. }
  destruct (shown _ _ e) eqn:Hv.
  - destruct (app_add_row_spec pre e s) as (s' & Hs & Hframe & Hrows & Hdiv & Hbar); [done..|].
    rewrite Hs. eauto 10.
  - exists s. assert (piece_of s e = []) as Hp by (unfold piece_of, piece; by rewrite Hv).
    assert (divided_by_of s e = s.(divider_inserted)) as Hd by (unfold divided_by_of, divided_by; by rewrite Hv).
    rewrite Hp, Hd, app_nil_r. split_and!; try done. apply Hkeys; [done| |done]. by rewrite Hp, app_nil_r.
Qed.

(** The loop of a rebuild. *)
Lemma add_all_spec es : forall pre s,
  Forall readable es -> keys_of pre s -> NoDup (PbEvent.seq <$> pre ++ es) ->
  exists s', add_all es s = (Ok tt, s') /\ same_frame s s' /\
    rows s'.(table) = rows s.(table) ++ timeline_of s s.(divider_inserted) es /\
    s'.(divider_inserted) = divided_after s.(connect_cursor) s.(filter_kind) s.(search_query) s.(divider_inserted) es /\
    keys_of (pre ++ es) s'.
Proof.
  induction es as [|e es IH]; intros pre s Hr Hk Hnd.
  { exists s. rewrite !app_nil_r. by split_and!. }
  apply Forall_cons in Hr as [Hr Hrs].
  assert (e.(PbEvent.seq) ∉ PbEvent.seq <$> pre) as He.
  { rewrite fmap_app, fmap_cons in Hnd. apply NoDup_app in Hnd as (_ & Hd & _).
    intros Hin. apply (Hd _ Hin). by left. }
  destruct (add_if_visible_spec pre e s) as (s1 & Hs1 & Hf1 & Hrows1 & Hd1 & _ & Hk1); [done..|].
  destruct (IH (pre ++ [e]) s1) as (s2 & Hs2 & Hf2 & Hrows2 & Hd2 & Hk2); [done..|by rewrite <-app_assoc|].
  rewrite <-app_assoc in Hk2. exists s2. cbn [add_all]. monad_simpl. rewrite Hs1. split; [done|].
  split; [by eapply same_frame_trans|].
  destruct Hf1 as (_ & Hc & Hfi & _ & Hfk & Hsq).
  unfold timeline_of, divided_by_of in *. rewrite Hc, Hfi, Hfk, Hsq, Hd1 in *.
  rewrite Hrows2, Hrows1, <-app_assoc. by split_and!.
Qed.

(** ** The invariant of a session *)
Definition consistent (c : Z) s : Prop :=
  s.(connect_cursor) = c /\ s.(first_ts_ms) = PbEvent.ts_ms <$> head s.(entries) /\
  rows s.(table) = timeline_of s false s.(entries) /\
  s.(divider_inserted) = divided_after c s.(filter_kind) s.(search_query) false s.(entries) /\
  keys_of s.(entries) s.

(** Scrolling and the status bar do not change what the table shows. *)
Lemma consistent_rows c s s' :
  same_frame s s' -> rows s'.(table) = rows s.(table) -> s'.(divider_inserted) = s.(divider_inserted) ->
  consistent c s -> consistent c s'.
Proof.
  unfold consistent, timeline_of, keys_of. intros (He & Hc & Hf & _ & Hfk & Hsq) Hr Hd.
  by rewrite He, Hc, Hf, Hfk, Hsq, Hr, Hd.
Qed.
Lemma scroll_spec s :
  exists s', scroll_to_bottom s = (Ok tt, s') /\ same_frame s s' /\ rows s'.(table) = rows s.(table) /\
    s'.(divider_inserted) = s.(divider_inserted).
Proof.
  unfold scroll_to_bottom, modify. eexists. split; [done|]. case_decide; [done|]. cbn.
  split; [done|]. by rewrite rows_move.
Qed.
Lemma scroll_if_following_spec s :
  exists s', scroll_if_following s = (Ok tt, s') /\ same_frame s s' /\ rows s'.(table) = rows s.(table) /\
    s'.(divider_inserted) = s.(divider_inserted).
Proof.
  unfold scroll_if_following, get_app. monad_simpl. destruct s.(follow); [apply scroll_spec|]. by exists s.
Qed.

Lemma rebuild_spec c s :
  s.(connect_cursor) = c -> s.(first_ts_ms) = PbEvent.ts_ms <$> head s.(entries) ->
  Forall readable s.(entries) -> NoDup (PbEvent.seq <$> s.(entries)) ->
  exists s', rebuild_table s = (Ok tt, s') /\ same_frame s s' /\ consistent c s'.
Proof.
  intros Hc Hf Hr Hnd. unfold rebuild_table, get_app, modify. monad_simpl.
  set (s0 := set_keys _ _).
  destruct (add_all_spec s.(entries) [] s0) as (s1 & Hs1 & Hf1 & Hrows & Hd & Hk); [done| |done|].
  { intros k Hin. cbn in Hin. rewrite rows_clear in Hin. by apply elem_of_nil in Hin. }
  change (entries s0) with (entries s). rewrite Hs1. destruct (scroll_if_following_spec s1) as (s2 & Hs2 & Hf2 & Hr2 & Hd2). rewrite Hs2.
  exists s2. split; [done|]. split; [by apply (same_frame_trans s s1 s2)|].
  apply (consistent_rows c s1 s2); [done..|].
  destruct Hf1 as (He & Hc1 & Hfi & _ & Hfk & Hsq). cbn in *.
  unfold consistent, timeline_of in *. cbn in *. rewrite rows_clear in Hrows.
  by rewrite He, Hc1, Hfi, Hfk, Hsq, Hc in *.
Qed.

Lemma on_entry_spec c e s :
  consistent c s -> readable e -> e.(PbEvent.seq) ∉ PbEvent.seq <$> s.(entries) ->
  exists s', on_entry e s = (Ok tt, s') /\ s'.(entries) = s.(entries) ++ [e] /\ consistent c s' /\
    s'.(filter_kind) = s.(filter_kind) /\ s'.(search_query) = s.(search_query).
Proof.
  intros (Hc & Hf & Hrows & Hd & Hk) Hr He. unfold on_entry, modify. monad_simpl.
  set (s0 := set_first _ _).
  destruct (add_if_visible_spec s.(entries) e s0) as (s1 & Hs1 & Hf1 & Hrows1 & Hd1 & _ & Hk1); [done..|].
  rewrite Hs1. cbv beta iota.
  destruct (scroll_if_following_spec (set_bar (refresh_from None None (Some (length s1.(entries))) None s1.(bar)) s1))
    as (s2 & Hs2 & Hf2 & Hr2 & Hd2).
  exists s2. split; [exact Hs2|].
  assert (consistent c s1) as Hcons.
  { destruct Hf1 as (He1 & Hc1 & Hfi & _ & Hfk & Hsq). unfold consistent, timeline_of, piece_of, divided_by_of in *.
    cbn in *. rewrite He1, Hc1, Hfi, Hfk, Hsq, Hrows1, Hd1, Hrows, Hd, Hc, Hf in *.
    rewrite timeline_app. unfold divided_after. rewrite foldl_app. cbn. rewrite app_nil_r.
    split_and!; [done| | |done|done].
    - by destruct s.(entries).
    - destruct s.(entries); [done|]. done. }
  split; [|split; [by apply (consistent_rows c s1 s2)|]].
  - destruct Hf1 as (He1 & _), Hf2 as (He2 & _). rewrite He2. cbn. by rewrite He1.
  - destruct Hf1 as (_ & _ & _ & _ & Hfk & Hsq), Hf2 as (_ & _ & _ & _ & Hfk2 & Hsq2).
    rewrite Hfk2, Hsq2. cbn. by rewrite Hfk, Hsq.
Qed.

(** ** Sessions *)

(** The entries a session delivers, and the filter and search it leaves. *)
Definition arrivals (ms : list Msg) : list PbEvent.t :=
  omap (fun m => match m with JournalEntryArrived e => Some e | _ => None end) ms.
Definition refined (m : Msg) (v : string * string) : string * string :=
  match m with
  | FilterKind k => (k, v.2)
  | SearchSubmitted q | SearchChanged q => (v.1, q)
  | BlurSearch => (v.1, "")
  | _ => v
  end.
Definition view (ms : list Msg) (v : string * string) : string * string := foldl (fun v m => refined m v) v ms.

Lemma handle_spec c m s :
  c <> 0%Z -> consistent c s -> Forall readable (s.(entries) ++ arrivals [m]) ->
  NoDup (PbEvent.seq <$> s.(entries) ++ arrivals [m]) ->
  exists s', handle m s = (Ok tt, s') /\ s'.(entries) = s.(entries) ++ arrivals [m] /\ consistent c s' /\
    (s'.(filter_kind), s'.(search_query)) = refined m (s.(filter_kind), s.(search_query)).
Proof.
  intros Hc0 Hcons Hr Hnd. pose proof Hcons as (Hc & Hf & _).
  assert (Hrebuild : forall fk sq, Forall readable s.(entries) -> NoDup (PbEvent.seq <$> s.(entries)) ->
    exists s', rebuild_table (set_search sq (set_filter fk s)) = (Ok tt, s') /\ s'.(entries) = s.(entries) /\
      consistent c s' /\ (s'.(filter_kind), s'.(search_query)) = (fk, sq)).
  { intros fk sq Hr' Hnd'. destruct (rebuild_spec c (set_search sq (set_filter fk s))) as (s' & Hs & Hf' & Hc'); [done..|].
    exists s'. destruct Hf' as (He & _ & _ & _ & Hfk & Hsq). rewrite Hfk, Hsq. by split_and!. }
  destruct m; cbn in Hr, Hnd; try (rewrite app_nil_r in Hr, Hnd); cbn [handle arrivals omap list_omap refined fst snd];
    rewrite ?app_nil_r.
  - apply Forall_app in Hr as [_ [Hr _]%Forall_cons].
    rewrite fmap_app in Hnd. apply NoDup_app in Hnd as (_ & Hd & _).
    destruct (on_entry_spec c e s Hcons Hr) as (s' & Hs & He & Hc' & Hfk & Hsq).
    { intros Hin. apply (Hd _ Hin). by left. }
    exists s'. rewrite He, Hfk, Hsq. by split_and!.
  - unfold on_run_state, modify. monad_simpl. rewrite Hc. assert ((c =? 0)%Z = false) as -> by lia. cbn.
    eexists. split; [done|]. by split_and!.
  - by eexists.
  - by eexists.
  - by eexists.
  - unfold toggle_follow, modify. monad_simpl.
    destruct (scroll_if_following_spec (set_follow (negb s.(follow)) s)) as (s' & Hs & Hf' & Hr' & Hd').
    exists s'. split; [done|]. destruct Hf' as (He & Hc' & Hfi & _ & Hfk & Hsq). rewrite He, Hfk, Hsq.
    split_and!; try done. destruct Hcons as (_ & _ & H3 & H4 & H5). cbn in *.
    unfold consistent, timeline_of, keys_of in *. by rewrite He, Hc', Hfi, Hfk, Hsq, Hr', Hd'.
  - unfold modify. monad_simpl. by apply (Hrebuild kind s.(search_query)).
  - unfold modify. monad_simpl. by apply (Hrebuild s.(filter_kind) query).
  - unfold modify. monad_simpl. by apply (Hrebuild s.(filter_kind) query).
  - unfold modify. monad_simpl. by apply (Hrebuild s.(filter_kind) "").
  - destruct (scroll_spec s) as (s' & Hs & Hf' & Hr' & Hd'). exists s'. split; [done|].
    pose proof (consistent_rows c s s' Hf' Hr' Hd' Hcons). destruct Hf' as (He & _ & _ & _ & Hfk & Hsq).
    rewrite He, Hfk, Hsq. by split_and!.
Qed.

Lemma handle_all_spec c ms : forall s,
  c <> 0%Z -> consistent c s -> Forall readable (s.(entries) ++ arrivals ms) ->
  NoDup (PbEvent.seq <$> s.(entries) ++ arrivals ms) ->
  exists s', handle_all ms s = (Ok tt, s') /\ s'.(entries) = s.(entries) ++ arrivals ms /\ consistent c s' /\
    (s'.(filter_kind), s'.(search_query)) = view ms (s.(filter_kind), s.(search_query)).
Proof.
  induction ms as [|m ms IH]; intros s Hc Hcons Hr Hnd.
  { exists s. rewrite app_nil_r. by split_and!. }
  assert (arrivals (m :: ms) = arrivals [m] ++ arrivals ms) as Ha by (unfold arrivals; cbn; by destruct m).
  rewrite Ha, app_assoc in *.
  destruct (handle_spec c m s) as (s1 & Hs1 & He1 & Hc1 & Hv1); [done|done| | |].
  { by apply Forall_app in Hr as [? _]. }
  { rewrite fmap_app in Hnd. by apply NoDup_app in Hnd as [? _]. }
  destruct (IH s1) as (s2 & Hs2 & He2 & Hc2 & Hv2); [done|done|by rewrite He1..|].
  exists s2. cbn [handle_all]. monad_simpl. rewrite Hs1. cbn. rewrite He2, He1, Hv2, Hv1. by split_and!.
Qed.
End app.

(** Entries in the order of the journal. *)
Definition in_order (es : list PbEvent.t) : Prop := StronglySorted Z.lt (PbEvent.seq <$> es).

Lemma in_order_nodup es : in_order es -> NoDup (PbEvent.seq <$> es).
Proof.
  unfold in_order. induction 1 as [|x l _ IH Hx]; constructor; [|done].
  intros Hin. rewrite Forall_forall in Hx. specialize (Hx _ Hin). lia.
Qed.
(** A journal in order splits at a cursor. *)
Lemma in_order_splits c es :
  in_order es -> exists old new, es = old ++ new /\
    Forall (fun e => (e.(PbEvent.seq) <= c)%Z) old /\ Forall (fun e => (c < e.(PbEvent.seq))%Z) new.
Proof.
  unfold in_order. induction es as [|e es IH]; intros Ho; [by exists [], []|].
  inversion Ho as [|? ? Ho' Hlt]; subst. destruct (decide (e.(PbEvent.seq) <= c)%Z).
  - destruct (IH Ho') as (old & new & -> & ? & ?). exists (e :: old), new. split_and!; [done|by constructor|done].
  - exists [], (e :: es). split_and!; [done|done|]. constructor; [lia|].
    change (list_fmap _ _ PbEvent.seq es) with (PbEvent.seq <$> es) in Hlt.
    rewrite Forall_fmap in Hlt. eapply Forall_impl; [exact Hlt|]. simpl. lia.
Qed.

Section shown.
Context `{PyText}.
Definition history (c : Z) (es : list PbEvent.t) : list PbEvent.t :=
  List.filter (fun e => (e.(PbEvent.seq) <=? c)%Z) es.
Definition live (c : Z) (es : list PbEvent.t) : list PbEvent.t :=
  List.filter (fun e => (c <? e.(PbEvent.seq))%Z) es.

Lemma filter_all {A} (f : A -> bool) l : Forall (fun x => f x = true) l -> List.filter f l = l.
Proof. induction 1 as [|x l Hx _ IH]; [done|]. simpl. by rewrite Hx, IH. Qed.
Lemma filter_none {A} (f : A -> bool) l : Forall (fun x => f x = false) l -> List.filter f l = [].
Proof. induction 1 as [|x l Hx _ IH]; [done|]. simpl. by rewrite Hx, IH. Qed.

Lemma timeline_shape c first fk sq es :
  c <> 0%Z -> in_order es ->
  timeline c first fk sq false es =
    (entry_row c first <$> List.filter (shown fk sq) (history c es)) ++
    match List.filter (shown fk sq) (live c es) with
    | [] => []
    | l => divider_row c :: (entry_row c first <$> l)
    end.
Proof.
  intros Hc Ho. destruct (in_order_splits c es Ho) as (old & new & -> & Hold & Hnew).
  assert (history c (old ++ new) = old) as ->.
  { unfold history. rewrite List.filter_app, (filter_all _ old), (filter_none _ new), app_nil_r; [done| |].
    - eapply Forall_impl; [exact Hnew|]. simpl. lia.
    - eapply Forall_impl; [exact Hold|]. simpl. lia. }
  assert (live c (old ++ new) = new) as ->.
  { unfold live. rewrite List.filter_app, (filter_none _ old), (filter_all _ new); [done| |].
    - eapply Forall_impl; [exact Hnew|]. simpl. lia.
    - eapply Forall_impl; [exact Hold|]. simpl. lia. }
  rewrite timeline_app. destruct (timeline_history c first fk sq old Hold) as [-> ->].
  by rewrite timeline_divides.
Qed.
End shown.

(** ** Properties *)
Section properties.
Context `{PyText} {T : Type} `{LawfulTable T}.

(** C11: The inspector's table in a session whose first [get_run] succeeded with a cursor
    that is not zero, and whose entries arrive in the journal's order, each decodable, to a
    summary that is well-formed markup.  Kept up row by row and rebuilt on every change of
    filter or search, it always shows the same: the visible entries that were in the journal
    at connect, a divider if a visible entry came later, and those later entries, each group
    in the order of the journal, whatever the session's other messages. *)
Theorem table_shows_the_journal (rs : RunState.t) (t : T) (ms : list Msg) (s0 : App T) :
  on_mount (Ok rs) t = Ok (Some s0) -> rows t = [] -> rs.(RunState.seq_cursor) <> 0%Z ->
  in_order (arrivals ms) -> Forall readable (arrivals ms) ->
  exists s, handle_all ms s0 = (Ok tt, s) /\
    let '(fk, sq) := view ms ("", "") in
    let c := rs.(RunState.seq_cursor) in
    let row := entry_row c (PbEvent.ts_ms <$> head (arrivals ms)) in
    rows s.(table) =
      (row <$> List.filter (shown fk sq) (history c (arrivals ms))) ++
      match List.filter (shown fk sq) (live c (arrivals ms)) with
      | [] => []
      | l => divider_row c :: (row <$> l)
      end.
Proof.
  intros [= <-] Ht Hc Ho Hr.
  destruct (handle_all_spec rs.(RunState.seq_cursor) ms
    (set_bar (refresh_from (Some rs) (Some rs.(RunState.seq_cursor)) None None (mkStatusBar None 0 0 ""))
       (set_cursor rs.(RunState.seq_cursor) (new_app t)))) as (s & Hs & He & Hcons & Hv).
  { done. }
  { unfold consistent, timeline_of, keys_of. cbn. rewrite Ht. split_and!; try done. intros k Hk. by apply elem_of_nil in Hk. }
  { done. }
  { by apply in_order_nodup. }
  exists s. split; [exact Hs|]. cbn in He, Hv. destruct Hcons as (Hc' & Hf & Hrows & _).
  destruct (view ms ("", "")) as [fk sq]. injection Hv as Hfk Hsq.
  rewrite Hrows. unfold timeline_of. rewrite Hc', Hf, Hfk, Hsq, He. by apply timeline_shape.
Qed.

(** Highlighting the row of an entry selects that entry: its key reads back as its
    sequence number, whatever the session holds. *)
Theorem highlighted_row_is_the_entry (s : App T) (e : PbEvent.t) :
  int_text (JStr (pretty e.(PbEvent.seq))) = Ok e.(PbEvent.seq) ->
  NoDup (PbEvent.seq <$> s.(entries)) -> e ∈ s.(entries) ->
  highlighted (row_key e.(PbEvent.seq)) s = Some e /\ highlighted (divider_key s.(connect_cursor)) s = None.
Proof.
  intros Hint Hnd He. split; [|done]. unfold highlighted, row_key.
  rewrite starts_with_append, drop_prefix_append, Hint. by apply entry_at_unique.
Qed.
End properties.

(** ** A table, and a session with it *)

(** The rows as a list. *)
#[export] Instance list_table : DataTable (list (string * list Cell)) := {|
  rows := fun t => t;
  add_row := fun key cells t => if decide (key ∈ t.*1) then Err DuplicateKey else Ok (t ++ [(key, cells)]);
  clear := fun _ => [];
  move_cursor := fun _ t => t
|}.
#[export] Instance list_table_lawful : LawfulTable (list (string * list Cell)).
Proof.
  split; cbn; [|intros key cells t Hk; by rewrite decide_True|done|done].
  intros key cells t Hk. rewrite decide_False by done. by eexists.
Qed.

Definition seen_text : PyText := {|
  dumps := fun _ => "{}"; loads := fun _ => Ok (JObj [("status", JStr "confirmed"); ("tool", JStr "wire")]);
  str_exn := fun _ => "boom"; exn_name := fun _ => "Exception"; exn_details := fun _ => ""; str_json := fun _ => "";
  int_text := fun _ => Ok 3%Z; float_text := fun _ => Err TypeError; repr_str := fun s => s; from_markup := fun s => Ok s |}.
Definition entry_of (seq : Z) (kind : string) : PbEvent.t := PbEvent.mk "run-1" seq kind "{..}" (1000 + seq) seq "".
Definition run_at (cursor : Z) : RunState.t := RunState.mk "run-1" 2 "treasury" "u" "s" "" 0 cursor 1000 0 "".
(** Two entries at connect, two after it, a search in between. *)
Definition sample_session : list Msg :=
  [JournalEntryArrived (entry_of 1 "run"); JournalEntryArrived (entry_of 2 "effect"); SearchChanged "WIRE";
   JournalEntryArrived (entry_of 3 "effect"); RunStateArrived (run_at 3); JournalEntryArrived (entry_of 4 "gate")].
Lemma table_shows_the_journal_witness :
  exists s, handle_all (H:=seen_text) sample_session
      (set_bar (refresh_from (Some (run_at 2)) (Some 2%Z) None None (mkStatusBar None 0 0 "")) (set_cursor 2 (new_app []))) = (Ok tt, s) /\
    (rows s.(table)).*1 = ["seq-2"; "divider-2"; "seq-3"].
Proof.
  destruct (@table_shows_the_journal seen_text _ list_table list_table_lawful (run_at 2) [] sample_session _ eq_refl eq_refl)
    as (s & Hs & Hrows).
  - discriminate.
  - repeat constructor.
  - repeat constructor.
  - exists s. split; [exact Hs|]. cbn [view sample_session foldl refined fst snd] in Hrows. rewrite Hrows. vm_compute. reflexivity.
Defined.

Lemma highlighted_row_is_the_entry_witness :
  highlighted (H:=seen_text) (row_key 3)
    (set_entries [entry_of 2 "effect"; entry_of 3 "gate"] (new_app (T:=list (string * list Cell)) [])) = Some (entry_of 3 "gate").
Proof.
  refine (proj1 (@highlighted_row_is_the_entry seen_text (list (string * list Cell))
    (set_entries [entry_of 2 "effect"; entry_of 3 "gate"] (new_app [])) (entry_of 3 "gate") eq_refl _ _)).
  - apply (bool_decide_unpack _). vm_compute. exact I.
  - right. left.
Defined.

(** A run watched from its first entry on: the first poll takes the cursor it finds for the
    cursor at connect, and an entry that arrived while watching becomes history. *)
Lemma live_entry_becomes_history :
  exists s, handle_all (H:=seen_text) [JournalEntryArrived (entry_of 1 "run"); RunStateArrived (run_at 1)]
      (set_cursor 0 (new_app (T:=list (string * list Cell)) [])) = (Ok tt, s) /\
    phase s.(connect_cursor) 1 = Some "[dim]history (was already in the journal at connect)[/dim]".
Proof. eexists. split; [vm_compute; reflexivity|]. reflexivity. Qed.

(** ** The workers and the selection *)
Section workers.
Context `{PyText}.

(** The stream's thread posts every entry the server sent, once and in order, after them
    at most one error, and last that the stream is closed, however it ended. *)
Theorem stream_worker_posts {W} (h : forall c, M W (cli_answer c)) run_id from_seq w w' es ending :
  h (StreamRun run_id from_seq None) w = (Ok (es, ending), w') ->
  exists errs raised, length errs <= 1 /\
    run h (stream_worker run_id from_seq) w =
      (Ok (map (fun e => JournalEntryArrived e.(WireEntry.event)) es ++ map StreamError errs ++ [StreamClosed], raised), w').
Proof.
  intros Hh. unfold stream_worker, caught, invoke. cbn. rewrite Hh. cbn.
  destruct ending as [ex|]; [|exists [], (Ok tt); split; [cbn; lia|done]].
  destruct (rpc_code ex) as [code|]; [|exists [], (Err ex); split; [cbn; lia|done]].
  case_bool_decide.
  - exists [], (Ok tt). split; [cbn; lia|done].
  - exists [code +:+ ": " +:+ exn_details ex], (Ok tt). split; [cbn; lia|done].
Qed.

(** A poll that fails is posted like one that succeeds: every turn posts one message. *)
Lemma poll_worker_posts turns run_id t o :
  exec (poll_worker turns run_id) t o -> forall ms, o = Ok ms -> length ms = turns.
Proof.
  intros He. pattern t, o. refine (wp_exec _ _ t o _ He). clear t o He.
  induction turns as [|turns IH]; cbn [poll_worker]; [by intros ms [= <-]|].
  apply wp_bind, wp_any. intros t [r|e]; [|done]. intros [[]|e]; [|done]. cbn.
  apply wp_bind. eapply wp_mono; [|exact IH]. intros t' [ms|e] Hms; [|done]. intros ms' [= <-]. cbn. by rewrite (Hms ms eq_refl).
Qed.

(** The row under the cursor is the entry that is copied. *)
Lemma selected_row_is_copied {T} `{DataTable T} (s : App T) e n cells clipboard trace_of dumps_indented :
  int_text (JStr (pretty e.(PbEvent.seq))) = Ok e.(PbEvent.seq) ->
  NoDup (PbEvent.seq <$> s.(entries)) -> e ∈ s.(entries) ->
  rows s.(table) !! n = Some (row_key e.(PbEvent.seq), cells) ->
  exists notice, action_copy_json dumps_indented clipboard trace_of (Z.of_nat n) s = Some (dumps_indented (copied (trace_of e) e), notice).
Proof.
  intros Hint Hnd He Hrow. unfold action_copy_json, selected.
  pose proof (lookup_lt_Some _ _ _ Hrow) as Hlt.
  rewrite (proj2 (Z.ltb_ge _ _)) by lia. rewrite (proj2 (Z.leb_gt _ _)) by (unfold row_count; lia). cbn.
  rewrite Nat2Z.id, Hrow. unfold highlighted, row_key. rewrite starts_with_append, drop_prefix_append, Hint. cbn.
  rewrite entry_at_unique by done. cbn. by eexists.
Qed.
(** With [--replay] on a run without entries the screen is asked for again for ever. *)
Lemma replay_of_nothing_never_opens {T} (tries : list (App T)) :
  Forall (fun s => s.(entries) = []) tries -> maybe_push_replay tries = None.
Proof. induction 1 as [|s tries Hs _ IH]; [done|]. cbn. unfold open_replay. by rewrite Hs. Qed.
End workers.
