(* ===== verification/CliConfig.v ===== *)
(** * CliConfig: the project file, [tape_cli/config.py]

    Filling [${NAME:-default}] placeholders from the environment over the whole of a parsed
    tape.yaml, the sections of a project with their defaults and rules, and finding the
    file.

    Reading a text with placeholders back as the pieces it was written from. *)
From Stdlib Require Import Ascii.
From S2P Require Import Prelude Scenarios Client CliText.
#[local] Open Scope Z_scope.
#[local] Open Scope nat_scope.

(** ** Placeholders *)
Definition is_upper (c : ascii) : bool := let n := nat_of_ascii c in (65 <=? n) && (n <=? 90).
Definition is_digit (c : ascii) : bool := let n := nat_of_ascii c in (48 <=? n) && (n <=? 57).
(** [A-Z_] and [A-Z0-9_] *)
Definition name_start (c : ascii) : bool := is_upper c || bool_decide (c = "_"%char).
Definition name_char (c : ascii) : bool := name_start c || is_digit c.
Definition newline : ascii := "010"%char.

(** [[A-Z0-9_]*], and what follows it *)
Fixpoint name_run (s : string) : string * string :=
  match s with
  | EmptyString => ("", "")
  | String c s' =>
    if name_char c then let '(n, rest) := name_run s' in (String c n, rest) else ("", s)
  end.
(** [(.* ? )] up to the first closing brace; [.] is no newline. *)
Fixpoint up_to_brace (s : string) : option (string * string) :=
  match s with
  | EmptyString => None
  | String c s' =>
    if decide (c = "}"%char) then Some ("", s')
    else if decide (c = newline) then None
    else match up_to_brace s' with Some (d, rest) => Some (String c d, rest) | None => None end
  end.

(** What ends a placeholder after its name: the default and the rest. *)
Definition match_default (s : string) : option (string * string) :=
  match s with
  | String "}" rest => Some ("", rest)
  | String ":" (String "-" rest) => up_to_brace rest
  | _ => None
  end.
(** A match of [_ENV_RE] at the start of [s]: the name, the default and the rest. *)
Definition match_env (s : string) : option (string * string * string) :=
  match s with
  | String "$" (String "{" (String c s')) =>
    if name_start c then
      let '(n, rest) := name_run s' in
      match match_default rest with
      | Some (d, rest) => Some (String c n, d, rest)
      | None => None
      end
    else None
  | _ => None
  end.

(** [env.get(name, default)] *)
Definition env_get (env : list (string * string)) (name default_ : string) : string :=
  default default_ (dict_get name env).

(** [_ENV_RE.sub(repl, text)]: [skip] characters belong to the match just replaced. *)
Fixpoint interp_from (env : list (string * string)) (skip : nat) (s : string) : string :=
  match s with
  | EmptyString => EmptyString
  | String c s' =>
    match skip with
    | S skip => interp_from env skip s'
    | O =>
      match match_env s with
      | Some (name, d, rest) =>
        env_get env name d +:+ interp_from env (String.length s' - String.length rest) s'
      | None => String c (interp_from env 0 s')
      end
    end
  end.
Definition interpolate (env : list (string * string)) (text : string) : string := interp_from env 0 text.

(** [_walk_interpolate]: every text of a parsed document, its keys left alone. *)
Fixpoint walk_interpolate (env : list (string * string)) (node : json) : json :=
  match node with
  | JStr s => JStr (interpolate env s)
  | JList l => JList (map (walk_interpolate env) l)
  | JObj d => JObj (map (fun kv => (kv.1, walk_interpolate env kv.2)) d)
  | JNull | JBool _ | JInt _ | JFloat _ => node
  end.

(** ** The sections *)
Inductive Tier := TAdk | TServer.
Inductive DeploymentTarget := DLocal | DCloudRun | DGke | DAgentRuntime.
Inductive StoreKind := Sqlite | Postgres | Alloydb | Spanner | Bigtable.
Inductive EventsKind := NoEvents | Pubsub | PubsubEmulator.
Inductive ServerTarget := OnCloudRun | OnGke | OnLocal.
Inductive TenancyMode := Single | TrustedMultiApp | HardMultiTenant.
#[export] Instance StoreKind_eq_dec : EqDecision StoreKind. Proof. solve_decision. Defined.
#[export] Instance EventsKind_eq_dec : EqDecision EventsKind. Proof. solve_decision. Defined.
#[export] Instance ServerTarget_eq_dec : EqDecision ServerTarget. Proof. solve_decision. Defined.
#[export] Instance TenancyMode_eq_dec : EqDecision TenancyMode. Proof. solve_decision. Defined.
#[export] Instance Tier_eq_dec : EqDecision Tier. Proof. solve_decision. Defined.

Record ProjectSection := mkProjectSection { pj_name : string; pj_environment : string; pj_tier : Tier }.
Record AgentSection := mkAgentSection {
  ag_app_name : string; ag_entrypoint : string; ag_runner_factory : option string;
  ag_target : DeploymentTarget
}.
Record ServerSection := mkServerSection {
  sv_image : string; sv_target : ServerTarget; sv_min_instances : Z; sv_max_instances : Z;
  sv_cpu : string; sv_memory : string; sv_ingress : string
}.
Record StoreSection := mkStoreSection {
  st_kind : StoreKind; st_url_secret : option string; st_url : option string
}.
Record EventsSection := mkEventsSection {
  ev_kind : EventsKind; ev_topic : string; ev_outbox_topic : option string; ev_dlq_topic : option string
}.
Record ReactorSpec := mkReactorSpec { rs_enabled : bool; rs_min_instances : Z; rs_max_instances : Z }.
Record ReactorsSection := mkReactorsSection {
  rx_recovery : ReactorSpec; rx_reconciler : ReactorSpec; rx_outbox : ReactorSpec;
  rx_timers : ReactorSpec; rx_compensation : ReactorSpec
}.
Record TapeSection := mkTapeSection {
  tp_url : string; tp_server : ServerSection; tp_store : StoreSection; tp_events : EventsSection;
  tp_reactors : ReactorsSection
}.
Record EmbeddedSection := mkEmbeddedSection {
  em_db_url : string; em_connectors : option string; em_reactor_interval_ms : Z
}.
Record GcpSection := mkGcpSection {
  gc_project_id : string; gc_region : string; gc_repository : string; gc_sa_prefix : string;
  gc_vpc_connector : option string; gc_private_ip : bool
}.
Record TenancySection := mkTenancySection { tn_mode : TenancyMode; tn_tenant_id : string }.
Record TapeProject := mkTapeProject {
  project : ProjectSection; agent : AgentSection; tape : TapeSection;
  embedded : option EmbeddedSection; gcp : GcpSection; tenancy : TenancySection
}.

(** What an omitted section stands for. *)
Definition default_server : ServerSection :=
  mkServerSection "ghcr.io/vamsiramakrishnan/tape-server:latest" OnCloudRun 0 10 "1" "512Mi" "internal".
Definition default_store : StoreSection := mkStoreSection Sqlite None None.
Definition default_events : EventsSection := mkEventsSection NoEvents "tape-events" None None.
Definition default_reactor : ReactorSpec := mkReactorSpec true 1 3.
Definition default_reactors : ReactorsSection :=
  mkReactorsSection default_reactor default_reactor default_reactor default_reactor default_reactor.
Definition default_tape : TapeSection :=
  mkTapeSection "tape://localhost:7878" default_server default_store default_events default_reactors.
Definition default_gcp : GcpSection := mkGcpSection "" "us-central1" "tape" "tape" None true.
Definition default_tenancy : TenancySection := mkTenancySection Single "default".

Definition store_kind_name (k : StoreKind) : string :=
  match k with
  | Sqlite => "sqlite" | Postgres => "postgres" | Alloydb => "alloydb" | Spanner => "spanner"
  | Bigtable => "bigtable"
  end.
Definition some_text (s : option string) : bool := negb (bool_decide (default "" s = "")).
(** [_at_least_one] *)
Definition validate_store (s : StoreSection) : result StoreSection :=
  if decide (s.(st_kind) = Sqlite) then mret s
  else if negb (some_text s.(st_url)) && negb (some_text s.(st_url_secret)) then
    Err (Raised "ValueError" ("store.kind=" +:+ store_kind_name s.(st_kind) +:+ " requires either store.url or store.url_secret."))
  else mret s.

(** The reactors by name, and [enabled_names]. *)
Definition REACTOR_NAMES : list string := ["recovery"; "reconciler"; "outbox"; "timers"; "compensation"].
Definition reactor_of (name : string) (r : ReactorsSection) : option ReactorSpec :=
  dict_get name [("recovery", r.(rx_recovery)); ("reconciler", r.(rx_reconciler)); ("outbox", r.(rx_outbox));
                 ("timers", r.(rx_timers)); ("compensation", r.(rx_compensation))].
Definition enabled_names (r : ReactorsSection) : list string :=
  List.filter (fun name => match reactor_of name r with Some s => s.(rs_enabled) | None => false end) REACTOR_NAMES.

(** ** Finding and loading *)
Section load.
(** What is on disk, the YAML reader and pydantic's validation of the sections. *)
Variable exists_file : string -> bool.
Variable read_yaml : string -> result json.
Variable model_validate : json -> result TapeProject.

(** The rule [model_validate] ends with for the store. *)
Definition load (env : list (string * string)) (path : string) : result TapeProject :=
  if exists_file path then
    raw ← read_yaml path;
    p ← model_validate (walk_interpolate env (json_or raw (JObj [])));
    _ ← validate_store p.(tape).(tp_store);
    mret p
  else Err (Raised "FileNotFoundError" ("no tape.yaml at " +:+ path +:+ "; run `tape init <name>` first.")).

(** [find_project_root]: the first of the directories, innermost first, with a tape.yaml. *)
Fixpoint find_project_root (dirs : list string) : result string :=
  match dirs with
  | [] => Err (Raised "FileNotFoundError" "no tape.yaml found in any parent directory.")
  | d :: dirs => if exists_file (d +:+ "/tape.yaml") then Ok d else find_project_root dirs
  end.

(** [_resolve_url]: the flag, the environment, the project, the default. *)
Definition resolve_url (url_flag : option string) (env : list (string * string)) (dirs : list string) : string :=
  match str_or_none url_flag with
  | Some u => u
  | None =>
    match str_or_none (dict_get "TAPE_URL" env) with
    | Some u => u
    | None =>
      match (root ← find_project_root dirs; load env (root +:+ "/tape.yaml")) with
      | Ok p => p.(tape).(tp_url)
      | Err _ => "tape://localhost:7878"
      end
    end
  end.
(** [_resolve_db_url] of the embedded commands, [None] where the command dies. *)
Definition resolve_db_url (flag : option string) (env : list (string * string)) : option string :=
  match str_or_none flag with Some u => Some u | None => str_or_none (dict_get "TAPE_ADK_DB_URL" env) end.
End load.

(** ** Texts as pieces *)
Inductive tpl_piece :=
  | TText (t : string)
  | TVar (name : string)                      (* ${NAME} *)
  | TDefault (name default_ : string).        (* ${NAME:-default} *)
Definition written (p : tpl_piece) : string :=
  match p with
  | TText t => t
  | TVar n => "${" +:+ n +:+ "}"
  | TDefault n d => "${" +:+ n +:+ ":-" +:+ d +:+ "}"
  end.
Definition filled (env : list (string * string)) (p : tpl_piece) : string :=
  match p with
  | TText t => t
  | TVar n => default "" (dict_get n env)
  | TDefault n d => default d (dict_get n env)
  end.
Definition concat_of (f : tpl_piece -> string) (ps : list tpl_piece) : string :=
  foldr (fun p s => f p +:+ s) "" ps.

(** Names of capital letters, digits and underscores that do not begin with a digit;
    defaults without brace or newline; text without a dollar sign. *)
Fixpoint all_chars (f : ascii -> bool) (s : string) : bool :=
  match s with EmptyString => true | String c s => f c && all_chars f s end.
Definition env_name (n : string) : bool :=
  match n with String c n => name_start c && all_chars name_char n | EmptyString => false end.
Definition default_char (c : ascii) : bool := negb (bool_decide (c = "}"%char)) && negb (bool_decide (c = newline)).
Definition text_char (c : ascii) : bool := negb (bool_decide (c = "$"%char)).
Definition piece_ok (p : tpl_piece) : bool :=
  match p with
  | TText t => all_chars text_char t
  | TVar n => env_name n
  | TDefault n d => env_name n && all_chars default_char d
  end.

(** ** Reading the parts of a placeholder *)
Lemma name_run_app n rest :
  all_chars name_char n = true -> (forall c s, rest = String c s -> name_char c = false) ->
  name_run (n +:+ rest) = (n, rest).
Proof.
  intros Hn Hr. induction n as [|c n IH]; simpl in *.
  - destruct rest as [|c s]; [done|]. simpl. by rewrite (Hr c s).
  - apply andb_prop in Hn as [-> Hn]. by rewrite IH.
Qed.
Lemma up_to_brace_app d rest :
  all_chars default_char d = true -> up_to_brace (d +:+ String "}" rest) = Some (d, rest).
Proof.
  intros Hd. induction d as [|c d IH]; [done|]. simpl in *. apply andb_prop in Hd as [Hc Hd].
  unfold default_char in Hc. apply andb_prop in Hc as [H1 H2].
  rewrite !decide_False, IH; [done..|by intros ->|by intros ->].
Qed.

Lemma match_env_name c n w d rest :
  env_name (String c n) = true -> (forall c' s', w = String c' s' -> name_char c' = false) ->
  match_default w = Some (d, rest) ->
  match_env (String "$" (String "{" (String c (n +:+ w)))) = Some (String c n, d, rest).
Proof.
  intros [Hc Hn]%andb_prop Hw Hd.
  change (match_env (String "$" (String "{" (String c (n +:+ w))))) with
    (if name_start c then let '(n, rest) := name_run (n +:+ w) in
       match match_default rest with Some (d, rest) => Some (String c n, d, rest) | None => None end else None).
  by rewrite Hc, name_run_app, Hd.
Qed.
Lemma match_env_hole p rest :
  match p with TText _ => False | _ => piece_ok p = true end ->
  exists n d, match_env (written p +:+ rest) = Some (n, d, rest) /\
    forall env, env_get env n d = filled env p.
Proof.
  destruct p as [t|n|n d]; [done| |].
  - intros Hn. exists n, "". split; [|done]. destruct n as [|c n]; [done|].
    assert (written (TVar (String c n)) +:+ rest = String "$" (String "{" (String c (n +:+ ("}" +:+ rest))))) as ->.
    { exact (f_equal (fun w => String "$" (String "{" (String c w))) (append_assoc n "}" rest)). }
    apply match_env_name; [done| |done]. by intros ? ? [= <- <-].
  - cbn [piece_ok]. intros [Hn Hd]%andb_prop. exists n, d. split; [|done]. destruct n as [|c n]; [done|].
    assert (written (TDefault (String c n) d) +:+ rest =
      String "$" (String "{" (String c (n +:+ (":-" +:+ (d +:+ String "}" rest)))))) as ->.
    { refine (f_equal (fun w => String "$" (String "{" (String c w))) _).
      etransitivity; [exact (append_assoc n (":-" +:+ (d +:+ "}")) rest)|].
      exact (f_equal (fun w => n +:+ (":-" +:+ w)) (append_assoc d "}" rest)). }
    apply match_env_name; [done| |by apply up_to_brace_app]. by intros ? ? [= <- <-].
Qed.

Lemma interp_skip env a rest : interp_from env (String.length a) (a +:+ rest) = interp_from env 0 rest.
Proof. induction a as [|c a IH]; [done|]. simpl. exact IH. Qed.

Lemma interp_text env t rest :
  all_chars text_char t = true -> interp_from env 0 (t +:+ rest) = t +:+ interp_from env 0 rest.
Proof.
  induction t as [|c t IH]; [done|]. simpl. intros [Hc Ht]%andb_prop.
  assert (match_env (String c (t +:+ rest)) = None) as Hm.
  { unfold match_env. unfold text_char in Hc. destruct c as [[] [] [] [] [] [] [] []]; done. }
  simpl in Hm. rewrite Hm. by rewrite IH.
Qed.

(** A placeholder gives its value, and reading goes on after it. *)
Lemma interp_hole env p rest :
  match p with TText _ => False | _ => piece_ok p = true end ->
  interp_from env 0 (written p +:+ rest) = filled env p +:+ interp_from env 0 rest.
Proof.
  intros Hp. destruct (match_env_hole p rest Hp) as (n & d & Hm & Hget).
  assert (exists c w, written p = String c w) as (c & w & Hw) by (destruct p; [done|by eexists _, _..]).
  rewrite Hw in *. simpl in *. rewrite Hm, Hget. f_equal.
  rewrite length_append. replace (String.length w + String.length rest - String.length rest) with (String.length w) by lia.
  apply interp_skip.
Qed.

(** C18: Interpolation fills exactly the placeholders: a text written as a sequence of plain
    pieces, [${NAME}] and [${NAME:-default}] reads as that sequence with each placeholder
    replaced by the variable, or its default when it is unset; what a variable holds is not
    read again. *)
Theorem interpolate_fills env ps :
  forallb piece_ok ps = true -> interpolate env (concat_of written ps) = concat_of (filled env) ps.
Proof.
  unfold interpolate, concat_of. induction ps as [|p ps IH]; [done|]. simpl. intros [Hp Hps]%andb_prop.
  destruct p as [t|n|n d].
  - rewrite interp_text by done. by rewrite IH.
  - rewrite (interp_hole env (TVar n)) by done. by rewrite IH.
  - rewrite (interp_hole env (TDefault n d)) by done. by rewrite IH.
Qed.

Definition url_tpl : list tpl_piece := [TText "url: "; TDefault "TAPE_URL" "tape://localhost:7878"; TText "/"; TVar "APP_1"].
Lemma interpolate_fills_witness :
  concat_of written url_tpl = "url: ${TAPE_URL:-tape://localhost:7878}/${APP_1}" /\
  interpolate [("APP_1", "${HOME}")] (concat_of written url_tpl) = "url: tape://localhost:7878/${HOME}".
Proof. split; [reflexivity|]. exact (interpolate_fills [("APP_1", "${HOME}")] url_tpl eq_refl). Defined.

(** ** Where a placeholder is not what a shell reads *)

(** A variable that is set to the empty text does not take the default. *)
Lemma empty_variable_keeps_empty :
  interpolate [("TAPE_URL", "")] "${TAPE_URL:-tape://localhost:7878}" = "".
Proof. reflexivity. Qed.
(** A default that holds a placeholder ends at its brace. *)
Lemma nested_default_is_cut :
  interpolate [] "${TAPE_URL:-${OTHER}}" = "${OTHER}".
Proof. reflexivity. Qed.
