(* ===== verification/CliDoctor.v ===== *)
(** * CliDoctor: [tape doctor], [tape_cli/commands/doctor.py]

    The operational triage over a server and over an embedded store, the report both
    show, the exit code, and the checks of the local and the cloud surroundings. *)
From Stdlib Require Import Ascii.
From S2P Require Import Prelude Sql Schemas EffectLedger ObligationLedger TimersValues.
From S2P Require Import Scenarios Client Program Recover JournalSnapshots Identity CliText CliJournal CliConfig.
#[local] Open Scope Z_scope.
#[local] Open Scope nat_scope.

(** ** The snapshot *)
Record Snapshot (R E O T : Type) := mkSnapshot {
  runs_to_recover : list R;
  effects_pending_stale : list E;
  effects_unknown : list E;
  obligations_stuck : list O;
  obligations_pending : list O;
  outbox_ready : list E;
  timers_due : list T;
  error : string
}.
Arguments mkSnapshot {R E O T}. Arguments runs_to_recover {R E O T}. Arguments effects_pending_stale {R E O T}.
Arguments effects_unknown {R E O T}. Arguments obligations_stuck {R E O T}. Arguments obligations_pending {R E O T}.
Arguments outbox_ready {R E O T}. Arguments timers_due {R E O T}. Arguments error {R E O T}.
Abbreviation View := (Snapshot RunState.t EffectView.t ObligationView.t TimerView.t).

(** [_exit_code_from_snapshot] *)
Definition exit_code {R E O T} (s : Snapshot R E O T) : Z :=
  match s.(obligations_stuck) with
  | _ :: _ => 2
  | [] => match s.(effects_unknown) with _ :: _ => 1 | [] => 0 end
  end%Z.

(** ** Over a server *)
Section server.
Context `{PyText}.

(** [_safe(label, fn)]: a call that fails is noted and counts as an empty answer. *)
Definition safe {A} (label : string) (p : Cmd (list A)) (errs : list string) : Cmd (list A * list string) :=
  try_ (r ← p; mret (r, errs)) (fun ex => mret ([], errs ++ [label +:+ ": " +:+ str_exn ex])).

Definition take_snapshot (pending_threshold_ms : Z) : Cmd View :=
  now_ms ← clock;
  let cutoff := (now_ms - pending_threshold_ms)%Z in
  runs ← safe "list_runs_to_recover" (invoke (RunsToRecover 200)) [];
  stale ← safe "list_pending_effects(pending)" (invoke (PendingEffects cutoff true false 200)) runs.2;
  unknowns ← safe "list_pending_effects(unknown)" (invoke (PendingEffects 0 false true 200)) stale.2;
  stuck ← safe "list_unresolved_obligations(stuck)" (invoke (UnresolvedObligations 200 false true false)) unknowns.2;
  pending ← safe "list_unresolved_obligations(pending)" (invoke (UnresolvedObligations 200 true false true)) stuck.2;
  outbox ← safe "list_effects_to_dispatch" (invoke (EffectsToDispatch now_ms 200)) pending.2;
  timers ← safe "list_due_timers" (invoke (DueTimers now_ms 200 false)) outbox.2;
  mret (mkSnapshot runs.1 stale.1 unknowns.1 stuck.1 pending.1 outbox.1 timers.1 (join "; " timers.2)).

End server.

(** ** Over an embedded store *)
(** The queries in the order they are made; [clk] is what [_now_ms()] gives in the two that
    are not told the time. *)
Definition adk_snapshot (clk now pending_threshold_ms : Z)
    : M Db.t (Snapshot RunState.t EffectRecord.t ObligationRecord.t TimerRecord.t) :=
  let cutoff := (now - pending_threshold_ms)%Z in
  pending_stale ← list_pending_effects cutoff true false 200;
  unknowns ← list_pending_effects 0 false true 200;
  outbox ← list_effects_to_dispatch clk now "" 200;
  timers ← list_due_timers clk now 200 false;
  stuck_ob ← list_unresolved_obligations clk 0 200 false true false;
  pending_ob ← list_unresolved_obligations clk 0 200 true false true;
  mret (mkSnapshot [] pending_stale unknowns stuck_ob pending_ob outbox timers "").
Definition session_count : M Db.t nat := txn (d ← tx_get; mret (length d.(Db.sessions))).

(** [_eff_adapt], [_ob_adapt] and [_t_adapt]: the records as the renderers read them. *)
Definition EFFECT_STATUS_RMAP : list (string * Z) :=
  [("unspecified", 0); ("pending", 1); ("confirmed", 2); ("failed", 3); ("unknown", 4)]%Z.
Definition OBLIGATION_STATUS_RMAP : list (string * Z) :=
  [("unspecified", 0); ("pending", 1); ("committed", 2); ("compensated", 3); ("stuck", 4)]%Z.
Definition eff_adapt (e : EffectRecord.t) : EffectView.t :=
  EffectView.mk e.(EffectRecord.invocation_id) e.(EffectRecord.idempotency_key)
    (default 0%Z (dict_get e.(EffectRecord.status) EFFECT_STATUS_RMAP)) e.(EffectRecord.tool_name)
    (default "" e.(EffectRecord.business_key)) (default "" e.(EffectRecord.connector))
    e.(EffectRecord.dispatch_attempts) (default "" e.(EffectRecord.dispatch_claimed_by)) e.(EffectRecord.ts_ms).
Definition ob_adapt (o : ObligationRecord.t) : ObligationView.t :=
  ObligationView.mk o.(ObligationRecord.invocation_id) o.(ObligationRecord.kind)
    (default 0%Z (dict_get o.(ObligationRecord.status) OBLIGATION_STATUS_RMAP)) o.(ObligationRecord.effect_key)
    o.(ObligationRecord.attempts) o.(ObligationRecord.max_attempts) o.(ObligationRecord.ts_ms).
Definition t_adapt (t : TimerRecord.t) : TimerView.t :=
  TimerView.mk t.(TimerRecord.session).(session_id) t.(TimerRecord.kind) t.(TimerRecord.timer_id) t.(TimerRecord.fire_at_ms).
Definition adapted (s : Snapshot RunState.t EffectRecord.t ObligationRecord.t TimerRecord.t) : View :=
  mkSnapshot [] (map eff_adapt s.(effects_pending_stale)) (map eff_adapt s.(effects_unknown))
    (map ob_adapt s.(obligations_stuck)) (map ob_adapt s.(obligations_pending))
    (map eff_adapt s.(outbox_ready)) (map t_adapt s.(timers_due)) "".

(** ** The report *)
Definition EFFECT_STATUS : list (Z * string) :=
  [(0, "UNSPECIFIED"); (1, "PENDING"); (2, "CONFIRMED"); (3, "FAILED"); (4, "UNKNOWN")]%Z.
Definition OBLIGATION_STATUS : list (Z * string) :=
  [(0, "UNSPECIFIED"); (1, "PENDING"); (2, "COMMITTED"); (3, "COMPENSATED"); (4, "STUCK")]%Z.
Definition status_text (n : Z) (labels : list (Z * string)) : string := default (pretty n) (int_get n labels).

(** [_age_ms] *)
Definition age_ms (ts_ms now_ms : Z) : string :=
  if (ts_ms <=? 0)%Z then "—" else ms_text (0 `max` (now_ms - ts_ms)).
Definition none_row (n : nat) : list Cell := ("✓ none", "green") :: repeat (plain "") n.
Definition dash (s : string) : string := str_or s "[dim]—[/dim]".
(** [t.add_row(..)] for each item, or one row saying there is none *)
Definition rows_or_none {A} (width : nat) (row : A -> list Cell) (items : list A) : list (list Cell) :=
  match items with [] => [none_row (width - 1)] | _ => map row items end.

Definition render_runs (s : View) : Table :=
  mkTable ("Runs needing recovery (" +:+ pretty (length s.(runs_to_recover)) +:+ ")")
    (match s.(runs_to_recover) with
     | [] => [[plain "[dim]—[/dim]"; ("✓ none", "green"); plain ""; plain ""; plain ""]]
     | rs => map (fun r =>
         [plain r.(RunState.run_id); run_status_label r.(RunState.status);
          plain (r.(RunState.app_name) +:+ "/" +:+ r.(RunState.user_id) +:+ "/" +:+ r.(RunState.session_id));
          plain (dash r.(RunState.lease_owner)); plain r.(RunState.waiting_on_gate)]) rs
     end).

(** The unknown effects first, then the stale ones. *)
Definition render_effects (now_ms pending_threshold_ms : Z) (s : View) : Table :=
  mkTable ("Effects · UNKNOWN=" +:+ pretty (length s.(effects_unknown)) +:+ "  PENDING>" +:+
           pretty (pending_threshold_ms / 1000)%Z +:+ "s=" +:+ pretty (length s.(effects_pending_stale)))
    (rows_or_none 6 (fun '(e, is_unknown) =>
       [plain e.(EffectView.idempotency_key);
        (status_text e.(EffectView.status) EFFECT_STATUS, if (is_unknown : bool) then "bold red on yellow" else "yellow");
        plain e.(EffectView.tool_name); plain (dash e.(EffectView.business_key));
        plain (age_ms e.(EffectView.ts_ms) now_ms); plain e.(EffectView.run_id)])
      (map (fun e => (e, true)) s.(effects_unknown) ++ map (fun e => (e, false)) s.(effects_pending_stale))).

Definition render_obligations (now_ms : Z) (s : View) : Table :=
  mkTable ("Obligations · STUCK=" +:+ pretty (length s.(obligations_stuck)) +:+ "  PENDING/expired=" +:+
           pretty (length s.(obligations_pending)))
    (rows_or_none 6 (fun '(o, is_stuck) =>
       [plain o.(ObligationView.kind);
        (status_text o.(ObligationView.status) OBLIGATION_STATUS, if (is_stuck : bool) then "bold red on yellow" else "magenta");
        plain o.(ObligationView.effect_key);
        plain (pretty o.(ObligationView.attempts) +:+ "/" +:+ pretty o.(ObligationView.max_attempts));
        plain (age_ms o.(ObligationView.ts_ms) now_ms); plain o.(ObligationView.run_id)])
      (map (fun o => (o, true)) s.(obligations_stuck) ++ map (fun o => (o, false)) s.(obligations_pending))).

Definition render_outbox (now_ms : Z) (s : View) : Table :=
  mkTable ("Outbox · dispatch-ready (" +:+ pretty (length s.(outbox_ready)) +:+ ")")
    (rows_or_none 5 (fun e =>
       [plain e.(EffectView.idempotency_key); plain (dash e.(EffectView.connector));
        plain (pretty e.(EffectView.dispatch_attempts)); plain (dash e.(EffectView.dispatch_claimed_by));
        plain (age_ms e.(EffectView.ts_ms) now_ms)]) s.(outbox_ready)).

(** The overdue column is the age of the time 0. *)
Definition render_timers (now_ms : Z) (s : View) : Table :=
  mkTable ("Timers · due (" +:+ pretty (length s.(timers_due)) +:+ ")")
    (rows_or_none 4 (fun t =>
       let overdue := (0 `max` (now_ms - t.(TimerView.fire_at_ms)))%Z in
       [plain t.(TimerView.kind); plain t.(TimerView.timer_id); plain (age_ms 0 overdue); plain t.(TimerView.run_id)])
      s.(timers_due)).

(** [_row]: a count with its verdict. *)
Definition verdict_row (label : string) (n danger_above : nat) : list Cell :=
  let good := if decide (danger_above = 0) then bool_decide (n = 0) else n <=? danger_above in
  [plain label; ((if good then "✓" else "!") +:+ " " +:+ pretty n, if good then "green" else "bold red on yellow")].
(** The counts both summaries show after their heads. *)
Definition verdict_rows (pending_threshold_ms : Z) (s : View) : list (list Cell) :=
  [verdict_row "effects UNKNOWN" (length s.(effects_unknown)) 0;
   verdict_row ("effects PENDING > " +:+ pretty (pending_threshold_ms / 1000)%Z +:+ "s") (length s.(effects_pending_stale)) 0;
   verdict_row "obligations STUCK" (length s.(obligations_stuck)) 0;
   verdict_row "obligations PENDING/expired" (length s.(obligations_pending)) 10;
   verdict_row "outbox dispatch-ready" (length s.(outbox_ready)) 20;
   verdict_row "timers overdue" (length s.(timers_due)) 5].

Section report.
(** [time.strftime("%Y-%m-%d %H:%M:%S UTC", time.gmtime(ms / 1000))] *)
Variable utc_text : Z -> string.

Definition sections_of (now_ms pending_threshold_ms : Z) (s : View) : list Table :=
  [render_effects now_ms pending_threshold_ms s; render_obligations now_ms s; render_outbox now_ms s;
   render_timers now_ms s].
(** [_render_report] *)
Definition render_report (now_ms : Z) (url : string) (pending_threshold_ms : Z) (s : View) : list Table :=
  mkTable "[bold]tape doctor --live[/bold]"
    ([[plain "server"; (url, "cyan")]; [plain "checked"; plain (utc_text now_ms)];
      verdict_row "runs needing recovery" (length s.(runs_to_recover)) 0] ++
     verdict_rows pending_threshold_ms s ++
     (if decide (s.(error) = "") then [] else [[plain "[red]errors[/red]"; (s.(error), "red")]]))
  :: render_runs s :: sections_of now_ms pending_threshold_ms s.
(** [_render_adk_report] *)
Definition render_adk_report (now_ms : Z) (db_url : string) (pending_threshold_ms : Z) (sess_count : nat)
    (s : Snapshot RunState.t EffectRecord.t ObligationRecord.t TimerRecord.t) : list Table :=
  mkTable "[bold]tape doctor --live --db-url[/bold]"
    ([[plain "db"; (db_url, "cyan")]; [plain "checked"; plain (utc_text now_ms)];
      [plain "ADK sessions"; (pretty sess_count, "dim")]] ++ verdict_rows pending_threshold_ms (adapted s))
  :: sections_of now_ms pending_threshold_ms (adapted s).

Context `{PyText}.
(** [for t in tables: console.print(t)] *)
Definition show_tables (ts : list Table) : Cmd unit := _ ← each ts show_table; mret tt.

(** [_live_triage] without [--watch] *)
Definition live_triage (url : string) (pending_threshold_ms : Z) : Cmd unit :=
  _ ← try_ (invoke (Connect url)) (fun ex => die ("failed to connect to " +:+ url +:+ ": " +:+ str_exn ex));
  finally_
    (snap ← take_snapshot pending_threshold_ms;
     now_ms ← clock;
     _ ← show_tables (render_report now_ms url pending_threshold_ms snap);
     if decide (exit_code snap = 0%Z) then mret tt else Throw (Exit (exit_code snap)))
    (try_ (invoke CloseClient) (fun _ => mret tt)).

(** [_live_triage_adk] without [--watch]: the report and the exit code. *)
Definition live_triage_adk (clk now shown : Z) (db_url : string) (pending_threshold_ms : Z)
    : M Db.t (list Table * Z) :=
  snap ← adk_snapshot clk now pending_threshold_ms;
  sess ← session_count;
  mret (render_adk_report shown db_url pending_threshold_ms sess snap, exit_code snap).

(** [_LivePoll.__rich__]: a new pull once the interval has passed; in the embedded tier a
    pull that fails keeps the last one. *)
Definition live_poll {S} (pull : Cmd S) (now interval : Z) (st : S * Z) : Cmd (S * Z) :=
  if (st.2 <=? now)%Z then s ← pull; mret (s, now + interval)%Z else mret st.
Definition live_poll_adk {S} (pull : Cmd S) (now interval : Z) (st : S * Z) : Cmd (S * Z) :=
  if (st.2 <=? now)%Z then s ← try_ pull (fun _ => mret st.1); mret (s, now + interval)%Z else mret st.

(** Which triage [--live] runs; both URLs at once are refused. *)
Inductive LiveMode := Refused | Embedded (db_url : string) | OverServer (url : option string).
Definition live_mode (url db_url : option string) (env : list (string * string)) : LiveMode :=
  let adk := opt_str_or db_url (dict_get "TAPE_ADK_DB_URL" env) in
  match str_or_none adk with
  | Some u => if some_text url then Refused else Embedded u
  | None => OverServer url
  end.
End report.

(** ** The checks *)
Record CheckResult := mkCheckResult { ck_name : string; ck_ok : bool; ck_detail : string; ck_hint : string }.

(** [_print]: the failed checks are counted. *)
Definition print_check (r : CheckResult) : Cmd unit :=
  let shown := r.(ck_name) +:+ (if decide (r.(ck_detail) = "") then "" else "  [dim](" +:+ r.(ck_detail) +:+ ")[/dim]") in
  if r.(ck_ok) then ok_line shown else fail_line shown r.(ck_hint).
Definition count_failed (rs : list CheckResult) : nat := length (List.filter (fun r => negb r.(ck_ok)) rs).
Definition print_checks (rs : list CheckResult) : Cmd nat := _ ← each rs print_check; mret (count_failed rs).

Definition version_text (v : Z * Z * Z) : string :=
  pretty v.1.1 +:+ "." +:+ pretty v.1.2 +:+ "." +:+ pretty v.2.
Definition check_python (v : Z * Z * Z) : CheckResult :=
  if (3 <? v.1.1)%Z || ((v.1.1 =? 3)%Z && (10 <=? v.1.2)%Z) then mkCheckResult "Python" true (version_text v) ""
  else mkCheckResult "Python" false (version_text v) "install Python 3.10+ (3.12 recommended).".

Section checks.
Context `{PyText}.
(** What the surroundings answer: importing modules, programs on the path, a connection, the
    credentials, the state of an API, files. *)
Variable python : Z * Z * Z.
Variable import_module : string -> result unit.
Variable which : string -> option string.
Variable connect : string -> Z -> result unit.
Variable env : list (string * string).
Variable adc : result (string * string).
Variable usage_client : result unit.
Variable api_state : string -> string -> result string.
Variable agents_yaml : bool.

(** A check that passes when a module imports. *)
Definition check_import (name hint : string) (modules : list string) : CheckResult :=
  match foldr (fun m r => match import_module m with Ok _ => r | Err ex => Err ex end) (Ok tt) modules with
  | Ok _ => mkCheckResult name true "" ""
  | Err ex => mkCheckResult name false (str_exn ex) hint
  end.
Definition check_adk : CheckResult := check_import "ADK" "pip install google-adk>=1.30" ["google.adk"].
Definition check_tape : CheckResult := check_import "Tape SDK" "pip install tape-py" ["tape"; "tape.adk"].
(** A check that passes when a program is found. *)
Definition check_program (name program hint : string) : CheckResult :=
  match str_or_none (which program) with
  | Some p => mkCheckResult name true p ""
  | None => mkCheckResult name false "" hint
  end.
Definition check_docker : CheckResult :=
  check_program "Docker" "docker" "install Docker if you want `tape dev` to use compose.".
Definition check_cargo : CheckResult :=
  check_program "Cargo" "cargo" "optional — only needed to build tape-server from source.".
Definition check_gcloud_auth : CheckResult :=
  check_program "gcloud installed" "gcloud" "https://cloud.google.com/sdk/docs/install".

(** The host and the port a URL names. *)
Definition server_address (url : string) : string * string :=
  let bare := replace "grpc://" "" (replace "tapes://" "" (replace "tape://" "" url)) in
  (before_char ":" bare,
   str_or (before_char "/" (after_char ":" bare)) (if contains "tapes://" url then "443" else "7878")).
Definition check_tape_server (url : string) : CheckResult :=
  let '(host, port) := server_address url in
  match (p ← int_text (JStr port); connect host p) with
  | Ok _ => mkCheckResult ("Tape server " +:+ url) true "" ""
  | Err ex => mkCheckResult ("Tape server " +:+ url) false (str_exn ex)
                "`tape dev` to start one locally, or `tape deploy gcp` to ship it."
  end.
Definition check_env_var (name : string) (required : bool) : CheckResult :=
  match str_or_none (dict_get name env) with
  | Some v => mkCheckResult name true ("set to " +:+ py_take 20 v +:+ (if 20 <? py_len v then "…" else "")) ""
  | None => mkCheckResult name (negb required) "unset" ("export " +:+ name +:+ "=... in your environment or .env")
  end.
Definition check_adc : CheckResult :=
  match adc with
  | Ok (project, kind) => mkCheckResult "Application Default Credentials" true ("project=" +:+ project +:+ ", type=" +:+ kind) ""
  | Err ex => mkCheckResult "Application Default Credentials" false (str_exn ex) "gcloud auth application-default login"
  end.
Definition check_api (project_id api : string) : CheckResult :=
  let hint := "gcloud services enable " +:+ api in
  match api_state project_id api with
  | Ok state => let enabled := contains "ENABLED" state in
    mkCheckResult ("API " +:+ api) enabled "" (if enabled then "" else hint)
  | Err ex => mkCheckResult ("API " +:+ api) false (str_exn ex) hint
  end.
Definition check_gcp_apis (project_id : string) (apis : list string) : list CheckResult :=
  if decide (project_id = "") then
    [mkCheckResult "GCP APIs" false "no project_id set" "set gcp.project_id in tape.yaml or GOOGLE_CLOUD_PROJECT"]
  else match usage_client with
       | Err ex => [mkCheckResult "GCP APIs" false (str_exn ex) "pip install google-cloud-service-usage, or skip this check."]
       | Ok _ => map (check_api project_id) apis
       end.

(** ** The command without [--live] *)
Definition local_results (p : option TapeProject) : list CheckResult :=
  [check_python python; check_adk; check_tape; check_docker; check_cargo] ++
  match p with
  | Some p =>
    [check_tape_server p.(tape).(tp_url); check_env_var "TAPE_URL" false] ++
    (if decide (p.(tape).(tp_store).(st_kind) = Sqlite) then [] else [check_env_var "TAPE_STORE" false])
  | None => []
  end.
Definition wanted_apis (p : option TapeProject) : list string :=
  ["run.googleapis.com"; "artifactregistry.googleapis.com"; "secretmanager.googleapis.com"] ++
  match p with
  | Some p =>
    (if decide (p.(tape).(tp_events).(ev_kind) = Pubsub) then ["pubsub.googleapis.com"] else []) ++
    (match p.(tape).(tp_store).(st_kind) with
     | Alloydb => ["alloydb.googleapis.com"] | Bigtable => ["bigtable.googleapis.com"]
     | Spanner => ["spanner.googleapis.com"] | Sqlite | Postgres => []
     end)
  | None => []
  end.
Definition gcp_project_id (p : option TapeProject) : string :=
  str_or (match p with Some p => p.(gcp).(gc_project_id) | None => "" end) (default "" (dict_get "GOOGLE_CLOUD_PROJECT" env)).
Definition gcp_results (p : option TapeProject) : list CheckResult :=
  [check_gcloud_auth; check_adc] ++ check_gcp_apis (gcp_project_id p) (wanted_apis p).
Definition scaffold_result : CheckResult :=
  if agents_yaml then mkCheckResult "agents.yaml present" true "Tape will live alongside your agents-cli scaffold." ""
  else mkCheckResult "agents.yaml present" false "this is not an agents-cli project — that's fine." "".

(** The failed checks of the sections that are asked for. *)
Definition doctor_fails (p : option TapeProject) (local gcp_ agents_cli_aware : bool) : nat :=
  (if local then count_failed (local_results p) else 0) +
  (if gcp_ then count_failed (gcp_results p) else 0) +
  (match p with Some _ => if agents_cli_aware then count_failed [scaffold_result] else 0 | None => 0 end).
(** The [mode] of a [TenancyConfig] is a member of the enumeration, or the text a caller
    passed in its place; [is_hard] asks for the member itself. *)
Inductive mode_value := Member (m : Identity.TenancyMode) | PlainText (s : string).
Definition is_hard (m : mode_value) : bool :=
  match m with Member HARD_MULTI_TENANT => true | _ => false end.
(** The section on tenancy builds its configuration from the text in the project file. *)
Definition tenancy_warnings (p : option TapeProject) : nat :=
  match p with
  | Some p =>
    if decide (p.(tenancy).(tn_mode) = HardMultiTenant)
    then if is_hard (PlainText "hard_multi_tenant") then 1 else 0 else 0
  | None => 0
  end.
Definition doctor_exit (p : option TapeProject) (local gcp_ agents_cli_aware : bool) : Z :=
  if decide (doctor_fails p local gcp_ agents_cli_aware = 0) then 0%Z else 1%Z.
End checks.
