(* ===== verification/CliInspectAdk.v ===== *)
(** * CliInspectAdk: [tape inspect-adk], [tape_cli/commands/inspect_adk.py]

    One session of an embedded store, the panels it is shown in and the exit code, and the
    view across sessions that [tape dev] polls. *)
From Stdlib Require Import Ascii.
From S2P Require Import Prelude Sql Schemas EffectLedger ObligationLedger TimersValues.
From S2P Require Import Scenarios Lineage Client Program JournalSnapshots CliText CliConfig.
#[local] Open Scope Z_scope.
#[local] Open Scope nat_scope.

(** ADK's own rows of a session, which the ledger's store refers to. *)
Record AdkEvent := mkAdkEvent { ae_timestamp : string; ae_order : Z; ae_invocation_id : string; ae_data : json }.
Record AdkSession := mkAdkSession { as_state : pydict; as_created : string; as_updated : string }.

Record SessionSnap := mkSessionSnap {
  sn_session : option (SKey * AdkSession);
  sn_events : list AdkEvent;
  sn_effects : list StorageEffect.t;
  sn_obligations : list StorageObligation.t;
  sn_timers : list StorageTimer.t
}.
Definition empty_snap : SessionSnap := mkSessionSnap None [] [] [] [].

Section snapshot.
(** The rows of ADK's tables for a session. *)
Variable adk_session : SKey -> AdkSession.
Variable adk_events : SKey -> list AdkEvent.

(** [_snapshot]: one transaction; without the session row, nothing else is read. *)
Definition session_snapshot (k : SKey) : M Db.t SessionSnap :=
  txn (d ← tx_get;
    if decide (k ∈ d.(Db.sessions)) then
      mret (mkSessionSnap (Some (k, adk_session k)) (order_by ae_order (adk_events k))
        (order_by StorageEffect.ts_ms (select_where (fun r => r.(StorageEffect.session) = k) d.(Db.effects)))
        (order_by_desc StorageObligation.seq (select_where (fun r => r.(StorageObligation.session) = k) d.(Db.obligations)))
        (order_by StorageTimer.fire_at_ms (select_where (fun r => r.(StorageTimer.session) = k) d.(Db.timers))))
    else mret empty_snap).
End snapshot.

(** [_global_snapshot]: the newest rows of the store. *)
Definition global_snapshot : M Db.t (list StorageEffect.t * list StorageObligation.t * list StorageTimer.t) :=
  txn (d ← tx_get;
    mret (limit 40 (order_by_desc StorageEffect.ts_ms d.(Db.effects)),
          limit 20 (order_by_desc StorageObligation.seq d.(Db.obligations)),
          limit 20 (order_by_desc StorageTimer.fire_at_ms d.(Db.timers)))).

(** ** Formatting *)
(** [_fmt_age_ms] *)
Definition fmt_age_ms (ts_ms now_ms : Z) : string :=
  if (ts_ms =? 0)%Z then "—" else ms_text (0 `max` (now_ms - ts_ms)).
Definition ADK_STATUS_STYLES : list (string * string) :=
  [("pending", "yellow"); ("confirmed", "bold green"); ("failed", "bold red"); ("unknown", "bold red on yellow");
   ("committed", "magenta"); ("compensated", "bold green"); ("stuck", "bold red on yellow")].
Definition adk_status_style (s : string) : string := default "white" (dict_get (lower s) ADK_STATUS_STYLES).
(** [x or "[dim]—[/dim]"] of a column that may be NULL *)
Definition or_dash (s : option string) : string := str_or (default "" s) "[dim]—[/dim]".
(** [t.add_row(..)] for each item, or the one row that says there is none *)
Definition rows_or {A} (none : list Cell) (row : A -> list Cell) (items : list A) : list (list Cell) :=
  match items with [] => [none] | _ => map row items end.
Definition NONE : Cell := ("(none)", "dim").
Definition mode_text (r : StorageEffect.t) : string :=
  py_take 3 r.(StorageEffect.semantics) +:+ "/" +:+ py_take 3 r.(StorageEffect.dispatch_mode).

Section tables.
Context `{PyText}.

(** [_short(v, n)]: [str(v or "")] cut to [n] characters. *)
Definition short_any (v : json) (n : nat) : string := short (text (json_or v (JStr ""))) n.

Definition dict_of (v : json) : result pydict := match v with JObj d => Ok d | _ => Err AttributeError end.

(** [k in p and p[k]] of a part: only a dict can be asked for [p[k]]. *)
Definition is_text_of (k : string) (v : json) : bool :=
  match v with JStr s => bool_decide (s = k) | _ => false end.
Definition part_field (k : string) (p : json) : result (option json) :=
  match p with
  | JObj d => mret (match dict_get k d with Some v => if json_truthy v then Some v else None | None => None end)
  | JStr s => if contains k s then Err TypeError else mret None
  | JList l => if existsb (is_text_of k) l then Err TypeError else mret None
  | JNull | JBool _ | JInt _ | JFloat _ => Err TypeError
  end.
(** What a part shows: its kind and its preview, whose text may fail; [None] where the loop
    goes on. *)
Definition call_text (fc : json) : result string :=
  fc ← dict_of fc;
  args ← dict_of (json_or (get_or fc "args" JNull) (JObj []));
  mret (text (get_or fc "name" (JStr "?")) +:+ "(" +:+ str_json (JList (map JStr args.*1)) +:+ ")").
Definition response_text (fr : json) : result string :=
  fr ← dict_of fr;
  mret (text (get_or fr "name" (JStr "?")) +:+ " → " +:+ short (dumps (json_or (get_or fr "response" JNull) (JObj []))) 50).
Definition part_preview (p : json) : result (option (string * result string)) :=
  call ← part_field "function_call" p;
  match call with
  | Some fc => mret (Some ("function_call", call_text fc))
  | None =>
    response ← part_field "function_response" p;
    match response with
    | Some fr => mret (Some ("function_response", response_text fr))
    | None => t ← part_field "text" p; mret ((fun t => ("text", Ok (short_any t 60))) <$> t)
    end
  end.
Fixpoint parts_preview (parts : list json) : result (string * result string) :=
  match parts with
  | [] => mret ("text", Ok "")
  | p :: parts => r ← part_preview p; match r with Some shown => mret shown | None => parts_preview parts end
  end.
(** What iterating over [content.get("parts") or []] gives. *)
Definition parts_of (v : json) : result (list json) :=
  match v with
  | JList l => Ok l
  | JObj d => Ok (map JStr d.*1)
  | JStr s => Ok (map (fun c => JStr (String c "")) (String.list_ascii_of_string s))
  | JNull | JBool _ | JInt _ | JFloat _ => Err TypeError
  end.
Definition event_preview (data : pydict) : result (string * result string) :=
  content ← dict_of (json_or (get_or data "content" JNull) (JObj []));
  parts ← parts_of (json_or (get_or content "parts" JNull) (JList []));
  parts_preview parts.
(** The kind that was set stays when the preview fails. *)
Definition shown_preview (r : result (string * result string)) : string * string :=
  match r with
  | Ok (kind, Ok preview) => (kind, preview)
  | Ok (kind, Err _) => (kind, "(unparsable event_data)")
  | Err _ => ("text", "(unparsable event_data)")
  end.
Definition event_row (e : AdkEvent) : result (list Cell) :=
  data ← dict_of (json_or e.(ae_data) (JObj []));
  let '(kind, preview) := shown_preview (event_preview data) in
  mret [plain (short e.(ae_timestamp) 10); plain (short e.(ae_invocation_id) 18);
        plain (text (get_or data "author" (JStr "?"))); plain kind; plain preview].
Fixpoint event_rows (es : list AdkEvent) : result (list (list Cell)) :=
  match es with [] => mret [] | e :: es => r ← event_row e; rest ← event_rows es; mret (r :: rest) end.
Definition events_table (es : list AdkEvent) : result Table :=
  rows ← event_rows es;
  mret (mkTable ("ADK events (" +:+ pretty (length es) +:+ ")")
          (match es with [] => [[plain ""; plain ""; plain ""; NONE; plain ""]] | _ => rows end)).
End tables.

Definition adk_effects_table (now_ms : Z) (es : list StorageEffect.t) : Table :=
  mkTable ("Effects (" +:+ pretty (length es) +:+ ")")
    (rows_or [plain ""; NONE; plain ""; plain ""; plain ""; plain ""; plain ""] (fun e =>
       [plain e.(StorageEffect.idempotency_key); (e.(StorageEffect.status), adk_status_style e.(StorageEffect.status));
        plain e.(StorageEffect.tool_name); plain (mode_text e); plain (or_dash e.(StorageEffect.business_key));
        plain (or_dash e.(StorageEffect.external_ref)); plain (fmt_age_ms e.(StorageEffect.ts_ms) now_ms)]) es).
Definition adk_obligations_table (now_ms : Z) (os : list StorageObligation.t) : Table :=
  mkTable ("Obligations (" +:+ pretty (length os) +:+ ")")
    (rows_or [plain ""; plain ""; NONE; plain ""; plain ""; plain ""] (fun o =>
       [plain (pretty o.(StorageObligation.seq)); plain o.(StorageObligation.kind);
        (o.(StorageObligation.status), adk_status_style o.(StorageObligation.status));
        plain o.(StorageObligation.effect_key);
        plain (pretty o.(StorageObligation.attempts) +:+ "/" +:+ pretty o.(StorageObligation.max_attempts));
        plain (fmt_age_ms o.(StorageObligation.ts_ms) now_ms)]) os).
(** The last column measures from the time 0. *)
Definition timer_when (fire_at_ms now_ms : Z) : string :=
  if (fire_at_ms <=? now_ms)%Z then fmt_age_ms 0 (0 `max` (now_ms - fire_at_ms)) +:+ " ago"
  else "in " +:+ fmt_age_ms 0 (0 `max` (fire_at_ms - now_ms)).
Definition adk_timers_table (now_ms : Z) (ts : list StorageTimer.t) : Table :=
  mkTable ("Timers (" +:+ pretty (length ts) +:+ ")")
    (rows_or [plain ""; plain ""; NONE; plain ""] (fun t =>
       [plain t.(StorageTimer.timer_id); plain t.(StorageTimer.kind); plain (if t.(StorageTimer.fired) then "✓" else "·");
        plain (timer_when t.(StorageTimer.fire_at_ms) now_ms)]) ts).
(** [_header_panel]: the keys of the state in order. *)
Definition text_le (a b : string) : Prop := String.leb a b = true.
#[export] Instance text_le_dec a b : Decision (text_le a b).
Proof. unfold text_le. apply _. Defined.
Definition header_panel (db_url : string) (session : option (SKey * AdkSession)) : Table :=
  match session with
  | None => mkTable "[bold]session[/bold]" [[("(session not found)", "red")]]
  | Some (k, s) =>
    mkTable ("[bold]SESSION[/bold] [cyan]" +:+ k.(session_id) +:+ "[/cyan]")
      ([[plain "db"; plain ("[cyan]" +:+ db_url +:+ "[/cyan]")];
        [plain "app/user/session"; plain ("[bold]" +:+ k.(app_name) +:+ "[/bold] / " +:+ k.(user_id) +:+ " / " +:+ k.(session_id))]] ++
       (match s.(as_state) with
        | [] => []
        | d => [[plain "state keys"; plain (str_or (join ", " (merge_sort text_le d.*1)) "(empty)")]]
        end) ++
       [[plain "created"; plain s.(as_created)]; [plain "updated"; plain s.(as_updated)]])
  end.

(** ** The exit code *)
Definition bad_effects (s : SessionSnap) : nat :=
  length (List.filter (fun e => bool_decide (e.(StorageEffect.status) = "unknown")) s.(sn_effects)).
Definition bad_obligations (s : SessionSnap) : nat :=
  length (List.filter (fun o => bool_decide (o.(StorageObligation.status) = "stuck")) s.(sn_obligations)).
Definition inspect_code (s : SessionSnap) : Z :=
  if decide (bad_obligations s = 0) then if decide (bad_effects s = 0) then 0%Z else 1%Z else 2%Z.

Section command.
Context `{PyText}.
Variable adk_session : SKey -> AdkSession.
Variable adk_events : SKey -> list AdkEvent.

(** The rendered command on one session: the tables and the exit code; a session that does
    not exist ends the command with 2, and an event whose data is no dict raises. *)
Definition inspect_adk (k : SKey) (db_url : string) (now_ms : Z) : M Db.t (list Table * Z) :=
  snap ← session_snapshot adk_session adk_events k;
  match snap.(sn_session) with
  | None => raise (SystemExit 2)
  | Some _ =>
    match events_table snap.(sn_events) with
    | Err ex => raise ex
    | Ok events =>
      mret ([header_panel db_url snap.(sn_session); events; adk_effects_table now_ms snap.(sn_effects);
             adk_obligations_table now_ms snap.(sn_obligations); adk_timers_table now_ms snap.(sn_timers)],
            inspect_code snap)
    end
  end.
End command.

(** ** The live view *)
(** [by_status[s] = by_status.get(s, 0) + 1] over the effects *)
Definition count_statuses (ss : list string) : list (string * nat) :=
  foldl (fun d s => dict_set s (S (default 0 (dict_get s d))) d) [] ss.
Definition status_counts (es : list StorageEffect.t) : string :=
  let shown := map (fun '(s, n) => let st := adk_status_style s in
                     "[" +:+ st +:+ "]" +:+ s +:+ "=" +:+ pretty n +:+ "[/" +:+ st +:+ "]")
                 (merge_sort (fun a b : string * nat => text_le a.1 b.1) (count_statuses (map StorageEffect.status es))) in
  str_or (join "  " shown) "[dim](no effects yet)[/dim]".
Definition open_obligations (os : list StorageObligation.t) : nat :=
  length (List.filter (fun o => bool_decide (o.(StorageObligation.status) ∈ ["pending"; "committed"])) os).
Definition stuck_obligations (os : list StorageObligation.t) : nat :=
  length (List.filter (fun o => bool_decide (o.(StorageObligation.status) = "stuck")) os).
Definition live_panel (now_ms : Z) (clock_text db_url reactor_note : string)
    (snap : list StorageEffect.t * list StorageObligation.t * list StorageTimer.t) : list Table :=
  let '(es, os, _) := snap in
  [mkTable "[bold]tape dev[/bold] — live journal"
     ([[plain "db"; plain ("[cyan]" +:+ db_url +:+ "[/cyan]")]; [plain "checked"; plain clock_text];
       [plain "effects"; plain (status_counts es)];
       [plain "obligations"; plain ("open=" +:+ pretty (open_obligations os) +:+ "  " +:+
          (if decide (stuck_obligations os = 0) then "[dim]stuck=0[/dim]"
           else "[bold red on yellow]stuck=" +:+ pretty (stuck_obligations os) +:+ "[/bold red on yellow]"))]] ++
      (if decide (reactor_note = "") then [] else [[plain "reactors"; plain reactor_note]]));
   mkTable "recent effects"
     (rows_or [plain ""; ("waiting for the agent to journal effects…", "dim"); plain ""; plain ""; plain ""] (fun e =>
        [plain (fmt_age_ms e.(StorageEffect.ts_ms) now_ms); plain e.(StorageEffect.tool_name);
         (e.(StorageEffect.status), adk_status_style e.(StorageEffect.status)); plain (mode_text e);
         plain (str_or (str_or (default "" e.(StorageEffect.external_ref)) (default "" e.(StorageEffect.business_key))) "—")]) es)] ++
  match os with [] => [] | _ => [adk_obligations_table now_ms os] end.
