(* ===== verification/CliTriageTheorems.v ===== *)
(** * CliTriageTheorems: what the triage commands report

    [tape doctor --live] over an embedded store and [tape inspect-adk] on its sessions
    agree, and both exit codes say exactly what is in the store. *)
From S2P Require Import Prelude Sql Schemas EffectLedger ObligationLedger TimersValues WellFormed System.
From S2P Require Import Scenarios Client Program Samples SdkSamples CliText CliConfig CliDoctor CliInspectAdk.
#[local] Open Scope Z_scope.
#[local] Open Scope nat_scope.

(** ** Queries that only ask whether there is a row *)
Lemma query_none {R A} (f : R -> A) (ord : list R -> list R) (P : R -> Prop) `{!∀ r, Decision (P r)} n (t : list R) :
  (forall l r, r ∈ ord l <-> r ∈ l) ->
  f <$> limit (S n) (ord (select_where P t)) = [] <-> Forall (fun r => ~ P r) t.
Proof.
  intros Hord. rewrite Forall_forall. split.
  - intros Hn r Hr HP.
    assert (r ∈ ord (select_where P t)) as Hin by (apply Hord, elem_of_select; done).
    destruct (ord (select_where P t)); [by apply elem_of_nil in Hin|done].
  - intros Hno. destruct (ord (select_where P t)) as [|r l] eqn:E; [done|].
    assert (r ∈ ord (select_where P t)) as Hin by (rewrite E; left).
    apply Hord, elem_of_select in Hin as [HP Hr]. by destruct (Hno r Hr).
Qed.

(** The loud conditions. *)
Definition unknown_row (r : StorageEffect.t) : Prop := r.(StorageEffect.status) = EffectStatus.UNKNOWN.
Definition stuck_row (r : StorageObligation.t) : Prop := r.(StorageObligation.status) = ObligationStatus.STUCK.
#[export] Instance unknown_row_dec r : Decision (unknown_row r). Proof. unfold unknown_row. apply _. Defined.
#[export] Instance stuck_row_dec r : Decision (stuck_row r). Proof. unfold stuck_row. apply _. Defined.
Definition loudness (os : list StorageObligation.t) (es : list StorageEffect.t) : Z :=
  if decide (Exists stuck_row os) then 2 else if decide (Exists unknown_row es) then 1 else 0.

Lemma none_or_some {A} (P : A -> Prop) `{!∀ x, Decision (P x)} (l : list A) :
  Forall (fun x => ~ P x) l <-> ~ Exists P l.
Proof. rewrite Forall_forall, Exists_exists. naive_solver. Qed.
Lemma code_of {R E O T} (s : Snapshot R E O T) os es :
  (s.(obligations_stuck) = [] <-> Forall (fun r => ~ stuck_row r) os) ->
  (s.(effects_unknown) = [] <-> Forall (fun r => ~ unknown_row r) es) ->
  exit_code s = loudness os es.
Proof.
  unfold exit_code, loudness. rewrite !none_or_some by apply _. intros Ho He.
  destruct s.(obligations_stuck) as [|o l], s.(effects_unknown) as [|e l'];
    repeat case_decide; try done; exfalso; intuition congruence.
Qed.

Lemma unknown_filter r : pending_filter 0 false true r = true <-> unknown_row r.
Proof.
  unfold pending_filter, unknown_row. cbn. rewrite andb_true_r, bool_decide_eq_true. by rewrite list_elem_of_singleton.
Qed.
Lemma stuck_filter now r : unresolved_filter now false true false r = true <-> stuck_row r.
Proof. unfold unresolved_filter, stuck_row. cbn. by rewrite bool_decide_eq_true. Qed.

Lemma triage_run utc_text clk now shown db_url threshold (d : Db.t) :
  exists tables, live_triage_adk utc_text clk now shown db_url threshold d =
    (Ok (tables, loudness d.(Db.obligations) d.(Db.effects)), d).
Proof.
  unfold live_triage_adk, adk_snapshot, session_count, list_pending_effects, list_effects_to_dispatch,
    list_due_timers, list_unresolved_obligations. monad_simpl.
  eexists. do 3 f_equal. apply code_of; cbn [obligations_stuck effects_unknown].
  - rewrite query_none by (intros; apply elem_of_order_by_desc).
    apply Forall_iff. intros r. by rewrite stuck_filter.
  - rewrite query_none by (intros; apply elem_of_order_by).
    apply Forall_iff. intros r. by rewrite unknown_filter.
Qed.

(** The triage of an embedded store answers on every store, changes nothing, and exits
    with 2 exactly when some obligation is STUCK, with 1 exactly when none is and some
    effect is UNKNOWN, and with 0 otherwise, however many rows there are and whatever the
    threshold. *)
Theorem triage_exit_code utc_text clk now shown db_url threshold (d : Db.t) :
  exists tables, live_triage_adk utc_text clk now shown db_url threshold d =
    (Ok (tables, loudness d.(Db.obligations) d.(Db.effects)), d).
Proof. apply triage_run. Qed.

(** ** One session *)
Lemma filter_empty_iff {A} (f : A -> bool) (P : A -> Prop) (l : list A) :
  (forall x, f x = true <-> P x) -> length (List.filter f l) = 0 <-> ~ Exists P l.
Proof.
  intros Hf. rewrite Exists_exists. split.
  - intros Hl (x & Hx & HP). apply Hf in HP.
    assert (In x (List.filter f l)) as Hin by (apply filter_In; split; [by apply list_elem_of_In|done]).
    by destruct (List.filter f l).
  - intros Hno. destruct (List.filter f l) as [|x l'] eqn:E; [done|]. exfalso. apply Hno.
    assert (In x (List.filter f l)) as Hin by (rewrite E; by left).
    apply filter_In in Hin as [Hx HP]. exists x. split; [by apply list_elem_of_In|by apply Hf].
Qed.
Lemma Exists_order_by {R} (P : R -> Prop) key l : Exists P (order_by key l) <-> Exists P l.
Proof. rewrite !Exists_exists. by setoid_rewrite elem_of_order_by. Qed.
Lemma Exists_order_by_desc {R} (P : R -> Prop) key l : Exists P (order_by_desc key l) <-> Exists P l.
Proof. rewrite !Exists_exists. by setoid_rewrite elem_of_order_by_desc. Qed.

Lemma loudness_ext os os' es es' :
  (Exists stuck_row os <-> Exists stuck_row os') -> (Exists unknown_row es <-> Exists unknown_row es') ->
  loudness os es = loudness os' es'.
Proof. intros Ho He. unfold loudness. repeat case_decide; tauto. Qed.
Lemma inspect_code_loudness s :
  inspect_code s = loudness s.(sn_obligations) s.(sn_effects).
Proof.
  unfold inspect_code, bad_obligations, bad_effects, loudness.
  assert (Ho := filter_empty_iff (fun o => bool_decide (o.(StorageObligation.status) = "stuck")) stuck_row
    s.(sn_obligations) (fun o => bool_decide_eq_true _)).
  assert (He := filter_empty_iff (fun e => bool_decide (e.(StorageEffect.status) = "unknown")) unknown_row
    s.(sn_effects) (fun e => bool_decide_eq_true _)).
  repeat case_decide; try done; exfalso; tauto.
Qed.

Section sessions.
Context (adk_session : SKey -> AdkSession) (adk_events : SKey -> list AdkEvent) (d : Db.t).

Definition rows_of_session (k : SKey) : list StorageObligation.t * list StorageEffect.t :=
  (select_where (fun r => r.(StorageObligation.session) = k) d.(Db.obligations),
   select_where (fun r => r.(StorageEffect.session) = k) d.(Db.effects)).

Lemma session_snapshot_code k :
  k ∈ d.(Db.sessions) ->
  exists snap, session_snapshot adk_session adk_events k d = (Ok snap, d) /\
    inspect_code snap = loudness (rows_of_session k).1 (rows_of_session k).2.
Proof.
  intros Hk. unfold session_snapshot. monad_simpl. rewrite decide_True by done.
  eexists. split; [done|]. rewrite inspect_code_loudness.
  apply loudness_ext; cbn [sn_obligations sn_effects]; [apply Exists_order_by_desc|apply Exists_order_by].
Qed.

Lemma loudness_cases os es :
  (Exists stuck_row os /\ loudness os es = 2%Z) \/
  (~ Exists stuck_row os /\ Exists unknown_row es /\ loudness os es = 1%Z) \/
  (~ Exists stuck_row os /\ ~ Exists unknown_row es /\ loudness os es = 0%Z).
Proof. unfold loudness. repeat case_decide; tauto. Qed.

Lemma session_rows_loud k :
  (Exists stuck_row (rows_of_session k).1 -> Exists stuck_row d.(Db.obligations)) /\
  (Exists unknown_row (rows_of_session k).2 -> Exists unknown_row d.(Db.effects)).
Proof.
  cbn. rewrite !Exists_exists. setoid_rewrite elem_of_select. naive_solver.
Qed.
Lemma loud_row_of_session :
  wf d ->
  (Exists stuck_row d.(Db.obligations) -> exists k, k ∈ d.(Db.sessions) /\ Exists stuck_row (rows_of_session k).1) /\
  (Exists unknown_row d.(Db.effects) -> exists k, k ∈ d.(Db.sessions) /\ Exists unknown_row (rows_of_session k).2).
Proof.
  intros Hwf. pose proof (wf_obligation_fk _ Hwf) as Ho. pose proof (wf_effect_fk _ Hwf) as He.
  rewrite Forall_forall in Ho. rewrite Forall_forall in He. cbn. split; rewrite Exists_exists; intros (r & Hr & Hl).
  - exists r.(StorageObligation.session). split; [auto|]. rewrite Exists_exists. exists r. rewrite elem_of_select. auto.
  - exists r.(StorageEffect.session). split; [auto|]. rewrite Exists_exists. exists r. rewrite elem_of_select. auto.
Qed.

(** C13: The exit code of the triage is the worst one [tape inspect-adk] gives on a session of
    the store: no session's is higher, and unless it is 0 some session's is the same. *)
Theorem triage_is_the_worst_session utc_text clk now shown db_url threshold tables code :
  wf d -> live_triage_adk utc_text clk now shown db_url threshold d = (Ok (tables, code), d) ->
  (forall k, k ∈ d.(Db.sessions) -> exists snap,
     session_snapshot adk_session adk_events k d = (Ok snap, d) /\ (inspect_code snap <= code)%Z) /\
  (code <> 0%Z -> exists k snap, k ∈ d.(Db.sessions) /\
     session_snapshot adk_session adk_events k d = (Ok snap, d) /\ inspect_code snap = code).
Proof.
  intros Hwf Hrun. assert (code = loudness d.(Db.obligations) d.(Db.effects)) as ->.
  { destruct (triage_run utc_text clk now shown db_url threshold d) as [ts Hr].
    rewrite Hr in Hrun. by injection Hrun. }
  destruct (loud_row_of_session Hwf) as [Hst Hun]. split.
  - intros k Hk. destruct (session_snapshot_code k Hk) as (snap & Hs & Hc). exists snap. split; [done|]. rewrite Hc.
    destruct (session_rows_loud k) as [H1 H2].
    destruct (loudness_cases (rows_of_session k).1 (rows_of_session k).2) as [[? ->]|[(? & ? & ->)|(? & ? & ->)]];
      destruct (loudness_cases d.(Db.obligations) d.(Db.effects)) as [[? ->]|[(? & ? & ->)|(? & ? & ->)]]; tauto || lia.
  - intros Hnz. destruct (loudness_cases d.(Db.obligations) d.(Db.effects)) as [[Hs Hc]|[(Hs & Hu & Hc)|(? & ? & Hc)]]; [..|congruence].
    + destruct (Hst Hs) as (k & Hk & Hks). destruct (session_snapshot_code k Hk) as (snap & Hsn & Hcode).
      exists k, snap. split_and!; [done..|]. rewrite Hcode, Hc. unfold loudness. by rewrite decide_True.
    + destruct (Hun Hu) as (k & Hk & Hku). destruct (session_snapshot_code k Hk) as (snap & Hsn & Hcode).
      exists k, snap. split_and!; [done..|]. rewrite Hcode, Hc. unfold loudness.
      rewrite decide_False, decide_True; [done..|]. intros Hx. apply Hs. by apply (session_rows_loud k).
Qed.
End sessions.

(** ** Over a server *)
Section server.
Context `{PyText}.

Definition answered (ev : event cli_answer) : Prop := is_ok ev.(ev_answer) = true.
(** A call that asks and does not change: listing timers does not claim them. *)
Definition asks (ev : event cli_answer) : Prop :=
  match ev.(ev_call) with
  | Clock | RunsToRecover _ | PendingEffects _ _ _ _ | UnresolvedObligations _ _ _ _
  | EffectsToDispatch _ _ | DueTimers _ _ false => True
  | _ => False
  end.

(** The triage of a server always answers once the clock does, with calls that only ask,
    and its error line is empty exactly when every one of them was answered. *)
Theorem triage_notes_failures threshold t (o : result View) :
  exec (take_snapshot threshold) t o ->
  match o with
  | Ok snap => (snap.(error) = "" <-> Forall answered t) /\ Forall asks t /\ length t = 8
  | Err e => t = [Ev (R:=cli_answer) Clock (Err e)]
  end.
Proof.
  revert t o. apply forall_exec. unfold take_snapshot, clock.
  intros [n|e]; [|done]. unfold safe. cbn.
  do 7 (intros [?|?]); cbn; (split; [|split; [repeat constructor|done]]);
    (split; [intros He; try discriminate He; by repeat constructor|]);
    intros Ha; try done; exfalso;
    repeat (apply Forall_cons in Ha as [Hx Ha]; unfold answered in Hx; cbn in Hx; try discriminate Hx; clear Hx).
Qed.

(** Nothing but failures: the triage exits with 0. *)
Definition down (c : cli_call) : M unit (cli_answer c) := fun w =>
  (match c return result (cli_answer c) with
   | Clock => Ok 1000%Z
   | _ => Err (RpcError "UNAVAILABLE")
   end, w).
Lemma unreachable_server_is_healthy threshold :
  exists snap, (run down (take_snapshot threshold) tt).1 = Ok snap /\ snap.(error) <> "" /\ exit_code snap = 0%Z.
Proof. eexists. split; [reflexivity|]. by split. Qed.
End server.

(** ** Witnesses and concrete stores *)

Definition day_text (ms : Z) : string := pretty ms.
Definition no_session (k : SKey) : AdkSession := mkAdkSession [] "" "".
Definition no_events (k : SKey) : list AdkEvent := [].

Lemma triage_is_the_worst_session_witness :
  exists tables, live_triage_adk day_text 9000 9000 9000 "sqlite://" 60000 db_unknown = (Ok (tables, 1%Z), db_unknown) /\
    exists k snap, k ∈ db_unknown.(Db.sessions) /\
      session_snapshot no_session no_events k db_unknown = (Ok snap, db_unknown) /\ inspect_code snap = 1%Z.
Proof.
  assert (wf db_unknown) as Hwf.
  { apply (steps_wf [System.BeginEffect 1000 (wire "inv-1"); System.ClaimEffect 2000 sess wire_key "d1" 60000 2000;
      System.AttemptEffect 3000 sess wire_key "ack lost" 0] db0), wf_empty. }
  eexists. split; [vm_compute; reflexivity|].
  refine (proj2 (triage_is_the_worst_session no_session no_events db_unknown day_text 9000 9000 9000 "sqlite://" 60000 _ 1 Hwf _) _).
  - vm_compute. reflexivity.
  - discriminate.
Defined.

Lemma triage_notes_failures_witness :
  length (trace down (@take_snapshot sample_text 60000) tt) = 8.
Proof.
  exact (proj2 (proj2 (@triage_notes_failures sample_text 60000 _ _ (run_exec down (@take_snapshot sample_text 60000) tt)))).
Defined.

(** ** Where the display falls short *)

(** An overdue timer's column is a dash, however late it is. *)
Lemma overdue_column_is_a_dash now t :
  nth 2 (nth 0 (render_timers now (mkSnapshot [] [] [] [] [] [] [t] "")).(table_rows) []) (plain "") = plain "—".
Proof. done. Qed.
Lemma timer_column_is_a_dash fire now : timer_when fire now = "— ago" \/ timer_when fire now = "in —".
Proof. unfold timer_when. destruct (_ <=? _)%Z; auto. Qed.
(** A project that asks for hard tenancy is not warned. *)
Lemma hard_tenancy_is_not_warned p : tenancy_warnings p = 0.
Proof. unfold tenancy_warnings. destruct p; [|done]. by case_decide. Qed.
(** Outside an agents-cli scaffold the advisory check fails the command. *)
Lemma advisory_check_fails : ck_ok (scaffold_result false) = false.
Proof. done. Qed.
