(* ===== verification/CliInspect.v ===== *)
(** * CliInspect: [tape inspect] and [tape tail], [tape_cli/commands/inspect.py], [tail.py]

    The one-shot modes of the inspector over one run's journal (a snapshot, JSON lines, a
    summary with an exit code, the list of recoverable runs) and the stream across runs.

    What draining a stream gives, when the summary ends with 1, and which lines the tail
    prints. *)
From Stdlib Require Import Ascii.
From S2P Require Import Prelude Sql Scenarios ScenarioTheorems Lineage Program Client SdkSamples.
From S2P Require Import CliText CliJournal.
#[local] Open Scope Z_scope.
#[local] Open Scope nat_scope.

(** ** Reading a stream *)

(** [for entry in it], the body run on each entry until it asks to stop: whether it stopped. *)
Fixpoint until {A S} (body : A -> S -> Cmd (S * bool)) (es : list A) (s : S) : Cmd (S * bool) :=
  match es with
  | [] => mret (s, false)
  | e :: es => r ← body e s; if (r.2 : bool) then mret r else until body es r.1
  end.
(** The loop over a stream: what ends it, unless the body did, is raised. *)
Definition over_stream {S} (body : WireEntry.t -> S -> Cmd (S * bool)) (it : WireStream) (s : S) : Cmd S :=
  r ← until body it.1 s;
  match r.2, it.2 with
  | false, Some ex => Throw ex
  | _, _ => mret r.1
  end.
(** [it.cancel()], its failures ignored *)
Definition cancel : Cmd unit := try_ (invoke CancelStream) (fun _ => mret tt).
(** [limit is not None and n >= limit] *)
Definition reached (limit : option Z) (n : nat) : bool :=
  match limit with Some l => (l <=? Z.of_nat n)%Z | None => false end.

(** [_drain]: the entries so far, when the stream goes quiet or the limit is reached.  A
    stream that fails half way loses what it gave. *)
Definition drain_step (limit : option Z) (e : WireEntry.t) (out : list WireEntry.t) : Cmd (list WireEntry.t * bool) :=
  let out := out ++ [e] in
  if reached limit (length out) then _ ← cancel; mret (out, true) else mret (out, false).
Definition drain (run_id : string) (from_seq : Z) (limit : option Z) : Cmd (list WireEntry.t) :=
  r ← try_ (it ← (invoke (StreamRun run_id from_seq (Some 2000%Z)) : Cmd WireStream);
            (* the list is filled in place: what it holds when the stream ends stays *)
            r ← until (drain_step limit) it.1 [];
            mret (r.1, if (r.2 : bool) then None else it.2))
       (fun ex => mret ([], Some ex));
  match r.2 with
  | None => mret r.1
  | Some ex => if decide (rpc_code ex = Some "DEADLINE_EXCEEDED") then mret r.1 else Throw ex
  end.

Section inspect.
Context `{PyText}.

(** [get_run], or the end of the command *)
Definition run_or_die (run_id : string) : Cmd RunState.t :=
  try_rpc (invoke (GetRunState run_id)) (fun ex code =>
    if decide (code = "NOT_FOUND") then die ("no such run: " +:+ run_id)
    else die ("failed to get run: " +:+ code +:+ " " +:+ exn_details ex)).

(** ** [--print] *)
Definition lease_text (rs : RunState.t) (now : Z) : string :=
  if decide (rs.(RunState.lease_owner) = "") then "—"
  else bold rs.(RunState.lease_owner) +:+ "  " +:+ dim ("(" +:+ fmt_countdown_ms rs.(RunState.lease_expires_at_ms) now +:+ ")").
Definition duration_text (rs : RunState.t) (now : Z) : string :=
  lstrip_char "+"%char (fmt_rel_ms (int_or rs.(RunState.ended_at_ms) now - rs.(RunState.started_at_ms))).
Definition render_header (rs : RunState.t) (now : Z) : Table :=
  mkTable ("[bold]RUN[/bold] [cyan]" +:+ rs.(RunState.run_id) +:+ "[/cyan]")
    ([[plain "app / user / session";
       plain (rs.(RunState.app_name) +:+ " / " +:+ rs.(RunState.user_id) +:+ " / " +:+ rs.(RunState.session_id))];
      [plain "status"; run_status_label rs.(RunState.status)];
      [plain "lease"; plain (lease_text rs now)]; [plain "seq cursor"; plain (pretty rs.(RunState.seq_cursor))]] ++
     (if (rs.(RunState.started_at_ms) =? 0)%Z then [] else [[plain "duration"; plain (duration_text rs now)]]) ++
     (if decide (rs.(RunState.waiting_on_gate) = "") then []
      else [[plain "waiting on"; (rs.(RunState.waiting_on_gate), "blue")]])).

Definition decode (e : WireEntry.t) : result Decoded.t :=
  decode_entry e.(WireEntry.event).(PbEvent.kind) e.(WireEntry.event).(PbEvent.payload_json) e.(WireEntry.trace_id).
(** [_render_body]: the divider goes in before the first entry past the cursor. *)
Definition body_row (first_ts cursor : Z) (e : WireEntry.t) (d : Decoded.t) (details : string) : list Cell :=
  let ev := e.(WireEntry.event) in
  let old := negb (cursor =? 0)%Z && (ev.(PbEvent.seq) <=? cursor)%Z in
  let row_style := if old then "dim" else "" in
  [(pretty ev.(PbEvent.seq), "dim"); (fmt_rel_ms (ev.(PbEvent.ts_ms) - first_ts), "dim");
   (d.(Decoded.icon), str_or row_style "white"); (d.(Decoded.type), if old then "dim bold" else "bold");
   (d.(Decoded.status), d.(Decoded.style)); (details, row_style)].
Definition live_row : list Cell :=
  [plain ""; plain ""; plain ""; ("─── live ───", "bold dim"); plain ""; plain ""].
Fixpoint body_rows (first_ts cursor : Z) (divided : bool) (es : list WireEntry.t) : result (list (list Cell)) :=
  match es with
  | [] => mret []
  | e :: es =>
    d ← decode e;
    details ← from_markup d.(Decoded.summary);
    let now_live := negb divided && (0 <? cursor)%Z && (cursor <? e.(WireEntry.event).(PbEvent.seq))%Z in
    rest ← body_rows first_ts cursor (divided || now_live) es;
    mret ((if now_live then [live_row] else []) ++ body_row first_ts cursor e d details :: rest)
  end.
Definition render_body (es : list WireEntry.t) (cursor : Z) : result Table :=
  match es with
  | [] => mret (mkTable "" [[plain ""; plain ""; plain ""; ("…", "dim"); plain ""; ("(no journal entries yet)", "dim")]])
  | e :: _ => rows ← body_rows e.(WireEntry.event).(PbEvent.ts_ms) cursor false es; mret (mkTable "" rows)
  end.

Definition do_print (run_id : string) (from_seq : Z) (limit : option Z) : Cmd unit :=
  rs ← run_or_die run_id;
  es ← drain run_id from_seq limit;
  now ← clock;
  _ ← show_table (render_header rs now);
  body ← lift (render_body es 0);
  show_table body.

(** ** [--raw] *)
(** [_safe_inline_json] *)
Definition safe_inline_json (s : string) : json :=
  if decide (s = "") then JNull else match loads s with Ok v => v | Err _ => JStr s end.
Definition trace_fields (e : WireEntry.t) : list (string * json) :=
  let ev := e.(WireEntry.event) in
  [("ts_ms", JInt ev.(PbEvent.ts_ms)); ("subject", JStr ev.(PbEvent.subject)); ("trace_id", JStr e.(WireEntry.trace_id));
   ("span_id", JStr e.(WireEntry.span_id)); ("parent_span_id", JStr e.(WireEntry.parent_span_id));
   ("schema_version", JInt e.(WireEntry.schema_version)); ("payload", safe_inline_json ev.(PbEvent.payload_json))].
Definition raw_line (e : WireEntry.t) : string :=
  let ev := e.(WireEntry.event) in
  dumps (JObj ([("seq", JInt ev.(PbEvent.seq)); ("global_seq", JInt ev.(PbEvent.global_seq));
                ("kind", JStr ev.(PbEvent.kind))] ++ trace_fields e)).
(** One line and the count; the stream is cancelled at the limit. *)
Definition print_until (limit : option Z) (line : WireEntry.t -> Cmd unit) (e : WireEntry.t) (seen : nat) : Cmd (nat * bool) :=
  _ ← line e;
  let seen := S seen in
  if reached limit seen then _ ← cancel; mret (seen, true) else mret (seen, false).
(** The ends of a stream that are no failure. *)
Definition quiet_end (code : string) : bool := bool_decide (code ∈ ["CANCELLED"; "DEADLINE_EXCEEDED"]).
Definition do_raw (run_id : string) (from_seq : Z) (limit : option Z) (follow : bool) : Cmd unit :=
  _ ← run_or_die run_id;
  try_rpc
    (it ← (invoke (StreamRun run_id from_seq (if follow then None else Some 2000%Z)) : Cmd WireStream);
     _ ← over_stream (print_until limit (fun e => say (raw_line e))) it 0;
     mret tt)
    (fun ex code => if quiet_end code then mret tt
                    else die ("stream failed: " +:+ code +:+ " " +:+ exn_details ex)).

(** ** [--summary] *)
Definition Counter := list (string * nat).
Definition count (k : string) (c : Counter) : nat := default 0 (dict_get k c).
Definition bump (k : string) (c : Counter) : Counter := dict_set k (S (count k c)) c.
Record Counts := mkCounts { by_kind : Counter; eff_by_status : Counter; ob_by_status : Counter; gate_by_status : Counter }.
Definition count_entry (c : Counts) (kind status : string) : Counts :=
  let c := mkCounts (bump kind c.(by_kind)) c.(eff_by_status) c.(ob_by_status) c.(gate_by_status) in
  if decide (kind = "effect") then mkCounts c.(by_kind) (bump status c.(eff_by_status)) c.(ob_by_status) c.(gate_by_status)
  else if decide (kind = "obligation") then mkCounts c.(by_kind) c.(eff_by_status) (bump status c.(ob_by_status)) c.(gate_by_status)
  else if decide (kind = "gate") then mkCounts c.(by_kind) c.(eff_by_status) c.(ob_by_status) (bump status c.(gate_by_status))
  else c.
Fixpoint count_entries (es : list PbEvent.t) (c : Counts) : result Counts :=
  match es with
  | [] => mret c
  | e :: es =>
    d ← decode_entry e.(PbEvent.kind) e.(PbEvent.payload_json) "";
    count_entries es (count_entry c e.(PbEvent.kind) d.(Decoded.status))
  end.
(** The most frequent first. *)
Definition counter_table (title : string) (c : Counter) : Table :=
  mkTable title (map (fun kv : string * nat => [plain (str_or kv.1 "(none)"); plain (pretty kv.2)])
    (order_by (fun kv : string * nat => (- Z.of_nat kv.2)%Z) c)).
Definition bad_eff (c : Counts) : nat := count "unknown" c.(eff_by_status) + count "failed" c.(eff_by_status).
Definition bad_ob (c : Counts) : nat := count "stuck" c.(ob_by_status).
Definition do_summary (run_id : string) : Cmd unit :=
  rs ← run_or_die run_id;
  es ← drain run_id 0 None;
  now ← clock;
  _ ← show_table (render_header rs now);
  c ← lift (count_entries (map WireEntry.event es) (mkCounts [] [] [] []));
  _ ← show_table (counter_table "by kind" c.(by_kind));
  _ ← show_table (counter_table "effects" c.(eff_by_status));
  _ ← show_table (counter_table "obligations" c.(ob_by_status));
  _ ← show_table (counter_table "gates" c.(gate_by_status));
  if decide (bad_eff c = 0 /\ bad_ob c = 0) then ok_line "clean."
  else _ ← warn ("non-clean: " +:+ pretty (bad_eff c) +:+ " bad effects, " +:+ pretty (bad_ob c) +:+ " stuck obligations");
       Throw (Exit 1).

(** ** The list of recoverable runs *)
Definition ls_row (now : Z) (i : nat) (r : RunState.t) : list Cell :=
  [plain (pretty (i + 1)); plain r.(RunState.run_id); run_status_label r.(RunState.status);
   plain (r.(RunState.app_name) +:+ "/" +:+ r.(RunState.user_id) +:+ "/" +:+ r.(RunState.session_id));
   plain (str_or r.(RunState.lease_owner) "[dim]—[/dim]");
   plain (fmt_countdown_ms r.(RunState.lease_expires_at_ms) now); plain r.(RunState.waiting_on_gate)].
Definition hint_ls : string :=
  "[dim]Hint: `tape inspect ls` shows runs needing attention (RUNNABLE, expired leases, signal-released WAITING). Pass an explicit run id to inspect any run:[/dim] [cyan]tape inspect <run-id>[/cyan]".
Definition ls (url : string) (limit : Z) : Cmd unit :=
  runs ← try_rpc (_ ← invoke (Connect url);
                  finally_ (invoke (RunsToRecover limit) : Cmd (list RunState.t)) (invoke CloseClient))
           (fun ex code => die ("failed to query tape server: " +:+ code +:+ " " +:+ exn_details ex));
  match runs with
  | [] => _ ← say ("[dim]no recoverable runs at " +:+ url +:+ "[/dim]"); say hint_ls
  | _ =>
    now ← clock;
    _ ← show_table (mkTable ("Recoverable runs @ " +:+ url) (imap (ls_row now) runs));
    say "[dim]Inspect any one with:[/dim]  [cyan]tape inspect <run-id>[/cyan]"
  end.

(** ** The command *)
Inductive InspectMode := ListRuns (limit : Z) | Raw | Summary | PrintOnce | Tui.
Definition inspect_mode (run_id : option string) (list_runs raw summary print_mode isatty : bool) (limit : option Z)
    : InspectMode :=
  match run_id with
  | None => ListRuns (int_or (default 0%Z limit) 50)
  | Some _ =>
    if list_runs then ListRuns (int_or (default 0%Z limit) 50)
    else if raw then Raw else if summary then Summary else if print_mode || negb isatty then PrintOnce else Tui
  end.

(** ** [tape tail] *)
Record TailOptions := mkTailOptions {
  tl_subject : string; tl_kind : string; tl_run_id : string; tl_predicate : string;
  tl_from_global_seq : Z; tl_from_ts_ms : Z; tl_limit : option Z; tl_raw : bool
}.
(** A subject or a predicate selects the subject bus. *)
Definition use_subject_bus (o : TailOptions) : bool :=
  negb (bool_decide (o.(tl_subject) = "")) || negb (bool_decide (o.(tl_predicate) = "")).
Definition open_tail (o : TailOptions) : Cmd WireStream :=
  if use_subject_bus o then
    try_rpc (invoke (StreamSubject (str_or o.(tl_subject) "/tape/**") o.(tl_predicate) o.(tl_from_global_seq)) : Cmd WireStream)
      (fun ex code => die ("subscribe_by_subject failed: " +:+ code +:+ " " +:+ exn_details ex))
  else
    try_rpc (invoke (StreamEvents o.(tl_from_ts_ms) o.(tl_run_id) o.(tl_kind) o.(tl_from_global_seq)) : Cmd WireStream)
      (fun ex code => die ("subscribe_events failed: " +:+ code +:+ " " +:+ exn_details ex)).
(** [_print_header] *)
Definition tail_header (url subject kind run predicate : string) (from_global_seq : Z) : string :=
  let part name v := if decide (v = "") then [] else [name +:+ "=[bold]" +:+ v +:+ "[/bold]"] in
  join " · " (["[bold cyan]" +:+ url +:+ "[/bold cyan]"] ++ part "subject" subject ++ part "kind" kind ++
              part "run" run ++ part "predicate" predicate ++
              (if (from_global_seq =? 0)%Z then [] else ["from_global_seq=" +:+ pretty from_global_seq])).
(** [f"{s:>n}"] and [f"{s:<n}"] *)
Fixpoint spaces (n : nat) : string := match n with O => "" | S n => " " +:+ spaces n end.
Definition pad_left (n : nat) (s : string) : string := spaces (n - py_len s) +:+ s.
Definition pad_right (n : nat) (s : string) : string := s +:+ spaces (n - py_len s).
(** [_render_row], the styles left aside: a first entry at the time 0 counts as none. *)
Definition tail_row (e : WireEntry.t) (base : option Z) : result string :=
  let ev := e.(WireEntry.event) in
  d ← decode e;
  details ← from_markup d.(Decoded.summary);
  let rel := match base with Some b => if (b =? 0)%Z then "+0ms" else fmt_rel_ms (ev.(PbEvent.ts_ms) - b) | None => "+0ms" end in
  let suffix := (if decide (ev.(PbEvent.run_id) = "") then [] else ["run=" +:+ py_take 12 ev.(PbEvent.run_id)]) ++
                (if decide (ev.(PbEvent.subject) = "") then [] else ["subj=" +:+ ev.(PbEvent.subject)]) in
  mret (pad_left 6 (pretty ev.(PbEvent.global_seq)) +:+ "  " +:+ pad_left 8 rel +:+ "  " +:+ d.(Decoded.icon) +:+ " " +:+
        pad_right 10 d.(Decoded.type) +:+ "  " +:+ pad_right 11 d.(Decoded.status) +:+ "  " +:+ details +:+
        (match suffix with [] => "" | _ => "   " +:+ join "  " suffix end)).
Definition tail_raw_line (e : WireEntry.t) : string :=
  let ev := e.(WireEntry.event) in
  dumps (JObj ([("global_seq", JInt ev.(PbEvent.global_seq)); ("run_id", JStr ev.(PbEvent.run_id));
                ("seq", JInt ev.(PbEvent.seq)); ("kind", JStr ev.(PbEvent.kind))] ++ trace_fields e)).
(** [if base_ts is None: base_ts = entry.ts_ms] *)
Definition first_ts (base : option Z) (ts_ms : Z) : option Z :=
  match base with None => Some ts_ms | b => b end.
(** The state of the loop: entries shown, and the time of the first. *)
Definition tail_step (o : TailOptions) (e : WireEntry.t) (st : nat * option Z) : Cmd ((nat * option Z) * bool) :=
  let ev := e.(WireEntry.event) in
  if decide (o.(tl_run_id) <> "" /\ use_subject_bus o = true /\ ev.(PbEvent.run_id) <> o.(tl_run_id)) then mret (st, false)
  else
    let base := first_ts st.2 ev.(PbEvent.ts_ms) in
    _ ← (if o.(tl_raw) then say (tail_raw_line e) else (line ← lift (tail_row e base); say line));
    let seen := S st.1 in
    if reached o.(tl_limit) seen then _ ← cancel; mret ((seen, base), true) else mret ((seen, base), false).

(** [run]; what the loop has shown when the stream fails is remembered by the caller's
    variables, so the last line looks at the count either way. *)
Fixpoint tail_loop (o : TailOptions) (es : list WireEntry.t) (ending : option exn) (st : nat * option Z)
    : Cmd (nat * option exn) :=
  match es with
  | [] => mret (st.1, ending)
  | e :: es => r ← tail_step o e st; if (r.2 : bool) then mret (r.1.1, None) else tail_loop o es ending r.1
  end.
Definition tail (url : string) (o : TailOptions) : Cmd unit :=
  _ ← try_ (invoke (Connect url)) (fun ex => die ("failed to connect to " +:+ url +:+ ": " +:+ str_exn ex));
  it ← open_tail o;
  _ ← (if o.(tl_raw) then mret tt
       else say (tail_header url (str_or o.(tl_subject) o.(tl_kind)) o.(tl_kind) o.(tl_run_id) o.(tl_predicate) o.(tl_from_global_seq)));
  seen ← finally_
    (r ← tail_loop o it.1 it.2 (0, None);
     match r.2 with
     | None => mret r.1
     | Some ex =>
       match rpc_code ex with
       | Some code => _ ← (if quiet_end code then mret tt else warn ("stream ended: " +:+ code +:+ " " +:+ exn_details ex)); mret r.1
       | None => Throw ex
       end
     end)
    (try_ (invoke CloseClient) (fun _ => mret tt));
  if decide (seen = 0) then say "[dim]…no entries received.[/dim]" else mret tt.
End inspect.

(** ** A server that serves one run *)
Definition serving (rs : RunState.t) (it : WireStream) (c : cli_call) : M unit (cli_answer c) := fun w =>
  (match c return result (cli_answer c) with
   | GetRunState _ => Ok rs
   | StreamRun _ _ _ | StreamSubject _ _ _ | StreamEvents _ _ _ _ => Ok it
   | RunsToRecover _ => Ok [rs]
   | Clock => Ok 5000%Z
   | PendingEffects _ _ _ _ | EffectsToDispatch _ _ => Ok []
   | UnresolvedObligations _ _ _ _ => Ok []
   | DueTimers _ _ _ => Ok []
   | RunCmd _ => Ok (0%Z, "")
   | ListDir _ => Ok []
   | StartProc _ _ => Ok 1%Z
   | _ => Ok tt
   end, w).

(** Running a sequence of programs. *)
Lemma run_bind {C} {R : C -> Type} {W A B} (h : forall c, M W (R c)) (p : prog R A) (f : A -> prog R B) w :
  run h (p ≫= f) w =
    match run h p w with (Ok a, w') => run h (f a) w' | (Err e, w') => (Err e, w') end.
Proof.
  revert w. induction p as [a|e|c k IH]; intros w; [done..|]. simpl. destruct (h c w) as [r w']. apply IH.
Qed.
Lemma run_try {C} {R : C -> Type} {W A} (h : forall c, M W (R c)) (p : prog R A) g w :
  run h (try_ p g) w = match run h p w with (Ok a, w') => (Ok a, w') | (Err e, w') => run h (g e) w' end.
Proof.
  revert w. induction p as [a|e|c k IH]; intros w; [done..|]. simpl. destruct (h c w) as [r w']. apply IH.
Qed.

Section drained.
Context `{PyText} (rs : RunState.t).

(** The entries a limit lets through: at least one. *)
Definition within {A} (limit : option Z) (es : list A) : list A :=
  match limit with Some l => take (Z.to_nat (1 `max` l)) es | None => es end.
(** An end of the stream that is no failure of it. *)
Definition ends_quietly (ending : option exn) : Prop :=
  ending = None \/ (exists ex, ending = Some ex /\ rpc_code ex = Some "DEADLINE_EXCEEDED").

Lemma until_drain limit it es out :
  (forall l, limit = Some l -> (Z.of_nat (length out) < 1 `max` l)%Z) ->
  exists b, run (serving rs it) (until (drain_step limit) es out) tt =
    (Ok (match limit with Some l => take (Z.to_nat (1 `max` l)) (out ++ es) | None => out ++ es end, b), tt) /\
    (b = false -> limit = None \/ exists l, limit = Some l /\ (Z.of_nat (length (out ++ es)) < 1 `max` l)%Z).
Proof.
  revert out. induction es as [|e es IH]; intros out Hout; cbn [until].
  - exists false. rewrite app_nil_r. destruct limit as [l|]; [|by split; [|left]].
    specialize (Hout l eq_refl). rewrite take_ge by lia. split; [done|]. right. eauto.
  - rewrite run_bind. unfold drain_step at 1. destruct (reached limit (length (out ++ [e]))) eqn:Er.
    + exists true. rewrite run_bind. cbn. unfold reached in Er. destruct limit as [l|]; [|done].
      specialize (Hout l eq_refl). apply Z.leb_le in Er. rewrite length_app in Er. change (length [e]) with 1 in Er.
      assert (Z.to_nat (1 `max` l) = length (out ++ [e])) as -> by (rewrite length_app; change (length [e]) with 1; lia).
      replace (out ++ e :: es) with ((out ++ [e]) ++ es) by (by rewrite <-app_assoc).
      by rewrite take_app_length.
    + cbn [run mret prog_ret snd fst]. destruct (IH (out ++ [e])) as (b & Hr & Hb).
      { intros l ->. apply Z.leb_gt in Er. specialize (Hout l eq_refl). rewrite length_app in *.
        change (length [e]) with 1 in *. lia. }
      exists b. rewrite <-app_assoc in *. split; [exact Hr|exact Hb].
Qed.

Lemma drain_run run_id from_seq limit es ending :
  ends_quietly ending ->
  run (serving rs (es, ending)) (drain run_id from_seq limit) tt = (Ok (within limit es), tt).
Proof.
  intros Hq. unfold drain. rewrite run_bind, run_try.
  destruct (until_drain limit (es, ending) es []) as (b & Hr & Hb); [intros l _; cbn; lia|].
  assert (run (serving rs (es, ending))
    (it ← (invoke (StreamRun run_id from_seq (Some 2000%Z)) : Cmd WireStream);
     r ← until (drain_step limit) it.1 []; mret (r.1, if (r.2 : bool) then None else it.2)) tt =
    (Ok (within limit es, if b then None else ending), tt)) as ->.
  { rewrite run_bind. cbn -[until]. rewrite run_bind, Hr. by destruct limit. }
  cbn. destruct b; [done|]. destruct Hq as [->|(ex & -> & Hc)]; [done|].
  by rewrite decide_True.
Qed.
End drained.

(** ** The summary *)
Section summary.
Context `{PyText} (rs : RunState.t).

(** A journal entry that says an effect is UNKNOWN or FAILED, or an obligation STUCK. *)
Definition loud_entry (e : PbEvent.t) : bool :=
  match decode_entry e.(PbEvent.kind) e.(PbEvent.payload_json) "" with
  | Ok d =>
    (bool_decide (e.(PbEvent.kind) = "effect") && bool_decide (d.(Decoded.status) ∈ ["unknown"; "failed"])) ||
    (bool_decide (e.(PbEvent.kind) = "obligation") && bool_decide (d.(Decoded.status) = "stuck"))
  | Err _ => false
  end.
Definition decodes (e : PbEvent.t) : Prop :=
  is_ok (decode_entry e.(PbEvent.kind) e.(PbEvent.payload_json) "") = true.

Lemma count_bump k k' c : count k (bump k' c) = if decide (k = k') then S (count k c) else count k c.
Proof.
  unfold count, bump. case_decide as Hk.
  - subst. by rewrite dict_get_set_eq.
  - by rewrite dict_get_set_ne.
Qed.

Definition alarms (c : Counts) : nat := bad_eff c + bad_ob c.
Lemma count_entry_alarms c e d :
  decode_entry e.(PbEvent.kind) e.(PbEvent.payload_json) "" = Ok d ->
  alarms (count_entry c e.(PbEvent.kind) d.(Decoded.status)) = (if loud_entry e then 1 else 0) + alarms c.
Proof.
  intros Hd. unfold loud_entry, alarms, bad_eff, bad_ob, count_entry. rewrite Hd. cbn [by_kind eff_by_status ob_by_status gate_by_status].
  destruct (decide (e.(PbEvent.kind) = "effect")) as [->|He].
  - rewrite bool_decide_true, (bool_decide_false ("effect" = "obligation")) by done. cbn [eff_by_status ob_by_status].
    rewrite !count_bump, andb_true_l, andb_false_l, orb_false_r. case_bool_decide as Hs.
    + apply elem_of_cons in Hs as [->|Hs]; [|apply list_elem_of_singleton in Hs as ->]; repeat case_decide; try done; lia.
    + rewrite !decide_False; [done| |]; intros Heq; apply Hs; rewrite <-Heq; set_solver.
  - rewrite (bool_decide_false _ He), andb_false_l, orb_false_l.
    destruct (decide (e.(PbEvent.kind) = "obligation")) as [->|Ho].
    + rewrite bool_decide_true, andb_true_l by done. cbn [eff_by_status ob_by_status]. rewrite count_bump.
      repeat case_decide; repeat case_bool_decide; try congruence; lia.
    + rewrite (bool_decide_false _ Ho), andb_false_l. by case_decide.
Qed.
Lemma count_entries_alarms es : forall c,
  Forall decodes es ->
  exists c', count_entries es c = Ok c' /\ (alarms c' = 0 <-> alarms c = 0 /\ Forall (fun e => loud_entry e = false) es).
Proof.
  induction es as [|e es IH]; intros c Hd; [exists c; split; [done|]; split; [by split|tauto]|].
  apply Forall_cons in Hd as [He Hd]. unfold decodes in He. cbn [count_entries]. monad_simpl.
  destruct (decode_entry _ _ _) as [d|] eqn:E; [|done].
  destruct (IH (count_entry c e.(PbEvent.kind) d.(Decoded.status)) Hd) as (c' & Hc & Hiff).
  exists c'. split; [exact Hc|]. rewrite Hiff, (count_entry_alarms c e d E), Forall_cons.
  destruct (loud_entry e); [|naive_solver lia]. split; [lia|naive_solver].
Qed.

(** On a readable journal whose stream ends quietly, the summary always ends, with
    [clean] exactly when no entry of the journal ever said that an effect was UNKNOWN or
    FAILED or an obligation STUCK, and with the exit code 1 otherwise. *)
Theorem summary_exit_code run_id es ending :
  ends_quietly ending -> Forall decodes (map WireEntry.event es) ->
  let o := (run (serving rs (es, ending)) (do_summary run_id) tt).1 in
  (o = Ok tt <-> Forall (fun e => loud_entry e = false) (map WireEntry.event es)) /\
  (o = Ok tt \/ o = Err (Exit 1)).
Proof.
  intros Hq Hd. destruct (count_entries_alarms _ (mkCounts [] [] [] []) Hd) as (c & Hc & Hiff).
  assert (alarms c = 0 <-> Forall (fun e => loud_entry e = false) (map WireEntry.event es)) as Hiff'.
  { rewrite Hiff. unfold alarms. cbn. tauto. }
  assert ((run (serving rs (es, ending)) (do_summary run_id) tt).1 =
          if decide (bad_eff c = 0 /\ bad_ob c = 0) then Ok tt else Err (Exit 1)) as Hrun.
  { unfold do_summary, run_or_die, try_rpc. rewrite run_bind, run_try. cbn -[drain count_entries].
    rewrite run_bind, drain_run by done. cbn -[count_entries counter_table render_header].
    rewrite Hc. cbn -[counter_table render_header]. by case_decide. }
  cbv zeta. rewrite Hrun, <-Hiff'. unfold alarms. case_decide as Hz; split; auto; split; try done; lia.
Qed.
End summary.

(** ** The tail *)
Section tail.
Context `{PyText} (o : TailOptions).

(** The lines printed, and the entries the tail lets through. *)
Definition printed (t : list (event cli_answer)) : list string :=
  omap (fun ev => match ev.(ev_call) with PrintText s => Some s | _ => None end) t.
Definition passes (e : WireEntry.t) : bool :=
  negb (negb (bool_decide (o.(tl_run_id) = "")) && use_subject_bus o &&
        negb (bool_decide (e.(WireEntry.event).(PbEvent.run_id) = o.(tl_run_id)))).
Lemma passes_spec e :
  passes e = false <-> o.(tl_run_id) <> "" /\ use_subject_bus o = true /\ e.(WireEntry.event).(PbEvent.run_id) <> o.(tl_run_id).
Proof.
  unfold passes. rewrite negb_false_iff, !andb_true_iff, !negb_true_iff, !bool_decide_eq_false. tauto.
Qed.
(** How many more entries the limit allows after [n]. *)
Definition allowed {A} (n : nat) (es : list A) : list A :=
  match o.(tl_limit) with Some l => take (Z.to_nat (1 `max` l) - n) es | None => es end.
Definition under_limit (n : nat) : Prop :=
  match o.(tl_limit) with Some l => (Z.of_nat n < 1 `max` l)%Z | None => True end.
Definition tail_line (base : option Z) (e : WireEntry.t) : result string :=
  if o.(tl_raw) then Ok (tail_raw_line e) else tail_row e base.
(** The time the durations count from: the first entry's that is shown. *)
Definition base_of (base : option Z) (shown : list WireEntry.t) : option Z :=
  match base with
  | Some b => Some b
  | None => (fun e => e.(WireEntry.event).(PbEvent.ts_ms)) <$> head shown
  end.
Definition shown_lines (base : option Z) (shown : list WireEntry.t) (t : list (event cli_answer)) : Prop :=
  Forall2 (fun e s => tail_line (base_of base shown) e = Ok s) shown (printed t).

Lemma printed_app t t' : printed (t ++ t') = printed t ++ printed t'.
Proof. apply omap_app. Qed.
Lemma base_of_cons base e es :
  base_of (base_of base [e]) es = base_of base (e :: es).
Proof. by destruct base. Qed.

Lemma tail_step_shown e n base :
  passes e = true ->
  wp (tail_step o e (n, base)) (fun t r => forall st, r = Ok st ->
    exists line, printed t = [line] /\ tail_line (base_of base [e]) e = Ok line /\
      st = ((S n, base_of base [e]), reached o.(tl_limit) (S n))).
Proof.
  intros Hp. unfold tail_step. rewrite decide_False by (rewrite <-passes_spec; by rewrite Hp).
  cbn [fst snd]. replace (first_ts base e.(WireEntry.event).(PbEvent.ts_ms)) with (base_of base [e]) by (by destruct base).
  set (b := base_of base [e]).
  assert (Hrest : forall line t1, printed t1 = [line] -> tail_line (b) e = Ok line ->
    wp (if reached o.(tl_limit) (S n) then _ ← cancel; mret ((S n, b), true) else mret ((S n, b), false))
      (fun t r => forall st, r = Ok st -> exists line, printed (t1 ++ t) = [line] /\ tail_line (b) e = Ok line /\
         st = ((S n, b), reached o.(tl_limit) (S n)))).
  { intros line t1 Ht Hl. destruct (reached _ _).
    - apply wp_bind, wp_try. intros [[]|ex]; cbn; intros st [= <-]; exists line; rewrite printed_app, Ht; by split_and!.
    - apply wp_ret. intros st [= <-]. exists line. rewrite app_nil_r. by split_and!. }
  apply wp_bind. unfold tail_line in *. destruct o.(tl_raw).
  - intros [[]|ex]; [|done]. by apply (Hrest (tail_raw_line e)).
  - destruct (tail_row e (b)) as [line|ex] eqn:El; apply wp_bind; cbn; [|done].
    intros [[]|ex]; [|done]. exact (Hrest line [Ev (R:=cli_answer) (PrintText line) (Ok tt)] eq_refl eq_refl).
Qed.

Lemma tail_loop_shows es ending : forall n base,
  under_limit n ->
  wp (tail_loop o es ending (n, base)) (fun t r => forall seen e, r = Ok (seen, e) ->
    let shown := allowed n (List.filter passes es) in
    seen = n + length shown /\ shown_lines base shown t /\ (e = ending \/ e = None /\ ~ under_limit seen)).
Proof.
  induction es as [|e es IH]; intros n base Hn.
  - apply wp_ret. intros seen e [= <- <-]. assert (allowed n (@nil WireEntry.t) = []) as Ha.
    { unfold allowed. by destruct o.(tl_limit); rewrite ?take_nil. }
    cbn. rewrite Ha. split_and!; [cbn; lia|constructor|by left].
  - cbn [tail_loop List.filter]. destruct (passes e) eqn:Hp.
    + apply wp_bind. eapply wp_mono; [|by apply tail_step_shown].
      intros t [st|ex] Hst; [|done]. destruct (Hst st eq_refl) as (line & Ht & Hl & ->). cbn [fst snd].
      assert (Hcons : forall shown t', shown_lines (base_of base [e]) shown t' -> shown_lines base (e :: shown) (t ++ t')).
      { unfold shown_lines. intros shown t' Hs. rewrite printed_app, Ht, <-base_of_cons. cbn. constructor; [|done].
        revert Hl. destruct base; done. }
      destruct (reached _ _) eqn:Hr.
      * apply wp_ret. intros seen x [= <- <-]. unfold reached in Hr. unfold under_limit in *.
        destruct o.(tl_limit) as [l|] eqn:El; [|done]. apply Z.leb_le in Hr.
        assert (allowed n (e :: List.filter passes es) = [e]) as ->.
        { unfold allowed. rewrite El. by replace (Z.to_nat (1 `max` l) - n) with 1 by lia. }
        cbn. split_and!; [lia| |right; split; [done|lia]]. apply (Hcons [] []). constructor.
      * assert (under_limit (S n)) as Hn'.
        { unfold under_limit, reached in *. destruct o.(tl_limit); [|done]. apply Z.leb_gt in Hr. lia. }
        assert (allowed n (e :: List.filter passes es) = e :: allowed (S n) (List.filter passes es)) as ->.
        { unfold allowed, under_limit in *. destruct o.(tl_limit) as [l|]; [|done].
          by replace (Z.to_nat (1 `max` l) - n) with (S (Z.to_nat (1 `max` l) - S n)) by lia. }
        eapply wp_mono; [|by apply IH]. cbv beta zeta. intros t' r Hr' seen x ->. destruct (Hr' seen x eq_refl) as (-> & Hs & He).
        split_and!; [cbn; lia|by apply Hcons|done].
    + apply wp_bind. unfold tail_step. rewrite decide_True by (by apply passes_spec).
      apply wp_ret. cbn [fst snd]. eapply wp_mono; [|by apply IH]. auto.
Qed.

(** C26: The tail, without a limit or with one of at least 1, and with [--kind] only where
    the kind filter applies, which is not the subject bus: it shows exactly the entries its
    filters let through, in the order of the stream and one line each, up to the limit;
    durations count from the first one shown; and it stops with the stream, or when the
    limit is reached. *)
Theorem tail_shows es ending t seen e :
  exec (tail_loop o es ending (0, None)) t (Ok (seen, e)) ->
  (forall l, o.(tl_limit) = Some l -> (1 <= l)%Z) ->
  (use_subject_bus o = true -> o.(tl_kind) = "") ->
  let shown := match o.(tl_limit) with
               | Some l => take (Z.to_nat l) (List.filter passes es)
               | None => List.filter passes es
               end in
  seen = length shown /\ shown_lines None shown t /\
  (e = ending \/ e = None /\ exists l, o.(tl_limit) = Some l /\ seen = Z.to_nat l).
Proof.
  intros He Hl _ shown. subst shown. assert (under_limit 0) as Hn by (unfold under_limit; destruct o.(tl_limit); lia || done).
  destruct (wp_exec _ _ _ _ (tail_loop_shows es ending 0 None Hn) He seen e eq_refl) as (Hs & Hp & Hend).
  unfold allowed, under_limit in *. destruct o.(tl_limit) as [l|]; [|by destruct Hend as [->|[_ Hf]]; [split_and!; auto|destruct Hf]].
  specialize (Hl l eq_refl). replace (Z.to_nat (1 `max` l) - 0) with (Z.to_nat l) in * by lia.
  split_and!; [done..|]. destruct Hend as [->|[-> Hlim]]; [by left|]. right. split; [done|]. exists l. split; [done|].
  rewrite length_take in Hs. lia.
Qed.

(** A summary that is no well-formed markup ends the tail with the error. *)
Lemma malformed_summary_ends_the_tail e d ex base :
  decode e = Ok d -> from_markup d.(Decoded.summary) = Err ex -> o.(tl_raw) = false -> passes e = true ->
  tail_step o e (0, base) = Throw ex.
Proof.
  intros Hd Hm Hr Hp. unfold tail_step. rewrite decide_False by (rewrite <-passes_spec; by rewrite Hp).
  rewrite Hr. unfold tail_row. by rewrite Hd; cbn; rewrite Hm.
Qed.
End tail.

(** ** Witnesses and concrete runs *)
Definition wired (run_id : string) (seq : Z) (payload : string) : WireEntry.t :=
  WireEntry.mk (PbEvent.mk run_id seq "effect" payload (1000 + seq) seq "/tape/effect") "" "" "" 1.
Definition done_run : RunState.t := RunState.mk "run-1" 4 "treasury" "u" "s" "" 0 2 1000 3000 "".
(** The payload text decides the status. *)
Definition by_payload : PyText := {|
  dumps := fun _ => "{..}"; loads := fun s => Ok (JObj [("status", JStr s)]); str_exn := fun _ => "boom";
  exn_name := fun _ => "Exception"; exn_details := fun _ => ""; str_json := fun _ => ""; int_text := fun _ => Ok 0%Z;
  float_text := fun _ => Err TypeError; repr_str := fun s => s; from_markup := fun s => Ok s |}.

Lemma summary_exit_code_witness :
  let o := (run (serving done_run ([wired "run-1" 1 "pending"; wired "run-1" 2 "confirmed"], Some (RpcError "DEADLINE_EXCEEDED")))
              (@do_summary by_payload "run-1") tt).1 in o = Ok tt.
Proof.
  refine (proj2 (proj1 (@summary_exit_code by_payload done_run "run-1"
    [wired "run-1" 1 "pending"; wired "run-1" 2 "confirmed"] (Some (RpcError "DEADLINE_EXCEEDED")) _ _)) _).
  - right. by eexists.
  - repeat constructor.
  - repeat constructor.
Defined.

Definition tail_of_two : TailOptions := mkTailOptions "/tape/effect/**" "" "run-1" "" 0 0 (Some 1%Z) true.
Lemma tail_shows_witness :
  1 = length (take 1 (List.filter (passes tail_of_two) [wired "run-2" 1 "pending"; wired "run-1" 2 "pending"; wired "run-1" 3 "unknown"])).
Proof.
  refine (proj1 (@tail_shows by_payload tail_of_two [wired "run-2" 1 "pending"; wired "run-1" 2 "pending"; wired "run-1" 3 "unknown"]
    None (trace (serving done_run ([], None)) (tail_loop (H:=by_payload) tail_of_two
      [wired "run-2" 1 "pending"; wired "run-1" 2 "pending"; wired "run-1" 3 "unknown"] None (0, None)) tt) 1 None _ _ _)).
  - refine (eq_rect _ (exec _ _) (run_exec (serving done_run ([], None)) _ tt) _ _). vm_compute. reflexivity.
  - intros l [= <-]. lia.
  - reflexivity.
Defined.

(** An effect that was UNKNOWN and has since been reconciled keeps the run non-clean: the
    summary counts entries of the journal, not effects. *)
Lemma reconciled_run_is_not_clean :
  (run (serving done_run ([wired "run-1" 1 "pending"; wired "run-1" 2 "unknown"; wired "run-1" 3 "confirmed"], None))
     (@do_summary by_payload "run-1") tt).1 = Err (Exit 1).
Proof. vm_compute. reflexivity. Qed.
(** [--limit 0] shows one entry, also in the tail. *)
Lemma tail_limit_zero_shows_one :
  (run (serving done_run ([], None)) (tail_loop (H:=by_payload) (mkTailOptions "" "" "" "" 0 0 (Some 0%Z) true)
     [wired "run-1" 1 "pending"; wired "run-1" 2 "pending"] None (0, None)) tt).1 = Ok (1, None).
Proof. vm_compute. reflexivity. Qed.
(** [--limit 0] drains one entry. *)
Lemma limit_zero_takes_one :
  (run (serving done_run ([wired "run-1" 1 "pending"; wired "run-1" 2 "pending"], None))
     (drain "run-1" 0 (Some 0%Z)) tt).1 = Ok [wired "run-1" 1 "pending"].
Proof. vm_compute. reflexivity. Qed.
(** With a subject, [--kind] is not looked at. *)
Lemma kind_ignored_on_the_bus st :
  tail_step (H:=by_payload) (mkTailOptions "/tape/**" "gate" "" "" 0 0 None true) (wired "run-1" 1 "pending") st =
  tail_step (H:=by_payload) (mkTailOptions "/tape/**" "" "" "" 0 0 None true) (wired "run-1" 1 "pending") st.
Proof. reflexivity. Qed.
