(* ===== verification/CliDeploy.v ===== *)
(** * CliDeploy: infrastructure and deployment, [tape_cli/iac.py], [commands/provision.py], [deploy.py], [dev.py]

    The Terraform root module and its variables as lines of text, the service specs of a
    release, the overrides of the command line, and the processes [tape dev] starts.

    Every variable the root module refers to is declared and has a value, every module it
    refers to is declared when the server runs on Cloud Run, and a release holds one
    service per enabled reactor. *)
From Stdlib Require Import Ascii.
From S2P Require Import Prelude Scenarios Program Client Recover Identity JournalSnapshots CliText.
From S2P Require Import CliConfig.
#[local] Open Scope Z_scope.
#[local] Open Scope nat_scope.

(** ** [iac.py]: the root module *)
Definition store_module (k : StoreKind) : option string :=
  match k with
  | Alloydb => Some "alloydb" | Postgres => Some "postgres-cloudsql" | Spanner => Some "spanner"
  | Bigtable => Some "bigtable" | Sqlite => None
  end.

Definition tf_providers : list string :=
  ["provider 'google' {"; "  project = var.project_id"; "  region  = var.region"; "}";
   "provider 'google-beta' {"; "  project = var.project_id"; "  region  = var.region"; "}"; ""].
Definition tf_artifact_registry : list string :=
  ["module 'artifact_registry' {"; "  source     = './modules/artifact-registry'"; "  project_id = var.project_id";
   "  region     = var.region"; "  repository = var.artifact_registry_repository"; "}"; ""].
Definition tf_iam : list string :=
  ["module 'iam' {"; "  source                  = './modules/iam'"; "  project_id              = var.project_id";
   "  service_account_prefix  = var.service_account_prefix"; "}"; ""].
Definition tf_secrets : list string :=
  ["module 'secrets' {"; "  source     = './modules/secret-manager'"; "  project_id = var.project_id";
   "  region     = var.region"; "  secrets    = var.secrets"; "}"; ""].
Definition tf_store (k : StoreKind) : list string :=
  match store_module k with
  | Some m =>
    ["module 'store' {"; "  source     = './modules/" +:+ m +:+ "'"; "  project_id = var.project_id";
     "  region     = var.region"; "  instance_name = var.store_instance_name";
     "  database_name = var.store_database_name"; "}"; ""]
  | None => []
  end.
Definition tf_events (k : EventsKind) : list string :=
  if decide (k = Pubsub) then
    ["module 'events' {"; "  source        = './modules/pubsub'"; "  project_id    = var.project_id";
     "  topic         = var.events_topic"; "  outbox_topic  = var.events_outbox_topic";
     "  dlq_topic     = var.events_dlq_topic"; "}"; ""]
  else [].
(** [json.dumps] of a list of plain names *)
Definition names_json (names : list string) : string :=
  "[" +:+ join ", " (map (fun n => "'" +:+ n +:+ "'") names) +:+ "]".
Definition tf_server (names : list string) (t : ServerTarget) : list string :=
  match t with
  | OnCloudRun =>
    ["module 'tape_server' {"; "  source                 = './modules/tape-cloud-run'";
     "  project_id             = var.project_id"; "  region                 = var.region";
     "  image                  = var.tape_server_image";
     "  service_account_email  = module.iam.tape_server_sa_email";
     "  store_url_secret       = var.store_url_secret";
     "  min_instances          = var.tape_server_min_instances";
     "  max_instances          = var.tape_server_max_instances";
     "  cpu                    = var.tape_server_cpu"; "  memory                 = var.tape_server_memory";
     "  ingress                = var.tape_server_ingress"; "  vpc_connector          = var.vpc_connector"; "}"; "";
     "module 'tape_reactors' {"; "  source                 = './modules/tape-reactors-cloud-run'";
     "  project_id             = var.project_id"; "  region                 = var.region";
     "  tape_server_url        = module.tape_server.url";
     "  service_account_email  = module.iam.tape_reactor_sa_email";
     "  image                  = var.tape_reactor_image"; "  runner_factory         = var.tape_reactor_runner_factory";
     "  reactors               = " +:+ names_json names; "}"; ""]
  | OnGke =>
    ["module 'tape_gke' {"; "  source     = './modules/tape-gke'"; "  project_id = var.project_id";
     "  region     = var.region"; "  cluster    = var.gke_cluster"; "}"; ""]
  | OnLocal => []
  end.
Definition tf_tail : list string :=
  ["module 'observability' {"; "  source     = './modules/observability'"; "  project_id = var.project_id";
   "  region     = var.region"; "  service_name = 'tape-server'"; "}"; "";
   "output 'tape_server_url' {"; "  value       = try(module.tape_server.url, '')";
   "  description = 'The Cloud Run URL of the Tape server (empty for non-Cloud Run targets).'"; "}"].

(** The lines of [main.tf], written with single quotes for the double quotes of the file. *)
Definition main_tf_lines (p : TapeProject) : list string :=
  tf_providers ++ tf_artifact_registry ++ tf_iam ++ tf_secrets ++ tf_store p.(tape).(tp_store).(st_kind) ++
  tf_events p.(tape).(tp_events).(ev_kind) ++
  tf_server (enabled_names p.(tape).(tp_reactors)) p.(tape).(tp_server).(sv_target) ++ tf_tail.

(** ["\n".join(lines) + "\n"] *)
Definition file_text (lines : list string) : string :=
  double_quoted (join (String newline "") lines +:+ String newline "").
Definition render_main_tf (p : TapeProject) : string := file_text (main_tf_lines p).

(** The variables: name, type, and default if there is one. *)
Definition tf_variables : list (string * string * option string) :=
  [("project_id", "string", None); ("region", "string", Some "'us-central1'");
   ("artifact_registry_repository", "string", Some "'tape'"); ("service_account_prefix", "string", Some "'tape'");
   ("secrets", "map(string)", Some "{}"); ("store_instance_name", "string", Some "'tape'");
   ("store_database_name", "string", Some "'tape'"); ("store_url_secret", "string", Some "'TAPE_STORE_URL'");
   ("events_topic", "string", Some "'tape-events'"); ("events_outbox_topic", "string", Some "'tape-outbox'");
   ("events_dlq_topic", "string", Some "'tape-dlq'"); ("tape_server_image", "string", None);
   ("tape_reactor_image", "string", None); ("tape_reactor_runner_factory", "string", Some "'app.agent:build_runner'");
   ("tape_server_min_instances", "number", Some "0"); ("tape_server_max_instances", "number", Some "10");
   ("tape_server_cpu", "string", Some "'1'"); ("tape_server_memory", "string", Some "'512Mi'");
   ("tape_server_ingress", "string", Some "'internal'"); ("vpc_connector", "string", Some "''");
   ("gke_cluster", "string", Some "''")].
Definition variable_block (v : string * string * option string) : list string :=
  ["variable '" +:+ v.1.1 +:+ "' {"; "  type    = " +:+ v.1.2] ++
  (match v.2 with Some d => ["  default = " +:+ d] | None => [] end) ++ ["}"].
Definition render_variables_tf : string := file_text (concat (map variable_block tf_variables)).

(** [x or d] of an optional text *)
Definition text_or (s : option string) (d : string) : string := str_or (default "" s) d.
Definition default_reactor_image (p : TapeProject) : string :=
  p.(gcp).(gc_region) +:+ "-docker.pkg.dev/" +:+ str_or p.(gcp).(gc_project_id) "PROJECT" +:+ "/" +:+
  p.(gcp).(gc_repository) +:+ "/" +:+ p.(project).(pj_name) +:+ "-reactor:latest".
Definition render_tfvars (p : TapeProject) : list (string * json) :=
  let sv := p.(tape).(tp_server) in
  let ev := p.(tape).(tp_events) in
  [("project_id", JStr (str_or p.(gcp).(gc_project_id) "<set GOOGLE_CLOUD_PROJECT>"));
   ("region", JStr p.(gcp).(gc_region)); ("artifact_registry_repository", JStr p.(gcp).(gc_repository));
   ("service_account_prefix", JStr p.(gcp).(gc_sa_prefix)); ("store_instance_name", JStr p.(project).(pj_name));
   ("store_database_name", JStr p.(project).(pj_name));
   ("store_url_secret", JStr (text_or p.(tape).(tp_store).(st_url_secret) "TAPE_STORE_URL"));
   ("events_topic", JStr ev.(ev_topic)); ("events_outbox_topic", JStr (text_or ev.(ev_outbox_topic) (ev.(ev_topic) +:+ "-outbox")));
   ("events_dlq_topic", JStr (text_or ev.(ev_dlq_topic) (ev.(ev_topic) +:+ "-dlq")));
   ("tape_server_image", JStr sv.(sv_image)); ("tape_reactor_image", JStr (default_reactor_image p));
   ("tape_reactor_runner_factory", JStr (text_or p.(agent).(ag_runner_factory) "app.agent:build_runner"));
   ("tape_server_min_instances", JInt sv.(sv_min_instances)); ("tape_server_max_instances", JInt sv.(sv_max_instances));
   ("tape_server_cpu", JStr sv.(sv_cpu)); ("tape_server_memory", JStr sv.(sv_memory));
   ("tape_server_ingress", JStr sv.(sv_ingress)); ("vpc_connector", JStr (default "" p.(gcp).(gc_vpc_connector)))].

(** [apply]: the tool found, then init, then plan or apply; the first failure ends it. *)
Definition tf_tool (which : string -> option string) : option string :=
  match str_or_none (which "tofu") with Some t => Some t | None => str_or_none (which "terraform") end.
Definition iac_apply (which : string -> option string) (dry_run : bool) : Cmd Z :=
  match tf_tool which with
  | None => _ ← fail_line "Neither `tofu` nor `terraform` is installed."
                  "https://opentofu.org/docs/intro/install/ or https://developer.hashicorp.com/terraform/install"; mret 2%Z
  | Some tool =>
    _ ← say ("Using " +:+ tool);
    rc ← (invoke (RunCmd [tool; "init"; "-input=false"]) : Cmd (Z * string));
    if (rc.1 =? 0)%Z then
      r ← (invoke (RunCmd (if dry_run then [tool; "plan"; "-input=false"; "-var-file=terraform.tfvars.json"]
                           else [tool; "apply"; "-input=false"; "-auto-approve"; "-var-file=terraform.tfvars.json"])) : Cmd (Z * string));
      mret r.1
    else mret rc.1
  end.

(** ** [provision]: the overrides and the run *)
(** [target.replace("-", "_")] as the two literals it is stored in, unchecked. *)
Definition set_store_kind (k : StoreKind) (p : TapeProject) : TapeProject :=
  let t := p.(tape) in
  mkTapeProject p.(project) p.(agent)
    (mkTapeSection t.(tp_url) t.(tp_server) (mkStoreSection k t.(tp_store).(st_url_secret) t.(tp_store).(st_url)) t.(tp_events) t.(tp_reactors))
    p.(embedded) p.(gcp) p.(tenancy).
Definition set_reactors (r : ReactorsSection) (p : TapeProject) : TapeProject :=
  let t := p.(tape) in
  mkTapeProject p.(project) p.(agent) (mkTapeSection t.(tp_url) t.(tp_server) t.(tp_store) t.(tp_events) r) p.(embedded) p.(gcp) p.(tenancy).
Definition provision_code (which : string -> option string) (apply_now dry_run : bool) : Cmd Z :=
  if apply_now || negb dry_run then iac_apply which false
  else rc ← iac_apply which true; _ ← say "[dim]Re-run with `--apply` to apply.[/dim]"; mret rc.

(** ** [deploy gcp] *)
(** [--reactors]: the comma-separated names, and the reactors they leave enabled. *)
Definition reactor_subset (s : string) : list string :=
  List.filter (fun n => negb (bool_decide (n = ""))) (map strip (split_on "," s)).
Definition enable (names : list string) (name : string) (s : ReactorSpec) : ReactorSpec :=
  mkReactorSpec (bool_decide (name ∈ names)) s.(rs_min_instances) s.(rs_max_instances).
Definition select_reactors (option_ : option string) (r : ReactorsSection) : ReactorsSection :=
  match str_or_none option_ with
  | None => r
  | Some s =>
    let names := reactor_subset s in
    mkReactorsSection (enable names "recovery" r.(rx_recovery)) (enable names "reconciler" r.(rx_reconciler))
      (enable names "outbox" r.(rx_outbox)) (enable names "timers" r.(rx_timers)) (enable names "compensation" r.(rx_compensation))
  end.
(** [_find_server_source_root] *)
Definition find_server_source_root (exists_file : string -> bool) (dirs : list string) : option string :=
  head (List.filter (fun d => exists_file (d +:+ "/tape/server/Cargo.toml")) dirs).

Definition image_of (p : TapeProject) (name tag : string) : string :=
  p.(gcp).(gc_region) +:+ "-docker.pkg.dev/" +:+ p.(gcp).(gc_project_id) +:+ "/" +:+ p.(gcp).(gc_repository) +:+ "/" +:+ name +:+ ":" +:+ tag.
Definition sa_of (p : TapeProject) (role : string) : string :=
  p.(gcp).(gc_sa_prefix) +:+ "-" +:+ role +:+ "@" +:+ p.(gcp).(gc_project_id) +:+ ".iam.gserviceaccount.com".
(** [{"name": .., "value": ..}] *)
Definition env_entry (name value : string) : json := JObj [("name", JStr name); ("value", JStr value)].
Definition server_env (p : TapeProject) : list json :=
  let st := p.(tape).(tp_store) in
  [env_entry "TAPE_LISTEN" "0.0.0.0:7878"; env_entry "RUST_LOG" "tape_server=info"] ++
  (if some_text st.(st_url_secret) then
     [JObj [("name", JStr "TAPE_STORE");
            ("valueFrom", JObj [("secretKeyRef", JObj [("name", JStr (default "" st.(st_url_secret))); ("key", JStr "latest")])])]]
   else if some_text st.(st_url) then [env_entry "TAPE_STORE" (default "" st.(st_url))] else []).
(** A Cloud Run service: its metadata, its template's annotations and its container. *)
Definition service_spec (metadata annotations : list (string * json)) (sa : string) (container : list (string * json)) : json :=
  JObj [("apiVersion", JStr "serving.knative.dev/v1"); ("kind", JStr "Service"); ("metadata", JObj metadata);
        ("spec", JObj [("template", JObj [("metadata", JObj [("annotations", JObj annotations)]);
           ("spec", JObj [("serviceAccountName", JStr sa); ("containers", JList [JObj container])])])])].
Definition render_cloud_run_server (p : TapeProject) (image : string) : json :=
  let sv := p.(tape).(tp_server) in
  service_spec
    [("name", JStr "tape-server"); ("annotations", JObj [("run.googleapis.com/ingress", JStr sv.(sv_ingress))])]
    [("run.googleapis.com/use-http2", JStr "true"); ("autoscaling.knative.dev/minScale", JStr (pretty sv.(sv_min_instances)));
     ("autoscaling.knative.dev/maxScale", JStr (pretty sv.(sv_max_instances)))]
    (sa_of p "server")
    [("name", JStr "tape-server"); ("image", JStr image);
     ("ports", JList [JObj [("name", JStr "h2c"); ("containerPort", JInt 7878)]]); ("env", JList (server_env p));
     ("resources", JObj [("limits", JObj [("cpu", JStr sv.(sv_cpu)); ("memory", JStr sv.(sv_memory))])])].
(** The reactor of a name, which must be one of the five. *)
Definition render_cloud_run_reactor (p : TapeProject) (image name url : string) : option json :=
  r ← reactor_of name p.(tape).(tp_reactors);
  Some (service_spec [("name", JStr ("tape-reactor-" +:+ name))]
    [("autoscaling.knative.dev/minScale", JStr (pretty r.(rs_min_instances)));
     ("autoscaling.knative.dev/maxScale", JStr (pretty r.(rs_max_instances)))]
    (sa_of p "reactor")
    [("name", JStr ("tape-reactor-" +:+ name)); ("image", JStr image);
     ("command", JList (map JStr ["python"; "-m"; "tape.reactors"; "--runner-from";
        text_or p.(agent).(ag_runner_factory) "app.agent:build_runner"; "--url"; url; "--only"; name]));
     ("env", JList [env_entry "TAPE_URL" url; env_entry "TAPE_REACTOR" name;
                    env_entry "GOOGLE_CLOUD_PROJECT" p.(gcp).(gc_project_id); env_entry "GOOGLE_CLOUD_LOCATION" p.(gcp).(gc_region)])]).

(** [_resolve_tape_server_url]: what gcloud says of the server, as a URL with identity, or a
    placeholder. *)
Definition resolve_tape_server_url (which : string -> option string) (p : TapeProject) : Cmd (string * bool) :=
  let placeholder := ("${TAPE_SERVER_URL}", false) in
  if some_text (which "gcloud") && negb (bool_decide (p.(gcp).(gc_project_id) = "")) then
    try_ (r ← (invoke (RunCmd ["gcloud"; "run"; "services"; "describe"; "tape-server"; "--region=" +:+ p.(gcp).(gc_region);
                               "--project=" +:+ p.(gcp).(gc_project_id); "--format=value(status.url)"]) : Cmd (Z * string));
          let url := strip r.2 in
          mret (if starts_with "https://" url then ("tapes://" +:+ drop_prefix "https://" url, true) else placeholder))
      (fun _ => mret placeholder)
  else mret placeholder.

(** The files a Cloud Run release consists of. *)
Definition release_files (p : TapeProject) (server_root : option string) (image_tag url : string) : list (string * option json) :=
  (match server_root with
   | Some _ => [("tape-server.service.yaml", Some (render_cloud_run_server p (image_of p "tape-server" image_tag)))]
   | None => []
   end) ++
  map (fun name => ("tape-reactor-" +:+ name +:+ ".service.yaml",
        render_cloud_run_reactor p (image_of p (p.(project).(pj_name) +:+ "-reactor") image_tag) name url))
    (enabled_names p.(tape).(tp_reactors)).
(** The images a GKE release names. *)
Definition gke_images (p : TapeProject) (image_tag : string) : string * string :=
  (image_of p "tape-server" image_tag, image_of p "tape-reactor" image_tag).

(** ** [tape dev]: which way of running, and what it starts *)
Inductive DevMode := DevEmbedded | DevDocker | DevNative | DevNoDocker.
Definition ends_with (suffix s : string) : bool :=
  bool_decide (String.substring (String.length s - String.length suffix) (String.length suffix) s = suffix).
Definition events_kind_name (k : EventsKind) : string :=
  match k with NoEvents => "none" | Pubsub => "pubsub" | PubsubEmulator => "pubsub_emulator" end.
Definition dev_mode (p : TapeProject) (store events : option string) (use_docker : option bool) (docker : option string) : DevMode :=
  if decide (p.(project).(pj_tier) = TAdk) then DevEmbedded
  else
    let eff_store := text_or store (store_kind_name p.(tape).(tp_store).(st_kind)) in
    let eff_events := text_or events (events_kind_name p.(tape).(tp_events).(ev_kind)) in
    let wanted := match use_docker with
      | Some b => b
      | None => some_text docker && (negb (bool_decide (eff_store = "sqlite")) || ends_with "-emulator" eff_events)
      end in
    if wanted then if some_text docker then DevDocker else DevNoDocker else DevNative.
(** The reactor loop the embedded tier starts. *)
Definition reactor_cmd (python : string) (e : EmbeddedSection) : list string :=
  [python; "-m"; "tape_adk"; "--db-url"; e.(em_db_url); "--tick-ms"; pretty e.(em_reactor_interval_ms)] ++
  (if some_text e.(em_connectors) then ["--connectors"; default "" e.(em_connectors)] else []).
(** The processes the native mode starts, in order. *)
Definition native_procs (python root binary : string) (port : Z) (p : TapeProject) : list (list string) :=
  let at_ := "127.0.0.1:" +:+ pretty port in
  [[binary; "--listen"; at_; "--store"; "sqlite:" +:+ root +:+ "/.tape/dev.db"]] ++
  (match enabled_names p.(tape).(tp_reactors) with
   | [] => []
   | _ => if some_text p.(agent).(ag_runner_factory) then
            [[python; "-m"; "tape.reactors"; "--runner-from"; default "" p.(agent).(ag_runner_factory); "--url"; "tape://" +:+ at_]]
          else []
   end).

(** ** References in a line *)
Definition ident_char (c : ascii) : bool :=
  let n := nat_of_ascii c in (97 <=? n) && (n <=? 122) || name_char c || (65 <=? n) && (n <=? 90).
Fixpoint ident_prefix (s : string) : string :=
  match s with
  | EmptyString => EmptyString
  | String c s => if ident_char c then String c (ident_prefix s) else EmptyString
  end.
(** The identifiers that follow [mark] in a line. *)
Fixpoint refs_after (mark s : string) : list string :=
  (if String.prefix mark s then [ident_prefix (drop_prefix mark s)] else []) ++
  match s with EmptyString => [] | String _ s' => refs_after mark s' end.
Definition var_refs : string -> list string := refs_after "var.".
Definition module_refs : string -> list string := refs_after "module.".
(** The modules a line declares. *)
Definition declared (s : string) : list string :=
  if starts_with "module '" s then [ident_prefix (drop_prefix "module '" s)] else [].

Definition var_names : list string := map (fun v => v.1.1) tf_variables.
Definition required_names : list string :=
  map (fun v => v.1.1) (List.filter (fun v => match v.2 with None => true | Some _ => false end) tf_variables).

Definition vars_declared (l : string) : bool := forallb (fun x => bool_decide (x ∈ var_names)) (var_refs l).
Definition modules_declared (ms : list string) (l : string) : bool :=
  forallb (fun x => bool_decide (x ∈ ms)) (module_refs l).

(** The line that lists the reactors refers to nothing. *)
Lemma reactors_line r :
  let l := "  reactors               = " +:+ names_json (enabled_names r) in
  vars_declared l = true /\ module_refs l = [] /\ declared l = [].
Proof.
  destruct r as [[e1 ? ?] [e2 ? ?] [e3 ? ?] [e4 ? ?] [e5 ? ?]]. unfold enabled_names. cbn [REACTOR_NAMES List.filter reactor_of].
  destruct e1, e2, e3, e4, e5; vm_compute; auto.
Qed.
Lemma Forall_of_forallb {A} (f : A -> bool) l : forallb f l = true -> Forall (fun x => f x = true) l.
Proof. rewrite forallb_forall, Forall_forall. intros H x Hx. by apply H, list_elem_of_In. Qed.

(** The two parts of the server's block around the reactors' line. *)
Lemma tf_server_lines (P : string -> Prop) r t :
  Forall P (tf_server [] t) -> P ("  reactors               = " +:+ names_json (enabled_names r)) ->
  Forall P (tf_server (enabled_names r) t).
Proof.
  destruct t; [|done..]. intros Hall Hr. unfold tf_server in *.
  repeat (apply Forall_cons in Hall as [Hx Hall]; apply Forall_cons; split; [exact Hx || exact Hr|]; try clear Hx).
  constructor.
Qed.

(** C20: The generated root module is closed under its variables: for every project, every
    variable a line of main.tf refers to is declared in variables.tf, every value of the
    tfvars file is for a declared variable, no two for the same, and every variable
    without a default is given one. *)
Theorem root_module_closed p :
  Forall (fun l => vars_declared l = true) (main_tf_lines p) /\
  (render_tfvars p).*1 ⊆ var_names /\ NoDup (render_tfvars p).*1 /\ NoDup var_names /\
  required_names ⊆ (render_tfvars p).*1.
Proof.
  split; [|split; [|split; [|split]]].
  - unfold main_tf_lines. rewrite !Forall_app. split_and!; try (apply Forall_of_forallb; vm_compute; reflexivity).
    + destruct p.(tape).(tp_store).(st_kind); apply Forall_of_forallb; vm_compute; reflexivity.
    + destruct p.(tape).(tp_events).(ev_kind); apply Forall_of_forallb; vm_compute; reflexivity.
    + apply tf_server_lines; [|apply reactors_line].
      destruct p.(tape).(tp_server).(sv_target); apply Forall_of_forallb; vm_compute; reflexivity.
  - cbn. set_solver.
  - apply (bool_decide_unpack _). vm_compute. exact I.
  - apply (bool_decide_unpack _). vm_compute. exact I.
  - cbn. set_solver.
Qed.

(** When the server runs on Cloud Run, every module an expression of main.tf refers to
    is one main.tf declares. *)
Theorem cloud_run_modules_declared p :
  p.(tape).(tp_server).(sv_target) = OnCloudRun ->
  Forall (fun l => modules_declared (concat (map declared (main_tf_lines p))) l = true) (main_tf_lines p).
Proof.
  intros Ht.
  assert (Hin : forall m, m ∈ ["iam"; "tape_server"] -> m ∈ concat (map declared (main_tf_lines p))).
  { intros m Hm. apply list_elem_of_In, in_concat. exists [m]. split; [|by left]. apply in_map_iff.
    exists ("module '" +:+ m +:+ "' {"). unfold main_tf_lines. rewrite Ht, !in_app_iff.
    apply elem_of_cons in Hm as [->|Hm]; [|apply list_elem_of_singleton in Hm as ->].
    - split; [vm_compute; reflexivity|]. do 2 right. left. by left.
    - split; [vm_compute; reflexivity|]. do 6 right. left. by left. }
  assert (Hmono : forall l, modules_declared ["iam"; "tape_server"] l = true ->
    modules_declared (concat (map declared (main_tf_lines p))) l = true).
  { intros l. unfold modules_declared. rewrite !forallb_forall. intros Hl x Hx. specialize (Hl x Hx).
    apply bool_decide_eq_true in Hl. apply bool_decide_eq_true. exact (Hin x Hl). }
  eapply Forall_impl; [|exact Hmono]. unfold main_tf_lines. rewrite Ht, !Forall_app.
  split_and!; try (apply Forall_of_forallb; vm_compute; reflexivity).
  - destruct p.(tape).(tp_store).(st_kind); apply Forall_of_forallb; vm_compute; reflexivity.
  - destruct p.(tape).(tp_events).(ev_kind); apply Forall_of_forallb; vm_compute; reflexivity.
  - apply tf_server_lines; [apply Forall_of_forallb; vm_compute; reflexivity|].
    unfold modules_declared. by rewrite (proj1 (proj2 (reactors_line _))).
Qed.

(** A project with every section left at its defaults. *)
Definition plain_project : TapeProject :=
  mkTapeProject (mkProjectSection "demo" "dev" TServer) (mkAgentSection "demo" "app/agent.py" None DCloudRun)
    default_tape None default_gcp default_tenancy.
Lemma cloud_run_modules_declared_witness :
  plain_project.(tape).(tp_server).(sv_target) = OnCloudRun /\
  modules_declared (concat (map declared (main_tf_lines plain_project))) "  tape_server_url        = module.tape_server.url" = true.
Proof.
  split; [reflexivity|]. pose proof (cloud_run_modules_declared plain_project eq_refl) as H.
  apply (proj1 (Forall_forall _ _) H). apply (bool_decide_unpack _). vm_compute. exact I.
Defined.

(** ** The other targets *)
(** A root module for another target still names the module of the Cloud Run server in its
    output, which it does not declare. *)
Lemma gke_output_names_a_missing_module p :
  p.(tape).(tp_server).(sv_target) = OnGke ->
  "  value       = try(module.tape_server.url, '')" ∈ main_tf_lines p /\
  "tape_server" ∉ concat (map declared (main_tf_lines p)).
Proof.
  intros Ht. unfold main_tf_lines. rewrite Ht. split.
  - rewrite !elem_of_app. do 7 right. apply (bool_decide_unpack _). vm_compute. exact I.
  - destruct p.(tape).(tp_store).(st_kind), p.(tape).(tp_events).(ev_kind);
      apply (bool_decide_unpack _); vm_compute; exact I.
Qed.

(** ** The release *)
Lemma reactor_of_known name r s : reactor_of name r = Some s -> name ∈ REACTOR_NAMES.
Proof.
  unfold reactor_of. cbn. intros H.
  repeat (case_decide; [subst; apply (bool_decide_unpack _); vm_compute; exact I|]). discriminate.
Qed.
Lemma reactor_of_some name r : name ∈ REACTOR_NAMES -> is_Some (reactor_of name r).
Proof.
  unfold REACTOR_NAMES. intros H. repeat (apply elem_of_cons in H as [->|H]; [vm_compute; eauto|]).
  by apply not_elem_of_nil in H.
Qed.
Lemma enabled_names_spec r name :
  name ∈ enabled_names r <-> exists s, reactor_of name r = Some s /\ s.(rs_enabled) = true.
Proof.
  unfold enabled_names. rewrite list_elem_of_In, filter_In. split.
  - intros [_ H]. destruct (reactor_of name r) as [s|]; [eauto|discriminate].
  - intros (s & H & Hs). rewrite H. split; [|done]. apply list_elem_of_In. by eapply reactor_of_known.
Qed.
Lemma enabled_names_NoDup r : NoDup (enabled_names r).
Proof.
  apply NoDup_ListNoDup, List.NoDup_filter, NoDup_ListNoDup. apply (bool_decide_unpack _). vm_compute. exact I.
Qed.
Lemma select_reactors_spec opt r name :
  name ∈ enabled_names (select_reactors opt r) <->
  match str_or_none opt with
  | None => name ∈ enabled_names r
  | Some s => name ∈ REACTOR_NAMES /\ name ∈ reactor_subset s
  end.
Proof.
  unfold select_reactors. destruct (str_or_none opt) as [s|]; [|done].
  rewrite enabled_names_spec. split.
  - intros (x & H & Hx). split; [by eapply reactor_of_known|]. unfold reactor_of in H. cbn in H.
    repeat (case_decide; [subst; injection H as H; subst x; by apply bool_decide_eq_true in Hx|]). discriminate.
  - intros [Hk Hs]. unfold REACTOR_NAMES in Hk.
    repeat (apply elem_of_cons in Hk as [->|Hk]; [eexists; split; [reflexivity|]; by apply bool_decide_eq_true|]).
    by apply not_elem_of_nil in Hk.
Qed.

(** The file of a reactor's service. *)
Definition reactor_file (name : string) : string := "tape-reactor-" +:+ name +:+ ".service.yaml".
Lemma reactor_files_differ a b : a ∈ REACTOR_NAMES -> b ∈ REACTOR_NAMES -> reactor_file a = reactor_file b -> a = b.
Proof.
  unfold REACTOR_NAMES. intros Ha Hb.
  repeat (apply elem_of_cons in Ha as [->|Ha];
    [repeat (apply elem_of_cons in Hb as [->|Hb]; [vm_compute; congruence|]); by apply not_elem_of_nil in Hb|]).
  by apply not_elem_of_nil in Ha.
Qed.

Lemma reactor_rendered p image name url : name ∈ REACTOR_NAMES -> is_Some (render_cloud_run_reactor p image name url).
Proof.
  intros H. destruct (reactor_of_some name p.(tape).(tp_reactors) H) as [s Hs].
  unfold render_cloud_run_reactor. rewrite Hs. eexists. reflexivity.
Qed.

(** A Cloud Run release consists of the server's service, when its source is at hand,
    and of one service per reactor: with [--reactors] given these are exactly the reactors
    listed among the five, without it exactly the enabled ones. Every file is rendered and
    no two have the same name. *)
Theorem release_is_the_selection p opt root tag url :
  let q := set_reactors (select_reactors opt p.(tape).(tp_reactors)) p in
  let files := release_files q root tag url in
  NoDup files.*1 /\
  Forall (fun f => is_Some f.2) files /\
  ("tape-server.service.yaml" ∈ files.*1 <-> is_Some root) /\
  forall name, name ∈ REACTOR_NAMES ->
    (reactor_file name ∈ files.*1 <->
     match str_or_none opt with
     | None => name ∈ enabled_names p.(tape).(tp_reactors)
     | Some s => name ∈ reactor_subset s
     end).
Proof.
  intros q files.
  assert (Hnames : files.*1 = match root with Some _ => ["tape-server.service.yaml"] | None => [] end ++
                              map reactor_file (enabled_names (select_reactors opt p.(tape).(tp_reactors)))).
  { unfold files, release_files. rewrite fmap_app. f_equal; [by destruct root|]. rewrite (map_map _ fst). done. }
  assert (Hserver : forall l, "tape-server.service.yaml" ∉ map reactor_file l).
  { intros l H. apply list_elem_of_In, in_map_iff in H as (x & H & _). discriminate H. }
  assert (Hknown : forall x, x ∈ enabled_names (select_reactors opt p.(tape).(tp_reactors)) -> x ∈ REACTOR_NAMES).
  { intros x (s & Hs & _)%enabled_names_spec. by eapply reactor_of_known. }
  rewrite !Hnames. split_and!.
  - apply NoDup_app. split_and!.
    + destruct root; [apply NoDup_singleton|constructor].
    + intros x Hx. destruct root; [|by apply not_elem_of_nil in Hx].
      apply list_elem_of_singleton in Hx as ->. apply Hserver.
    + apply NoDup_fmap_2_strong; [|apply enabled_names_NoDup].
      intros a b Ha Hb. apply reactor_files_differ; auto.
  - unfold files, release_files. apply Forall_app. split; [destruct root; repeat constructor; eauto|].
    apply List.Forall_map, Forall_forall. intros x Hx. apply reactor_rendered. by apply Hknown.
  - rewrite elem_of_app. destruct root as [r|]; cbn.
    + split; [eauto|]. intros _. left. by left.
    + split; [|by intros [? ?]]. intros [H|H]; [by apply not_elem_of_nil in H|by apply Hserver in H].
  - intros name Hk. rewrite elem_of_app.
    assert (Hmap : reactor_file name ∈ map reactor_file (enabled_names (select_reactors opt p.(tape).(tp_reactors))) <->
                   name ∈ enabled_names (select_reactors opt p.(tape).(tp_reactors))).
    { rewrite !list_elem_of_In, in_map_iff. split; [|eauto]. intros (x & Hf & Hx).
      apply reactor_files_differ in Hf; [by subst| |done]. apply Hknown. by apply list_elem_of_In. }
    assert (Hno : reactor_file name ∉ match root with Some _ => ["tape-server.service.yaml"] | None => [] end).
    { destruct root; [|apply not_elem_of_nil]. intros H%list_elem_of_singleton. discriminate H. }
    rewrite Hmap, select_reactors_spec. destruct (str_or_none opt); tauto.
Qed.

(** ** What [--reactors] and [tape dev] make of a name they do not know *)
(** A misspelt reactor leaves every reactor off, without a word. *)
Lemma misspelt_reactor_disables_all r : enabled_names (select_reactors (Some "recover") r) = [].
Proof. vm_compute. reflexivity. Qed.

(** The kind tape.yaml writes for the emulator is not the suffix [tape dev] looks for, so
    the compose file that starts the emulator is not used. *)
Definition emulator_project : TapeProject :=
  mkTapeProject (mkProjectSection "demo" "dev" TServer) (mkAgentSection "demo" "app/agent.py" None DCloudRun)
    (mkTapeSection "tape://localhost:7878" default_server default_store
       (mkEventsSection PubsubEmulator "tape-events" None None) default_reactors)
    None default_gcp default_tenancy.
Lemma emulator_runs_natively : dev_mode emulator_project None None None (Some "/usr/bin/docker") = DevNative.
Proof. vm_compute. reflexivity. Qed.
Lemma emulator_flag_runs_in_docker : dev_mode emulator_project None (Some "pubsub-emulator") None (Some "/usr/bin/docker") = DevDocker.
Proof. vm_compute. reflexivity. Qed.


(** ** [provision]: what it runs *)
(** The processes of a trace, with what they ended with. *)
Definition ran (t : list (event cli_answer)) : list (list string * result (Z * string)) :=
  omap (fun e : event cli_answer =>
    match e with
    | Ev c a => match c return result (cli_answer c) -> option (list string * result (Z * string)) with
                | RunCmd argv => fun a => Some (argv, a)
                | _ => fun _ => None
                end a
    end) t.
Definition tf_init (tool : string) : list string := [tool; "init"; "-input=false"].
Definition tf_apply (tool : string) : list string :=
  [tool; "apply"; "-input=false"; "-auto-approve"; "-var-file=terraform.tfvars.json"].

(** C22: Provisioning changes the infrastructure only when asked: apply runs only with
    [--apply] or [--no-dry-run], only after an init that ended with 0, and last, however
    the command ends.  Asked, and not stopped by an exception, it runs init and then apply,
    or init alone when that failed; its exit code is that of the last process it ran, and
    2, without running any, when there is no tool. *)
Theorem provision_runs_what_was_asked which apply_now dry_run t (o : result Z) :
  exec (provision_code which apply_now dry_run) t o ->
  (forall argv r, (argv, r) ∈ ran t -> argv !! 1 = Some "apply" ->
    (apply_now = true \/ dry_run = false) /\
    exists tool out, tf_tool which = Some tool /\ argv = tf_apply tool /\
      ran t = [(tf_init tool, Ok (0%Z, out)); (argv, r)]) /\
  (apply_now = true \/ dry_run = false -> forall rc, o = Ok rc ->
    match tf_tool which with
    | None => ran t = [] /\ rc = 2%Z
    | Some tool =>
      (exists out, ran t = [(tf_init tool, Ok (rc, out))] /\ rc <> 0%Z) \/
      (exists out out', ran t = [(tf_init tool, Ok (0%Z, out)); (tf_apply tool, Ok (rc, out'))])
    end).
Proof.
  revert t o. apply (forall_exec _ (fun t o => _ /\ _)). unfold provision_code, iac_apply.
  destruct (tf_tool which) as [tool|], (apply_now || negb dry_run) eqn:Hask; cbn;
    repeat (first [intros [[rc ?]|]|intros [[]|]]; cbn; try (case_eq (rc =? 0)%Z; intros Hrc; cbn)).
  all: rewrite ?Z.eqb_eq, ?Z.eqb_neq in *; subst.
  all: assert (Hasked : apply_now || negb dry_run = true <-> apply_now = true \/ dry_run = false)
    by (clear; destruct apply_now, dry_run; cbn; naive_solver).
  all: split; [intros argv r Hin Ha; repeat (apply elem_of_cons in Hin as [[= -> ->]|Hin]; [try discriminate Ha|]);
                 try (by apply elem_of_nil in Hin); (split; [tauto|]; do 2 eexists; by split_and!)
              |intros Hreq rc' Ho; simplify_eq].
  all: try (by apply Hasked in Hreq; congruence).
  all: first [done|right; do 2 eexists; reflexivity|left; eexists; split; [reflexivity|assumption]].
Qed.
(** A tool that initialises and then applies with an exit code of its own. *)
Definition terraform (c : cli_call) : M unit (cli_answer c) := fun w =>
  (match c return result (cli_answer c) with
   | RunCmd (_ :: "apply" :: _) => Ok (7%Z, "1 to add")
   | RunCmd _ => Ok (0%Z, "")
   | PrintText _ => Ok tt
   | _ => Err (RpcError "UNAVAILABLE")
   end, w).
Definition with_tofu (name : string) : option string := if decide (name = "tofu") then Some "/usr/bin/tofu" else None.
Lemma provision_runs_what_was_asked_witness : exists t,
  exec (provision_code with_tofu true true) t (Ok 7%Z) /\
  ((exists out, ran t = [(tf_init "/usr/bin/tofu", Ok (7%Z, out))] /\ 7%Z <> 0%Z) \/
   exists out out', ran t = [(tf_init "/usr/bin/tofu", Ok (0%Z, out)); (tf_apply "/usr/bin/tofu", Ok (7%Z, out'))]).
Proof.
  exists (trace terraform (provision_code with_tofu true true) tt).
  assert (exec (provision_code with_tofu true true) (trace terraform (provision_code with_tofu true true) tt) (Ok 7%Z)) as He.
  { refine (eq_rect _ (exec _ _) (run_exec terraform _ tt) _ _). vm_compute. reflexivity. }
  split; [exact He|].
  exact (proj2 (provision_runs_what_was_asked with_tofu true true _ _ He) (or_introl eq_refl) 7%Z eq_refl).
Defined.
