(* ===== verification/CliManage.v ===== *)
(** * CliManage: scaffolding and the operational commands

    [tape_cli/util.py]'s template tree, [commands/init.py], [enhance.py], [logs.py],
    [destroy.py], [migrate.py] and [status.py].

    Which files a scaffold writes, that a dry run agrees with it, that nothing is torn down
    without consent, and which project names are accepted. *)
From Stdlib Require Import Ascii QArith.
From S2P Require Import Prelude Scenarios ScenarioTheorems Lineage Program Client Recover Identity JournalSnapshots.
From S2P Require Import CliText CliConfig CliDeploy.
#[local] Open Scope Z_scope.
#[local] Open Scope nat_scope.

(** ** Templates *)
(** A template: the parts of its path below the root, and its text. *)
Definition Template : Type := list string * string.

Section templates.
(** The template engine with the context of the command: an undefined variable raises. *)
Variable render : string -> result string.

(** The name without its [.j2]; a bare [.j2] leaves no name. *)
Definition without_j2 (path : string) : result string :=
  if bool_decide (path = ".j2") || ends_with "/.j2" path then Err (Raised "ValueError" "Invalid name ''")
  else Ok (if ends_with ".j2" path then String.substring 0 (String.length path - 3) path else path).
(** Where a template goes and what it becomes. *)
Definition render_template (dst_root : string) (t : Template) : result (string * string) :=
  parts ← map_result render t.1;
  rel ← without_j2 (join "/" parts);
  text ← render t.2;
  mret (dst_root +:+ "/" +:+ rel, text).
(** [render_tree]: whatever is at the destination is written over. *)
Definition render_tree (dry_run : bool) (dst_root : string) (ts : list Template) : Cmd (list string) :=
  each ts (fun t =>
    f ← lift (render_template dst_root t);
    if dry_run then mret f.1 else (_ ← (invoke (WriteText f.1 f.2) : Cmd unit); mret f.1)).
End templates.

(** ** [tape init] *)
Definition is_lower (c : ascii) : bool := let n := nat_of_ascii c in (97 <=? n) && (n <=? 122).
Definition project_char (c : ascii) : bool :=
  is_lower c || is_digit c || bool_decide (c = "_"%char) || bool_decide (c = "-"%char).
(** [[a-z0-9_-]{0,max}$]: [$] also matches before a final newline. *)
Fixpoint project_rest (max : nat) (s : string) {struct s} : bool :=
  match s with
  | EmptyString => true
  | String c s' =>
    bool_decide (s = String newline "") ||
    match max with O => false | S max => project_char c && project_rest max s' end
  end.
Definition project_name_ok (name : string) : bool :=
  match name with EmptyString => false | String c s => is_lower c && project_rest 40 s end.
Definition init (render : string -> result string) (cwd name tier : string) (here occupied force : bool)
    (adk server : list Template) : Cmd unit :=
  if negb (project_name_ok name) then
    _ ← fail_line ("invalid project name '" +:+ name +:+ "'") "use lowercase letters, digits, '-' or '_'; start with a letter.";
    Throw (Exit 2)
  else if negb (bool_decide (tier = "adk")) && negb (bool_decide (tier = "server")) then
    _ ← fail_line ("invalid --tier '" +:+ tier +:+ "'") "use 'adk' or 'server'."; Throw (Exit 2)
  else
    let dst := if here then cwd else cwd +:+ "/" +:+ name in
    if occupied && negb force then
      _ ← fail_line (dst +:+ " already exists and is not empty.") "re-run with `--force` to overwrite, or pick a new name.";
      Throw (Exit 2)
    else
      written ← render_tree render false dst (if decide (tier = "adk") then adk else server);
      ok_line ("scaffolded " +:+ dst +:+ " (" +:+ pretty (Z.of_nat (length written)) +:+ " files) — [bold]" +:+ tier +:+ "[/bold] tier").

(** ** [tape enhance] *)
(** The texts of the project's Python files, those that could not be read left out. *)
Definition detect_adk (texts : list (result string)) : bool :=
  existsb (fun t => match t with Ok s => contains "from google.adk" s || contains "import google.adk" s | Err _ => false end) texts.
Definition detect_agents_cli (agents_yaml : bool) (pyproject : option string) : bool :=
  agents_yaml || match pyproject with Some s => contains "[tool.agents" s | None => false end.
Definition enhance_items : list (string * string) :=
  [("tape.yaml", "config"); ("docker-compose.tape.yaml", "local-dev overlay");
   ("app/tape_runtime.py", "non-invasive durable_app helper"); ("deploy/gcp/README.md", "GCP deploy notes");
   (".env.example", "environment example")].
(** [confirmed] is the answer to the prompt. *)
Definition enhance (render : string -> result string) (root : string) (exists_ adk agents_cli has_tape_yaml yes confirmed : bool)
    (ts : list Template) : Cmd unit :=
  if negb exists_ then _ ← fail_line ("path " +:+ root +:+ " does not exist.") ""; Throw (Exit 2)
  else
    _ ← (if adk then ok_line "detected ADK imports (`from google.adk import ...`)"
         else warn "could not detect ADK in this project — proceeding anyway.");
    _ ← (if agents_cli then ok_line "detected an `agents-cli`-style scaffold; Tape will live alongside it." else mret tt);
    _ ← (if has_tape_yaml then warn "tape.yaml already exists — leaving it alone." else ok_line "will create tape.yaml");
    _ ← say (String newline "Patch summary:");
    _ ← each enhance_items (fun i => say ("  + " +:+ i.1 +:+ "  [dim](" +:+ i.2 +:+ ")[/dim]"));
    if negb yes && negb confirmed then _ ← say "aborted"; Throw (Exit 1)
    else
      written ← render_tree render false root ts;
      _ ← each written (fun w => ok_line ("wrote " +:+ drop_prefix (root +:+ "/") w));
      mret tt.

(** ** Commands that hand over to another program *)
(** [raise typer.Exit(rc)] with the status of the program *)
Definition exit_with (argv : list string) : Cmd unit :=
  r ← (invoke (RunCmd argv) : Cmd (Z * string)); Throw (Exit r.1).
Definition log_filter (service : option string) : string :=
  "resource.type=" +:+ double_quoted "'cloud_run_revision'" +:+ " AND " +:+
  (if some_text service then "resource.labels.service_name=" +:+ double_quoted ("'" +:+ default "" service +:+ "'")
   else "resource.labels.service_name=~" +:+ double_quoted "'^tape-'").
Definition logs_cmd (project_id : string) (follow : bool) (service : option string) (limit : Z) : list string :=
  if follow then ["gcloud"; "alpha"; "logging"; "tail"; log_filter service; "--project=" +:+ project_id]
  else ["gcloud"; "logging"; "read"; log_filter service; "--project=" +:+ project_id; "--limit=" +:+ pretty limit;
        "--format=value(timestamp,resource.labels.service_name,textPayload,jsonPayload.msg)"].
(** [loaded] is the project file found and loaded, or what that raised. *)
Definition logs (which : string -> option string) (loaded : result TapeProject) (follow : bool) (service : option string) (limit : Z) : Cmd unit :=
  if negb (some_text (which "gcloud")) then die "gcloud not installed."
  else
    p ← lift loaded;
    if decide (p.(gcp).(gc_project_id) = "") then die "gcp.project_id is unset."
    else
      let cmd := logs_cmd p.(gcp).(gc_project_id) follow service limit in
      _ ← say ("[dim]$ " +:+ join " " cmd +:+ "[/dim]"); exit_with cmd.

Definition destroy_cmd (tool : string) : list string :=
  [tool; "destroy"; "-input=false"; "-auto-approve"; "-var-file=terraform.tfvars.json"].
Definition destroy (which : string -> option string) (root : result string) (out : string) (dir_exists : string -> bool) (yes confirmed : bool) : Cmd unit :=
  root ← lift root;
  let tf_dir := root +:+ "/" +:+ out in
  if negb (dir_exists tf_dir) then die ("no Terraform directory at " +:+ tf_dir +:+ " — nothing to destroy.")
  else
    go ← (if yes then mret true else _ ← warn ("This will run `tofu destroy` in " +:+ tf_dir +:+ "."); mret confirmed : Cmd bool);
    if negb (go : bool) then Throw (Exit 1)
    else match tf_tool which with
         | None => die "Neither `tofu` nor `terraform` is installed."
         | Some tool => exit_with (destroy_cmd tool)
         end.

(** [die(msg, hint=...)]: [die] has no such argument. *)
Definition die_with_hint {A} : Cmd A := Throw TypeError.
Definition first_text (candidates : list (option string)) : option string :=
  head (omap str_or_none candidates).
Definition migrate (which : string -> option string) (env : list (string * string)) (loaded : result TapeProject)
    (store server_binary : option string) (dry_run : bool) : Cmd unit :=
  p ← lift loaded;
  match first_text [store; p.(tape).(tp_store).(st_url); dict_get "TAPE_STORE" env] with
  | None => die "no TAPE_STORE configured. Set --store or tape.store.url."
  | Some target =>
    match first_text [server_binary; which "tape-server"] with
    | None => die_with_hint
    | Some binary =>
      if dry_run then
        _ ← say ("[dry-run] would run: " +:+ binary +:+ " --migrate --store " +:+ target); Throw (Exit 0)
      else
        r ← (invoke (RunCmd [binary; "--migrate"; "--store"; target]) : Cmd (Z * string));
        if (r.1 =? 0)%Z then ok_line "migrations applied."
        else _ ← fail_line "migration failed." ""; Throw (Exit r.1)
    end
  end.

(** [tape status]: both tables, or one line when either call fails. *)
Definition run_row (r : RunState.t) : list Cell :=
  [plain (py_take 12 r.(RunState.run_id)); plain (pretty r.(RunState.status)); plain r.(RunState.lease_owner);
   plain (pretty r.(RunState.lease_expires_at_ms))].
Definition effect_row (e : EffectView.t) : list Cell :=
  [plain (py_take 24 e.(EffectView.idempotency_key)); plain e.(EffectView.tool_name);
   plain (pretty e.(EffectView.status)); plain (py_take 12 e.(EffectView.run_id))].
Definition status (show_exn : exn -> string) (sdk : bool) (loaded : result TapeProject) (limit : Z) : Cmd unit :=
  if negb sdk then die_with_hint
  else
    p ← lift loaded;
    let url := p.(tape).(tp_url) in
    _ ← say ("Connecting to " +:+ url);
    got ← try_ (_ ← (invoke (Connect url) : Cmd unit);
                finally_ (runs ← (invoke (RunsToRecover limit) : Cmd (list RunState.t));
                          pending ← (invoke (PendingEffects 0 true true limit) : Cmd (list EffectView.t));
                          mret (runs, pending))
                         (try_ (invoke CloseClient : Cmd unit) (fun _ => mret tt)))
               (fun ex => die ("failed to query Tape server: " +:+ show_exn ex));
    _ ← show_table (mkTable "Runs needing recovery" (map run_row got.1));
    show_table (mkTable "Effects (PENDING/UNKNOWN)" (map effect_row got.2)).

(** The files a trace wrote. *)
Definition files_written (t : list (event cli_answer)) : list (string * string) :=
  omap (fun e : event cli_answer =>
    match e with
    | Ev c a => match c return result (cli_answer c) -> option (string * string) with
                | WriteText p s => fun a => match a with Ok _ => Some (p, s) | Err _ => None end
                | _ => fun _ => None
                end a
    end) t.
Lemma files_written_app t t' : files_written (t ++ t') = files_written t ++ files_written t'.
Proof. apply omap_app. Qed.
Lemma ran_app t t' : ran (t ++ t') = ran t ++ ran t'.
Proof. apply omap_app. Qed.

(** A trace that neither wrote nor ran. *)
Definition quiet (t : list (event cli_answer)) : Prop := files_written t = [] /\ ran t = [].
#[export] Instance quiet_closed : Closed quiet.
Proof.
  split; [done|]. intros t t' [H1 H2] [H3 H4]. split; [rewrite files_written_app, H1|rewrite ran_app, H2]; assumption.
Qed.
Lemma say_quiet line : wp (say line) (fun t _ => quiet t).
Proof. apply (wp_invoke (R:=cli_answer) (PrintText line)). intros ?. by split. Qed.
Lemma fail_line_quiet msg hint : wp (fail_line msg hint) (fun t _ => quiet t).
Proof.
  apply wp_bind_closed; [apply _|apply say_quiet|]. intros _. case_decide; [by split|apply say_quiet].
Qed.
Lemma die_quiet {A} msg : wp (die (A:=A) msg) (fun t _ => quiet t).
Proof. apply wp_bind_closed; [apply _|apply say_quiet|]. intros _. by split. Qed.
#[local] Hint Resolve say_quiet fail_line_quiet die_quiet : core.

(** A quiet beginning changes neither list. *)
Lemma wp_after_quiet {A B} (p : Cmd A) (f : A -> Cmd B) (Q : list (string * string) -> list (list string * result (Z * string)) -> result B -> Prop) :
  wp p (fun t _ => quiet t) -> (forall e, Q [] [] (Err e)) ->
  (forall a, wp (f a) (fun t o => Q (files_written t) (ran t) o)) ->
  wp (p ≫= f) (fun t o => Q (files_written t) (ran t) o).
Proof.
  intros Hp He Hf. apply wp_bind. eapply wp_mono, Hp. intros t [a|e] [Hw Hr].
  - eapply wp_mono, Hf. intros t' o. by rewrite files_written_app, ran_app, Hw, Hr.
  - rewrite Hw, Hr. apply He.
Qed.

(** ** Templates *)
Section templates.
Variable render : string -> result string.

Definition tree_outcome (dry_run : bool) (dst : string) (ts : list Template)
    (files : list (string * string)) (o : result (list string)) : Prop :=
  match o with
  | Ok written => exists fs, map_result (render_template render dst) ts = Ok fs /\ written = fs.*1 /\
                             files = if dry_run then [] else fs
  | Err _ => exists done_ rest fs, ts = done_ ++ rest /\ map_result (render_template render dst) done_ = Ok fs /\
                             files = if dry_run then [] else fs
  end.
Lemma render_tree_outcome dry_run dst ts :
  wp (render_tree render dry_run dst ts) (fun t o => tree_outcome dry_run dst ts (files_written t) o /\ ran t = []).
Proof.
  induction ts as [|x ts IH]; unfold render_tree in *; cbn [each].
  { apply wp_ret. split; [|done]. exists []. by destruct dry_run. }
  apply wp_bind, wp_bind. destruct (render_template render dst x) as [f|e] eqn:Ex; cbn [lift wp].
  2:{ split; [|done]. exists [], (x :: ts), []. by destruct dry_run. }
  assert (Hrest : wp (ys ← each ts (fun t => f ← lift (render_template render dst t);
                        if dry_run then mret f.1 else (_ ← (invoke (WriteText f.1 f.2) : Cmd unit); mret f.1)); mret (f.1 :: ys))
                    (fun t o => tree_outcome dry_run dst (x :: ts) ((if dry_run then [] else [f]) ++ files_written t) o /\ ran t = [])).
  { apply wp_bind. eapply wp_mono, IH. intros t [ys|e] [Ho Hr]; cbn in Ho.
    - destruct Ho as (fs & Hfs & -> & Ht). apply wp_ret. rewrite app_nil_r. split; [|done].
      exists (f :: fs). cbn. rewrite Ex. cbn. rewrite Hfs, Ht. by destruct dry_run.
    - destruct Ho as (d & r & fs & -> & Hfs & Ht). split; [|done].
      exists (x :: d), r, (f :: fs). cbn. rewrite Ex. cbn. rewrite Hfs, Ht. by destruct dry_run. }
  destruct dry_run; [exact Hrest|]. destruct f as [path text].
  apply wp_bind, (wp_invoke (R:=cli_answer) (WriteText path text)). intros [[]|e]; cbn.
  - eapply wp_mono, Hrest. intros t o [Ho Hr]. by split.
  - split; [|done]. by exists [], (x :: ts), [].
Qed.

(** A scaffold that completes wrote exactly its templates, each rendered, in their
    order, and nothing else; it returns their paths, the same paths a dry run returns,
    which writes nothing. One that fails has written the templates before the failure. *)
Theorem scaffold_writes_its_templates dry_run dst ts t (o : result (list string)) :
  exec (render_tree render dry_run dst ts) t o ->
  ran t = [] /\
  match o with
  | Ok written => exists fs, map_result (render_template render dst) ts = Ok fs /\ written = fs.*1 /\
                             files_written t = if dry_run then [] else fs
  | Err _ => exists done_ rest fs, ts = done_ ++ rest /\ map_result (render_template render dst) done_ = Ok fs /\
                             files_written t = if dry_run then [] else fs
  end.
Proof.
  intros He. destruct (wp_exec _ _ _ _ (render_tree_outcome dry_run dst ts) He) as [Ho Hr]. by split.
Qed.

(** ** [tape enhance] *)
(** [tape enhance] writes nothing unless the path exists and the changes were accepted,
    and never runs a program; when it completes it has written exactly its templates. *)
Theorem enhance_asks_first root exists_ adk agents_cli has_tape_yaml yes confirmed ts t (o : result unit) :
  exec (enhance render root exists_ adk agents_cli has_tape_yaml yes confirmed ts) t o ->
  ran t = [] /\
  (files_written t <> [] -> exists_ = true /\ (yes = true \/ confirmed = true)) /\
  (o = Ok tt -> map_result (render_template render root) ts = Ok (files_written t)).
Proof.
  set (Q := fun (files : list (string * string)) (rs : list (list string * result (Z * string))) (o : result unit) =>
    rs = [] /\ (files <> [] -> exists_ = true /\ (yes = true \/ confirmed = true)) /\
    (o = Ok tt -> map_result (render_template render root) ts = Ok files)).
  revert t o. apply forall_exec. change (wp (enhance render root exists_ adk agents_cli has_tape_yaml yes confirmed ts)
    (fun t o => Q (files_written t) (ran t) o)).
  assert (He : forall e, Q [] [] (Err e)) by (intros e; by split_and!).
  unfold enhance. destruct exists_; cbn [negb].
  2:{ apply wp_after_quiet; [auto|exact He|]. intros _. apply He. }
  apply wp_after_quiet; [destruct adk; apply say_quiet|exact He|]. intros _.
  apply wp_after_quiet; [destruct agents_cli; [apply say_quiet|by split]|exact He|]. intros _.
  apply wp_after_quiet; [destruct has_tape_yaml; apply say_quiet|exact He|]. intros _.
  apply wp_after_quiet; [apply say_quiet|exact He|]. intros _.
  apply wp_after_quiet; [apply wp_each_closed; [apply _|]; intros ? _; apply say_quiet|exact He|]. intros _.
  destruct (negb yes && negb confirmed) eqn:Ego.
  { apply wp_after_quiet; [apply say_quiet|exact He|]. intros _. apply He. }
  assert (Hgo : yes = true \/ confirmed = true) by (destruct yes, confirmed; auto; discriminate).
  apply wp_bind. eapply wp_mono, render_tree_outcome. intros t [written|e] [Ho Hr]; cbn in Ho.
  2:{ by split_and!. }
  destruct Ho as (fs & Hfs & -> & Ht).
  assert (Hpr : wp (_ ← each fs.*1 (fun w => ok_line ("wrote " +:+ drop_prefix (root +:+ "/") w)); mret tt) (fun t' _ => quiet t')).
  { apply wp_bind_closed; [apply _| |]; [apply wp_each_closed; [apply _|]; intros ? _; apply say_quiet|]. intros _. by split. }
  eapply wp_mono, Hpr. intros t' o [Hw' Hr']. unfold Q. rewrite files_written_app, ran_app, Hw', Hr', Hr, Ht, !app_nil_r.
  split_and!; auto.
Qed.
End templates.

(** A template engine that renders every text as it is, and a file system that takes
    every write. *)
Definition verbatim (s : string) : result string := Ok s.
Definition willing (c : cli_call) : M unit (cli_answer c) := fun w =>
  (match c return result (cli_answer c) with
   | RunCmd _ => Ok (0%Z, "")
   | PrintText _ => Ok tt
   | WriteText _ _ => Ok tt
   | _ => Err (RpcError "UNAVAILABLE")
   end, w).
Definition two_templates : list Template := [(["app"; "tape_runtime.py"], "run"); (["tape.yaml"], "project:")].

Lemma scaffold_writes_its_templates_witness : exists t,
  exec (render_tree verbatim false "/p" two_templates) t (Ok ["/p/app/tape_runtime.py"; "/p/tape.yaml"]) /\ ran t = [].
Proof.
  exists (trace willing (render_tree verbatim false "/p" two_templates) tt).
  assert (exec (render_tree verbatim false "/p" two_templates) (trace willing (render_tree verbatim false "/p" two_templates) tt)
            (Ok ["/p/app/tape_runtime.py"; "/p/tape.yaml"])) as He.
  { refine (eq_rect _ (exec _ _) (run_exec willing _ tt) _ _). vm_compute. reflexivity. }
  split; [exact He|]. exact (proj1 (scaffold_writes_its_templates verbatim false "/p" two_templates _ _ He)).
Defined.
Lemma enhance_asks_first_witness : exists t,
  exec (enhance verbatim "/p" true true false true true false two_templates) t (Ok tt) /\
  Ok (files_written t) = Ok [("/p/app/tape_runtime.py", "run"); ("/p/tape.yaml", "project:")].
Proof.
  exists (trace willing (enhance verbatim "/p" true true false true true false two_templates) tt).
  assert (exec (enhance verbatim "/p" true true false true true false two_templates)
            (trace willing (enhance verbatim "/p" true true false true true false two_templates) tt) (Ok tt)) as He.
  { refine (eq_rect _ (exec _ _) (run_exec willing _ tt) _ _). vm_compute. reflexivity. }
  split; [exact He|].
  rewrite <- (proj2 (proj2 (enhance_asks_first verbatim "/p" true true false true true false two_templates _ _ He)) eq_refl).
  reflexivity.
Defined.

(** A project's own tape.yaml is said to be left alone, and is written over. *)
Lemma enhance_overwrites_tape_yaml :
  let t := trace willing (enhance verbatim "/p" true true false true true false two_templates) tt in
  Ev (R:=cli_answer) (PrintText "[yellow]![/yellow] tape.yaml already exists — leaving it alone.") (Ok tt) ∈ t /\
  ("/p/tape.yaml", "project:") ∈ files_written t.
Proof.
  split; vm_compute.
  - right. left.
  - right. left.
Qed.

(** ** [tape destroy] *)
(** [tape destroy] runs at most one program, and only for a directory that is there,
    with the operator's consent; it then ends with that program's exit code. It never
    ends without an exit code. *)
Theorem destroy_needs_consent which root out dir_exists yes confirmed t (o : result unit) :
  exec (destroy which root out dir_exists yes confirmed) t o ->
  files_written t = [] /\ o <> Ok tt /\
  (ran t = [] \/
   exists tool dir r, ran t = [(destroy_cmd tool, r)] /\ tf_tool which = Some tool /\ root = Ok dir /\
     dir_exists (dir +:+ "/" +:+ out) = true /\ (yes = true \/ confirmed = true) /\
     o = match r with Ok (rc, _) => Err (Exit rc) | Err e => Err e end).
Proof.
  revert t o. apply forall_exec. unfold destroy.
  destruct root as [dir|e]; cbn [lift wp mbind prog_bind]; [|by split_and!; auto].
  destruct (dir_exists (dir +:+ "/" +:+ out)) eqn:Ed, yes, confirmed, (tf_tool which) as [tool|] eqn:Et; cbn;
    repeat (first [intros [[]|]|intros [[rc ?]|]]; cbn); split_and!; try done; try (left; done).
  all: right; do 3 eexists; split_and!; eauto.
Qed.
Lemma destroy_needs_consent_witness : exists t,
  exec (destroy with_tofu (Ok "/p") "tf" (fun _ => true) true false) t (Err (Exit 0)) /\ files_written t = [].
Proof.
  exists (trace willing (destroy with_tofu (Ok "/p") "tf" (fun _ => true) true false) tt).
  assert (exec (destroy with_tofu (Ok "/p") "tf" (fun _ => true) true false)
            (trace willing (destroy with_tofu (Ok "/p") "tf" (fun _ => true) true false) tt) (Err (Exit 0))) as He.
  { refine (eq_rect _ (exec _ _) (run_exec willing _ tt) _ _). vm_compute. reflexivity. }
  split; [exact He|]. exact (proj1 (destroy_needs_consent _ _ _ _ _ _ _ _ He)).
Defined.

(** ** [tape init]: the names it accepts *)
Fixpoint all_chars (P : ascii -> bool) (s : string) : bool :=
  match s with EmptyString => true | String c s => P c && all_chars P s end.
Lemma project_rest_spec max s :
  project_rest max s = true <->
  exists core, (s = core \/ s = core +:+ String newline "") /\ all_chars project_char core = true /\ String.length core <= max.
Proof.
  revert max. induction s as [|c s IH]; intros max; cbn [project_rest].
  - split; [intros _|by intros]. exists "". split_and!; [by left|done|cbn; lia].
  - rewrite orb_true_iff, bool_decide_eq_true. split.
    + intros [->|H]; [exists ""; split_and!; [by right|done|cbn; lia]|].
      destruct max as [|max]; [discriminate|]. apply andb_true_iff in H as [Hc H].
      apply IH in H as (core & Hs & Ha & Hl). exists (String c core).
      split_and!; [destruct Hs as [->| ->]; auto|cbn; by rewrite Hc|cbn; lia].
    + intros (core & Hs & Ha & Hl). destruct core as [|c' core].
      { destruct Hs as [Hs|Hs]; [discriminate|by left]. }
      cbn in Ha, Hl. apply andb_true_iff in Ha as [Hc Ha]. right.
      destruct max as [|max]; [lia|].
      assert (c = c' /\ (s = core \/ s = core +:+ String newline "")) as [-> Hs'].
      { destruct Hs as [Hs|Hs]; injection Hs as -> ->; auto. }
      rewrite Hc. cbn. apply IH. exists core. split_and!; [done..|lia].
Qed.
(** The names [tape init] accepts are those of a lowercase letter and up to forty
    letters, digits, hyphens and underscores, and the same with a newline at the end. *)
Theorem init_accepts_names name :
  project_name_ok name = true <->
  exists c core, (name = String c core \/ name = String c core +:+ String newline "") /\
    is_lower c = true /\ all_chars project_char core = true /\ String.length core <= 40.
Proof.
  destruct name as [|c s]; cbn [project_name_ok].
  { split; [discriminate|]. intros (c & core & [H|H] & _); discriminate. }
  rewrite andb_true_iff, project_rest_spec. split.
  - intros [Hc (core & Hs & Ha & Hl)]. exists c, core. split_and!; [|done..]. destruct Hs as [->| ->]; auto.
  - intros (c' & core & Hs & Hc & Ha & Hl).
    assert (c = c' /\ (s = core \/ s = core +:+ String newline "")) as [-> Hs'].
    { destruct Hs as [Hs|Hs]; injection Hs as -> ->; auto. }
    eauto 6.
Qed.

(** ** [tape migrate] *)
(** Without a server binary the command ends in a TypeError, not in its message. *)
Lemma migrate_without_binary which env p store dry_run :
  which "tape-server" = None -> store = Some "sqlite:x" ->
  migrate which env (Ok p) store None dry_run = Throw TypeError.
Proof. intros H ->. unfold migrate. cbn. by rewrite H. Qed.
