(* ===== verification/CliRelease.v ===== *)
(** * CliRelease: the commands that build, provision and start, [commands/deploy.py], [provision.py], [dev.py]

    The whole of [tape deploy gcp], [tape provision gcp] and [tape dev] over the pieces of
    [CliDeploy]: what they build, write, print, start and stop.

    A Cloud Run deployment writes its specs and deploys nothing; what builds it runs; the
    flag its reactors are started with; every process [tape dev] started is told to stop. *)
From Stdlib Require Import Ascii QArith.
From S2P Require Import Prelude Scenarios Program Client Recover Identity JournalSnapshots SdkEntry CliText.
From S2P Require Import CliConfig CliDeploy CliManage.
#[local] Open Scope Z_scope.
#[local] Open Scope nat_scope.

(** ** Running programs *)

(** [run_cmd]: with [check] a status other than 0 raises. *)
Definition run_cmd (check : bool) (argv : list string) : Cmd (Z * string) :=
  r ← (invoke (RunCmd argv) : Cmd (Z * string));
  if check && negb (r.1 =? 0)%Z then Throw (Raised "CalledProcessError" (join " " argv)) else mret r.

Definition write_text (path contents : string) : Cmd unit := invoke (WriteText path contents).
Definition make_dirs (path : string) : Cmd unit := invoke (MakeDirs path).

Section release.
(** [yaml.safe_dump(.., sort_keys=False)], [json.dumps(.., indent=2)], [shutil.which] and
    what is on disk. *)
Variable yaml_text json_indent : json -> string.
Variable which : string -> option string.
Variable exists_file : string -> bool.

(** ** [tape deploy gcp --target cloud-run] *)

Definition gcloud_build (what image region : string) (extra : list string) : list string :=
  ["gcloud"; "builds"; "submit"; what] ++ extra ++ ["--tag"; image; "--region"; region].

(** The server's image, when its source is at hand: a failing cloud build falls back to
    docker, whose failures raise. *)
Definition build_server (source image region : string) : Cmd unit :=
  _ ← ok_line ("building tape-server image from " +:+ source);
  r ← run_cmd false (gcloud_build (source +:+ "/tape") image region ["--config=/dev/null"]);
  if (r.1 =? 0)%Z then mret tt
  else
    _ ← warn "gcloud builds submit failed — falling back to local docker build.";
    _ ← run_cmd true ["docker"; "build"; "-f"; "server/Dockerfile"; "-t"; image; "."];
    _ ← run_cmd true ["docker"; "push"; image];
    mret tt.

(** The status of the reactor's build is not looked at. *)
Definition build_images (root : string) (source : option string) (server_image reactor_image region : string) : Cmd unit :=
  _ ← match source with Some s => build_server s server_image region | None => mret tt end;
  _ ← ok_line ("building reactor image " +:+ reactor_image);
  _ ← run_cmd false (gcloud_build root reactor_image region []);
  mret tt.

Definition write_spec (out_dir : string) (f : string * json) : Cmd unit :=
  _ ← write_text (out_dir +:+ "/" +:+ f.1) (yaml_text f.2);
  ok_line ("wrote " +:+ out_dir +:+ "/" +:+ f.1).

(** A reactor's spec; a name without a section raises. *)
Definition write_reactor (p : TapeProject) (out_dir image url name : string) : Cmd unit :=
  match render_cloud_run_reactor p image name url with
  | Some spec => write_spec out_dir (reactor_file name, spec)
  | None => Throw AttributeError
  end.

(** How to apply one spec; [tail] is the placeholder's substitution. *)
Definition apply_line (p : TapeProject) (path : string) : Cmd unit :=
  say ("  gcloud run services replace " +:+ path +:+ " --region=" +:+ p.(gcp).(gc_region) +:+
       " --project=" +:+ p.(gcp).(gc_project_id)).
Definition apply_reactor_line (p : TapeProject) (resolved : bool) (path : string) : Cmd unit :=
  if resolved then apply_line p path
  else
    _ ← say ("  TAPE_SERVER_URL=tapes://<your-tape-server-host> envsubst < " +:+ path +:+ " | \");
    say ("    gcloud run services replace - --region=" +:+ p.(gcp).(gc_region) +:+ " --project=" +:+ p.(gcp).(gc_project_id)).
Definition apply_lines (p : TapeProject) (source : option string) (out_dir : string) (resolved : bool) : Cmd unit :=
  _ ← say ""; _ ← say "To apply:";
  _ ← match source with Some _ => apply_line p (out_dir +:+ "/tape-server.service.yaml") | None => mret tt end;
  _ ← each (enabled_names p.(tape).(tp_reactors))
        (fun name => apply_reactor_line p resolved (out_dir +:+ "/" +:+ reactor_file name));
  _ ← say ""; _ ← say "Or run `tape deploy gcp` with --apply (not implemented; deliberately so you";
  say "see exactly which gcloud invocations will run).".

(** [dirs]: the project's root and its parents. *)
Definition deploy_cloud_run (dirs : list string) (root out_dir image_tag : string) (skip_build : bool) (p : TapeProject) : Cmd unit :=
  if negb (some_text (which "gcloud")) then die "gcloud not installed."
  else if decide (p.(gcp).(gc_project_id) = "") then die "gcp.project_id is unset."
  else
    let source := find_server_source_root exists_file dirs in
    let reactor_image := image_of p (p.(project).(pj_name) +:+ "-reactor") image_tag in
    let server_image := match source with Some _ => image_of p "tape-server" image_tag | None => p.(tape).(tp_server).(sv_image) end in
    _ ← match source with
        | Some _ => mret tt
        | None => say ("using published tape-server image " +:+ server_image +:+
                       " (no Rust source under <root>/../tape/server/Cargo.toml)")
        end;
    _ ← (if skip_build then mret tt else build_images root source server_image reactor_image p.(gcp).(gc_region));
    _ ← match source with
        | Some _ => write_spec out_dir ("tape-server.service.yaml", render_cloud_run_server p server_image)
        | None => mret tt
        end;
    u ← resolve_tape_server_url which p;
    let '(url, resolved) := u in
    _ ← (if resolved then mret tt
         else warn ("could not resolve tape-server URL from gcloud; emitting `" +:+ url +:+ "` placeholder in reactor specs."));
    _ ← each (enabled_names p.(tape).(tp_reactors)) (write_reactor p out_dir reactor_image url);
    apply_lines p source out_dir resolved.

(** ** [--target gke] *)

Definition server_target_name (t : ServerTarget) : string :=
  match t with OnCloudRun => "cloud_run" | OnGke => "gke" | OnLocal => "local" end.
Definition tenancy_mode_name (m : TenancyMode) : string :=
  match m with Single => "single" | TrustedMultiApp => "trusted_multi_app" | HardMultiTenant => "hard_multi_tenant" end.
(** [model_dump()] of the two sections *)
Definition dump_server (s : ServerSection) : json :=
  JObj [("image", JStr s.(sv_image)); ("target", JStr (server_target_name s.(sv_target)));
        ("min_instances", JInt s.(sv_min_instances)); ("max_instances", JInt s.(sv_max_instances));
        ("cpu", JStr s.(sv_cpu)); ("memory", JStr s.(sv_memory)); ("ingress", JStr s.(sv_ingress))].
Definition dump_tenancy (t : TenancySection) : json :=
  JObj [("mode", JStr (tenancy_mode_name t.(tn_mode))); ("tenant_id", JStr t.(tn_tenant_id))].

(** [store] is the kind in effect: [--store] is stored unchecked. *)
Definition gke_values (p : TapeProject) (store image_tag : string) : json :=
  JObj [("image", JObj [("server", JStr (gke_images p image_tag).1); ("reactor", JStr (gke_images p image_tag).2)]);
        ("store", JObj [("kind", JStr store); ("urlSecret", JStr (text_or p.(tape).(tp_store).(st_url_secret) ""));
                        ("url", JStr (text_or p.(tape).(tp_store).(st_url) ""))]);
        ("reactors", JObj (map (fun n => (n, JBool (match reactor_of n p.(tape).(tp_reactors) with
                                                    | Some r => r.(rs_enabled) | None => false end))) REACTOR_NAMES));
        ("server", dump_server p.(tape).(tp_server)); ("tenancy", dump_tenancy p.(tenancy))].

Definition deploy_gke (chart_dir out_dir store image_tag : string) (p : TapeProject) : Cmd unit :=
  _ ← say "Rendering Helm values for the bundled tape chart.";
  if negb (exists_file chart_dir) then die ("bundled chart not found at " +:+ chart_dir +:+ ".")
  else
    let path := out_dir +:+ "/values.generated.yaml" in
    _ ← write_text path (yaml_text (gke_values p store image_tag));
    _ ← ok_line ("wrote " +:+ path);
    _ ← each [""; "To install (after pushing images):"; "  helm upgrade --install tape " +:+ chart_dir +:+ " \";
              "    --namespace tape --create-namespace \"; "    -f " +:+ path] say;
    mret tt.

(** ** [--target agent-runtime-adapter] *)

(** The adapter's lines around the module it imports; the first and the seventh hold the
    quotes they show, the others single quotes for double ones. *)
Definition adapter_head : list string :=
  [double_quoted "'''Adapter: re-drive a Vertex AI Agent Runtime deployment from a Tape reactor."; "";
   "Replace AGENT_RESOURCE with `projects/.../locations/.../reasoningEngines/...`";
   "and deploy this module's `main` as the reactor entrypoint."; double_quoted "'''"; ""; "import os"; "import vertexai";
   "from vertexai import agent_engines"; ""; "import tape"; "import tape.reactors"; "";
   "# importing the agent module must register @tape.effect(status_check=...) hooks"].
Definition adapter_tail : list string :=
  map double_quoted
  [""; "PROJECT  = os.environ['GOOGLE_CLOUD_PROJECT']"; "LOCATION = os.environ.get('GOOGLE_CLOUD_LOCATION', 'us-central1')";
   "TAPE_URL = os.environ['TAPE_URL']"; "AGENT_RESOURCE = os.environ['AGENT_ENGINE']"; "";
   "vertexai.init(project=PROJECT, location=LOCATION)"; "_AGENT = agent_engines.get(AGENT_RESOURCE)"; ""; "";
   "def agent_engine_redrive(run) -> None:"; "    for _ in _AGENT.stream_query(user_id=run.user_id, session_id=run.session_id,";
   "                                 invocation_id=run.invocation_id, message=None):"; "        pass"; ""; "";
   "def main() -> None:"; "    tape.reactors.run_reactors(redrive_fn=agent_engine_redrive, url=TAPE_URL)"; ""; "";
   "if __name__ == '__main__':"; "    main()"].
Definition adapter_text (entrypoint : string) : string :=
  join (String newline "") (adapter_head ++ ["import " +:+ before_char ":"%char entrypoint +:+ "  # noqa: F401"] ++ adapter_tail) +:+
  String newline "".

Definition deploy_agent_runtime (out_dir : string) (p : TapeProject) : Cmd unit :=
  let path := out_dir +:+ "/agent_runtime_reactor.py" in
  _ ← write_text path (adapter_text p.(agent).(ag_entrypoint));
  _ ← ok_line ("wrote " +:+ path);
  _ ← each [""; "Deploy it as a Cloud Run service (min-instances=1) with these env vars:";
            "  GOOGLE_CLOUD_PROJECT, GOOGLE_CLOUD_LOCATION,"; "  TAPE_URL=tapes://<tape-server-url>,";
            "  AGENT_ENGINE=projects/.../locations/.../reasoningEngines/RESOURCE_ID"] say;
  mret tt.

(** ** [tape deploy gcp] *)

Definition deploy_gcp (repr : string -> string) (loaded : result TapeProject) (dirs : list string)
    (root chart_dir target : string) (store reactors : option string) (image_tag : string) (skip_build : bool)
    (out : string) : Cmd unit :=
  p ← lift loaded;
  let p := set_reactors (select_reactors reactors p.(tape).(tp_reactors)) p in
  let out_dir := root +:+ "/" +:+ out in
  _ ← make_dirs out_dir;
  if decide (target = "cloud-run") then deploy_cloud_run dirs root out_dir image_tag skip_build p
  else if decide (target = "gke") then
    deploy_gke chart_dir out_dir (text_or store (store_kind_name p.(tape).(tp_store).(st_kind))) image_tag p
  else if decide (target = "agent-runtime-adapter") then deploy_agent_runtime out_dir p
  else die ("unknown target " +:+ repr target +:+ ".").
End release.

(** ** [tape provision gcp] *)

Section provision.
Variable json_indent : json -> string.
Variable which : string -> option string.
Variable exists_file : string -> bool.

(** The overrides, stored unchecked: a kind [_render_main_tf] does not know has no module,
    like [sqlite]; an events kind it does not know has none, like [none]; a target it does
    not know has no server, like [local]. *)
Definition store_override (s : string) : StoreKind :=
  default Sqlite (dict_get s [("postgres", Postgres); ("alloydb", Alloydb); ("spanner", Spanner); ("bigtable", Bigtable)]).
Definition events_override (s : string) : EventsKind := if decide (s = "pubsub") then Pubsub else NoEvents.
Definition target_override (s : string) : ServerTarget :=
  if decide (s = "cloud-run" \/ s = "cloud_run") then OnCloudRun else if decide (s = "gke") then OnGke else OnLocal.

Definition override_tape (store events target : option string) (t : TapeSection) : TapeSection :=
  let sv := t.(tp_server) in let st := t.(tp_store) in let ev := t.(tp_events) in
  mkTapeSection t.(tp_url)
    (match str_or_none target with
     | Some x => mkServerSection sv.(sv_image) (target_override x) sv.(sv_min_instances) sv.(sv_max_instances) sv.(sv_cpu) sv.(sv_memory) sv.(sv_ingress)
     | None => sv end)
    (match str_or_none store with
     | Some x => mkStoreSection (store_override x) st.(st_url_secret) st.(st_url) | None => st end)
    (match str_or_none events with
     | Some x => mkEventsSection (events_override x) ev.(ev_topic) ev.(ev_outbox_topic) ev.(ev_dlq_topic) | None => ev end)
    t.(tp_reactors).
Definition override_region (region : option string) (g : GcpSection) : GcpSection :=
  match str_or_none region with
  | Some r => mkGcpSection g.(gc_project_id) r g.(gc_repository) g.(gc_sa_prefix) g.(gc_vpc_connector) g.(gc_private_ip)
  | None => g
  end.
Definition override_project (store events target region : option string) (p : TapeProject) : TapeProject :=
  mkTapeProject p.(project) p.(agent) (override_tape store events target p.(tape)) p.(embedded)
    (override_region region p.(gcp)) p.(tenancy).

Definition versions_tf : string := file_text
  ["terraform {"; "  required_version = '>= 1.6.0'"; "  required_providers {";
   "    google      = { source = 'hashicorp/google', version = '>= 5.10' }";
   "    google-beta = { source = 'hashicorp/google-beta', version = '>= 5.10' }"; "  }"; "}"].
Definition readme_md (name : string) : string := file_text
  ["# Terraform — " +:+ name; ""; "Generated by `tape provision gcp`. Treat this directory as **your** infrastructure";
   "code: commit it, code-review it, and edit it if you need to."; ""; "To plan and apply manually:"; ""; "```bash";
   "tofu init                # or: terraform init"; "tofu plan  -var-file=terraform.tfvars.json";
   "tofu apply -var-file=terraform.tfvars.json"; "```"; ""; "To regenerate after editing `tape.yaml`:"; ""; "```bash";
   "tape provision gcp --dry-run     # re-render only"; "tape provision gcp --apply       # re-render and apply"; "```"].

(** [generate]: the module library is copied over whatever was there. *)
Definition copy_modules (src dst : string) : Cmd unit :=
  if exists_file src then
    _ ← (if exists_file dst then invoke (RemoveTree dst) else mret tt : Cmd unit);
    invoke (CopyTree src dst)
  else mret tt.
Definition root_files (p : TapeProject) : list (string * string) :=
  [("main.tf", render_main_tf p); ("variables.tf", render_variables_tf);
   ("terraform.tfvars.json", json_indent (JObj (render_tfvars p))); ("versions.tf", versions_tf);
   ("README.md", readme_md p.(project).(pj_name))].
Definition generate (modules_src out_dir : string) (p : TapeProject) : Cmd unit :=
  _ ← make_dirs out_dir;
  _ ← copy_modules modules_src (out_dir +:+ "/modules");
  _ ← each (root_files p) (fun f => write_text (out_dir +:+ "/" +:+ f.1) f.2);
  mret tt.

(** [names] come sorted from the directory; the command ends with the code of [apply]. *)
Definition provision_gcp (loaded : result TapeProject) (root modules_src : string)
    (store events target region : option string) (dry_run apply_now : bool) (out : string) : Cmd unit :=
  p ← lift loaded;
  let out_dir := root +:+ "/" +:+ out in
  _ ← ok_line ("rendering Terraform to " +:+ out_dir);
  _ ← generate modules_src out_dir (override_project store events target region p);
  _ ← say ""; _ ← say "Generated:";
  names ← (invoke (ListDir out_dir) : Cmd (list string));
  _ ← each names (fun n => say ("  " +:+ out +:+ "/" +:+ n));
  _ ← say "";
  rc ← provision_code which apply_now dry_run;
  Throw (Exit rc).
End provision.

(** ** [tape dev] *)

Section dev.
Variable which : string -> option string.
Variable exists_file is_executable : string -> bool.
Variables python pythonpath : string.

(** [try: .. finally: for p in procs: p.terminate()]: the processes started so far are the
    loop's list, each told to stop, whatever that raises. *)
Definition terminate_all (pids : list Z) : Cmd unit :=
  _ ← each pids (fun pid => try_ (invoke (Terminate pid) : Cmd unit) (fun _ => mret tt)); mret tt.
(** [_start], with the command shown first *)
Definition start (argv : list string) (env : list (string * string)) : Cmd Z :=
  _ ← say ("[dim]$ " +:+ join " " argv +:+ "[/dim]"); invoke (StartProc argv env).
(** A body that starts processes and goes on with the list of them. *)
Definition supervised (first : Cmd Z) (body : Z -> Cmd (list Z * result unit)) : Cmd unit :=
  pid ← first;
  r ← body pid;
  _ ← terminate_all r.1;
  lift r.2.

(** The path of a file store, if the URL names one. *)
Fixpoint split_once (sep s : string) : option string :=
  if String.prefix sep s then Some (drop_prefix sep s)
  else match s with EmptyString => None | String _ s' => split_once sep s' end.
Definition sqlite_path (db_url : string) : option string :=
  if starts_with "sqlite" db_url then
    match split_once ":///" db_url with
    | Some p => if decide (p = "" \/ p = ":memory:") then None else Some p
    | None => None
    end
  else None.

Definition adk_dev (parent : string -> string) (root : string) (p : TapeProject) : Cmd unit :=
  match p.(embedded) with
  | None => die "tape.yaml has `project.tier: adk` but no `embedded:` section."
  | Some e =>
    _ ← match sqlite_path e.(em_db_url) with Some f => make_dirs (parent f) | None => mret tt end;
    _ ← ok_line ("embedded tier — db: " +:+ e.(em_db_url));
    supervised (start (reactor_cmd python e) [("PYTHONPATH", root +:+ ":" +:+ pythonpath)]) (fun pid =>
      r ← caught (
        _ ← ok_line "reactor loop started (outbox · reconciler · compensation · timers)";
        _ ← say "";
        _ ← say "[dim]Drive your agent in another terminal — e.g. `adk run app` — effects appear below. Ctrl-C to stop.[/dim]";
        _ ← say "";
        _ ← (invoke (SleepMs 600) : Cmd unit);
        invoke (LiveJournal e.(em_db_url) ("[green]running[/green] (tick " +:+ pretty e.(em_reactor_interval_ms) +:+ "ms)")));
      mret ([pid], r))
  end.

Fixpoint find_server_binary (resolve : string -> string) (cands : list string) : option string :=
  match cands with
  | [] => None
  | c :: cands =>
    if exists_file c && is_executable c then Some (resolve c)
    else match str_or_none (which c) with Some b => Some b | None => find_server_binary resolve cands end
  end.
Definition server_candidates : list string :=
  ["./target/release/tape-server"; "../tape/server/target/release/tape-server"; "/usr/local/bin/tape-server"; "tape-server"].

(** What is started and shown once the server runs; the processes there are after it. *)
Definition native_body (root : string) (port : Z) (kill_resume_demo : bool) (reactors : option (list string)) (pid : Z)
    : Cmd (list Z * result unit) :=
  let at_ := "127.0.0.1:" +:+ pretty port in
  r ← caught (
    _ ← ok_line ("tape-server listening on " +:+ at_);
    _ ← (invoke (SleepMs 1000) : Cmd unit);
    match reactors with
    | Some cmd => pid ← start cmd [("TAPE_URL", "tape://" +:+ at_); ("PYTHONPATH", root)]; mret [pid]
    | None => mret []
    end);
  match r with
  | Err ex => mret ([pid], Err ex)
  | Ok pids =>
    r ← caught (
      _ ← (if decide (pids = []) then mret tt else ok_line "tape-reactors started");
      _ ← (if kill_resume_demo then
             say (String newline "" +:+ "[bold]kill-resume demo:[/bold] start the agent, the server is up — run your scripted scenario, then `tape doctor` to see the post-mortem.")
           else mret tt);
      _ ← say (String newline "" +:+ "Press Ctrl-C to stop.");
      (invoke WaitSignal : Cmd unit));
    mret (pid :: pids, r)
  end.

Definition native_dev (resolve : string -> string) (root store : string) (server_binary : option string) (port : Z)
    (kill_resume_demo : bool) (p : TapeProject) : Cmd unit :=
  let at_ := "127.0.0.1:" +:+ pretty port in
  let db := "sqlite:" +:+ root +:+ "/.tape/dev.db" in
  _ ← (if decide (store = "sqlite") then mret tt
       else warn ("native mode currently supports sqlite only; you asked for " +:+ store +:+ ". Falling back to sqlite for the server."));
  _ ← make_dirs (root +:+ "/.tape");
  match (match str_or_none server_binary with Some b => Some b | None => find_server_binary resolve server_candidates end) with
  | None => die "no tape-server binary found. Build with `cargo build --release` in tape/server, or run `tape dev` with Docker."
  | Some binary =>
    supervised (start [binary; "--listen"; at_; "--store"; db]
                  [("TAPE_LISTEN", at_); ("TAPE_STORE", db); ("RUST_LOG", "tape_server=info")])
      (native_body root port kill_resume_demo (hd_error (tail (native_procs python root binary port p))))
  end.

Definition docker_dev (root : string) : Cmd unit :=
  let overlay := root +:+ "/docker-compose.tape.yaml" in
  let compose := if exists_file overlay then overlay else root +:+ "/docker-compose.yaml" in
  if negb (exists_file compose) then die ("no docker-compose at " +:+ compose +:+ ". Run `tape init` to scaffold one.")
  else
    _ ← say ("Using " +:+ drop_prefix (root +:+ "/") compose);
    r ← run_cmd false ["docker"; "compose"; "-f"; compose; "up"; "--build"];
    Throw (SystemExit r.1).

Definition dev (parent resolve : string -> string) (loaded : result TapeProject) (root : string)
    (store events : option string) (use_docker : option bool) (server_binary : option string)
    (kill_resume_demo : bool) (port : Z) : Cmd unit :=
  p ← lift loaded;
  match dev_mode p store events use_docker (which "docker") with
  | DevEmbedded => adk_dev parent root p
  | DevNoDocker => die "Docker requested but `docker` is not on PATH."
  | DevDocker => docker_dev root
  | DevNative =>
    native_dev resolve root (text_or store (store_kind_name p.(tape).(tp_store).(st_kind))) server_binary port kill_resume_demo p
  end.
End dev.

(** * Theorems *)

(** ** What a command that returned wrote and ran *)

Definition cmds (t : list (event cli_answer)) : list (list string) := map fst (ran t).
Lemma cmds_app t t' : cmds (t ++ t') = cmds t ++ cmds t'.
Proof. unfold cmds. by rewrite ran_app, map_app. Qed.

Definition does {A} (p : Cmd A) (Q : A -> list (string * string) -> list (list string) -> Prop) : Prop :=
  wp p (fun t o => forall a, o = Ok a -> Q a (files_written t) (cmds t)).

Lemma does_mono {A} (p : Cmd A) (Q Q' : A -> _ -> _ -> Prop) :
  (forall a fs cs, Q a fs cs -> Q' a fs cs) -> does p Q -> does p Q'.
Proof. intros HQ. apply wp_mono. intros t o Ho a Ha. by apply HQ, Ho. Qed.
Lemma does_bind {A B} (p : Cmd A) (f : A -> Cmd B) (Q : B -> _ -> _ -> Prop) :
  does p (fun a fs cs => does (f a) (fun b fs' cs' => Q b (fs ++ fs') (cs ++ cs'))) -> does (p ≫= f) Q.
Proof.
  intros Hp. apply wp_bind. eapply wp_mono, Hp. intros t [a|e] Ha; [|by intros b].
  eapply wp_mono, (Ha a eq_refl). intros t' o Ho b Hb. rewrite files_written_app, cmds_app. by apply Ho.
Qed.
Lemma does_ret {A} (a : A) (Q : A -> list (string * string) -> list (list string) -> Prop) :
  Q a [] [] -> does (mret a) Q.
Proof. by intros HQ b [= <-]. Qed.
Lemma does_throw {A} e (Q : A -> list (string * string) -> list (list string) -> Prop) : does (Throw e) Q.
Proof. by intros b. Qed.
Lemma does_quiet {A} (p : Cmd A) (Q : A -> list (string * string) -> list (list string) -> Prop) :
  wp p (fun t _ => quiet t) -> (forall a, Q a [] []) -> does p Q.
Proof. intros Hp HQ. eapply wp_mono, Hp. intros t o [Hw Hr] a _. unfold cmds. rewrite Hw, Hr. apply HQ. Qed.
Lemma does_run argv (Q : Z * string -> list (string * string) -> list (list string) -> Prop) :
  (forall r, Q r [] [argv]) -> does (invoke (RunCmd argv) : Cmd (Z * string)) Q.
Proof. intros HQ [r|e] b; [|done]. intros [= <-]. apply HQ. Qed.
Lemma does_write path contents (Q : unit -> list (string * string) -> list (list string) -> Prop) :
  Q tt [(path, contents)] [] -> does (write_text path contents) Q.
Proof. intros HQ [[]|e] b; [|done]. intros [= <-]. exact HQ. Qed.

(** A loop writes what its bodies write. *)
Lemma does_each_writes {A B} (xs : list A) (body : A -> Cmd B) (w : A -> list (string * string) -> Prop)
    (Q : list B -> list (string * string) -> list (list string) -> Prop) :
  (forall x, does (body x) (fun _ fs cs => w x fs /\ cs = [])) ->
  (forall bs fss, Forall2 w xs fss -> Q bs (concat fss) []) ->
  does (each xs body) Q.
Proof.
  intros Hb. revert Q. induction xs as [|x xs IH]; intros Q HQ.
  - apply does_ret. apply (HQ [] []). constructor.
  - cbn [each]. apply does_bind. eapply does_mono, Hb. intros b fs cs [Hw ->].
    apply does_bind, IH. intros bs fss Hf. apply does_ret. rewrite !app_nil_r.
    apply (HQ (b :: bs) (fs :: fss)). by constructor.
Qed.
Lemma each_quiet {A B} (xs : list A) (body : A -> Cmd B) :
  (forall x, wp (body x) (fun t _ => quiet t)) -> wp (each xs body) (fun t _ => quiet t).
Proof. intros Hb. apply wp_each_closed; [apply _|]. intros x _. apply Hb. Qed.

#[local] Hint Resolve say_quiet fail_line_quiet die_quiet : core.
Lemma ok_quiet msg : wp (ok_line msg) (fun t _ => quiet t).
Proof. apply say_quiet. Qed.
Lemma warn_quiet msg : wp (warn msg) (fun t _ => quiet t).
Proof. apply say_quiet. Qed.
#[local] Hint Resolve ok_quiet warn_quiet : core.

(** A line and then the rest. *)
Lemma does_after_line {A B} (p : Cmd A) (f : A -> Cmd B) Q :
  wp p (fun t _ => quiet t) -> (forall a, does (f a) Q) -> does (p ≫= f) Q.
Proof. intros Hp Hf. apply does_bind, does_quiet; [done|]. exact Hf. Qed.

Section release.
Variable yaml_text : json -> string.
Variable which : string -> option string.
Variable exists_file : string -> bool.

Definition describe_cmd (p : TapeProject) : list string :=
  ["gcloud"; "run"; "services"; "describe"; "tape-server"; "--region=" +:+ p.(gcp).(gc_region);
   "--project=" +:+ p.(gcp).(gc_project_id); "--format=value(status.url)"].
(** The builds: the server's when its source is at hand, by docker when gcloud's failed,
    then the reactor's. *)
Definition built (root : string) (source : option string) (server_image reactor_image region : string) (cs : list (list string)) : Prop :=
  exists server, cs = server ++ [gcloud_build root reactor_image region []] /\
    match source with
    | None => server = []
    | Some s =>
      let cloud := gcloud_build (s +:+ "/tape") server_image region ["--config=/dev/null"] in
      server = [cloud] \/ server = [cloud; ["docker"; "build"; "-f"; "server/Dockerfile"; "-t"; server_image; "."]; ["docker"; "push"; server_image]]
    end.

Lemma run_cmd_does check argv (Q : Z * string -> list (string * string) -> list (list string) -> Prop) :
  (forall r, (check = true -> r.1 = 0%Z) -> Q r [] [argv]) -> does (run_cmd check argv) Q.
Proof.
  intros HQ. apply does_bind, does_run. intros r. destruct check; cbn [andb]; [|by apply does_ret, HQ].
  destruct (Z.eqb_spec r.1 0); cbn [negb]; [|apply does_throw]. by apply does_ret, HQ.
Qed.

Lemma builds_are root source server_image reactor_image region :
  does (build_images root source server_image reactor_image region)
    (fun _ fs cs => fs = [] /\ built root source server_image reactor_image region cs).
Proof.
  assert (Hlast : forall server,
    match source with
    | None => server = []
    | Some s =>
      let cloud := gcloud_build (s +:+ "/tape") server_image region ["--config=/dev/null"] in
      server = [cloud] \/ server = [cloud; ["docker"; "build"; "-f"; "server/Dockerfile"; "-t"; server_image; "."]; ["docker"; "push"; server_image]]
    end ->
    does (_ ← ok_line ("building reactor image " +:+ reactor_image);
          _ ← run_cmd false (gcloud_build root reactor_image region []); mret tt)
      (fun _ fs cs => fs = [] /\ built root source server_image reactor_image region (server ++ cs))).
  { intros server Hs. apply does_after_line; [done|]. intros _. apply does_bind, run_cmd_does. intros r _.
    apply does_ret. split; [done|]. by exists server. }
  unfold build_images. apply does_bind. destruct source as [s|]; [|apply does_ret, (Hlast []); done].
  unfold build_server. apply does_after_line; [done|]. intros _. apply does_bind, run_cmd_does. intros r _.
  destruct (r.1 =? 0)%Z; [apply does_ret, (Hlast [_]); by left|].
  apply does_after_line; [done|]. intros _. apply does_bind, run_cmd_does. intros r2 _.
  apply does_bind, run_cmd_does. intros r3 _. apply does_ret, (Hlast [_; _; _]). by right.
Qed.

(** The URL is read off one process, or none. *)
Lemma resolve_does p :
  some_text (which "gcloud") = true -> p.(gcp).(gc_project_id) <> "" ->
  does (resolve_tape_server_url which p) (fun u fs cs => fs = [] /\ cs = [describe_cmd p] /\
    (u.2 = false -> u.1 = "${TAPE_SERVER_URL}") /\ (u.2 = true -> starts_with "tapes://" u.1 = true)).
Proof.
  intros Hg Hp. unfold resolve_tape_server_url. rewrite Hg, (bool_decide_false _ Hp). cbn [andb negb].
  apply wp_try, wp_bind. intros [r|e] ; cbn -[describe_cmd].
  - intros u [= <-]. split; [done|]. split; [done|].
    destruct (starts_with "https://" (strip r.2)); split; try done.
    intros _. cbn [fst]. by destruct (drop_prefix "https://" (strip r.2)).
  - intros u [= <-]. split; [done|]. split; [done|]. by split.
Qed.

Lemma release_written p image source tag url out_dir :
  image = image_of p (p.(project).(pj_name) +:+ "-reactor") tag ->
  forall fss, Forall2 (fun name fs => exists spec, render_cloud_run_reactor p image name url = Some spec /\
      fs = [(out_dir +:+ "/" +:+ reactor_file name, yaml_text spec)]) (enabled_names p.(tape).(tp_reactors)) fss ->
  Forall2 (fun f w => exists spec, f.2 = Some spec /\ w = (out_dir +:+ "/" +:+ f.1, yaml_text spec))
    (release_files p source tag url)
    (match source with
     | Some _ => [(out_dir +:+ "/tape-server.service.yaml", yaml_text (render_cloud_run_server p (image_of p "tape-server" tag)))]
     | None => [] end ++ concat fss).
Proof.
  intros -> fss Hf. unfold release_files. apply Forall2_app.
  - destruct source; constructor; [|constructor]. by eexists.
  - induction Hf as [|name fs names fss (spec & Hs & ->) Hf IH]; [constructor|]. cbn. constructor; [|exact IH].
    by exists spec.
Qed.

Lemma hints_quiet p source out_dir resolved : wp (apply_lines p source out_dir resolved) (fun t _ => quiet t).
Proof.
  unfold apply_lines, apply_reactor_line, apply_line.
  repeat first [apply say_quiet | apply wp_ret_closed; apply _ | apply each_quiet; intros ? | closed_step].
Qed.

Lemma die_does {A} msg (Q : A -> list (string * string) -> list (list string) -> Prop) : does (die msg) Q.
Proof. apply does_after_line; [done|]. intros _. apply does_throw. Qed.

Lemma write_spec_does out_dir f :
  does (write_spec yaml_text out_dir f) (fun _ fs cs => cs = [] /\ fs = [(out_dir +:+ "/" +:+ f.1, yaml_text f.2)]).
Proof. apply does_bind, does_write, does_quiet; done. Qed.

Lemma write_reactor_does p out_dir image url name :
  does (write_reactor yaml_text p out_dir image url name) (fun _ fs cs =>
    (exists spec, render_cloud_run_reactor p image name url = Some spec /\
      fs = [(out_dir +:+ "/" +:+ reactor_file name, yaml_text spec)]) /\ cs = []).
Proof.
  unfold write_reactor. destruct (render_cloud_run_reactor p image name url) as [spec|]; [|apply does_throw].
  eapply does_mono, write_spec_does. intros _ fs cs [-> ->]. split; [by exists spec|done].
Qed.

(** A Cloud Run deployment that returns deployed nothing: what it ran are the builds, unless
    they are skipped, and the question for the server's URL; what it wrote are exactly the
    files of the release, for a URL that is gcloud's answer with an identity or the
    placeholder.  That the reactor's image, or the server's, was built is not a condition. *)
Theorem cloud_run_writes_the_release dirs root out_dir image_tag skip_build p t :
  exec (deploy_cloud_run yaml_text which exists_file dirs root out_dir image_tag skip_build p) t (Ok tt) ->
  let source := find_server_source_root exists_file dirs in
  let server_image := match source with Some _ => image_of p "tape-server" image_tag | None => p.(tape).(tp_server).(sv_image) end in
  (exists url, (url = "${TAPE_SERVER_URL}" \/ starts_with "tapes://" url = true) /\
    Forall2 (fun f w => exists spec, f.2 = Some spec /\ w = (out_dir +:+ "/" +:+ f.1, yaml_text spec))
      (release_files p source image_tag url) (files_written t)) /\
  exists builds, cmds t = builds ++ [describe_cmd p] /\
    if skip_build then builds = []
    else built root source server_image (image_of p (p.(project).(pj_name) +:+ "-reactor") image_tag) p.(gcp).(gc_region) builds.
Proof.
  intros He source server_image. unfold deploy_cloud_run in He. fold source in He. fold server_image in He.
  revert He. set (image := image_of p (p.(project).(pj_name) +:+ "-reactor") image_tag).
  set (server_file := fun source : option string => match source with
    | Some _ => [(out_dir +:+ "/tape-server.service.yaml", yaml_text (render_cloud_run_server p (image_of p "tape-server" image_tag)))]
    | None => [] end).
  set (Post := fun (fs : list (string * string)) (cs : list (list string)) =>
    (exists url, (url = "${TAPE_SERVER_URL}" \/ starts_with "tapes://" url = true) /\
      Forall2 (fun f w => exists spec, f.2 = Some spec /\ w = (out_dir +:+ "/" +:+ f.1, yaml_text spec))
        (release_files p source image_tag url) fs) /\
    exists builds, cs = builds ++ [describe_cmd p] /\
      if skip_build then builds = [] else built root source server_image image p.(gcp).(gc_region) builds).
  intros He. change (Post (files_written t) (cmds t)).
  refine (wp_exec _ (fun t o => forall a, o = Ok a -> Post (files_written t) (cmds t)) t _ _ He tt eq_refl). clear He t.
  match goal with |- wp ?prog _ => change (does prog (fun _ => Post)) end.
  destruct (some_text (which "gcloud")) eqn:Hg; cbn [negb]; [|apply die_does].
  case_decide as Hp; [apply die_does|].
  apply does_after_line; [destruct source; [by apply wp_ret_closed; apply _|apply say_quiet]|]. intros _.
  apply does_bind, does_mono with (Q := fun _ fs cs => fs = [] /\
    if skip_build then cs = [] else built root source server_image image p.(gcp).(gc_region) cs).
  2:{ destruct skip_build; [by apply does_ret|apply builds_are]. }
  intros _ ? builds [-> Hb]. apply does_bind, (does_mono _ (fun _ fs cs => cs = [] /\ fs = server_file source)).
  2:{ unfold server_file, server_image. destruct source; [apply write_spec_does|by apply does_ret]. }
  intros _ ? ? [-> ->]. apply does_bind. eapply does_mono, (resolve_does p Hg Hp).
  intros [url resolved] ? ? (-> & -> & Hno & Hyes). cbn [fst snd] in Hno, Hyes.
  apply does_after_line; [destruct resolved; [by apply wp_ret_closed; apply _|apply warn_quiet]|]. intros _.
  apply does_bind, (does_each_writes _ _ (fun name fs => exists spec, render_cloud_run_reactor p image name url = Some spec /\
      fs = [(out_dir +:+ "/" +:+ reactor_file name, yaml_text spec)])); [intros name; apply write_reactor_does|].
  intros _ fss Hf. apply does_quiet; [apply hints_quiet|]. intros _.
  rewrite !app_nil_l, !app_nil_r. split.
  - exists url. split; [destruct resolved; [right; by apply Hyes|left; by apply Hno]|].
    apply (release_written p image source image_tag url out_dir eq_refl fss Hf).
  - by exists builds.
Qed.
End release.

(** ** [tape dev] stops what it started *)

Definition started_of (ev : event cli_answer) : list Z :=
  let 'Ev c r := ev in
  match c return result (cli_answer c) -> list Z with
  | StartProc _ _ => fun r => match r with Ok pid => [pid] | Err _ => [] end
  | _ => fun _ => []
  end r.
Definition stopped_of (ev : event cli_answer) : list Z :=
  match ev.(ev_call) with Terminate pid => [pid] | _ => [] end.
Definition started (t : list (event cli_answer)) : list Z := t ≫= started_of.
Definition stopped (t : list (event cli_answer)) : list Z := t ≫= stopped_of.
Lemma started_app t t' : started (t ++ t') = started t ++ started t'.
Proof. apply bind_app. Qed.
Lemma stopped_app t t' : stopped (t ++ t') = stopped t ++ stopped t'.
Proof. apply bind_app. Qed.

(** Neither starts nor stops a process. *)
Definition tame (t : list (event cli_answer)) : Prop := started t = [] /\ stopped t = [].
#[export] Instance tame_closed : Closed tame.
Proof. split; [done|]. intros t t' [H1 H2] [H3 H4]. split; [by rewrite started_app, H1|by rewrite stopped_app, H2]. Qed.

Ltac tames :=
  repeat first
    [ progress unfold say, ok_line, warn, fail_line, die, make_dirs, run_cmd, caught
    | match goal with |- tame _ => by split end
    | match goal with |- wp (Call _ _) _ => apply wp_call_closed; [apply _|intros ?|intros ?] end
    | closed_step ].

Section dev.
Variable which : string -> option string.
Variable exists_file is_executable : string -> bool.
Variables python pythonpath : string.

Lemma terminate_all_stops pids :
  wp (terminate_all pids) (fun t o => o = Ok tt /\ started t = [] /\ stopped t = pids).
Proof.
  unfold terminate_all. apply wp_bind.
  apply wp_mono with (P := fun t o => (exists l, o = Ok l) /\ started t = [] /\ stopped t = pids).
  { intros t ? [[l ->] Ht]. apply wp_ret. by rewrite app_nil_r. }
  induction pids as [|pid pids IH]; [by split; [eexists|]|]. cbn [each]. apply wp_bind, wp_try.
  assert (Hrest : forall r, wp (ys ← each pids (fun pid => try_ (invoke (Terminate pid) : Cmd unit) (fun _ => mret tt)); mret (tt :: ys))
    (fun t' o => (exists l, o = Ok l) /\ started (Ev (Terminate pid) r :: t') = [] /\ stopped (Ev (Terminate pid) r :: t') = pid :: pids)).
  { intros r. apply wp_bind. eapply wp_mono, IH. intros t ? [[l ->] [H1 H2]]. apply wp_ret. rewrite app_nil_r.
    split; [by eexists|]. change (started t = [] /\ pid :: stopped t = pid :: pids). by rewrite H1, H2. }
  intros [[]|e]; apply Hrest.
Qed.

Lemma start_starts argv env :
  wp (start argv env) (fun t o => stopped t = [] /\ started t = match o with Ok pid => [pid] | Err _ => [] end).
Proof. unfold start, say. intros [[]|e]; [|done]. by intros [pid|e]. Qed.

(** What is supervised is stopped, when the body answers the processes it started. *)
Lemma supervised_stops first body :
  wp first (fun t o => stopped t = [] /\ started t = match o with Ok pid => [pid] | Err _ => [] end) ->
  (forall pid, wp (body pid) (fun t o => stopped t = [] /\ exists l r, o = Ok (l, r) /\ pid :: started t = l)) ->
  wp (supervised first body) (fun t _ => stopped t = started t).
Proof.
  intros Hf Hb. unfold supervised. apply wp_bind. eapply wp_mono, Hf. intros t [pid|e] [Hs Hst]; [|by rewrite Hs, Hst].
  apply wp_bind. eapply wp_mono, Hb. intros t' ? [Hs' (l & r & -> & Hl)].
  apply wp_bind. eapply wp_mono, terminate_all_stops. intros t2 ? (-> & H1 & H2).
  assert (Heq : stopped (t ++ t' ++ t2) = started (t ++ t' ++ t2)).
  { rewrite !stopped_app, !started_app, Hs, Hs', Hst, H1, H2, app_nil_r. cbn [app fst]. by rewrite <- Hl. }
  destruct r as [[]|e]; cbn; by rewrite ?app_nil_r.
Qed.

Lemma tame_stops {A} (p : Cmd A) : wp p (fun t _ => tame t) -> wp p (fun t _ => stopped t = started t).
Proof. apply wp_mono. intros t o [-> ->]. done. Qed.
Lemma after_tame {A B} (p : Cmd A) (f : A -> Cmd B) :
  wp p (fun t _ => tame t) -> (forall a, wp (f a) (fun t _ => stopped t = started t)) ->
  wp (p ≫= f) (fun t _ => stopped t = started t).
Proof.
  intros Hp Hf. apply wp_bind. eapply wp_mono, Hp. intros t [a|e] [H1 H2]; [|by rewrite H1, H2].
  eapply wp_mono, Hf. intros t' o Ht. by rewrite stopped_app, started_app, H1, H2.
Qed.

Lemma adk_dev_stops parent root p : wp (adk_dev python pythonpath parent root p) (fun t _ => stopped t = started t).
Proof.
  unfold adk_dev. destruct (embedded p) as [e|]; [|apply tame_stops; tames].
  apply after_tame; [tames|]. intros _. apply after_tame; [tames|]. intros _.
  apply supervised_stops; [apply start_starts|]. intros pid. apply wp_bind, wp_caught.
  apply wp_mono with (P := fun t _ => tame t); [|tames].
  intros t o [H1 H2]. apply wp_ret. rewrite app_nil_r. split; [done|]. exists [pid], o. by rewrite H1.
Qed.

Lemma native_body_starts root port demo reactors pid :
  wp (native_body root port demo reactors pid) (fun t o => stopped t = [] /\ exists l r, o = Ok (l, r) /\ pid :: started t = l).
Proof.
  unfold native_body. apply wp_bind, wp_caught.
  apply wp_mono with (P := fun t o => stopped t = [] /\ started t = match o with Ok l => l | Err _ => [] end).
  - intros t [pids|e] [Hs Hst]; [|apply wp_ret; rewrite app_nil_r; split; [done|]; exists [pid], (Err e); by rewrite Hst].
    apply wp_bind, wp_caught. apply wp_mono with (P := fun t _ => tame t); [|destruct demo; tames].
    intros t' o [H1 H2]. apply wp_ret. rewrite app_nil_r, stopped_app, started_app, Hs, Hst, H1, H2, !app_nil_r.
    split; [done|]. by exists (pid :: pids), o.
  - intros [[]|e]; [|done]. intros [[]|e]; [|done]. cbn [mbind prog_bind lift].
    destruct reactors as [cmd|]; [|done]. apply wp_bind. eapply wp_mono, start_starts.
    intros t [p|e] [Hs Hst]; [apply wp_ret; rewrite app_nil_r|]; by split.
Qed.

(** However [tape dev] ends, by the command's own failure, by the journal's view closing or
    by an interrupt, every process it has started is told to stop, once and in the order
    they were started; Docker Compose is left to itself. *)
Theorem dev_stops_what_it_started parent resolve loaded root store events use_docker server_binary demo port t o :
  exec (dev which exists_file is_executable python pythonpath parent resolve loaded root store events use_docker
          server_binary demo port) t o ->
  stopped t = started t.
Proof.
  intros He. refine (wp_exec _ (fun t _ => stopped t = started t) t o _ He). clear He t o.
  unfold dev. apply after_tame; [tames|]. intros p.
  destruct (dev_mode p store events use_docker (which "docker")); [apply adk_dev_stops| | |apply tame_stops; tames].
  - apply tame_stops. unfold docker_dev. tames.
  - unfold native_dev. do 2 (apply after_tame; [tames|]; intros _).
    match goal with |- wp (match ?b with _ => _ end) _ => destruct b as [binary|] end; [|apply tame_stops; tames].
    apply supervised_stops; [apply start_starts|]. intros pid. apply native_body_starts.
Qed.
End dev.

(** ** The command a deployed reactor is started with *)

(** The options of [python -m tape.reactors]. *)
Definition REACTOR_FLAGS : list string :=
  ["--help"; "--url"; "--runner-from"; "--no-recover"; "--no-reconcile"; "--no-timers"; "--no-compensations"; "--compact";
   "--compact-hot-window-s"; "--compact-interval-s"; "--reconcile-pending-after"; "--interval"; "--claimer"; "--once";
   "--compensations-only"; "--load"].
(** An option is taken when it is one of them or the beginning of one. *)
Definition flag_taken (arg : string) : bool := existsb (starts_with arg) REACTOR_FLAGS.

Definition json_at (path : list string) (v : json) : json :=
  foldl (fun v k => match v with
                    | JObj d => default JNull (dict_get k d)
                    | JList (x :: _) => x
                    | _ => JNull end) v path.
Definition container_command (spec : json) : list string :=
  match json_at ["spec"; "template"; "spec"; "containers"; "0"; "command"] spec with
  | JList l => omap (fun v => match v with JStr s => Some s | _ => None end) l
  | _ => []
  end.

(** Every reactor of a Cloud Run release is started with an option its command line does
    not take, so it exits with its usage and no reactor runs. *)
Theorem deployed_reactor_refused p image name url :
  name ∈ REACTOR_NAMES ->
  exists spec, render_cloud_run_reactor p image name url = Some spec /\
    take 3 (container_command spec) = ["python"; "-m"; "tape.reactors"] /\
    "--only" ∈ container_command spec /\ flag_taken "--only" = false.
Proof.
  intros Hn. destruct (reactor_of_some name p.(tape).(tp_reactors) Hn) as [s Hs].
  unfold render_cloud_run_reactor. rewrite Hs. eexists. split; [reflexivity|]. split; [reflexivity|].
  split; [|reflexivity]. do 7 right. left.
Qed.

(** ** Provisioning *)

Definition removed_of (ev : event cli_answer) : list string :=
  match ev.(ev_call) with RemoveTree p => [p] | CopyTree _ p => [p] | _ => [] end.
(** What a trace replaced whole. *)
Definition replaced (t : list (event cli_answer)) : list string := t ≫= removed_of.
Definition replaces_only (dir : string) (t : list (event cli_answer)) : Prop := Forall (fun p => p = dir) (replaced t).
#[export] Instance replaces_only_closed dir : Closed (replaces_only dir).
Proof. split; [constructor|]. intros t t' H1 H2. unfold replaces_only, replaced. rewrite bind_app. by apply Forall_app. Qed.

Section provision.
Variable json_indent : json -> string.
Variable which : string -> option string.
Variable exists_file : string -> bool.

Lemma copy_writes_nothing src dst : wp (copy_modules exists_file src dst) (fun t _ => quiet t).
Proof.
  unfold copy_modules.
  repeat first [apply wp_ret_closed; apply _ | match goal with |- quiet _ => by split end | closed_step].
Qed.

(** Rendering writes exactly the five files of the root module. *)
Lemma generate_writes modules_src out_dir p :
  does (generate json_indent exists_file modules_src out_dir p) (fun _ fs cs =>
    fs = map (fun f => (out_dir +:+ "/" +:+ f.1, f.2)) (root_files json_indent p) /\ cs = []).
Proof.
  unfold generate. apply does_after_line; [intros [[]|e]; by split|]. intros _.
  apply does_after_line; [apply copy_writes_nothing|]. intros _. apply does_bind.
  apply (does_each_writes _ _ (fun f fs => fs = [(out_dir +:+ "/" +:+ f.1, f.2)])); [intros f; by apply does_write|].
  intros _ fss Hf. apply does_ret. split; [|done]. rewrite app_nil_r.
  induction Hf as [|f fs l fss -> _ IH]; [done|]. cbn. by rewrite IH.
Qed.

(** [tape provision gcp] replaces one directory, the module library below its output,
    whatever its options and however it ends; and a rendering that returns wrote exactly the
    five files of the root module of the project with its overrides and ran nothing. *)
Theorem provision_replaces_only_modules loaded root modules_src store events target region dry_run apply_now out t o :
  exec (provision_gcp json_indent which exists_file loaded root modules_src store events target region dry_run apply_now out) t o ->
  replaces_only (root +:+ "/" +:+ out +:+ "/modules") t /\
  forall p t', exec (generate json_indent exists_file modules_src (root +:+ "/" +:+ out)
      (override_project store events target region p)) t' (Ok tt) ->
    files_written t' = map (fun f => ((root +:+ "/" +:+ out) +:+ "/" +:+ f.1, f.2))
      (root_files json_indent (override_project store events target region p)) /\ cmds t' = [].
Proof.
  intros He. split.
  - refine (wp_exec _ (fun t _ => replaces_only (root +:+ "/" +:+ out +:+ "/modules") t) t o _ He). clear He t o.
    assert (Happ : (root +:+ "/" +:+ out) +:+ "/modules" = root +:+ "/" +:+ out +:+ "/modules")
      by exact (append_assoc root ("/" +:+ out) "/modules").
    unfold provision_gcp, generate, copy_modules, provision_code, iac_apply, ok_line, fail_line, say, make_dirs, write_text.
    rewrite Happ.
    repeat first [match goal with |- replaces_only _ _ => by repeat constructor end | closed_step].
  - intros p t' He'. exact (wp_exec _ _ _ _ (generate_writes modules_src _ _) He' tt eq_refl).
Qed.
End provision.

(** ** Witnesses *)

(** A project in the cloud, from a checkout with the server's source. *)
Definition cloud_project : TapeProject :=
  mkTapeProject (mkProjectSection "demo" "dev" TServer) (mkAgentSection "demo" "app.agent:root_agent" (Some "app.agent:build_runner") DCloudRun)
    default_tape None (mkGcpSection "acme" "us-central1" "tape" "tape" None true) default_tenancy.
Definition with_gcloud (name : string) : option string := if decide (name = "gcloud") then Some "/usr/bin/gcloud" else None.
Definition has_source (path : string) : bool := bool_decide (path = "/src/tape/server/Cargo.toml").
(** Every cloud build fails, every other program ends with 0. *)
Definition failing_builds (c : cli_call) : M unit (cli_answer c) := fun w =>
  (match c return result (cli_answer c) with
   | RunCmd ("gcloud" :: "builds" :: _) => Ok (1%Z, "")
   | RunCmd ("gcloud" :: _) => Ok (0%Z, "https://tape-server-x.a.run.app")
   | RunCmd _ => Ok (0%Z, "")
   | GetRunState _ => Err TypeError
   | StreamRun _ _ _ | StreamSubject _ _ _ | StreamEvents _ _ _ _ => Err TypeError
   | RunsToRecover _ | PendingEffects _ _ _ _ | EffectsToDispatch _ _ => Err TypeError
   | UnresolvedObligations _ _ _ _ | DueTimers _ _ _ | ListDir _ => Err TypeError
   | Clock => Ok 0%Z
   | StartProc argv _ => Ok (Z.of_nat (length argv))
   | WaitSignal => Err (Raised "KeyboardInterrupt" "")
   | _ => Ok tt
   end, w).
Definition plain_yaml (j : json) : string := "".
Definition sample_release : Cmd unit :=
  deploy_cloud_run plain_yaml with_gcloud has_source ["/src/demo"; "/src"] "/src/demo" "/src/demo/out" "0.1" false cloud_project.

(** Both images failed to build in the cloud; the specs are written all the same. *)
Lemma cloud_run_writes_the_release_witness :
  length (files_written (trace failing_builds sample_release tt)) = 6 /\
  exists builds, cmds (trace failing_builds sample_release tt) = builds ++ [describe_cmd cloud_project] /\
    built "/src/demo" (Some "/src") (image_of cloud_project "tape-server" "0.1") (image_of cloud_project "demo-reactor" "0.1") "us-central1" builds.
Proof.
  split; [vm_compute; reflexivity|].
  assert (He : exec sample_release (trace failing_builds sample_release tt) (Ok tt)).
  { refine (eq_rect _ (exec _ _) (run_exec failing_builds sample_release tt) _ _). vm_compute. reflexivity. }
  exact (proj2 (cloud_run_writes_the_release plain_yaml with_gcloud has_source ["/src/demo"; "/src"] "/src/demo" "/src/demo/out"
    "0.1" false cloud_project _ He)).
Defined.

Lemma deployed_reactor_refused_witness :
  exists spec, render_cloud_run_reactor cloud_project "img" "outbox" "tapes://h" = Some spec /\
    take 3 (container_command spec) = ["python"; "-m"; "tape.reactors"] /\
    "--only" ∈ container_command spec /\ flag_taken "--only" = false.
Proof.
  apply (deployed_reactor_refused cloud_project "img" "outbox" "tapes://h"). do 2 right. left.
Defined.

Definition sample_dev : Cmd unit :=
  dev with_gcloud (fun _ => true) (fun _ => true) "python3" "" (fun s => s) (fun s => s) (Ok cloud_project) "/src/demo"
    None None None None false 7878.
(** The server and the reactors are started, and stopped when the user interrupts. *)
Lemma dev_stops_what_it_started_witness :
  stopped (trace failing_builds sample_dev tt) = [5; 7]%Z /\
  stopped (trace failing_builds sample_dev tt) = started (trace failing_builds sample_dev tt).
Proof.
  split; [vm_compute; reflexivity|].
  exact (dev_stops_what_it_started with_gcloud (fun _ => true) (fun _ => true) "python3" "" (fun s => s) (fun s => s)
    (Ok cloud_project) "/src/demo" None None None None false 7878 _ _ (run_exec failing_builds sample_dev tt)).
Defined.

Definition sample_provision : Cmd unit :=
  provision_gcp plain_yaml with_tofu (fun _ => true) (Ok cloud_project) "/src/demo" "/tape/modules" (Some "spanner") None None None
    true false "tf".
Lemma provision_replaces_only_modules_witness :
  replaces_only "/src/demo/tf/modules" (trace failing_builds sample_provision tt).
Proof.
  exact (proj1 (provision_replaces_only_modules plain_yaml with_tofu (fun _ => true) (Ok cloud_project) "/src/demo" "/tape/modules"
    (Some "spanner") None None None true false "tf" _ _ (run_exec failing_builds sample_provision tt))).
Defined.
