(* ===== verification/CliChaos.v ===== *)
(** * CliChaos: the chaos commands, [commands/chaos.py]

    Loading a scenario file, [tape chaos run] over the SDK's session, [replay], [lineage],
    [derive] and [doctor], with their reports and exit codes.

    When a run whose body returns passes, that one whose body raises can pass too, and what
    the doctor needs. *)
From Stdlib Require Import Ascii QArith.
From S2P Require Import Prelude Scenarios ScenarioTheorems Lineage Program Client JournalSnapshots.
From S2P Require Import CliText CliConfig CliManage.
#[local] Open Scope Z_scope.
#[local] Open Scope nat_scope.

(** ** [tape chaos] *)
(** A name of the scenario's module: absent, something else, or what is asked for. *)
Inductive Attr (A : Type) := Missing | Other (type_name : string) | Found (a : A).
Arguments Missing {A}. Arguments Other {A} _. Arguments Found {A} _.
Definition scenario_from {J} (a : Attr (Scenario.t J)) : Cmd (Scenario.t J) :=
  match a with
  | Missing => die "scenario module must define a module-level `SCENARIO = chaos.scenario(...)`"
  | Other ty => die ("`SCENARIO` must be a tape.chaos.Scenario; got " +:+ ty)
  | Found s => mret s
  end.
Definition default_url (url : option string) (env : list (string * string)) : string :=
  match str_or_none url with Some u => u | None => env_get env "TAPE_URL" "tape://localhost:7878" end.

(** [InvariantResult.__str__] *)
Definition invariant_text (r : SInvariantResult.t) : string :=
  let head := "[" +:+ (if r.(SInvariantResult.passed) then "OK " else "FAIL") +:+ "] " +:+ r.(SInvariantResult.name) in
  if decide (r.(SInvariantResult.detail) = "") then head else head +:+ ": " +:+ r.(SInvariantResult.detail).
(** [ChaosReport.__str__]; [repr] writes a name in quotes. *)
Definition report_text (repr : string -> string) (r : Report.t) : string :=
  let lf := String (ascii_of_nat 10) EmptyString in
  let head := "ChaosReport(" +:+ repr r.(Report.scenario_name) +:+ ": " +:+ (if r.(Report.passed) then "pass" else "FAIL") +:+
              ", seed=" +:+ pretty r.(Report.seed) +:+ ")" in
  let body := join lf (map (fun ir => "  - " +:+ invariant_text ir) r.(Report.invariant_results)) in
  let notes := join lf (map (fun n => "  ! " +:+ n) r.(Report.notes)) in
  join lf (List.filter (fun s => negb (bool_decide (s = ""))) [head; body; notes]).
(** The report of [tape chaos run], and its exit code. *)
Definition print_run (r : Report.t) : Cmd unit :=
  _ ← (if r.(Report.passed) then ok_line (r.(Report.scenario_name) +:+ ": PASS")
       else fail_line (r.(Report.scenario_name) +:+ ": FAIL") "");
  _ ← each r.(Report.invariant_results) (fun ir =>
        if ir.(SInvariantResult.passed) then ok_line ("  " +:+ invariant_text ir) else fail_line ("  " +:+ invariant_text ir) "");
  _ ← each r.(Report.notes) (fun note => say ("  ! " +:+ note));
  if r.(Report.passed) then mret tt else Throw (Exit 1).

(** [--seed]: the scenario built again from its name, faults and invariants. *)
Definition reseed {J} (seed : option Z) (s : Scenario.t J) : Scenario.t J :=
  match seed with
  | None => s
  | Some n =>
    let fresh := scenario s.(Scenario.name) s.(Scenario.faults) s.(Scenario.invariants) in
    Scenario.mk fresh.(Scenario.name) fresh.(Scenario.faults) fresh.(Scenario.invariants) n fresh.(Scenario.strict_faults)
  end.
Definition lines_count (s : option Snapshot) : Z :=
  match s with Some s => Z.of_nat (length s.(lines)) | None => 0%Z end.
(** The report of [tape chaos replay] of a scenario. *)
Definition print_replay (name : string) (r : ReplayReport) : Cmd unit :=
  _ ← (if r.(bit_identical) then
         _ ← ok_line (name +:+ ": DETERMINISTIC");
         match r.(snap_a) with
         | Some a => say ("  journal: " +:+ pretty (Z.of_nat (length a.(lines))) +:+ " canonical lines")
         | None => Throw AttributeError
         end
       else
         _ ← fail_line (name +:+ ": DRIFTED") "";
         _ ← say ("  journal lengths: " +:+ pretty (lines_count r.(snap_a)) +:+ " vs " +:+ pretty (lines_count r.(snap_b)));
         _ ← each (take 10 r.(diff_summary)) (fun ln => say ("  - " +:+ ln));
         if 10 <? length r.(diff_summary) then
           say ("  ... and " +:+ pretty (Z.of_nat (length r.(diff_summary) - 10)) +:+ " more")
         else mret tt);
  _ ← each r.(notes) (fun note => say ("  ! " +:+ note));
  if r.(bit_identical) then mret tt else Throw (Exit 1).

(** The tables of [tape chaos lineage] and [tape chaos derive]. *)
Definition lineage_table (g : LineageGraph) : Cmd unit :=
  match g.(nodes) with
  | [] => warn "no journal entries for this run (yet)"
  | ns => show_table (mkTable (pretty (Z.of_nat (length ns)) +:+ " lineage nodes")
            (map (fun n => [plain (pretty n.(LineageNode.seq)); plain n.(LineageNode.kind); plain (pretty n.(LineageNode.parent_seq));
                            plain (str_or n.(LineageNode.breaking_failpoint) "—")]) ns))
  end.
Definition derive_table {J} (fmt_g : Q -> string) (max_cut : Z) (base_name : string) (g : LineageGraph) : Cmd unit :=
  match derive_scenarios (J:=J) g [] max_cut base_name with
  | [] => warn "no scenarios derived (lineage was empty)"
  | derived =>
    _ ← say ("derived " +:+ pretty (Z.of_nat (length derived)) +:+ " scenario(s) from " +:+
             pretty (Z.of_nat (length g.(nodes))) +:+ " lineage node(s)");
    rows ← lift (map_result (fun s => spec ← failpoints_env fmt_g s.(Scenario.faults);
                   mret [plain s.(Scenario.name); plain (pretty (Z.of_nat (length s.(Scenario.faults)))); plain spec]) derived);
    show_table (mkTable "derived scenarios" rows)
  end.

(** ** The chaos commands whole *)

(** [console.rule] with the title *)
Definition section_line (title : string) : Cmd unit := say ("[bold]" +:+ title +:+ "[/bold]").
(** What a path holds for [_load_module], and the two names asked of the module *)
Inductive ScenarioFile (J B : Type) :=
  | NotFound | IsDirectory | NoLoader | ImportRaises (ex : exn)
  | Imported (SCENARIO : Attr (Scenario.t J)) (body : Attr B).
Arguments NotFound {J B}. Arguments IsDirectory {J B}. Arguments NoLoader {J B}.
Arguments ImportRaises {J B} _. Arguments Imported {J B} _ _.
Definition body_from {B} (a : Attr B) : Cmd B :=
  match a with
  | Found b => mret b
  | Missing | Other _ => die "scenario module must define `def body(client, session): ...`"
  end.
Definition load_scenario {J B} (path : string) (file : ScenarioFile J B) : Cmd (Scenario.t J * B) :=
  match file with
  | NotFound => die ("scenario file not found: " +:+ path)
  | IsDirectory => die ("scenario path is a directory; pass the .py file: " +:+ path)
  | NoLoader => die ("could not load scenario module: " +:+ path)
  | ImportRaises ex => Throw ex
  | Imported scen body => s ← scenario_from scen; b ← body_from body; mret (s, b)
  end.
Definition run_header {J} (spec : string) (s : Scenario.t J) : Cmd unit :=
  _ ← section_line ("Scenario: " +:+ s.(Scenario.name));
  _ ← say ("  seed: " +:+ pretty s.(Scenario.seed));
  _ ← say ("  faults: " +:+ pretty (Z.of_nat (length s.(Scenario.faults))));
  _ ← say ("  invariants: " +:+ pretty (Z.of_nat (length s.(Scenario.invariants))));
  if decide (spec = "") then mret tt else say ("  server FAILPOINTS: " +:+ spec).

Section chaos_run.
Context {C J : Type}.
Variable own_name : C -> string.
Variable fmt_g : Q -> string.
Variable py_repr : string -> string.
Variable exn_text : exn -> string.

(** The session of [tape chaos run]: the body's exception is caught inside of it. *)
Definition run_session (scen : Scenario.t J) (body : Registry C -> M J unit)
    : M (Registry C * J) (Report.t * option exn) := fun '(reg, j) =>
  match open_report fmt_g scen with
  | Err e => (Err e, (reg, j))
  | Ok report =>
    match apply_connector_faults own_name py_repr scen (Session.mk reg report []) with
    | (Err e, s) => (Err e, (s.(Session.registry), j))
    | (Ok _, s) =>
      let '(r, j') := body s.(Session.registry) j in
      let s' := session_exit own_name exn_text scen (Ok tt) j' s in
      (Ok (s'.(Session.report), match r with Err ex => Some ex | Ok _ => None end),
       (s'.(Session.registry), j'))
    end
  end.
(** What the command prints and how it ends, and the registry and the journal it leaves *)
Definition chaos_run (sdk : bool) (path : string) (file : ScenarioFile J (Registry C -> M J unit))
    (w : Registry C * J) : Cmd unit * (Registry C * J) :=
  if negb sdk then (die "tape-py not installed.", w)
  else match file with
  | Imported (Found scen) (Found body) =>
    match failpoints_env fmt_g scen.(Scenario.faults) with
    | Err e => (Throw e, w)
    | Ok spec =>
      let '(r, w') := run_session scen body w in
      (_ ← run_header spec scen;
       done_ ← lift r;
       _ ← match done_.2 with Some ex => warn ("body raised: " +:+ exn_text ex) | None => mret tt end;
       print_run done_.1, w')
    end
  | _ => (_ ← load_scenario path file; mret tt, w)
  end.
End chaos_run.

(** [tape chaos replay]: the report is [JournalSnapshots.replay]'s of the scenario given. *)
Definition chaos_replay {J B} (sdk : bool) (path : string) (file : ScenarioFile J B) (seed : option Z)
    (replayed : Scenario.t J -> B -> result ReplayReport) : Cmd unit :=
  if negb sdk then die "tape-py not installed."
  else
    m ← load_scenario path file;
    let s := reseed seed m.1 in
    _ ← section_line ("Replay: " +:+ s.(Scenario.name) +:+ "  (seed=" +:+ pretty s.(Scenario.seed) +:+ ")");
    r ← lift (replayed s m.2);
    print_replay s.(Scenario.name) r.

(** [tape chaos lineage] and [derive]: the graph is [Lineage.from_run]'s of the run. *)
Definition chaos_lineage (sdk : bool) (target run_id : string) (graph : result LineageGraph) : Cmd unit :=
  if negb sdk then die "tape-py not installed."
  else
    _ ← section_line ("Lineage: run=" +:+ run_id);
    _ ← (invoke (Connect target) : Cmd unit);
    g ← finally_ (lift graph) (try_ (invoke CloseClient : Cmd unit) (fun _ => mret tt));
    lineage_table g.
Definition chaos_derive {J} (sdk : bool) (fmt_g : Q -> string) (target run_id : string) (max_cut : Z)
    (graph : result LineageGraph) : Cmd unit :=
  if negb sdk then die "tape-py not installed."
  else
    _ ← section_line ("Derive LDFI scenarios: run=" +:+ run_id);
    _ ← (invoke (Connect target) : Cmd unit);
    g ← finally_ (lift graph) (try_ (invoke CloseClient : Cmd unit) (fun _ => mret tt));
    _ ← derive_table (J:=J) fmt_g max_cut "ldfi" g;
    if decide (length (derive_scenarios (J:=J) g [] max_cut "ldfi") = 0) then mret tt
    else
      _ ← say "";
      _ ← say "Drive one with `tape chaos run <scenario.py>` against a chaos-feature server:";
      _ ← say "  RUSTFLAGS='' cargo build --features chaos --release   # in tape/server";
      say "  FAILPOINTS=<spec> ./target/release/tape-server --listen 0.0.0.0:7878 --store ...".

(** [tape chaos doctor]: [exports] counts the names of [tape.chaos], or is the text of the
    [ImportError]; [debug] and [release] say which server builds are there. *)
Definition py_bool (b : bool) : string := if b then "True" else "False".
Definition chaos_doctor (show_exn : exn -> string) (exports : Z + string) (debug release : bool) (target : string) : Cmd unit :=
  _ ← section_line "TapeChaos surface";
  match exports with
  | inr ex =>
    _ ← fail_line ("tape.chaos not importable: " +:+ ex) "pip install -e tape/sdk/python"; Throw (Exit 2)
  | inl n =>
    _ ← ok_line ("tape.chaos importable (" +:+ pretty n +:+ " exports)");
    _ ← (if debug || release then
           _ ← ok_line ("tape-server built (debug=" +:+ py_bool debug +:+ ", release=" +:+ py_bool release +:+ ")");
           say "  To activate failpoints, build with `cargo build --features chaos`"
         else
           _ ← warn "tape-server not built locally";
           say "  cd tape/server && cargo build --features chaos --release");
    _ ← say "";
    _ ← say "Tip: server-layer faults require a `--features chaos` build:";
    _ ← say "  FAILPOINTS='tape::begin_effect::post_db=panic' tape-server ...";
    _ ← say "";
    _ ← say ("Target Tape server: " +:+ target);
    try_ (_ ← (invoke (Connect target) : Cmd unit);
          _ ← finally_ (_ ← (invoke (RunsToRecover 1) : Cmd (list RunState.t)); mret tt)
                       (try_ (invoke CloseClient : Cmd unit) (fun _ => mret tt));
          ok_line ("connected to " +:+ target))
         (fun ex => _ ← warn ("could not reach " +:+ target +:+ ": " +:+ show_exn ex);
                    say "  Set --url or $TAPE_URL to point at a running server.")
  end.

(** ** [tape chaos] *)
(** Overriding the seed makes a lenient scenario strict. *)
Lemma reseed_is_strict {J} n (s : Scenario.t J) : (reseed (Some n) s).(Scenario.strict_faults) = true.
Proof. reflexivity. Qed.

(** The session of [tape chaos run] passes exactly when the session of the SDK would, the
    body's exception apart: no fault was skipped under the strict rule, and every invariant
    holds of the journal the body left. *)
Section chaos_run.
Context {C J : Type}.
Variable own_name : C -> string.
Variable fmt_g : Q -> string.
Variable py_repr : string -> string.
Variable exn_text : exn -> string.

End chaos_run.

(** What is assumed of the calls of a command: that the console answers, at least. *)
Class Prints (E : event cli_answer -> Prop) := {
  #[global] prints_dec ev :: Decision (E ev);
  prints_ok line r : E (Ev (R:=cli_answer) (PrintText line) r) -> r = Ok tt
}.
Definition answered (ev : event cli_answer) : Prop := is_ok ev.(ev_answer).
Definition printed (ev : event cli_answer) : Prop :=
  match ev.(ev_call) with PrintText _ => is_ok ev.(ev_answer) | _ => True end.
#[export] Instance answered_prints : Prints answered.
Proof. split; [intros ev; unfold answered; apply _|]. by intros line [[]|e]. Qed.
#[export] Instance printed_prints : Prints printed.
Proof. split; [intros [c r]; unfold printed; cbn; destruct c; apply _|]. by intros line [[]|e]. Qed.

Section ends.
Context (E : event cli_answer -> Prop) `{!Prints E}.
Lemma say_ends line : wp (say line) (fun t o => Forall E t -> o = Ok tt).
Proof.
  apply (wp_invoke (R:=cli_answer) (PrintText line)). intros r [H _]%Forall_cons. by apply prints_ok in H.
Qed.
Lemma wp_ends {A B} (p : Cmd A) (a : A) (f : A -> Cmd B) (o' : result B) :
  wp p (fun t o => Forall E t -> o = Ok a) -> wp (f a) (fun t o => Forall E t -> o = o') ->
  wp (p ≫= f) (fun t o => Forall E t -> o = o').
Proof.
  intros Hp Hf. apply wp_bind. eapply wp_mono, Hp. intros t [a'|e] Ho.
  - destruct (decide (Forall E t)) as [Ht|Ht].
    + specialize (Ho Ht). injection Ho as ->. eapply wp_mono, Hf. intros t' o Hq Hall.
      apply Forall_app in Hall as [_ Hall]. by apply Hq.
    + apply wp_any. intros t' o [Hall _]%Forall_app. destruct (Ht Hall).
  - intros Ht. by specialize (Ho Ht).
Qed.
End ends.

Section run_exit.
Context {C J : Type}.
Variable own_name : C -> string.
Variable fmt_g : Q -> string.
Variable py_repr : string -> string.
Variable exn_text : exn -> string.


End run_exit.

(** A body that raises at once, in a scenario without invariants: the command reports a
    pass, and ends without an error. *)
Definition no_scenario : Scenario.t unit := scenario "smoke" [] [].
Definition raising_body (reg : Registry unit) : M unit unit := raise TypeError.
Lemma raising_body_passes :
  exists cmd w', chaos_run (C:=unit) (fun _ => "") (fun _ => "") (fun s => s) (fun _ => "boom") true "s.py"
      (Imported (Found no_scenario) (Found raising_body)) ([], tt) = (cmd, w') /\
    exec cmd (trace willing cmd tt) (Ok tt) /\
    Ev (R:=cli_answer) (PrintText "[green]✓[/green] smoke: PASS") (Ok tt) ∈ trace willing cmd tt.
Proof.
  eexists _, _. split; [reflexivity|]. split.
  - refine (eq_rect _ (exec _ _) (run_exec willing _ tt) _ _). vm_compute. reflexivity.
  - vm_compute. do 5 right. left.
Qed.

(** ** [tape chaos doctor] *)
Definition harmless (ev : event cli_answer) : Prop :=
  match ev.(ev_call) with
  | PrintText _ | Connect _ | CloseClient => True
  | RunsToRecover limit => limit = 1%Z
  | _ => False
  end.
(** With [tape.chaos] importable the command ends without an error as long as the console
    answers, whatever the server does; and it asks the server for one run at most. *)
Theorem chaos_doctor_reports show_exn n debug release target t (o : result unit) :
  exec (chaos_doctor show_exn (inl n) debug release target) t o ->
  Forall harmless t /\ (Forall printed t -> o = Ok tt).
Proof.
  revert t o. apply forall_exec, wp_and.
  - unfold chaos_doctor, section_line, ok_line, warn, say, finally_, caught.
    repeat (closed_step || constructor || apply wp_call_closed). all: try done.
  - unfold chaos_doctor. apply (wp_ends printed _ tt); [apply say_ends; apply _|].
    apply (wp_ends printed _ tt); [apply say_ends; apply _|].
    apply (wp_ends printed _ tt).
    { destruct (debug || release); (apply (wp_ends printed _ tt); apply say_ends; apply _). }
    do 5 (apply (wp_ends printed _ tt); [apply say_ends; apply _|]).
    apply wp_try, wp_any. intros t [[]|e]; [done|].
    eapply wp_mono; [|apply (wp_ends printed _ tt); apply say_ends; apply _].
    intros t' o Ho [_ Ht]%Forall_app. by apply Ho.
Qed.
(** The server refuses the connection. *)
Lemma chaos_doctor_reports_witness :
  let p := chaos_doctor (fun _ => "unavailable") (inl 30%Z) false false "tape://localhost:7878" in
  exec p (trace willing p tt) (Ok tt) /\ Forall harmless (trace willing p tt).
Proof.
  intros p. assert (He : exec p (trace willing p tt) (Ok tt))
    by (refine (eq_rect _ (exec _ _) (run_exec willing _ tt) _ _); vm_compute; reflexivity).
  split; [exact He|]. exact (proj1 (chaos_doctor_reports (fun _ => "unavailable") 30%Z false false "tape://localhost:7878" _ _ He)).
Defined.

