(* ===== verification/CliRun.v ===== *)
(** * CliRun: the commands that look, whole

    [run] of [commands/inspect.py], [commands/inspect_adk.py], [commands/tail.py] and
    [commands/doctor.py]: the options, which mode they choose, what a failed import or
    connection ends in, the sections of the doctor, the watched reports, and that the
    client is closed on every path. *)
From Stdlib Require Import Ascii.
From S2P Require Import Prelude Sql Schemas EffectLedger ObligationLedger TimersValues Scenarios Client Program SdkSamples.
From S2P Require Import Samples CliText CliJournal CliConfig CliDoctor CliInspectAdk CliTriageTheorems CliInspect CliChaos.
#[local] Open Scope Z_scope.
#[local] Open Scope nat_scope.

(** [from m import ..], or the message the command dies with *)
Definition import_or_die (m : string) (msg : string) : Cmd unit :=
  try_ (invoke (ImportModule m)) (fun ex => match ex with Raised "ImportError" _ => die msg | _ => Throw ex end).
Definition tape_py_missing : string := "tape-py not installed.
  Fix: pip install tape-py".
Definition tape_adk_missing : string := "tape-adk not installed.
  Fix: pip install tape-adk".

(** ** Watched reports

    The display asks its renderable for the next frame, [n] times until the interrupt. *)
Fixpoint frames {S} (n : nat) (rich : S -> Cmd (S * list Table)) (st : S) : Cmd unit :=
  match n with
  | O => mret tt
  | S n => r ← rich st; _ ← show_tables r.2; frames n rich r.1
  end.

Section run.
Context `{PyText}.
Variable env : list (string * string).

Section urls.
Variable dirs : list string.
Variable exists_file : string -> bool.
Variable read_yaml : string -> result json.
Variable model_validate : json -> result TapeProject.
#[local] Abbreviation url_of url := (resolve_url exists_file read_yaml model_validate url env dirs).

Definition connect_or_die (url : string) : Cmd unit :=
  try_ (invoke (Connect url)) (fun ex => die ("failed to connect to " +:+ url +:+ ": " +:+ str_exn ex)).
(** [try: client.close() except Exception: pass] *)
Definition close_quietly : Cmd unit := try_ (invoke CloseClient) (fun _ => mret tt).

(** ** [tape inspect] *)
(** [_launch_tui]: the import first, then the run, so a wrong id does not end in a blank
    screen. *)
Definition launch_tui (run_id url : string) (from_seq : Z) (start_in_replay : bool) : Cmd unit :=
  _ ← try_ (invoke (ImportModule "._inspector_app")) (fun ex =>
        match ex with
        | Raised "ImportError" _ =>
          die ("Textual not available (" +:+ str_exn ex +:+ ").
  Fix: pip install 'textual>=0.79'
  Or:  tape inspect " +:+ run_id +:+ " --print   (non-interactive fallback)")
        | _ => Throw ex
        end);
  _ ← run_or_die run_id;
  invoke (RunTui run_id url from_seq start_in_replay).

Record InspectOptions := mkInspectOptions {
  in_run_id : option string; in_print : bool; in_raw : bool; in_summary : bool; in_follow : bool;
  in_from_seq : Z; in_limit : option Z; in_list : bool; in_replay : bool; in_url : option string
}.
Definition inspect_run (isatty : bool) (o : InspectOptions) : Cmd unit :=
  let url := url_of o.(in_url) in
  match o.(in_run_id), inspect_mode o.(in_run_id) o.(in_list) o.(in_raw) o.(in_summary) o.(in_print) isatty o.(in_limit) with
  | _, ListRuns limit => _ ← import_or_die "tape.client" tape_py_missing; ls url limit
  | None, _ => mret tt
  | Some run_id, mode =>
    _ ← import_or_die "tape.client" tape_py_missing;
    _ ← connect_or_die url;
    finally_
      (match mode with
       | Raw => do_raw run_id o.(in_from_seq) o.(in_limit) o.(in_follow)
       | Summary => do_summary run_id
       | PrintOnce => do_print run_id o.(in_from_seq) o.(in_limit)
       | _ => launch_tui run_id url o.(in_from_seq) o.(in_replay)
       end)
      close_quietly
  end.

(** ** [tape tail] *)
Definition tail_run (url : option string) (o : TailOptions) : Cmd unit :=
  _ ← import_or_die "tape.client" tape_py_missing; tail (url_of url) o.

(** ** [tape doctor --live] over a server *)
Variable utc_text : Z -> string.
Definition watch_rich (url : string) (interval pending_threshold_ms : Z) (st : View * Z) : Cmd ((View * Z) * list Table) :=
  now ← clock;
  st ← live_poll (take_snapshot pending_threshold_ms) now interval st;
  shown ← clock;
  mret (st, render_report utc_text shown url pending_threshold_ms st.1).
Definition live_triage_run (frames_ : nat) (url : option string) (watch : bool) (interval pending_threshold_ms : Z) : Cmd unit :=
  let url := url_of url in
  _ ← import_or_die "tape.client" tape_py_missing;
  if watch then
    _ ← connect_or_die url;
    finally_
      (last ← take_snapshot pending_threshold_ms;
       now ← clock;
       frames frames_ (watch_rich url interval pending_threshold_ms) (last, now + interval)%Z)
      close_quietly
  else live_triage utc_text url pending_threshold_ms.
End urls.

(** ** The embedded store

    What [asyncio.run] gives of the queries, which may raise. *)
Section embedded.
Variable pull_session : string -> SKey -> Cmd SessionSnap.
Variable pull_store : string -> Cmd (list StorageEffect.t * list StorageObligation.t * list StorageTimer.t).
Variable pull_triage : string -> Z -> Cmd (Snapshot RunState.t EffectRecord.t ObligationRecord.t TimerRecord.t * nat).
(** [json.dumps(snap, default=str, indent=2)] and the two clocks' texts *)
Variable snap_text : SessionSnap -> string.
Variable clock_text utc_text : Z -> string.

(** [live_journal]: nothing is read before the first frame. *)
Definition journal_rich (db_url reactor_note : string) (interval : Z)
    (st : (list StorageEffect.t * list StorageObligation.t * list StorageTimer.t) * Z) :=
  now ← clock;
  st ← live_poll_adk (pull_store db_url) now interval st;
  shown ← clock;
  (mret (st, live_panel shown (clock_text shown) db_url reactor_note st.1) : Cmd _).
Definition live_journal (frames_ : nat) (db_url reactor_note : string) (interval : Z) : Cmd unit :=
  _ ← import_or_die "tape_adk" tape_adk_missing;
  frames frames_ (journal_rich db_url reactor_note interval) (([], [], []), 0%Z).

(** [tape inspect-adk] *)
Definition no_db_url : string :=
  "no --db-url and no $TAPE_ADK_DB_URL — pass --db-url sqlite+aiosqlite:///./tape.db".
Definition inspect_adk_run (frames_ : nat) (session_id app user db_url : option string) (follow raw : bool) : Cmd unit :=
  match resolve_db_url db_url env with
  | None => die no_db_url
  | Some resolved =>
    if follow then live_journal frames_ resolved "" 600
    else match str_or_none session_id, str_or_none app, str_or_none user with
    | Some sid, Some app, Some user =>
      _ ← import_or_die "tape_adk" tape_adk_missing;
      snap ← pull_session resolved (mkSKey app user sid);
      match snap.(sn_session) with
      | None => die ("session not found: app=" +:+ app +:+ " user=" +:+ user +:+ " id=" +:+ sid)
      | Some _ =>
        if raw then say (snap_text snap)
        else
          now_ms ← clock;
          _ ← show_table (header_panel resolved snap.(sn_session));
          events ← lift (events_table snap.(sn_events));
          _ ← show_tables [events; adk_effects_table now_ms snap.(sn_effects);
                           adk_obligations_table now_ms snap.(sn_obligations); adk_timers_table now_ms snap.(sn_timers)];
          if decide (inspect_code snap = 0%Z) then mret tt else Throw (Exit (inspect_code snap))
      end
    | _, _, _ => die "snapshot mode needs <session-id> + --app + --user (or pass --follow for the live view)."
    end
  end.

(** [_live_triage_adk] *)
Definition triage_rich (db_url : string) (interval pending_threshold_ms : Z) st :=
  now ← clock;
  st ← live_poll_adk (pull_triage db_url pending_threshold_ms) now interval st;
  shown ← clock;
  (mret (st, render_adk_report utc_text shown db_url pending_threshold_ms st.1.2 st.1.1) : Cmd _).
Definition live_triage_adk_run (frames_ : nat) (db_url : string) (watch : bool) (interval pending_threshold_ms : Z) : Cmd unit :=
  _ ← import_or_die "tape_adk" tape_adk_missing;
  last ← pull_triage db_url pending_threshold_ms;
  if watch then now ← clock; frames frames_ (triage_rich db_url interval pending_threshold_ms) (last, now + interval)%Z
  else
    shown ← clock;
    _ ← show_tables (render_adk_report utc_text shown db_url pending_threshold_ms last.2 last.1);
    if decide (exit_code last.1 = 0%Z) then mret tt else Throw (Exit (exit_code last.1)).
End embedded.

(** ** [tape doctor] without [--live] *)
Section doctor.
Variable python : Z * Z * Z.
Variable import_module : string -> result unit.
Variable which : string -> option string.
Variable connect : string -> Z -> result unit.
Variable adc : result (string * string).
Variable usage_client : result unit.
Variable api_state : string -> string -> result string.
Variable agents_yaml : bool.
(** [find_project_root()] and [TapeProject.load], with the root *)
Variable project : result (string * TapeProject).

Definition tenancy_warning : string :=
  "tenancy.mode=hard_multi_tenant requested but the Tape proto and stores do not yet carry a first-class tenant_id. Cross-tenant data isolation cannot be enforced at the runtime; this mode is DESIGN-ONLY today. Track the proto change before enabling.".
Definition not_found (ex : exn) : bool :=
  match ex with Raised name _ => bool_decide (name = "FileNotFoundError") | _ => false end.
(** A project that is not there is reported; one that does not load raises. *)
Definition find_project : Cmd (option TapeProject) :=
  match project with
  | Ok (root, p) => _ ← ok_line ("Tape project detected — " +:+ root); mret (Some p)
  | Err ex => if not_found ex then _ ← warn "no tape.yaml found; running standalone checks."; mret None else Throw ex
  end.
Definition section_of (wanted : bool) (title : string) (before : Cmd unit) (rs : list CheckResult) : Cmd nat :=
  if wanted then _ ← section_line title; _ ← before; print_checks rs else mret 0.
Definition doctor_checks (local gcp_ agents_cli_aware : bool) : Cmd unit :=
  p ← find_project;
  fails ← section_of local "Local" (mret tt) (local_results python import_module which connect env p);
  let project_id := gcp_project_id env p in
  fails_gcp ← section_of gcp_ "GCP"
    (if decide (project_id = "") then mret tt else ok_line ("project_id = " +:+ project_id))
    (gcp_results which env adc usage_client api_state p);
  fails_adv ← section_of (match p with Some _ => agents_cli_aware | None => false end)
    "agents-cli compatibility (advisory)" (mret tt) [scaffold_result agents_yaml];
  _ ← (match p with
       | Some p =>
         if decide (p.(tenancy).(tn_mode) = HardMultiTenant) then
           _ ← section_line "Tenancy";
           if is_hard (PlainText "hard_multi_tenant") then warn tenancy_warning else mret tt
         else mret tt
       | None => mret tt
       end);
  _ ← say "";
  let fails := fails + fails_gcp + fails_adv in
  if decide (fails = 0) then ok_line "all checks passed."
  else _ ← fail_line (pretty fails +:+ " check(s) failed.") ""; Throw (Exit 1).
End doctor.

(** [run]: which of them. *)
Definition doctor_run (live : bool) (url db_url : option string) (embedded : string -> Cmd unit)
    (over_server : option string -> Cmd unit) (checks : Cmd unit) : Cmd unit :=
  if live then
    match live_mode url db_url env with
    | Refused => die "--url and --db-url are mutually exclusive. Pick one: --url (gRPC) or --db-url (embedded)."
    | Embedded u => embedded u
    | OverServer u => over_server u
    end
  else checks.
End run.

(** ** The client is closed *)
Definition opens (e : event cli_answer) : bool := match e with Ev (Connect _) (Ok _) => true | _ => false end.
Definition closes (e : event cli_answer) : bool := match e.(ev_call) with CloseClient => true | _ => false end.
Definition times (f : event cli_answer -> bool) (t : list (event cli_answer)) : nat := length (List.filter f t).
Definition unconnected (e : event cli_answer) : Prop :=
  match e.(ev_call) with Connect _ | CloseClient => False | _ => True end.

Lemma times_app f t t' : times f (t ++ t') = times f t + times f t'.
Proof. unfold times. by rewrite List.filter_app, length_app. Qed.
Lemma unconnected_times t : Forall unconnected t -> times opens t = 0 /\ times closes t = 0.
Proof.
  induction 1 as [|[c r] t He _ [IH1 IH2]]; [done|]. unfold times in *.
  cbn. unfold opens at 1, closes at 1. destruct c; done.
Qed.

Section closing.
Context `{PyText}.
#[local] Abbreviation apart p := (wp p (fun t _ => Forall unconnected t)).

Lemma until_apart {A S} (body : A -> S -> Cmd (S * bool)) es s :
  (forall a s, apart (body a s)) -> apart (until body es s).
Proof.
  intros Hb. revert s. induction es as [|e es IH]; intros s; cbn [until]; [by closed_step|].
  repeat (assumption || apply Hb || apply IH || closed_step).
Qed.
Lemma over_stream_apart {S} (body : WireEntry.t -> S -> Cmd (S * bool)) it s :
  (forall e s, apart (body e s)) -> apart (over_stream body it s).
Proof.
  intros Hb. unfold over_stream. pose proof (until_apart body it.1 s Hb).
  repeat (assumption || closed_step).
Qed.
Lemma call_apart (c : cli_call) : match c with Connect _ | CloseClient => False | _ => True end -> apart (invoke c).
Proof.
  intros Hc. apply wp_call_closed; [apply _| |intros r; apply wp_lift_closed; apply _].
  intros r. apply Forall_singleton. by destruct c.
Qed.

Ltac apart_step :=
  first [ apply until_apart; intros ? ? | apply over_stream_apart; intros ? ? | apply call_apart; exact I
        | closed_step
        | progress unfold do_raw, do_summary, do_print, launch_tui, run_or_die, try_rpc, die, drain, print_until, drain_step,
            cancel, clock, say, show_table, ok_line, warn, show_tables, take_snapshot, safe, import_or_die, open_tail,
            tail_step, live_poll, watch_rich, fail_line, print_check ].
Ltac apart := repeat apart_step.

(** What is opened is closed, whatever was raised in between. *)
Definition balanced (t : list (event cli_answer)) : Prop := times opens t = times closes t.
#[local] Instance balanced_closed : Closed balanced.
Proof. split; [done|]. unfold balanced. intros t t'. rewrite !times_app. by intros -> ->. Qed.
Lemma apart_balanced {A} (p : Cmd A) : apart p -> wp p (fun t _ => balanced t).
Proof. apply wp_mono. intros t _ Ht. unfold balanced. by destruct (unconnected_times t Ht) as [-> ->]. Qed.

(** [try: body finally: client.close()], the failure of the close ignored or not *)
Lemma finally_closes {A} (body : Cmd A) (close : Cmd unit) :
  apart body -> (exists h, close = try_ (invoke CloseClient) h /\ forall ex, apart (h ex)) \/ close = invoke CloseClient ->
  wp (finally_ body close) (fun t _ => times opens t = 0 /\ times closes t = 1).
Proof.
  intros Hb Hc. unfold finally_. apply wp_bind, wp_caught. eapply wp_mono; [|exact Hb].
  intros t o [H1 H2]%unconnected_times. apply wp_bind.
  assert (wp close (fun t' _ => times opens t' = 0 /\ times closes t' = 1)) as Hclose.
  { destruct Hc as [(h & -> & Hh)| ->]; [apply wp_try|]; intros [[]|ex]; try done.
    cbn [lift wp]. eapply wp_mono; [|apply Hh]. intros t' o' [H3 H4]%unconnected_times. rewrite !times_app, H3, H4. done. }
  eapply wp_mono; [|exact Hclose]. intros t' [[]|ex] [H3 H4]; rewrite ?times_app; [|rewrite H1, H2, H3, H4; done].
  destruct o; cbn [wp]; rewrite !times_app, H1, H2, H3, H4; done.
Qed.

(** A connection that was made is one to be closed. *)
Definition connecting (t : list (event cli_answer)) (o : result unit) : Prop :=
  times opens t = (match o with Ok _ => 1 | Err _ => 0 end) /\ times closes t = 0.
Lemma connected_balanced {A} (c : Cmd unit) (body : Cmd A) :
  wp c connecting -> wp body (fun t _ => times opens t = 0 /\ times closes t = 1) ->
  wp (_ ← c; body) (fun t _ => balanced t).
Proof.
  intros Hc Hb. apply wp_bind. eapply wp_mono; [|exact Hc]. intros t [[]|e] [H1 H2]; [|by unfold balanced; rewrite H1, H2].
  eapply wp_mono; [|exact Hb]. intros t' o' [H3 H4]. unfold balanced. by rewrite !times_app, H1, H2, H3, H4.
Qed.
Lemma connect_connecting url : wp (invoke (Connect url)) connecting.
Proof. by intros [[]|e]. Qed.
Lemma connect_or_die_connecting url : wp (connect_or_die url) connecting.
Proof.
  unfold connect_or_die, die, say. intros [[]|e]; [done|]. by intros [[]|e'].
Qed.

Section closed.
Variable env : list (string * string).
Variable dirs : list string.
Variable exists_file : string -> bool.
Variable read_yaml : string -> result json.
Variable model_validate : json -> result TapeProject.
Variable utc_text : Z -> string.

Ltac quiet_close := apply finally_closes; [apart|left; eexists; split; [reflexivity|intros ?; apart]].

Lemma ls_balanced url limit : wp (ls url limit) (fun t _ => balanced t).
Proof.
  unfold ls. apply wp_bind_closed; [apply _| |intros runs; apply apart_balanced; destruct runs; apart].
  apply wp_try_closed; [apply _| |intros ex; apply apart_balanced; apart].
  apply connected_balanced; [apply connect_connecting|apply finally_closes; [apart|by right]].
Qed.

(** Every mode of [tape inspect], however it ends, closes the client it opened, once. *)
Theorem inspect_closes_its_client isatty o t r :
  exec (inspect_run env dirs exists_file read_yaml model_validate isatty o) t r -> balanced t.
Proof.
  revert t r. apply forall_exec. unfold inspect_run.
  assert (forall m msg, wp (import_or_die m msg) (fun t _ => balanced t)) as Himport
    by (intros; apply apart_balanced; apart).
  destruct (in_run_id o) as [run_id|], (inspect_mode _ _ _ _ _ _ _);
    repeat (apply wp_bind_closed; [apply _|by apply Himport|intros _]);
    try apply ls_balanced; try (apply wp_ret_closed; apply _);
    (apply connected_balanced; [apply connect_or_die_connecting|quiet_close]).
Qed.

Lemma frames_apart {S} n (rich : S -> Cmd (S * list Table)) st :
  (forall st, apart (rich st)) -> apart (frames n rich st).
Proof.
  intros Hr. revert st. induction n as [|n IH]; intros st; cbn [frames]; [apart|].
  apply wp_bind_closed; [apply _|apply Hr|intros r]. apply wp_bind_closed; [apply _|apart|intros _]. apply IH.
Qed.

(** So does the triage of a server, watched or not. *)
Theorem triage_closes_its_client frames_ url watch interval threshold t r :
  exec (live_triage_run env dirs exists_file read_yaml model_validate utc_text frames_ url watch interval threshold) t r ->
  balanced t.
Proof.
  revert t r. apply forall_exec. unfold live_triage_run.
  apply wp_bind_closed; [apply _|apply apart_balanced; apart|intros _]. destruct watch.
  - apply connected_balanced; [apply connect_or_die_connecting|].
    apply finally_closes; [|left; eexists; split; [reflexivity|intros ?; apart]].
    apply wp_bind_closed; [apply _|apart|intros last]. apply wp_bind_closed; [apply _|apart|intros now].
    apply frames_apart. intros st. apart.
  - unfold live_triage. apply (connected_balanced (connect_or_die _)); [apply connect_or_die_connecting|]. quiet_close.
Qed.
End closed.
End closing.

(** ** The doctor's verdict *)
Definition answered (e : event cli_answer) : Prop := match e.(ev_answer) with Ok _ => True | Err _ => False end.
(** The project the checks run on, or what loading it raised. *)
Definition project_seen (project : result (string * TapeProject)) : result (option TapeProject) :=
  match project with
  | Ok (_, p) => Ok (Some p)
  | Err ex => if not_found ex then Ok None else Err ex
  end.
(** A program that only prints: with what it prints taken, it ends in [o]. *)
Definition prints_to {A} (p : Cmd A) (o : result A) : Prop := wp p (fun t o' => Forall answered t -> o' = o).
Lemma prints_bind {A B} (p : Cmd A) (f : A -> Cmd B) a o : prints_to p (Ok a) -> prints_to (f a) o -> prints_to (p ≫= f) o.
Proof.
  intros Hp Hf. apply wp_bind. eapply wp_mono; [|exact Hp]. intros t [a'|e] Ha.
  - apply exec_wp. intros t' o' He [Ht Ht']%Forall_app. injection (Ha Ht) as ->. by apply (wp_exec _ _ _ _ Hf He).
  - intros Ht. by specialize (Ha Ht).
Qed.
Lemma prints_exec {A} (p : Cmd A) o t o' : prints_to p o -> exec p t o' -> Forall answered t -> o' = o.
Proof. intros Hp He. exact (wp_exec _ _ _ _ Hp He). Qed.
Lemma prints_call (c : cli_call) (a : cli_answer c) : (forall r, r = a) -> prints_to (invoke c) (Ok a).
Proof. intros Hu [r|e]; cbn; [by rewrite (Hu r)|]. intros Ht. by inversion Ht. Qed.
Lemma prints_say s : prints_to (say s) (Ok tt).
Proof. apply prints_call. by intros []. Qed.
Lemma prints_checks rs : prints_to (print_checks rs) (Ok (count_failed rs)).
Proof.
  unfold print_checks. eapply (prints_bind _ _ (replicate (length rs) tt)); [|by intros _].
  induction rs as [|r rs IH]; cbn [each replicate length]; [by intros _|].
  eapply prints_bind; [|eapply prints_bind; [exact IH|by intros _]].
  unfold print_check, ok_line, fail_line. destruct (ck_ok r); [apply prints_say|].
  eapply prints_bind; [apply prints_say|]. case_decide; [by intros _|apply prints_say].
Qed.

Lemma prints_section wanted title before rs :
  prints_to before (Ok tt) -> prints_to (section_of wanted title before rs) (Ok (if wanted then count_failed rs else 0)).
Proof.
  intros Hb. unfold section_of. destruct wanted; [|by intros _].
  eapply prints_bind; [apply prints_say|]. eapply prints_bind; [exact Hb|apply prints_checks].
Qed.

Section verdict.
Context `{PyText}.
Variable env : list (string * string).
Variable python : Z * Z * Z.
Variable import_module : string -> result unit.
Variable which : string -> option string.
Variable connect : string -> Z -> result unit.
Variable adc : result (string * string).
Variable usage_client : result unit.
Variable api_state : string -> string -> result string.
Variable agents_yaml : bool.

(** The doctor ends well exactly when no check of the sections asked for failed, and with 1
    otherwise; a project file that does not load ends it with what loading raised, and only
    a missing one is passed over. *)
Theorem doctor_verdict project local gcp_ advisory t o :
  exec (doctor_checks env python import_module which connect adc usage_client api_state agents_yaml project local gcp_ advisory) t o ->
  Forall answered t ->
  o = match project_seen project with
      | Ok p =>
        if decide (doctor_exit python import_module which connect env adc usage_client api_state agents_yaml p local gcp_ advisory = 0%Z)
        then Ok tt else Err (Exit 1)
      | Err ex => Err ex
      end.
Proof.
  apply prints_exec. unfold doctor_checks.
  assert (match project_seen project with Ok p => prints_to (find_project project) (Ok p) | Err ex => find_project project = Throw ex end) as Hp.
  { unfold project_seen, find_project. destruct project as [[root p]|ex]; [|destruct (not_found ex); [|done]];
      (eapply prints_bind; [apply prints_say|by intros _]). }
  destruct (project_seen project) as [p|ex]; [|rewrite Hp; by intros _].
  eapply prints_bind; [exact Hp|]. eapply prints_bind; [apply prints_section; by intros _|].
  eapply prints_bind; [apply prints_section; case_decide; [by intros _|apply prints_say]|].
  eapply prints_bind; [apply prints_section; by intros _|].
  eapply prints_bind.
  { destruct p as [p|]; [case_decide|]; try (by intros _). eapply prints_bind; [apply prints_say|by intros _]. }
  eapply prints_bind; [apply prints_say|].
  unfold doctor_exit, doctor_fails.
  assert (forall n m k n' m' k', n = n' -> m = m' -> k = k' ->
    prints_to (if decide (n + m + k = 0) then ok_line "all checks passed."
               else _ ← fail_line (pretty (n + m + k) +:+ " check(s) failed.") ""; Throw (Exit 1))
      (if decide ((if decide (n' + m' + k' = 0) then 0%Z else 1%Z) = 0%Z) then Ok tt else Err (Exit 1))) as Hend.
  { intros n m k ? ? ? <- <- <-. destruct (decide (n + m + k = 0)); [apply prints_say|].
    rewrite (decide_False (P := 1%Z = 0%Z)) by done.
    apply (prints_bind _ _ tt); [|by intros _]. apply (prints_bind _ _ tt); [apply prints_say|by intros _]. }
  apply Hend; [done..|]. by destruct p as [p|], advisory.
Qed.
End verdict.

(** ** The embedded commands *)
Definition shown_tables (t : list (event cli_answer)) : list Table :=
  flat_map (fun e : event cli_answer => match e.(ev_call) with PrintTable tb => [tb] | _ => [] end) t.
Lemma shown_app t t' : shown_tables (t ++ t') = shown_tables t ++ shown_tables t'.
Proof. apply flat_map_app. Qed.
(** A program that shows tables: with what it prints taken, these and an ending. *)
Definition shows {A} (p : Cmd A) (ts : list Table) (o : result A) : Prop :=
  wp p (fun t o' => Forall answered t -> shown_tables t = ts /\ o' = o).
Lemma shows_bind {A B} (p : Cmd A) (f : A -> Cmd B) a ts ts' o :
  shows p ts (Ok a) -> shows (f a) ts' o -> shows (p ≫= f) (ts ++ ts') o.
Proof.
  intros Hp Hf. apply wp_bind. eapply wp_mono; [|exact Hp]. intros t [a'|e] Ha.
  - apply exec_wp. intros t' o' He [Ht Ht']%Forall_app. destruct (Ha Ht) as [<- [= ->]].
    rewrite shown_app. destruct (wp_exec _ _ _ _ Hf He Ht') as [<- <-]. done.
  - intros Ht. by destruct (Ha Ht).
Qed.
Lemma shows_then {A B} (p : Cmd A) (f : A -> Cmd B) a ts (Q : list (event cli_answer) -> result B -> Prop) :
  shows p ts (Ok a) ->
  (forall t, shown_tables t = ts -> wp (f a) (fun t' o => Forall answered t' -> Q (t ++ t') o)) ->
  wp (p ≫= f) (fun t o => Forall answered t -> Q t o).
Proof.
  intros Hp Hf. apply wp_bind. eapply wp_mono; [|exact Hp]. intros t [a'|e] Ha.
  - apply exec_wp. intros t' o' He [Ht Ht']%Forall_app. destruct (Ha Ht) as [Hts [= ->]].
    by apply (wp_exec _ _ _ _ (Hf t Hts) He).
  - intros Ht. by destruct (Ha Ht).
Qed.
Lemma shows_ret {A} (a : A) : shows (mret a) [] (Ok a).
Proof. by intros _. Qed.
Lemma shows_throw {A} ex : shows (Throw (A:=A) ex) [] (Err ex).
Proof. by intros _. Qed.
Lemma shows_table tb : shows (show_table tb) [tb] (Ok tt).
Proof. intros [[]|e]; [done|]. intros Hf. by inversion Hf. Qed.
Lemma shows_tables ts : shows (show_tables ts) ts (Ok tt).
Proof.
  assert (shows (each ts show_table) ts (Ok (replicate (length ts) tt))) as He.
  { induction ts as [|tb ts IH]; [apply shows_ret|].
    apply (shows_bind (show_table tb) _ tt [tb] ts); [apply shows_table|].
    assert (shows (ys ← each ts show_table; mret (tt :: ys)) (ts ++ []) (Ok (tt :: replicate (length ts) tt))) as Hs
      by (eapply shows_bind; [exact IH|apply shows_ret]).
    by rewrite app_nil_r in Hs. }
  assert (shows (show_tables ts) (ts ++ []) (Ok tt)) as Hs by (eapply shows_bind; [exact He|apply shows_ret]).
  by rewrite app_nil_r in Hs.
Qed.
Lemma shows_die {A} msg : shows (die (A:=A) msg) [] (Err (SystemExit 2)).
Proof. intros [[]|e]; [done|]. intros Hf. by inversion Hf. Qed.
Lemma shows_import m msg : shows (import_or_die m msg) [] (Ok tt).
Proof. intros [[]|e]; [done|]. cbn. apply wp_any. intros t o Hf. by inversion Hf. Qed.

Section embedded.
Context `{PyText}.
Variable env : list (string * string).
Variable pull_store : string -> Cmd (list StorageEffect.t * list StorageObligation.t * list StorageTimer.t).
Variable snap_text : SessionSnap -> string.
Variable clock_text utc_text : Z -> string.
Variable adk_session : SKey -> AdkSession.
Variable adk_events : SKey -> list AdkEvent.
Variable d : Db.t.
(** The queries of the inspector, answered by the store. *)
Definition of_store (_ : string) (k : SKey) : Cmd SessionSnap :=
  lift (session_snapshot adk_session adk_events k d).1.

Lemma inspect_adk_of k url now_ms : (inspect_adk adk_session adk_events k url now_ms d).1 =
  snap ← (session_snapshot adk_session adk_events k d).1;
  match snap.(sn_session) with
  | None => Err (SystemExit 2)
  | Some _ =>
    events ← events_table snap.(sn_events);
    mret ([header_panel url snap.(sn_session); events; adk_effects_table now_ms snap.(sn_effects);
           adk_obligations_table now_ms snap.(sn_obligations); adk_timers_table now_ms snap.(sn_timers)], inspect_code snap)
  end.
Proof.
  unfold inspect_adk, mbind, M_bind, result_bind.
  destruct (session_snapshot adk_session adk_events k d) as [[snap|ex] d']; cbn; [|done].
  destruct (sn_session snap); [|done]. by destruct (events_table _).
Qed.

(** What the command shows and ends in, given the report. *)
Definition reports (t : list (event cli_answer)) (o : result unit) (r : result (list Table * Z)) : Prop :=
  match r with
  | Ok (tables, code) => shown_tables t = tables /\ o = if decide (code = 0%Z) then Ok tt else Err (Exit code)
  | Err ex => o = Err ex
  end.
(** On a store, the command shows the tables of the session and ends with its exit code,
    at whatever time it looks at the clock; a session that is not there, or an event that
    cannot be shown, ends it as it ends the report. *)
Theorem session_command_reports n sid app user db_url url t o :
  resolve_db_url db_url env = Some url -> sid <> "" -> app <> "" -> user <> "" ->
  exec (inspect_adk_run env of_store pull_store snap_text clock_text n (Some sid) (Some app) (Some user) db_url false false) t o ->
  Forall answered t ->
  exists now_ms, reports t o (inspect_adk adk_session adk_events (mkSKey app user sid) url now_ms d).1.
Proof.
  intros Hurl Hs Ha Hu He Hf. pose (Q := fun t o => exists now_ms, reports t o (inspect_adk adk_session adk_events (mkSKey app user sid) url now_ms d).1).
  refine (wp_exec _ (fun t o => Forall answered t -> Q t o) t o _ He Hf). clear He Hf t o.
  unfold inspect_adk_run. rewrite Hurl. destruct sid as [|c1 s1], app as [|c2 s2], user as [|c3 s3]; try done. cbn [str_or_none].
  set (k := mkSKey _ _ _) in *. apply (shows_then _ _ tt []); [apply shows_import|intros t0 H0].
  unfold of_store, Q. destruct (session_snapshot adk_session adk_events k d).1 as [snap|ex] eqn:Hsnap.
  2: { intros _. exists 0%Z. rewrite inspect_adk_of, Hsnap. done. }
  apply (shows_then (lift (Ok snap)) _ snap []); [apply shows_ret|intros t1 H1].
  destruct (sn_session snap) as [session|] eqn:Hsn.
  2: { eapply wp_mono; [|apply shows_die]. intros t2 o H2 Hf. exists 0%Z. rewrite inspect_adk_of, Hsnap. cbn. rewrite Hsn. by apply H2. }
  intros [now|ex]; [|intros Hf; by inversion Hf].
  set (ts := [adk_effects_table now snap.(sn_effects); adk_obligations_table now snap.(sn_obligations); adk_timers_table now snap.(sn_timers)]).
  assert (Hrest : shows (_ ← show_table (header_panel url (Some session)); events ← lift (events_table snap.(sn_events));
      _ ← show_tables (events :: ts); if decide (inspect_code snap = 0%Z) then mret tt else Throw (Exit (inspect_code snap)))
    (match events_table snap.(sn_events) with Ok events => header_panel url (Some session) :: events :: ts | Err _ => [header_panel url (Some session)] end)
    (match events_table snap.(sn_events) with
     | Ok _ => if decide (inspect_code snap = 0%Z) then Ok tt else Err (Exit (inspect_code snap)) | Err ex => Err ex end)).
  { destruct (events_table _) as [events|ex]; [|eapply (shows_bind _ _ tt [_] []); [apply shows_table|apply shows_throw]].
    eapply (shows_bind _ _ tt [_] (events :: ts)); [apply shows_table|]. eapply (shows_bind _ _ events [] (events :: ts)); [apply shows_ret|].
    rewrite <- (app_nil_r (events :: ts)) at 2. eapply shows_bind; [apply shows_tables|]. case_decide; [apply shows_ret|apply shows_throw]. }
  eapply wp_mono; [|exact Hrest]. intros t2 o H2 Hf. exists now. rewrite inspect_adk_of, Hsnap. cbn. rewrite Hsn.
  destruct (H2 ltac:(by inversion Hf)) as [Hts ->].
  assert (shown_tables (t0 ++ t1 ++ Ev Clock (Ok now) :: t2) = shown_tables t2) as Heq
    by (rewrite !shown_app, H0, H1; done).
  unfold reports. destruct (events_table _) as [events|ex]; cbn; [|done]. split; [|done].
  etransitivity; [exact Heq|exact Hts].
Qed.

(** The clock and the screen at work; the store may fail. *)
Definition shown_or_read (e : event cli_answer) : Prop :=
  match e.(ev_call) with Clock | PrintTable _ => answered e | _ => True end.
Lemma each_shown (ts : list Table) :
  wp (each ts show_table) (fun t o => Forall shown_or_read t -> is_ok o = true /\ length (shown_tables t) = length ts).
Proof.
  induction ts as [|tb ts IH]; cbn [each]; [by apply wp_ret|].
  intros [[]|e]; cbn; [|intros Hf; by inversion Hf].
  apply wp_bind. eapply wp_mono; [|exact IH]. intros t [l|e] Hl.
  - apply wp_ret. rewrite app_nil_r. intros [_ Hf]%Forall_cons. destruct (Hl Hf) as [_ <-]. done.
  - intros [_ Hf]%Forall_cons. by destruct (Hl Hf).
Qed.
Lemma tables_shown (ts : list Table) :
  wp (show_tables ts) (fun t o => Forall shown_or_read t -> o = Ok tt /\ length (shown_tables t) = length ts).
Proof.
  apply wp_bind. eapply wp_mono; [|apply each_shown]. intros t [l|e] Hl; [apply wp_ret; rewrite app_nil_r|]; intros Hf;
    by destruct (Hl Hf).
Qed.

(** The live view outlives its store: whatever reading it raises, each frame is shown. *)
Theorem live_view_survives n db_url note interval st t o :
  exec (frames n (journal_rich pull_store clock_text db_url note interval) st) t o ->
  Forall shown_or_read t -> o = Ok tt /\ 2 * n <= length (shown_tables t).
Proof.
  intros He. refine (wp_exec _ (fun t o => Forall shown_or_read t -> o = Ok tt /\ 2 * n <= length (shown_tables t)) t o _ He).
  clear He t o. revert st. induction n as [|n IH]; intros st; cbn [frames]; [by apply wp_ret|].
  apply wp_bind. eapply (wp_mono _ (fun t o => Forall shown_or_read t -> exists st' ts, o = Ok (st', ts) /\ 2 <= length ts)).
  - intros t [[st' ts]|e] Hr; [|intros Hf; by destruct (Hr Hf) as (? & ? & ? & _)]. cbn.
    apply wp_bind. eapply wp_mono; [|apply tables_shown]. intros t2 [[]|e] H2.
    + eapply wp_mono; [|apply IH]. intros t3 o H3 [Hf1 [Hf2 Hf3]%Forall_app]%Forall_app.
      destruct (Hr Hf1) as (? & ? & [= <- <-] & Hl), (H2 Hf2) as [_ E2], (H3 Hf3) as [-> E3].
      split; [done|]. rewrite !shown_app, !length_app. lia.
    + intros [Hf1 Hf2]%Forall_app. by destruct (H2 Hf2).
  - intros [now|ex]; [|intros Hf; by inversion Hf]. cbn. apply wp_bind. unfold live_poll_adk.
    eapply (wp_mono _ (fun t o => is_ok o = true)).
    { intros t [st'|e] Ho; [|done]. intros [shown|ex]; [|intros Hf; exfalso; apply Forall_cons in Hf as [_ [_ Hf]%Forall_app];
        by inversion Hf]. intros _. eexists _, _. split; [done|]. unfold live_panel. destruct st'.1 as [[es os] tm]. cbn. lia. }
    destruct (_ <=? _)%Z; [|by apply wp_ret]. apply wp_bind, wp_try, wp_any. intros t [s|e]; by apply wp_ret.
Qed.
End embedded.

(** ** Witnesses *)
Definition at_desk (rs : RunState.t) (c : cli_call) : M unit (cli_answer c) := serving rs ([], None) c.
Definition no_store (_ : string) : Cmd (list StorageEffect.t * list StorageObligation.t * list StorageTimer.t) := Throw TypeError.
Lemma all_answered t : forallb (fun e : event cli_answer => match e.(ev_answer) with Ok _ => true | Err _ => false end) t = true ->
  Forall answered t.
Proof.
  induction t as [|[c r] t IH]; [constructor|]. cbn. destruct r; [|done]. intros Ht. constructor; [done|by apply IH].
Qed.

Definition unknown_session : Cmd unit :=
  inspect_adk_run (H := sample_text) [("TAPE_ADK_DB_URL", "sqlite://")] (of_store no_session no_events db_unknown) no_store
    (fun _ => "") pretty 0 (Some "s1") (Some "treasury") (Some "u1") None false false.
(** A session with an UNKNOWN effect ends the command with 1. *)
Lemma session_command_reports_witness :
  (run (at_desk done_run) unknown_session tt).1 = Err (Exit 1) /\
  exists now_ms, reports (trace (at_desk done_run) unknown_session tt) (Err (Exit 1))
    (@inspect_adk sample_text no_session no_events sess "sqlite://" now_ms db_unknown).1.
Proof.
  split; [vm_compute; reflexivity|].
  refine (@session_command_reports sample_text [("TAPE_ADK_DB_URL", "sqlite://")] no_store (fun _ => "") pretty no_session no_events
    db_unknown 0 "s1" "treasury" "u1" None "sqlite://" _ _ _ _ _ _ _ _); [reflexivity|discriminate..| |].
  - refine (eq_rect _ (exec _ _) (run_exec (at_desk done_run) unknown_session tt) _ _). vm_compute. reflexivity.
  - apply all_answered. vm_compute. reflexivity.
Defined.

Definition bare_doctor : Cmd unit :=
  doctor_checks (H := sample_text) [] (3%Z, 12%Z, 0%Z) (fun _ => Ok tt) (fun _ => None) (fun _ _ => Ok tt) (Err TypeError) (Ok tt) (fun _ _ => Ok "ENABLED")
    false (Err (Raised "FileNotFoundError" "")) true false false.
(** Without Docker and Cargo on the path, the doctor ends with 1. *)
Lemma doctor_verdict_witness : (run (at_desk done_run) bare_doctor tt).1 = Err (Exit 1).
Proof.
  refine (@doctor_verdict sample_text [] (3%Z, 12%Z, 0%Z) (fun _ => Ok tt) (fun _ => None) (fun _ _ => Ok tt) (Err TypeError) (Ok tt) (fun _ _ => Ok "ENABLED")
    false (Err (Raised "FileNotFoundError" "")) true false false _ _ (run_exec (at_desk done_run) bare_doctor tt) _).
  apply all_answered. vm_compute. reflexivity.
Defined.

Definition blind_view : Cmd unit := frames 3 (journal_rich no_store pretty "sqlite://" "" 600) (([], [], []), 0%Z).
Lemma live_view_survives_witness :
  (run (at_desk done_run) blind_view tt).1 = Ok tt /\ 6 <= length (shown_tables (trace (at_desk done_run) blind_view tt)).
Proof.
  apply (live_view_survives no_store pretty 3 "sqlite://" "" 600 (([], [], []), 0%Z) _ _ (run_exec (at_desk done_run) blind_view tt)).
  eapply Forall_impl; [apply all_answered; vm_compute; reflexivity|]. intros [[] r] Hr; done.
Defined.

Definition looking : InspectOptions := mkInspectOptions (Some "run-1") false false true true 0 None false false None.
Lemma inspect_closes_its_client_witness :
  balanced (trace (at_desk done_run) (inspect_run (H := sample_text) [] [] (fun _ => false) (fun _ => Err TypeError) (fun _ => Err TypeError) true looking) tt).
Proof.
  apply (@inspect_closes_its_client sample_text [] [] (fun _ => false) (fun _ => Err TypeError) (fun _ => Err TypeError) true looking _ _ (run_exec (at_desk done_run) _ tt)).
Defined.
Lemma triage_closes_its_client_witness :
  balanced (trace (at_desk done_run) (live_triage_run (H := sample_text) [] [] (fun _ => false) (fun _ => Err TypeError) (fun _ => Err TypeError) pretty 2 None true 1000 60000) tt).
Proof.
  apply (@triage_closes_its_client sample_text [] [] (fun _ => false) (fun _ => Err TypeError) (fun _ => Err TypeError) pretty 2 None true 1000 60000 _ _ (run_exec (at_desk done_run) _ tt)).
Defined.
