(* ===== verification/CliDemo.v ===== *)
(** * CliDemo: the two demos against a server process, [tape_cli/commands/demo.py]

    [tape demo crash-resume]: the phase that crashes with the wire on disk, the phase that
    re-drives the run, and the command around them.  [tape demo unknown-reconcile]: the whole
    ambiguity loop in one process.  Both as programs over the client's calls and the bank's
    file; and what the demo's screen shows of the journal and of the bank. *)
From Stdlib Require Import Ascii.
From S2P Require Import Prelude Scenarios ScenarioTheorems Client SdkSamples DemoBank CliText CliJournal CliConfig.
#[local] Open Scope Z_scope.
#[local] Open Scope nat_scope.

(** ** The bank's file

    [path.read_text()] with [json.loads] is one call, the temporary file with [os.replace]
    another: the replacement is atomic.  An [OSError] has the name of the class. *)
Definition unreadable (ex : exn) : bool :=
  match ex with Raised name _ => bool_decide (name ∈ ["JSONDecodeError"; "OSError"]) | _ => false end.
(** [FileBank._read] *)
Definition read_bank (path : string) : P json :=
  try_ (f ← (invoke (ReadFile path) : P (option json)); mret (default (JObj []) f))
       (fun ex => if unreadable ex then mret (JObj []) else Throw ex).
(** [FileBank(path)]: a file that is not there is created; its directory exists. *)
Definition open_bank (path : string) : P unit :=
  there ← caught (invoke (ReadFile path) : P (option json));
  match there with Ok None => invoke (WriteFile path (JObj [])) | _ => mret tt end.
(** A method that answers a record that is [found], and files a new one otherwise. *)
Definition bank_call (path : string) (found : json -> bool) (op : M FileBank json) : P json :=
  data ← read_bank path;
  match op (Some data) with
  | (Ok rec, Some data') =>
    if found data then mret rec else _ ← (invoke (WriteFile path data') : P unit); mret rec
  | (Ok rec, None) => mret rec
  | (Err ex, _) => Throw ex
  end.
Definition key_found (key : string) (data : json) : bool :=
  match data with JObj d => bool_decide (is_Some (dict_get key d)) | _ => false end.
Definition business_key_found (bk : string) (data : json) : bool :=
  match data with
  | JObj d => match find_rec (Some bk) d with Ok (Some _) => true | _ => false end
  | _ => false
  end.
Definition bank_wire (path key : string) (amount account : json) : P json :=
  bank_call path (key_found key) (file_wire key amount account).
Definition bank_wire_by_business_key (path bk : string) (amount account : json) : P json :=
  bank_call path (business_key_found bk) (wire_by_business_key (Some bk) amount account).
Definition bank_find (path bk : string) : P (option json) :=
  data ← read_bank path; lift (find_by_business_key bk (Some data)).
Definition bank_all_wires (path : string) : P (list json) :=
  data ← read_bank path; lift (file_wires (Some data)).
(** [_DemoUI.bank_wires]: opening the bank included, whatever fails is no wires. *)
Definition screen_wires (path : string) : P (list json) :=
  try_ (_ ← open_bank path; bank_all_wires path) (fun _ => mret []).

(** [rec["wire_id"]] of a record, as the text the file says *)
Definition item_text (rec : json) (key : string) : result json :=
  match rec with
  | JObj d => match dict_get key d with Some v => Ok v | None => Err (Raised "KeyError" key) end
  | _ => Err TypeError
  end.

Section demos.
Context `{PyText}.

(** The names drawn for the demo, and the process's number *)
Record DemoEnv := mkDemoEnv { invocation_id : string; session_id : string; pid : Z; ledger_path : string }.
Variable env : DemoEnv.

Definition lease_owner : string := "demo-pid-" +:+ pretty env.(pid).
Definition begin_demo_run (app : string) (ttl : Z) (scopes : list string) : P (string * bool) :=
  invoke (BeginRun app "cfo" env.(session_id) env.(invocation_id) lease_owner ttl "" "" "" "" "" "" scopes []).
Definition demo_request : string := double_quoted "{'q':'close the book'}".
Definition demo_response : string := double_quoted "{'call':'execute_sweep','amount':2000000}".
Definition demo_wire_request : string := double_quoted "{'account_id':'acct-1','amount_minor':2000000}".
Definition demo_intent (run_id : string) : BeginEffectRequest.t :=
  BeginEffectRequest.mk run_id 0 "bank.wire" 0 demo_wire_request "" 0 0 "" "" "".
Definition wire_id_json (v : json) : string := dumps (JObj [("wire_id", v)]).

(** [s[-4:]] of a key, whose characters are ASCII *)
Definition last4 (s : string) : string := String.substring (String.length s - 4) 4 s.

(** ** [tape demo crash-resume] *)

(** [os._exit(137)]: no handler sees it. *)
Definition os_exit {A} : P A := Throw (Raised "os._exit" "137").

(** [_phase_a_first_run], after the line that tells the parent the run's id *)
Definition phase_a_from (crash : bool) (run_id : string) : P string :=
  _ ← record_decision run_id 0 "demo/oracle" demo_request demo_response "excess USD; sweep to MMF" "";
  eff ← rpc_begin_effect (demo_intent run_id);
  if decide (br_status eff = EFFECT_STATUS_CONFIRMED) then mret run_id
  else
    _ ← bank_wire env.(ledger_path) (br_idempotency_key eff) (JInt 2000000) (JStr "acct-1");
    if crash then os_exit
    else
      _ ← rpc_complete_effect run_id (br_idempotency_key eff) EFFECT_STATUS_CONFIRMED
            (wire_id_json (JStr ("wire-from-" +:+ last4 (br_idempotency_key eff)))) "";
      _ ← end_run run_id RUN_STATUS_TERMINAL ""; mret run_id.
Definition phase_a_first_run (crash : bool) : P string :=
  _ ← open_bank env.(ledger_path);
  r ← begin_demo_run "treasury-demo" 15000 [];
  phase_a_from crash r.1.

(** [{w["idempotency_key"]: w for w in wires}]; a key that is no text is never asked for,
    and a list or a dict is no key. *)
Fixpoint by_idempotency_key (wires : list json) (d : list (string * json)) : result (list (string * json)) :=
  match wires with
  | [] => mret d
  | w :: wires =>
    k ← item_text w "idempotency_key";
    match k with
    | JStr k => by_idempotency_key wires (dict_set k w d)
    | JList _ | JObj _ => Err TypeError
    | _ => by_idempotency_key wires d
    end
  end.

(** What the re-drive read back, and what it did *)
Record Redriven := mkRedriven { replayed : list string; actions : list string }.

Definition phase_b_recover (run_id : string) : P Redriven :=
  _ ← open_bank env.(ledger_path);
  r ← begin_demo_run "treasury-demo" 15000 [];
  if decide (r.1 <> run_id) then Throw (Raised "AssertionError" "different run_id on re-drive (should not happen)")
  else
    _ ← record_decision run_id 0 "demo/oracle" demo_request demo_response "" "";
    eff ← rpc_begin_effect (demo_intent run_id);
    let replayed := ["BeginRun → existing run_id (resumed=" +:+ text (JBool r.2) +:+ ")";
                     "decision#0 → read from journal (no model call)";
                     "effect#0 → read from journal (status=" +:+ pretty (br_status eff) +:+ ")"] in
    if decide (br_status eff = EFFECT_STATUS_CONFIRMED) then
      mret (mkRedriven replayed ["nothing to do — effect already CONFIRMED"])
    else
      wires ← bank_all_wires env.(ledger_path);
      ledger ← lift (by_idempotency_key wires []);
      found ← match dict_get (br_idempotency_key eff) ledger with
              | None =>
                wire ← bank_wire env.(ledger_path) (br_idempotency_key eff) (JInt 2000000) (JStr "acct-1");
                mret (wire, "bank ledger empty — issuing wire fresh")
              | Some wire =>
                id ← lift (item_text wire "wire_id");
                mret (wire, "observed bank ledger: " +:+ text id +:+ " already lives there")
              end;
      id ← lift (item_text found.1 "wire_id");
      _ ← rpc_complete_effect run_id (br_idempotency_key eff) EFFECT_STATUS_CONFIRMED (wire_id_json id) "";
      _ ← end_run run_id RUN_STATUS_TERMINAL "";
      mret (mkRedriven replayed [found.2; "effect#0 → CONFIRMED"; "run → TERMINAL"]).

(** The subprocess, as its parent sees it: the run's id, once the server has answered it,
    whatever becomes of the process then. *)
Definition spawn_phase_a (crash : bool) : P string :=
  begun ← caught (_ ← open_bank env.(ledger_path); begin_demo_run "treasury-demo" 15000 []);
  match begun with
  | Err _ => mret ""
  | Ok r => _ ← caught (phase_a_from crash r.1); mret r.1
  end.

(** The exit code, given that the server listens *)
Definition crash_resume_scenario : P Z :=
  try_ (run_id ← spawn_phase_a true;
        if decide (run_id = "") then mret 2%Z
        else
          _ ← phase_b_recover run_id;
          wires ← screen_wires env.(ledger_path);
          match wires with
          | [w] => _ ← lift (item_text w "wire_id"); mret 0%Z
          | _ => mret 1%Z
          end)
       (fun _ => mret 2%Z).

(** ** [tape demo unknown-reconcile] *)

Definition unknown_business_key : string := "acct-1:2000000:2026-05-18".
Definition unknown_intent (run_id : string) : BeginEffectRequest.t :=
  BeginEffectRequest.mk run_id 0 "bank.wire" 0
    (dumps (JObj [("account_id", JStr "acct-1"); ("amount_minor", JInt 2000000)])) ""
    EFFECT_SEMANTICS_NON_IDEMPOTENT EFFECT_DISPATCH_MODE_OUTBOX unknown_business_key "bank.wire"
    "mcp:tools:bank.wire".
Definition demo_lost_ack_error : string := "simulated lost ack (network glitch after wire landed)".

(** [_run_unknown_reconcile_scenario]: the run's id and the exit code; [FileBank(path)] is
    opened before the server is called. *)
Definition run_unknown_reconcile_scenario : P (string * Z) :=
  let path := env.(ledger_path) in
  _ ← open_bank path;
  r ← begin_demo_run "treasury-demo-unknown" 30000 ["mcp:tools:bank.wire"];
  let run_id := r.1 in
  _ ← record_decision run_id 0 "demo/oracle" demo_request demo_response "excess USD; sweep to MMF" "";
  eff ← rpc_begin_effect (unknown_intent run_id);
  let key := br_idempotency_key eff in
  claim ← (invoke (ClaimEffectDispatch run_id key "demo-dispatcher" 30000) : P (bool * PbEffect.t));
  if negb claim.1 then mret (run_id, 2%Z)
  else
    wire_record ← bank_wire_by_business_key path unknown_business_key (JInt 2000000) (JStr "acct-1");
    _ ← lift (item_text wire_record "wire_id");
    _ ← rpc_record_dispatch_attempt run_id key demo_lost_ack_error 0;
    pending ← rpc_list_pending_effects 0 false 10;
    if negb (existsb (fun e => bool_decide (e.(PbEffect.run_id) = run_id) &&
                               bool_decide (e.(PbEffect.idempotency_key) = key)) pending)
    then mret (run_id, 2%Z)
    else
      observed ← bank_find path unknown_business_key;
      match observed with
      | None => mret (run_id, 2%Z)
      | Some rec =>
        ref ← lift (wire_id rec);
        _ ← rpc_record_external_observation run_id key EFFECT_RESOLUTION_CONFIRMED ref (wire_id_json (JStr ref)) "" "";
        _ ← end_run run_id RUN_STATUS_TERMINAL "";
        wires ← screen_wires path;
        match wires with
        | [w] => _ ← lift (item_text w "wire_id"); mret (run_id, 0%Z)
        | _ => mret (run_id, 1%Z)
        end
      end.
(** The exit code of the command; an exception of the scenario is 2. *)
Definition unknown_reconcile_scenario : P Z :=
  try_ (r ← run_unknown_reconcile_scenario; mret r.2) (fun _ => mret 2%Z).
End demos.

(** ** The server's process *)

(** Where a built server is looked for: [root] is the repository, [cwd] the working
    directory; [executable] is a file the process may run, [resolve] its absolute path. *)
Definition server_candidates (root cwd : string) : list string :=
  [root +:+ "/tape/server/target/release/tape-server"; root +:+ "/tape/server/target/debug/tape-server";
   cwd +:+ "/tape/server/target/release/tape-server"; cwd +:+ "/tape/server/target/debug/tape-server";
   "/usr/local/bin/tape-server"].
Definition find_server_binary (executable : string -> bool) (resolve : string -> string)
    (which : option string) (root cwd : string) : option string :=
  match List.find executable (server_candidates root cwd) with
  | Some p => Some (resolve p)
  | None => which
  end.
(** The polls of the port: the clock in milliseconds, and whether the connection was made. *)
Fixpoint wait_until_listening (deadline : Z) (polls : list (Z * bool)) : bool :=
  match polls with
  | [] => false
  | (now, connected) :: polls =>
    if (now <? deadline)%Z then connected || wait_until_listening deadline polls else false
  end.
(** What comes before the scenario of either command: 2 is the exit code of [die]. *)
Definition with_server (binary found : option string) (polls : list (Z * bool)) (scenario : P Z) : P Z :=
  match opt_str_or binary found with
  | None | Some "" => mret 2%Z
  | Some _ =>
    match polls with
    | [] => mret 2%Z
    | (start, _) :: _ => if wait_until_listening (start + 10000) polls then scenario else mret 2%Z
    end
  end.

(** ** The screen, [_DemoUI] *)
Inductive PhaseState := PHASE_PENDING | PHASE_ACTIVE | PHASE_DONE | PHASE_FAIL.
Record Phase := mkPhase { label : string; phase_state : PhaseState; phase_detail : string }.
(** [deque(maxlen=200)] *)
Definition max_entries : nat := 200.
Record Screen := mkScreen {
  phases : list Phase; entries : list WireEntry.t; first_ts : option Z; crash_after_seq : option Z; headline : string
}.

Definition set_phases (ps : list Phase) (s : Screen) : Screen :=
  mkScreen ps s.(entries) s.(first_ts) s.(crash_after_seq) s.(headline).
Definition set_headline (text : string) (s : Screen) : Screen :=
  mkScreen s.(phases) s.(entries) s.(first_ts) s.(crash_after_seq) text.
(** [_DemoUI()] *)
Definition empty_screen : Screen := mkScreen [] [] None None "".
Definition add_phases (labels : list string) (s : Screen) : Screen :=
  set_phases (s.(phases) ++ map (fun l => mkPhase l PHASE_PENDING "") labels) s.
(** [phases[idx]], which raises out of range; an empty detail leaves the old one *)
Definition move_phase (state : PhaseState) (idx : nat) (detail : string) (s : Screen) : result Screen :=
  match s.(phases) !! idx with
  | None => Err (Raised "IndexError" "list index out of range")
  | Some p => Ok (set_phases (<[idx := mkPhase p.(label) state (str_or detail p.(phase_detail))]> s.(phases)) s)
  end.
Definition start_phase := move_phase PHASE_ACTIVE.
Definition finish_phase (ok : bool) := move_phase (if ok then PHASE_DONE else PHASE_FAIL).

Definition last_seq (s : Screen) : option Z := (fun e => e.(WireEntry.event).(PbEvent.seq)) <$> last s.(entries).
Definition mark_crash (s : Screen) : Screen :=
  match last_seq s with
  | None => s
  | Some n => mkScreen s.(phases) s.(entries) s.(first_ts) (Some n) s.(headline)
  end.

(** An entry of the stream, with the cursor of the next subscription *)
Definition take_entry (st : Z * Screen) (e : WireEntry.t) : Z * Screen :=
  let s := st.2 in
  if match last_seq s with Some n => (e.(WireEntry.event).(PbEvent.seq) <=? n)%Z | None => false end then st
  else
    let es := s.(entries) ++ [e] in
    let es := if max_entries <? length es then tail es else es in
    (e.(WireEntry.event).(PbEvent.seq) + 1,
     mkScreen s.(phases) es (Some (default e.(WireEntry.event).(PbEvent.ts_ms) s.(first_ts)))
       s.(crash_after_seq) s.(headline))%Z.
(** The subscriptions one after the other, each from the cursor the last one left: the
    stream is followed again after its deadline or a cancellation, any other error ends
    the worker.  One the stop flag cuts short is the last. *)
Fixpoint stream_worker (streams : list WireStream) (st : Z * Screen) : Z * Screen :=
  match streams with
  | [] => st
  | (es, ending) :: streams =>
    let st := foldl take_entry st es in
    match ending with
    | None => stream_worker streams st
    | Some ex =>
      if decide (rpc_code ex ∈ [Some "DEADLINE_EXCEEDED"; Some "CANCELLED"]) then stream_worker streams st else st
    end
  end.

(** The glyph and the style of a phase *)
Definition phase_glyph (p : Phase) : Cell * string :=
  match p.(phase_state) with
  | PHASE_DONE => (("✓", "bold green"), "bold")
  | PHASE_ACTIVE => (("⋯", "bold cyan"), "bold cyan")
  | PHASE_FAIL => (("✗", "bold red on yellow"), "bold red")
  | PHASE_PENDING => (("·", "dim"), "dim")
  end.

Section panels.
Context `{PyText}.

(** Labels and details are markup. *)
Definition phase_row (p : Phase) : result (list Cell) :=
  let '(glyph, style) := phase_glyph p in
  row ← from_markup p.(label);
  row ← (if decide (p.(phase_detail) = "") then mret row
         else detail ← from_markup p.(phase_detail); mret (row +:+ String newline "  " +:+ detail));
  mret [glyph; (row, style)].

(** [_phases_panel]: the rows and the panel's subtitle *)
Definition phases_panel (title default_subtitle : string) (s : Screen) : result (Table * string) :=
  rows ← map_result phase_row s.(phases);
  mret (mkTable (bold title) rows, "[dim]" +:+ str_or s.(headline) default_subtitle +:+ "[/dim]").

Definition crash_row : list Cell :=
  [plain ""; plain ""; plain ""; ("─── crash + recovery ───", "bold red on yellow"); plain "";
   ("(seq above survived; below is the re-drive)", "dim")].
Definition waiting_row : list Cell :=
  [plain ""; plain ""; plain ""; ("…", "dim"); plain ""; ("waiting for the journal…", "dim")].
Definition entry_row (first_ts : option Z) (e : WireEntry.t) : result (list Cell) :=
  d ← decode_entry e.(WireEntry.event).(PbEvent.kind) e.(WireEntry.event).(PbEvent.payload_json) e.(WireEntry.trace_id);
  let rel := match first_ts with
             | Some t => if (t =? 0)%Z then "+0ms" else fmt_rel_ms (e.(WireEntry.event).(PbEvent.ts_ms) - t)
             | None => "+0ms"
             end in
  details ← from_markup d.(Decoded.summary);
  mret [(pretty e.(WireEntry.event).(PbEvent.seq), "dim"); (rel, "dim"); (d.(Decoded.icon), "white"); (d.(Decoded.type), "bold");
        (d.(Decoded.status), d.(Decoded.style)); plain details].
Fixpoint journal_rows_from (crash_after first_ts : option Z) (drawn : bool) (es : list WireEntry.t)
    : result (list (list Cell)) :=
  match es with
  | [] => mret []
  | e :: es =>
    let draw := match crash_after with Some n => negb drawn && (n <? e.(WireEntry.event).(PbEvent.seq))%Z | None => false end in
    row ← entry_row first_ts e;
    rows ← journal_rows_from crash_after first_ts (drawn || draw) es;
    mret ((if draw then [crash_row] else []) ++ row :: rows)
  end.
Definition journal_panel (s : Screen) : result (list (list Cell)) :=
  match s.(entries) with
  | [] => mret [waiting_row]
  | es => journal_rows_from s.(crash_after_seq) s.(first_ts) false es
  end.

(** The subtitle of the bank's panel, and its style: the reversals are left out. *)
Definition is_forward (w : json) : result bool :=
  match w with
  | JObj d => Ok (negb (starts_with "reverse" (text (get_or d "wire_id" (JStr "")))))
  | _ => Err AttributeError
  end.
Definition ledger_subtitle (ok_suffix : string) (wires : list json) : result Cell :=
  forward ← map_result is_forward wires;
  let n := count_occ Bool.bool_dec forward true in
  mret (pretty (Z.of_nat n) +:+ " forward wire" +:+ (if decide (n = 1) then "" else "s") +:+ " on disk" +:+
        (if decide (n = 1) then "  " +:+ ok_suffix else ""),
        if decide (n = 1) then "bold green" else if 1 <? n then "bold red" else "dim").

(** [f"{n:,.0f}"]: the digits in threes from the right; what the number's conversion to a
    float gives is left to [float_money] where that is not exact. *)
Fixpoint in_threes (seen : nat) (reversed : list ascii) : list ascii :=
  match reversed with
  | [] => []
  | d :: ds => (if negb (seen =? 0) && (seen mod 3 =? 0) then [","%char] else []) ++ d :: in_threes (S seen) ds
  end.
Definition with_commas (z : Z) : string :=
  (if (z <? 0)%Z then "-" else "") +:+
  String.string_of_list_ascii (reverse (in_threes 0 (reverse (String.list_ascii_of_string (pretty (Z.abs z)))))).
Variable float_money : json -> result string.
Definition money (v : json) : result string :=
  match v with
  | JInt z => if (Z.abs z <=? 2 ^ 53)%Z then Ok ("$" +:+ with_commas z) else float_money v
  | _ => float_money v
  end.
(** A cell takes a text or nothing; [Text(v)] takes a text only. *)
Definition drawn (v : json) : result string :=
  match v with JStr s => Ok s | JNull => Ok "" | _ => Err (Raised "NotRenderableError" "") end.
Definition rich_text (v : json) : result string :=
  match v with JStr s => Ok s | _ => Err AttributeError end.
Definition wire_row (w : json) : result (list Cell) :=
  amount ← item_text w "amount_minor"; amount ← money amount;
  id ← item_text w "wire_id"; id ← rich_text id;
  account ← item_text w "account_id"; account ← drawn account;
  key ← drawn (match w with JObj d => get_or d "idempotency_key" (JStr "") | _ => JNull end);
  mret [(id, "bold green"); plain amount; plain account; plain key].
(** [_ledger_panel]: [None] for an empty ledger, the table otherwise, and the subtitle *)
Definition ledger_panel (ok_suffix : string) (wires : list json) : result (option (list (list Cell)) * Cell) :=
  rows ← map_result wire_row wires;
  sub ← ledger_subtitle ok_suffix wires;
  mret (match wires with [] => None | _ => Some rows end, sub).
End panels.
Example commas_of_a_sweep : with_commas 2000000 = "2,000,000". Proof. vm_compute. reflexivity. Qed.

(** ** The bank's file between two calls

    The world of a demo: the contents of the ledger's file, and what the server keeps.  A
    read answers the contents or fails; a write that fails leaves them; [faulty] says whether
    a call may fail at all. *)
Section ledger_file.
Context {X : Type}.
Variable faulty : bool.
Variable path : string.
Variable server : X -> event answer -> X -> Prop.

Definition demo_step (s : option json * X) (ev : event answer) (s' : option json * X) : Prop :=
  (faulty = false -> is_ok ev.(ev_answer)) /\
  let 'Ev c r := ev in
  match c return result (answer c) -> Prop with
  | ReadFile p => fun r => s' = s /\ (p = path -> forall d, r = Ok d -> d = s.1)
  | WriteFile p v => fun r =>
    s' = match r with Ok _ => (if decide (p = path) then Some v else s.1, s.2) | Err _ => s end
  | c => fun r => s'.1 = s.1 /\ server s.2 (Ev c r) s'.2
  end r.

(** One record: the file is not there, is empty, or has the record under its key. *)
Variables (key : string) (rec : json).
Definition full : json := JObj [(key, rec)].
Definition one_record (f : option json) : Prop := f = None \/ f = Some (JObj []) \/ f = Some full.
Definition recorded (s : option json * X) : Prop := s.1 = Some full.

#[local] Abbreviation live := (survives demo_step).

Lemma read_bank_live (I : option json * X -> Prop) s :
  I s -> live (read_bank path) I (fun r s' => s' = s /\ (faulty = false -> r = Ok (default (JObj []) s.1)) /\
    forall d, r = Ok d -> d = default (JObj []) s.1 \/ d = JObj []) s.
Proof.
  intros HI. unfold read_bank. apply survives_try, survives_bind, (survives_invoke (R:=answer) _ (ReadFile path)).
  intros r s' (Hf & -> & Hr). split; [done|]. destruct r as [d|ex]; cbn in *.
  - rewrite (Hr eq_refl d eq_refl). repeat split; auto. intros ? [= <-]. by left.
  - destruct (unreadable ex); cbn; repeat split; try done;
      first [intros E; by specialize (Hf E)|intros ? [= <-]; by right].
Qed.

Lemma open_bank_live (I : option json * X -> Prop) s :
  I s -> (s.1 = None -> I (Some (JObj []), s.2)) ->
  live (open_bank path) I (fun r s' => I s' /\ (s' = s \/ s.1 = None /\ s' = (Some (JObj []), s.2)) /\
    (faulty = false -> r = Ok tt)) s.
Proof.
  intros HI Hnew. unfold open_bank. apply survives_bind, survives_caught, (survives_invoke (R:=answer) _ (ReadFile path)).
  intros r s' (Hf & -> & Hr). split; [done|]. destruct r as [[d|]|ex]; cbn; [split_and!; auto| |split_and!; auto].
  specialize (Hr eq_refl _ eq_refl). intros r s' [Hw Hs]. cbn in Hw. rewrite decide_True in Hs by done.
  destruct r as [[]|ex]; subst s'; cbn.
  - split; [auto|]. split_and!; auto.
  - split; [done|]. split_and!; auto. intros E. by specialize (Hw E).
Qed.

(** A method of the bank that files the record once *)
Class FilesOnce (found : json -> bool) (op : M FileBank json) : Prop := {
  files_new : op (Some (JObj [])) = (Ok rec, Some full);
  finds_old : op (Some full) = (Ok rec, Some full);
  not_found : found (JObj []) = false
}.

Lemma bank_call_live found op `{!FilesOnce found op} (I : option json * X -> Prop) s :
  I s -> I (Some full, s.2) -> one_record s.1 ->
  live (bank_call path found op) I (fun r s' => I s' /\ s'.2 = s.2 /\ (s' = s \/ recorded s') /\
    (forall v, r = Ok v -> v = rec /\ (found full = true -> recorded s')) /\ (faulty = false -> r = Ok rec)) s.
Proof.
  intros HI Hfull Hone. unfold bank_call. apply survives_bind. eapply survives_mono, read_bank_live; [|done].
  intros r s' (-> & Hok & Hd). destruct r as [d|ex]; [|split_and!; auto; [done|intros E; by specialize (Hok E)]].
  assert (Hwrite : live (_ ← (invoke (WriteFile path full) : P unit); mret rec) I (fun r s' => I s' /\ s'.2 = s.2 /\
    (s' = s \/ recorded s') /\ (forall v, r = Ok v -> v = rec /\ (found full = true -> recorded s')) /\
    (faulty = false -> r = Ok rec)) s).
  { apply survives_bind, (survives_invoke (R:=answer) _ (WriteFile path full)). intros r s' [Hw Hs]. cbn in Hw. rewrite decide_True in Hs by done.
    destruct r as [[]|ex]; subst s'; cbn.
    - split; [done|]. split_and!; auto; [by right|]. intros v [= <-]. done.
    - split; [done|]. split_and!; auto; [done|]. intros E. by specialize (Hw E). }
  assert (d = JObj [] \/ d = full /\ recorded s) as [->|[-> Hr]].
  { destruct (Hd d eq_refl) as [->| ->]; [|by left]. unfold recorded.
    destruct Hone as [->|[->| ->]]; cbn; auto. }
  - rewrite files_new, not_found. exact Hwrite.
  - rewrite finds_old. destruct (found full) eqn:E; [|exact Hwrite].
    split_and!; auto. intros v [= <-]. done.
Qed.

Lemma all_wires_live (I : option json * X -> Prop) s :
  I s -> one_record s.1 ->
  live (bank_all_wires path) I (fun r s' => s' = s /\ (faulty = false -> is_ok r) /\
    forall ws, r = Ok ws -> ws = [] /\ (faulty = false -> ~ recorded s) \/ ws = [rec] /\ recorded s) s.
Proof.
  intros HI Hone. unfold bank_all_wires. apply survives_bind. eapply survives_mono, read_bank_live; [|done].
  intros r s' (-> & Hok & Hd). destruct r as [d|ex]; [|split_and!; try done; intros E; by specialize (Hok E)].
  unfold recorded. destruct (Hd d eq_refl) as [->| ->].
  - destruct Hone as [E|[E|E]]; rewrite E; cbn; split_and!; try done; intros ? [= <-]; auto; left; split; try done.
  - cbn. split_and!; try done. intros ? [= <-]. left. split; [done|]. intros E Hs.
    specialize (Hok E). injection Hok as Hok. rewrite Hs in Hok. done.
Qed.

Lemma screen_wires_live (I : option json * X -> Prop) s :
  I s -> s.1 = Some full ->
  live (screen_wires path) I (fun r s' => s' = s /\ exists ws, r = Ok ws /\ (ws = [] \/ ws = [rec]) /\
    (faulty = false -> ws = [rec])) s.
Proof.
  intros HI Hs. unfold screen_wires. apply survives_try, survives_bind.
  eapply survives_mono, open_bank_live; [|done|by rewrite Hs]. intros r s' (_ & Hs' & Hok).
  assert (s' = s) as -> by (destruct Hs' as [?|[? _]]; congruence).
  destruct r as [[]|ex]; [|split; [done|]; exists []; split_and!; auto; intros E; by specialize (Hok E)].
  eapply survives_mono, all_wires_live; [|done|right; by right]. intros r s' (-> & Ha & Hw).
  destruct r as [ws|ex]; [|split; [done|]; exists []; split_and!; auto; intros E; by specialize (Ha E)].
  split; [done|]. exists ws. split; [done|]. destruct (Hw ws eq_refl) as [[-> Hn]|[-> _]]; split; auto.
  intros E. by destruct (Hn E).
Qed.
End ledger_file.

(** ** The crash and the re-drive *)
Section crash_resume.
Context `{PyText}.
Variable env : DemoEnv.
(** The run the server has for the demo's invocation, the key of its one effect, and the
    wire of that key *)
Variables run_id key : string.
Definition crash_wire : json :=
  JObj [("wire_id", JStr "wire-0001"); ("amount_minor", JInt 2000000); ("account_id", JStr "acct-1");
        ("idempotency_key", JStr key)].
#[export] Instance crash_wire_files :
  FilesOnce key crash_wire (key_found key) (file_wire key (JInt 2000000) (JStr "acct-1")).
Proof. split; [done| |done]. cbn. by rewrite decide_True. Qed.

(** The server's journal, as far as the demo relies on it: whether the effect is
    CONFIRMED.  A completion that fails may have been recorded. *)
Definition journal_step (confirmed : bool) (ev : event answer) (confirmed' : bool) : Prop :=
  let 'Ev c r := ev in
  match c return result (answer c) -> Prop with
  | BeginRun _ _ _ _ _ _ _ _ _ _ _ _ _ _ => fun r => confirmed' = confirmed /\ forall a, r = Ok a -> a.1 = run_id
  | BeginEffect _ => fun r => confirmed' = confirmed /\
    forall b, r = Ok b -> br_idempotency_key b = key /\ (br_status b = EFFECT_STATUS_CONFIRMED <-> confirmed = true)
  | CompleteEffect _ k status _ _ => fun r =>
    let recorded := confirmed || bool_decide (k = key /\ status = EFFECT_STATUS_CONFIRMED) in
    confirmed' = recorded \/ (is_ok r = false /\ confirmed' = confirmed)
  | _ => fun _ => confirmed' = confirmed
  end r.
Variable faulty : bool.
#[local] Abbreviation world := (option json * bool)%type.
#[local] Abbreviation step := (demo_step faulty env.(ledger_path) journal_step).

(** The journal never confirms a wire the bank does not have. *)
Definition agreed (s : world) : Prop :=
  one_record key crash_wire s.1 /\ (s.2 = true -> recorded key crash_wire s).
Definition onward (s s' : world) : Prop :=
  agreed s' /\ (recorded key crash_wire s -> recorded key crash_wire s') /\ (s.2 = true -> s'.2 = true).
Definition settled (s : world) : Prop := recorded key crash_wire s /\ s.2 = true.

Lemma onward_refl s : agreed s -> onward s s.
Proof. done. Qed.
Lemma onward_trans s s1 s2 : onward s s1 -> onward s1 s2 -> onward s s2.
Proof. intros (_ & H1 & H2) (? & H3 & H4). split; auto. Qed.
Lemma onward_full s0 s : onward s0 s -> onward s0 (Some (full key crash_wire), s.2).
Proof. intros ([_ Hc] & Hr & Hd). split_and!; [split; [right; by right|]|..]; done. Qed.
Lemma onward_empty s0 s : onward s0 s -> s.1 = None -> onward s0 (Some (JObj []), s.2).
Proof.
  intros ([_ Hc] & Hr & Hd) Hn. unfold onward, agreed, recorded in *. cbn. rewrite Hn in *.
  split_and!; [right; by left|intros E; by specialize (Hc E)|intros E; by specialize (Hr E)|done].
Qed.

Lemma complete_live s0 s resp (Q : result unit -> world -> Prop) :
  onward s0 s -> recorded key crash_wire s ->
  (forall r s', onward s0 s' -> recorded key crash_wire s' -> (r = Ok tt -> s'.2 = true) -> (faulty = false -> is_ok r) -> Q r s') ->
  survives step (rpc_complete_effect run_id key EFFECT_STATUS_CONFIRMED resp "") (onward s0) Q s.
Proof.
  intros Hs Hr HQ. unfold rpc_complete_effect.
  apply (survives_invoke (R:=answer) _ (CompleteEffect run_id key EFFECT_STATUS_CONFIRMED resp "")).
  intros r [f' b'] [Hf [Hfile Hj]]. cbn in Hfile, Hj, Hf. subst f'.
  rewrite bool_decide_true, orb_true_r in Hj by done.
  assert (onward s0 (s.1, b') /\ (r = Ok tt -> b' = true)) as [Ho Hb].
  { destruct Hs as ([Hone Hc] & Hr0 & Hd). destruct Hj as [->|[He ->]]; (split; [split_and!; try done; by split|]); [done|].
    by intros ->. }
  split; [done|]. by apply HQ.
Qed.

(** What the phases share: the bank opened, the run begun, the decision recorded *)
Lemma begin_run_live s0 s app ttl scopes (Q : result (string * bool) -> world -> Prop) :
  onward s0 s -> (forall ex, faulty = true -> Q (Err ex) s) -> (forall a, a.1 = run_id -> Q (Ok a) s) ->
  survives step (begin_demo_run env app ttl scopes) (onward s0) Q s.
Proof.
  intros Hs He Hf. unfold begin_demo_run.
  apply (survives_invoke (R:=answer) _ (BeginRun _ _ _ _ _ _ _ _ _ _ _ _ _ _)).
  intros r s' [Hok [Hfile [Hj Ha]]]. assert (s' = s) as -> by (by apply injective_projections).
  split; [done|]. destruct r as [a|ex]; [by apply Hf, Ha|]. apply He. destruct faulty; [done|by specialize (Hok eq_refl)].
Qed.
Lemma faulty_of {A} (r : result A) : (faulty = false -> is_ok r) -> is_ok r = false -> faulty = true.
Proof. intros Hf Hr. destruct faulty; [done|]. specialize (Hf eq_refl). by rewrite Hr in Hf. Qed.
Lemma decision_effect_live {B} s0 s model request response rationale policy req (f : BeginEffectResponse -> P B) (Q : result B -> world -> Prop) :
  onward s0 s -> (forall ex, faulty = true -> Q (Err ex) s) ->
  (forall b, br_idempotency_key b = key -> (br_status b = EFFECT_STATUS_CONFIRMED <-> s.2 = true) ->
     survives step (f b) (onward s0) Q s) ->
  survives step (_ ← record_decision run_id 0 model request response rationale policy;
                 eff ← rpc_begin_effect req; f eff) (onward s0) Q s.
Proof.
  intros Hs He Hf. apply survives_bind. unfold record_decision.
  apply (survives_invoke (R:=answer) _ (RecordDecision _ _ _ _ _ _ _)).
  intros r s' [Hok [Hfile Hj]]. cbn in Hfile, Hj, Hok. assert (s' = s) as -> by (by apply injective_projections).
  split; [done|]. destruct r as [[]|ex]; [|by apply He, (faulty_of _ Hok)].
  apply survives_bind. unfold rpc_begin_effect. apply (survives_invoke (R:=answer) _ (BeginEffect req)).
  intros r s' [Hok' [Hfile' [Hj' Hb]]]. cbn in Hfile', Hj', Hok'.
  assert (s' = s) as -> by (by apply injective_projections).
  split; [done|]. destruct r as [b|ex]; [|by apply He, (faulty_of _ Hok')].
  destruct (Hb b eq_refl). by apply Hf.
Qed.
Lemma end_run_live s0 s (Q : result unit -> world -> Prop) :
  onward s0 s -> (forall r, (faulty = false -> r = Ok tt) -> Q r s) ->
  survives step (end_run run_id RUN_STATUS_TERMINAL "") (onward s0) Q s.
Proof.
  intros Hs HQ. unfold end_run. apply (survives_invoke (R:=answer) _ (EndRun _ _ _)).
  intros r s' [Hok [Hfile Hj]]. cbn in Hfile, Hj, Hok. assert (s' = s) as -> by (by apply injective_projections).
  split; [done|]. apply HQ. intros E. specialize (Hok E). by destruct r as [[]|].
Qed.

(** How a phase ends: the bank and the journal are on; one that returns has settled both. *)
Definition phase_ends {A} (s0 : world) (o : result A) (s : world) : Prop :=
  onward s0 s /\ (is_ok o -> settled s).

(** The completion of the effect and the end of the run, once the wire is on file *)
Lemma settle_live {A} s0 s resp (a : A) :
  onward s0 s -> recorded key crash_wire s ->
  survives step (_ ← rpc_complete_effect run_id key EFFECT_STATUS_CONFIRMED resp "";
                 _ ← end_run run_id RUN_STATUS_TERMINAL ""; mret a) (onward s0)
    (fun o s' => phase_ends s0 o s' /\ (faulty = false -> is_ok o)) s.
Proof.
  intros Hs Hr. apply survives_bind, complete_live; [done..|]. intros r s1 Hs1 Hr1 Hc Hf.
  destruct r as [[]|ex]; [|split; [by split|done]].
  apply survives_bind, end_run_live; [done|]. intros r Hok. destruct r as [[]|ex]; cbn.
  - split; [|done]. split; [done|]. intros _. split; [done|by apply Hc].
  - split; [by split|]. intros E. by specialize (Hok E).
Qed.

Lemma phase_a_from_live s0 s crash :
  onward s0 s ->
  survives step (phase_a_from env crash run_id) (onward s0)
    (fun o s' => phase_ends s0 o s' /\ (faulty = false -> crash = true -> is_ok o = false -> recorded key crash_wire s')) s.
Proof.
  intros Hs. assert (Hag : agreed s) by apply Hs. unfold phase_a_from. apply decision_effect_live; [done| |].
  { intros ex Hf. split; [by split|]. by rewrite Hf. }
  intros b Hk Hst. rewrite Hk. case_decide as E.
  { apply Hst in E. split; [split; [done|]|done]. intros _. split; [by apply Hag|done]. }
  apply survives_bind. eapply survives_mono, bank_call_live;
    [|apply crash_wire_files|exact Hs|by apply onward_full|by apply Hag].
  intros r s1 (Hs1 & _ & _ & Hv & Hok). destruct r as [v|ex].
  2:{ split; [by split|]. intros E'. by specialize (Hok E'). }
  destruct (Hv v eq_refl) as [-> Hrec]. assert (Hr1 : recorded key crash_wire s1).
  { apply Hrec. cbn. by rewrite decide_True, bool_decide_true by eauto. }
  destruct crash; [split; [by split|done]|].
  eapply survives_mono, settle_live; [|done..]. intros o s2 [Ho _]. by split.
Qed.

Lemma phase_b_live s0 s :
  onward s0 s ->
  survives step (phase_b_recover env run_id) (onward s0)
    (fun o s' => phase_ends s0 o s' /\ (faulty = false -> is_ok o)) s.
Proof.
  intros Hs. unfold phase_b_recover. apply survives_bind.
  eapply survives_mono, open_bank_live; [|exact Hs|by apply onward_empty].
  intros r s1 (Hs1 & _ & Hok). destruct r as [[]|ex]; [|split; [by split|]; intros E; by specialize (Hok E)].
  clear Hok. apply survives_bind, begin_run_live; [done|intros ex Hf; split; [by split|]; by rewrite Hf|].
  intros a Ha. rewrite decide_False by congruence.
  apply decision_effect_live; [done|intros ex Hf; split; [by split|]; by rewrite Hf|].
  intros b Hk Hst. rewrite Hk. assert (Hag : agreed s1) by apply Hs1. case_decide as E.
  { apply Hst in E. split; [|done]. split; [done|]. intros _. split; [by apply Hag|done]. }
  apply survives_bind. eapply survives_mono, all_wires_live; [|exact Hs1|by apply Hag].
  intros r s2 (-> & Hok & Hw). destruct r as [ws|ex]; [|split; [by split|done]]. clear Hok.
  assert (Hl : by_idempotency_key ws [] = Ok (match ws with [] => [] | _ => [(key, crash_wire)] end)).
  { by destruct (Hw ws eq_refl) as [[-> _]|[-> _]]. }
  rewrite Hl. apply survives_bind. cbn [lift survives]. apply survives_bind. destruct (Hw ws eq_refl) as [[-> _]|[-> Hr]]; cbn [dict_get].
  - apply survives_bind. eapply survives_mono, bank_call_live;
      [|apply crash_wire_files|exact Hs1|by apply onward_full|by apply Hag].
    intros r s2 (Hs2 & _ & _ & Hv & Hok). destruct r as [v|ex]; [|split; [by split|]; intros E'; by specialize (Hok E')].
    destruct (Hv v eq_refl) as [-> Hrec]. apply settle_live; [done|].
    apply Hrec. cbn. by rewrite decide_True, bool_decide_true by eauto.
  - rewrite decide_True by done. by apply settle_live.
Qed.

(** ** Any number of phases, each killed anywhere *)
Inductive DemoPhase := FirstRun (crash : bool) | ReDrive.
Definition phase_prog (p : DemoPhase) : P unit :=
  match p with
  | FirstRun crash => _ ← phase_a_first_run env crash; mret tt
  | ReDrive => _ ← phase_b_recover env run_id; mret tt
  end.
(** The calls a phase made, those it would have made, and how it would have ended *)
Record PhaseRun := mkPhaseRun {
  phase : DemoPhase; seen : list (event answer); unseen : list (event answer); outcome : result unit
}.
Definition ran_phase (x : PhaseRun) : Prop := exec (phase_prog x.(phase)) (x.(seen) ++ x.(unseen)) x.(outcome).
Definition phase_completed (x : PhaseRun) : Prop := x.(unseen) = [] /\ x.(outcome) = Ok tt.

Lemma phase_live s0 s p :
  onward s0 s -> survives step (phase_prog p) (onward s0) (phase_ends s0) s.
Proof.
  intros Hs. destruct p as [crash|]; cbn [phase_prog]; apply survives_bind.
  - unfold phase_a_first_run. apply survives_bind.
    eapply survives_mono, open_bank_live; [|exact Hs|by apply onward_empty].
    intros r s1 (Hs1 & _ & _). destruct r as [[]|ex]; [|by split].
    apply survives_bind, begin_run_live; [done|by intros|]. intros a ->.
    eapply survives_mono, phase_a_from_live; [|done]. intros [a'|ex] s2 [H2 _]; [|done]. exact H2.
  - eapply survives_mono, phase_b_live; [|done]. intros [a|ex] s2 [H2 _]; exact H2.
Qed.

Lemma phases_live runs s s' :
  agreed s -> Forall ran_phase runs -> world_steps step s (runs ≫= seen) s' ->
  onward s s' /\ (Exists phase_completed runs -> settled s').
Proof.
  intros Hs Hr. revert s Hs. induction Hr as [|x runs Hx _ IH]; intros s Hs Ht.
  - cbn in Ht. inversion Ht; subst. split; [by apply onward_refl|]. by intros ?%Exists_nil.
  - cbn in Ht. apply world_steps_app_inv in Ht as (s1 & Ht1 & Ht2).
    destruct (survives_prefix _ _ _ _ _ _ _ _ _ (phase_live s s x.(phase) (onward_refl s Hs)) (onward_refl s Hs) Hx Ht1)
      as [Hs1 Hend].
    destruct (IH s1 (proj1 Hs1) Ht2) as [Hs2 Hset]. split; [by eapply onward_trans|].
    intros [[Hu Ho]|Hc]%Exists_cons; [|by apply Hset].
    destruct (Hend Hu) as [_ [Hr1 Hd1]]; [by rewrite Ho|]. destruct Hs2 as (_ & Hr2 & Hd2). split; auto.
Qed.

(** C7: Any number of first runs and re-drives, each killed between any two of its calls, with
    calls that fail and completions that fail although they were recorded: the bank's file
    never has more than the one wire of the key, the journal never confirms a wire the bank
    does not have, a wire that is on file stays, and once a phase has returned the wire is
    on file and the journal confirms it. *)
Theorem crashes_land_one_wire runs s s' :
  agreed s -> Forall ran_phase runs -> world_steps step s (runs ≫= seen) s' ->
  one_record key crash_wire s'.1 /\ (s'.2 = true -> recorded key crash_wire s') /\
  (recorded key crash_wire s -> recorded key crash_wire s') /\ (Exists phase_completed runs -> settled s').
Proof.
  intros Hs Hr Ht. destruct (phases_live runs s s' Hs Hr Ht) as [([Ho Hc] & Hrec & _) Hset]. by split_and!.
Qed.

(** The scenario on a fresh working directory: it ends with an exit code, 0 only when the
    wire is on file and confirmed; and when no call fails the code is 0, although the first
    process dies with the wire on file and nothing confirmed. *)
Theorem crash_resume_recovers t o s' :
  run_id <> "" -> exec (crash_resume_scenario env) t o -> world_steps step (None, false) t s' ->
  (exists code, o = Ok code /\ (code = 0 \/ code = 1 \/ code = 2)%Z) /\
  (o = Ok 0%Z -> settled s') /\ (faulty = false -> o = Ok 0%Z).
Proof.
  intros Hne He Ht. set (s := (None, false) : world) in *.
  assert (Hs : onward s s) by (apply onward_refl; split; [by left|done]).
  set (Q := fun (o : result Z) s' => (exists code, o = Ok code /\ (code = 0 \/ code = 1 \/ code = 2)%Z) /\
    (o = Ok 0%Z -> settled s') /\ (faulty = false -> o = Ok 0%Z)).
  assert (Hfail : forall s1, faulty = true -> Q (Ok 2%Z) s1).
  { intros s1 ->. split_and!; [by exists 2%Z; auto|done..]. }
  enough (Hl : survives step (crash_resume_scenario env) (onward s) Q s).
  { rewrite <- (app_nil_r t) in He. by apply (survives_prefix _ _ _ _ _ _ _ _ _ Hl Hs He Ht). }
  unfold crash_resume_scenario. apply survives_try, survives_bind. unfold spawn_phase_a.
  apply survives_bind, survives_caught, survives_bind.
  eapply survives_mono, open_bank_live; [|exact Hs|by apply onward_empty].
  intros r s1 (Hs1 & _ & Hok). destruct r as [[]|ex].
  2:{ cbn. apply Hfail. destruct faulty; [done|by specialize (Hok eq_refl)]. }
  clear Hok.
  apply begin_run_live; [done|intros ex Hf; cbn; by apply Hfail|].
  intros a ->. cbn [survives mret prog_ret]. apply survives_bind, survives_caught.
  eapply survives_mono, phase_a_from_live; [|done]. intros o2 s2 [[Hs2 _] _]. cbn [survives mret prog_ret].
  rewrite decide_False by done. apply survives_bind.
  eapply survives_mono, phase_b_live; [|done]. intros o3 s3 [[Hs3 Hset] Hok].
  destruct o3 as [rd|ex]; [|cbn; apply Hfail; destruct faulty; [done|by specialize (Hok eq_refl)]].
  specialize (Hset I). apply survives_bind.
  eapply survives_mono, screen_wires_live; [|exact Hs3|by apply Hset]. intros r s4 (-> & ws & -> & Hws & Hf).
  destruct Hws as [->| ->]; cbn.
  - split_and!; [by exists 1%Z; auto|done|]. intros E. by specialize (Hf E).
  - split_and!; [by exists 0%Z; auto|done..].
Qed.
End crash_resume.

(** ** The lost acknowledgement *)
Section unknown_reconcile.
Context `{PyText}.
Variable env : DemoEnv.
Variables run_id key : string.
Variable faulty : bool.
Definition unknown_wire : json := wire_rec 0 (JInt 2000000) (JStr "acct-1") (Some unknown_business_key).
#[export] Instance unknown_wire_files : FilesOnce unknown_business_key unknown_wire
  (business_key_found unknown_business_key)
  (wire_by_business_key (Some unknown_business_key) (JInt 2000000) (JStr "acct-1")).
Proof. split; vm_compute; reflexivity. Qed.

(** The server's row for the effect: whether its dispatch slot was granted, whether it is
    UNKNOWN or was, and the reference of the observation that confirmed it. *)
Record EffectRow := mkEffectRow { granted : bool; was_unknown : bool; observed_ref : option string }.
Definition named (e : PbEffect.t) : bool :=
  bool_decide (e.(PbEffect.run_id) = run_id) && bool_decide (e.(PbEffect.idempotency_key) = key).
(** A call that fails may have been recorded.  Without faults the slot is free, and an
    UNKNOWN effect is listed. *)
Definition row_step (x : EffectRow) (ev : event answer) (x' : EffectRow) : Prop :=
  let 'Ev c r := ev in
  match c return result (answer c) -> Prop with
  | BeginRun _ _ _ _ _ _ _ _ _ _ _ _ _ _ => fun r => x' = x /\ forall a, r = Ok a -> a.1 = run_id
  | BeginEffect _ => fun r => x' = x /\ forall b, r = Ok b -> br_idempotency_key b = key
  | ClaimEffectDispatch _ _ _ _ => fun r =>
    (x' = x \/ x' = mkEffectRow true x.(was_unknown) x.(observed_ref)) /\
    forall a, r = Ok a -> (a.1 = true -> x'.(granted) = true) /\ (faulty = false -> a.1 = true)
  | RecordDispatchAttempt _ _ _ next => fun r =>
    let after := mkEffectRow x.(granted) (x.(was_unknown) || (next <=? 0)%Z) x.(observed_ref) in
    x' = after \/ (is_ok r = false /\ x' = x)
  | ListPendingEffects _ _ unknown _ => fun r => x' = x /\
    forall l, r = Ok l -> faulty = false -> unknown = true -> x.(was_unknown) = true -> existsb named l = true
  | RecordExternalObservation _ _ _ ref _ _ _ => fun r =>
    let after := mkEffectRow x.(granted) x.(was_unknown) (Some ref) in
    x' = after \/ (is_ok r = false /\ x' = x)
  | _ => fun _ => x' = x
  end r.
#[local] Abbreviation world := (option json * EffectRow)%type.
#[local] Abbreviation step := (demo_step faulty env.(ledger_path) row_step).
#[local] Abbreviation on_file := (recorded (X := EffectRow) unknown_business_key unknown_wire).

(** One wire at most, and only under the lease; an effect is confirmed by observation only
    with the wire on file, under its identifier, and after it was reported UNKNOWN. *)
Definition in_order (s : world) : Prop :=
  one_record unknown_business_key unknown_wire s.1 /\
  (on_file s -> s.2.(granted) = true) /\
  (forall ref, s.2.(observed_ref) = Some ref -> on_file s /\ ref = "wire-0001" /\ s.2.(was_unknown) = true).

Lemma in_order_row f x x' :
  in_order (f, x) -> (x.(granted) = true -> x'.(granted) = true) ->
  (x.(was_unknown) = true -> x'.(was_unknown) = true) -> x'.(observed_ref) = x.(observed_ref) ->
  in_order (f, x').
Proof.
  intros (Ho & Hg & Hr) H1 H2 H3. split_and!; [done|auto|]. intros ref E. cbn in E. rewrite H3 in E.
  destruct (Hr ref E) as (? & ? & ?). split_and!; auto.
Qed.
Lemma in_order_empty s : in_order s -> s.1 = None -> in_order (Some (JObj []), s.2).
Proof.
  intros (Ho & Hg & Hr) Hn. split_and!; [right; by left|done|]. intros ref E. destruct (Hr ref E) as [Hf _].
  unfold recorded in Hf. congruence.
Qed.
Lemma in_order_full s : in_order s -> s.2.(granted) = true -> in_order (Some (full unknown_business_key unknown_wire), s.2).
Proof.
  intros (Ho & Hg & Hr) Hgr. split_and!; [right; by right|done|]. intros ref E.
  destruct (Hr ref E) as (_ & ? & ?). by split_and!.
Qed.

Lemma bank_find_live (I : world -> Prop) s :
  I s -> on_file s ->
  survives step (bank_find env.(ledger_path) unknown_business_key) I
    (fun r s' => s' = s /\ (faulty = false -> r = Ok (Some unknown_wire)) /\
       forall v, r = Ok v -> v = None \/ v = Some unknown_wire) s.
Proof.
  intros HI Hs. unfold bank_find. apply survives_bind. eapply survives_mono, read_bank_live; [|done].
  intros r s' (-> & Hok & Hd). destruct r as [d|ex]; [|split_and!; try done; intros E; by specialize (Hok E)].
  unfold recorded in Hs. rewrite Hs in Hok, Hd. cbn [default id] in *.
  assert (Hfull : find_by_business_key unknown_business_key (Some (full unknown_business_key unknown_wire)) =
    Ok (Some unknown_wire)) by (vm_compute; reflexivity).
  destruct (Hd d eq_refl) as [->| ->]; apply survives_lift; [rewrite Hfull|]; (split; [done|]); split.
  - done.
  - intros ? [= <-]. by right.
  - intros E. specialize (Hok E). unfold full in Hok. discriminate.
  - intros ? [= <-]. by left.
Qed.

(** How the scenario ends: with 0 only when the wire is on file and observed under its
    identifier, and with 0 when nothing fails *)
Definition scenario_ends (o : result (string * Z)) (s : world) : Prop :=
  (forall r, o = Ok (r, 0%Z) -> r = run_id /\ on_file s /\ s.2.(observed_ref) = Some "wire-0001") /\
  (faulty = false -> o = Ok (run_id, 0%Z)).
Lemma ends_failed (r : result (string * Z)) s : faulty = true -> (forall x, r <> Ok (x, 0%Z)) -> scenario_ends r s.
Proof. intros Hf Hr. split; [intros x E; by destruct (Hr x E)|by rewrite Hf]. Qed.
Lemma not_faulty {A} (r : result A) : (faulty = false -> is_ok r) -> is_ok r = false -> faulty = true.
Proof. intros Hf Hr. destruct faulty; [done|]. specialize (Hf eq_refl). by rewrite Hr in Hf. Qed.

(** A call of the server, its answer and the row after it *)
Ltac server_call c r x :=
  apply (survives_invoke (R:=answer) _ c);
  let f := fresh "f" in
  intros r [f x] [?Hok [?Hfile ?Hrow]]; cbn in Hok, Hfile, Hrow; subst f.

Lemma failed_call {A} (r : result A) (ex : exn) s : r = Err ex -> (faulty = false -> is_ok r) -> scenario_ends (Err ex) s.
Proof. intros -> Hok. apply ends_failed; [|done]. by apply (not_faulty _ Hok). Qed.

(** The second half, from the report on *)
Lemma reconcile_live f x :
  in_order (f, x) -> on_file (f, x) ->
  survives step
    (_ ← rpc_record_dispatch_attempt run_id key demo_lost_ack_error 0;
     pending ← rpc_list_pending_effects 0 false 10;
     if negb (existsb named pending) then mret (run_id, 2%Z)
     else
       observed ← bank_find env.(ledger_path) unknown_business_key;
       match observed with
       | None => mret (run_id, 2%Z)
       | Some rec =>
         ref ← lift (wire_id rec);
         _ ← rpc_record_external_observation run_id key EFFECT_RESOLUTION_CONFIRMED ref (wire_id_json (JStr ref)) "" "";
         _ ← end_run run_id RUN_STATUS_TERMINAL "";
         wires ← screen_wires env.(ledger_path);
         match wires with
         | [w] => _ ← lift (item_text w "wire_id"); mret (run_id, 0%Z)
         | _ => mret (run_id, 1%Z)
         end
       end) in_order scenario_ends (f, x).
Proof.
  intros Hs Hf. apply survives_bind. unfold rpc_record_dispatch_attempt.
  server_call (RecordDispatchAttempt run_id key demo_lost_ack_error 0) r x1.
  assert (Hs1 : in_order (f, x1)).
  { apply (in_order_row f x); [done|..]; destruct Hrow as [->|[_ ->]]; cbn; auto. by intros ->. }
  split; [done|]. destruct r as [[]|ex]; [|by eapply failed_call].
  destruct Hrow as [->|[? _]]; [|done]. rewrite orb_true_r in *. clear Hs.
  apply survives_bind. unfold rpc_list_pending_effects.
  server_call (ListPendingEffects 0 false true 10) r x2. destruct Hrow as [-> Hl]. split; [done|].
  destruct r as [l|ex]; [|by eapply failed_call].
  destruct (existsb named l) eqn:El; cbn [negb].
  2:{ apply ends_failed; [|done]. destruct faulty; [done|]. by rewrite (Hl l eq_refl) in El. }
  apply survives_bind. eapply survives_mono, bank_find_live; [|exact Hs1|exact Hf].
  intros r s2 (-> & Hok1 & Hv). destruct r as [v|ex]; [|eapply failed_call; [done|]; intros E; by rewrite (Hok1 E)].
  destruct (Hv v eq_refl) as [->| ->].
  { apply ends_failed; [|done]. destruct faulty; [done|by specialize (Hok1 eq_refl)]. }
  apply survives_bind. cbn [unknown_wire wire_rec wire_id dict_get]. rewrite decide_True by done. cbn [lift survives].
  apply survives_bind. unfold rpc_record_external_observation.
  server_call (RecordExternalObservation run_id key EFFECT_RESOLUTION_CONFIRMED (wire_id_of 0) (wire_id_json (JStr (wire_id_of 0))) "" "") r x3.
  assert (Hs2 : in_order (f, x3)).
  { destruct Hrow as [->|[_ ->]]; [|done]. split_and!; [apply Hs1|apply Hs1|]. intros ref [= <-].
    split; [done|]. split; [vm_compute; reflexivity|done]. }
  split; [done|]. destruct r as [[]|ex]; [|by eapply failed_call].
  destruct Hrow as [->|[? _]]; [|done].
  apply survives_bind. unfold end_run. server_call (EndRun run_id RUN_STATUS_TERMINAL "") r x4. subst x4. split; [done|].
  destruct r as [[]|ex]; [|by eapply failed_call].
  apply survives_bind. eapply survives_mono, screen_wires_live; [|exact Hs2|exact Hf].
  intros r s3 (-> & ws & -> & Hws & Hall). destruct Hws as [->| ->]; cbn.
  - split; [intros ? [=]|]. intros E. by specialize (Hall E).
  - split; [|done]. intros ? [= <-]. by split_and!.
Qed.

Lemma scenario_live s :
  in_order s -> survives step (run_unknown_reconcile_scenario env) in_order scenario_ends s.
Proof.
  intros Hs. unfold run_unknown_reconcile_scenario. apply survives_bind.
  eapply survives_mono, open_bank_live; [|exact Hs|by apply in_order_empty].
  intros r [f x] (Hs1 & _ & Hok). destruct r as [[]|ex]; [|eapply failed_call; [done|]; intros E; by rewrite (Hok E)].
  clear Hok s Hs. apply survives_bind. unfold begin_demo_run.
  server_call (BeginRun "treasury-demo-unknown" "cfo" (session_id env) (invocation_id env) (lease_owner env) 30000
    "" "" "" "" "" "" ["mcp:tools:bank.wire"] []) r x4.
  destruct Hrow as [-> Ha]. split; [done|]. destruct r as [a|ex]; [|by eapply failed_call].
  rewrite (Ha a eq_refl). clear Ha Hok. apply survives_bind. unfold record_decision.
  server_call (RecordDecision run_id 0 "demo/oracle" demo_request demo_response "excess USD; sweep to MMF" "") r y2. subst y2.
  split; [done|]. destruct r as [[]|ex]; [|by eapply failed_call].
  apply survives_bind. unfold rpc_begin_effect. server_call (BeginEffect (unknown_intent run_id)) r y3.
  destruct Hrow as [-> Hb]. split; [done|]. destruct r as [b|ex]; [|by eapply failed_call].
  cbv zeta. rewrite (Hb b eq_refl). clear Hb Hok Hok0. apply survives_bind.
  server_call (ClaimEffectDispatch run_id key "demo-dispatcher" 30000) r y4. destruct Hrow as [Hx Hc].
  assert (Hs2 : in_order (f, y4)).
  { apply (in_order_row f x); [done|..]; destruct Hx as [->| ->]; done. }
  split; [done|]. destruct r as [c|ex]; [|by eapply failed_call].
  destruct (Hc c eq_refl) as [Hg Hfree]. destruct c.1 eqn:Ec; cbn [negb].
  2:{ apply ends_failed; [|done]. destruct faulty; [done|by specialize (Hfree eq_refl)]. }
  specialize (Hg eq_refl). apply survives_bind. eapply survives_mono, bank_call_live;
    [|apply unknown_wire_files|exact Hs2|by apply in_order_full|by apply Hs2].
  intros r [f1 x1] (Hs3 & Hx1 & _ & Hv & Hok1). cbn in Hx1. subst x1.
  destruct r as [v|ex]; [|eapply failed_call; [done|]; intros E; by rewrite (Hok1 E)].
  destruct (Hv v eq_refl) as [-> Hrec]. apply survives_bind. cbn [item_text unknown_wire wire_rec dict_get].
  rewrite decide_True by done. cbn [lift survives]. apply reconcile_live; [done|]. apply Hrec. vm_compute. reflexivity.
Qed.

(** C15: The scenario from a fresh file, killed between any two of its calls, with calls that
    fail at any point: at every moment the bank has at most one wire, filed under the
    dispatch lease, and the effect is confirmed only after it was UNKNOWN, by the
    identifier of the wire on file.  It ends with 0 only so, and it does when nothing
    fails. *)
Theorem unknown_is_resolved t tail o s' :
  exec (run_unknown_reconcile_scenario env) (t ++ tail) o ->
  world_steps step (None, mkEffectRow false false None) t s' ->
  in_order s' /\ (tail = [] -> scenario_ends o s').
Proof.
  intros He Ht. assert (Hs : in_order (None, mkEffectRow false false None)) by (split_and!; [by left|done..]).
  exact (survives_prefix _ _ _ _ _ _ _ _ _ (scenario_live _ Hs) Hs He Ht).
Qed.
End unknown_reconcile.

(** ** The screen *)

Definition entry_seq (e : WireEntry.t) : Z := e.(WireEntry.event).(PbEvent.seq).
(** What the worker keeps of the journal: entries of strictly increasing position, no more
    than the deque holds, and a cursor past the last of them. *)
Definition screen_ok (st : Z * Screen) : Prop :=
  StronglySorted Z.lt (map entry_seq st.2.(entries)) /\ length st.2.(entries) <= max_entries /\
  (forall n, last_seq st.2 = Some n -> st.1 = n + 1)%Z.

Lemma sorted_snoc l n : StronglySorted Z.lt l -> Forall (fun m => m < n)%Z l -> StronglySorted Z.lt (l ++ [n]).
Proof.
  induction 1 as [|m l Hl IH Hm]; intros Hf; cbn; [by repeat constructor|].
  apply Forall_cons in Hf as [Hn Hf]. constructor; [by apply IH|]. apply Forall_app. split; [done|]. by constructor.
Qed.
Lemma sorted_below l n : StronglySorted Z.lt l -> (forall m, last l = Some m -> (m < n)%Z) -> Forall (fun m => m < n)%Z l.
Proof.
  induction 1 as [|m l Hl IH Hm]; intros Hn; [done|]. destruct l as [|m' l]; [by constructor; [apply Hn|]|].
  assert (Hb : Forall (fun m => m < n)%Z (m' :: l)) by (apply IH; intros k Hk; apply Hn; by rewrite last_cons, Hk).
  constructor; [|done]. apply Forall_cons in Hm as [Hm _], Hb as [Hb _]. lia.
Qed.
Lemma last_seq_map s : last_seq s = last (map entry_seq s.(entries)).
Proof. unfold last_seq. by rewrite <- fmap_last. Qed.

Lemma take_entry_ok st e : screen_ok st -> screen_ok (take_entry st e).
Proof.
  intros (Hs & Hl & Hc). unfold take_entry. fold (entry_seq e).
  destruct (match last_seq st.2 with Some n => (entry_seq e <=? n)%Z | None => false end) eqn:E; [done|].
  assert (Hb : Forall (fun m => m < entry_seq e)%Z (map entry_seq st.2.(entries))).
  { apply sorted_below; [done|]. intros m Hm. rewrite last_seq_map, Hm in E. lia. }
  assert (Hs' : StronglySorted Z.lt (map entry_seq (st.2.(entries) ++ [e]))) by (rewrite map_app; by apply sorted_snoc).
  assert (Hlast : forall es, last (map entry_seq (es ++ [e])) = Some (entry_seq e)) by (intros es; rewrite map_app; apply last_snoc).
  unfold screen_ok. rewrite last_seq_map. cbn [fst snd entries]. destruct (max_entries <? length (st.2.(entries) ++ [e])) eqn:El.
  - destruct (st.2.(entries)) as [|e0 es]; [done|]. cbn [app tail map] in *. inversion Hs'; subst.
    split; [done|]. split; [rewrite length_app in *; cbn in *; lia|]. intros n. rewrite Hlast. by intros [= <-].
  - split; [done|]. split; [by apply Nat.ltb_ge|]. intros n. rewrite Hlast. by intros [= <-].
Qed.

(** Whatever the subscriptions deliver, again or out of order, and however they end, the
    screen shows positions strictly increasing, never one twice, at most two hundred, and
    the next subscription starts after the last one shown. *)
Theorem screen_never_repeats streams st :
  screen_ok st -> screen_ok (stream_worker streams st).
Proof.
  revert st. induction streams as [|[es ending] streams IH]; intros st Hs; [done|]. cbn.
  assert (He : screen_ok (foldl take_entry st es)).
  { clear -Hs. revert st Hs. induction es as [|e es IH]; intros st Hs; [done|]. apply IH, take_entry_ok, Hs. }
  destruct ending as [ex|]; [|by apply IH]. case_decide; auto.
Qed.

(** The screen of a journal that is delivered once, in order *)
Lemma take_entries_app es st :
  StronglySorted Z.lt (map entry_seq (st.2.(entries) ++ es)) -> length (st.2.(entries) ++ es) <= max_entries ->
  (foldl take_entry st es).2.(entries) = st.2.(entries) ++ es.
Proof.
  revert st. induction es as [|e es IH]; intros st Hs Hl; [by rewrite app_nil_r|]. cbn [foldl].
  assert (Ht : (take_entry st e).2.(entries) = st.2.(entries) ++ [e]).
  { unfold take_entry. fold (entry_seq e). rewrite last_seq_map.
    assert (match last (map entry_seq st.2.(entries)) with Some n => (entry_seq e <=? n)%Z | None => false end = false) as ->.
    { destruct (last (map entry_seq st.2.(entries))) as [n|] eqn:El; [|done]. apply last_Some in El as [l El].
      rewrite map_app, El, <- app_assoc in Hs. clear -Hs. induction l as [|m l IH]; cbn in Hs; inversion Hs; subst; [|auto].
      apply Forall_cons in H2 as [H2 _]. lia. }
    rewrite length_app in Hl. cbn in Hl. cbn [snd entries].
    assert ((max_entries <? length (st.2.(entries) ++ [e])) = false) as -> by (apply Nat.ltb_ge; rewrite length_app; cbn; lia).
    done. }
  rewrite IH; rewrite Ht, <- app_assoc; done.
Qed.

Section panel.
Context `{PyText}.

Lemma rows_after first_ts crash es :
  journal_rows_from crash first_ts true es = map_result (entry_row first_ts) es.
Proof.
  induction es as [|e es IH]; [done|]. cbn [journal_rows_from map_result]. destruct crash; cbn [negb andb orb]; by rewrite IH.
Qed.

(** The panel after a crash: the rows of the entries up to the mark, then one divider, then
    the rows of the later ones; no divider before the first later entry has come. *)
Theorem divider_between first_ts n before after :
  Forall (fun e => entry_seq e <= n)%Z before -> Forall (fun e => n < entry_seq e)%Z after ->
  journal_rows_from (Some n) first_ts false (before ++ after) =
  (rb ← map_result (entry_row first_ts) before;
   ra ← map_result (entry_row first_ts) after;
   mret (rb ++ (match after with [] => [] | _ => [crash_row] end) ++ ra)).
Proof.
  intros Hb Ha. induction Hb as [|e before He Hb IH]; cbn [app].
  - destruct after as [|e after]; [done|]. apply Forall_cons in Ha as [He _]. cbn [journal_rows_from map_result].
    fold (entry_seq e). assert ((n <? entry_seq e)%Z = true) as -> by lia. cbn [negb andb orb]. rewrite rows_after.
    unfold mbind, result_bind, mret, result_ret. by repeat case_match; simplify_eq.
  - cbn [journal_rows_from map_result]. fold (entry_seq e). assert ((n <? entry_seq e)%Z = false) as -> by lia.
    cbn [negb andb orb]. rewrite IH. unfold mbind, result_bind, mret, result_ret.
    repeat case_match; simplify_eq; done.
Qed.
End panel.

(** ** Concrete runs *)

Definition demo_env : DemoEnv := mkDemoEnv "demo-1" "sess-1" 4242 "/tmp/bank.json".
Definition demo_key : string := "run-1:0:bank.wire:0".
(** A server with one run and one effect, and the file of the ledger *)
Definition demo_server (c : call) : M (option json * bool) (answer c) := fun w =>
  match c return result (answer c) * (option json * bool) with
  | BeginRun _ _ _ _ _ _ _ _ _ _ _ _ _ _ => (Ok ("run-1", bool_decide (is_Some w.1)), w)
  | BeginEffect _ => (Ok (mkBeginEffectResponse demo_key (if w.2 then EFFECT_STATUS_CONFIRMED else EFFECT_STATUS_PENDING) ""), w)
  | CompleteEffect _ k status _ _ =>
    (Ok tt, (w.1, w.2 || bool_decide (k = demo_key /\ status = EFFECT_STATUS_CONFIRMED)))
  | RecordDecision _ _ _ _ _ _ _ | EndRun _ _ _ => (Ok tt, w)
  | ReadFile _ => (Ok w.1, w)
  | WriteFile p v => (Ok tt, ((if decide (p = demo_env.(ledger_path)) then Some v else w.1), w.2))
  | _ => (Err (RpcError "UNIMPLEMENTED"), w)
  end.
Lemma demo_server_steps c w :
  demo_step true demo_env.(ledger_path) (journal_step "run-1" demo_key) w (Ev c (demo_server c w).1) (demo_server c w).2.
Proof.
  destruct w as [f done_]. split; [done|]. destruct c; cbn; try done.
  - split; [done|]. split; [done|]. by intros ? [= <-].
  - split; [done|]. split; [done|]. intros ? [= <-]. split; [done|]. by destruct done_.
  - split; [done|]. by left.
  - split; [done|]. by intros _ ? [= <-].
Qed.

#[local] Existing Instance sample_text.
#[local] Abbreviation fresh := ((None, false) : option json * bool).
#[local] Abbreviation first_run := (phase_prog demo_env "run-1" (FirstRun true)).
#[local] Abbreviation redrive := (phase_prog demo_env "run-1" ReDrive).
Definition after_crash : option json * bool := (run demo_server first_run fresh).2.
Definition killed_then_redriven : list PhaseRun :=
  [mkPhaseRun (FirstRun true) (trace demo_server first_run fresh) [] (run demo_server first_run fresh).1;
   mkPhaseRun ReDrive (trace demo_server redrive after_crash) [] (run demo_server redrive after_crash).1].

Lemma crashes_land_one_wire_witness :
  after_crash = (Some (full demo_key (crash_wire demo_key)), false) /\
  settled demo_key (Some (full demo_key (crash_wire demo_key)), true).
Proof.
  split; [vm_compute; reflexivity|].
  refine (proj2 (proj2 (proj2 (crashes_land_one_wire demo_env "run-1" demo_key true killed_then_redriven fresh
    (Some (full demo_key (crash_wire demo_key)), true) _ _ _))) _).
  - split; [left; reflexivity|discriminate].
  - repeat constructor; unfold ran_phase; cbn [phase seen unseen outcome]; rewrite app_nil_r; apply run_exec.
  - unfold killed_then_redriven, mbind, list_bind. cbn [seen]. rewrite app_nil_r.
    eapply world_steps_app; [apply handled_steps, demo_server_steps|].
    refine (eq_rect (run demo_server redrive after_crash).2 _ (handled_steps _ _ _ _ demo_server_steps) _ _).
    vm_compute. reflexivity.
  - apply Exists_cons. right. apply Exists_cons. left. split; vm_compute; reflexivity.
Defined.

Lemma crash_resume_recovers_witness :
  (run demo_server (crash_resume_scenario demo_env) fresh).1 = Ok 0%Z /\
  settled demo_key (run demo_server (crash_resume_scenario demo_env) fresh).2.
Proof.
  assert (Ho : (run demo_server (crash_resume_scenario demo_env) fresh).1 = Ok 0%Z) by (vm_compute; reflexivity).
  split; [exact Ho|].
  refine (proj1 (proj2 (crash_resume_recovers demo_env "run-1" demo_key true
    (trace demo_server (crash_resume_scenario demo_env) fresh) _ _ _ (run_exec _ _ _) _)) Ho); [discriminate|].
  apply handled_steps, demo_server_steps.
Defined.

(** The effect confirmed and the run not ended: the re-drive finds nothing to do, and
    leaves the run as it is, for every later sweep to re-drive again. *)
Lemma confirmed_run_never_ended :
  let confirmed := (Some (full demo_key (crash_wire demo_key)), true) in
  run demo_server (phase_b_recover demo_env "run-1") confirmed =
    (Ok (mkRedriven ["BeginRun → existing run_id (resumed=True)"; "decision#0 → read from journal (no model call)";
                     "effect#0 → read from journal (status=2)"]
                    ["nothing to do — effect already CONFIRMED"]), confirmed) /\
  Forall (fun ev => match ev.(ev_call) with EndRun _ _ _ => False | _ => True end)
    (trace demo_server (phase_b_recover demo_env "run-1") confirmed).
Proof. split; [vm_compute; reflexivity|]. vm_compute. repeat constructor. Qed.

(** The first run, when it does not crash, confirms the effect with an identifier the bank
    did not give. *)
Lemma first_run_invents_the_wire :
  let t := trace demo_server (phase_a_first_run demo_env false) fresh in
  Ev (R:=answer) (CompleteEffect "run-1" demo_key EFFECT_STATUS_CONFIRMED (wire_id_json (JStr "wire-from-re:0")) "") (Ok tt) ∈ t /\
  item_text (crash_wire demo_key) "wire_id" = Ok (JStr "wire-0001").
Proof. split; [|reflexivity]. apply (list_elem_of_lookup_2 _ 7). vm_compute. reflexivity. Qed.

(** The end of the run is refused: one wire is on file and confirmed, and the exit code is 2. *)
Definition demo_server_no_end (c : call) : M (option json * bool) (answer c) :=
  match c return M (option json * bool) (answer c) with
  | EndRun _ _ _ => fun w => (Err (RpcError "UNAVAILABLE"), w)
  | c => demo_server c
  end.
Lemma one_wire_exits_two :
  run demo_server_no_end (crash_resume_scenario demo_env) fresh = (Ok 2%Z, (Some (full demo_key (crash_wire demo_key)), true)).
Proof. vm_compute. reflexivity. Qed.

(** A file that cannot be read when a new wire is filed is replaced by that wire alone,
    whatever it held. *)
Lemma unreadable_bank_replaced path key amount account :
  let rec := JObj [("wire_id", JStr (wire_id_of 0)); ("amount_minor", amount); ("account_id", account);
                   ("idempotency_key", JStr key)] in
  exec (bank_wire path key amount account)
    [Ev (R:=answer) (ReadFile path) (Err (Raised "OSError" "Input/output error"));
     Ev (R:=answer) (WriteFile path (JObj [(key, rec)])) (Ok tt)] (Ok rec).
Proof. cbn. apply exec_call. cbn. apply exec_call. cbn. constructor. Qed.

(** ** A run of the ambiguity loop *)
Definition unknown_key : string := "run-2:0:bank.wire:0".
Definition unknown_row : PbEffect.t :=
  PbEffect.mk "run-2" unknown_key "bank.wire" EFFECT_STATUS_UNKNOWN EFFECT_SEMANTICS_NON_IDEMPOTENT "bank.wire" "" "" 1 "" ""
    EFFECT_DISPATCH_MODE_OUTBOX unknown_business_key 0.
Definition row_server (c : call) : M (option json * EffectRow) (answer c) := fun w =>
  let x := w.2 in
  match c return result (answer c) * (option json * EffectRow) with
  | BeginRun _ _ _ _ _ _ _ _ _ _ _ _ _ _ => (Ok ("run-2", false), w)
  | BeginEffect _ => (Ok (mkBeginEffectResponse unknown_key EFFECT_STATUS_PENDING ""), w)
  | ClaimEffectDispatch _ _ _ _ => (Ok (true, unknown_row), (w.1, mkEffectRow true x.(was_unknown) x.(observed_ref)))
  | RecordDispatchAttempt _ _ _ next => (Ok tt, (w.1, mkEffectRow x.(granted) (x.(was_unknown) || (next <=? 0)%Z) x.(observed_ref)))
  | ListPendingEffects _ _ _ _ => (Ok (if x.(was_unknown) then [unknown_row] else []), w)
  | RecordExternalObservation _ _ _ ref _ _ _ => (Ok tt, (w.1, mkEffectRow x.(granted) x.(was_unknown) (Some ref)))
  | RecordDecision _ _ _ _ _ _ _ | EndRun _ _ _ => (Ok tt, w)
  | ReadFile _ => (Ok w.1, w)
  | WriteFile p v => (Ok tt, ((if decide (p = demo_env.(ledger_path)) then Some v else w.1), w.2))
  | _ => (Err (RpcError "UNIMPLEMENTED"), w)
  end.
Lemma row_server_steps c w :
  demo_step true demo_env.(ledger_path) (row_step "run-2" unknown_key true) w (Ev c (row_server c w).1) (row_server c w).2.
Proof.
  destruct w as [f x]. split; [done|]. destruct c; cbn; try done.
  - split; [done|]. split; [done|]. by intros ? [= <-].
  - split; [done|]. split; [done|]. by intros ? [= <-].
  - split; [done|]. split; [by right|]. by intros ? [= <-].
  - split; [done|]. by left.
  - split; [done|]. by left.
  - split; [done|]. by intros _ ? [= <-].
Qed.
Lemma unknown_is_resolved_witness :
  let s' := (run row_server (run_unknown_reconcile_scenario demo_env) (None, mkEffectRow false false None)).2 in
  in_order s' /\ s'.2.(observed_ref) = Some "wire-0001".
Proof.
  set (fresh_row := (None, mkEffectRow false false None)).
  assert (Ho : (run row_server (run_unknown_reconcile_scenario demo_env) fresh_row).1 = Ok ("run-2", 0%Z))
    by (vm_compute; reflexivity).
  assert (Hw := unknown_is_resolved demo_env "run-2" unknown_key true
    (trace row_server (run_unknown_reconcile_scenario demo_env) fresh_row) [] _ _
    (eq_rect_r (fun l => exec _ l _) (run_exec row_server _ fresh_row) (app_nil_r _))
    (handled_steps _ row_server _ _ row_server_steps)).
  split; [exact (proj1 Hw)|]. exact (proj2 (proj2 (proj1 (proj2 Hw eq_refl) "run-2" Ho))).
Defined.

Definition sample_entry (n : Z) : WireEntry.t := WireEntry.mk (PbEvent.mk "run-1" n "run" "" (n * 10) n "") "" "" "" 0.
(** A subscription that ends with its deadline, and one that repeats the last entry *)
Lemma screen_never_repeats_witness :
  let st := stream_worker [([sample_entry 1; sample_entry 2], Some (RpcError "DEADLINE_EXCEEDED"));
                           ([sample_entry 2; sample_entry 3], None)] (0%Z, empty_screen) in
  map entry_seq st.2.(entries) = [1; 2; 3]%Z /\ screen_ok st.
Proof.
  split; [vm_compute; reflexivity|]. apply screen_never_repeats.
  split; [constructor|]. split; [apply le_0_n|discriminate].
Defined.
Lemma divider_between_witness :
  exists r1 r2, journal_rows_from (Some 1%Z) (Some 10%Z) false [sample_entry 1; sample_entry 2] = Ok [r1; crash_row; r2].
Proof.
  eexists _, _.
  refine (eq_trans (divider_between (Some 10%Z) 1 [sample_entry 1] [sample_entry 2] _ _) _);
    [repeat constructor; discriminate|repeat constructor|]. vm_compute. reflexivity.
Defined.
