(* ===== verification/CliStage.v ===== *)
(** * CliStage: the demos' commands whole, [tape_cli/commands/demo.py]

    The scenarios of [CliDemo] as the screen narrates them, and the commands around them:
    the server started and awaited, the scenario, the exit code, and what is stopped and
    removed at the end.  A command calls the server through the SDK and the console and
    the operating system as every other command does; its trace splits into the two. *)
From S2P Require Import Prelude Scenarios ScenarioTheorems Client SdkSamples Identity DemoBank CliText CliConfig CliRelease CliChaos CliDemo.
#[local] Open Scope Z_scope.
#[local] Open Scope nat_scope.

(** ** Both kinds of calls *)
Inductive demo_call := ToServer (c : call) | ToConsole (c : cli_call).
Definition demo_answer (c : demo_call) : Type :=
  match c with ToServer c => answer c | ToConsole c => cli_answer c end.
Abbreviation Demo := (prog demo_answer).
Fixpoint on_server {A} (p : P A) : Demo A :=
  match p with
  | Ret a => Ret a
  | Throw e => Throw e
  | Call c k => Call (R:=demo_answer) (ToServer c) (fun r => on_server (k r))
  end.
Fixpoint on_console {A} (p : Cmd A) : Demo A :=
  match p with
  | Ret a => Ret a
  | Throw e => Throw e
  | Call c k => Call (R:=demo_answer) (ToConsole c) (fun r => on_console (k r))
  end.

(** ** A scenario on its stage

    A step of the scenario answers or raises, and leaves the screen as it is then. *)
Definition Stage (A : Type) : Type := Screen -> P (result A * Screen).
#[export] Instance stage_ret : MRet Stage := fun A a s => mret (Ok a, s).
#[export] Instance stage_bind : MBind Stage := fun A B f m s =>
  r ← (m s : P (result A * Screen));
  match r with (Ok a, s') => f a s' | (Err e, s') => mret (Err e, s') end.
Definition acts {A} (p : P A) : Stage A := fun s => r ← caught p; mret (r, s).
Definition shows (f : Screen -> result Screen) : Stage unit := fun s =>
  mret match f s with Ok s' => (Ok tt, s') | Err e => (Err e, s) end.
Definition starts (idx : nat) : Stage unit := shows (start_phase idx "").
Definition done_with (idx : nat) (detail : string) : Stage unit := shows (finish_phase true idx detail).
Definition failed_at (idx : nat) (detail : string) : Stage unit := shows (finish_phase false idx detail).
Definition headlined (text : string) : Stage unit := shows (fun s => Ok (set_headline text s)).

Section stage.
Context `{PyText}.
Variable env : DemoEnv.

(** ** [tape demo crash-resume] *)
Definition crash_labels : list string :=
  ["tape-server up"; "decision recorded"; "wire dispatched (PENDING)"; "bank ledger gains the wire";
   "agent CRASHES (os._exit) before ACK"; "recovery: find + re-drive run";
   "replay READS the journal — no 2nd model call, no 2nd wire"; "effect → CONFIRMED · run → TERMINAL";
   "verify: exactly ONE forward wire on disk"].
Definition aborted : string := "[red]demo aborted: phase A produced no run_id[/red]".
Definition crash_proved (run_id : string) : string :=
  "[bold green]✓ exactly one wire — durability proved.[/bold green]  `tape inspect " +:+ run_id +:+ "` to explore.".
Definition wires_failed (n : nat) : string :=
  "[bold red]✗ demo FAILED: " +:+ pretty (Z.of_nat n) +:+ " wires (expected 1)[/bold red]".

(** The last phase of either demo: the bank's file is read back; [ends] is what the scenario
    answers with the code. *)
Definition verified {A} (idx : nat) (proved : string) (ends : Z -> A) : Stage A :=
  _ ← starts idx;
  wires ← acts (screen_wires env.(ledger_path));
  match wires with
  | [w] =>
    id ← acts (lift (item_text w "wire_id"));
    _ ← done_with idx ("bank ledger: 1 wire (" +:+ text id +:+ ")");
    _ ← headlined proved; mret (ends 0%Z)
  | _ =>
    _ ← failed_at idx ("bank ledger has " +:+ pretty (Z.of_nat (length wires)) +:+ " wires — expected 1");
    _ ← headlined (wires_failed (length wires)); mret (ends 1%Z)
  end.

(** The scenario, given how the first process ended (or that the wait for it timed out) and
    what the screen's worker had been sent by then. *)
Definition crash_stage (waited : result Z) (before : list WireStream) : Stage Z :=
  _ ← starts 1;
  run_id ← acts (spawn_phase_a env true);
  returncode ← acts (lift waited);
  _ ← shows (fun s => Ok (if decide (run_id = "") then s else (stream_worker before (0%Z, s)).2));
  _ ← done_with 1 "decision#0 (model=demo/oracle) recorded";
  _ ← done_with 2 "effect#0 (bank.wire) PENDING — intent committed";
  _ ← done_with 3 "bank wrote wire-0001 keyed by idempotency_key";
  _ ← failed_at 4 ("exit code " +:+ pretty returncode +:+ " — the ack never came back");
  _ ← shows (fun s => Ok (mark_crash s));
  if decide (run_id = "") then _ ← headlined aborted; mret 2%Z
  else
    _ ← starts 5;
    r ← acts (phase_b_recover env run_id);
    _ ← done_with 5 "found the run; resumed under a new lease";
    _ ← done_with 6 (join " · " r.(replayed));
    _ ← done_with 7 (join " · " r.(actions));
    verified 8 (crash_proved run_id) (fun code => code).

(** ** [tape demo unknown-reconcile] *)
Definition unknown_labels : list string :=
  ["tape-server up"; "agent: record decision"; "agent: open OUTBOX effect (NON-IDEMPOTENT) → PENDING (no bank call)";
   "outbox dispatcher: claim dispatch lease (CAS)"; "dispatcher → bank.wire: wire LANDS keyed by business_key";
   "ack lost (network glitch) — record_dispatch_attempt → UNKNOWN"; "reconciler: list pending/unknown effects, find ours";
   "reconciler: observe(business_key) → bank says CONFIRMED"; "RecordExternalObservation(CONFIRMED) — effect → CONFIRMED";
   "verify: exactly ONE wire on disk"].
Definition unknown_proved (run_id : string) : string :=
  "[bold green]✓ exactly one wire — UNKNOWN survived.[/bold green]  `tape inspect " +:+ run_id +:+ "` to explore.".
(** [_run_unknown_reconcile_scenario] *)
Definition unknown_stage : Stage (string * Z) :=
  let path := env.(ledger_path) in
  _ ← acts (open_bank path);
  _ ← starts 1;
  r ← acts (begin_demo_run env "treasury-demo-unknown" 30000 ["mcp:tools:bank.wire"]);
  let run_id := r.1 in
  _ ← acts (record_decision run_id 0 "demo/oracle" demo_request demo_response "excess USD; sweep to MMF" "");
  _ ← done_with 1 "decision#0 (model=demo/oracle) recorded";
  _ ← starts 2;
  eff ← acts (rpc_begin_effect (unknown_intent run_id));
  let key := br_idempotency_key eff in
  _ ← done_with 2 ("effect#0 PENDING — intent only; bank NOT yet called  (business_key=" +:+ unknown_business_key +:+ ")");
  _ ← starts 3;
  claim ← acts (invoke (ClaimEffectDispatch run_id key "demo-dispatcher" 30000) : P (bool * PbEffect.t));
  if negb claim.1 then _ ← failed_at 3 "couldn't acquire dispatch lease"; mret (run_id, 2%Z)
  else
    _ ← done_with 3 "lease acquired by demo-dispatcher";
    _ ← starts 4;
    wire_record ← acts (bank_wire_by_business_key path unknown_business_key (JInt 2000000) (JStr "acct-1"));
    landed ← acts (lift (item_text wire_record "wire_id"));
    _ ← done_with 4 ("bank ledger now has " +:+ text landed +:+ " keyed by business_key");
    _ ← starts 5;
    _ ← acts (rpc_record_dispatch_attempt run_id key demo_lost_ack_error 0);
    _ ← done_with 5 "record_dispatch_attempt(next_dispatch_at_ms=0) — the server transitions PENDING → UNKNOWN";
    _ ← starts 6;
    pending ← acts (rpc_list_pending_effects 0 false 10);
    if negb (existsb (fun e => bool_decide (e.(PbEffect.run_id) = run_id) &&
                               bool_decide (e.(PbEffect.idempotency_key) = key)) pending)
    then _ ← failed_at 6 "server didn't report the UNKNOWN — flake or version skew"; mret (run_id, 2%Z)
    else
      _ ← done_with 6 "found 1 UNKNOWN effect via list_pending_effects";
      _ ← starts 7;
      observed ← acts (bank_find path unknown_business_key);
      match observed with
      | None => _ ← failed_at 7 "bank says ABSENT — needs human approval"; mret (run_id, 2%Z)
      | Some rec =>
        ref ← acts (lift (wire_id rec));
        _ ← done_with 7 ("bank.observe(business_key) → CONFIRMED, external_ref=" +:+ ref);
        _ ← starts 8;
        _ ← acts (rpc_record_external_observation run_id key EFFECT_RESOLUTION_CONFIRMED ref (wire_id_json (JStr ref)) "" "");
        _ ← done_with 8 "record_external_observation(CONFIRMED) — the server transitions UNKNOWN → CONFIRMED";
        _ ← acts (end_run run_id RUN_STATUS_TERMINAL "");
        verified 9 (unknown_proved run_id) (fun code => (run_id, code))
      end.

(** The screen a command starts with: the phases, and the server up. *)
Definition set_stage (labels : list string) (detail : string) : Screen :=
  let s := add_phases labels empty_screen in
  match finish_phase true 0 detail s with Ok s' => s' | Err _ => s end.
End stage.

(** ** The commands *)
Section commands.
Context `{PyText}.
(** The directory made for the demo, the free port and the polls of it; the server asked for
    and the one found. *)
Variable workdir : string.
Variable port : Z.
Variable polls : list (Z * bool).
Variables binary found : option string.
Variable keep_after : bool.
(** The names drawn, and the process's number *)
Variables invocation session : string.
Variable own_pid : Z.
Definition stage_env : DemoEnv := mkDemoEnv invocation session own_pid (workdir +:+ "/bank.json").
Definition demo_url : string := "tape://127.0.0.1:" +:+ pretty port.
Definition no_binary : string :=
  "no tape-server binary found." +:+ String newline "  Build with: `cd tape/server && cargo build`".
Definition server_argv (bin : string) : list string :=
  [bin; "--listen"; "127.0.0.1:" +:+ pretty port; "--store"; "sqlite:" +:+ workdir +:+ "/tape.db"].
Definition listens : bool :=
  match polls with [] => false | (start, _) :: _ => wait_until_listening (start + 10000) polls end.

(** What both commands do before they have a server *)
Definition start_demo_server : Cmd Z :=
  match opt_str_or binary found with
  | None | Some "" => die no_binary
  | Some bin =>
    _ ← (invoke (MakeDirs workdir) : Cmd unit);
    _ ← say ("[dim]workdir: " +:+ workdir +:+ "[/dim]");
    _ ← say ("[dim]server : " +:+ bin +:+ "[/dim]");
    _ ← say ("[dim]url    : " +:+ demo_url +:+ "[/dim]" +:+ String newline "");
    server ← (invoke (StartProc (server_argv bin) []) : Cmd Z);
    if listens then mret server
    else _ ← (invoke (Terminate server) : Cmd unit); die ("tape-server didn't come up on :" +:+ pretty port)
  end.
(** [with suppress(Exception)] *)
Definition suppressed (p : Cmd unit) : Cmd unit := try_ p (fun _ => mret tt).
(** The [finally] of both; [inspect] is the run named to inspect, if one is. *)
Definition tear_down (server : Z) (inspect : string) : Cmd unit :=
  if keep_after then
    _ ← ok_line ("keeping workdir: " +:+ workdir);
    _ ← ok_line ("server still up: " +:+ demo_url +:+ "  (pid " +:+ pretty server +:+ ")");
    if decide (inspect = "") then mret tt
    else ok_line ("inspect with:  tape inspect " +:+ inspect +:+ " --url " +:+ demo_url)
  else
    _ ← suppressed (_ ← (invoke (Terminate server) : Cmd unit); invoke (WaitProc server 3000));
    suppressed (invoke (RemoveTree workdir)).
Definition listening_at : string := "listening on 127.0.0.1:" +:+ pretty port.

(** What the commands share: [scenario] on its stage, an error of it shown and answered by
    [fallback], and the exit code. *)
Definition on_stage {A} (scenario : P (result A * Screen)) (crashed : string) (fallback : A)
    (inspect : result A -> string) (code : A -> Z) : Demo unit :=
  server ← on_console start_demo_server;
  r ← caught (x ← on_server scenario;
              match x.1 with
              | Ok a => mret a
              | Err ex => _ ← on_console (warn (crashed +:+ str_exn ex)); mret fallback
              end);
  _ ← on_console (tear_down server (inspect r));
  a ← lift r;
  Throw (Exit (code a)).
(** [crash_resume] *)
Definition crash_resume (waited : result Z) (before : list WireStream) : Demo unit :=
  on_stage (crash_stage stage_env waited before (set_stage crash_labels listening_at)) "demo crashed: " 2%Z
    (fun _ => "<run-id>") (fun code => code).
(** [unknown_reconcile] *)
Definition unknown_reconcile : Demo unit :=
  on_stage (unknown_stage stage_env (set_stage unknown_labels listening_at)) "scenario crashed: " ("", 2%Z)
    (fun r => match r with Ok ended => ended.1 | Err _ => "" end) snd.

(** *** [tape demo tape-adk-embedded]

    [ran] is how the scenario ended ([DemoBank.demo_run] over a fresh database), [parent] the
    directory of a path. *)
Definition adk_missing : string := "tape-adk not installed." +:+ String newline "  Fix: pip install tape-adk".
(** The working directory and the store's URL: the directory of the database that is given *)
Definition adk_place (parent : string -> string) (db_path : option string) : string * string :=
  let given := match db_path with Some p => negb (bool_decide (p = "")) | None => false end in
  let dir := if given then parent (default "" db_path) else workdir in
  let db := if given then default "" db_path else dir +:+ "/tape.db" in
  (dir, "sqlite+aiosqlite:///" +:+ db).
Definition tape_adk_embedded (parent : string -> string) (db_path : option string) (ran : result (option string * Z)) : Demo unit :=
  _ ← on_console (try_ (invoke (ImportModule "tape_adk") : Cmd unit) (fun ex =>
        match ex with Raised "ImportError" _ | Raised "ModuleNotFoundError" _ => die adk_missing | _ => Throw ex end));
  let '(dir, db_url) := adk_place parent db_path in
  _ ← on_console (_ ← (invoke (MakeDirs dir) : Cmd unit);
                  _ ← say ("[dim]workdir: " +:+ dir +:+ "[/dim]");
                  say ("[dim]db url : " +:+ db_url +:+ "[/dim]" +:+ String newline ""));
  _ ← on_server (open_bank (dir +:+ "/bank.json"));
  r ← caught (on_console match ran with
                         | Ok ended => mret ended
                         | Err ex => _ ← warn ("scenario crashed: " +:+ str_exn ex); mret (None, 2%Z)
                         end);
  _ ← on_console (if keep_after then
                    _ ← ok_line ("keeping workdir: " +:+ dir);
                    match r with
                    | Ok (Some s, _) => if decide (s = "") then mret tt
                                        else ok_line ("inspect with:  tape inspect-adk " +:+ s +:+ " --db-url " +:+ db_url)
                    | _ => mret tt
                    end
                  else suppressed (invoke (RemoveTree dir)));
  ended ← lift r;
  Throw (Exit ended.2).
End commands.

(** *** The first process *)
Section phase_a.
Context `{PyText}.
Definition phase_a_argv (python : string) : list string := [python; "-m"; "tape_cli.commands.demo"; "--phase-a"].
(** [_spawn_phase_a]: what is set in the child's environment *)
Definition phase_a_env (env : DemoEnv) (url repo_root : string) (crash : bool) (pythonpath : string) : list (string * string) :=
  [("TAPE_URL", url); ("TAPE_DEMO_INVOCATION", env.(invocation_id)); ("TAPE_DEMO_SESSION", env.(session_id));
   ("TAPE_DEMO_LEDGER", env.(ledger_path)); ("TAPE_DEMO_CRASH", if crash then "1" else "0"); ("TAPE_DEMO_EMIT_RUN_ID", "1");
   ("PYTHONPATH", repo_root +:+ "/tape/sdk/python:" +:+ repo_root +:+ "/tape/cli:" +:+ pythonpath)].
(** The run's id on the child's output: the first line that gives one. *)
Fixpoint run_id_line (lines : list string) : string :=
  match lines with
  | [] => ""
  | line :: lines =>
    let line := strip line in
    if starts_with "RUN_ID=" line then drop_prefix "RUN_ID=" line else run_id_line lines
  end.
Definition environ_get (key : string) (environ : list (string * string)) : result string :=
  match find (fun kv => bool_decide (kv.1 = key)) environ with Some kv => Ok kv.2 | None => Err (Raised "KeyError" key) end.
(** [_phase_a_main_for_subprocess]: the child's entry *)
Definition phase_a_main (own_pid : Z) (environ : list (string * string)) : P unit :=
  _ ← (lift (environ_get "TAPE_URL" environ) : P string);
  ledger ← (lift (environ_get "TAPE_DEMO_LEDGER" environ) : P string);
  let crash := match environ_get "TAPE_DEMO_CRASH" environ with Ok v => bool_decide (v = "1") | Err _ => false end in
  invocation ← (lift (environ_get "TAPE_DEMO_INVOCATION" environ) : P string);
  session ← (lift (environ_get "TAPE_DEMO_SESSION" environ) : P string);
  _ ← phase_a_first_run (mkDemoEnv invocation session own_pid ledger) crash;
  Throw (SystemExit 0).
End phase_a.

(** ** The narration changes nothing

    [narrates Q p q]: the staged program makes the calls of the plain one and ends as it
    does, with a screen [Q] holds of. *)
Lemma exec_call_inv {C} {R : C -> Type} {A} c (k : result (R c) -> prog R A) t o :
  exec (Call c k) t o -> exists r t', t = Ev c r :: t' /\ exec (k r) t' o.
Proof.
  intros He. pattern t, o. refine (wp_exec (Call c k) _ t o _ He). intros r. apply exec_wp. intros t' o' He'. by exists r, t'.
Qed.
Section narrates.
Context {A : Type} (Q : result A -> Screen -> Prop).
Inductive narrates : P (result A * Screen) -> P A -> Prop :=
  | narrates_ret a s : Q (Ok a) s -> narrates (Ret (Ok a, s)) (Ret a)
  | narrates_throw e s : Q (Err e) s -> narrates (Ret (Err e, s)) (Throw e)
  | narrates_call c k k' : (forall r, narrates (k r) (k' r)) -> narrates (Call c k) (Call c k').

Lemma narrates_exec p q t x : narrates p q -> exec p t x -> exists o s, x = Ok (o, s) /\ exec q t o /\ Q o s.
Proof.
  intros Hn. revert t x. induction Hn as [a s HQ|e s HQ|c k k' _ IH]; intros t x He;
    [inversion He; subst; eexists _, _; split; [done|split; [constructor|done]]..|].
  apply exec_call_inv in He as (r & t' & -> & He). destruct (IH r t' x He) as (o & s & -> & He' & HQ).
  exists o, s. split; [done|]. split; [by constructor|done].
Qed.

Lemma narrates_plain p q : narrates p q -> wp p (fun t x => exists o s, x = Ok (o, s) /\ exec q t o).
Proof. intros Hn. apply exec_wp. intros t x Hx. destruct (narrates_exec p q t x Hn Hx) as (o & s & -> & He & _). by exists o, s. Qed.

(** A step that acts is a step of the plain program. *)
Lemma narrates_acts {B} (p : P B) (m : B -> Stage A) (f : B -> P A) s :
  (forall b, narrates (m b s) (f b)) -> (forall e, Q (Err e) s) ->
  narrates (mbind (M := Stage) m (acts p) s) (p ≫= f).
Proof.
  intros Hm He. unfold acts, caught. unfold mbind, stage_bind. induction p as [b|e|c k IH]; cbn.
  - apply Hm.
  - by constructor.
  - constructor. intros r. apply IH.
Qed.
(** One that only shows is none. *)
Lemma narrates_shows f (m : unit -> Stage A) s s' q :
  f s = Ok s' -> narrates (m tt s') q -> narrates (mbind (M := Stage) m (shows f) s) q.
Proof. intros Hf Hm. unfold mbind, stage_bind, shows. by rewrite Hf. Qed.
End narrates.

Definition state_at (idx : nat) (s : Screen) : option PhaseState := phase_state <$> s.(phases) !! idx.
Definition praised (s : Screen) : bool := starts_with "[bold green]✓" s.(headline).
(** Before the verdict, phase [v], the last: nothing says that the demo has proved anything. *)
Definition unsettled (v : nat) (s : Screen) : Prop :=
  length s.(phases) = S v /\ state_at v s <> Some PHASE_DONE /\ praised s = false.
(** The verdict on the screen is the exit code. *)
Definition verdict (v : nat) (code : result Z) (s : Screen) : Prop :=
  (code = Ok 0%Z <-> state_at v s = Some PHASE_DONE) /\ (code = Ok 0%Z <-> praised s = true).
Lemma unsettled_verdict v code s : unsettled v s -> code <> Ok 0%Z -> verdict v code s.
Proof. intros (_ & Hs & Hp) Hc. split; split; intros E; by rewrite ?Hp in E. Qed.

Lemma move_phase_ok st idx d s :
  idx < length s.(phases) ->
  exists s', move_phase st idx d s = Ok s' /\ length s'.(phases) = length s.(phases) /\ s'.(headline) = s.(headline) /\
    state_at idx s' = Some st /\ forall j, j <> idx -> state_at j s' = state_at j s.
Proof.
  intros Hi. unfold move_phase. destruct (lookup_lt_is_Some_2 _ _ Hi) as [p Hp]. rewrite Hp.
  eexists. split; [done|]. split; [apply length_insert|]. split; [done|]. unfold state_at. cbn [phases set_phases].
  split; [by rewrite list_lookup_insert_eq|]. intros j Hj. by rewrite list_lookup_insert_ne.
Qed.
Lemma move_unsettled v st idx d s :
  idx <= v -> (idx = v -> st <> PHASE_DONE) -> unsettled v s -> exists s', move_phase st idx d s = Ok s' /\ unsettled v s'.
Proof.
  intros Hi Hst (Hl & Hs & Hp). destruct (move_phase_ok st idx d s) as (s' & -> & Hl' & Hh & Hi' & Ho); [lia|].
  exists s'. split; [done|]. split; [congruence|]. split; [|unfold praised; by rewrite Hh].
  destruct (decide (idx = v)) as [->|Hne]; [|by rewrite Ho].
  rewrite Hi'. intros [= E]. by apply Hst.
Qed.
Lemma stream_worker_phases streams st :
  (stream_worker streams st).2.(phases) = st.2.(phases) /\ (stream_worker streams st).2.(headline) = st.2.(headline).
Proof.
  revert st. induction streams as [|[es ending] streams IH]; intros st; [done|]. cbn [stream_worker].
  assert (Hf : (foldl take_entry st es).2.(phases) = st.2.(phases) /\ (foldl take_entry st es).2.(headline) = st.2.(headline)).
  { clear. revert st. induction es as [|e es IH]; intros st; [done|]. cbn [foldl]. destruct (IH (take_entry st e)) as [-> ->].
    unfold take_entry. case_match; [done|]. by case_match. }
  destruct ending as [ex|]; [case_decide|]; rewrite ?(proj1 (IH _)), ?(proj2 (IH _)); done.
Qed.
Lemma unsettled_same v s s' : s'.(phases) = s.(phases) -> s'.(headline) = s.(headline) -> unsettled v s -> unsettled v s'.
Proof. unfold unsettled, state_at, praised. by intros -> ->. Qed.
Lemma mark_crash_same s : (mark_crash s).(phases) = s.(phases) /\ (mark_crash s).(headline) = s.(headline).
Proof. unfold mark_crash. by destruct (last_seq s). Qed.

Section narrated.
Context {A : Type} (v : nat) (Q : result A -> Screen -> Prop).
(** Until the verdict an error leaves no verdict. *)
Hypothesis raised_early : forall e s, unsettled v s -> Q (Err e) s.
Lemma narrates_act {B} (p : P B) (m : B -> Stage A) (f : B -> P A) s :
  unsettled v s -> (forall b, narrates Q (m b s) (f b)) -> narrates Q (mbind (M := Stage) m (acts p) s) (p ≫= f).
Proof. intros Hs Hm. apply narrates_acts; auto. Qed.
Lemma narrates_move st idx d (m : unit -> Stage A) s q :
  idx < v -> unsettled v s -> (forall s', unsettled v s' -> narrates Q (m tt s') q) ->
  narrates Q (mbind (M := Stage) m (shows (move_phase st idx d)) s) q.
Proof.
  intros Hi Hs Hm. destruct (move_unsettled v st idx d s) as (s' & Hf & Hs'); [lia|lia|done|].
  by eapply narrates_shows, Hm.
Qed.
Lemma narrates_same f (m : unit -> Stage A) s q :
  (forall s, exists s', f s = Ok s' /\ s'.(phases) = s.(phases) /\ s'.(headline) = s.(headline)) ->
  unsettled v s -> (forall s', unsettled v s' -> narrates Q (m tt s') q) -> narrates Q (mbind (M := Stage) m (shows f) s) q.
Proof.
  intros Hf Hs Hm. destruct (Hf s) as (s' & Ef & Hp & Hh). eapply narrates_shows; [exact Ef|]. apply Hm.
  by eapply unsettled_same.
Qed.
End narrated.

Section stages.
Context `{PyText}.
Variable env : DemoEnv.

(** The scenarios without their screen; the first process's end is waited for. *)
Definition crash_body (waited : result Z) : P Z :=
  run_id ← spawn_phase_a env true;
  _ ← lift waited;
  if decide (run_id = "") then mret 2%Z
  else
    _ ← phase_b_recover env run_id;
    wires ← screen_wires env.(ledger_path);
    match wires with
    | [w] => _ ← lift (item_text w "wire_id"); mret 0%Z
    | _ => mret 1%Z
    end.
Lemma crash_body_scenario rc : crash_resume_scenario env = try_ (crash_body (Ok rc)) (fun _ => mret 2%Z).
Proof. reflexivity. Qed.

Lemma verified_narrates {A} v proved (ends : Z -> A) s (Q : result A -> Screen -> Prop) :
  starts_with "[bold green]✓" proved = true -> unsettled v s ->
  (forall code s, verdict v (Ok code) s -> Q (Ok (ends code)) s) -> (forall e s, unsettled v s -> Q (Err e) s) ->
  narrates Q (verified env v proved ends s)
    (wires ← screen_wires env.(ledger_path);
     match wires with [w] => _ ← lift (item_text w "wire_id"); mret (ends 0%Z) | _ => mret (ends 1%Z) end).
Proof.
  intros Hp Hs HQ He. destruct (move_unsettled v PHASE_ACTIVE v "" s) as (s1 & E1 & Hs1); [lia|done|done|].
  unfold verified. eapply narrates_shows; [exact E1|]. apply (narrates_act v); [done..|]. intros wires.
  assert (Hfail : narrates Q
    ((_ ← failed_at v ("bank ledger has " +:+ pretty (Z.of_nat (length wires)) +:+ " wires — expected 1");
      _ ← headlined (wires_failed (length wires)); mret (ends 1%Z)) s1) (mret (ends 1%Z))).
  { destruct (move_unsettled v PHASE_FAIL v ("bank ledger has " +:+ pretty (Z.of_nat (length wires)) +:+ " wires — expected 1") s1)
      as (s2 & E2 & Hs2); [lia|done|done|].
    eapply narrates_shows; [exact E2|]. eapply narrates_shows; [done|]. apply narrates_ret, HQ, unsettled_verdict; [|done].
    destruct Hs2 as (Hl & Hst & _). by split_and!. }
  destruct wires as [|w [|? ?]]; [exact Hfail| |exact Hfail]. clear Hfail.
  apply (narrates_act v); [done..|]. intros id.
  destruct (move_phase_ok PHASE_DONE v ("bank ledger: 1 wire (" +:+ text id +:+ ")") s1) as (s2 & E2 & _ & _ & Hst & _).
  { destruct Hs1 as (-> & _). lia. }
  eapply narrates_shows; [exact E2|]. eapply narrates_shows; [done|]. apply narrates_ret, HQ. by split; split.
Qed.

Lemma crash_stage_narrates waited before s :
  unsettled 8 s -> narrates (verdict 8) (crash_stage env waited before s) (crash_body waited).
Proof.
  assert (He : forall e s, unsettled 8 s -> verdict 8 (Err e) s) by (intros; by apply unsettled_verdict).
  intros Hs. unfold crash_stage, crash_body, starts, done_with, failed_at.
  assert (Hmove : forall st idx d (m : unit -> Stage Z) s q, idx < 8 -> unsettled 8 s ->
    (forall s', unsettled 8 s' -> narrates (verdict 8) (m tt s') q) -> narrates (verdict 8) (mbind (M := Stage) m (shows (move_phase st idx d)) s) q)
    by (intros; by eapply narrates_move).
  apply Hmove; [lia|done|]. intros s1 Hs1. apply (narrates_act 8); [done..|]. intros run_id.
  apply (narrates_act 8); [done..|]. intros rc. apply (narrates_same 8); [|done|].
  { intros s0. eexists. split; [done|]. case_decide; [done|]. by destruct (stream_worker_phases before (0%Z, s0)) as [-> ->]. }
  intros s2 Hs2. do 4 (apply Hmove; [lia|done|]; clear dependent s2; intros s2 Hs2).
  apply (narrates_same 8); [|done|].
  { intros s0. eexists. split; [done|]. apply mark_crash_same. }
  intros s3 Hs3. case_decide.
  - eapply narrates_shows; [done|]. apply narrates_ret, unsettled_verdict; [|done]. destruct Hs3 as (Hl & Hst & _). by split_and!.
  - apply Hmove; [lia|done|]. intros s4 Hs4. apply (narrates_act 8); [done..|]. intros r.
    do 3 (apply Hmove; [lia|done|]; clear dependent s4; intros s4 Hs4). by apply (verified_narrates 8 _ (fun code => code)).
Qed.

Ltac narrated Hmove Hact :=
  repeat first
    [ match goal with |- narrates _ (mbind (M := Stage) _ (shows _) _) _ => apply Hmove; [lia|assumption|] end;
      match goal with Hs : unsettled _ ?s |- _ => clear dependent s end; intros ? ?
    | match goal with |- narrates _ (mbind (M := Stage) _ (acts _) _) _ => apply Hact; [assumption|]; intros ? end ].
Definition code_of (r : result (string * Z)) : result Z := match r with Ok x => Ok x.2 | Err e => Err e end.
Lemma unknown_stage_narrates s :
  unsettled 9 s -> narrates (fun o => verdict 9 (code_of o)) (unknown_stage env s) (run_unknown_reconcile_scenario env).
Proof.
  assert (He : forall e s, unsettled 9 s -> verdict 9 (code_of (Err e)) s) by (intros; by apply unsettled_verdict).
  intros Hs. unfold unknown_stage, run_unknown_reconcile_scenario, starts, done_with, failed_at. cbv zeta.
  set (Q := fun o => verdict 9 (code_of o)).
  assert (Hmove : forall st idx d (m : unit -> Stage (string * Z)) s q, idx < 9 -> unsettled 9 s ->
    (forall s', unsettled 9 s' -> narrates Q (m tt s') q) -> narrates Q (mbind (M := Stage) m (shows (move_phase st idx d)) s) q)
    by (intros; by eapply narrates_move).
  assert (Hact : forall B (p : P B) (m : B -> Stage (string * Z)) (f : B -> P (string * Z)) s, unsettled 9 s ->
    (forall b, narrates Q (m b s) (f b)) -> narrates Q (mbind (M := Stage) m (acts p) s) (p ≫= f))
    by (intros; by apply (narrates_act 9)).
  assert (Hend : forall rid s, unsettled 9 s -> narrates Q (Ret (Ok (rid, 2%Z), s)) (Ret (rid, 2%Z)))
    by (intros; by apply narrates_ret, unsettled_verdict).
  narrated Hmove Hact. case_match; narrated Hmove Hact; [by apply Hend|].
  case_match; narrated Hmove Hact; [by apply Hend|].
  case_match; narrated Hmove Hact; [|by apply Hend].
  apply (verified_narrates 9 _ (fun code => (_, code))); [done|assumption| |]; auto.
Qed.
End stages.

(** ** The two traces of a command *)
Definition server_of (ev : event demo_answer) : list (event answer) :=
  let 'Ev c r := ev in
  match c return result (demo_answer c) -> list (event answer) with
  | ToServer c => fun r => [Ev c r] | ToConsole _ => fun _ => [] end r.
Definition console_of (ev : event demo_answer) : list (event cli_answer) :=
  let 'Ev c r := ev in
  match c return result (demo_answer c) -> list (event cli_answer) with
  | ToConsole c => fun r => [Ev c r] | ToServer _ => fun _ => [] end r.
Definition server_trace (t : list (event demo_answer)) : list (event answer) := t ≫= server_of.
Definition console_trace (t : list (event demo_answer)) : list (event cli_answer) := t ≫= console_of.
Lemma server_trace_app t t' : server_trace (t ++ t') = server_trace t ++ server_trace t'.
Proof. apply bind_app. Qed.
Lemma console_trace_app t t' : console_trace (t ++ t') = console_trace t ++ console_trace t'.
Proof. apply bind_app. Qed.

Lemma wp_on_server {A} (p : P A) (Q : list (event demo_answer) -> result A -> Prop) :
  wp p (fun t o => forall t', server_trace t' = t -> console_trace t' = [] -> Q t' o) -> wp (on_server p) Q.
Proof.
  revert Q. induction p as [a|e|c k IH]; intros Q Hp; [exact (Hp [] eq_refl eq_refl)..|].
  intros r. apply IH. eapply wp_mono, (Hp r). intros t o HQ t' <- Ht. by apply (HQ (Ev (R:=demo_answer) (ToServer c) r :: t')).
Qed.
Lemma wp_on_console {A} (p : Cmd A) (Q : list (event demo_answer) -> result A -> Prop) :
  wp p (fun t o => forall t', console_trace t' = t -> server_trace t' = [] -> Q t' o) -> wp (on_console p) Q.
Proof.
  revert Q. induction p as [a|e|c k IH]; intros Q Hp; [exact (Hp [] eq_refl eq_refl)..|].
  intros r. apply IH. eapply wp_mono, (Hp r). intros t o HQ t' <- Ht. by apply (HQ (Ev (R:=demo_answer) (ToConsole c) r :: t')).
Qed.

(** A console call that does not raise [typer.Exit] itself *)
Definition ordinary (ev : event cli_answer) : Prop := forall code, ev.(ev_answer) <> Err (Exit code).
Definition removed_of (ev : event cli_answer) : list string :=
  match ev.(ev_call) with RemoveTree path => [path] | _ => [] end.
Definition removed (t : list (event cli_answer)) : list string := t ≫= removed_of.
Lemma removed_app t t' : removed (t ++ t') = removed t ++ removed t'.
Proof. apply bind_app. Qed.
(** Neither starts, nor stops, nor removes. *)
Definition quiet (t : list (event cli_answer)) : Prop := started t = [] /\ stopped t = [] /\ removed t = [].
Lemma Forall_app3 {A} (E : A -> Prop) l1 l2 l3 : Forall E (l1 ++ l2 ++ l3) -> Forall E l1 /\ Forall E l2 /\ Forall E l3.
Proof. by rewrite !Forall_app. Qed.
Lemma exit_inj a b : Exit a = Exit b -> a = b.
Proof. by intros [= E%(inj pretty)]. Qed.

(** Where a call has raised *)
Ltac raises :=
  split; [done|]; split; [done|]; split; [done|]; split;
    [intros Ho code; repeat (apply Forall_cons in Ho as [? Ho]); first [discriminate | intros ->; match goal with Hc : ordinary _ |- _ => exact (Hc code eq_refl) end]
    |try done; intros Ha; repeat (apply Forall_cons in Ha as [? Ha]); done].

Ltac kept :=
  split; [done|]; split; [done|]; split; [done|]; split;
    [intros Ha; repeat (apply Forall_cons in Ha as [? Ha]); done
    |intros Ho code; repeat (apply Forall_cons in Ho as [? Ho]);
     first [discriminate | intros [= ->]; match goal with Hc : ordinary _ |- _ => exact (Hc code eq_refl) end]].

Section commands.
Context `{PyText}.
Variable workdir : string.
Variable port : Z.
Variable polls : list (Z * bool).
Variables binary found : option string.

(** What the start of a demo did: no process, one that is stopped again, or one that listens.
    Nothing is removed. *)
Definition has_server : bool := match opt_str_or binary found with None | Some "" => false | Some _ => true end.
Lemma demo_server_starts :
  wp (start_demo_server workdir port polls binary found) (fun t o => removed t = [] /\
    match o with
    | Ok server => started t = [server] /\ stopped t = [] /\ listens polls = true
    | Err e => stopped t = started t /\ (listens polls = true -> started t = []) /\ (Forall ordinary t -> forall code, e <> Exit code) /\
               (Forall answered t -> has_server && listens polls = false)
    end).
Proof.
  unfold start_demo_server, has_server, die, say. destruct (opt_str_or binary found) as [[|c bin]|].
  1,3: intros [[]|e]; raises.
  intros [[]|e]; [|raises]. do 3 (intros [[]|e]; [|raises]). intros [server|e]; [|raises].
  destruct (listens polls) eqn:El; [done|]. intros [[]|e]; [|raises]. intros [[]|e]; raises.
Qed.

Lemma tear_down_stops keep server inspect :
  wp (tear_down workdir port keep server inspect) (fun t o => started t = [] /\
    (keep = false -> o = Ok tt /\ stopped t = [server] /\ removed t = [workdir]) /\
    (keep = true -> stopped t = [] /\ removed t = []) /\
    (Forall answered t -> o = Ok tt) /\ (Forall ordinary t -> forall code, o <> Err (Exit code))).
Proof.
  unfold tear_down, suppressed, ok_line, say. destruct keep.
  - do 2 (intros [[]|e]; [|kept]). case_decide; [by kept|]. intros [[]|e]; kept.
  - intros [[]|e]; [intros [[]|e']|]; intros [[]|e'']; by split_and!.
Qed.

(** How a command ends, over what it did to the console and to the server: without [--keep]
    the process it started is stopped, and the directory removed once the server listened;
    it exits with the code of its scenario, and does so when the console answers and the
    server listens.  [V] is what holds of the scenario's calls and of its end. *)
Definition command_ends {A} (keep : bool) (coded : result A -> Z) (V : list (event answer) -> result A -> Prop)
    (console : list (event cli_answer)) (server : list (event answer)) (o : result unit) : Prop :=
  (keep = false -> stopped console = started console /\
     (listens polls = true -> started console <> [] -> removed console = [workdir])) /\
  (Forall ordinary console -> forall c, o = Err (Exit c) -> exists r, V server r /\ c = coded r) /\
  (Forall answered console -> has_server && listens polls = true -> exists r, V server r /\ o = Err (Exit (coded r))).

(** From its parts: the server started, what the scenario's error shows, the end *)
Lemma command_ended {A} keep (coded : result A -> Z) V c1 c3 c4 sv r pid (o : result unit) :
  started c1 = [pid] -> stopped c1 = [] -> removed c1 = [] -> quiet c3 -> started c4 = [] ->
  (keep = false -> stopped c4 = [pid] /\ removed c4 = [workdir]) -> V sv r ->
  (forall c, o = Err (Exit c) -> Forall ordinary c3 -> Forall ordinary c4 -> c = coded r) ->
  (Forall answered c3 -> Forall answered c4 -> o = Err (Exit (coded r))) ->
  command_ends keep coded V (c1 ++ c3 ++ c4) sv o.
Proof.
  intros Hst Hno Hrm (Hst3 & Hno3 & Hrm3) Hst4 Hk HV Hex Hok. split_and!.
  - intros Ek. destruct (Hk Ek) as [Hno4 Hrm4].
    by rewrite !stopped_app, !started_app, !removed_app, Hst, Hno, Hrm, Hst3, Hno3, Hrm3, Hst4, Hno4, Hrm4.
  - intros (_ & H3 & H4)%Forall_app3 c Eo. exists r. auto.
  - intros (_ & H3 & H4)%Forall_app3 _. exists r. auto.
Qed.

Lemma on_stage_ends {A} keep (scenario : P (result A * Screen)) crashed fallback inspect code
    (V : list (event answer) -> result A -> Prop) :
  wp scenario (fun t x => exists o s, x = Ok (o, s) /\ V t o) ->
  wp (on_stage workdir port polls binary found keep scenario crashed fallback inspect code) (fun t o =>
    command_ends keep (fun r => code match r with Ok a => a | Err _ => fallback end) V (console_trace t) (server_trace t) o).
Proof.
  intros Hs. unfold on_stage. set (coded := fun r => code _). apply wp_bind, wp_on_console.
  eapply wp_mono, demo_server_starts. intros t1 [server|e] (Hrm & Ho) t1' <- Hsv; cbn.
  2:{ destruct Ho as (Heq & Hl & Hord & Hans). split_and!.
      - intros _. split; [done|]. intros Hlis Hst. by destruct Hst, Hl.
      - intros Hf c [= ->]. by destruct (Hord Hf c).
      - intros Hf Hlis. by rewrite (Hans Hf) in Hlis. }
  destruct Ho as (Hst & Hno & _).
  apply wp_bind, wp_caught, wp_bind, wp_on_server. eapply wp_mono, Hs. intros t2 x (o & s & -> & HV) t2' <- Hc2. cbn [fst].
  match goal with |- wp _ ?Q0 => set (Q := Q0) end.
  assert (Hend : forall t3 r, quiet (console_trace t3) -> server_trace t3 = [] ->
    (Forall ordinary (console_trace t3) -> forall c, r <> Err (Exit c)) ->
    (forall a, r = Ok a -> code a = coded o) -> (Forall answered (console_trace t3) -> is_ok r) -> Q t3 r).
  { intros t3 r Hq3 Hsv3 Hord3 Hcode Hans3. subst Q. cbn beta. apply wp_bind, wp_on_console.
    eapply wp_mono, tear_down_stops. intros t4 o4 (Hst4 & Hk & Hkeep & Hans4 & Hord4) t4' <- Hsv4.
    assert (Hleaf : forall o',
      (forall c, o' = Err (Exit c) -> Forall ordinary (console_trace t3) -> Forall ordinary (console_trace t4') -> c = coded o) ->
      (Forall answered (console_trace t3) -> Forall answered (console_trace t4') -> o' = Err (Exit (coded o))) ->
      command_ends keep coded V (console_trace (t1' ++ (t2' ++ t3) ++ t4')) (server_trace (t1' ++ (t2' ++ t3) ++ t4')) o').
    { intros o' Hex Hok. rewrite !server_trace_app, !console_trace_app, Hsv, Hsv3, Hsv4, Hc2, !app_nil_r.
      eapply command_ended; [exact Hst|done..| |exact HV|exact Hex|exact Hok]. intros Ek. by destruct (Hk Ek) as (_ & ? & ?). }
    destruct o4 as [[]|e]; [destruct r as [a|e]|]; cbn; rewrite ?app_nil_r; apply Hleaf.
    - intros c [= E%(inj pretty)] _ _. by rewrite <- E, (Hcode a).
    - intros _ _. by rewrite (Hcode a).
    - intros c [= ->] Hf _. by destruct (Hord3 Hf c).
    - intros Hf _. by specialize (Hans3 Hf).
    - intros c [= ->] _ Hf. by destruct (Hord4 Hf c).
    - intros _ Hf. by specialize (Hans4 Hf). }
  destruct o as [a|ex]; [apply Hend; [by split_and!|done|..]; try done; by intros ? [= ->]|].
  intros [[]|e]; (apply Hend; [by split_and!|done|..]); try done.
  - by intros a [= <-].
  - intros [Hf _]%Forall_cons c [= ->]. by apply (Hf c).
  - by intros [Hf _]%Forall_cons.
Qed.
End commands.

(** ** [tape demo crash-resume], from its start to its end *)
Lemma exec_try {C} {R : C -> Type} {A} (p : prog R A) (a : A) t o :
  exec p t o -> exec (try_ p (fun _ => mret a)) t (Ok match o with Ok a' => a' | Err _ => a end).
Proof. induction 1; cbn; by constructor. Qed.

Section crash_resume.
Context `{PyText}.
Variable env : DemoEnv.
Variables run_id key : string.
Variable faulty : bool.
#[local] Abbreviation step := (demo_step faulty env.(ledger_path) (journal_step run_id key)).
Definition fresh_world : option json * bool := (None, false).
Lemma crash_stage_unsettled detail : unsettled 8 (set_stage crash_labels detail).
Proof. by split_and!. Qed.
Lemma unknown_stage_unsettled detail : unsettled 9 (set_stage unknown_labels detail).
Proof. by split_and!. Qed.

(** The scenario over its world, the wait for the first process included *)
Lemma crash_body_settles waited t r s' :
  run_id <> "" -> exec (crash_body env waited) t r -> world_steps step fresh_world t s' ->
  (r = Ok 0%Z -> settled key s') /\ (faulty = false -> is_ok waited -> r = Ok 0%Z).
Proof.
  intros Hne He Ht. destruct waited as [rc|e].
  - apply (exec_try _ 2%Z) in He. rewrite <- crash_body_scenario in He.
    destruct (crash_resume_recovers env run_id key faulty t _ s' Hne He Ht) as (_ & Hset & Hok).
    split; [intros ->; by apply Hset|]. intros E _. specialize (Hok E). destruct r as [c|ex]; congruence.
  - split; [|done]. intros ->. exfalso. revert He. unfold crash_body. intros He.
    change (match (Ok 0%Z : result Z) with Ok _ => False | Err _ => True end). pattern t, (Ok 0%Z : result Z).
    refine (wp_exec _ _ t _ _ He). apply wp_bind, wp_any. by intros t' [a|e'].
Qed.

(** The screen is true: its last phase is done and its headline says that the demo proved its
    point exactly when the scenario ends with 0, and then the wire is on file, once, and the
    journal confirms it. *)
Theorem crash_screen_is_true waited before detail t x s' :
  run_id <> "" -> exec (crash_stage env waited before (set_stage crash_labels detail)) t x ->
  world_steps step fresh_world t s' ->
  exists r s, x = Ok (r, s) /\ (r = Ok 0%Z <-> state_at 8 s = Some PHASE_DONE) /\ (r = Ok 0%Z <-> praised s = true) /\
    (praised s = true -> settled key s').
Proof.
  intros Hne He Ht. destruct (narrates_exec _ _ _ _ _ (crash_stage_narrates env waited before _ (crash_stage_unsettled detail)) He)
    as (r & s & -> & Hb & Hst & Hp).
  exists r, s. split_and!; try done. intros E%Hp. by apply (crash_body_settles waited t r s').
Qed.
End crash_resume.

Section whole.
Context `{PyText}.
Variable workdir : string.
Variable port : Z.
Variable polls : list (Z * bool).
Variables binary found : option string.
Variable keep_after : bool.
Variables invocation session : string.
Variable own_pid : Z.
#[local] Abbreviation env := (stage_env workdir invocation session own_pid).
Variables run_id key : string.
Variable faulty : bool.
#[local] Abbreviation step := (demo_step faulty (workdir +:+ "/bank.json") (journal_step run_id key)).

(** C24: [tape demo crash-resume].  When none of its calls raises an [Exit] of its own, it
    exits with 0 only when the wire is on file, once, and the journal confirms it.  It does
    exit with 0 when a server is found and listens within the polls, no call of it fails,
    and the first process, dead with the wire on file and nothing confirmed, was waited for.
    Without [--keep] the server it started is stopped, and, if the server came to listen,
    its directory removed; [silent_server_leaves_the_directory] is the other case. *)
Theorem crash_resume_command waited before t o s' :
  run_id <> "" ->
  exec (crash_resume workdir port polls binary found keep_after invocation session own_pid waited before) t o ->
  world_steps step fresh_world (server_trace t) s' ->
  (Forall ordinary (console_trace t) -> o = Err (Exit 0) -> settled key s') /\
  (Forall answered (console_trace t) -> has_server binary found && listens polls = true -> faulty = false -> is_ok waited ->
     o = Err (Exit 0)) /\
  (keep_after = false -> stopped (console_trace t) = started (console_trace t) /\
     (listens polls = true -> started (console_trace t) <> [] -> removed (console_trace t) = [workdir])).
Proof.
  intros Hne He Ht.
  assert (Hw := on_stage_ends workdir port polls binary found keep_after
    (crash_stage env waited before (set_stage crash_labels (listening_at port))) "demo crashed: " 2%Z (fun _ => "<run-id>")
    (fun code => code) (exec (crash_body env waited)) (narrates_plain _ _ _ (crash_stage_narrates env _ _ _ (crash_stage_unsettled _)))).
  destruct (wp_exec _ _ t o Hw He) as (Hstop & Hexit & Hok).
  assert (Hsettles := fun r Hb => crash_body_settles env run_id key faulty waited (server_trace t) r s' Hne Hb Ht).
  split_and!; [| |exact Hstop].
  - intros Hf Eo. destruct (Hexit Hf 0%Z Eo) as (r & Hb & Hr). apply (Hsettles r Hb). by destruct r as [c|e]; [subst c|].
  - intros Hf Hl Ef Hwt. destruct (Hok Hf Hl) as (r & Hb & ->). by rewrite (proj2 (Hsettles r Hb) Ef Hwt).
Qed.

(** [tape demo unknown-reconcile]: the exit code is the scenario's, and 2 where it raised. *)
Lemma unknown_reconcile_command t o :
  exec (unknown_reconcile workdir port polls binary found keep_after invocation session own_pid) t o ->
  command_ends workdir polls binary found keep_after (fun r => match r with Ok ended => ended.2 | Err _ => 2%Z end)
    (exec (run_unknown_reconcile_scenario env)) (console_trace t) (server_trace t) o.
Proof.
  intros He. pattern t, o. refine (wp_exec _ _ t o _ He). clear He t o.
  eapply wp_mono; [|apply (on_stage_ends workdir port polls binary found keep_after _ _ _ _ _ (exec (run_unknown_reconcile_scenario env))),
    (narrates_plain _ _ _ (unknown_stage_narrates env _ (unknown_stage_unsettled _)))].
  intros t o (Hs & Hx & Hok). split_and!; [done|..].
  - intros Hf c Eo. destruct (Hx Hf c Eo) as (r & Hr & ->). exists r. by destruct r.
  - intros Hf Hl. destruct (Hok Hf Hl) as (r & Hr & ->). exists r. by destruct r.
Qed.
End whole.

(** The child reads from its environment what its parent drew. *)
Lemma child_has_the_parents_names `{PyText} env url repo_root crash pythonpath rest own_pid :
  phase_a_main own_pid (phase_a_env env url repo_root crash pythonpath ++ rest) =
  (_ ← phase_a_first_run (mkDemoEnv env.(invocation_id) env.(session_id) own_pid env.(ledger_path)) crash;
   Throw (SystemExit 0)).
Proof. by destruct crash. Qed.

Ltac refuted :=
  apply wp_any; intros ? ? Ha Hs; cbn in Ha, Hs; repeat (apply Forall_cons in Ha as [? Ha]);
  repeat (apply Forall_cons in Hs as [? Hs]); done.
(** ** What [--db] removes

    With [--db path] and without [--keep] the directory of the given database, and all that
    is in it, is removed at the end. *)
Lemma given_database_is_removed `{PyText} workdir parent p ran t o :
  p <> "" -> exec (tape_adk_embedded workdir false parent (Some p) ran) t o ->
  Forall answered (console_trace t) -> Forall (fun ev => is_ok (ev_answer ev)) (server_trace t) ->
  removed (console_trace t) = [parent p].
Proof.
  intros Hp He. pattern t, o. refine (wp_exec _ _ t o _ He). clear He t o. unfold tape_adk_embedded, adk_place, say, warn.
  rewrite bool_decide_false by done. cbn [negb default].
  intros [[]|e]; [|refuted]. do 3 (intros [[]|e]; [|refuted]). intros [f|e]; [|refuted].
  assert (Hend : forall (r : result (option string * Z)) (K : list (event demo_answer) -> result unit -> Prop),
    (forall r' o', K [Ev (R:=demo_answer) (ToConsole (RemoveTree (parent p))) r'] o') ->
    wp (_ ← on_console (suppressed (invoke (RemoveTree (parent p)))); ended ← lift r; Throw (Exit ended.2)) K).
  { intros r K HK [[]|e]; destruct r as [ended|e']; apply HK. }
  destruct f as [f|]; [|intros [[]|e]; [|refuted]]; (destruct ran as [ended|ex]; [|intros [[]|e]; [|refuted]]);
    apply Hend; by intros.
Qed.


(** ** Concrete runs *)
Definition console (c : cli_call) : result (cli_answer c) :=
  match c return result (cli_answer c) with
  | StartProc _ _ => Ok 7%Z
  | MakeDirs _ | PrintText _ | Terminate _ | WaitProc _ _ | RemoveTree _ | ImportModule _ => Ok tt
  | _ => Err (Raised "OSError" "")
  end.
Section both.
Context {W : Type} (server : forall c, M W (answer c)).
Definition both (c : demo_call) : M W (demo_answer c) :=
  match c return M W (demo_answer c) with
  | ToServer c => server c
  | ToConsole c => fun w => (console c, w)
  end.
Lemma both_steps (step : W -> event answer -> W -> Prop) {A} (p : Demo A) w :
  (forall c w, step w (Ev c (server c w).1) (server c w).2) ->
  world_steps step w (server_trace (trace both p w)) (run both p w).2.
Proof.
  intros Hs. revert w. induction p as [a|e|[c|c] k IH]; intros w; [constructor..| |].
  - cbn. specialize (Hs c w). destruct (server c w) as [r w1]. cbn. econstructor; [exact Hs|apply IH].
  - apply IH.
Qed.
End both.

#[local] Existing Instance sample_text.
#[local] Abbreviation sample_command := (crash_resume "/tmp" 7000 [(0%Z, false); (100%Z, true)] None (Some "/usr/local/bin/tape-server")
  false "demo-1" "sess-1" 4242 (Ok 137%Z) []).
Lemma crash_resume_command_witness :
  (run (both demo_server) sample_command fresh_world).1 = Err (Exit 0) /\
  settled demo_key (run (both demo_server) sample_command fresh_world).2.
Proof.
  assert (Ho : (run (both demo_server) sample_command fresh_world).1 = Err (Exit 0)) by (vm_compute; reflexivity).
  split; [exact Ho|].
  refine (proj1 (crash_resume_command "/tmp" 7000 _ None (Some "/usr/local/bin/tape-server") false "demo-1" "sess-1" 4242
    "run-1" demo_key true (Ok 137%Z) [] (trace (both demo_server) sample_command fresh_world) _ _ _ (run_exec _ _ _) _) _ Ho);
    [discriminate|apply both_steps, demo_server_steps|].
  vm_compute. repeat constructor; discriminate.
Defined.

(** The screen before the crash tells what should have happened: the first process failed
    before it recorded anything, and its decision, its intent and its wire are shown as done. *)
Definition refusing_server (c : call) : M (option json * bool) (answer c) :=
  match c return M (option json * bool) (answer c) with
  | RecordDecision _ _ _ _ _ _ _ => fun w => (Err (RpcError "UNAVAILABLE"), w)
  | c => demo_server c
  end.
Lemma narration_is_unconditional :
  exists s, run refusing_server (crash_stage demo_env (Ok 1%Z) [] (set_stage crash_labels "")) fresh_world =
    (Ok (Err (RpcError "UNAVAILABLE"), s), (Some (JObj []), false)) /\
  state_at 1 s = Some PHASE_DONE /\ state_at 2 s = Some PHASE_DONE /\ state_at 3 s = Some PHASE_DONE.
Proof. eexists. split; [vm_compute; reflexivity|]. by split_and!. Qed.

(** A server that does not come up leaves the directory behind, [--keep] or not. *)
Lemma silent_server_leaves_the_directory workdir port polls binary found keep_after invocation session own_pid waited before t o :
  listens polls = false ->
  exec (crash_resume workdir port polls binary found keep_after invocation session own_pid waited before) t o ->
  removed (console_trace t) = [].
Proof.
  intros Hl He. pattern t, o. refine (wp_exec _ _ t o _ He). clear He t o.
  unfold crash_resume, on_stage. apply wp_bind, wp_on_console. eapply wp_mono, demo_server_starts.
  intros t o (Hrm & Ho) t' <- _. destruct o as [server|e]; [|done]. destruct Ho as (_ & _ & Hl'). congruence.
Qed.
Lemma crash_screen_is_true_witness :
  exists s, run demo_server (crash_stage demo_env (Ok 137%Z) [] (set_stage crash_labels "")) fresh_world =
    (Ok (Ok 0%Z, s), (Some (full demo_key (crash_wire demo_key)), true)) /\ praised s = true /\
    settled demo_key (Some (full demo_key (crash_wire demo_key)), true).
Proof.
  set (p := crash_stage demo_env (Ok 137%Z) [] (set_stage crash_labels "")).
  destruct (crash_screen_is_true demo_env "run-1" demo_key true (Ok 137%Z) [] "" (trace demo_server p fresh_world)
    (run demo_server p fresh_world).1 (run demo_server p fresh_world).2) as (r & s & Hx & Hc & Hp & Hset);
    [discriminate|apply run_exec|apply handled_steps, demo_server_steps|].
  assert (E : run demo_server p fresh_world = (Ok (r, s), (Some (full demo_key (crash_wire demo_key)), true))).
  { apply injective_projections; [exact Hx|]. vm_compute. reflexivity. }
  assert (Er : r = Ok 0%Z).
  { assert (E' : match (run demo_server p fresh_world).1 with Ok x => x.1 | Err e => Err e end = Ok 0%Z) by (vm_compute; reflexivity).
    by rewrite Hx in E'. }
  subst r. exists s. split; [exact E|]. assert (Hpr : praised s = true) by (apply Hp; reflexivity). split; [exact Hpr|].
  rewrite E in Hset. by apply Hset.
Defined.
